(* ===== verification/_CoqProject ===== *)
-Q . S2P
Prelude.v
Spinlock.v
Rbtree.v
RbShape.v
RbInsert.v
RbRebalance.v
RbErase.v
RbSpec.v
Pelt.v
SchedTypes.v
CpuLoad.v
EntityLoad.v
HmpDomain.v
CpuTopology.v
HmpSelect.v
Cfs.v
CfsInv.v
CfsTree.v
HmpSysfs.v
FreqScale.v
HmpMigration.v
MigrationSafe.v
TaskLists.v
HmpEnh.v
HmpEnhSpec.v
EnhSafe.v
LoadStats.v
LoadBalance.v
Rebalance.v
SelectRq.v
BalanceTopo.v
BalanceSafe.v
BalanceRuns.v
WakeSafe.v
Nohz.v
Vlock.v
Mcpm.v
Dcscb.v
Tc2.v
BLSwitcher.v
FreqTable.v
CpufreqBL.v
CpufreqInv.v
