(* ===== verification/Prelude.v ===== *)
(** * A verification development of the big.LITTLE scheduler and power code

    The repository is a Linux 3.10 tree with the big.LITTLE patches.  Modelled is the
    code these patches consist of or rest on.  Paths below are under [src/3.10].

    ** The program's parts and where they are modelled

    - Heterogeneous multi-processing (HMP) scheduling, [kernel/sched/fair.c].  Each task
      has a load average; a task whose average is high is moved to a big CPU, one whose
      average is low to a LITTLE one.
      - [Pelt]: the arithmetic of the averages (decay tables, [decay_load],
        [__compute_runnable_contrib], [__update_entity_runnable_avg]).
      - [SchedTypes]: the C structures as records and [sys], the store of all of them.
        Pointers are identifiers into [sys], so aliasing is as in the code.
      - [EntityLoad]: how an entity's average feeds its run queue and task group
        ([__synchronize_entity_decay] to [idle_exit_fair]).
      - [HmpDomain]: the list of HMP domains, built from the device tree
        ([arch/arm/kernel/topology.c]), hot-plug, keepalive timers.
      - [CpuTopology]: what the same file learns as CPUs boot: clusters and cores from
        MPIDRs ([store_cpu_topology]), computing power from the device tree
        ([parse_dt_topology]).
      - [HmpSelect]: which CPU and which task ([hmp_domain_min_load] to
        [hmp_offload_down], [hmp_up_migration], [hmp_down_migration], the HMP part of
        [select_task_rq_fair]).
      - [HmpMigration], [MigrationSafe]: moving a task ([move_task],
        [hmp_force_up_migration], [hmp_idle_pull], the CPU stopper callbacks, with
        [kernel/stop_machine.c]).
      - [HmpSysfs]: the tunables under /sys/kernel/hmp, with the parsing of
        [lib/vsprintf.c] they use.
      - [FreqScale]: the cpufreq notifiers that make the averages frequency-invariant.
      - [HmpEnh]: the variant under CONFIG_SCHED_HMP_ENHANCEMENT, with statistics and
        thresholds per cluster ([sched_update_clbstats] to [hmp_idle_pull]), in a module
        [Enh] because it redefines functions; [HmpEnhSpec]: its decisions; [EnhSafe]: its
        migrations, with the run-queue locks it takes and releases in the middle.
    - The fair scheduling class they are part of.
      - [Cfs]: virtual time, the timeline, enqueue, dequeue, pick, preempt.
      - [CfsInv]: its invariants.
      - [CfsTree]: the timeline as the code keeps it, a red-black tree with a pointer to
        the leftmost node ([__enqueue_entity] to [__pick_last_entity]).
      - [TaskLists]: the list of tasks that balancing walks, and what enqueueing,
        dequeueing and moving do to it.
    - Load balancing between the CPUs of a cluster, [kernel/sched/fair.c] and [core.c].
      - [CpuLoad]: the averages [cpu_load] and the aging of real-time load.
      - [LoadStats]: loads and powers of CPUs and groups, the busiest group and CPU, the
        imbalance, the idlest group and CPU ([update_cpu_power] to [find_busiest_queue]).
      - [LoadBalance]: [load_balance] with its retries, and which tasks it moves.
      - [Rebalance]: when it runs: the softirq, going idle, CPUs without a tick, the
        stopper that pushes a running task, the tick.
      - [SelectRq]: [select_task_rq_fair] and waking a task, from [try_to_wake_up] to the
        reschedule IPI; packing of small tasks.
      - [BalanceTopo]: well-formed domains, and that statistics never divide by zero;
        [BalanceSafe]: [load_balance] under the invariant [bal_ok] of accounts, lists and
        topology; [BalanceRuns]: all kinds of balancing, in any order; [WakeSafe]: waking;
        [Nohz]: the bookkeeping of CPUs without a tick.
    - [Spinlock]: ticket spin locks ([arch/arm/include/asm/spinlock.h]), which the locks
      above are made of.
    - Red-black trees, [lib/rbtree.c] with [rbtree.h] and [rbtree_augmented.h].
      - [Rbtree]: the pointer code, on a store of nodes whose words hold a parent and a
        colour; the two mirror images of each branch are one definition with a side.
      - [RbShape]: the same rebalancing on trees as values.
      - [RbInsert], [RbRebalance], [RbErase]: that the first does what the second does.
      - [RbSpec]: what insertion, removal, walking and replacement do to a tree.
    - Cluster power management, [arch/arm/common] and [arch/arm/mach-vexpress].
      - [Vlock]: voting locks ([vlock.S]).
      - [Mcpm]: the first man / last man protocol ([mcpm_head.S], [mcpm_entry.c]).
      - [Dcscb], [Tc2]: two platform back ends ([dcscb.c], [tc2_pm.c]) that implement the
        protocol.
    - The in-kernel switcher, the other use of a big.LITTLE system: a big and a LITTLE CPU
      make one logical CPU, and the cpufreq driver moves it between them.
      - [BLSwitcher]: pairing, switching, requests and the switcher threads, turning the
        switcher on and off ([arch/arm/common/bL_switcher.c]).
      - [FreqTable]: frequency tables ([drivers/cpufreq/freq_table.c]).
      - [CpufreqBL]: the driver ([drivers/cpufreq/arm_big_little.c]); [CpufreqInv]: its
        invariants, and the driver and the switcher running together.

    ** How code is represented

    A w-bit integer is a [Z] in range, with every wrap-around written out ([u32], [u64],
    [s32], [s64] of this file).  A function that updates kernel state takes and returns
    the state; [None] stands for a kernel that stops ([BUG_ON], a NULL pointer, a
    division by zero).  An [#ifdef] is a boolean field of the class [Config], so the
    theorems that do not fix it hold for both settings.  A CPU mask is its bitmap.  A
    scheduler function is one atomic step, as under its run-queue lock.  Locks that are
    tried, or taken and released in the middle of a function, are ticket locks in the
    state: [hmp_force_migration], [balancing] and, in [HmpEnh], those of the run queues.
    The domains of a CPU are a list in its run queue, from the lowest level up, and a
    pointer to a domain is a CPU with a level.  Stopper works, reschedule IPIs and wake
    lists are lists in the state, served by steps of their own.  The power
    code, in contrast, is modelled access by access: each CPU has a program counter, and
    an execution is a schedule of single steps.  So are the switcher threads and the calls
    of [bL_cpufreq_set_rate], between the points where they can be interrupted.  What these
    ask of the outside (power-up, hot-plug, notifiers, clocks, operating points) is answered
    by a record of results that the theorems quantify over.

    ** What is shown

    - Averages: sums stay in 32 bits over every history; the tables and the 32-period
      shortcut compute the intended series up to a stated error; contributions are exact
      except for the greatest weight, where the product overflows.
    - Run queues: over every sequence of scheduler operations, what a run queue accounts
      for is what is queued on it; picking is fair and does not fail.
    - Trees: in memory, insertion and removal keep a red-black tree with the intended order
      of nodes, follow no NULL pointer and end after a number of rounds logarithmic in the
      number of nodes; the tree of a run queue implements the sequence that the theorems
      on run queues speak of.
    - HMP decisions: each has an exact specification (which task, which CPU, when);
      up and down migration do not contradict each other and are rate limited; the
      wake-up path chooses a sound CPU.
    - Topology: the domain list is the one the device tree describes, and follows
      hot-plug; the sibling masks partition the CPUs that have booted as their MPIDRs say,
      and the scale of a CPU's power is positive and bounded.
    - Migration: no interleaving of balancing, stoppers and other activity stops the
      kernel or loses a task reference; moving a task keeps every account.
      The same for the enhancement, where it holds; where it does not (a lock released
      twice, references dropped that were not taken, loads never written), that is shown.
    - Balancing: in every interleaving of ticks, balancing of all kinds, stoppers, tasks
      that wake and sleep and other activity, the accounts and lists stay right, every
      operation ends without a [BUG_ON] or a division by zero, and tasks move only within
      balanced domains, to CPUs they may use, while they do not run; a pass does not
      overshoot the imbalance.  CPU loads converge to a constant load.
    - Waking: a woken task gets to an online CPU it may use, is queued there or on its wake
      list exactly once, and the IPI queues what is on the list.  The count of CPUs without
      a tick is exact, and balancing is only delegated within the cluster.
    - Locks: the ticket lock serves in the order of arrival.
    - Interfaces: what can be written to sysfs keeps the tunables in range, and what is
      read can be written back.
    - Power: mutual exclusion and progress of the voting lock; safety of the cluster
      protocol for every platform; the DCSCB and TC2 back ends refine it, the last man of
      the first completes, and the second powers a cluster down only while it is unused.
    - Switcher: which CPUs are paired and removed; that logical numbers are stable, that
      turning it off undoes turning it on, that accepted requests are served.
    - Frequencies: the entry of a table that is chosen; that in every interleaving the
      clock of a cluster is what its CPUs asked for and an operating point, that calls end,
      and that the switcher brings each CPU to the cluster the driver counts it on.

    ** Fuel and bounds

    Loops over lists, CPUs or table entries are structural.  Loops that are not take
    fuel that is proved or seen to suffice where they are defined: walking the parents of
    an entity uses the number of task groups, the contribution loop the number of
    32-period steps, printing a number ten digits.  The loops of the red-black trees take
    fuel for their rounds, and [max_depth], twice the logarithm of the number of nodes, is
    proved to be enough.  So are the fuel of [move_tasks] (the tasks it may look at), of its
    retries ([more_fuel]: the CPUs of the mask times these tasks) and of [lb_redo] (the CPUs
    of the mask), of the search for the idlest CPU ([idlest_fuel]: the weight of the domain
    times the levels) and of the aging of real-time load (the periods that have passed).
    The safety theorems on balancing assume what the rest of the kernel keeps to: groups of a
    domain that lie within its span and do not overlap the first one, powers of CPUs in
    range, clocks that have been read within the last hour, and all tasks in the root group.

    ** Not modelled

    CFS bandwidth control and hrtick (configured out); the variants of balancing under
    CONFIG_MTK_SCHED_CMP and CONFIG_MT_LOAD_BALANCE_ENHANCEMENT, options that no Kconfig
    file of the tree defines; the construction of scheduling domains ([build_sched_domains]), which allocates
    and sorts them, and appears as the well-formedness [topo_ok]; real-time and stop
    classes, of which only whether they run and what CPUs they may use is seen; in functions
    that do not release them, run-queue locks; RCU and interrupt masking; the callbacks of
    augmented red-black trees; the power back end [tc2_pm_psci.c], which calls firmware; the
    character device of the switcher and the sysfs attributes of cpufreq tables; cache maintenance
    and the hardware behind the power code, which appears as parameters with documented
    behaviour; the rest of the kernel tree, which the patches do not change. *)

From Stdlib Require Export ZArith Lia.
From stdpp Require Export prelude functions list sorting.
#[export] Set Warnings "-clear-no-such-hyp".
#[global] Open Scope Z_scope.

(** * Automation set-up *)

#[global] Arguments Z.add : simpl never.
#[global] Arguments Z.sub : simpl never.
#[global] Arguments Z.mul : simpl never.
#[global] Arguments Z.opp : simpl never.
#[global] Arguments Z.div : simpl never.
#[global] Arguments Z.modulo : simpl never.
#[global] Arguments Z.quot : simpl never.
#[global] Arguments Z.pow : simpl never.
#[global] Arguments Z.shiftl : simpl never.
#[global] Arguments Z.shiftr : simpl never.
#[global] Arguments Z.land : simpl never.
#[global] Arguments Z.lor : simpl never.
#[global] Arguments Z.testbit : simpl never.
#[global] Arguments Z.setbit : simpl never.
#[global] Arguments Z.clearbit : simpl never.
#[global] Arguments Z.leb : simpl never.
#[global] Arguments Z.ltb : simpl never.
#[global] Arguments Z.eqb : simpl never.
#[global] Arguments Z.of_nat : simpl never.
#[global] Arguments Z.to_nat : simpl never.

(** ** Functional record update

    [eta] rebuilds a record from its projections.  From it, the setter of a
    projection is found by abstracting that projection out of the rebuilt
    record, so [r <| f := v |>] is [r] with field [f] replaced by [v]. *)
Class Eta (R : Type) := eta : R -> R.

Class FieldSet {R T : Type} (proj : R -> T) := field_set : T -> R -> R.

Ltac build_field_set :=
  lazymatch goal with
  | |- @FieldSet ?R ?T ?proj =>
      let e := constr:(_ : Eta R) in
      let body := eval hnf in e in
      let v := fresh "v" in
      let r := fresh "r" in
      intros v r;
      let b := eval cbv beta in (body r) in
      let p := eval pattern (proj r) in b in
      lazymatch p with
      | ?g (proj r) => let t := eval cbv beta in (g v) in exact t
      end
  end.

#[global] Hint Extern 1 (FieldSet _) => build_field_set : typeclass_instances.

Declare Scope record_scope.
Delimit Scope record_scope with rec.
#[warnings="-postfix-notation-not-level-1"]
Notation "r <| f := v |>" := (field_set (proj := f) v r)
  (at level 12, f at level 0, v at level 200, left associativity,
   format "r  <| f  :=  v |>") : record_scope.
#[global] Open Scope record_scope.

(** * Kernel configuration

    The [#ifdef]s of the modelled code.  A definition that the preprocessor
    specialises tests the corresponding field, so that a theorem about it holds
    for every configuration unless it says otherwise. *)
Class Config := {
  NR_CPUS : Z;
  NR_CPUS_pos : 0 < NR_CPUS;
  BITS_PER_LONG : Z;
  BITS_PER_LONG_ok : BITS_PER_LONG = 32 \/ BITS_PER_LONG = 64;
  CONFIG_SCHED_HMP_PRIO_FILTER : bool;
  CONFIG_HMP_VARIABLE_SCALE : bool;
  CONFIG_HMP_FREQUENCY_INVARIANT_SCALE : bool;
  CONFIG_SCHED_HMP_LITTLE_PACKING : bool;
  CONFIG_HMP_DELAY_UP_MIGRATION : bool;
  CONFIG_HMP_PACK_STOP_MACHINE : bool;
  CONFIG_SCHED_HMP_ENHANCEMENT : bool;
  CONFIG_HMP_DYNAMIC_THRESHOLD : bool;
  USE_HMP_DYNAMIC_THRESHOLD : bool;
  CONFIG_HMP_GLOBAL_BALANCE : bool;
  CONFIG_HMP_TASK_ASSIGNMENT : bool;
  CONFIG_HMP_DISCARD_CFS_SELECTION_RESULT : bool;
  CONFIG_HMP_PACK_SMALL_TASK : bool;
  CONFIG_HMP_LAZY_BALANCE : bool;
  CONFIG_HMP_POWER_AWARE_CONTROLLER : bool;
  CONFIG_ARCH_SCALE_INVARIANT_CPU_CAPACITY : bool;
  CONFIG_PREEMPT : bool;
  CONFIG_SCHED_MC : bool;
  CONFIG_SCHED_SMT : bool;
  CONFIG_DISABLE_CPU_SCHED_DOMAIN_BALANCE : bool;
  HZ : Z;
  HZ_ok : 0 < HZ /\ 1000 mod HZ = 0;
}.

(** [linaro/configs/big-LITTLE-MP.conf] on a 32-bit, eight-CPU board. *)
Definition big_LITTLE_MP : Config := {|
  NR_CPUS := 8; NR_CPUS_pos := eq_refl;
  BITS_PER_LONG := 32; BITS_PER_LONG_ok := or_introl eq_refl;
  CONFIG_SCHED_HMP_PRIO_FILTER := false;
  CONFIG_HMP_VARIABLE_SCALE := true;
  CONFIG_HMP_FREQUENCY_INVARIANT_SCALE := true;
  CONFIG_SCHED_HMP_LITTLE_PACKING := true;
  CONFIG_HMP_DELAY_UP_MIGRATION := false;
  CONFIG_HMP_PACK_STOP_MACHINE := false;
  CONFIG_SCHED_HMP_ENHANCEMENT := false;
  CONFIG_HMP_DYNAMIC_THRESHOLD := false; USE_HMP_DYNAMIC_THRESHOLD := false;
  CONFIG_HMP_GLOBAL_BALANCE := false; CONFIG_HMP_TASK_ASSIGNMENT := false;
  CONFIG_HMP_DISCARD_CFS_SELECTION_RESULT := false; CONFIG_HMP_PACK_SMALL_TASK := false;
  CONFIG_HMP_LAZY_BALANCE := false; CONFIG_HMP_POWER_AWARE_CONTROLLER := false;
  CONFIG_ARCH_SCALE_INVARIANT_CPU_CAPACITY := false; CONFIG_PREEMPT := false;
  CONFIG_SCHED_MC := true; CONFIG_SCHED_SMT := false; CONFIG_DISABLE_CPU_SCHED_DOMAIN_BALANCE := true;
  HZ := 100; HZ_ok := conj eq_refl eq_refl |}.

(** The scheduler options of [backup/config] (64-bit). *)
Definition backup_config : Config := {|
  NR_CPUS := 8; NR_CPUS_pos := eq_refl;
  BITS_PER_LONG := 64; BITS_PER_LONG_ok := or_intror eq_refl;
  CONFIG_SCHED_HMP_PRIO_FILTER := true;
  CONFIG_HMP_VARIABLE_SCALE := true;
  CONFIG_HMP_FREQUENCY_INVARIANT_SCALE := false;
  CONFIG_SCHED_HMP_LITTLE_PACKING := false;
  CONFIG_HMP_DELAY_UP_MIGRATION := true;
  CONFIG_HMP_PACK_STOP_MACHINE := true;
  CONFIG_SCHED_HMP_ENHANCEMENT := true;
  CONFIG_HMP_DYNAMIC_THRESHOLD := true; USE_HMP_DYNAMIC_THRESHOLD := false;
  CONFIG_HMP_GLOBAL_BALANCE := true; CONFIG_HMP_TASK_ASSIGNMENT := true;
  CONFIG_HMP_DISCARD_CFS_SELECTION_RESULT := true; CONFIG_HMP_PACK_SMALL_TASK := true;
  CONFIG_HMP_LAZY_BALANCE := true; CONFIG_HMP_POWER_AWARE_CONTROLLER := true;
  CONFIG_ARCH_SCALE_INVARIANT_CPU_CAPACITY := false; CONFIG_PREEMPT := false;
  CONFIG_SCHED_MC := true; CONFIG_SCHED_SMT := false; CONFIG_DISABLE_CPU_SCHED_DOMAIN_BALANCE := true;
  HZ := 100; HZ_ok := conj eq_refl eq_refl |}.

(** * Fixed-width integers

    A C integer of width [w] is a [Z] in range; every operation that may leave
    the range is followed by the conversion of its C type. *)
Definition u32 (z : Z) : Z := z mod 2 ^ 32.
Definition u64 (z : Z) : Z := z mod 2 ^ 64.
Definition s32 (z : Z) : Z := (z + 2 ^ 31) mod 2 ^ 32 - 2 ^ 31.
Definition s64 (z : Z) : Z := (z + 2 ^ 63) mod 2 ^ 64 - 2 ^ 63.
Definition ulong `{Config} (z : Z) : Z := z mod 2 ^ BITS_PER_LONG.
Definition slong `{Config} (z : Z) : Z :=
  (z + 2 ^ (BITS_PER_LONG - 1)) mod 2 ^ BITS_PER_LONG - 2 ^ (BITS_PER_LONG - 1).

Definition is_u32 (z : Z) : Prop := 0 <= z < 2 ^ 32.
Definition is_u64 (z : Z) : Prop := 0 <= z < 2 ^ 64.

Definition UINT_MAX : Z := 2 ^ 32 - 1.
Definition INT_MAX : Z := 2 ^ 31 - 1.
Definition ULLONG_MAX : Z := 2 ^ 64 - 1.

(** C's truth value of an integer, and the integer of a comparison. *)
Definition nonzero (z : Z) : bool := negb (z =? 0).
Definition b2z (b : bool) : Z := if b then 1 else 0.

(** Error numbers of [include/uapi/asm-generic/errno-base.h] and [errno.h]. *)
Definition ESRCH : Z := 3.
Definition ENOMEM : Z := 12.
Definition EBUSY : Z := 16.
Definition ENODEV : Z := 19.
Definition EINVAL : Z := 22.
Definition EUNATCH : Z := 49.

Lemma u32_id z : 0 <= z < 2 ^ 32 -> u32 z = z.
Proof. apply Z.mod_small. Qed.
Lemma u64_id z : 0 <= z < 2 ^ 64 -> u64 z = z.
Proof. apply Z.mod_small. Qed.
Lemma u32_range z : 0 <= u32 z < 2 ^ 32.
Proof. apply Z.mod_pos_bound. lia. Qed.
Lemma u64_add_s64 x y : u64 (x + s64 y) = u64 (x + y).
Proof.
  unfold u64, s64. replace (x + ((y + 2 ^ 63) mod 2 ^ 64 - 2 ^ 63)) with (x - 2 ^ 63 + (y + 2 ^ 63) mod 2 ^ 64) by lia.
  rewrite Zplus_mod_idemp_r. f_equal. lia.
Qed.
Lemma u64_range z : 0 <= u64 z < 2 ^ 64.
Proof. apply Z.mod_pos_bound. lia. Qed.
Lemma s64_id z : - 2 ^ 63 <= z < 2 ^ 63 -> s64 z = z.
Proof. intros. unfold s64. rewrite Z.mod_small by lia. lia. Qed.
Lemma s32_id z : - 2 ^ 31 <= z < 2 ^ 31 -> s32 z = z.
Proof. intros. unfold s32. rewrite Z.mod_small by lia. lia. Qed.
Lemma ulong_id `{Config} z : 0 <= z < 2 ^ 32 -> ulong z = z.
Proof. intros. unfold ulong. apply Z.mod_small. destruct BITS_PER_LONG_ok as [->| ->]; lia. Qed.
Lemma slong_id `{Config} z : - 2 ^ 31 <= z < 2 ^ 31 -> slong z = z.
Proof.
  intros. unfold slong. destruct BITS_PER_LONG_ok as [->| ->]; simpl;
    rewrite Z.mod_small by lia; lia.
Qed.
Lemma u64_add_l a b : u64 (u64 a + b) = u64 (a + b).
Proof. unfold u64. apply Z.add_mod_idemp_l. lia. Qed.
Lemma u64_sub_l a b : u64 (u64 a - b) = u64 (a - b).
Proof. unfold u64. apply Zminus_mod_idemp_l. Qed.
Lemma u64_sub_le a b : 0 <= b <= a -> a < 2 ^ 64 -> u64 (a - b) = a - b.
Proof. intros. apply u64_id. lia. Qed.

Lemma shiftr_div z n : 0 <= n -> Z.shiftr z n = z / 2 ^ n.
Proof. apply Z.shiftr_div_pow2. Qed.
Lemma shiftl_mul z n : 0 <= n -> Z.shiftl z n = z * 2 ^ n.
Proof. apply Z.shiftl_mul_pow2. Qed.

Lemma div_floor_bounds a b : 0 < b -> b * (a / b) <= a < b * (a / b) + b.
Proof. intros. pose proof (Z.div_mod a b). pose proof (Z.mod_pos_bound a b). lia. Qed.

Lemma div_le_self a b : 0 <= a -> 0 < b -> 0 <= a / b <= a.
Proof.
  intros. split; [by apply Z.div_pos; lia|]. apply Z.div_le_upper_bound; [done|]. nia.
Qed.

Lemma pow2_pos n : 0 <= n -> 0 < 2 ^ n.
Proof. intros. apply Z.pow_pos_nonneg; lia. Qed.

(** A quotient of unsigned integers, and one of signed integers; division by zero faults. *)
Definition udiv (a b : Z) : option Z := if b =? 0 then None else Some (a / b).
Definition sdiv (a b : Z) : option Z := if b =? 0 then None else Some (Z.quot a b).

Lemma udiv_some a b : b <> 0 -> udiv a b = Some (a / b).
Proof. intros Hb. unfold udiv. by destruct (Z.eqb_spec b 0). Qed.

Lemma ulong_range `{Config} z : 0 <= ulong z < 2 ^ BITS_PER_LONG.
Proof. apply Z.mod_pos_bound. destruct BITS_PER_LONG_ok as [->| ->]; lia. Qed.

(** * Loops whose body may fault *)

Fixpoint foldM {A B} (f : B -> A -> option B) (l : list A) (b : B) : option B :=
  match l with [] => Some b | x :: l => match f b x with Some b => foldM f l b | None => None end end.

(** A body that always goes on and keeps an invariant makes a loop that does. *)
Lemma foldM_total {A B} (P : B -> Prop) (f : B -> A -> option B) l b :
  (forall b x, x ∈ l -> P b -> exists b', f b x = Some b' /\ P b') -> P b ->
  exists b', foldM f l b = Some b' /\ P b'.
Proof.
  intros Hf. revert b. induction l as [|x l IH]; intros b Hb; cbn; [by exists b|].
  destruct (Hf b x) as (b1 & -> & H1); [apply list_elem_of_here|done|].
  apply IH; [|done]. intros b2 y Hy. apply Hf. by apply list_elem_of_further.
Qed.

Lemma foldM_inv {A B} (P : B -> Prop) (f : B -> A -> option B) l b b' :
  (forall b x b', x ∈ l -> P b -> f b x = Some b' -> P b') -> P b -> foldM f l b = Some b' -> P b'.
Proof.
  intros Hf. revert b. induction l as [|x l IH]; intros b Hb; cbn; [by intros [= <-]|].
  destruct (f b x) as [b1|] eqn:E; [|done]. apply IH.
  - intros b2 y b3 Hy. apply Hf. by apply list_elem_of_further.
  - eapply Hf; [apply list_elem_of_here|exact Hb|exact E].
Qed.

(** * Sums over lists *)

Section sums.
Context {A : Type}.
Implicit Types (f g w : A -> Z) (l : list A).

Definition sum_over f l : Z := foldr (fun i a => f i + a) 0 l.

#[export] Instance sum_over_perm f : Proper (Permutation ==> eq) (sum_over f).
Proof.
  intros l k P. induction P as [|x l k P IH|x y l|l k m P1 IH1 P2 IH2]; simpl; try lia.
Qed.

Lemma sum_over_cons f i l : sum_over f (i :: l) = f i + sum_over f l.
Proof. done. Qed.

Lemma sum_over_ext f g l : (forall i, i ∈ l -> f i = g i) -> sum_over f l = sum_over g l.
Proof.
  induction l as [|x l IH]; intros E; [done|]. simpl. rewrite (E x), IH by set_solver. done.
Qed.

Lemma sum_over_le f w b l : (forall i, i ∈ l -> f i <= b * w i) -> sum_over f l <= b * sum_over w l.
Proof.
  induction l as [|x l IH]; intros Hf; simpl; [lia|].
  pose proof (Hf x ltac:(set_solver)). pose proof (IH ltac:(set_solver)). lia.
Qed.

Lemma sum_over_nonneg f l : (forall i, i ∈ l -> 0 <= f i) -> 0 <= sum_over f l.
Proof.
  induction l as [|x l IH]; intros Hb; simpl; [lia|].
  pose proof (Hb x ltac:(set_solver)). pose proof (IH ltac:(set_solver)). lia.
Qed.

Lemma sum_over_bounds f b l :
  (forall i, i ∈ l -> 0 <= f i <= b) -> 0 <= sum_over f l <= b * Z.of_nat (length l).
Proof.
  induction l as [|x l IH]; intros Hb; simpl; [lia|].
  pose proof (Hb x ltac:(set_solver)). pose proof (IH ltac:(set_solver)). lia.
Qed.

Lemma sum_over_elem f l x : (forall i, i ∈ l -> 0 <= f i) -> x ∈ l -> f x <= sum_over f l.
Proof.
  induction l as [|y l IH]; intros Hf Hx; [set_solver|]. simpl.
  pose proof (sum_over_nonneg f l ltac:(set_solver)). pose proof (Hf y ltac:(set_solver)).
  apply elem_of_cons in Hx as [->|Hx]; [lia|]. specialize (IH ltac:(set_solver) Hx). lia.
Qed.

(** Adding up in a word that is wide enough. *)
Lemma ulong_sum `{Config} f l a :
  0 <= a -> (forall x, x ∈ l -> 0 <= f x) -> a + sum_over f l < 2 ^ 32 ->
  foldl (fun acc x => ulong (acc + f x)) a l = a + sum_over f l.
Proof.
  revert a. induction l as [|x l IH]; intros a Ha Hf Hb; simpl in *; [lia|].
  pose proof (Hf x ltac:(set_solver)). pose proof (sum_over_nonneg f l ltac:(set_solver)).
  rewrite ulong_id by lia. rewrite IH; [lia|lia|set_solver|lia].
Qed.
End sums.

(** * CPU masks

    [struct cpumask] is a bitmap: bit [c] of the [Z] is CPU [c]. *)
Definition cpumask : Type := Z.

Section cpumask.
Context `{Config}.

Definition cpu_ids : list Z := Z.of_nat <$> seq 0 (Z.to_nat NR_CPUS).

Definition cpumask_test_cpu (c : Z) (m : cpumask) : bool := Z.testbit m c.
Definition cpumask_set_cpu (c : Z) (m : cpumask) : cpumask := Z.setbit m c.
Definition cpumask_clear_cpu (c : Z) (m : cpumask) : cpumask := Z.clearbit m c.
Definition cpumask_and (a b : cpumask) : cpumask := Z.land a b.
Definition cpumask_or (a b : cpumask) : cpumask := Z.lor a b.
Definition cpumask_of (c : Z) : cpumask := Z.setbit 0 c.

(** The CPUs of a mask, in the order [for_each_cpu] visits them. *)
Definition cpus_of (m : cpumask) : list Z :=
  filter (fun c => cpumask_test_cpu c m = true) cpu_ids.

Definition cpumask_empty (m : cpumask) : bool :=
  match cpus_of m with [] => true | _ => false end.
Definition cpumask_intersects (a b : cpumask) : bool :=
  negb (cpumask_empty (cpumask_and a b)).
Definition cpumask_first (m : cpumask) : Z :=
  match cpus_of m with c :: _ => c | [] => NR_CPUS end.
Definition cpumask_any_and (a b : cpumask) : Z := cpumask_first (cpumask_and a b).
Definition cpumask_weight (m : cpumask) : Z := Z.of_nat (length (cpus_of m)).

Lemma elem_of_cpu_ids c : c ∈ cpu_ids <-> 0 <= c < NR_CPUS.
Proof.
  unfold cpu_ids. rewrite list_elem_of_fmap. split.
  - intros (n & -> & Hn). apply elem_of_seq in Hn. lia.
  - intros Hc. exists (Z.to_nat c). rewrite elem_of_seq. lia.
Qed.

Lemma NoDup_cpu_ids : NoDup cpu_ids.
Proof. apply NoDup_fmap_2; [intros ???; lia | apply NoDup_seq]. Qed.

Lemma elem_of_cpus_of c m :
  c ∈ cpus_of m <-> 0 <= c < NR_CPUS /\ cpumask_test_cpu c m = true.
Proof. unfold cpus_of. rewrite list_elem_of_filter, elem_of_cpu_ids. tauto. Qed.

Lemma NoDup_cpus_of m : NoDup (cpus_of m).
Proof. apply list.NoDup_filter, NoDup_cpu_ids. Qed.

Lemma test_and c a b :
  cpumask_test_cpu c (cpumask_and a b) = cpumask_test_cpu c a && cpumask_test_cpu c b.
Proof. apply Z.land_spec. Qed.
Lemma test_or c a b :
  cpumask_test_cpu c (cpumask_or a b) = cpumask_test_cpu c a || cpumask_test_cpu c b.
Proof. apply Z.lor_spec. Qed.
Lemma test_set_eq c m : 0 <= c -> cpumask_test_cpu c (cpumask_set_cpu c m) = true.
Proof. apply Z.setbit_eq. Qed.
Lemma test_set_ne c d m : 0 <= c -> c <> d ->
  cpumask_test_cpu d (cpumask_set_cpu c m) = cpumask_test_cpu d m.
Proof. intros. unfold cpumask_test_cpu, cpumask_set_cpu. apply Z.setbit_neq; lia. Qed.
Lemma test_clear_eq c m : cpumask_test_cpu c (cpumask_clear_cpu c m) = false.
Proof. apply Z.clearbit_eq. Qed.
Lemma test_clear_ne c d m : c <> d ->
  cpumask_test_cpu d (cpumask_clear_cpu c m) = cpumask_test_cpu d m.
Proof. intros. unfold cpumask_test_cpu, cpumask_clear_cpu. apply Z.clearbit_neq; lia. Qed.
Lemma test_of c d : 0 <= c -> cpumask_test_cpu d (cpumask_of c) = (c =? d).
Proof.
  intros. unfold cpumask_of, cpumask_test_cpu.
  destruct (Z.eqb_spec c d) as [->|].
  - by apply Z.setbit_eq.
  - rewrite Z.setbit_neq by lia. apply Z.bits_0.
Qed.

Lemma cpumask_empty_spec m :
  cpumask_empty m = true <-> forall c, 0 <= c < NR_CPUS -> cpumask_test_cpu c m = false.
Proof.
  unfold cpumask_empty. destruct (cpus_of m) as [|c l] eqn:E.
  - split; [|done]. intros _ c Hc. apply not_true_is_false. intros Ht.
    assert (c ∈ cpus_of m) as Hin by (by apply elem_of_cpus_of).
    rewrite E in Hin. by apply elem_of_nil in Hin.
  - split; [done|]. intros Hall.
    assert (c ∈ cpus_of m) as [? Ht]%elem_of_cpus_of by (rewrite E; apply list_elem_of_here).
    rewrite Hall in Ht by done. done.
Qed.

Lemma filter_keeps {A} (P : A -> Prop) `{!forall x, Decision (P x)} (l : list A) : (forall x, x ∈ l -> P x) -> filter P l = l.
Proof.
  induction l as [|x l IH]; intros Hl; [done|]. rewrite filter_cons_True, IH; set_solver.
Qed.

Lemma cpumask_nonempty c m :
  0 <= c < NR_CPUS -> cpumask_test_cpu c m = true -> cpumask_empty m = false.
Proof.
  intros Hc Ht. apply not_true_is_false. rewrite cpumask_empty_spec. intros Ha.
  by rewrite Ha in Ht.
Qed.

Lemma cpumask_intersects_spec a b :
  cpumask_intersects a b = true <->
  exists c, 0 <= c < NR_CPUS /\ cpumask_test_cpu c a = true /\ cpumask_test_cpu c b = true.
Proof.
  unfold cpumask_intersects, cpumask_empty.
  destruct (cpus_of (cpumask_and a b)) as [|c l] eqn:E; simpl.
  - split; [done|]. intros (c & Hc & Ha & Hb).
    assert (c ∈ cpus_of (cpumask_and a b)) as Hin.
    { apply elem_of_cpus_of. rewrite test_and, Ha, Hb. done. }
    rewrite E in Hin. by apply elem_of_nil in Hin.
  - split; [|done]. intros _. exists c.
    assert (c ∈ cpus_of (cpumask_and a b)) as [Hc Ht]%elem_of_cpus_of
      by (rewrite E; apply list_elem_of_here).
    rewrite test_and in Ht. apply andb_true_iff in Ht. tauto.
Qed.

Lemma cpumask_first_elem m :
  cpumask_first m <> NR_CPUS -> cpumask_first m ∈ cpus_of m.
Proof.
  unfold cpumask_first. destruct (cpus_of m); [done|]. intros _. apply list_elem_of_here.
Qed.

Lemma cpumask_first_bound m : 0 <= cpumask_first m <= NR_CPUS.
Proof.
  pose proof NR_CPUS_pos. destruct (decide (cpumask_first m = NR_CPUS)) as [->|Hne]; [lia|].
  apply cpumask_first_elem, elem_of_cpus_of in Hne. lia.
Qed.

(** CPUs are visited in increasing order. *)
Lemma cpu_ids_sorted : StronglySorted Z.lt cpu_ids.
Proof.
  unfold cpu_ids. generalize 0%nat as k. induction (Z.to_nat NR_CPUS) as [|n IH]; intros k; simpl;
    constructor; [apply IH|].
  apply Forall_forall. intros x (y & -> & Hy)%list_elem_of_fmap. apply elem_of_seq in Hy. lia.
Qed.

Lemma cpus_of_sorted m : StronglySorted Z.lt (cpus_of m).
Proof.
  unfold cpus_of. pose proof cpu_ids_sorted as Hs.
  induction Hs as [|c l Hs IH Hc]; [constructor|].
  rewrite filter_cons. case_decide; [|done]. constructor; [done|].
  apply Forall_forall. intros x [_ Hx]%list_elem_of_filter. by rewrite Forall_forall in Hc; apply Hc.
Qed.

(** The first CPU of a mask that satisfies [f] is the lowest-numbered one. *)
Lemma find_cpu_least f m c :
  c ∈ cpus_of m -> f c = true ->
  exists r, List.find f (cpus_of m) = Some r /\ r <= c /\ r ∈ cpus_of m /\ f r = true.
Proof.
  pose proof (cpus_of_sorted m) as Hs. induction Hs as [|d l Hs IH Hd]; [set_solver|].
  intros Hc Hf. simpl. destruct (f d) eqn:Hfd.
  - exists d. split; [done|]. split; [|split; [set_solver|done]].
    apply elem_of_cons in Hc as [->|Hc]; [lia|].
    rewrite Forall_forall in Hd. specialize (Hd c Hc). lia.
  - apply elem_of_cons in Hc as [->|Hc]; [congruence|].
    destruct (IH Hc Hf) as (r & -> & Hr & Hin & Hfr). exists r. set_solver.
Qed.
End cpumask.
