(* ===== verification/Spinlock.v ===== *)
(** Ticket spin locks ([arch/arm/include/asm/spinlock.h]): the lock word, the steps of
    locking, trying and unlocking, and that for fewer than 2^16 CPUs they make a
    first-come first-served queue. *)

From S2P Require Import Prelude.

(** * The lock word *)

(** [arch_spinlock_t]: [slock], whose low half is [tickets.owner] and whose high half is
    [tickets.next]. *)
Definition arch_spinlock : Type := Z.

Definition TICKET_SHIFT : Z := 16.
Definition u16 (z : Z) : Z := z mod 2 ^ 16.

Definition ticket_owner (slock : arch_spinlock) : Z := Z.land slock 65535.
Definition ticket_next (slock : arch_spinlock) : Z := Z.shiftr slock TICKET_SHIFT.

Definition __ARCH_SPIN_LOCK_UNLOCKED : arch_spinlock := 0.

(** [ror #16] *)
Definition ror16 (z : Z) : Z := Z.lor (Z.shiftr z 16) (u32 (Z.shiftl z 16)).

(** The [ldrex]/[add]/[strex] of [arch_spin_lock]. *)
Definition take_ticket (slock : arch_spinlock) : arch_spinlock :=
  u32 (slock + Z.shiftl 1 TICKET_SHIFT).

(** The [ldrex] to [strexeq] of [arch_spin_trylock]: the new word and [!contended]. *)
Definition arch_spin_trylock (slock : arch_spinlock) : arch_spinlock * bool :=
  if u32 (slock - ror16 slock) =? 0 then (take_ticket slock, true) else (slock, false).

(** [tickets.owner++] stores the low half only. *)
Definition arch_spin_unlock (slock : arch_spinlock) : arch_spinlock :=
  Z.lor (Z.shiftl (ticket_next slock) TICKET_SHIFT) (u16 (ticket_owner slock + 1)).

Definition arch_spin_is_locked (slock : arch_spinlock) : bool :=
  negb (ticket_owner slock =? ticket_next slock).

(** The operands are promoted to [int]. *)
Definition arch_spin_is_contended (slock : arch_spinlock) : bool :=
  1 <? ticket_next slock - ticket_owner slock.

(** * Locking, step by step *)

(** Where a CPU is: outside, in the loop of [arch_spin_lock] with [lockval.tickets.next]
    and [lockval.tickets.owner], or inside. *)
Inductive spin_pc := SpOut | SpWait (next owner : Z) | SpIn.

(** What a CPU does next. *)
Inductive spin_op := OpLock | OpTryLock | OpWait | OpUnlock.

Record spin_sys := mk_spin { slock : arch_spinlock; spin_at : Z -> spin_pc }.

Definition spin_step (c : Z) (op : spin_op) (s : spin_sys) : option spin_sys :=
  let l := slock s in
  match op, spin_at s c with
  | OpLock, SpOut =>
      Some (mk_spin (take_ticket l) (<[c := SpWait (ticket_next l) (ticket_owner l)]> (spin_at s)))
  | OpTryLock, SpOut =>
      let '(l', won) := arch_spin_trylock l in
      Some (mk_spin l' (if won then <[c := SpIn]> (spin_at s) else spin_at s))
  | OpWait, SpWait next owner =>
      Some (mk_spin l (<[c := if next =? owner then SpIn else SpWait next (ticket_owner l)]>
                         (spin_at s)))
  | OpUnlock, SpIn => Some (mk_spin (arch_spin_unlock l) (<[c := SpOut]> (spin_at s)))
  | _, _ => None
  end.

Fixpoint spin_run (tr : list (Z * spin_op)) (s : spin_sys) : option spin_sys :=
  match tr with
  | [] => Some s
  | (c, op) :: tr => s' ← spin_step c op s; spin_run tr s'
  end.

Definition spin_start : spin_sys := mk_spin __ARCH_SPIN_LOCK_UNLOCKED (fun _ => SpOut).

(** * What the word operations compute *)

Definition is_slock (l : arch_spinlock) : Prop := 0 <= l < 2 ^ 32.

Lemma u16_range z : 0 <= u16 z < 2 ^ 16.
Proof. apply Z.mod_pos_bound. lia. Qed.
Lemma u16_id z : 0 <= z < 2 ^ 16 -> u16 z = z.
Proof. apply Z.mod_small. Qed.
Lemma u16_add_l a b : u16 (u16 a + b) = u16 (a + b).
Proof. unfold u16. apply Z.add_mod_idemp_l. lia. Qed.

Lemma ticket_owner_mod l : ticket_owner l = l mod 2 ^ 16.
Proof. unfold ticket_owner. by rewrite <- (Z.land_ones l 16) by lia. Qed.
Lemma ticket_next_div l : ticket_next l = l / 2 ^ 16.
Proof. unfold ticket_next, TICKET_SHIFT. by rewrite shiftr_div by lia. Qed.

Lemma ticket_word l : l = ticket_next l * 2 ^ 16 + ticket_owner l.
Proof. rewrite ticket_owner_mod, ticket_next_div. pose proof (Z.div_mod l (2 ^ 16)). lia. Qed.

Lemma tickets_range l : is_slock l -> 0 <= ticket_owner l < 2 ^ 16 /\ 0 <= ticket_next l < 2 ^ 16.
Proof.
  intros Hl. rewrite ticket_owner_mod, ticket_next_div. unfold is_slock in Hl.
  split; [apply Z.mod_pos_bound; lia|].
  split; [apply Z.div_pos; lia|apply Z.div_lt_upper_bound; lia].
Qed.

Lemma tickets_of_word n o :
  0 <= n < 2 ^ 16 -> 0 <= o < 2 ^ 16 ->
  ticket_next (n * 2 ^ 16 + o) = n /\ ticket_owner (n * 2 ^ 16 + o) = o
  /\ is_slock (n * 2 ^ 16 + o).
Proof.
  intros Hn Ho. rewrite ticket_owner_mod, ticket_next_div. unfold is_slock.
  rewrite Z.add_comm, Z.div_add, Z.mod_add by lia.
  rewrite Z.div_small, Z.mod_small by lia. lia.
Qed.

(** A shifted half and a half do not overlap. *)
Lemma lor_halves a b : 0 <= a -> 0 <= b < 2 ^ 16 -> Z.lor (Z.shiftl a 16) b = a * 2 ^ 16 + b.
Proof.
  intros Ha Hb. rewrite <- shiftl_mul by lia. rewrite <- Z.add_lor_land.
  replace (Z.land (Z.shiftl a 16) b) with 0; [lia|].
  symmetry. apply Z.bits_inj'. intros i Hi. rewrite Z.bits_0, Z.land_spec.
  destruct (decide (i < 16)); [by rewrite Z.shiftl_spec_low by lia|].
  destruct (decide (b = 0)) as [->|]; [rewrite Z.bits_0; apply andb_false_r|].
  rewrite (Z.bits_above_log2 b i); [apply andb_false_r|lia|].
  apply Z.log2_lt_pow2; [lia|]. apply Z.lt_le_trans with (2 ^ 16); [lia|].
  apply Z.pow_le_mono_r; lia.
Qed.

Lemma take_ticket_spec l :
  is_slock l ->
  ticket_next (take_ticket l) = u16 (ticket_next l + 1)
  /\ ticket_owner (take_ticket l) = ticket_owner l /\ is_slock (take_ticket l).
Proof.
  intros Hl. destruct (tickets_range l Hl) as [Ho Hn].
  assert (E : take_ticket l = u16 (ticket_next l + 1) * 2 ^ 16 + ticket_owner l).
  { unfold take_ticket, u32, u16, TICKET_SHIFT.
    change (Z.shiftl 1 16) with (1 * 2 ^ 16). rewrite (ticket_word l) at 1.
    replace (ticket_next l * 2 ^ 16 + ticket_owner l + 1 * 2 ^ 16)
      with (ticket_owner l + 2 ^ 16 * (ticket_next l + 1)) by lia.
    change (2 ^ 32) with (2 ^ 16 * 2 ^ 16). rewrite Z.rem_mul_r by lia.
    rewrite Z.mul_comm, Z.mod_add, Z.div_add, Z.mod_small, Z.div_small by lia.
    rewrite Z.add_0_l. lia. }
  rewrite E. destruct (tickets_of_word (u16 (ticket_next l + 1)) (ticket_owner l))
    as (? & ? & ?); [apply u16_range|lia|done].
Qed.

Lemma unlock_spec l :
  is_slock l ->
  ticket_next (arch_spin_unlock l) = ticket_next l
  /\ ticket_owner (arch_spin_unlock l) = u16 (ticket_owner l + 1)
  /\ is_slock (arch_spin_unlock l).
Proof.
  intros Hl. destruct (tickets_range l Hl) as [Ho Hn]. unfold arch_spin_unlock.
  rewrite lor_halves by (lia || apply u16_range).
  destruct (tickets_of_word (ticket_next l) (u16 (ticket_owner l + 1))) as (? & ? & ?);
    [lia|apply u16_range|done].
Qed.

Lemma ror16_halves l : is_slock l -> ror16 l = ticket_owner l * 2 ^ 16 + ticket_next l.
Proof.
  intros Hl. destruct (tickets_range l Hl) as [Ho Hn]. unfold ror16.
  assert (E : u32 (Z.shiftl l 16) = Z.shiftl (ticket_owner l) 16).
  { unfold u32. rewrite !shiftl_mul, ticket_owner_mod by lia.
    change (2 ^ 32) with (2 ^ 16 * 2 ^ 16). by rewrite Z.mul_mod_distr_r by lia. }
  rewrite E, Z.lor_comm, lor_halves; [done|lia|].
  change (Z.shiftr l 16) with (ticket_next l). lia.
Qed.

(** The subtraction of the rotated word tests whether the two tickets agree. *)
Lemma trylock_spec l :
  is_slock l ->
  arch_spin_trylock l = if ticket_owner l =? ticket_next l then (take_ticket l, true) else (l, false).
Proof.
  intros Hl. destruct (tickets_range l Hl) as [Ho Hn]. unfold arch_spin_trylock.
  rewrite ror16_halves by done. rewrite (ticket_word l) at 1.
  destruct (Z.eqb_spec (ticket_owner l) (ticket_next l)) as [->|Hne].
  { by rewrite Z.sub_diag. }
  destruct (Z.eqb_spec (u32 (ticket_next l * 2 ^ 16 + ticket_owner l
                             - (ticket_owner l * 2 ^ 16 + ticket_next l))) 0) as [E|]; [|done].
  exfalso. unfold u32 in E. apply Z.mod_divide in E as [k E]; [|lia]. nia.
Qed.

(** A lock that is free, or held with nobody waiting. *)
Definition lock_is (held : bool) (l : arch_spinlock) : Prop :=
  is_slock l /\ ticket_next l = u16 (ticket_owner l + b2z held).

Lemma lock_is_start : lock_is false __ARCH_SPIN_LOCK_UNLOCKED.
Proof. done. Qed.

Lemma lock_is_free l : lock_is false l -> ticket_owner l = ticket_next l.
Proof.
  intros [Hl E]. destruct (tickets_range l Hl). rewrite E. cbn [b2z]. rewrite Z.add_0_r.
  by rewrite u16_id.
Qed.

Lemma lock_is_try l :
  lock_is false l -> arch_spin_trylock l = (take_ticket l, true) /\ lock_is true (take_ticket l).
Proof.
  intros Hl. pose proof (lock_is_free l Hl) as E. destruct Hl as [Hl _].
  rewrite trylock_spec, E, Z.eqb_refl by done. split; [done|].
  destruct (take_ticket_spec l Hl) as (En & Eo & Hw). split; [done|]. rewrite En, Eo, E. done.
Qed.

Lemma lock_is_unlock l : lock_is true l -> lock_is false (arch_spin_unlock l).
Proof.
  intros [Hl E]. destruct (unlock_spec l Hl) as (En & Eo & Hw). split; [done|].
  rewrite En, Eo, E, u16_add_l. f_equal. cbn [b2z]. lia.
Qed.

(** Unlocking a lock that is free leaves [owner] ahead of [next]: nothing that only tries
    the lock gets it any more. *)
Lemma unlock_wedges l :
  lock_is false l ->
  let l' := arch_spin_unlock l in ticket_next l' <> ticket_owner l' /\ arch_spin_trylock l' = (l', false).
Proof.
  intros Hl. pose proof (lock_is_free l Hl) as E. destruct Hl as [Hl _]. cbv zeta.
  destruct (unlock_spec l Hl) as (En & Eo & Hw). destruct (tickets_range l Hl) as [Ho Hn].
  assert (Hne : ticket_next (arch_spin_unlock l) <> ticket_owner (arch_spin_unlock l)).
  { rewrite En, Eo, <- E. unfold u16. intros E'.
    destruct (decide (ticket_owner l + 1 < 2 ^ 16)); [rewrite Z.mod_small in E'; lia|].
    replace (ticket_owner l + 1) with (0 + 1 * 2 ^ 16) in E' by lia.
    rewrite Z.mod_add, Z.mod_small in E'; lia. }
  split; [done|]. rewrite trylock_spec by done. destruct (Z.eqb_spec (ticket_owner (arch_spin_unlock l))
    (ticket_next (arch_spin_unlock l))); congruence.
Qed.

(** The difference of the promoted tickets is negative after [next] has wrapped: a lock
    that one CPU holds and one waits for is then reported as not contended. *)
Lemma contended_wraps : arch_spin_is_contended (1 * 2 ^ 16 + 65535) = false.
Proof. reflexivity. Qed.

(** * First come, first served *)

(** The CPUs that hold or wait for the lock, in the order in which they asked for it, and
    whether the first one is inside. *)
Record fifo := mk_fifo { fq : list Z; f_in : bool }.

Inductive fifo_step (c : Z) : spin_op -> fifo -> fifo -> Prop :=
| fifo_lock q b : c ∉ q -> fifo_step c OpLock (mk_fifo q b) (mk_fifo (q ++ [c]) b)
| fifo_try b : fifo_step c OpTryLock (mk_fifo [] b) (mk_fifo [c] true)
| fifo_refuse d q b :
    c ∉ d :: q -> fifo_step c OpTryLock (mk_fifo (d :: q) b) (mk_fifo (d :: q) b)
| fifo_wait q b : c ∈ q -> fifo_step c OpWait (mk_fifo q b) (mk_fifo q b)
| fifo_enter q : fifo_step c OpWait (mk_fifo (c :: q) false) (mk_fifo (c :: q) true)
| fifo_leave q : fifo_step c OpUnlock (mk_fifo (c :: q) true) (mk_fifo q false).

Inductive fifo_run : list (Z * spin_op) -> fifo -> fifo -> Prop :=
| fifo_done f : fifo_run [] f f
| fifo_next c op tr f f' f'' :
    fifo_step c op f f' -> fifo_run tr f' f'' -> fifo_run ((c, op) :: tr) f f''.

(** What the place of a CPU says about the queue. *)
Definition spin_pc_ok (l : arch_spinlock) (f : fifo) (c : Z) (pc : spin_pc) : Prop :=
  match pc with
  | SpOut => c ∉ fq f
  | SpIn => fq f !! 0%nat = Some c /\ f_in f = true
  | SpWait n o =>
      exists i : nat, fq f !! i = Some c /\ n = u16 (ticket_owner l + Z.of_nat i)
                      /\ (i = 0%nat -> f_in f = false) /\ (n = o -> i = 0%nat)
  end.

Record spin_rel (N : Z) (s : spin_sys) (f : fifo) : Prop := {
  sr_word : is_slock (slock s);
  sr_nodup : NoDup (fq f);
  sr_cpus : Forall (fun c => 0 <= c < N) (fq f);
  sr_next : ticket_next (slock s) = u16 (ticket_owner (slock s) + Z.of_nat (length (fq f)));
  sr_in : f_in f = true -> fq f <> [];
  sr_pc : forall c, spin_pc_ok (slock s) f c (spin_at s c);
}.

Section tickets.
Variable N : Z.
Hypothesis HN : N < 2 ^ 16.
Implicit Types (s : spin_sys) (f : fifo).

Lemma NoDup_bounded_length (l : list Z) :
  NoDup l -> Forall (fun c => 0 <= c < N) l -> Z.of_nat (length l) < 2 ^ 16.
Proof.
  intros Hd Hb.
  assert (Hi : l ⊆+ seqZ 0 N).
  { apply NoDup_submseteq; [done|]. intros c Hc. rewrite Forall_forall in Hb.
    apply elem_of_seqZ. specialize (Hb c Hc). lia. }
  apply submseteq_length in Hi. rewrite length_seqZ in Hi. lia.
Qed.

(** Fewer than 2^16 tickets are out, so a ticket tells a place in the queue. *)
Lemma ticket_head o (i : nat) :
  0 <= o < 2 ^ 16 -> Z.of_nat i < 2 ^ 16 -> u16 (o + Z.of_nat i) = o -> i = 0%nat.
Proof.
  intros Ho Hi E. unfold u16 in E.
  destruct (decide (o + Z.of_nat i < 2 ^ 16)); [rewrite Z.mod_small in E; lia|].
  replace (o + Z.of_nat i) with (o + Z.of_nat i - 2 ^ 16 + 1 * 2 ^ 16) in E by lia.
  rewrite Z.mod_add, Z.mod_small in E; lia.
Qed.

Lemma rel_length s f : spin_rel N s f -> Z.of_nat (length (fq f)) < 2 ^ 16.
Proof. intros []. by apply NoDup_bounded_length. Qed.

Lemma rel_place s f (i : nat) c :
  spin_rel N s f -> fq f !! i = Some c -> u16 (ticket_owner (slock s) + Z.of_nat i) = ticket_owner (slock s) ->
  i = 0%nat.
Proof.
  intros HR Hi. pose proof (rel_length _ _ HR). destruct HR.
  apply ticket_head; [by apply tickets_range|]. apply lookup_lt_Some in Hi. lia.
Qed.

(** The two tickets agree just when nobody holds the lock. *)
Lemma rel_free s f :
  spin_rel N s f -> ticket_owner (slock s) = ticket_next (slock s) <-> fq f = [].
Proof.
  intros HR. pose proof (rel_length _ _ HR) as Hl. destruct HR as [Hw _ _ Hn _ _].
  destruct (tickets_range _ Hw) as [Ho _]. rewrite Hn. split.
  - intros E. symmetry in E. apply ticket_head in E; [|done|done]. by apply nil_length_inv.
  - intros ->. simpl. rewrite Z.add_0_r. by rewrite u16_id.
Qed.

Lemma rel_lock s f c :
  spin_rel N s f -> spin_at s c = SpOut -> 0 <= c < N ->
  spin_rel N (mk_spin (take_ticket (slock s))
                (<[c := SpWait (ticket_next (slock s)) (ticket_owner (slock s))]> (spin_at s)))
    (mk_fifo (fq f ++ [c]) (f_in f)).
Proof.
  intros HR Hc HcN. pose proof (rel_length _ _ HR) as Hl. pose proof (rel_free _ _ HR) as Hfree.
  destruct HR as [Hw Hd Hb Hn Hin Hpc].
  assert (Hcq : c ∉ fq f) by (specialize (Hpc c); rewrite Hc in Hpc; exact Hpc).
  destruct (take_ticket_spec _ Hw) as (En & Eo & Hw').
  split; simpl; [done| | | | |].
  - apply NoDup_app. split_and!; [done| |apply NoDup_singleton]. set_solver.
  - apply Forall_app. auto.
  - rewrite En, Eo, Hn, u16_add_l, length_app. simpl. f_equal. lia.
  - intros _. by destruct (fq f).
  - intros d. unfold spin_pc_ok. rewrite Eo. destruct (decide (c = d)) as [<-|Hcd].
    + rewrite fn_lookup_insert. exists (length (fq f)). simpl.
      split_and!; [by rewrite lookup_app_r, Nat.sub_diag by done|done| |].
      * intros E%nil_length_inv. rewrite E in Hin. destruct (f_in f); [by destruct (Hin eq_refl)|done].
      * intros E. symmetry in E. apply Hfree in E. by rewrite E.
    + rewrite fn_lookup_insert_ne by done. specialize (Hpc d). unfold spin_pc_ok in Hpc.
      destruct (spin_at s d) as [|n o|]; simpl in *.
      * set_solver.
      * destruct Hpc as (i & Hi & ?). exists i. by erewrite lookup_app_l_Some.
      * destruct Hpc as [Hi ?]. by erewrite lookup_app_l_Some.
Qed.

Lemma rel_try s f c :
  spin_rel N s f -> spin_at s c = SpOut -> 0 <= c < N -> fq f = [] ->
  spin_rel N (mk_spin (take_ticket (slock s)) (<[c := SpIn]> (spin_at s))) (mk_fifo [c] true).
Proof.
  intros HR Hc HcN Hq. pose proof HR as [Hw Hd Hb Hn Hin Hpc].
  destruct (take_ticket_spec _ Hw) as (En & Eo & Hw').
  apply (rel_free _ _ HR) in Hq as Hfree.
  split; simpl; [done|apply NoDup_singleton|by constructor| |done|].
  - rewrite En, Eo, <- Hfree. done.
  - intros d. unfold spin_pc_ok. destruct (decide (c = d)) as [<-|Hcd].
    + by rewrite fn_lookup_insert.
    + rewrite fn_lookup_insert_ne by done. specialize (Hpc d). unfold spin_pc_ok in Hpc.
      rewrite Hq in Hpc. destruct (spin_at s d) as [|n o|]; simpl in *; [set_solver| |naive_solver].
      destruct Hpc as (i & Hi & _). done.
Qed.

Lemma rel_wait s f c n o :
  spin_rel N s f -> spin_at s c = SpWait n o ->
  exists f', fifo_step c OpWait f f'
    /\ spin_rel N (mk_spin (slock s)
         (<[c := if n =? o then SpIn else SpWait n (ticket_owner (slock s))]> (spin_at s))) f'.
Proof.
  intros HR Hc. pose proof HR as [Hw Hd Hb Hn Hin Hpc].
  pose proof (Hpc c) as Hpcc. rewrite Hc in Hpcc. destruct Hpcc as (i & Hi & En & Hf & Ho).
  destruct f as [q b]; simpl in *. destruct (Z.eqb_spec n o) as [->|Hne].
  - specialize (Ho eq_refl) as ->. rewrite (Hf eq_refl) in *.
    destruct q as [|c' q]; simplify_eq/=. exists (mk_fifo (c :: q) true). split; [constructor|].
    split; simpl; try done. intros d. destruct (decide (c = d)) as [<-|Hcd].
    + by rewrite fn_lookup_insert.
    + rewrite fn_lookup_insert_ne by done. specialize (Hpc d). unfold spin_pc_ok in *.
      destruct (spin_at s d) as [|n o|]; simpl in *; [done| |naive_solver].
      destruct Hpc as ([|i] & Hi & ? & ? & ?); [naive_solver|]. by exists (S i).
  - exists (mk_fifo q b). split; [constructor; by eapply list_elem_of_lookup_2|].
    split; simpl; try done. intros d. destruct (decide (c = d)) as [<-|Hcd].
    + rewrite fn_lookup_insert. exists i. split_and!; [done..|]. intros Eo.
      eapply rel_place; [exact HR|exact Hi|]. by rewrite <- En.
    + by rewrite fn_lookup_insert_ne.
Qed.

Lemma rel_unlock s f c :
  spin_rel N s f -> spin_at s c = SpIn ->
  exists f', fifo_step c OpUnlock f f'
    /\ spin_rel N (mk_spin (arch_spin_unlock (slock s)) (<[c := SpOut]> (spin_at s))) f'.
Proof.
  intros HR Hc. pose proof HR as [Hw Hd Hb Hn Hin Hpc].
  pose proof (Hpc c) as Hpcc. rewrite Hc in Hpcc. destruct Hpcc as [Hq Hb'].
  destruct f as [[|c' q] b]; simplify_eq/=. exists (mk_fifo q false). split; [constructor|].
  destruct (unlock_spec _ Hw) as (En & Eo & Hw'). apply NoDup_cons in Hd as [Hcq Hd].
  apply Forall_cons in Hb as [_ Hb]. split; simpl; [done..| |done|].
  - rewrite En, Eo, Hn, u16_add_l. f_equal. lia.
  - intros d. destruct (decide (c = d)) as [<-|Hcd]; [by rewrite fn_lookup_insert|].
    rewrite fn_lookup_insert_ne by done. specialize (Hpc d). unfold spin_pc_ok in *.
    destruct (spin_at s d) as [|n o|]; simpl in *; [set_solver| |naive_solver].
    destruct Hpc as ([|i] & Hi & -> & _ & Ho); [naive_solver|]. exists i.
    split_and!; [done| |done|intros E; by specialize (Ho E)].
    rewrite Eo, u16_add_l. f_equal. lia.
Qed.

Lemma rel_step s f c op s' :
  spin_rel N s f -> 0 <= c < N -> spin_step c op s = Some s' ->
  exists f', fifo_step c op f f' /\ spin_rel N s' f'.
Proof.
  intros HR HcN Hs. unfold spin_step in Hs.
  assert (Hout : spin_at s c = SpOut -> c ∉ fq f)
    by (intros Hc; pose proof (sr_pc _ _ _ HR c) as Hpc; by rewrite Hc in Hpc).
  destruct op, (spin_at s c) as [|n o|] eqn:Hc; try discriminate.
  - simplify_eq. eexists. split; [|by apply rel_lock]. destruct f. constructor. by apply Hout.
  - rewrite trylock_spec in Hs by apply HR. pose proof (rel_free _ _ HR) as Hfree.
    destruct (Z.eqb_spec (ticket_owner (slock s)) (ticket_next (slock s))) as [E|E]; simplify_eq.
    + apply Hfree in E. exists (mk_fifo [c] true). split; [|by eapply rel_try].
      destruct f as [q b]; simpl in *; subst. constructor.
    + exists f. split; [|by destruct s].
      destruct f as [[|d q] b]; [by destruct E; apply Hfree|]. constructor. by apply Hout.
  - simplify_eq. by apply rel_wait.
  - simplify_eq. by apply rel_unlock.
Qed.

Lemma rel_run tr s f s' :
  spin_rel N s f -> Forall (fun '(c, _) => 0 <= c < N) tr -> spin_run tr s = Some s' ->
  exists f', fifo_run tr f f' /\ spin_rel N s' f'.
Proof.
  revert s f. induction tr as [|[c op] tr IH]; intros s f HR Htr Hs; simplify_eq/=.
  { exists f. split; [constructor|done]. }
  apply Forall_cons in Htr as [Hc Htr].
  destruct (spin_step c op s) as [s1|] eqn:E; simplify_eq/=.
  destruct (rel_step _ _ _ _ _ HR Hc E) as (f1 & Hf & HR1).
  destruct (IH _ _ HR1 Htr Hs) as (f' & ? & ?). exists f'. split; [by econstructor|done].
Qed.
End tickets.

Lemma rel_start N : spin_rel N spin_start (mk_fifo [] false).
Proof.
  split; simpl; [done|constructor|constructor|done|done|]. intros c. apply not_elem_of_nil.
Qed.

(** Places as the queue sees them. *)
Lemma rel_places N s f :
  spin_rel N s f ->
  (forall c, spin_at s c = SpIn <-> head (fq f) = Some c /\ f_in f = true)
  /\ (forall c, spin_at s c <> SpOut <-> c ∈ fq f).
Proof.
  intros HR. pose proof HR as [Hw Hd Hb Hn Hin Hpc]. split; intros c; specialize (Hpc c).
  - destruct (spin_at s c) as [|n o|]; simpl in *; split; try done.
    + intros [Hh%head_Some_elem_of _]. done.
    + intros [Hh Hf]. destruct Hpc as (i & Hi & _ & Hi0 & _).
      destruct (fq f) as [|d q]; simplify_eq/=. apply NoDup_cons in Hd as [Hcq _].
      destruct i as [|i]; [by rewrite Hi0 in Hf|].
      destruct Hcq. by eapply list_elem_of_lookup_2.
    + intros _. destruct (fq f); naive_solver.
  - destruct (spin_at s c) as [|n o|]; simpl in *; split; try done.
    + intros _. destruct Hpc as (i & Hi & _). by eapply list_elem_of_lookup_2.
    + intros _. destruct Hpc as [Hi _]. by eapply list_elem_of_lookup_2.
Qed.

(** C16. For fewer than 2^16 CPUs the ticket lock of [spinlock.h] is a first-come
    first-served queue: every interleaving of the steps of [arch_spin_lock],
    [arch_spin_trylock] and [arch_spin_unlock] is one of a queue that a CPU joins at the
    end when it takes a ticket and whose first CPU alone enters and leaves; the wrap-around
    of the 16-bit tickets does not disturb it.  So at most one CPU is inside, and a CPU
    enters only after all that asked before it. *)
Theorem spin_refines_fifo N tr s :
  N < 2 ^ 16 -> Forall (fun '(c, _) => 0 <= c < N) tr -> spin_run tr spin_start = Some s ->
  exists f, fifo_run tr (mk_fifo [] false) f
    /\ (forall c, spin_at s c = SpIn <-> head (fq f) = Some c /\ f_in f = true)
    /\ (forall c, spin_at s c <> SpOut <-> c ∈ fq f)
    /\ (arch_spin_is_locked (slock s) = false <-> fq f = []).
Proof.
  intros HN Htr Hs. destruct (rel_run N HN _ _ _ _ (rel_start N) Htr Hs) as (f & Hf & HR).
  exists f. destruct (rel_places _ _ _ HR) as [H1 H2]. split_and!; [done..|].
  rewrite <- (rel_free N HN _ _ HR). unfold arch_spin_is_locked.
  rewrite negb_false_iff, Z.eqb_eq. done.
Qed.

(** Three CPUs: 1 waits behind 0, 2 is refused; 0 leaves and 1 enters. *)
Lemma spin_refines_fifo_witness :
  exists s, spin_run [(0, OpLock); (0, OpWait); (1, OpLock); (2, OpTryLock); (1, OpWait);
                      (0, OpUnlock); (1, OpWait); (1, OpWait)] spin_start = Some s
    /\ spin_at s 1 = SpIn
    /\ exists f, head (fq f) = Some 1 /\ f_in f = true.
Proof.
  eexists. split; [reflexivity|]. split; [reflexivity|].
  destruct (spin_refines_fifo 3
    [(0, OpLock); (0, OpWait); (1, OpLock); (2, OpTryLock); (1, OpWait);
     (0, OpUnlock); (1, OpWait); (1, OpWait)] _ ltac:(lia)
    ltac:(repeat constructor; lia) eq_refl) as (f & _ & H1 & _).
  exists f. apply H1. reflexivity.
Defined.
