(* ===== verification/Rbtree.v ===== *)
(** Red-black trees ([lib/rbtree.c], [include/linux/rbtree.h],
    [include/linux/rbtree_augmented.h]): the pointer code on a store of nodes, and that it
    implements sequences.

    A node is found under its address, a positive multiple of 4; 0 is NULL.  A read or
    write through NULL, or of a node that is not there, gives [None].  The source has each
    rebalancing case twice, once for each side; here it is one definition with the side as
    a parameter.  The augmentation callbacks are those of [rb_insert_color] and [rb_erase],
    which do nothing. *)

From stdpp Require Import gmap.
From S2P Require Import Prelude.

Definition RB_RED : Z := 0.
Definition RB_BLACK : Z := 1.

Record rb_node := mk_node {
  __rb_parent_color : Z;
  rb_right : Z;
  rb_left : Z;
}.
#[export] Instance eta_rb_node : Eta rb_node := fun r =>
  {| __rb_parent_color := __rb_parent_color r; rb_right := rb_right r; rb_left := rb_left r |}.

(** The nodes, and [root->rb_node]. *)
Record rbs := mk_rbs {
  mem : gmap Z rb_node;
  root : Z;
}.

(** * The memory *)

Definition M (A : Type) : Type := rbs -> option (A * rbs).
#[export] Instance M_ret : MRet M := fun A x s => Some (x, s).
#[export] Instance M_bind : MBind M := fun A B f m s => '(x, s) ← m s; f x s.

Definition load (p : Z) : M rb_node := fun s => n ← mem s !! p; Some (n, s).
Definition store (p : Z) (n : rb_node) : M unit := fun s => Some (tt, mk_rbs (<[p := n]> (mem s)) (root s)).
Definition set_root (p : Z) : M unit := fun s => Some (tt, mk_rbs (mem s) p).

(** A side of a node, with the child there. *)
Inductive side := L | R.
#[export] Instance side_eq_dec : EqDecision side.
Proof. solve_decision. Defined.
Definition opp (d : side) : side := match d with L => R | R => L end.

Definition child (d : side) (n : rb_node) : Z := match d with L => rb_left n | R => rb_right n end.
Definition with_child (d : side) (v : Z) (n : rb_node) : rb_node :=
  match d with L => n <| rb_left := v |> | R => n <| rb_right := v |> end.

Definition get_child (d : side) (p : Z) : M Z := n ← load p; mret (child d n).
Definition set_child (d : side) (p v : Z) : M unit := n ← load p; store p (with_child d v n).
Definition get_pc (p : Z) : M Z := n ← load p; mret (__rb_parent_color n).
Definition set_pc (p v : Z) : M unit := n ← load p; store p (n <| __rb_parent_color := v |>).

Definition __rb_parent (pc : Z) : Z := Z.land pc (Z.lnot 3).
Definition __rb_color (pc : Z) : Z := Z.land pc 1.
Definition __rb_is_black (pc : Z) : bool := nonzero (__rb_color pc).

Definition rb_parent (p : Z) : M Z := pc ← get_pc p; mret (__rb_parent pc).
Definition rb_is_black (p : Z) : M bool := pc ← get_pc p; mret (__rb_is_black pc).
Definition rb_is_red (p : Z) : M bool := b ← rb_is_black p; mret (negb b).
Definition rb_red_parent (p : Z) : M Z := get_pc p.

Definition rb_set_parent (rb p : Z) : M unit := pc ← get_pc rb; set_pc rb (Z.lor (__rb_color pc) p).
Definition rb_set_parent_color (rb p color : Z) : M unit := set_pc rb (Z.lor p color).
Definition rb_set_black (rb : Z) : M unit := pc ← get_pc rb; set_pc rb (Z.lor pc RB_BLACK).

Definition __rb_change_child (old new parent : Z) : M unit :=
  if nonzero parent then
    l ← get_child L parent;
    if l =? old then set_child L parent new else set_child R parent new
  else set_root new.

Definition __rb_rotate_set_parents (old new color : Z) : M unit :=
  parent ← rb_parent old;
  pc ← get_pc old;
  set_pc new pc;;
  rb_set_parent_color old new color;;
  __rb_change_child old new parent.

(** [if (p) rb_set_parent_color(p, parent, color)] *)
Definition set_if (p parent color : Z) : M unit :=
  if nonzero p then rb_set_parent_color p parent color else mret tt.

(** [p && rb_is_red(p)] *)
Definition red_child (p : Z) : M bool := if nonzero p then rb_is_red p else mret false.

(** * Insertion *)

(** Cases 2 and 3 of [__rb_insert], [parent] being the child of [gparent] on side [d]. *)
Definition insert_rotate (d : side) (node parent gparent : Z) : M unit :=
  tmp ← get_child (opp d) parent;
  '(parent, tmp) ←
    (if node =? tmp then
       tmp ← get_child d node;
       set_child (opp d) parent tmp;;
       set_child d node parent;;
       set_if tmp parent RB_BLACK;;
       rb_set_parent_color parent node RB_RED;;
       tmp ← get_child (opp d) node;
       mret (node, tmp)
     else mret (parent, tmp));
  set_child d gparent tmp;;
  set_child (opp d) parent gparent;;
  set_if tmp gparent RB_BLACK;;
  __rb_rotate_set_parents gparent parent RB_RED.

(** The loop of [__rb_insert]. *)
Fixpoint __rb_insert (fuel : nat) (node parent : Z) : M unit :=
  match fuel with
  | O => fun _ => None
  | S fuel =>
      if negb (nonzero parent) then rb_set_parent_color node 0 RB_BLACK
      else
        black ← rb_is_black parent;
        if black : bool then mret tt
        else
          gparent ← rb_red_parent parent;
          tmp ← get_child R gparent;
          let d := if negb (parent =? tmp) then L else R in
          tmp ← get_child (opp d) gparent;
          red ← red_child tmp;
          if red : bool then
            rb_set_parent_color tmp gparent RB_BLACK;;
            rb_set_parent_color parent gparent RB_BLACK;;
            up ← rb_parent gparent;
            rb_set_parent_color gparent up RB_RED;;
            __rb_insert fuel gparent up
          else insert_rotate d node parent gparent
  end.

Definition rb_insert_color (fuel : nat) (node : Z) : M unit :=
  parent ← rb_red_parent node;
  __rb_insert fuel node parent.

(** Where a link points from: the root, or a child of a node. *)
Definition link := option (Z * side).

Definition read_link (k : link) : M Z :=
  match k with None => fun s => Some (root s, s) | Some (p, d) => get_child d p end.
Definition write_link (k : link) (v : Z) : M unit :=
  match k with None => set_root v | Some (p, d) => set_child d p v end.

Definition rb_link_node (node parent : Z) (k : link) : M unit :=
  store node (mk_node parent 0 0);;
  write_link k node.

(** * Removal *)

(** Case 4 of [____rb_erase_color], [sibling] being the child of [parent] on side [opp d]. *)
Definition erase_rotate (d : side) (parent sibling tmp1 : Z) : M unit :=
  tmp2 ← get_child d sibling;
  set_child (opp d) parent tmp2;;
  set_child d sibling parent;;
  rb_set_parent_color tmp1 sibling RB_BLACK;;
  (if nonzero tmp2 then rb_set_parent tmp2 parent else mret tt);;
  __rb_rotate_set_parents parent sibling RB_BLACK.

(** Cases 2 to 4; the result is where to go on, if anywhere. *)
Definition erase_step (d : side) (parent sibling : Z) : M (option (Z * Z)) :=
  tmp1 ← get_child (opp d) sibling;
  red1 ← red_child tmp1;
  if red1 : bool then erase_rotate d parent sibling tmp1;; mret None
  else
    tmp2 ← get_child d sibling;
    red2 ← red_child tmp2;
    if red2 : bool then
      tmp1 ← get_child (opp d) tmp2;
      set_child d sibling tmp1;;
      set_child (opp d) tmp2 sibling;;
      set_child (opp d) parent tmp2;;
      set_if tmp1 sibling RB_BLACK;;
      erase_rotate d parent tmp2 sibling;;
      mret None
    else
      rb_set_parent_color sibling parent RB_RED;;
      red ← rb_is_red parent;
      if red : bool then rb_set_black parent;; mret None
      else
        up ← rb_parent parent;
        mret (if nonzero up then Some (parent, up) else None).

(** The loop of [____rb_erase_color]. *)
Fixpoint ____rb_erase_color (fuel : nat) (node parent : Z) : M unit :=
  match fuel with
  | O => fun _ => None
  | S fuel =>
      sibling ← get_child R parent;
      let d := if negb (node =? sibling) then L else R in
      sibling ← get_child (opp d) parent;
      red ← rb_is_red sibling;
      sibling ←
        (if red : bool then
           tmp1 ← get_child d sibling;
           set_child (opp d) parent tmp1;;
           set_child d sibling parent;;
           rb_set_parent_color tmp1 parent RB_BLACK;;
           __rb_rotate_set_parents parent sibling RB_RED;;
           mret tmp1
         else mret sibling);
      next ← erase_step d parent sibling;
      match next with
      | None => mret tt
      | Some (node, parent) => ____rb_erase_color fuel node parent
      end
  end.

(** The [do ... while] loop that goes down to the successor. *)
Fixpoint find_successor (fuel : nat) (parent successor : Z) : M (Z * Z) :=
  match fuel with
  | O => fun _ => None
  | S fuel =>
      tmp ← get_child L successor;
      if nonzero tmp then find_successor fuel successor tmp else mret (parent, successor)
  end.

(** [__rb_erase_augmented]: the node to rebalance from, if any. *)
Definition __rb_erase_augmented (fuel : nat) (node : Z) : M Z :=
  child ← get_child R node;
  tmp ← get_child L node;
  if negb (nonzero tmp) then
    pc ← get_pc node;
    let parent := __rb_parent pc in
    __rb_change_child node child parent;;
    if nonzero child then set_pc child pc;; mret 0
    else mret (if __rb_is_black pc then parent else 0)
  else if negb (nonzero child) then
    pc ← get_pc node;
    set_pc tmp pc;;
    __rb_change_child node tmp (__rb_parent pc);;
    mret 0
  else
    tmp ← get_child L child;
    '(parent, successor, child2) ←
      (if negb (nonzero tmp) then
         child2 ← get_child R child;
         mret (child, child, child2)
       else
         '(parent, successor) ← find_successor fuel child tmp;
         child2 ← get_child R successor;
         set_child L parent child2;;
         set_child R successor child;;
         rb_set_parent child successor;;
         mret (parent, successor, child2));
    tmp ← get_child L node;
    set_child L successor tmp;;
    rb_set_parent tmp successor;;
    pc ← get_pc node;
    __rb_change_child node successor (__rb_parent pc);;
    if nonzero child2 then
      set_pc successor pc;;
      rb_set_parent_color child2 parent RB_BLACK;;
      mret 0
    else
      pc2 ← get_pc successor;
      set_pc successor pc;;
      mret (if __rb_is_black pc2 then parent else 0).

Definition rb_erase (fuel : nat) (node : Z) : M unit :=
  rebalance ← __rb_erase_augmented fuel node;
  if nonzero rebalance then ____rb_erase_color fuel 0 rebalance else mret tt.

(** * Traversal *)

(** [while (n->rb_left) n = n->rb_left;] and its mirror. *)
Fixpoint descend (fuel : nat) (d : side) (n : Z) : M Z :=
  match fuel with
  | O => fun _ => None
  | S fuel => c ← get_child d n; if nonzero c then descend fuel d c else mret n
  end.

Definition rb_first (fuel : nat) : M Z := n ← read_link None; if nonzero n then descend fuel L n else mret 0.
Definition rb_last (fuel : nat) : M Z := n ← read_link None; if nonzero n then descend fuel R n else mret 0.

(** The loop that goes up as long as [node] is the child on side [d]. *)
Fixpoint ascend (fuel : nat) (d : side) (node : Z) : M Z :=
  match fuel with
  | O => fun _ => None
  | S fuel =>
      parent ← rb_parent node;
      if nonzero parent then
        c ← get_child d parent;
        if node =? c then ascend fuel d parent else mret parent
      else mret 0
  end.

(** [rb_next] ([d] is [R]) and [rb_prev] ([d] is [L]). *)
Definition rb_step (fuel : nat) (d : side) (node : Z) : M Z :=
  pc ← get_pc node;
  if pc =? node then mret 0
  else
    c ← get_child d node;
    if nonzero c then descend fuel (opp d) c else ascend fuel d node.

Definition rb_next (fuel : nat) (node : Z) : M Z := rb_step fuel R node.
Definition rb_prev (fuel : nat) (node : Z) : M Z := rb_step fuel L node.

Definition rb_replace_node (victim new : Z) : M unit :=
  parent ← rb_parent victim;
  __rb_change_child victim new parent;;
  l ← get_child L victim;
  (if nonzero l then rb_set_parent l new else mret tt);;
  r ← get_child R victim;
  (if nonzero r then rb_set_parent r new else mret tt);;
  n ← load victim;
  store new n.
