(* ===== verification/RbShape.v ===== *)
(** Red-black trees as values: the rebalancing of [Rbtree] on trees and their surroundings,
    that it keeps the order of the nodes and the tree red-black, and how long a path can be. *)

From S2P Require Import Prelude Rbtree.

(** * Trees *)

Inductive color := Red | Black.
#[export] Instance color_eq_dec : EqDecision color.
Proof. solve_decision. Defined.
Definition bit (c : color) : Z := match c with Red => RB_RED | Black => RB_BLACK end.

Inductive tree := E | T (c : color) (l : tree) (a : Z) (r : tree).

Definition ptr (t : tree) : Z := match t with E => 0 | T _ _ a _ => a end.

(** The nodes in order. *)
Fixpoint elems (t : tree) : list Z :=
  match t with E => [] | T _ l a r => elems l ++ a :: elems r end.

(** The node with subtree [x] on side [d] and [y] on the other. *)
Definition mk (d : side) (c : color) (x : tree) (a : Z) (y : tree) : tree :=
  match d with L => T c x a y | R => T c y a x end.

(** Surroundings of a subtree, innermost first: it is the subtree on side [fd] of [fa],
    which has [ft] on the other. *)
Record frame := F { fd : side; fc : color; fa : Z; ft : tree }.

Fixpoint plug (ctx : list frame) (t : tree) : tree :=
  match ctx with [] => t | F d c a y :: ctx => plug ctx (mk d c t a y) end.

Definition parent_of (ctx : list frame) : Z := match ctx with [] => 0 | f :: _ => fa f end.

(** The nodes before and after the subtree, in order. *)
Fixpoint before (ctx : list frame) : list Z :=
  match ctx with
  | [] => []
  | F L _ _ _ :: ctx => before ctx
  | F R _ a y :: ctx => before ctx ++ elems y ++ [a]
  end.
Fixpoint after (ctx : list frame) : list Z :=
  match ctx with
  | [] => []
  | F L _ a y :: ctx => a :: elems y ++ after ctx
  | F R _ _ _ :: ctx => after ctx
  end.

Lemma elems_plug ctx t : elems (plug ctx t) = before ctx ++ elems t ++ after ctx.
Proof.
  revert t. induction ctx as [|[[] c a y] ctx IH]; intros t; cbn [plug before after].
  - by rewrite app_nil_r.
  - rewrite IH. cbn [mk elems]. rewrite <- !app_assoc. by cbn [app].
  - rewrite IH. cbn [mk elems]. rewrite <- !app_assoc. by rewrite <- ?app_assoc.
Qed.

Lemma plug_app ctx1 ctx2 t : plug (ctx1 ++ ctx2) t = plug ctx2 (plug ctx1 t).
Proof. revert t. induction ctx1 as [|[d c a y] ctx1 IH]; intros t; [done|]. apply IH. Qed.

(** ** Addresses and colours in one word *)

Definition addr (a : Z) : Prop := 0 < a /\ Z.land a 3 = 0.
Definition enc (p : Z) (c : color) : Z := Z.lor p (bit c).

Lemma low_bits p n : Z.land p 3 = 0 -> 0 <= n < 2 -> Z.testbit p n = false.
Proof.
  intros Hp Hn. assert (E : Z.testbit (Z.land p 3) n = false) by (rewrite Hp; apply Z.bits_0).
  rewrite Z.land_spec in E. assert (E3 : Z.testbit 3 n = true) by (assert (n = 0 \/ n = 1) as [-> | ->] by lia; done).
  rewrite E3, andb_true_r in E. done.
Qed.

Lemma enc_parent p c : Z.land p 3 = 0 -> __rb_parent (enc p c) = p.
Proof.
  intros Hp. unfold __rb_parent, enc. apply Z.bits_inj'. intros n Hn.
  rewrite Z.land_spec, Z.lnot_spec, Z.lor_spec by done.
  destruct (Z.lt_ge_cases n 2) as [Hl|Hl].
  - rewrite low_bits by done. assert (E3 : Z.testbit 3 n = true) by (assert (n = 0 \/ n = 1) as [-> | ->] by lia; done).
    rewrite E3. cbn. by rewrite andb_false_r.
  - rewrite (Z.bits_above_log2 3 n), (Z.bits_above_log2 (bit c) n); [by rewrite orb_false_r, andb_true_r|by destruct c| |done|].
    + assert (E : Z.log2 (bit c) = 0) by (by destruct c). lia.
    + change (Z.log2 3) with 1. lia.
Qed.

Lemma enc_color p c : Z.land p 3 = 0 -> __rb_color (enc p c) = bit c.
Proof.
  intros Hp. unfold __rb_color, enc. rewrite Z.land_lor_distr_l.
  assert (E : Z.land p 1 = 0).
  { apply Z.bits_inj'. intros n Hn. rewrite Z.land_spec, Z.bits_0. destruct (Z.eq_dec n 0) as [->|Hn0].
    - by rewrite low_bits by (done || lia).
    - rewrite (Z.bits_above_log2 1 n); [apply andb_false_r|lia|simpl; lia]. }
  rewrite E. by destruct c.
Qed.

Lemma enc_black p c : Z.land p 3 = 0 -> __rb_is_black (enc p c) = bool_decide (c = Black).
Proof. intros Hp. unfold __rb_is_black. rewrite enc_color by done. by destruct c. Qed.

Lemma enc_red p : enc p Red = p.
Proof. unfold enc. apply Z.lor_0_r. Qed.

Lemma enc_swap p c : Z.lor (bit c) p = enc p c.
Proof. apply Z.lor_comm. Qed.

Lemma enc_blacken p c : Z.lor (enc p c) RB_BLACK = enc p Black.
Proof. unfold enc. rewrite <- Z.lor_assoc. by destruct c. Qed.

(** * The algorithms on trees *)

Definition paint (c : color) (t : tree) : tree := match t with E => E | T _ l a r => T c l a r end.
Definition is_red (t : tree) : bool := match t with T Red _ _ _ => true | _ => false end.

(** The subtree of a node on a side. *)
Definition sub (d : side) (t : tree) : tree :=
  match t, d with E, _ => E | T _ l _ _, L => l | T _ _ _ r, R => r end.

(** Insertion: the subtree [x], with a red root, in its surroundings. *)
Fixpoint ins_fix (x : tree) (ctx : list frame) : option tree :=
  match ctx with
  | [] => Some (paint Black x)
  | F _ Black _ _ :: _ => Some (plug ctx x)
  | [F _ Red _ _] => None
  | F d1 Red p y :: F d2 cg g u :: ctx' =>
      if is_red u then ins_fix (mk d2 Red (mk d1 Black x p y) g (paint Black u)) ctx'
      else if decide (d1 = d2) then Some (plug ctx' (mk d2 cg x p (mk d2 Red (paint Black y) g u)))
      else
        let p' := mk d2 Red y p (paint Black (sub d2 x)) in
        Some (plug ctx' (mk d2 cg p' (ptr x) (mk d2 Red (paint Black (sub (opp d2) x)) g u)))
  end.

(** Cases 2 to 4 of the rebalancing after a removal: [x], on side [d] of [p], is a black
    node short, [s] is its sibling.  The result is the whole tree, or what is short now. *)
Definition era_step (d : side) (x : tree) (c : color) (p : Z) (s : tree) (ctx : list frame) : option (tree + tree) :=
  match s with
  | E => None
  | T _ _ sa _ =>
      let near := sub d s in
      let far := sub (opp d) s in
      if is_red far then Some (inl (plug ctx (mk d c (mk d Black x p near) sa (paint Black far))))
      else if is_red near then
        Some (inl (plug ctx (mk d c (mk d Black x p (sub d near)) (ptr near)
                                (mk d Black (paint Black (sub (opp d) near)) sa far))))
      else
        let q := mk d Black x p (mk d Red near sa far) in
        match c with Red => Some (inl (plug ctx q)) | Black => Some (inr q) end
  end.

Fixpoint era_fix (x : tree) (ctx : list frame) : option tree :=
  match ctx with
  | [] => Some x
  | F d c p s :: ctx' =>
      r ← (if is_red s then
             era_step d x Red p (paint Black (sub d s)) (F d c (ptr s) (sub (opp d) s) :: ctx')
           else era_step d x c p s ctx');
      match r with inl t => Some t | inr q => era_fix q ctx' end
  end.

(** * Red-black trees *)

(** [rb_ok t c n]: [t] has root colour [c] (black if empty), no red node has a red child
    and every path to a leaf has [n] black nodes. *)
Inductive rb_ok : tree -> color -> nat -> Prop :=
| rb_E : rb_ok E Black 0
| rb_R l a r n : rb_ok l Black n -> rb_ok r Black n -> rb_ok (T Red l a r) Red n
| rb_B l a r n cl cr : rb_ok l cl n -> rb_ok r cr n -> rb_ok (T Black l a r) Black (S n).

(** [ctx_ok ctx b n]: a tree with [n] black nodes on its paths, and a red root only if
    [b], fits into [ctx]. *)
Inductive ctx_ok : list frame -> bool -> nat -> Prop :=
| ctx_nil n : ctx_ok [] false n
| ctx_red d a y ctx n : rb_ok y Black n -> ctx_ok ctx true n -> ctx_ok (F d Red a y :: ctx) false n
| ctx_black d a y ctx n c b : rb_ok y c n -> ctx_ok ctx b (S n) -> ctx_ok (F d Black a y :: ctx) true n.

Create HintDb rb.
#[local] Hint Constructors rb_ok ctx_ok : rb.

Lemma rb_mk_red d x a y n : rb_ok x Black n -> rb_ok y Black n -> rb_ok (mk d Red x a y) Red n.
Proof. destruct d; simpl; eauto with rb. Qed.
Lemma rb_mk_black d x a y n c1 c2 : rb_ok x c1 n -> rb_ok y c2 n -> rb_ok (mk d Black x a y) Black (S n).
Proof. destruct d; simpl; eauto with rb. Qed.
#[local] Hint Resolve rb_mk_red rb_mk_black : rb.

Lemma is_red_ok t c n : rb_ok t c n -> is_red t = bool_decide (c = Red).
Proof. by intros []. Qed.

Lemma paint_red t n : rb_ok t Red n -> rb_ok (paint Black t) Black (S n).
Proof. inversion 1; subst. simpl. eauto with rb. Qed.
Lemma paint_black t n : rb_ok t Black n -> paint Black t = t.
Proof. by inversion 1. Qed.

Lemma rb_sub d t n : rb_ok t Red n -> rb_ok (sub d t) Black n.
Proof. inversion 1; subst. by destruct d. Qed.
Lemma rb_sub_black d t n : rb_ok t Black (S n) -> exists c, rb_ok (sub d t) c n.
Proof. inversion 1; subst. destruct d; eauto. Qed.

(** A node of the surroundings with colour [c] above a hole for [n] black nodes. *)
Definition above (c : color) (n : nat) : nat := match c with Red => n | Black => S n end.

Lemma rb_mk_any d c x a y n b :
  rb_ok x Black n -> rb_ok y Black n -> (c = Red -> b = true) ->
  exists c' n', rb_ok (mk d c x a y) c' n' /\ (c' = Red -> b = true) /\ n' = above c n.
Proof. intros Hx Hy Hb. destruct c; eauto 10 with rb. Qed.

Lemma plug_ok ctx b n t c : ctx_ok ctx b n -> rb_ok t c n -> (c = Red -> b = true) -> exists m, rb_ok (plug ctx t) Black m.
Proof.
  intros Hc. revert t c. induction Hc as [n|d a y ctx n Hy Hc IH|d a y ctx n cy b Hy Hc IH]; intros t c Ht Hb; cbn [plug].
  - destruct c; [by specialize (Hb eq_refl)|eauto].
  - destruct c; [by specialize (Hb eq_refl)|]. eapply IH; eauto with rb.
  - eapply IH; eauto with rb. done.
Qed.

Lemma ctx_inv d c a y ctx b n :
  ctx_ok (F d c a y :: ctx) b n ->
  exists cy b', rb_ok y cy n /\ ctx_ok ctx b' (above c n) /\ (c = Red -> cy = Black /\ b' = true /\ b = false).
Proof. inversion 1; subst; [exists Black, true|exists c0, b0]; naive_solver. Qed.

(** Insertion keeps the tree red-black. *)
Lemma ins_fix_ok x ctx n b :
  rb_ok x Red n -> ctx_ok ctx b n ->
  exists t m, ins_fix x ctx = Some t /\ rb_ok t Black m.
Proof.
  remember (length ctx) as k eqn:Hk. revert x ctx n b Hk.
  induction k as [k IH] using lt_wf_ind. intros x ctx n b Hk Hx Hc.
  destruct ctx as [|[d1 [] p y] ctx1]; cbn [ins_fix].
  - eauto using paint_red.
  - apply ctx_inv in Hc as (cy & b' & Hy & Hc & Hr). destruct (Hr eq_refl) as (-> & -> & _). cbn [above] in Hc.
    destruct ctx1 as [|[d2 cg g u] ctx']; [by inversion Hc|].
    apply ctx_inv in Hc as Hc2. destruct Hc2 as (cu & b2 & Hu & Hc2 & Hr2).
    destruct cg; [by destruct (Hr2 eq_refl) as (_ & _ & ?)|]. cbn [above] in Hc2.
    rewrite (is_red_ok u cu n Hu). destruct cu; cbn.
    + apply (IH (length ctx')) with (n := S n) (b := b2); [simpl in Hk; lia|done| |done].
      apply rb_mk_red; [by eapply rb_mk_black|by apply paint_red].
    + rewrite (paint_black y n Hy). case_decide as Hd.
      * destruct (plug_ok ctx' b2 (S n) (mk d2 Black x p (mk d2 Red y g u)) Black) as [m Hm]; eauto with rb. done.
      * rewrite (paint_black (sub d2 x) n), (paint_black (sub (opp d2) x) n) by (by apply rb_sub).
        destruct (plug_ok ctx' b2 (S n) (mk d2 Black (mk d2 Red y p (sub d2 x)) (ptr x) (mk d2 Red (sub (opp d2) x) g u)) Black)
          as [m Hm]; [done| |done|eauto].
        eapply rb_mk_black; apply rb_mk_red; eauto using rb_sub.
  - destruct (plug_ok (F d1 Black p y :: ctx1) b n x Red Hc Hx) as [m Hm]; [|eauto].
    by inversion Hc; subst.
Qed.

Lemma era_step_ok d x c p s ctx b n :
  rb_ok x Black n -> rb_ok s Black (S n) -> ctx_ok ctx b (above c (S n)) -> (c = Red -> b = true) ->
  exists r, era_step d x c p s ctx = Some r
    /\ match r with inl t => exists m, rb_ok t Black m | inr q => c = Black /\ rb_ok q Black (S n) end.
Proof.
  intros Hx Hs Hc Hb. destruct (rb_sub_black d s n Hs) as [cn Hn]. destruct (rb_sub_black (opp d) s n Hs) as [cf Hf].
  unfold era_step. destruct s as [|cs sl sa sr]; [by inversion Hs|].
  rewrite (is_red_ok _ _ _ Hf), (is_red_ok _ _ _ Hn).
  assert (Hplug : forall u v, rb_ok u Black (S n) -> rb_ok v Black (S n) -> exists m, rb_ok (plug ctx (mk d c u sa v)) Black m).
  { intros u v Hu Hv. destruct (rb_mk_any d c u sa v (S n) b Hu Hv Hb) as (c' & n' & Ht & Hb' & ->).
    by apply (plug_ok ctx b (above c (S n)) _ c'). }
  destruct cf; cbn [bool_decide]; rewrite ?bool_decide_eq_true, ?bool_decide_eq_false.
  - rewrite bool_decide_true by done. eexists; split; [done|]. apply Hplug; [by eapply rb_mk_black|by apply paint_red].
  - rewrite (bool_decide_false (Black = Red)) by done. destruct cn.
    + rewrite bool_decide_true by done. eexists; split; [done|].
      assert (Hnn : forall e, rb_ok (sub e (sub d (T cs sl sa sr))) Black n) by (intros e; by apply rb_sub).
      destruct (rb_mk_any d c (mk d Black x p (sub d (sub d (T cs sl sa sr)))) (ptr (sub d (T cs sl sa sr)))
        (mk d Black (paint Black (sub (opp d) (sub d (T cs sl sa sr)))) sa (sub (opp d) (T cs sl sa sr))) (S n) b)
        as (c' & n' & Ht & Hb' & ->); [by eapply rb_mk_black| |done|by apply (plug_ok ctx b (above c (S n)) _ c')].
      eapply rb_mk_black; [|done]. by rewrite (paint_black _ n).
    + rewrite bool_decide_false by done.
      assert (Hq : rb_ok (mk d Black x p (mk d Red (sub d (T cs sl sa sr)) sa (sub (opp d) (T cs sl sa sr)))) Black (S n)).
      { eapply rb_mk_black; [done|]. by apply rb_mk_red. }
      destruct c; (eexists; split; [done|]); [|done]. by apply (plug_ok ctx b (S n) _ Black).
Qed.

Lemma era_fix_ok x ctx n b :
  rb_ok x Black n -> ctx_ok ctx b (S n) ->
  exists t m, era_fix x ctx = Some t /\ rb_ok t Black m.
Proof.
  revert x n b. induction ctx as [|[d c p s] ctx IH]; intros x n b Hx Hc; cbn [era_fix]; [eauto|].
  apply ctx_inv in Hc as (cs & b' & Hs & Hc & Hr). rewrite (is_red_ok _ _ _ Hs). destruct cs.
  - rewrite bool_decide_true by done. destruct c; [by destruct (Hr eq_refl)|]. cbn [above] in Hc.
    assert (Hss : forall e, rb_ok (sub e s) Black (S n)) by (intros e; by apply rb_sub).
    destruct (era_step_ok d x Red p (paint Black (sub d s)) (F d Black (ptr s) (sub (opp d) s) :: ctx) true n)
      as (r & -> & Hres); [done|by rewrite (paint_black _ (S n))| |done|].
    { cbn [above]. by apply (ctx_black d (ptr s) (sub (opp d) s) ctx (S n) Black b'). }
    destruct r as [t|q]; [|by destruct Hres]. destruct Hres as [m Hm]. cbn. eauto.
  - rewrite bool_decide_false by done. destruct (era_step_ok d x c p s ctx b' n Hx Hs Hc) as (r & -> & Hres);
      [intros E; by destruct (Hr E) as (_ & ? & _)|].
    cbn. destruct r as [t|q]; [destruct Hres; eauto|]. destruct Hres as [-> Hq]. by apply (IH q (S n) b').
Qed.

(** ** The order of the nodes is kept *)

Lemma elems_paint c t : elems (paint c t) = elems t.
Proof. by destruct t. Qed.

Lemma mk_sub d t : t <> E -> exists c, t = mk d c (sub d t) (ptr t) (sub (opp d) t).
Proof. destruct t as [|c l a r]; [done|]. intros _. exists c. by destruct d. Qed.

Lemma elems_mk d c x a y :
  elems (mk d c x a y) = match d with L => elems x ++ a :: elems y | R => elems y ++ a :: elems x end.
Proof. by destruct d. Qed.

Lemma elems_plug_eq ctx t t' : elems t = elems t' -> elems (plug ctx t) = elems (plug ctx t').
Proof. intros E. by rewrite !elems_plug, E. Qed.

Lemma elems_sub d t : t <> E ->
  elems t = match d with L => elems (sub L t) ++ ptr t :: elems (sub R t) | R => elems (sub L t) ++ ptr t :: elems (sub R t) end.
Proof. destruct t as [|c l a r]; [done|]. by destruct d. Qed.

Lemma ins_fix_elems x ctx t : x <> E -> ins_fix x ctx = Some t -> elems t = elems (plug ctx x).
Proof.
  remember (length ctx) as k eqn:Hk. revert x ctx t Hk. induction k as [k IH] using lt_wf_ind. intros x ctx t Hk Hx.
  destruct ctx as [|[d1 [] p y] ctx1]; cbn [ins_fix].
  - intros [= <-]. apply elems_paint.
  - destruct ctx1 as [|[d2 cg g u] ctx']; [done|]. cbn [plug]. destruct (is_red u).
    + intros Ht. apply (IH (length ctx')) in Ht; [|simpl in Hk; lia|done|by destruct d2].
      rewrite Ht. apply elems_plug_eq. rewrite !elems_mk, elems_paint. by destruct d2, d1.
    + case_decide as Hd; intros [= <-]; apply elems_plug_eq.
      * subst d2. rewrite !elems_mk, elems_paint. destruct d1; by rewrite <- !app_assoc.
      * assert (Ex : elems x = elems (sub L x) ++ ptr x :: elems (sub R x)) by (by destruct x).
        rewrite !elems_mk, !elems_paint, Ex. destruct d1, d2; try done; rewrite <- !app_assoc; cbn [app opp];
          by rewrite <- ?app_assoc.
  - by intros [= <-].
Qed.

Lemma era_step_elems d x c p s ctx r :
  era_step d x c p s ctx = Some r ->
  match r with
  | inl t => elems t = elems (plug ctx (mk d c x p s))
  | inr q => elems q = elems (mk d c x p s)
  end.
Proof.
  unfold era_step. destruct s as [|cs sl sa sr]; [done|]. rewrite elems_plug.
  destruct d; cbn [opp sub]; (case_match eqn:Hf; [|case_match eqn:Hn]).
  all: try (destruct c); intros [= <-]; cbn [mk elems]; rewrite ?elems_plug; cbn [elems mk]; rewrite ?elems_paint.
  all: repeat match goal with
    | |- context [elems (sub L ?u)] => destruct u as [|? ? ? ?]; [done|]; cbn [sub ptr elems]
    | |- context [elems (sub R ?u)] => destruct u as [|? ? ? ?]; [done|]; cbn [sub ptr elems]
    end.
  all: by repeat (rewrite <- ?app_assoc; cbn [app]).
Qed.

Lemma era_step_red d x p s ctx q : era_step d x Red p s ctx <> Some (inr q).
Proof. unfold era_step. destruct s as [|cs sl sa sr]; [done|]. by repeat case_match. Qed.

Lemma era_fix_elems x ctx t : era_fix x ctx = Some t -> elems t = elems (plug ctx x).
Proof.
  revert x. induction ctx as [|[d c p s] ctx IH]; intros x; cbn [era_fix plug]; [by intros [= <-]|].
  destruct (is_red s) eqn:Hs.
  - destruct (era_step _ _ _ _ _ _) as [r|] eqn:Er; [|done]. cbn. pose proof Er as Er'. apply era_step_elems in Er.
    assert (Em : elems (mk d c (mk d Red x p (paint Black (sub d s))) (ptr s) (sub (opp d) s)) = elems (mk d c x p s)).
    { rewrite !elems_mk, elems_paint. destruct s as [|cs sl sa sr]; [done|]. destruct d; cbn [opp sub elems ptr];
        rewrite <- ?app_assoc; cbn [app]; by rewrite <- ?app_assoc. }
    destruct r as [t'|q]; [intros [= <-]|].
    + rewrite Er. cbn [plug]. by apply elems_plug_eq.
    + by apply era_step_red in Er'.
  - destruct (era_step _ _ _ _ _ _) as [r|] eqn:Er; [|done]. cbn. apply era_step_elems in Er.
    destruct r as [t'|q]; [by intros [= <-]|]. intros Ht%IH. rewrite Ht. by apply elems_plug_eq.
Qed.

(** ** Depth *)

Fixpoint height (t : tree) : nat := match t with E => 0 | T _ l _ r => S (height l `max` height r) end.

Lemma height_mk d c x a y : height (mk d c x a y) = S (height x `max` height y).
Proof. destruct d; simpl; lia. Qed.

Lemma height_plug ctx t : (length ctx + height t <= height (plug ctx t))%nat.
Proof.
  revert t. induction ctx as [|[d c a y] ctx IH]; intros t; cbn [plug length]; [lia|].
  specialize (IH (mk d c t a y)). rewrite height_mk in IH. lia.
Qed.

Lemma rb_height t c n : rb_ok t c n -> (height t <= 2 * n + (if decide (c = Red) then 1 else 0))%nat.
Proof.
  induction 1 as [|l a r n _ IHl _ IHr|l a r n cl cr _ IHl _ IHr]; cbn [height]; repeat case_decide; try done; lia.
Qed.

Lemma rb_size t c n : rb_ok t c n -> (2 ^ n <= S (length (elems t)))%nat.
Proof.
  induction 1 as [|l a r n _ IHl _ IHr|l a r n cl cr _ IHl _ IHr]; cbn [elems]; rewrite ?length_app; simpl; lia.
Qed.

(** A red-black tree with [n] nodes is at most this deep. *)
Definition max_depth (n : nat) : nat := 2 * Nat.log2 (S n).

Lemma rb_depth t n : rb_ok t Black n -> (height t <= max_depth (length (elems t)))%nat.
Proof.
  intros Ht. pose proof (rb_height _ _ _ Ht) as Hh. pose proof (rb_size _ _ _ Ht) as Hs. rewrite decide_False in Hh by done.
  apply Nat.log2_le_pow2 in Hs; [|lia]. unfold max_depth. lia.
Qed.

(** ** Taking a node out *)

(** Every node of a tree has its surroundings. *)
Lemma elem_plug a t : a ∈ elems t -> exists ctx c l r, t = plug ctx (T c l a r).
Proof.
  induction t as [|c l IHl b r IHr]; cbn [elems]; [by intros ?%elem_of_nil|]. rewrite elem_of_app, elem_of_cons.
  intros [(ctx & c' & l' & r' & ->)%IHl|[->|(ctx & c' & l' & r' & ->)%IHr]].
  - exists (ctx ++ [F L c b r]), c', l', r'. by rewrite plug_app.
  - by exists [], c, l, r.
  - exists (ctx ++ [F R c b l]), c', l', r'. by rewrite plug_app.
Qed.

(** The parts of a red-black tree fit together. *)
Lemma unplug_ok ctx2 ctx x c n b :
  rb_ok (plug ctx2 x) c n -> ctx_ok ctx b n -> (c = Red -> b = true) ->
  exists c' n' b', rb_ok x c' n' /\ ctx_ok (ctx2 ++ ctx) b' n' /\ (c' = Red -> b' = true).
Proof.
  revert x. induction ctx2 as [|[d e a y] ctx2 IH]; intros x Hx Hc Hb; [eauto 10|].
  destruct (IH _ Hx Hc Hb) as (c' & n' & b' & Hm & Hc' & Hb'). cbn [app].
  assert (Hcase : (c' = Red /\ e = Red /\ rb_ok x Black n' /\ rb_ok y Black n')
    \/ (exists m cx cy, n' = S m /\ e = Black /\ rb_ok x cx m /\ rb_ok y cy m)).
  { destruct d; inversion Hm; subst; naive_solver. }
  destruct Hcase as [(-> & -> & Hx' & Hy)|(m & cx & cy & -> & -> & Hx' & Hy)].
  - rewrite (Hb' eq_refl) in Hc'. exists Black, n', false. split_and!; [done|by constructor|done].
  - exists cx, m, true. split_and!; [done|by eapply ctx_black|done].
Qed.

(** The first node of a tree that is not empty, and the way to it: its colour, its address,
    its right subtree and its surroundings. *)
Fixpoint unzip_first (c : color) (l : tree) (a : Z) (r : tree) (ctx : list frame) : color * Z * tree * list frame :=
  match l with
  | E => (c, a, r, ctx)
  | T c' l' a' r' => unzip_first c' l' a' r' (F L c a r :: ctx)
  end.

Lemma unzip_first_plug c l a r ctx cs sa sr ctx' :
  unzip_first c l a r ctx = (cs, sa, sr, ctx') -> plug ctx' (T cs E sa sr) = plug ctx (T c l a r).
Proof.
  revert c a r ctx. induction l as [|c' l' IH a' r' _]; intros c a r ctx; cbn [unzip_first]; [by intros [= <- <- <- <-]|].
  intros H%IH. by rewrite H.
Qed.

Lemma unzip_first_before c l a r ctx cs sa sr ctx' : unzip_first c l a r ctx = (cs, sa, sr, ctx') -> before ctx' = before ctx.
Proof.
  revert c a r ctx. induction l as [|c' l' IH a' r' _]; intros c a r ctx; cbn [unzip_first]; [by intros [= _ _ _ <-]|].
  intros H%IH. by rewrite H.
Qed.

(** [x], painted black, in the place of a node of colour [c] with the only child [x]. *)
Definition era_splice (c : color) (x : tree) (ctx : list frame) : option tree :=
  match x, c with
  | E, Black => era_fix E ctx
  | E, Red => Some (plug ctx E)
  | T _ _ _ _, _ => Some (plug ctx (paint Black x))
  end.

Definition era (c : color) (l r : tree) (ctx : list frame) : option tree :=
  match l, r with
  | E, _ => era_splice c r ctx
  | _, E => era_splice c l ctx
  | _, T c' l' a' r' => let '(cs, sa, sr, ctx2) := unzip_first c' l' a' r' [] in era_splice cs sr (ctx2 ++ F R c sa l :: ctx)
  end.

Lemma single_child d c a x c' n : rb_ok (mk d c E a x) c' n -> x <> E -> c = Black /\ n = 1%nat /\ rb_ok x Red 0.
Proof.
  intros Hx Hne. destruct d; inversion Hx; subst;
    repeat match goal with H : rb_ok E _ _ |- _ => inversion H; clear H; subst end;
    match goal with H : rb_ok x _ _ |- _ => inversion H; subst; try done end; split_and!; try done; by constructor.
Qed.

Lemma era_splice_ok d c a x ctx c' b n :
  rb_ok (mk d c E a x) c' n -> ctx_ok ctx b n -> (c' = Red -> b = true) ->
  exists t m, era_splice c x ctx = Some t /\ rb_ok t Black m.
Proof.
  intros Hx Hc Hb. destruct x as [|cx xl xa xr].
  - assert (Hn : n = above c 0 /\ c' = c).
    { destruct d; inversion Hx; subst; repeat match goal with H : rb_ok E _ _ |- _ => inversion H; clear H; subst end; done. }
    destruct Hn as [-> ->]. destruct c; cbn [era_splice above] in *; [|by eapply era_fix_ok; [constructor|]].
    destruct (plug_ok ctx b 0 E Black) as [m Hm]; [done|constructor|done|]. eauto.
  - destruct (single_child _ _ _ _ _ _ Hx) as (-> & -> & Hr); [done|]. cbn [era_splice].
    apply paint_red in Hr. destruct (plug_ok ctx b 1 _ Black Hc Hr) as [m Hm]; [done|]. eauto.
Qed.

Lemma era_splice_elems c x ctx t : era_splice c x ctx = Some t -> elems t = elems (plug ctx x).
Proof.
  destruct x as [|cx xl xa xr]; [destruct c; cbn [era_splice]; [by intros [= <-]|apply era_fix_elems]|].
  intros [= <-]. by apply elems_plug_eq.
Qed.

Lemma era_elems c l r ctx t : era c l r ctx = Some t -> elems t = before ctx ++ elems l ++ elems r ++ after ctx.
Proof.
  destruct l as [|lc ll la lr]; [intros H%era_splice_elems; by rewrite H, elems_plug|].
  destruct r as [|rc rl ra rr]; [cbn [era]; intros H%era_splice_elems; by rewrite H, elems_plug|].
  cbn [era]. destruct (unzip_first rc rl ra rr []) as [[[cs sa] sr] ctx2] eqn:Hu.
  pose proof (unzip_first_before _ _ _ _ _ _ _ _ _ Hu) as Hb. apply unzip_first_plug in Hu. cbn [plug] in Hu.
  intros H%era_splice_elems. rewrite H, plug_app. cbn [plug mk]. rewrite elems_plug. rewrite <- Hu.
  set (l := T lc ll la lr). cbn [elems]. rewrite !elems_plug, Hb. cbn [elems before app]. rewrite <- ?app_assoc. cbn [app]. by rewrite <- ?app_assoc.
Qed.

Lemma era_ok c l a r ctx c' b n :
  rb_ok (T c l a r) c' n -> ctx_ok ctx b n -> (c' = Red -> b = true) ->
  exists t m, era c l r ctx = Some t /\ rb_ok t Black m.
Proof.
  intros Ht Hc Hb. destruct l as [|lc ll la lr]; [by apply (era_splice_ok L c a r ctx c' b n)|].
  destruct r as [|rc rl ra rr]; [by apply (era_splice_ok R c a _ ctx c' b n)|].
  cbn [era]. destruct (unzip_first rc rl ra rr []) as [[[cs sa] sr] ctx2] eqn:Hu. apply unzip_first_plug in Hu. cbn [plug] in Hu.
  rewrite <- Hu in Ht.
  assert (Ht' : rb_ok (plug [F R c sa (T lc ll la lr)] (plug ctx2 (T cs E sa sr))) c' n) by (by inversion Ht; subst; econstructor).
  rewrite <- plug_app in Ht'. destruct (unplug_ok _ _ _ _ _ _ Ht' Hc Hb) as (c2 & n2 & b2 & Hx & Hc2 & Hb2).
  rewrite <- app_assoc in Hc2. by apply (era_splice_ok L cs sa sr _ c2 b2 n2).
Qed.
