(* ===== verification/RbInsert.v ===== *)
(** Trees in memory, and that [__rb_insert] does on the store what its counterpart of
    [RbShape] does on the tree. *)

From stdpp Require Import gmap.
From S2P Require Import Prelude Rbtree RbShape.

(** * Trees in memory *)

Definition node_of (d : side) (pc x y : Z) : rb_node := match d with L => mk_node pc y x | R => mk_node pc x y end.

Fixpoint rep (h : gmap Z rb_node) (par : Z) (t : tree) : Prop :=
  match t with
  | E => True
  | T c l a r => h !! a = Some (mk_node (enc par c) (ptr r) (ptr l)) /\ rep h a l /\ rep h a r
  end.

(** The surroundings of a subtree at [p]; [rt] is the root. *)
Fixpoint rep_ctx (h : gmap Z rb_node) (ctx : list frame) (p rt : Z) : Prop :=
  match ctx with
  | [] => rt = p
  | F d c a y :: ctx =>
      h !! a = Some (node_of d (enc (parent_of ctx) c) p (ptr y)) /\ rep h a y /\ rep_ctx h ctx a rt
  end.

Fixpoint nodes (ctx : list frame) : list Z :=
  match ctx with [] => [] | F _ _ a y :: ctx => a :: elems y ++ nodes ctx end.

(** The subtree [x] in its surroundings, all nodes distinct. *)
Record zips (s : rbs) (x : tree) (ctx : list frame) : Prop := {
  zs_sub : rep (mem s) (parent_of ctx) x;
  zs_ctx : rep_ctx (mem s) ctx (ptr x) (root s);
  zs_nodup : NoDup (elems x ++ nodes ctx);
  zs_addr : Forall addr (elems x ++ nodes ctx);
}.

Definition repr (s : rbs) (t : tree) : Prop := zips s t [].

Lemma rep_mk h par d c x a y :
  rep h par (mk d c x a y) <-> h !! a = Some (node_of d (enc par c) (ptr x) (ptr y)) /\ rep h a x /\ rep h a y.
Proof. destruct d; simpl; tauto. Qed.

Lemma perm_mk d c x a y : elems (mk d c x a y) ≡ₚ elems x ++ a :: elems y.
Proof. destruct d; simpl; [done|]. by rewrite Permutation_app_comm, <- Permutation_middle, <- app_comm_cons. Qed.

Lemma zips_up s d c x a y ctx : zips s x (F d c a y :: ctx) <-> zips s (mk d c x a y) ctx.
Proof.
  assert (Hp : elems (mk d c x a y) ++ nodes ctx ≡ₚ elems x ++ nodes (F d c a y :: ctx)).
  { cbn [nodes]. rewrite perm_mk. by rewrite <- app_assoc. }
  assert (Hm : ptr (mk d c x a y) = a) by (by destruct d).
  split; intros [A B C D]; (split; [..|by rewrite ?Hp || by rewrite <- Hp|by rewrite ?Hp || by rewrite <- Hp]).
  - apply rep_mk. simpl in A, B. tauto.
  - rewrite Hm. simpl in B. tauto.
  - apply rep_mk in A. simpl. tauto.
  - apply rep_mk in A. rewrite Hm in B. simpl. tauto.
Qed.

Lemma zips_plug s x ctx : zips s x ctx <-> repr s (plug ctx x).
Proof.
  revert x. induction ctx as [|[d c a y] ctx IH]; intros x; [done|]. cbn [plug]. rewrite <- IH. apply zips_up.
Qed.

(** [h'] is [h] on [X]. *)
Definition agree (X : list Z) (h h' : gmap Z rb_node) : Prop := forall a, a ∈ X -> h' !! a = h !! a.

Lemma rep_agree h h' par t : agree (elems t) h h' -> rep h par t -> rep h' par t.
Proof.
  revert par. induction t as [|c l IHl a r IHr]; intros par Ha; [done|]. simpl. intros (H1 & H2 & H3). split_and!.
  - rewrite Ha; [done|]. simpl. set_solver.
  - apply IHl; [|done]. intros b Hb. apply Ha. simpl. set_solver.
  - apply IHr; [|done]. intros b Hb. apply Ha. simpl. set_solver.
Qed.

Lemma rep_ctx_agree h h' ctx p rt : agree (nodes ctx) h h' -> rep_ctx h ctx p rt -> rep_ctx h' ctx p rt.
Proof.
  revert p. induction ctx as [|[d c a y] ctx IH]; intros p Ha; [done|]. simpl in *. intros (H1 & H2 & H3). split_and!.
  - rewrite Ha; [done|]. set_solver.
  - apply (rep_agree h); [|done]. intros b Hb. apply Ha. set_solver.
  - apply IH; [|done]. intros b Hb. apply Ha. set_solver.
Qed.

(** ** Reading and writing *)

Lemma bind_eq {A B} (m : M A) (f : A -> M B) s x s' : m s = Some (x, s') -> (m ≫= f) s = f x s'.
Proof. intros E. unfold mbind, M_bind. by rewrite E. Qed.

Lemma get_child_eq d p s n : mem s !! p = Some n -> get_child d p s = Some (child d n, s).
Proof. intros E. unfold get_child, load. unfold mbind, M_bind. by rewrite E. Qed.
Lemma get_pc_eq p s n : mem s !! p = Some n -> get_pc p s = Some (__rb_parent_color n, s).
Proof. intros E. unfold get_pc, load. unfold mbind, M_bind. by rewrite E. Qed.
Lemma set_child_eq d p v s n :
  mem s !! p = Some n -> set_child d p v s = Some (tt, mk_rbs (<[p := with_child d v n]> (mem s)) (root s)).
Proof. intros E. unfold set_child, load. unfold mbind, M_bind. by rewrite E. Qed.
Lemma set_pc_eq p v s n :
  mem s !! p = Some n -> set_pc p v s = Some (tt, mk_rbs (<[p := n <| __rb_parent_color := v |>]> (mem s)) (root s)).
Proof. intros E. unfold set_pc, load. unfold mbind, M_bind. by rewrite E. Qed.

Lemma rb_parent_eq p s n : mem s !! p = Some n -> rb_parent p s = Some (__rb_parent (__rb_parent_color n), s).
Proof. intros E. unfold rb_parent. by erewrite bind_eq by (by apply get_pc_eq). Qed.
Lemma rb_is_black_eq p s n : mem s !! p = Some n -> rb_is_black p s = Some (__rb_is_black (__rb_parent_color n), s).
Proof. intros E. unfold rb_is_black. by erewrite bind_eq by (by apply get_pc_eq). Qed.
Lemma rb_is_red_eq p s n : mem s !! p = Some n -> rb_is_red p s = Some (negb (__rb_is_black (__rb_parent_color n)), s).
Proof. intros E. unfold rb_is_red. by erewrite bind_eq by (by apply rb_is_black_eq). Qed.

(** ** What the helpers do to trees *)

Lemma addr_nonzero a : addr a -> nonzero a = true.
Proof. intros [Ha _]. unfold nonzero. apply negb_true_iff, Z.eqb_neq. lia. Qed.

(** A step to memory [h'] that leaves everything but [X] alone. *)
Definition only (X : list Z) (h h' : gmap Z rb_node) : Prop := forall a, a ∉ X -> h' !! a = h !! a.

Lemma only_insert p n h : only [p] h (<[p := n]> h).
Proof. intros a Ha. apply lookup_insert_ne. set_solver. Qed.

Lemma set_if_ok par0 t par c s :
  rep (mem s) par0 t -> Forall addr (elems t) -> NoDup (elems t) ->
  exists h', set_if (ptr t) par (bit c) s = Some (tt, mk_rbs h' (root s))
    /\ rep h' par (paint c t) /\ only (elems t) (mem s) h'.
Proof.
  intros Hr Ha Hn. destruct t as [|c0 l a r]; simpl ptr.
  { exists (mem s). by destruct s. }
  simpl in Hr, Ha, Hn. destruct Hr as (H1 & H2 & H3).
  apply Forall_app in Ha as [_ Ha]. apply Forall_cons in Ha as [Ha _].
  apply NoDup_app in Hn as (_ & Hd & Hn). apply NoDup_cons in Hn as [Hr Hn].
  unfold set_if. rewrite addr_nonzero by done. unfold rb_set_parent_color. erewrite set_pc_eq by done.
  eexists; split; [reflexivity|]. split.
  - simpl. rewrite lookup_insert_eq. split; [done|].
    split; (eapply rep_agree; [|done]); intros b Hb; apply lookup_insert_ne; set_solver.
  - intros b Hb. apply lookup_insert_ne. simpl in Hb. set_solver.
Qed.

Lemma red_child_ok par t s :
  rep (mem s) par t -> Forall addr (elems t) -> Z.land par 3 = 0 -> red_child (ptr t) s = Some (is_red t, s).
Proof.
  intros Hr Ha Hp. destruct t as [|c l a r]; [done|]. simpl in *. destruct Hr as (H1 & _).
  apply Forall_app in Ha as [_ Ha]. apply Forall_cons in Ha as [Ha _].
  unfold red_child. rewrite addr_nonzero by done. erewrite rb_is_red_eq by done. simpl. rewrite enc_black by done.
  by destruct c.
Qed.

(** [rb_set_parent] on a subtree that is not empty. *)
Lemma set_parent_ok par0 t par s :
  t <> E -> rep (mem s) par0 t -> Z.land par0 3 = 0 -> NoDup (elems t) ->
  exists h', rb_set_parent (ptr t) par s = Some (tt, mk_rbs h' (root s)) /\ rep h' par t /\ only [ptr t] (mem s) h'.
Proof.
  intros Ht Hr Hp Hn. destruct t as [|c l a r]; [done|]. simpl in *. destruct Hr as (H1 & H2 & H3).
  apply NoDup_app in Hn as (_ & Hd & Hn). apply NoDup_cons in Hn as [Hr Hn].
  unfold rb_set_parent. erewrite bind_eq by (by apply get_pc_eq). erewrite set_pc_eq by done. simpl.
  rewrite enc_color, enc_swap by done. eexists; split; [reflexivity|]. split; [|apply only_insert].
  rewrite lookup_insert_eq. split; [done|].
  split; (eapply rep_agree; [|done]); intros b Hb; apply lookup_insert_ne; set_solver.
Qed.

Lemma parent_addr ctx : Forall addr (nodes ctx) -> Z.land (parent_of ctx) 3 = 0.
Proof.
  intros Ha. destruct ctx as [|[d c a y] ctx]; [done|]. cbn [nodes] in Ha. apply Forall_cons in Ha as [[_ Ha] _]. done.
Qed.

Lemma parent_in ctx : parent_of ctx = 0 \/ parent_of ctx ∈ nodes ctx.
Proof. destruct ctx as [|[d c a y] ctx]; [by left|]. right. left. Qed.

Lemma change_child_ok ctx old new s :
  rep_ctx (mem s) ctx old (root s) -> addr old -> old ∉ nodes ctx -> NoDup (nodes ctx) -> Forall addr (nodes ctx) ->
  exists s', __rb_change_child old new (parent_of ctx) s = Some (tt, s')
    /\ rep_ctx (mem s') ctx new (root s') /\ only [parent_of ctx] (mem s) (mem s').
Proof.
  intros Hc Ho Hold Hn Ha. destruct ctx as [|[d c a y] ctx]; simpl in *.
  { eexists; split; [reflexivity|]. done. }
  destruct Hc as (H1 & H2 & H3). apply Forall_cons in Ha as [Ha _]. apply NoDup_cons in Hn as [Hna Hn].
  unfold __rb_change_child. rewrite addr_nonzero by done. erewrite bind_eq by (by apply get_child_eq).
  assert (Hfin : forall n', n' = node_of d (enc (parent_of ctx) c) new (ptr y) ->
    rep_ctx (<[a := n']> (mem s)) (F d c a y :: ctx) new (root s) /\ only [a] (mem s) (<[a := n']> (mem s))).
  { intros n' ->. split; [|apply only_insert]. simpl. rewrite lookup_insert_eq. split; [done|].
    split; [apply (rep_agree (mem s))|apply (rep_ctx_agree (mem s))]; try done; intros b Hb; apply lookup_insert_ne; set_solver. }
  destruct d; cbn [child node_of rb_left].
  - rewrite Z.eqb_refl. erewrite set_child_eq by done. eexists; split; [reflexivity|]. by apply Hfin.
  - assert (Hy : ptr y <> old).
    { destruct y as [|cy ly ay ry]; simpl; [destruct Ho; lia|]. intros ->. simpl in Hold. set_solver. }
    rewrite (proj2 (Z.eqb_neq _ _) Hy). erewrite set_child_eq by done. eexists; split; [reflexivity|]. by apply Hfin.
Qed.

Lemma rotate_ok ctx old new c0 c s n_old n_new :
  mem s !! old = Some n_old -> __rb_parent_color n_old = enc (parent_of ctx) c0 -> mem s !! new = Some n_new ->
  rep_ctx (mem s) ctx old (root s) -> old <> new -> addr old -> old ∉ nodes ctx -> new ∉ nodes ctx ->
  NoDup (nodes ctx) -> Forall addr (nodes ctx) -> addr new ->
  exists s', __rb_rotate_set_parents old new (bit c) s = Some (tt, s')
    /\ mem s' !! old = Some (n_old <| __rb_parent_color := enc new c |>)
    /\ mem s' !! new = Some (n_new <| __rb_parent_color := enc (parent_of ctx) c0 |>)
    /\ rep_ctx (mem s') ctx new (root s')
    /\ forall t par, rep (mem s) par t -> Forall addr (elems t) ->
         (forall b, b ∈ elems t -> b ∉ old :: new :: nodes ctx) -> rep (mem s') par t.
Proof.
  intros Ho Hpc Hw Hc Hne Hao Hno Hnw Hn Ha Haw. unfold __rb_rotate_set_parents.
  erewrite bind_eq by (by apply rb_parent_eq). erewrite bind_eq by (by apply get_pc_eq).
  erewrite bind_eq by (by apply set_pc_eq). unfold rb_set_parent_color.
  erewrite bind_eq by (apply set_pc_eq; simpl; rewrite lookup_insert_ne by congruence; done).
  rewrite Hpc, enc_parent by (by apply parent_addr). set (s1 := mk_rbs _ _).
  assert (Hag : agree (nodes ctx) (mem s) (mem s1)).
  { intros b Hb. simpl. rewrite !lookup_insert_ne; [done|set_solver..]. }
  destruct (change_child_ok ctx old new s1) as (s2 & -> & Hc2 & Hf); [by eapply rep_ctx_agree|done..|].
  assert (Hp : forall b, b ∉ nodes ctx -> addr b -> b <> parent_of ctx).
  { intros b Hb [Hb0 _] ->. destruct (parent_in ctx); [lia|done]. }
  exists s2. split; [done|]. split; [|split; [|split; [done|]]].
  - rewrite Hf by (specialize (Hp old Hno Hao); set_solver). simpl. by rewrite lookup_insert_eq.
  - rewrite Hf by (specialize (Hp new Hnw Haw); set_solver). simpl.
    by rewrite lookup_insert_ne, lookup_insert_eq by congruence.
  - intros t par Ht Hat Hdis. eapply rep_agree; [|done]. intros b Hb. rewrite Forall_forall in Hat. specialize (Hdis b Hb).
    assert (b <> parent_of ctx) by (apply Hp; [set_solver|auto]). rewrite Hf by set_solver. simpl.
    rewrite !lookup_insert_ne; [done|set_solver..].
Qed.

(** Nodes of disjoint parts. *)
Ltac parts H := repeat (rewrite ?NoDup_app, ?NoDup_cons in H); destruct_and? H.

Lemma with_child_node d pc x y v : with_child d v (node_of d pc x y) = node_of d pc v y.
Proof. by destruct d. Qed.
Lemma with_child_opp d pc x y v : with_child (opp d) v (node_of d pc x y) = node_of d pc x v.
Proof. by destruct d. Qed.
Lemma child_node d pc x y : child d (node_of d pc x y) = x.
Proof. by destruct d. Qed.
Lemma child_opp d pc x y : child (opp d) (node_of d pc x y) = y.
Proof. by destruct d. Qed.
Lemma pc_node d pc x y : __rb_parent_color (node_of d pc x y) = pc.
Proof. by destruct d. Qed.
Lemma with_pc_node d pc x y v : node_of d pc x y <| __rb_parent_color := v |> = node_of d v x y.
Proof. by destruct d. Qed.

(** Case 3: [q] takes the place of [g], which becomes its child on side [opp d] and gets
    [t2] on side [d]. *)
Lemma case3_ok d q g t1 t2 u ctx cg pc x z par2 s :
  mem s !! g = Some (node_of d (enc (parent_of ctx) cg) x (ptr u)) ->
  mem s !! q = Some (node_of d pc (ptr t1) z) ->
  rep (mem s) q t1 -> rep (mem s) par2 t2 -> rep (mem s) g u -> rep_ctx (mem s) ctx g (root s) ->
  NoDup (g :: q :: elems t1 ++ elems t2 ++ elems u ++ nodes ctx) ->
  Forall addr (g :: q :: elems t1 ++ elems t2 ++ elems u ++ nodes ctx) ->
  exists s', (set_child d g (ptr t2);; set_child (opp d) q g;; set_if (ptr t2) g RB_BLACK;;
              __rb_rotate_set_parents g q RB_RED) s = Some (tt, s')
    /\ zips s' (mk d cg t1 q (mk d Red (paint Black t2) g u)) ctx.
Proof.
  intros Hg Hq R1 R2 R3 Hc Hn Ha. pose proof Hn as Hn'. pose proof Ha as Ha'. parts Hn.
  rewrite !Forall_cons, !Forall_app in Ha. destruct Ha as (Ag & Aq & A1 & A2 & A3 & A4).
  erewrite bind_eq by (by apply set_child_eq).
  erewrite bind_eq by (apply set_child_eq; simpl; rewrite lookup_insert_ne by set_solver; done).
  rewrite with_child_node, with_child_opp. set (s1 := mk_rbs _ _).
  assert (F1 : only [g; q] (mem s) (mem s1)) by (intros b Hb; simpl; rewrite !lookup_insert_ne; [done|set_solver..]).
  destruct (set_if_ok par2 t2 g Black s1) as (h2 & E2 & P2 & F2); [|done|done|].
  { eapply rep_agree; [|done]. intros b Hb. apply F1. set_solver. }
  change (bit Black) with RB_BLACK in E2. rewrite (bind_eq _ _ _ _ _ E2). set (s2 := mk_rbs h2 _).
  assert (G2 : mem s2 !! g = Some (node_of d (enc (parent_of ctx) cg) (ptr t2) (ptr u))).
  { simpl. rewrite F2 by set_solver. simpl. rewrite lookup_insert_ne by set_solver. by rewrite lookup_insert_eq. }
  assert (Q2 : mem s2 !! q = Some (node_of d pc (ptr t1) g)).
  { simpl. rewrite F2 by set_solver. simpl. by rewrite lookup_insert_eq. }
  assert (F12 : only (g :: q :: elems t2) (mem s) (mem s2)).
  { intros b Hb. simpl. rewrite F2 by set_solver. apply F1. set_solver. }
  destruct (rotate_ok ctx g q cg Red s2 _ _ G2 (pc_node _ _ _ _) Q2) as (s3 & E3 & G3 & Q3 & C3 & K3); try done;
    [|set_solver..|].
  { eapply rep_ctx_agree; [|done]. intros b Hb. apply F12. set_solver. }
  exists s3. split; [done|]. rewrite with_pc_node in G3, Q3.
  assert (Hsub : forall t par, rep (mem s) par t -> Forall addr (elems t) ->
    (forall b, b ∈ elems t -> b ∉ g :: q :: elems t2 ++ nodes ctx) -> rep (mem s3) par t).
  { intros t par Ht Hat Hdis. apply K3; [|done|set_solver]. apply (rep_agree (mem s)); [|done].
    intros b Hb. apply F12. set_solver. }
  assert (Hp : elems (mk d cg t1 q (mk d Red (paint Black t2) g u)) ++ nodes ctx
    ≡ₚ g :: q :: elems t1 ++ elems t2 ++ elems u ++ nodes ctx).
  { rewrite !perm_mk, elems_paint. solve_Permutation. }
  split; [|by replace (ptr (mk d cg t1 q _)) with q by (by destruct d)|by rewrite Hp|by rewrite Hp].
  apply rep_mk. rewrite Q3. split; [by destruct d|]. split; [apply Hsub; [done|done|set_solver]|].
  apply rep_mk. rewrite G3. split; [by destruct t2, d|]. split; [|apply Hsub; [done|done|set_solver]].
  apply K3; [done|by rewrite elems_paint|]. intros b. rewrite elems_paint. set_solver.
Qed.

(** Case 2: [n] and its parent [p] change places. *)
Lemma case2_ok d n p xa xb y pcn pcp z s :
  mem s !! n = Some (node_of d pcn (ptr xa) (ptr xb)) -> mem s !! p = Some (node_of d pcp (ptr y) z) ->
  rep (mem s) n xa -> NoDup (n :: p :: elems xa) -> Forall addr (elems xa) ->
  exists s1,
    (tmp ← get_child d n; set_child (opp d) p tmp;; set_child d n p;; set_if tmp p RB_BLACK;;
     rb_set_parent_color p n RB_RED;; tmp ← get_child (opp d) n; mret (n, tmp)) s = Some ((n, ptr xb), s1)
    /\ mem s1 !! p = Some (node_of d (enc n Red) (ptr y) (ptr xa))
    /\ mem s1 !! n = Some (node_of d pcn p (ptr xb))
    /\ rep (mem s1) p (paint Black xa) /\ only (p :: n :: elems xa) (mem s) (mem s1) /\ root s1 = root s.
Proof.
  intros Hn Hp Ha Hd Had. parts Hd. erewrite bind_eq by (by apply get_child_eq). rewrite child_node.
  erewrite bind_eq by (by apply set_child_eq). rewrite with_child_opp.
  erewrite bind_eq by (apply set_child_eq; simpl; rewrite lookup_insert_ne by set_solver; done).
  rewrite with_child_node. set (s1 := mk_rbs _ _).
  assert (F1 : only [p; n] (mem s) (mem s1)) by (intros b Hb; simpl; rewrite !lookup_insert_ne; [done|set_solver..]).
  destruct (set_if_ok n xa p Black s1) as (h2 & E2 & P2 & F2); [|done|done|].
  { eapply rep_agree; [|done]. intros b Hb. apply F1. set_solver. }
  change (bit Black) with RB_BLACK in E2. rewrite (bind_eq _ _ _ _ _ E2). unfold rb_set_parent_color.
  assert (Hp2 : h2 !! p = Some (node_of d pcp (ptr y) (ptr xa))).
  { rewrite F2 by set_solver. simpl. rewrite lookup_insert_ne by set_solver. by rewrite lookup_insert_eq. }
  assert (Hn2 : h2 !! n = Some (node_of d pcn p (ptr xb))).
  { rewrite F2 by set_solver. simpl. by rewrite lookup_insert_eq. }
  erewrite bind_eq by (by apply set_pc_eq). rewrite with_pc_node.
  erewrite bind_eq by (apply get_child_eq; simpl; rewrite lookup_insert_ne by set_solver; done). rewrite child_opp.
  eexists; split; [reflexivity|]. simpl. split_and!.
  - by rewrite lookup_insert_eq.
  - by rewrite lookup_insert_ne by set_solver.
  - eapply rep_agree; [|done]. intros b. rewrite elems_paint. intros Hb. apply lookup_insert_ne. set_solver.
  - intros b Hb. rewrite lookup_insert_ne by set_solver. rewrite F2 by set_solver. apply F1. set_solver.
  - done.
Qed.

(** Cases 2 and 3 of an insertion: [n] is on the other side of [p]. *)
Lemma case23_ok d cx xa n xb p y g u cg ctx s :
  zips s (mk d cx xa n xb) (F (opp d) Red p y :: F d cg g u :: ctx) ->
  exists s', insert_rotate d n p g s = Some (tt, s')
    /\ zips s' (mk d cg (mk d Red y p (paint Black xa)) n (mk d Red (paint Black xb) g u)) ctx.
Proof.
  intros [Rx Rc Hn Ha]. cbn [parent_of fa nodes] in *. cbn [rep_ctx parent_of fa] in Rc.
  destruct Rc as (Rp & Ry & Rg & Ru & Rc). unfold insert_rotate.
  assert (En : ptr (mk d cx xa n xb) = n) by (by destruct d). rewrite En in Rp. apply rep_mk in Rx as (Rn & Ra & Rb).
  assert (Hp : elems (mk d cx xa n xb) ++ p :: elems y ++ g :: elems u ++ nodes ctx
    ≡ₚ g :: n :: p :: elems y ++ elems xa ++ elems xb ++ elems u ++ nodes ctx) by (rewrite perm_mk; solve_Permutation).
  rewrite Hp in Hn, Ha. clear Hp. pose proof Hn as Hn'. pose proof Ha as Ha'. parts Hn.
  rewrite !Forall_cons, !Forall_app in Ha. destruct Ha as (Ag & An & Ap & Ay & Aa & Ab & Au & Ac).
  erewrite bind_eq by (by apply get_child_eq).
  assert (Ep : child (opp d) (node_of (opp d) (enc g Red) n (ptr y)) = n) by (by destruct d).
  rewrite Ep, Z.eqb_refl.
  destruct (case2_ok d n p xa xb y (enc p cx) (enc g Red) n s) as (s1 & E1 & P1 & N1 & A1 & F1 & Rt1); try done.
  { rewrite Rp. by destruct d. }
  { rewrite !NoDup_cons. split_and!; [set_solver..|done]. }
  erewrite bind_eq by exact E1. cbv beta iota.
  assert (Hag : forall X, (forall b, b ∈ X -> b ∉ p :: n :: elems xa) -> agree X (mem s) (mem s1)) by (intros X HX b Hb; by apply F1, HX).
  assert (Hp : g :: n :: elems (mk d Red y p (paint Black xa)) ++ elems xb ++ elems u ++ nodes ctx
    ≡ₚ g :: n :: p :: elems y ++ elems xa ++ elems xb ++ elems u ++ nodes ctx).
  { rewrite perm_mk, elems_paint. solve_Permutation. }
  apply (case3_ok d n g (mk d Red y p (paint Black xa)) xb u ctx cg (enc p cx) p (ptr xb) n).
  - rewrite F1 by set_solver. done.
  - replace (ptr (mk d Red y p (paint Black xa))) with p by (by destruct d). done.
  - apply rep_mk. rewrite P1. split; [by destruct xa|]. split; [|done]. apply (rep_agree (mem s)); [apply Hag; set_solver|done].
  - apply (rep_agree (mem s)); [apply Hag; set_solver|done].
  - apply (rep_agree (mem s)); [apply Hag; set_solver|done].
  - rewrite Rt1. apply (rep_ctx_agree (mem s)); [apply Hag; set_solver|done].
  - by rewrite Hp.
  - by rewrite Hp.
Qed.

(** The rotations of an insertion. *)
Lemma insert_rotate_ok d1 d2 x p y g u cg ctx s :
  x <> E -> zips s x (F d1 Red p y :: F d2 cg g u :: ctx) ->
  exists s', insert_rotate d2 (ptr x) p g s = Some (tt, s')
    /\ zips s' (if decide (d1 = d2) then mk d2 cg x p (mk d2 Red (paint Black y) g u)
                else mk d2 cg (mk d2 Red y p (paint Black (sub d2 x))) (ptr x)
                        (mk d2 Red (paint Black (sub (opp d2) x)) g u)) ctx.
Proof.
  intros Hx Hz. case_decide as Hd.
  - subst d1. destruct Hz as [Rx Rc Hn Ha]. cbn [parent_of fa nodes rep_ctx] in *. destruct Rc as (Rp & Ry & Rg & Ru & Rc).
    unfold insert_rotate. erewrite bind_eq by (by apply get_child_eq). rewrite child_opp.
    assert (Hne : ptr x <> ptr y).
    { pose proof Hn as Hn'. parts Hn'. destruct x as [|cx xl xa xr]; [done|]. destruct y as [|cy yl ya yr]; simpl in *; [|set_solver].
      rewrite !Forall_app in Ha. rewrite Forall_cons in Ha. destruct Ha as [(_ & [Hxa _] & _) _]. lia. }
    rewrite (proj2 (Z.eqb_neq _ _) Hne). erewrite bind_eq by done. cbv beta iota.
    assert (Hp : g :: p :: elems x ++ elems y ++ elems u ++ nodes ctx ≡ₚ elems x ++ p :: elems y ++ g :: elems u ++ nodes ctx)
      by solve_Permutation.
    apply (case3_ok d2 p g x y u ctx cg (enc g Red) p (ptr y) p); try done; by rewrite Hp.
  - assert (d1 = opp d2) as -> by (by destruct d1, d2). destruct (mk_sub d2 x Hx) as [cx Ex].
    rewrite Ex in Hz. by apply case23_ok in Hz.
Qed.

(** Case 1: colours only. *)
Lemma flip_ok d1 d2 x p y g u cg ctx s :
  is_red u = true -> zips s x (F d1 Red p y :: F d2 cg g u :: ctx) ->
  exists s', (forall k : Z -> M unit, (rb_set_parent_color (ptr u) g RB_BLACK;; rb_set_parent_color p g RB_BLACK;;
              up ← rb_parent g; rb_set_parent_color g up RB_RED;; k up) s = k (parent_of ctx) s')
    /\ zips s' (mk d2 Red (mk d1 Black x p y) g (paint Black u)) ctx.
Proof.
  intros Hu [Rx Rc Hn Ha]. cbn [parent_of fa nodes] in *. cbn [rep_ctx parent_of fa] in Rc.
  destruct Rc as (Rp & Ry & Rg & Ru & Rc). pose proof Hn as Hn'. pose proof Ha as Ha'. parts Hn.
  rewrite !Forall_app, !Forall_cons, !Forall_app, !Forall_cons, !Forall_app in Ha. destruct Ha as (Ax & Ap & Ay & Ag & Au & Ac).
  destruct (set_if_ok g u g Black s Ru Au) as (h1 & E1 & P1 & F1); [done|].
  unfold set_if in E1. assert (Hnz : nonzero (ptr u) = true).
  { destruct u as [|cu ul ua ur]; [done|]. simpl in *. rewrite Forall_app, Forall_cons in Au. apply addr_nonzero, Au. }
  rewrite Hnz in E1. change (bit Black) with RB_BLACK in E1.
  assert (Hp1 : h1 !! p = Some (node_of d1 (enc g Red) (ptr x) (ptr y))) by (rewrite F1 by set_solver; done).
  assert (Hg1 : h1 !! g = Some (node_of d2 (enc (parent_of ctx) cg) p (ptr u))) by (rewrite F1 by set_solver; done).
  exists (mk_rbs (<[g := node_of d2 (enc (parent_of ctx) Red) p (ptr u)]>
                    (<[p := node_of d1 (enc g Black) (ptr x) (ptr y)]> h1)) (root s)).
  split.
  { intros k. rewrite (bind_eq _ _ _ _ _ E1). unfold rb_set_parent_color.
    erewrite bind_eq by (by apply set_pc_eq). rewrite with_pc_node.
    erewrite bind_eq by (apply rb_parent_eq; simpl; rewrite lookup_insert_ne by set_solver; done).
    rewrite pc_node, enc_parent by (by apply parent_addr).
    erewrite bind_eq by (apply set_pc_eq; simpl; rewrite lookup_insert_ne by set_solver; done). by rewrite with_pc_node. }
  assert (Hag : forall b, b ∉ g :: p :: elems u -> forall n1 n2, <[g := n2]> (<[p := n1]> h1) !! b = mem s !! b).
  { intros b Hb n1 n2. rewrite !lookup_insert_ne by set_solver. apply F1. set_solver. }
  assert (Hperm : elems (mk d2 Red (mk d1 Black x p y) g (paint Black u)) ++ nodes ctx
    ≡ₚ elems x ++ p :: elems y ++ g :: elems u ++ nodes ctx).
  { rewrite !perm_mk, elems_paint. solve_Permutation. }
  split; cbn [mem root]; [|replace (ptr (mk d2 Red _ g _)) with g by (by destruct d2)|by rewrite Hperm|by rewrite Hperm].
  - apply rep_mk. rewrite lookup_insert_eq. split; [by destruct d1, u|]. split.
    + apply rep_mk. rewrite lookup_insert_ne, lookup_insert_eq by set_solver. split; [done|].
      split; (eapply rep_agree; [|done]); intros b Hb; apply Hag; set_solver.
    + eapply rep_agree; [|done]. intros b. rewrite elems_paint. intros Hb. rewrite !lookup_insert_ne by set_solver. done.
  - eapply rep_ctx_agree; [|done]. intros b Hb. apply Hag. set_solver.
Qed.

Lemma zips_side s x d1 c1 p y d2 cg g u ctx :
  zips s x (F d1 c1 p y :: F d2 cg g u :: ctx) ->
  (if negb (p =? child R (node_of d2 (enc (parent_of ctx) cg) p (ptr u))) then L else R) = d2.
Proof.
  intros [_ _ Hn Ha]. destruct d2; cbn [child node_of rb_right]; [|by rewrite Z.eqb_refl].
  cbn [nodes] in *. rewrite (proj2 (Z.eqb_neq _ _)); [done|]. parts Hn.
  destruct u as [|cu ul ua ur]; simpl in *; [|set_solver].
  rewrite !Forall_app, !Forall_cons in Ha. destruct Ha as (_ & [Hp _] & _). lia.
Qed.

(** The loop of an insertion, with the bound on its rounds. *)
Lemma rb_insert_ok fuel x ctx t s :
  x <> E -> is_red x = true -> zips s x ctx -> ins_fix x ctx = Some t -> (length ctx < fuel)%nat ->
  exists s', __rb_insert fuel (ptr x) (parent_of ctx) s = Some (tt, s') /\ repr s' t.
Proof.
  revert x ctx s. induction fuel as [|fuel IH]; intros x ctx s Hx Hr Hz Ht Hf; [lia|].
  destruct ctx as [|[d1 c1 p y] ctx1]; cbn [__rb_insert].
  - cbn [parent_of ins_fix] in *. change (negb (nonzero 0)) with true. cbv iota. injection Ht as <-. destruct Hz as [Rx Rc Hn Ha].
    destruct x as [|cx l a r]; [done|]. cbn [ptr] in *. simpl in Rx. destruct Rx as (Rn & Rl & Rr). unfold rb_set_parent_color.
    erewrite set_pc_eq by done. eexists; split; [reflexivity|]. simpl elems in *. simpl nodes in *.
    rewrite app_nil_r in Hn, Ha. pose proof Hn as Hn'. parts Hn.
    split; simpl; rewrite ?app_nil_r; try done. rewrite lookup_insert_eq. split; [done|].
    split; (eapply rep_agree; [|done]); intros b Hb; apply lookup_insert_ne; set_solver.
  - destruct c1; cbn [parent_of fa] in *.
    2:{ cbn [ins_fix] in Ht. injection Ht as <-. pose proof Hz as [_ Rc _ Ha]. cbn [rep_ctx nodes] in *.
        rewrite Forall_app, Forall_cons, Forall_app in Ha. destruct Ha as (_ & Ap & _ & Ac). rewrite addr_nonzero by done.
        cbn [negb]. destruct Rc as (Rp & _). erewrite bind_eq by (by apply rb_is_black_eq).
        rewrite pc_node, enc_black by (by apply parent_addr). rewrite bool_decide_true by done.
        exists s. split; [done|]. by apply (zips_plug s x (F d1 Black p y :: ctx1)). }
    destruct ctx1 as [|[d2 cg g u] ctx']; [by cbn [ins_fix] in Ht|].
    pose proof Hz as [_ Rc _ Ha]. cbn [rep_ctx nodes parent_of fa] in *.
    rewrite !Forall_app, !Forall_cons, !Forall_app, !Forall_cons, !Forall_app in Ha. destruct Ha as (_ & Ap & _ & Ag & Au & Ac).
    destruct Rc as (Rp & _ & Rg & Ru & _). rewrite addr_nonzero by done. cbn [negb].
    erewrite bind_eq by (by apply rb_is_black_eq). rewrite pc_node, enc_black by apply Ag.
    rewrite bool_decide_false by done. cbv iota. unfold rb_red_parent. erewrite bind_eq by (by apply get_pc_eq).
    rewrite pc_node, enc_red. erewrite bind_eq by (by apply get_child_eq). cbv zeta. rewrite (zips_side _ _ _ _ _ _ _ _ _ _ _ Hz).
    erewrite bind_eq by (by apply get_child_eq). rewrite child_opp.
    erewrite bind_eq by (apply (red_child_ok g); [done|done|apply Ag]). cbn [ins_fix] in Ht.
    destruct (is_red u) eqn:Hu.
    + destruct (flip_ok d1 d2 x p y g u cg ctx' s Hu Hz) as (s1 & E1 & Hz1).
      destruct (IH (mk d2 Red (mk d1 Black x p y) g (paint Black u)) ctx' s1) as (s2 & E2 & Hr2);
        [by destruct d2|by destruct d2|exact Hz1|exact Ht|simpl in Hf; lia|].
      exists s2. split; [|done]. replace (ptr (mk d2 Red (mk d1 Black x p y) g (paint Black u))) with g in E2 by (by destruct d2).
      by rewrite E1.
    + destruct (insert_rotate_ok d1 d2 x p y g u cg ctx' s Hx Hz) as (s1 & -> & Hz1).
      eexists; split; [reflexivity|]. apply zips_plug in Hz1. destruct (decide (d1 = d2)); by injection Ht as <-.
Qed.
