(* ===== verification/RbRebalance.v ===== *)
(** Rebalancing after a removal: each case of [____rb_erase_color] on trees in memory. *)

From stdpp Require Import gmap.
From S2P Require Import Prelude Rbtree RbShape RbInsert.

(** ** Removal: rebalancing *)

Lemma ptr_nonzero t : t <> E -> Forall addr (elems t) -> nonzero (ptr t) = true.
Proof.
  destruct t as [|c l a r]; [done|]. simpl. intros _ Ha. rewrite Forall_app, Forall_cons in Ha. apply addr_nonzero, Ha.
Qed.

Lemma set_parent_color_ok par0 t par c s :
  t <> E -> rep (mem s) par0 t -> Forall addr (elems t) -> NoDup (elems t) ->
  exists h', rb_set_parent_color (ptr t) par (bit c) s = Some (tt, mk_rbs h' (root s))
    /\ rep h' par (paint c t) /\ only (elems t) (mem s) h'.
Proof.
  intros Ht Hr Ha Hn. destruct (set_if_ok par0 t par c s Hr Ha Hn) as (h' & E1 & H1 & H2). exists h'.
  unfold set_if in E1. by rewrite ptr_nonzero in E1.
Qed.

(** [if (p) rb_set_parent(p, parent)] *)
Lemma reparent_ok par0 t par s :
  rep (mem s) par0 t -> Z.land par0 3 = 0 -> Forall addr (elems t) -> NoDup (elems t) ->
  exists h', (if nonzero (ptr t) then rb_set_parent (ptr t) par else mret tt) s = Some (tt, mk_rbs h' (root s))
    /\ rep h' par t /\ only (elems t) (mem s) h'.
Proof.
  intros Hr Hp Ha Hn. assert (t = E \/ t <> E) as [->|Ht] by (destruct t; [by left|by right]).
  { exists (mem s). by destruct s. }
  rewrite ptr_nonzero by done. destruct (set_parent_ok par0 t par s Ht Hr Hp Hn) as (h' & -> & H1 & H2).
  exists h'. split_and!; try done. intros b Hb. apply H2. destruct t; [done|]. simpl in *. set_solver.
Qed.

(** Case 4: [q], on side [opp d] of [p], takes its place. *)
Lemma case4_ok d p q x near far ctx c z pcq parn parf s :
  mem s !! p = Some (node_of d (enc (parent_of ctx) c) (ptr x) z) ->
  mem s !! q = Some (node_of d pcq (ptr near) (ptr far)) -> far <> E ->
  rep (mem s) p x -> rep (mem s) parn near -> Z.land parn 3 = 0 -> rep (mem s) parf far ->
  rep_ctx (mem s) ctx p (root s) ->
  NoDup (p :: q :: elems x ++ elems near ++ elems far ++ nodes ctx) ->
  Forall addr (p :: q :: elems x ++ elems near ++ elems far ++ nodes ctx) ->
  exists s', erase_rotate d p q (ptr far) s = Some (tt, s')
    /\ zips s' (mk d c (mk d Black x p near) q (paint Black far)) ctx.
Proof.
  intros Hp Hq Hfar R1 R2 Hpn R3 Hc Hn Ha. pose proof Hn as Hn'. pose proof Ha as Ha'. parts Hn.
  rewrite !Forall_cons, !Forall_app in Ha. destruct Ha as (Ap & Aq & A1 & A2 & A3 & A4). unfold erase_rotate.
  erewrite bind_eq by (by apply get_child_eq). rewrite child_node. erewrite bind_eq by (by apply set_child_eq).
  erewrite bind_eq by (apply set_child_eq; simpl; rewrite lookup_insert_ne by set_solver; done).
  rewrite with_child_node, with_child_opp. set (s1 := mk_rbs _ _).
  assert (F1 : only [p; q] (mem s) (mem s1)) by (intros b Hb; simpl; rewrite !lookup_insert_ne; [done|set_solver..]).
  destruct (set_parent_color_ok parf far q Black s1) as (h2 & E2 & P2 & F2); [done| |done|done|].
  { eapply rep_agree; [|done]. intros b Hb. apply F1. set_solver. }
  change (bit Black) with RB_BLACK in E2. rewrite (bind_eq _ _ _ _ _ E2). set (s2 := mk_rbs h2 _).
  destruct (reparent_ok parn near p s2) as (h3 & E3 & P3 & F3); [|done|done|done|].
  { eapply rep_agree; [|done]. intros b Hb. simpl. rewrite F2 by set_solver. apply F1. set_solver. }
  rewrite (bind_eq _ _ _ _ _ E3). set (s3 := mk_rbs h3 _).
  assert (F13 : only (p :: q :: elems far ++ elems near) (mem s) (mem s3)).
  { intros b Hb. simpl. rewrite F3 by set_solver. simpl. rewrite F2 by set_solver. apply F1. set_solver. }
  assert (G3 : mem s3 !! p = Some (node_of d (enc (parent_of ctx) c) (ptr x) (ptr near))).
  { simpl. rewrite F3 by set_solver. simpl. rewrite F2 by set_solver. simpl. rewrite lookup_insert_ne by set_solver. by rewrite lookup_insert_eq. }
  assert (Q3 : mem s3 !! q = Some (node_of d pcq p (ptr far))).
  { simpl. rewrite F3 by set_solver. simpl. rewrite F2 by set_solver. simpl. by rewrite lookup_insert_eq. }
  destruct (rotate_ok ctx p q c Black s3 _ _ G3 (pc_node _ _ _ _) Q3) as (s4 & E4 & G4 & Q4 & C4 & K4); try done; [|set_solver..|].
  { eapply rep_ctx_agree; [|done]. intros b Hb. apply F13. set_solver. }
  exists s4. split; [done|]. rewrite with_pc_node in G4, Q4.
  assert (Hperm : elems (mk d c (mk d Black x p near) q (paint Black far)) ++ nodes ctx
    ≡ₚ p :: q :: elems x ++ elems near ++ elems far ++ nodes ctx).
  { rewrite !perm_mk, elems_paint. solve_Permutation. }
  split; [|by replace (ptr (mk d c _ q _)) with q by (by destruct d)|by rewrite Hperm|by rewrite Hperm].
  apply rep_mk. rewrite Q4. split; [by destruct far, d|]. split.
  - apply rep_mk. rewrite G4. split; [done|]. split.
    + apply K4; [|done|set_solver]. apply (rep_agree (mem s)); [|done]. intros b Hb. apply F13. set_solver.
    + apply K4; [done|done|set_solver].
  - apply K4; [|by rewrite elems_paint|intros b; rewrite elems_paint; set_solver].
    apply (rep_agree h2); [|done]. intros b. rewrite elems_paint. intros Hb. apply F3. set_solver.
Qed.

(** Case 3: [na] and the sibling [sa] change places. *)
Lemma swap_ok d p sa na no far pcp pcs pcn x nd s :
  mem s !! p = Some (node_of d pcp x sa) -> mem s !! sa = Some (node_of d pcs na far) ->
  mem s !! na = Some (node_of d pcn nd (ptr no)) -> rep (mem s) na no ->
  NoDup (p :: na :: sa :: elems no) -> Forall addr (elems no) ->
  exists s', (forall A (k : M A),
      (tmp1 ← get_child (opp d) na; set_child d sa tmp1;; set_child (opp d) na sa;; set_child (opp d) p na;;
       set_if tmp1 sa RB_BLACK;; k) s = k s')
    /\ mem s' !! p = Some (node_of d pcp x na) /\ mem s' !! na = Some (node_of d pcn nd sa)
    /\ mem s' !! sa = Some (node_of d pcs (ptr no) far) /\ rep (mem s') sa (paint Black no)
    /\ only (p :: na :: sa :: elems no) (mem s) (mem s') /\ root s' = root s.
Proof.
  intros Rp Rsa Rna Rno Hn Ano. parts Hn.
  assert (N1 : p <> na) by set_solver. assert (N2 : p <> sa) by set_solver. assert (N3 : na <> sa) by set_solver.
  set (s1 := mk_rbs (<[p := node_of d pcp x na]> (<[na := node_of d pcn nd sa]>
    (<[sa := node_of d pcs (ptr no) far]> (mem s)))) (root s)).
  assert (F1 : only [p; na; sa] (mem s) (mem s1)) by (intros b Hb; simpl; rewrite !lookup_insert_ne; [done|set_solver..]).
  destruct (set_if_ok na no sa Black s1) as (h2 & E2 & P2 & F2); [|done|done|].
  { eapply rep_agree; [|done]. intros b Hb. apply F1. set_solver. }
  exists (mk_rbs h2 (root s1)). split_and!; [| | | |done| |done]; cbn [mem].
  - intros A k. erewrite bind_eq by (by apply get_child_eq). rewrite child_opp. erewrite bind_eq by (by apply set_child_eq).
    rewrite with_child_node. erewrite bind_eq by (apply set_child_eq; simpl; rewrite lookup_insert_ne by done; done).
    rewrite with_child_opp. erewrite bind_eq by (apply set_child_eq; simpl; rewrite !lookup_insert_ne by done; done).
    rewrite with_child_opp. change (mk_rbs _ _) with s1 at 1. change (bit Black) with RB_BLACK in E2.
    by rewrite (bind_eq _ _ _ _ _ E2).
  - rewrite F2 by set_solver. simpl. by rewrite lookup_insert_eq.
  - rewrite F2 by set_solver. simpl. rewrite lookup_insert_ne by done. by rewrite lookup_insert_eq.
  - rewrite F2 by set_solver. simpl. rewrite !lookup_insert_ne by done. by rewrite lookup_insert_eq.
  - intros b Hb. rewrite F2 by set_solver. apply F1. set_solver.
Qed.

(** Cases 3 and 4. *)
Lemma case34_ok d p sa cs x nd nc na no far ctx c s :
  zips s x (F d c p (mk d cs (mk d nc nd na no) sa far) :: ctx) ->
  exists s', (forall A (k : M A),
      (tmp1 ← get_child (opp d) na; set_child d sa tmp1;; set_child (opp d) na sa;; set_child (opp d) p na;;
       set_if tmp1 sa RB_BLACK;; erase_rotate d p na sa;; k) s = k s')
    /\ zips s' (mk d c (mk d Black x p nd) na (mk d Black (paint Black no) sa far)) ctx.
Proof.
  intros [Rx Rc Hn Ha]. cbn [parent_of fa nodes rep_ctx] in *. destruct Rc as (Rp & Rs & Rc).
  apply rep_mk in Rs as (Rsa & Rnear & Rfar). apply rep_mk in Rnear as (Rna & Rnd & Rno).
  replace (ptr (mk d cs (mk d nc nd na no) sa far)) with sa in Rp by (by destruct d).
  replace (ptr (mk d nc nd na no)) with na in Rsa by (by destruct d).
  assert (Hperm : elems x ++ p :: elems (mk d cs (mk d nc nd na no) sa far) ++ nodes ctx
    ≡ₚ p :: na :: sa :: elems x ++ elems nd ++ elems no ++ elems far ++ nodes ctx).
  { rewrite !perm_mk. solve_Permutation. }
  rewrite Hperm in Hn, Ha. clear Hperm. pose proof Hn as Hn'. pose proof Ha as Ha'. parts Hn.
  rewrite !Forall_cons, !Forall_app in Ha. destruct Ha as (Ap & An & As & Ax & And & Ano & Af & Ac).
  destruct (swap_ok d p sa na no _ _ _ _ _ _ s Rp Rsa Rna Rno) as (s2 & E2 & Lp & Ln & Ls & P2 & F2 & Q2);
    [rewrite !NoDup_cons; split_and!; [set_solver..|done]|done|].
  assert (Hag : forall t par, rep (mem s) par t -> (forall b, b ∈ elems t -> b ∉ p :: na :: sa :: elems no) -> rep (mem s2) par t).
  { intros t par Ht Hd. eapply rep_agree; [|done]. intros b Hb. by apply F2, Hd. }
  assert (Hperm : p :: na :: elems x ++ elems nd ++ elems (mk d cs (paint Black no) sa far) ++ nodes ctx
    ≡ₚ p :: na :: sa :: elems x ++ elems nd ++ elems no ++ elems far ++ nodes ctx).
  { rewrite perm_mk, elems_paint. solve_Permutation. }
  destruct (case4_ok d p na x nd (mk d cs (paint Black no) sa far) ctx c na (enc sa nc) na p s2) as (s3 & E3 & Z3).
  - done.
  - rewrite Ln. by destruct d.
  - by destruct d.
  - apply Hag; [done|set_solver].
  - apply Hag; [done|set_solver].
  - apply An.
  - apply rep_mk. rewrite Ls. split; [by destruct no|]. split; [done|]. apply Hag; [done|set_solver].
  - rewrite Q2. eapply rep_ctx_agree; [|done]. intros b Hb. apply F2. set_solver.
  - by rewrite Hperm.
  - by rewrite Hperm.
  - replace (ptr (mk d cs (paint Black no) sa far)) with sa in E3 by (by destruct d). exists s3. split.
    + intros A k. by rewrite E2, (bind_eq _ _ _ _ _ E3).
    + by replace (paint Black (mk d cs (paint Black no) sa far)) with (mk d Black (paint Black no) sa far) in Z3 by (by destruct d).
Qed.

(** Changing the colour and parent of the root of a subtree in place. *)
Lemma repaint_ok c' x d c p y ctx s :
  y <> E -> zips s x (F d c p y :: ctx) ->
  exists s', rb_set_parent_color (ptr y) p (bit c') s = Some (tt, s') /\ zips s' x (F d c p (paint c' y) :: ctx).
Proof.
  intros Hy [Rx Rc Hn Ha]. cbn [parent_of fa nodes rep_ctx] in *. destruct Rc as (Rp & Ry & Rc).
  pose proof Hn as Hn'. pose proof Ha as Ha'. parts Hn.
  rewrite !Forall_app, !Forall_cons, !Forall_app in Ha. destruct Ha as (Ax & Ap & Ay & Ac).
  destruct (set_parent_color_ok p y p c' s Hy Ry Ay) as (h1 & -> & P1 & F1); [done|].
  eexists; split; [reflexivity|]. split; cbn [parent_of fa nodes rep_ctx mem root]; rewrite ?elems_paint; try done.
  - eapply rep_agree; [|done]. intros b Hb. apply F1. set_solver.
  - split_and!; [rewrite F1 by set_solver; by destruct y|done|].
    eapply rep_ctx_agree; [|done]. intros b Hb. apply F1. set_solver.
Qed.

(** [rb_set_black] on a node. *)
Lemma blacken_ok d c x p y ctx s :
  zips s (mk d c x p y) ctx -> exists s', rb_set_black p s = Some (tt, s') /\ zips s' (mk d Black x p y) ctx.
Proof.
  intros [Rx Rc Hn Ha]. apply rep_mk in Rx as (Rp & Rx & Ry). rewrite perm_mk in Hn, Ha.
  replace (ptr (mk d c x p y)) with p in Rc by (by destruct d). pose proof Hn as Hn'. parts Hn.
  unfold rb_set_black. erewrite bind_eq by (by apply get_pc_eq). erewrite set_pc_eq by done.
  rewrite pc_node, with_pc_node, enc_blacken. eexists; split; [reflexivity|].
  split; cbn [mem root]; rewrite ?perm_mk; try done.
  - apply rep_mk. rewrite lookup_insert_eq. split; [done|].
    split; (eapply rep_agree; [|done]); intros b Hb; apply lookup_insert_ne; set_solver.
  - replace (ptr (mk d Black x p y)) with p by (by destruct d). eapply rep_ctx_agree; [|done].
    intros b Hb. apply lookup_insert_ne. set_solver.
Qed.

(** Case 1: the red sibling [sa] takes the place of [p]. *)
Lemma case1_ok d x c p near sa far ctx s :
  near <> E -> zips s x (F d c p (mk d Red near sa far) :: ctx) ->
  exists s', (forall A (k : Z -> M A),
      (tmp1 ← get_child d sa; set_child (opp d) p tmp1;; set_child d sa p;; rb_set_parent_color tmp1 p RB_BLACK;;
       __rb_rotate_set_parents p sa RB_RED;; k tmp1) s = k (ptr near) s')
    /\ zips s' x (F d Red p (paint Black near) :: F d c sa far :: ctx).
Proof.
  intros Hne [Rx Rc Hn Ha]. cbn [parent_of fa nodes rep_ctx] in *. destruct Rc as (Rp & Rs & Rc).
  apply rep_mk in Rs as (Rsa & Rnear & Rfar). replace (ptr (mk d Red near sa far)) with sa in Rp by (by destruct d).
  assert (Hperm : elems x ++ p :: elems (mk d Red near sa far) ++ nodes ctx
    ≡ₚ p :: sa :: elems x ++ elems near ++ elems far ++ nodes ctx).
  { rewrite !perm_mk. solve_Permutation. }
  rewrite Hperm in Hn, Ha. clear Hperm. pose proof Hn as Hn'. pose proof Ha as Ha'. parts Hn.
  rewrite !Forall_cons, !Forall_app in Ha. destruct Ha as (Ap & As & Ax & An & Af & Ac).
  assert (N1 : p <> sa) by set_solver.
  set (s1 := mk_rbs (<[sa := node_of d (enc p Red) p (ptr far)]>
    (<[p := node_of d (enc (parent_of ctx) c) (ptr x) (ptr near)]> (mem s))) (root s)).
  assert (F1 : only [p; sa] (mem s) (mem s1)) by (intros b Hb; simpl; rewrite !lookup_insert_ne; [done|set_solver..]).
  destruct (set_parent_color_ok sa near p Black s1) as (h2 & E2 & P2 & F2); [done| |done|done|].
  { eapply rep_agree; [|done]. intros b Hb. apply F1. set_solver. }
  set (s2 := mk_rbs h2 (root s1)) in *.
  assert (F12 : only (p :: sa :: elems near) (mem s) (mem s2)).
  { intros b Hb. simpl. rewrite F2 by set_solver. apply F1. set_solver. }
  assert (Lp : mem s2 !! p = Some (node_of d (enc (parent_of ctx) c) (ptr x) (ptr near))).
  { simpl. rewrite F2 by set_solver. simpl. rewrite lookup_insert_ne by done. by rewrite lookup_insert_eq. }
  assert (Ls : mem s2 !! sa = Some (node_of d (enc p Red) p (ptr far))).
  { simpl. rewrite F2 by set_solver. simpl. by rewrite lookup_insert_eq. }
  destruct (rotate_ok ctx p sa c Red s2 _ _ Lp (pc_node _ _ _ _) Ls) as (s3 & E3 & G3 & Q3 & C3 & K3); try done; [|set_solver..|].
  { eapply rep_ctx_agree; [|done]. intros b Hb. apply F12. set_solver. }
  exists s3. split.
  { intros A k. erewrite bind_eq by (by apply get_child_eq). rewrite child_node.
    erewrite bind_eq by (by apply set_child_eq). rewrite with_child_opp.
    erewrite bind_eq by (apply set_child_eq; simpl; rewrite lookup_insert_ne by done; done). rewrite with_child_node.
    change (bit Black) with RB_BLACK in E2. change (mk_rbs _ _) with s1 at 1. rewrite (bind_eq _ _ _ _ _ E2).
    change (bit Red) with RB_RED in E3. by rewrite (bind_eq _ _ _ _ _ E3). }
  rewrite with_pc_node in G3, Q3.
  assert (Hperm : elems x ++ nodes (F d Red p (paint Black near) :: F d c sa far :: ctx)
    ≡ₚ p :: sa :: elems x ++ elems near ++ elems far ++ nodes ctx).
  { cbn [nodes]. rewrite elems_paint. solve_Permutation. }
  split; [| |by rewrite Hperm|by rewrite Hperm]; cbn [parent_of fa rep_ctx].
  - apply K3; [|done|set_solver]. apply (rep_agree (mem s)); [|done]. intros b Hb. apply F12. set_solver.
  - split_and!.
    + rewrite G3. by destruct near.
    + apply K3; [done|by rewrite elems_paint|]. intros b. rewrite elems_paint. set_solver.
    + done.
    + apply K3; [|done|set_solver]. apply (rep_agree (mem s)); [|done]. intros b Hb. apply F12. set_solver.
    + done.
Qed.
