(* ===== verification/RbErase.v ===== *)
(** That the removal of [Rbtree] does on the store what its counterpart of [RbShape] does on
    the tree. *)

From stdpp Require Import gmap.
From S2P Require Import Prelude Rbtree RbShape RbInsert RbRebalance.

(** Cases 2 to 4. *)
Lemma erase_step_ok d x c p st ctx r s :
  zips s x (F d c p st :: ctx) -> era_step d x c p st ctx = Some r ->
  exists s' next, erase_step d p (ptr st) s = Some (next, s')
    /\ match r with
       | inl t => next = None /\ repr s' t
       | inr q => zips s' q ctx /\ ptr q = p
                  /\ next = if nonzero (parent_of ctx) then Some (p, parent_of ctx) else None
       end.
Proof.
  intros Hz Hr. assert (Hst : st <> E) by (by destruct st). destruct (mk_sub d st Hst) as [cs Est].
  unfold era_step in Hr. destruct st as [|c0 sl sa sr]; [done|]. cbn [ptr] in Est.
  set (near := sub d (T c0 sl sa sr)) in *. set (far := sub (opp d) (T c0 sl sa sr)) in *. clearbody near far.
  rewrite Est in Hz. cbn [ptr]. clear Est Hst.
  pose proof Hz as [_ Rc _ Ha]. cbn [rep_ctx nodes parent_of fa] in *. destruct Rc as (Rp & Rs & _).
  replace (ptr (mk d cs near sa far)) with sa in Rp by (by destruct d). apply rep_mk in Rs as (Rsa & Rn & Rf).
  rewrite perm_mk, !Forall_app, !Forall_cons, !Forall_app in Ha.
  destruct Ha as (Ax & Ap & [[An Asa] Ac]). rewrite Forall_cons in Asa. destruct Asa as [Asa Af].
  unfold erase_step. erewrite bind_eq by (by apply get_child_eq). rewrite child_opp.
  erewrite bind_eq by (apply (red_child_ok sa); [done|done|apply Asa]). destruct (is_red far) eqn:Hfar.
  - injection Hr as <-. pose proof Hz as [Rx Rc Hn Hall]. cbn [parent_of fa nodes rep_ctx] in *. destruct Rc as (_ & _ & Rc).
    assert (Hperm : p :: sa :: elems x ++ elems near ++ elems far ++ nodes ctx
      ≡ₚ elems x ++ p :: elems (mk d cs near sa far) ++ nodes ctx) by (rewrite perm_mk; solve_Permutation).
    destruct (case4_ok d p sa x near far ctx c sa (enc p cs) sa sa s) as (s1 & E1 & Z1); try done;
      [by intros ->|apply Asa|by rewrite Hperm|by rewrite Hperm|].
    exists s1, None. rewrite (bind_eq _ _ _ _ _ E1). split; [done|]. split; [done|]. by apply (proj1 (zips_plug _ _ _)).
  - erewrite bind_eq by (by apply get_child_eq). rewrite child_node.
    erewrite bind_eq by (apply (red_child_ok sa); [done|done|apply Asa]). destruct (is_red near) eqn:Hnear.
    + injection Hr as <-. assert (Hne : near <> E) by (by intros ->). destruct (mk_sub d near Hne) as [nc En].
      rewrite En in Hz. destruct (case34_ok d p sa cs x _ nc (ptr near) _ far ctx c s Hz) as (s1 & E1 & Z1).
      exists s1, None. split; [by rewrite E1|]. split; [done|]. by apply (proj1 (zips_plug _ _ _)).
    + destruct (repaint_ok Red x d c p (mk d cs near sa far) ctx s) as (s1 & E1 & Z1); [by destruct d|done|].
      replace (ptr (mk d cs near sa far)) with sa in E1 by (by destruct d). change (bit Red) with RB_RED in E1.
      rewrite (bind_eq _ _ _ _ _ E1).
      replace (paint Red (mk d cs near sa far)) with (mk d Red near sa far) in Z1 by (by destruct d).
      pose proof Z1 as [_ (Lp & _) _ _]. cbn [parent_of] in Lp.
      erewrite bind_eq by (by apply rb_is_red_eq). rewrite pc_node, enc_black by (by apply parent_addr).
      destruct c.
      * rewrite bool_decide_false by done. injection Hr as <-. apply zips_up in Z1.
        destruct (blacken_ok _ _ _ _ _ _ _ Z1) as (s2 & E2 & Z2). cbn [negb]. rewrite (bind_eq _ _ _ _ _ E2).
        exists s2, None. split; [done|]. split; [done|]. by apply (proj1 (zips_plug _ _ _)).
      * rewrite bool_decide_true by done. injection Hr as <-. cbn [negb]. erewrite bind_eq by (by apply rb_parent_eq).
        rewrite pc_node, enc_parent by (by apply parent_addr). eexists _, _. split; [reflexivity|].
        apply zips_up in Z1. split_and!; [done|by destruct d|done].
Qed.

Lemma zips_side_erase s x d c p st ctx :
  st <> E -> zips s x (F d c p st :: ctx) ->
  (if negb (ptr x =? child R (node_of d (enc (parent_of ctx) c) (ptr x) (ptr st))) then L else R) = d.
Proof.
  intros Hst [_ _ Hn Ha]. destruct d; cbn [child node_of rb_right]; [|by rewrite Z.eqb_refl].
  cbn [nodes] in *. rewrite (proj2 (Z.eqb_neq _ _)); [done|]. parts Hn.
  destruct st as [|cs sl sa sr]; [done|]. destruct x as [|cx xl xa xr]; simpl in *; [|set_solver].
  rewrite Forall_cons, !Forall_app, Forall_cons in Ha. destruct Ha as (_ & (_ & [Hs _] & _) & _). lia.
Qed.

Lemma ptr_paint c t : ptr (paint c t) = ptr t.
Proof. by destruct t. Qed.

Lemma parent_nonzero f ctx : Forall addr (nodes (f :: ctx)) -> nonzero (parent_of (f :: ctx)) = true.
Proof. destruct f as [d c a y]. cbn [nodes parent_of fa]. rewrite Forall_cons. intros [Ha _]. by apply addr_nonzero. Qed.

(** The rebalancing loop, with the bound on its rounds. *)
Lemma rb_erase_color_ok fuel x ctx t s :
  ctx <> [] -> zips s x ctx -> era_fix x ctx = Some t -> (length ctx <= fuel)%nat ->
  exists s', ____rb_erase_color fuel (ptr x) (parent_of ctx) s = Some (tt, s') /\ repr s' t.
Proof.
  revert x ctx s. induction fuel as [|fuel IH]; intros x ctx s Hne Hz Ht Hf; (destruct ctx as [|[d c p st] ctx]; [done|]);
    [simpl in Hf; lia|]. cbn [____rb_erase_color parent_of fa]. cbn [era_fix] in Ht.
  assert (Hst : st <> E).
  { intros ->. by cbn in Ht. }
  pose proof Hz as [_ (Lp & Rst & _) _ Ha]. cbn [parent_of nodes] in *.
  rewrite Forall_app, Forall_cons, Forall_app in Ha. destruct Ha as (_ & Ap & Ast & Ac).
  erewrite bind_eq by (by apply get_child_eq). cbv zeta. rewrite (zips_side_erase _ _ _ _ _ _ _ Hst Hz).
  erewrite bind_eq by (by apply get_child_eq). rewrite child_opp.
  assert (Hred : rb_is_red (ptr st) s = Some (is_red st, s)).
  { pose proof (red_child_ok p st s Rst Ast) as Hr. unfold red_child in Hr. rewrite ptr_nonzero in Hr by done. apply Hr, Ap. }
  rewrite (bind_eq _ _ _ _ _ Hred). destruct (is_red st) eqn:Hr.
  - destruct (era_step d x Red p (paint Black (sub d st)) _) as [r|] eqn:Er; [|done]. cbn in Ht.
    assert (Hnear : sub d st <> E) by (intros E0; by rewrite E0 in Er).
    destruct (mk_sub d st Hst) as [cs Est]. assert (cs = Red) as -> by (destruct st as [|[] ? ? ?]; try done; by destruct d; injection Est).
    rewrite Est in Hz. destruct (case1_ok _ _ _ _ _ _ _ _ _ Hnear Hz) as (s1 & E1 & Z1).
    destruct (erase_step_ok _ _ _ _ _ _ _ _ Z1 Er) as (s2 & next & E2 & Hres).
    destruct r as [t'|q]; [|by apply era_step_red in Er]. destruct Hres as [-> Hrep]. injection Ht as <-.
    exists s2. split; [|done]. rewrite (bind_eq _ _ _ _ _ (E1 _ mret)).
    rewrite ptr_paint in E2. by rewrite (bind_eq _ _ _ _ _ E2).
  - destruct (era_step d x c p st ctx) as [r|] eqn:Er; [|done]. cbn in Ht.
    destruct (erase_step_ok _ _ _ _ _ _ _ _ Hz Er) as (s2 & next & E2 & Hres).
    erewrite bind_eq by reflexivity. rewrite (bind_eq _ _ _ _ _ E2). destruct r as [t'|q].
    + destruct Hres as [-> Hrep]. injection Ht as <-. by exists s2.
    + destruct Hres as (Zq & <- & ->). destruct ctx as [|f ctx].
      * injection Ht as <-. by exists s2.
      * rewrite parent_nonzero by (destruct Zq as [_ _ _ Hq]; by rewrite Forall_app in Hq). apply IH; [done|done|done|simpl in *; lia].
Qed.

(** ** Parts of a path *)

Definition top_of (ctx : list frame) (par : Z) : Z := match ctx with [] => par | f :: _ => fa f end.

(** The frames [ctx] below the node [par]; [p] is below them and [rt] is the topmost. *)
Fixpoint rep_seg (h : gmap Z rb_node) (ctx : list frame) (par p rt : Z) : Prop :=
  match ctx with
  | [] => rt = p
  | F d c a y :: ctx => h !! a = Some (node_of d (enc (top_of ctx par) c) p (ptr y)) /\ rep h a y /\ rep_seg h ctx par a rt
  end.

Lemma rep_seg_agree h h' ctx par p rt : agree (nodes ctx) h h' -> rep_seg h ctx par p rt -> rep_seg h' ctx par p rt.
Proof.
  revert p. induction ctx as [|[d c a y] ctx IH]; intros p Ha; [done|]. simpl in *. intros (H1 & H2 & H3). split_and!.
  - rewrite Ha; [done|]. set_solver.
  - apply (rep_agree h); [|done]. intros b Hb. apply Ha. set_solver.
  - apply IH; [|done]. intros b Hb. apply Ha. set_solver.
Qed.

Lemma rep_seg_app h ctx2 d c b y ctx p q rt :
  rep_seg h ctx2 b p q -> rep_ctx h (F d c b y :: ctx) q rt -> rep_ctx h (ctx2 ++ F d c b y :: ctx) p rt.
Proof.
  revert p. induction ctx2 as [|[d' c' a' y'] ctx2 IH]; intros p; cbn [rep_seg app]; [by intros ->|].
  intros (H1 & H2 & H3) Hc. cbn [rep_ctx]. split_and!; [|done|by apply IH]. by destruct ctx2.
Qed.

Lemma rep_plug h par ctx x :
  rep h par (plug ctx x) <-> rep_seg h ctx par (ptr x) (ptr (plug ctx x)) /\ rep h (top_of ctx par) x.
Proof.
  revert x. induction ctx as [|[d c a y] ctx IH]; intros x; cbn [plug rep_seg top_of]; [tauto|].
  rewrite IH, rep_mk. replace (ptr (mk d c x a y)) with a by (by destruct d). cbn [fa]. tauto.
Qed.

Lemma nodes_app ctx1 ctx2 : nodes (ctx1 ++ ctx2) = nodes ctx1 ++ nodes ctx2.
Proof. induction ctx1 as [|[d c a y] ctx1 IH]; [done|]. cbn [app nodes]. by rewrite IH, app_comm_cons, app_assoc. Qed.

Lemma seg_top_in h ctx par p rt : ctx <> [] -> rep_seg h ctx par p rt -> rt ∈ nodes ctx.
Proof.
  revert p. induction ctx as [|[d c a y] ctx IH]; intros p; [done|]. intros _ (_ & _ & Hs). cbn [nodes].
  destruct ctx as [|f ctx]; [simpl in Hs; subst; left|]. right. apply elem_of_app. right. by apply (IH a).
Qed.

Lemma top_in ctx par : ctx <> [] -> top_of ctx par ∈ nodes ctx.
Proof. destruct ctx as [|[d c a y] ctx]; [done|]. left. Qed.

(** [rb_set_parent] on the topmost node. *)
Lemma set_parent_seg ctx par p rt par' s :
  ctx <> [] -> rep_seg (mem s) ctx par p rt -> Z.land par 3 = 0 -> NoDup (nodes ctx) -> Forall addr (nodes ctx) ->
  exists h', rb_set_parent rt par' s = Some (tt, mk_rbs h' (root s))
    /\ rep_seg h' ctx par' p rt /\ only [rt] (mem s) h'.
Proof.
  intros Hne Hs Hp Hn Ha. revert p Hs. induction ctx as [|[d c a y] ctx IH]; intros p; [done|]. intros (H1 & H2 & H3).
  cbn [nodes] in *. pose proof Hn as Hn'. parts Hn. destruct ctx as [|f ctx].
  - simpl in H3. subst rt. unfold rb_set_parent. erewrite bind_eq by (by apply get_pc_eq). erewrite set_pc_eq by done.
    eexists; split; [reflexivity|]. split; [|apply only_insert]. cbn [top_of] in *. rewrite pc_node, enc_color, enc_swap by done.
    cbn [rep_seg top_of]. rewrite lookup_insert_eq. split; [by destruct d|]. split; [|done].
    apply (rep_agree (mem s)); [|done]. intros b Hb. apply lookup_insert_ne. set_solver.
  - rewrite Forall_cons, Forall_app in Ha. destruct Ha as (Aa & Ay & Ac).
    pose proof (seg_top_in _ _ _ _ _ (fun H : f :: ctx = [] => ltac:(done)) H3) as Hrt.
    destruct (IH ltac:(done) ltac:(done) Ac a H3) as (h' & E1 & S1 & O1). exists h'. split; [done|]. split; [|done].
    set (ctx' := f :: ctx) in *. assert (top_of ctx' par' = top_of ctx' par) as Et by done.
    change (h' !! a = Some (node_of d (enc (top_of ctx' par') c) p (ptr y)) /\ rep h' a y /\ rep_seg h' ctx' par' a rt).
    rewrite Et. split_and!; [| |done].
    + rewrite O1; [done|]. set_solver.
    + apply (rep_agree (mem s)); [|done]. intros b Hb. apply O1. set_solver.
Qed.

(** The way down to the first node. *)
Lemma find_successor_ok fuel c l a r ctx par q s cs sa sr ctx' :
  unzip_first c l a r ctx = (cs, sa, sr, ctx') -> rep (mem s) par (T c l a r) -> Forall addr (elems l) ->
  (height l < fuel)%nat -> find_successor fuel (top_of ctx q) a s = Some ((top_of ctx' q, sa), s).
Proof.
  revert c a r ctx par fuel. induction l as [|c' l' IH a' r' _]; intros c a r ctx par fuel Hu (H1 & H2 & _) Ha Hf;
    (destruct fuel as [|fuel]; [lia|]); cbn [find_successor unzip_first] in *; erewrite bind_eq by (by apply get_child_eq);
    cbn [child rb_left].
  - by injection Hu as <- <- <- <-.
  - rewrite ptr_nonzero by done. cbn [height elems] in *. rewrite Forall_app in Ha. destruct Ha as [Ha _].
    by apply (IH c' a' r' (F L c a r :: ctx) a); [..|lia].
Qed.

(** ** Unlinking *)

(** [x], painted black, has taken the place of a node of colour [c]; [reb] is where to
    rebalance. *)
Definition spliced (s : rbs) (reb : Z) (c : color) (x : tree) (ctx : list frame) : Prop :=
  zips s (paint Black x) ctx /\ reb = match x, c with E, Black => parent_of ctx | _, _ => 0 end.

Lemma parent_notin X ctx : Forall addr X -> (forall b, b ∈ X -> b ∉ nodes ctx) -> parent_of ctx ∉ X.
Proof.
  intros Ha Hd Hin. destruct (parent_in ctx) as [E0|H0]; [|by apply (Hd (parent_of ctx))].
  rewrite E0 in Hin. rewrite Forall_forall in Ha. destruct (Ha _ Hin). lia.
Qed.

(** The last write: the subtree that moved up gets its new parent. *)
Lemma adopt_ok s par0 x ctx :
  x <> E -> rep (mem s) par0 x -> rep_ctx (mem s) ctx (ptr x) (root s) ->
  NoDup (elems x ++ nodes ctx) -> Forall addr (elems x ++ nodes ctx) ->
  exists s', rb_set_parent_color (ptr x) (parent_of ctx) RB_BLACK s = Some (tt, s') /\ zips s' (paint Black x) ctx.
Proof.
  intros Hx Rx Rc Hn Ha. pose proof Hn as Hn'. pose proof Ha as Ha'. parts Hn. rewrite Forall_app in Ha. destruct Ha as [Ax Ac].
  destruct (set_parent_color_ok par0 x (parent_of ctx) Black s) as (h & E1 & R1 & O1); [done..|].
  eexists; split; [done|]. split; [done| |by rewrite elems_paint|by rewrite elems_paint]. rewrite ptr_paint.
  apply (rep_ctx_agree (mem s)); [|done]. intros b Hb. apply O1. set_solver.
Qed.

Lemma unlink_left s c a x ctx :
  zips s (T c E a x) ctx -> (x <> E -> c = Black) ->
  exists s' reb, (pc ← get_pc a; __rb_change_child a (ptr x) (__rb_parent pc);;
                  if nonzero (ptr x) then set_pc (ptr x) pc;; mret 0 else mret (if __rb_is_black pc then __rb_parent pc else 0)) s
                 = Some (reb, s') /\ spliced s' reb c x ctx.
Proof.
  intros [(Ra & _ & Rx) Rc Hn Ha] Hx. cbn [elems app] in *. pose proof Hn as Hn'. parts Hn.
  rewrite Forall_cons, Forall_app in Ha. destruct Ha as (Aa & Ax & Ac).
  erewrite bind_eq by (by apply get_pc_eq). cbn [__rb_parent_color]. rewrite enc_parent by (by apply parent_addr).
  destruct (change_child_ok ctx a (ptr x) s) as (s1 & E1 & C1 & O1); [done|done|set_solver|done|done|].
  rewrite (bind_eq _ _ _ _ _ E1).
  assert (Rx1 : rep (mem s1) a x).
  { apply (rep_agree (mem s)); [|done]. intros b Hb. apply O1. apply not_elem_of_cons; split; [|set_solver].
    intros ->. revert Hb. by apply parent_notin. }
  assert (x = E \/ x <> E) as [->|Hne] by (destruct x; [by left|by right]).
  - cbn. rewrite enc_black by (by apply parent_addr). eexists _, _. split; [reflexivity|]. split; [|by destruct c].
    by split.
  - rewrite ptr_nonzero by done. rewrite (Hx Hne).
    destruct (adopt_ok s1 a x ctx) as (s2 & E2 & Z2); [done|done|done|by apply NoDup_cons in Hn' as [_ ?]|by rewrite Forall_app|].
    unfold rb_set_parent_color in E2. rewrite (bind_eq _ _ _ _ _ E2). eexists _, _. split; [reflexivity|]. split; [done|]. by destruct x.
Qed.

Lemma unlink_right s c a x ctx :
  x <> E -> zips s (T c x a E) ctx -> c = Black ->
  exists s', (pc ← get_pc a; set_pc (ptr x) pc;; __rb_change_child a (ptr x) (__rb_parent pc);; mret 0) s
             = Some (0, s') /\ spliced s' 0 c x ctx.
Proof.
  intros Hx [(Ra & Rx & _) Rc Hn Ha] ->. cbn [elems] in *. rewrite <- app_assoc in Hn, Ha. cbn [app] in *.
  pose proof Hn as Hn'. parts Hn. rewrite Forall_app, Forall_cons in Ha. destruct Ha as (Ax & Aa & Ac).
  erewrite bind_eq by (by apply get_pc_eq). cbn [__rb_parent_color]. rewrite enc_parent by (by apply parent_addr).
  destruct (set_parent_color_ok a x (parent_of ctx) Black s) as (h & E1 & R1 & O1); [done..|].
  unfold rb_set_parent_color in E1. rewrite (bind_eq _ _ _ _ _ E1).
  destruct (change_child_ok ctx a (ptr x) (mk_rbs h (root s))) as (s1 & E2 & C2 & O2); [|done|set_solver|done|done|].
  { apply (rep_ctx_agree (mem s)); [|done]. intros b Hb. apply O1. set_solver. }
  rewrite (bind_eq _ _ _ _ _ E2). eexists. split; [reflexivity|]. split; [|by destruct x].
  split; rewrite ?ptr_paint, ?elems_paint; [|done| |].
  - apply (rep_agree h); [|done]. intros b Hb. apply O2. rewrite elems_paint in Hb. apply not_elem_of_cons; split; [|set_solver].
    intros ->. revert Hb. apply parent_notin; set_solver.
  - apply NoDup_app. split_and!; [done|set_solver|done].
  - by rewrite Forall_app.
Qed.

(** The successor [sa] takes the place of [a]: [q] is its right child by now. *)
Section Successor.
Context (s : rbs) (a sa rr q psa : Z) (c cs : color) (l sr : tree) (ctx2 ctx : list frame).
Hypotheses (Na : mem s !! a = Some (mk_node (enc (parent_of ctx) c) rr (ptr l)))
  (Nsa : mem s !! sa = Some (mk_node (enc psa cs) q 0)) (Hpsa : Z.land psa 3 = 0) (Hl : l <> E)
  (Rl : rep (mem s) a l) (Rsr : rep (mem s) sa sr) (Rc2 : rep_seg (mem s) ctx2 sa (ptr sr) q)
  (Rc : rep_ctx (mem s) ctx a (root s))
  (Hn : NoDup (a :: sa :: elems sr ++ nodes ctx2 ++ elems l ++ nodes ctx))
  (Ha : Forall addr (a :: sa :: elems sr ++ nodes ctx2 ++ elems l ++ nodes ctx)).

(** The left subtree and the parent of [a]. *)
Lemma take_place_left :
  exists s', (forall A (k : Z -> M A),
      (tmp ← get_child L a; set_child L sa tmp;; rb_set_parent tmp sa;; pc ← get_pc a;
       __rb_change_child a sa (__rb_parent pc);; k pc) s = k (enc (parent_of ctx) c) s')
    /\ mem s' !! sa = Some (mk_node (enc psa cs) q (ptr l)) /\ rep (mem s') sa l /\ rep_ctx (mem s') ctx sa (root s')
    /\ only [sa; ptr l; parent_of ctx] (mem s) (mem s').
Proof.
  pose proof Hn as Hn'. parts Hn'. pose proof Ha as Ha'. rewrite !Forall_cons, !Forall_app in Ha'. destruct Ha' as (Aa & Asa & Asr & Ac2 & Al & Ac).
  assert (Hpl : ptr l ∈ elems l) by (destruct l; [done|simpl; set_solver]).
  assert (N1 : a <> sa) by set_solver. assert (N2 : a <> ptr l) by (intros ->; set_solver).
  assert (N3 : sa <> ptr l) by (intros ->; set_solver).
  assert (N4 : sa <> parent_of ctx).
  { intros E0. apply (parent_notin [sa] ctx); [by constructor|set_solver|]. rewrite <- E0. left. }
  set (s1 := mk_rbs (<[sa := mk_node (enc psa cs) q (ptr l)]> (mem s)) (root s)).
  assert (O1 : only [sa] (mem s) (mem s1)) by apply only_insert.
  destruct (set_parent_ok a l sa s1 Hl) as (h2 & E2 & R2 & O2); [|apply Aa|done|].
  { apply (rep_agree (mem s)); [|done]. intros b Hb. apply O1. set_solver. }
  set (s2 := mk_rbs h2 (root s1)) in *.
  destruct (change_child_ok ctx a sa s2) as (s3 & E3 & C3 & O3); [|done|set_solver|done|done|].
  { apply (rep_ctx_agree (mem s)); [|done]. intros b Hb. transitivity (mem s1 !! b); [apply O2|apply O1]; set_solver. }
  exists s3. split_and!; [| | |done|].
  - intros A k. erewrite bind_eq by (by apply get_child_eq). cbn [child rb_left].
    erewrite bind_eq by (by apply set_child_eq). cbn [with_child]. change (mk_rbs _ _) with s1 at 1.
    rewrite (bind_eq _ _ _ _ _ E2).
    erewrite bind_eq by (apply get_pc_eq; simpl; rewrite O2, O1 by set_solver; done). cbn [__rb_parent_color].
    rewrite enc_parent by (by apply parent_addr). by rewrite (bind_eq _ _ _ _ _ E3).
  - rewrite O3 by set_solver. simpl. rewrite O2 by set_solver. simpl. by rewrite lookup_insert_eq.
  - apply (rep_agree h2); [|done]. intros b Hb. apply O3. apply not_elem_of_cons; split; [|set_solver].
    intros ->. revert Hb. apply parent_notin; set_solver.
  - intros b Hb. rewrite O3, O2, O1 by set_solver. done.
Qed.

Lemma take_place :
  exists s' reb, (tmp ← get_child L a; set_child L sa tmp;; rb_set_parent tmp sa;; pc ← get_pc a;
      __rb_change_child a sa (__rb_parent pc);;
      if nonzero (ptr sr) then set_pc sa pc;; rb_set_parent_color (ptr sr) (top_of ctx2 sa) RB_BLACK;; mret 0
      else pc2 ← get_pc sa; set_pc sa pc;; mret (if __rb_is_black pc2 then top_of ctx2 sa else 0)) s = Some (reb, s')
    /\ spliced s' reb cs sr (ctx2 ++ F R c sa l :: ctx).
Proof.
  destruct take_place_left as (s3 & E3 & N3 & R3 & C3 & O3). rewrite E3. clear E3.
  pose proof Hn as Hn'. parts Hn'. pose proof Ha as Ha'. rewrite !Forall_cons, !Forall_app in Ha'. destruct Ha' as (Aa & Asa & Asr & Ac2 & Al & Ac).
  assert (Hpl : ptr l ∈ elems l) by (destruct l; [done|simpl; set_solver]).
  set (s4 := mk_rbs (<[sa := mk_node (enc (parent_of ctx) c) q (ptr l)]> (mem s3)) (root s3)).
  assert (E4 : set_pc sa (enc (parent_of ctx) c) s3 = Some (tt, s4)) by (by rewrite (set_pc_eq _ _ _ _ N3)).
  assert (O4 : forall X, Forall addr X -> (forall b, b ∈ X -> b <> sa /\ (b ∉ elems l) /\ b ∉ nodes ctx) -> agree X (mem s) (mem s4)).
  { intros X AX HX b Hb. destruct (HX b Hb) as (H1' & H2' & H3'). simpl. rewrite lookup_insert_ne by done. apply O3.
    assert (b <> parent_of ctx); [intros ->; revert Hb; apply parent_notin; [done|intros b Hb; by apply HX]|].
    assert (b <> ptr l) by (by intros ->). set_solver. }
  assert (Rsr4 : rep (mem s4) sa sr) by (apply (rep_agree (mem s)); [apply O4; set_solver|done]).
  assert (Rc4 : rep_ctx (mem s4) (ctx2 ++ F R c sa l :: ctx) (ptr sr) (root s4)).
  { apply (rep_seg_app _ _ _ _ _ _ _ _ q); [apply (rep_seg_agree (mem s)); [apply O4; set_solver|done]|].
    cbn [rep_ctx]. simpl. rewrite lookup_insert_eq. split_and!; [done| |].
    - apply (rep_agree (mem s3)); [|done]. intros b Hb. apply lookup_insert_ne. set_solver.
    - apply (rep_ctx_agree (mem s3)); [|done]. intros b Hb. apply lookup_insert_ne. set_solver. }
  assert (Hperm : elems sr ++ nodes (ctx2 ++ F R c sa l :: ctx) ≡ₚ sa :: elems sr ++ nodes ctx2 ++ elems l ++ nodes ctx).
  { rewrite nodes_app. cbn [nodes]. solve_Permutation. }
  assert (Hn4 : NoDup (elems sr ++ nodes (ctx2 ++ F R c sa l :: ctx))) by (rewrite Hperm; by apply NoDup_cons in Hn as [_ ?]).
  assert (Ha4 : Forall addr (elems sr ++ nodes (ctx2 ++ F R c sa l :: ctx))) by (rewrite Hperm; by apply Forall_cons in Ha as [_ ?]).
  assert (Htop : parent_of (ctx2 ++ F R c sa l :: ctx) = top_of ctx2 sa) by (by destruct ctx2).
  assert (sr = E \/ sr <> E) as [Hsr|Hsr] by (destruct sr; [by left|by right]).
  - rewrite Hsr. cbn [ptr]. change (nonzero 0) with false. cbv iota. erewrite bind_eq by (by apply get_pc_eq).
    cbn [__rb_parent_color]. rewrite (bind_eq _ _ _ _ _ E4), enc_black by done. eexists _, _. split; [reflexivity|].
    rewrite Hsr in *. split; [by split|]. rewrite Htop. by destruct cs.
  - rewrite ptr_nonzero by done. rewrite (bind_eq _ _ _ _ _ E4).
    destruct (adopt_ok s4 sa sr _ Hsr Rsr4 Rc4 Hn4 Ha4) as (s5 & E5 & Z5). rewrite Htop in E5.
    rewrite (bind_eq _ _ _ _ _ E5). eexists _, _. split; [reflexivity|]. split; [done|]. by destruct sr.
Qed.
End Successor.

(** The successor is taken out of the right subtree. *)
Lemma detach_ok s a sa ra cs sr c1 p1 y1 ctx1 :
  rep_seg (mem s) (F L c1 p1 y1 :: ctx1) a sa ra -> rep (mem s) p1 (T cs E sa sr) -> Z.land a 3 = 0 ->
  NoDup (sa :: elems sr ++ nodes (F L c1 p1 y1 :: ctx1)) -> Forall addr (sa :: elems sr ++ nodes (F L c1 p1 y1 :: ctx1)) ->
  exists s', (forall A (k : Z -> M A),
      (child2 ← get_child R sa; set_child L p1 child2;; set_child R sa ra;; rb_set_parent ra sa;; k child2) s = k (ptr sr) s')
    /\ mem s' !! sa = Some (mk_node (enc p1 cs) ra 0) /\ rep (mem s') sa sr
    /\ rep_seg (mem s') (F L c1 p1 y1 :: ctx1) sa (ptr sr) ra
    /\ only (sa :: nodes (F L c1 p1 y1 :: ctx1)) (mem s) (mem s') /\ root s' = root s.
Proof.
  intros Hs Hr Hpa Hn Ha. set (ctx2 := F L c1 p1 y1 :: ctx1) in *.
  assert (Hra : ra ∈ nodes ctx2) by (by apply (seg_top_in (mem s) ctx2 a sa)).
  assert (Hp1 : p1 ∈ nodes ctx2) by left. pose proof Hs as (Np1 & Ry1 & Rs1). destruct Hr as (Nsa & _ & Rsr).
  pose proof Hn as Hn'. rewrite NoDup_cons, NoDup_app in Hn'. destruct Hn' as (D1 & _ & D2 & D3).
  rewrite Forall_cons, Forall_app in Ha. destruct Ha as (Asa & Asr & Ac).
  assert (N1 : sa <> p1) by (intros ->; set_solver). assert (N2 : sa <> ra) by (intros ->; set_solver).
  set (s1 := mk_rbs (<[sa := mk_node (enc p1 cs) ra 0]> (<[p1 := node_of L (enc (top_of ctx1 a) c1) (ptr sr) (ptr y1)]> (mem s)))
                    (root s)).
  assert (O1 : only [sa; p1] (mem s) (mem s1)).
  { intros b Hb. simpl. rewrite !lookup_insert_ne by set_solver. done. }
  assert (S1 : rep_seg (mem s1) ctx2 a (ptr sr) ra).
  { subst ctx2. cbn [nodes] in *. apply NoDup_cons in D3 as [D4 D5]. apply NoDup_app in D5 as (_ & D6 & _).
    cbn [rep_seg]. split_and!.
    - simpl. by rewrite lookup_insert_ne, lookup_insert_eq by done.
    - apply (rep_agree (mem s)); [|done]. intros b Hb. apply O1. set_solver.
    - apply (rep_seg_agree (mem s)); [|done]. intros b Hb. apply O1. set_solver. }
  destruct (set_parent_seg ctx2 a (ptr sr) ra sa s1) as (h2 & E2 & S2 & O2); [done..|].
  exists (mk_rbs h2 (root s1)). split_and!; [| | |done| |done].
  - intros A k. erewrite bind_eq by (by apply get_child_eq). cbn [child rb_right].
    erewrite bind_eq by (by apply set_child_eq). cbn [with_child].
    erewrite bind_eq by (apply set_child_eq; simpl; rewrite lookup_insert_ne by done; done).
    cbn [with_child]. change (mk_rbs _ _) with s1 at 1. by rewrite (bind_eq _ _ _ _ _ E2).
  - simpl. rewrite O2 by set_solver. simpl. by rewrite lookup_insert_eq.
  - apply (rep_agree (mem s)); [|done]. intros b Hb. simpl. rewrite O2, O1; [done|set_solver..].
  - intros b Hb. simpl. rewrite O2, O1; [done|set_solver..].
Qed.

Lemma unzip_first_left c l a r ctx cs sa sr ctx' :
  unzip_first c l a r ctx = (cs, sa, sr, ctx') -> Forall (fun f => fd f = L) ctx ->
  Forall (fun f => fd f = L) ctx' /\ (length ctx <= length ctx')%nat.
Proof.
  revert c a r ctx. induction l as [|c' l' IH a' r' _]; intros c a r ctx; cbn [unzip_first]; [by intros [= _ _ _ <-]|].
  intros H HF. apply IH in H as [H1 H2]; [|by constructor]. simpl in H2. split; [done|lia].
Qed.

Lemma perm_plug ctx x : elems (plug ctx x) ≡ₚ elems x ++ nodes ctx.
Proof.
  revert x. induction ctx as [|[d c a y] ctx IH]; intros x; cbn [plug nodes]; [by rewrite app_nil_r|].
  rewrite IH, perm_mk. by rewrite <- app_assoc.
Qed.

(** What a removal has left to do. *)
Definition unlinked (fuel : nat) (a : Z) (c : color) (l r : tree) (ctx : list frame) (s : rbs) : Prop :=
  exists s' reb cs x ctx', __rb_erase_augmented fuel a s = Some (reb, s') /\ spliced s' reb cs x ctx'
    /\ era c l r ctx = era_splice cs x ctx' /\ (length ctx' <= length ctx + S (height r))%nat.

Lemma unlink_near fuel s c l a rc ra rr ctx :
  l <> E -> zips s (T c l a (T rc E ra rr)) ctx -> unlinked fuel a c l (T rc E ra rr) ctx s.
Proof.
  intros Hl Hz. pose proof Hz as [(Na & Rl & Rr) Rc Hn Ha]. pose proof Rr as (Nra & _ & Rrr).
  assert (Hperm : elems (T c l a (T rc E ra rr)) ++ nodes ctx ≡ₚ a :: ra :: elems rr ++ nodes [] ++ elems l ++ nodes ctx).
  { cbn [elems nodes app]. solve_Permutation. }
  rewrite Hperm in Hn, Ha. pose proof Ha as Ha'. rewrite !Forall_cons, !Forall_app in Ha'. destruct Ha' as (Aa & Ara & _ & _ & Al & _).
  destruct (take_place s a ra ra (ptr rr) a c rc l rr [] ctx) as (s' & reb & E1 & S1); try done; [apply Aa|].
  exists s', reb, rc, rr, (F R c ra l :: ctx). split_and!; [|done|by destruct l|simpl; lia].
  unfold __rb_erase_augmented. erewrite bind_eq by (by apply get_child_eq). erewrite bind_eq by (by apply get_child_eq).
  cbn [child rb_left rb_right ptr]. rewrite ptr_nonzero, addr_nonzero by done. cbn [negb].
  erewrite bind_eq by (by apply get_child_eq). cbn [child rb_left ptr]. change (negb (nonzero 0)) with true. cbv iota.
  erewrite bind_eq by (erewrite bind_eq by (by apply get_child_eq); reflexivity). exact E1.
Qed.

Lemma unlink_far fuel s c l a rc c' l' a' r' ra rr ctx :
  let rl := T c' l' a' r' in
  l <> E -> zips s (T c l a (T rc rl ra rr)) ctx -> (height rl <= fuel)%nat -> unlinked fuel a c l (T rc rl ra rr) ctx s.
Proof.
  intros rl Hl Hz Hf. pose proof Hz as [(Na & Rl & Rr) Rc Hn Ha]. pose proof Rr as (Nra & Rrl & _).
  destruct (unzip_first c' l' a' r' [F L rc ra rr]) as [[[cs sa] sr] ctx2] eqn:Hu.
  pose proof (unzip_first_plug _ _ _ _ _ _ _ _ _ Hu) as Hpl. cbn [plug mk] in Hpl. fold rl in Hpl.
  assert (Hlen : (length ctx2 <= height (T rc rl ra rr))%nat).
  { rewrite <- Hpl. pose proof (height_plug ctx2 (T cs E sa sr)). lia. }
  assert (Al' : Forall addr (elems l' ++ a' :: elems r')).
  { rewrite Forall_app in Ha. destruct Ha as [Ha _]. cbn [elems rl] in Ha. rewrite Forall_app, Forall_cons, Forall_app in Ha. tauto. }
  rewrite Forall_app, Forall_cons in Al'. destruct Al' as (Al' & Arl & _).
  assert (Hdown : find_successor fuel ra (ptr rl) s = Some ((top_of ctx2 0, sa), s)).
  { apply (find_successor_ok _ _ _ _ _ _ ra 0 _ _ _ _ _ Hu Rrl); [done|simpl in Hf; lia]. }
  destruct (unzip_first_left _ _ _ _ _ _ _ _ _ Hu) as [HL Hne]; [by repeat constructor|].
  destruct ctx2 as [|[d1 c1 p1 y1] ctx1]; [simpl in Hne; lia|]. apply Forall_cons in HL as [Hd1 _]. cbn in Hd1. subst d1.
  rewrite <- Hpl in Rr. apply rep_plug in Rr as [Rseg Rsa]. rewrite Hpl in Rseg. cbn [ptr top_of fa] in *.
  set (ctx2 := F L c1 p1 y1 :: ctx1) in *.
  assert (Hperm : elems (T c l a (T rc rl ra rr)) ++ nodes ctx ≡ₚ a :: sa :: elems sr ++ nodes ctx2 ++ elems l ++ nodes ctx).
  { rewrite <- Hpl. cbn [elems]. rewrite perm_plug. cbn [elems app]. solve_Permutation. }
  rewrite Hperm in Hn, Ha. clear Hperm.
  assert (Hra : ra ∈ nodes ctx2) by (by apply (seg_top_in (mem s) ctx2 a sa)).
  pose proof Ha as Ha'. rewrite !Forall_cons, !Forall_app in Ha'. destruct Ha' as (Aa & Asa & Asr & Ac2 & Al & _).
  pose proof Hn as Hn'. repeat (rewrite ?NoDup_cons, ?NoDup_app in Hn'). destruct Hn' as (Da & Dsa & _ & Dsr & _ & Dc2 & _ & Dl & _).
  destruct (detach_ok s a sa ra cs sr c1 p1 y1 ctx1 Rseg Rsa) as (s1 & E1 & N1 & R1 & S1 & O1 & Q1); [apply Aa| | |].
  { rewrite (app_assoc (elems sr)), NoDup_cons in Hn. destruct Hn as [_ Hn]. fold ctx2.
    rewrite app_comm_cons in Hn. by apply NoDup_app in Hn as [? _]. }
  { rewrite Forall_cons, Forall_app. done. }
  rewrite Forall_forall in Ac2. assert (Ap1 : addr p1) by (apply Ac2; left). assert (Ara : addr ra) by (by apply Ac2).
  destruct (take_place s1 a sa ra ra p1 c cs l sr ctx2 ctx) as (s' & reb & E2 & S2); try done;
    [rewrite O1; [done|set_solver]|apply Ap1| | |].
  { apply (rep_agree (mem s)); [|done]. intros b Hb. apply O1. set_solver. }
  { rewrite Q1. apply (rep_ctx_agree (mem s)); [|done]. intros b Hb. apply O1. set_solver. }
  exists s', reb, cs, sr, (ctx2 ++ F R c sa l :: ctx). split_and!; [|done| |rewrite length_app; simpl in *; lia].
  - unfold __rb_erase_augmented. erewrite bind_eq by (by apply get_child_eq). erewrite bind_eq by (by apply get_child_eq).
    cbn [child rb_left rb_right ptr]. rewrite ptr_nonzero, addr_nonzero by done. cbn [negb].
    erewrite bind_eq by (by apply get_child_eq). cbn [child rb_left].
    rewrite addr_nonzero by (apply Arl). cbn [negb].
    specialize (E1 _ (fun child2 => mret (p1, sa, child2))). change (?m = _) with (m = Some ((p1, sa, ptr sr), s1)) in E1.
    erewrite bind_eq by (rewrite (bind_eq _ _ _ _ _ Hdown); exact E1). exact E2.
  - destruct l; [done|]. cbn [era rl unzip_first]. by rewrite Hu.
Qed.

Lemma erase_augmented_ok fuel s c l a r ctx c' n :
  zips s (T c l a r) ctx -> rb_ok (T c l a r) c' n -> (height r <= fuel)%nat -> unlinked fuel a c l r ctx s.
Proof.
  intros Hz Hr Hf. destruct l as [|lc ll la lr].
  - destruct (unlink_left s c a r ctx Hz) as (s' & reb & E1 & S1); [intros Hne; by apply (single_child L) in Hr as [? _]|].
    destruct Hz as [(Na & _ & Rr) _ _ _].
    exists s', reb, c, r, ctx. split_and!; [|done|done|lia].
    unfold __rb_erase_augmented. erewrite bind_eq by (by apply get_child_eq). erewrite bind_eq by (by apply get_child_eq). exact E1.
  - destruct r as [|rc rl ra rr].
    + destruct (unlink_right s c a (T lc ll la lr) ctx) as (s' & E1 & S1); [done|done|by apply (single_child R) in Hr as [? _]|].
      destruct Hz as [(Na & _ & _) _ _ Ha]. exists s', 0, c, (T lc ll la lr), ctx. split_and!; [|done|done|lia].
      unfold __rb_erase_augmented. erewrite bind_eq by (by apply get_child_eq). erewrite bind_eq by (by apply get_child_eq).
      cbn [elems] in Ha. rewrite !Forall_app in Ha. destruct Ha as ((Ha & _) & _).
      cbn [child rb_left rb_right]. rewrite ptr_nonzero by (try done; cbn [elems]; by rewrite Forall_app). exact E1.
    + cbn [height] in Hf. destruct rl as [|? ? ? ?]; [by apply unlink_near|]. apply unlink_far; [done|done|lia].
Qed.

Lemma spliced_ok fuel s reb c x ctx t :
  spliced s reb c x ctx -> era_splice c x ctx = Some t -> (length ctx <= fuel)%nat ->
  exists s', (if nonzero reb then ____rb_erase_color fuel 0 reb else mret tt) s = Some (tt, s') /\ repr s' t.
Proof.
  intros [Hz ->] Ht Hf. destruct x as [|cx xl xa xr].
  - destruct c; [|destruct ctx as [|f ctx]].
    + injection Ht as <-. exists s. split; [done|]. by apply (proj1 (zips_plug _ _ _)).
    + injection Ht as <-. by exists s.
    + pose proof Hz as [_ _ _ Ha]. cbn [era_splice] in Ht. rewrite parent_nonzero by done.
      by apply (rb_erase_color_ok fuel E (f :: ctx)).
  - injection Ht as <-. exists s. split; [done|]. by apply (proj1 (zips_plug _ _ _)).
Qed.

(** Removal of a node of a red-black tree. *)
Lemma rb_erase_plug fuel s c l a r ctx c' b n :
  zips s (T c l a r) ctx -> rb_ok (T c l a r) c' n -> ctx_ok ctx b n -> (c' = Red -> b = true) ->
  (height (plug ctx (T c l a r)) <= fuel)%nat ->
  exists s' t m, rb_erase fuel a s = Some (tt, s') /\ repr s' t /\ rb_ok t Black m
    /\ elems t = before ctx ++ elems l ++ elems r ++ after ctx.
Proof.
  intros Hz Hr Hc Hb Hf. pose proof (height_plug ctx (T c l a r)) as Hh. cbn [height] in Hh.
  destruct (era_ok _ _ _ _ _ _ _ _ Hr Hc Hb) as (t & m & Et & Ht).
  destruct (erase_augmented_ok fuel s c l a r ctx c' n Hz Hr) as (s1 & reb & cs & x & ctx' & E1 & S1 & Ee & Hl); [lia|].
  rewrite Ee in Et. destruct (spliced_ok fuel _ _ _ _ _ _ S1 Et) as (s' & E2 & R2); [lia|].
  exists s', t, m. unfold rb_erase. rewrite (bind_eq _ _ _ _ _ E1), E2. split_and!; [done|done|done|].
  rewrite <- Ee in Et. by apply (era_elems c).
Qed.
