(* ===== verification/RbSpec.v ===== *)
(** What the operations of [Rbtree] do to a red-black tree in memory: insertion at a link,
    removal, walking in order and replacing a node, each within a number of rounds that is
    logarithmic in the number of nodes. *)

From stdpp Require Import gmap.
From S2P Require Import Prelude Rbtree RbShape RbInsert RbRebalance RbErase.

(** A red-black tree of the nodes [l], in order. *)
Definition rb_tree (s : rbs) (l : list Z) : Prop := exists t n, repr s t /\ rb_ok t Black n /\ elems t = l.

Lemma split_unique (l1 l2 l1' l2' : list Z) a : NoDup (l1 ++ a :: l2) -> l1' ++ a :: l2' = l1 ++ a :: l2 -> l1' = l1 /\ l2' = l2.
Proof.
  intros Hn. revert l1'. induction l1 as [|b l1 IH]; intros [|b' l1'] Heq; simpl in *; simplify_eq; try done;
    apply NoDup_cons in Hn as [Hb Hn]; [set_solver..|]. destruct (IH Hn l1') as [-> ->]; done.
Qed.

Lemma rb_tree_open s l l1 a l2 :
  rb_tree s l -> l = l1 ++ a :: l2 ->
  exists ctx c lt rt c' b n, zips s (T c lt a rt) ctx /\ rb_ok (T c lt a rt) c' n /\ ctx_ok ctx b n /\ (c' = Red -> b = true)
    /\ (height (plug ctx (T c lt a rt)) <= max_depth (length l))%nat
    /\ l1 = before ctx ++ elems lt /\ l2 = elems rt ++ after ctx.
Proof.
  intros (t & n & Hr & Ht & He) Hl. destruct (elem_plug a t) as (ctx & c & lt & rt & ->); [rewrite He, Hl; set_solver|].
  pose proof (rb_depth _ _ Ht) as Hd. pose proof Hr as [_ _ Hn _]. cbn [nodes] in Hn. rewrite app_nil_r in Hn.
  destruct (unplug_ok ctx [] (T c lt a rt) Black n false) as (c' & n' & b' & Ho & Hc & Hb); [done|constructor|done|].
  rewrite app_nil_r in Hc. rewrite He in Hd, Hn. rewrite elems_plug in He. cbn [elems] in He.
  rewrite <- (app_assoc (elems lt)), app_assoc in He. cbn [app] in He. rewrite Hl in He, Hn.
  destruct (split_unique _ _ _ _ _ Hn He) as [<- <-]. exists ctx, c, lt, rt, c', b', n'.
  split_and!; try done. by apply zips_plug.
Qed.

(** ** Insertion *)

(** The link a subtree hangs on. *)
Definition link_of (ctx : list frame) : link := match ctx with [] => None | F d _ a _ :: _ => Some (a, d) end.

Lemma link_node_ok s a ctx :
  zips s E ctx -> addr a -> a ∉ nodes ctx ->
  exists s', rb_link_node a (parent_of ctx) (link_of ctx) s = Some (tt, s') /\ zips s' (T Red E a E) ctx.
Proof.
  intros [_ Rc Hn Ha] Aa Hna. cbn [elems app] in *. unfold rb_link_node. erewrite bind_eq by reflexivity.
  set (h := <[a := mk_node (parent_of ctx) 0 0]> (mem s)).
  assert (Hag : agree (nodes ctx) (mem s) h) by (intros b Hb; apply lookup_insert_ne; set_solver).
  assert (Hra : h !! a = Some (mk_node (enc (parent_of ctx) Red) 0 0)) by (rewrite enc_red; apply lookup_insert_eq).
  destruct ctx as [|[d c p y] ctx]; cbn [link_of write_link].
  - eexists; split; [reflexivity|]. split; [done|done|by apply NoDup_singleton|by constructor].
  - apply (rep_ctx_agree _ h) in Rc as (Np & Ry & Rc); [|done]. cbn [nodes] in *.
    rewrite (set_child_eq d p a (mk_rbs h (root s)) _ Np). eexists; split; [reflexivity|].
    assert (p <> a) by set_solver. apply NoDup_cons in Hn as Hn'. destruct Hn' as [Dp Dn].
    assert (Hag2 : forall n, agree (elems y ++ nodes ctx) h (<[p := n]> h)) by (intros n b Hb; apply lookup_insert_ne; set_solver).
    split; cbn [elems nodes app].
    + simpl. by rewrite lookup_insert_ne.
    + cbn [rep_ctx mem root]. rewrite lookup_insert_eq, with_child_node. split_and!; [done| |].
      * apply (rep_agree h); [|done]. intros b Hb. apply Hag2. set_solver.
      * apply (rep_ctx_agree h); [|done]. intros b Hb. apply Hag2. set_solver.
    + by apply NoDup_cons.
    + by constructor.
Qed.

Lemma insert_at s t ctx a n fuel :
  repr s t -> rb_ok t Black n -> t = plug ctx E -> addr a -> a ∉ elems t -> (max_depth (length (elems t)) < fuel)%nat ->
  exists s', (rb_link_node a (parent_of ctx) (link_of ctx);; rb_insert_color fuel a) s = Some (tt, s')
    /\ rb_tree s' (before ctx ++ a :: after ctx).
Proof.
  intros Hr Ht -> Aa Hna Hf. pose proof (rb_depth _ _ Ht) as Hd. pose proof (height_plug ctx E) as Hh. cbn [height] in Hh.
  rewrite perm_plug in Hna. cbn [elems app] in Hna. apply zips_plug in Hr.
  destruct (link_node_ok s a ctx Hr Aa Hna) as (s1 & E1 & Z1). rewrite (bind_eq _ _ _ _ _ E1).
  destruct (unplug_ok ctx [] E Black n false Ht) as (c' & n' & b' & Ho & Hc & Hb); [constructor|done|].
  rewrite app_nil_r in Hc. inversion Ho; subst.
  destruct (ins_fix_ok (T Red E a E) ctx 0 b') as (t' & m & Ei & Ht'); [by constructor; constructor|done|].
  destruct (rb_insert_ok fuel (T Red E a E) ctx t' s1) as (s' & E2 & R2); [done|done|done|done|lia|].
  exists s'. split.
  - unfold rb_insert_color, rb_red_parent. destruct Z1 as [(Na & _) _ _ _]. erewrite bind_eq by (by apply get_pc_eq).
    cbn [__rb_parent_color]. by rewrite enc_red.
  - exists t', m. split_and!; [done|done|]. apply ins_fix_elems in Ei; [|done]. by rewrite Ei, elems_plug.
Qed.

(** ** Removal *)

Lemma erase_in s l l1 a l2 fuel :
  rb_tree s l -> l = l1 ++ a :: l2 -> (max_depth (length l) <= fuel)%nat ->
  exists s', rb_erase fuel a s = Some (tt, s') /\ rb_tree s' (l1 ++ l2).
Proof.
  intros Hs Hl Hf. destruct (rb_tree_open _ _ _ _ _ Hs Hl) as (ctx & c & lt & rt & c' & b & n & Hz & Ht & Hc & Hb & Hh & -> & ->).
  destruct (rb_erase_plug fuel s c lt a rt ctx c' b n) as (s' & t & m & E1 & R1 & O1 & L1); [done..|lia|].
  exists s'. split; [done|]. exists t, m. split_and!; [done|done|]. by rewrite L1, <- !app_assoc.
Qed.

(** ** Walking *)

(** The outermost node of a tree on a side. *)
Fixpoint edge (d : side) (t : tree) : Z :=
  match t with
  | E => 0
  | T _ l a r => match d with L => match l with E => a | _ => edge L l end | R => match r with E => a | _ => edge R r end end
  end.

Definition end_of (d : side) (l : list Z) : Z := default 0 (match d with L => head l | R => last l end).

Lemma edge_end d t : edge d t = end_of d (elems t).
Proof.
  induction t as [|c l IHl a r IHr]; [by destruct d|]. unfold end_of in *. destruct d; cbn [edge elems].
  - destruct l as [|lc ll la lr]; [done|]. rewrite IHl. cbn [elems]. by destruct (elems ll).
  - rewrite last_app, last_cons. destruct r as [|rc rl ra rr]; [done|]. rewrite IHr.
    cbn [elems]. rewrite last_app, last_cons. by destruct (last (elems rr)).
Qed.

Lemma descend_ok fuel d par t s :
  t <> E -> rep (mem s) par t -> Forall addr (elems t) -> (height t <= fuel)%nat ->
  descend fuel d (ptr t) s = Some (end_of d (elems t), s).
Proof.
  rewrite <- edge_end. revert par fuel. induction t as [|c l IHl a r IHr]; intros par fuel; [done|].
  intros _ (Na & Rl & Rr) Ha Hf. cbn [elems height] in *. rewrite Forall_app, Forall_cons in Ha. destruct Ha as (Al & Aa & Ar).
  destruct fuel as [|fuel]; [lia|]. cbn [descend ptr edge]. erewrite bind_eq by (by apply get_child_eq).
  destruct d; cbn [child rb_left rb_right].
  - destruct l as [|lc ll la lr]; [done|]. rewrite ptr_nonzero by done. apply (IHl a); [done..|lia].
  - destruct r as [|rc rl ra rr]; [done|]. rewrite ptr_nonzero by done. apply (IHr a); [done..|lia].
Qed.

Lemma empty_check ctx c a : addr a -> Forall addr (nodes ctx) -> a ∉ nodes ctx -> (enc (parent_of ctx) c =? a) = false.
Proof.
  intros [Ha Ha3] Hc Hn. apply Z.eqb_neq. intros E0. pose proof (parent_addr ctx Hc) as Hp. destruct c.
  - rewrite enc_red in E0. destruct (parent_in ctx) as [E1|E1]; [lia|]. by rewrite E0 in E1.
  - pose proof (enc_color (parent_of ctx) Black Hp) as Hb. rewrite E0 in Hb. pose proof (enc_color a Red Ha3) as Hr.
    rewrite enc_red in Hr. by rewrite Hb in Hr.
Qed.

(** The nodes beyond a subtree on a side. *)
Definition beyond (d : side) (ctx : list frame) : list Z := match d with L => before ctx | R => after ctx end.

Lemma ascend_ok fuel d x ctx s :
  x <> E -> zips s x ctx -> (length ctx < fuel)%nat ->
  ascend fuel d (ptr x) s = Some (end_of (opp d) (beyond d ctx), s).
Proof.
  revert x ctx. induction fuel as [|fuel IH]; intros x ctx Hx Hz Hf; [lia|]. cbn [ascend].
  pose proof Hz as [Rx Rc Hn Ha]. destruct x as [|c l a r]; [done|]. cbn [ptr] in *. destruct Rx as (Na & _ & _).
  pose proof Ha as Ha'. rewrite Forall_app in Ha'. destruct Ha' as [Ax Ac].
  erewrite bind_eq by (by apply rb_parent_eq). cbn [__rb_parent_color]. rewrite enc_parent by (by apply parent_addr).
  destruct ctx as [|[e ce p y] ctx]; [by destruct d|]. cbn [rep_ctx parent_of fa nodes] in *. destruct Rc as (Np & _ & _).
  rewrite Forall_cons in Ac. destruct Ac as [Ap Ac]. rewrite addr_nonzero by done. erewrite bind_eq by (by apply get_child_eq).
  destruct (decide (e = d)) as [->|Hne].
  - rewrite child_node, Z.eqb_refl. apply zips_up in Hz. apply IH in Hz; [|by destruct d|simpl in Hf; lia].
    replace (ptr (mk d ce (T c l a r) p y)) with p in Hz by (by destruct d). rewrite Hz. by destruct d.
  - assert (e = opp d) as -> by (by destruct e, d). replace (child d _) with (ptr y) by (by destruct d).
    assert (Hy : a <> ptr y).
    { cbn [elems] in *. destruct y as [|cy yl ya yr]; cbn [ptr elems] in *.
      - rewrite Forall_app, Forall_cons in Ax. destruct Ax as (_ & [Hpos _] & _). lia.
      - intros ->. apply NoDup_app in Hn as (_ & Hd & _). apply (Hd ya); set_solver. }
    rewrite (proj2 (Z.eqb_neq _ _) Hy). destruct d; cbn [opp beyond before after end_of head]; [|done].
    unfold end_of. by rewrite app_assoc, last_snoc.
Qed.

Lemma step_ok fuel d c lt a rt ctx s :
  zips s (T c lt a rt) ctx -> (height (plug ctx (T c lt a rt)) < fuel)%nat ->
  rb_step fuel d a s = Some (match d with L => end_of R (before ctx ++ elems lt) | R => end_of L (elems rt ++ after ctx) end, s).
Proof.
  intros Hz Hf. pose proof (height_plug ctx (T c lt a rt)) as Hh. cbn [height] in Hh. pose proof Hz as [(Na & Rl & Rr) Rc Hn Ha].
  pose proof Ha as Ha'. cbn [elems] in Ha', Hn. rewrite !Forall_app, Forall_cons in Ha'. destruct Ha' as ((Al & Aa & Ar) & Ac).
  unfold rb_step. erewrite bind_eq by (by apply get_pc_eq). cbn [__rb_parent_color].
  rewrite empty_check; [|done|done|]; [|apply NoDup_app in Hn as (_ & Hd & _); apply Hd; set_solver].
  erewrite bind_eq by (by apply get_child_eq).
  assert (Hup : ascend fuel d a s = Some (end_of (opp d) (beyond d ctx), s)) by (by apply (ascend_ok _ _ (T c lt a rt)); [..|lia]).
  destruct d; cbn [child rb_left rb_right opp beyond] in *.
  - destruct lt as [|lc ll la lr]; [cbn [ptr elems]; by rewrite app_nil_r|]. rewrite ptr_nonzero by done.
    rewrite (descend_ok _ _ a) by (try done; lia). unfold end_of. rewrite last_app. cbn [elems].
    rewrite last_app, last_cons. by destruct (last (elems lr)).
  - destruct rt as [|rc rl ra rr]; [done|]. rewrite ptr_nonzero by done.
    rewrite (descend_ok _ _ a) by (try done; lia). unfold end_of. cbn [elems]. by destruct (elems rl).
Qed.

Lemma ends_ok s l fuel d :
  rb_tree s l -> (max_depth (length l) <= fuel)%nat ->
  (n ← read_link None; if nonzero n then descend fuel d n else mret 0) s = Some (end_of d l, s).
Proof.
  intros (t & n & [Rt Rc Hn Ha] & Ht & <-) Hf. apply rb_depth in Ht. cbn [nodes rep_ctx parent_of] in *. rewrite app_nil_r in Ha.
  erewrite bind_eq by reflexivity. rewrite Rc.
  assert (t = E \/ t <> E) as [->|Hne] by (destruct t; [by left|by right]); [by destruct d|].
  rewrite ptr_nonzero by done. apply (descend_ok _ _ 0); [done..|lia].
Qed.

Lemma step_in s l fuel d l1 a l2 :
  rb_tree s l -> (max_depth (length l) < fuel)%nat -> l = l1 ++ a :: l2 ->
  rb_step fuel d a s = Some (match d with L => end_of R l1 | R => end_of L l2 end, s).
Proof.
  intros Hs Hf Hl. destruct (rb_tree_open _ _ _ _ _ Hs Hl) as (ctx & c & lt & rt & c' & b & n & Hz & _ & _ & _ & Hh & -> & ->).
  apply (step_ok _ _ c); [done|lia].
Qed.

(** ** Replacing a node *)

Lemma replace_ok s c l a r ctx new :
  zips s (T c l a r) ctx -> addr new -> new ∉ elems (T c l a r) ++ nodes ctx ->
  exists s', rb_replace_node a new s = Some (tt, s') /\ zips s' (T c l new r) ctx.
Proof.
  intros [(Na & Rl & Rr) Rc Hn Ha] Anew Hnew.
  assert (Hperm : forall b, elems (T c l b r) ++ nodes ctx ≡ₚ b :: elems l ++ elems r ++ nodes ctx).
  { intros b. cbn [elems]. solve_Permutation. }
  rewrite Hperm in Hn, Ha, Hnew. pose proof Hn as Hn'. parts Hn'. pose proof Ha as Ha'.
  rewrite Forall_cons, !Forall_app in Ha'. destruct Ha' as (Aa & Al & Ar & Ac). unfold rb_replace_node.
  assert (Hpar : parent_of ctx ∉ a :: elems l ++ elems r).
  { apply parent_notin; [by rewrite Forall_cons, Forall_app|set_solver]. }
  erewrite bind_eq by (by apply rb_parent_eq). cbn [__rb_parent_color]. rewrite enc_parent by (by apply parent_addr).
  destruct (change_child_ok ctx a new s) as (s1 & E1 & C1 & O1); [done|done|set_solver|done|done|]. rewrite (bind_eq _ _ _ _ _ E1).
  assert (Na1 : mem s1 !! a = mem s !! a) by (apply O1; set_solver). rewrite Na in Na1.
  erewrite bind_eq by (by apply get_child_eq). cbn [child rb_left].
  destruct (reparent_ok a l new s1) as (h2 & E2 & R2 & O2); [|apply Aa|done|done|].
  { apply (rep_agree (mem s)); [|done]. intros b Hb. apply O1. set_solver. }
  rewrite (bind_eq _ _ _ _ _ E2). set (s2 := mk_rbs h2 (root s1)).
  assert (Na2 : mem s2 !! a = mem s1 !! a) by (apply O2; set_solver). rewrite Na1 in Na2.
  erewrite bind_eq by (by apply get_child_eq). cbn [child rb_right].
  destruct (reparent_ok a r new s2) as (h3 & E3 & R3 & O3); [|apply Aa|done|done|].
  { apply (rep_agree (mem s)); [|done]. intros b Hb. simpl. rewrite O2, O1 by set_solver. done. }
  rewrite (bind_eq _ _ _ _ _ E3). set (s3 := mk_rbs h3 (root s2)).
  assert (Na3 : mem s3 !! a = mem s2 !! a) by (apply O3; set_solver). rewrite Na2 in Na3.
  erewrite bind_eq by (unfold load; by rewrite Na3). eexists; split; [reflexivity|].
  assert (Hrest : forall X, new ∉ X -> agree X h3 (<[new := mk_node (enc (parent_of ctx) c) (ptr r) (ptr l)]> h3)).
  { intros X HX b Hb. apply lookup_insert_ne. set_solver. }
  split; cbn [mem root rep].
  - rewrite lookup_insert_eq. split_and!; [done| |].
    + apply (rep_agree h3); [apply Hrest; set_solver|]. apply (rep_agree h2); [|done]. intros b Hb. apply O3. set_solver.
    + apply (rep_agree h3); [apply Hrest; set_solver|done].
  - apply (rep_ctx_agree h3); [apply Hrest; set_solver|]. apply (rep_ctx_agree (mem s1)); [|done].
    intros b Hb. rewrite O3 by set_solver. simpl. rewrite O2 by set_solver. done.
  - rewrite Hperm, NoDup_cons. apply NoDup_cons in Hn as [_ Hn]. split; [set_solver|done].
  - rewrite Hperm, Forall_cons. apply Forall_cons in Ha as [_ Ha]. done.
Qed.

Lemma replace_in s l l1 a l2 new :
  rb_tree s l -> l = l1 ++ a :: l2 -> addr new -> new ∉ l ->
  exists s', rb_replace_node a new s = Some (tt, s') /\ rb_tree s' (l1 ++ new :: l2).
Proof.
  intros Hs Hl An Hn. destruct (rb_tree_open _ _ _ _ _ Hs Hl) as (ctx & c & lt & rt & c' & b & n & Hz & Ht & Hc & Hb & _ & -> & ->).
  assert (Hn' : new ∉ elems (T c lt a rt) ++ nodes ctx).
  { rewrite <- perm_plug, elems_plug. subst l. cbn [elems]. set_solver. }
  destruct (replace_ok s c lt a rt ctx new Hz An Hn') as (s' & E1 & Z1). exists s'. split; [done|].
  assert (Ht' : rb_ok (T c lt new rt) c' n) by (inversion Ht; subst; by econstructor).
  destruct (plug_ok ctx b n _ c' Hc Ht' Hb) as [m Hm].
  exists (plug ctx (T c lt new rt)), m. split_and!; [by apply (proj1 (zips_plug _ _ _))|done|].
  rewrite elems_plug. cbn [elems]. by rewrite <- !app_assoc.
Qed.

(** * The operations *)

(** C6. Insertion.  In a red-black tree that lies in memory, [rb_link_node] at any empty link
    followed by [rb_insert_color] puts the new node at that place of the order and leaves a
    red-black tree: parent pointers, colours and children agree, no red node has a red
    child, all paths have the same number of black nodes.  No NULL pointer is followed, and
    the loop takes no more rounds than the depth, [2 * log2 (n + 1)], allows. *)
Theorem rb_insert_spec s ctx a n fuel :
  repr s (plug ctx E) -> rb_ok (plug ctx E) Black n -> addr a -> a ∉ elems (plug ctx E) ->
  (max_depth (length (elems (plug ctx E))) < fuel)%nat ->
  exists s', (rb_link_node a (parent_of ctx) (link_of ctx);; rb_insert_color fuel a) s = Some (tt, s')
    /\ rb_tree s' (before ctx ++ a :: after ctx).
Proof. intros Hr Ho Ha Hn Hf. by apply (insert_at s (plug ctx E) ctx a n). Qed.

(** C5. Removal.  [rb_erase] takes exactly the given node out of the order, with one child,
    with none or with a successor to put in its place, and leaves a red-black tree; it ends
    within the rounds that the depth allows and follows no NULL pointer. *)
Theorem rb_erase_spec s l1 a l2 fuel :
  rb_tree s (l1 ++ a :: l2) -> (max_depth (length (l1 ++ a :: l2)) <= fuel)%nat ->
  exists s', rb_erase fuel a s = Some (tt, s') /\ rb_tree s' (l1 ++ l2).
Proof. intros Hs Hf. by apply (erase_in s (l1 ++ a :: l2)). Qed.

(** Walking.  [rb_first] and [rb_last] give the ends of the order, [rb_next] and
    [rb_prev] the neighbours of a node, NULL where there is none; the tree is not changed. *)
Theorem rb_walk_spec s l fuel :
  rb_tree s l -> (max_depth (length l) < fuel)%nat ->
  rb_first fuel s = Some (default 0 (head l), s) /\ rb_last fuel s = Some (default 0 (last l), s)
  /\ forall l1 a l2, l = l1 ++ a :: l2 ->
     rb_next fuel a s = Some (default 0 (head l2), s) /\ rb_prev fuel a s = Some (default 0 (last l1), s).
Proof.
  intros Hs Hf. split_and!; [apply (ends_ok s l fuel L); [done|lia]|apply (ends_ok s l fuel R); [done|lia]|].
  intros l1 a l2 Hl. split; [by apply (step_in s l fuel R l1)|by apply (step_in s l fuel L l1 a l2)].
Qed.

(** * Witnesses *)

(** Three nodes: 16, black, with the red children 8 and 24. *)
Definition sample_tree : tree := T Black (T Red E 8 E) 16 (T Red E 24 E).
Definition sample_rbs : rbs :=
  mk_rbs (<[8 := mk_node 16 0 0]> (<[16 := mk_node 1 24 8]> (<[24 := mk_node 16 0 0]> ∅))) 16.

Lemma sample_tree_ok : repr sample_rbs sample_tree /\ rb_ok sample_tree Black 1.
Proof.
  split; [|repeat econstructor]. split; [repeat split; reflexivity|reflexivity| |].
  - apply (bool_decide_unpack _). vm_compute. exact I.
  - cbn. repeat (constructor; [split; [lia|reflexivity]|]). constructor.
Qed.

Lemma sample_rb_tree : rb_tree sample_rbs [8; 16; 24].
Proof. exists sample_tree, 1%nat. destruct sample_tree_ok. done. Qed.

Lemma rb_insert_spec_witness : exists s',
  (rb_link_node 12 8 (Some (8, R));; rb_insert_color 5 12) sample_rbs = Some (tt, s') /\ rb_tree s' [8; 12; 16; 24].
Proof.
  apply (rb_insert_spec sample_rbs [F R Red 8 E; F L Black 16 (T Red E 24 E)] 12 1 5).
  - apply sample_tree_ok.
  - apply sample_tree_ok.
  - split; [lia|reflexivity].
  - apply (bool_decide_unpack _). vm_compute. exact I.
  - vm_compute. lia.
Defined.

Lemma rb_erase_spec_witness : exists s', rb_erase 4 16 sample_rbs = Some (tt, s') /\ rb_tree s' [8; 24].
Proof. apply (rb_erase_spec sample_rbs [8] 16 [24] 4); [apply sample_rb_tree|vm_compute; lia]. Defined.

Lemma rb_walk_spec_witness : rb_first 5 sample_rbs = Some (8, sample_rbs) /\ rb_next 5 8 sample_rbs = Some (16, sample_rbs).
Proof.
  destruct (rb_walk_spec sample_rbs [8; 16; 24] 5 sample_rb_tree) as (Hf & _ & Hn); [vm_compute; lia|].
  split; [exact Hf|]. exact (proj1 (Hn [] 8 [16; 24] eq_refl)).
Defined.
