(* ===== verification/Pelt.v ===== *)
(** Per-entity load tracking, the arithmetic core: the geometric-series tables of
    [kernel/sched/fair.c], [decay_load], [__compute_runnable_contrib],
    [hmp_variable_scale_convert] and [__update_entity_runnable_avg], with the
    bounds that make the 32-bit sums safe. *)

From S2P Require Import Prelude.

(** * Data *)

Definition LOAD_AVG_PERIOD : Z := 32.
Definition LOAD_AVG_MAX : Z := 47742.
Definition LOAD_AVG_MAX_N : Z := 345.

(** Precomputed fixed inverse multiplies for multiplication by y^n. *)
Definition runnable_avg_yN_inv : list Z :=
  [ 0xffffffff; 0xfa83b2da; 0xf5257d14; 0xefe4b99a; 0xeac0c6e6; 0xe5b906e6;
    0xe0ccdeeb; 0xdbfbb796; 0xd744fcc9; 0xd2a81d91; 0xce248c14; 0xc9b9bd85;
    0xc5672a10; 0xc12c4cc9; 0xbd08a39e; 0xb8fbaf46; 0xb504f333; 0xb123f581;
    0xad583ee9; 0xa9a15ab4; 0xa5fed6a9; 0xa2704302; 0x9ef5325f; 0x9b8d39b9;
    0x9837f050; 0x94f4efa8; 0x91c3d373; 0x8ea4398a; 0x8b95c1e3; 0x88980e80;
    0x85aac367; 0x82cd8698 ].

(** Precomputed sums of y^k for 1 <= k <= n, in units of 1024. *)
Definition runnable_avg_yN_sum : list Z :=
  [ 0; 1002; 1982; 2941; 3880; 4798; 5697; 6576; 7437; 8279; 9103;
    9909; 10698; 11470; 12226; 12966; 13690; 14398; 15091; 15769; 16433; 17082;
    17718; 18340; 18949; 19545; 20128; 20698; 21256; 21802; 22336; 22859; 23371 ].

(** [t[i]] for an in-range index; the modelled code never reads out of range. *)
Definition table_get (t : list Z) (i : Z) : Z := nth (Z.to_nat i) t 0.

(** [struct sched_avg] *)
Record sched_avg := mk_sched_avg {
  runnable_avg_sum : Z;
  runnable_avg_period : Z;
  last_runnable_update : Z;
  decay_count : Z;
  load_avg_contrib : Z;
  load_avg_ratio : Z;
  hmp_last_up_migration : Z;
  hmp_last_down_migration : Z;
  usage_avg_sum : Z;
}.
#[export] Instance eta_sched_avg : Eta sched_avg := fun r =>
  {| runnable_avg_sum := runnable_avg_sum r;
     runnable_avg_period := runnable_avg_period r;
     last_runnable_update := last_runnable_update r;
     decay_count := decay_count r;
     load_avg_contrib := load_avg_contrib r;
     load_avg_ratio := load_avg_ratio r;
     hmp_last_up_migration := hmp_last_up_migration r;
     hmp_last_down_migration := hmp_last_down_migration r;
     usage_avg_sum := usage_avg_sum r |}.

(** The tunables of [struct hmp_data_struct] that load tracking reads. *)
Record hmp_data_struct := mk_hmp_data {
  freqinvar_load_scale_enabled : Z;
  multiplier : Z;
}.
#[export] Instance eta_hmp_data : Eta hmp_data_struct := fun r =>
  {| freqinvar_load_scale_enabled := freqinvar_load_scale_enabled r;
     multiplier := multiplier r |}.

(** [struct cpufreq_extents]; [const_max] and [throttling] exist with
    CONFIG_SCHED_HMP_ENHANCEMENT only. *)
Record cpufreq_extents := mk_extents {
  curr_scale : Z;
  ext_min : Z;
  ext_max : Z;
  ext_flags : Z;
  const_max : Z;
  throttling : Z;
}.
#[export] Instance eta_extents : Eta cpufreq_extents := fun r =>
  {| curr_scale := curr_scale r; ext_min := ext_min r; ext_max := ext_max r;
     ext_flags := ext_flags r; const_max := const_max r; throttling := throttling r |}.

Definition HMP_VARIABLE_SCALE_SHIFT : Z := 16.
Definition SCHED_FREQSCALE_SHIFT : Z := 10.

(** * Operations *)

(** Approximates [val * y^n] where [y^32 = 1/2]. *)
Definition decay_load (val n : Z) : Z :=
  if n =? 0 then val
  else if LOAD_AVG_PERIOD * 63 <? n then 0
  else
    let local_n := u32 n in
    let '(val, local_n) :=
      if LOAD_AVG_PERIOD <=? local_n
      then (Z.shiftr val (local_n / LOAD_AVG_PERIOD), local_n mod LOAD_AVG_PERIOD)
      else (val, local_n) in
    Z.shiftr (u64 (val * table_get runnable_avg_yN_inv local_n)) 32.

(** The [do ... while (n > LOAD_AVG_PERIOD)] loop of [__compute_runnable_contrib]. *)
Fixpoint contrib_loop (fuel : nat) (contrib n : Z) : Z * Z :=
  match fuel with
  | O => (contrib, n)
  | S fuel =>
      let contrib := u32 (contrib / 2) in
      let contrib := u32 (contrib + table_get runnable_avg_yN_sum LOAD_AVG_PERIOD) in
      let n := u64 (n - LOAD_AVG_PERIOD) in
      if LOAD_AVG_PERIOD <? n then contrib_loop fuel contrib n else (contrib, n)
  end.

(** Iterations after which the loop has always left (see [contrib_loop_exit]). *)
Definition contrib_fuel (n : Z) : nat := Z.to_nat (n / LOAD_AVG_PERIOD + 1).

Definition __compute_runnable_contrib (n : Z) : Z :=
  if n <=? LOAD_AVG_PERIOD then table_get runnable_avg_yN_sum n
  else if LOAD_AVG_MAX_N <=? n then LOAD_AVG_MAX
  else
    let '(contrib, n) := contrib_loop (contrib_fuel n) 0 n in
    let contrib := u32 (decay_load contrib n) in
    u32 (contrib + table_get runnable_avg_yN_sum n).

Section update.
Context `{Config}.
Implicit Types sa : sched_avg.

(** Scales a time delta by the fixed-point factor [hmp_data.multiplier]. *)
Definition hmp_variable_scale_convert (d : hmp_data_struct) (delta : Z) : Z :=
  if CONFIG_HMP_VARIABLE_SCALE then
    let high := Z.shiftr delta 32 in
    let low := Z.land delta 0xffffffff in
    let low := u64 (low * u64 (multiplier d)) in
    let high := u64 (high * u64 (multiplier d)) in
    u64 (Z.shiftr low HMP_VARIABLE_SCALE_SHIFT
         + u64 (Z.shiftl high (32 - HMP_VARIABLE_SCALE_SHIFT)))
  else delta.

(** [sa->runnable_avg_sum += x] if runnable, [sa->usage_avg_sum += x] if running. *)
Definition accrue (runnable running : bool) (x : Z) sa : sched_avg :=
  let sa := if runnable then sa <| runnable_avg_sum := u32 (runnable_avg_sum sa + x) |>
            else sa in
  if running then sa <| usage_avg_sum := u32 (usage_avg_sum sa + x) |> else sa.

(** The scale factor for the load of [cpu]: 1024 stands for 1.0.  It is the frequency's or, with
    CONFIG_ARCH_SCALE_INVARIANT_CPU_CAPACITY only, what [topology_cpu_capacity] returns. *)
Definition load_scale (d : hmp_data_struct) (freq_scale : Z -> cpufreq_extents) (capacity : Z -> Z)
    (nr_cpu_ids cpu : Z) : Z :=
  let known := (0 <=? cpu) && (cpu <? nr_cpu_ids) in
  if CONFIG_HMP_FREQUENCY_INVARIANT_SCALE then
    if known && nonzero (freqinvar_load_scale_enabled d) then curr_scale (freq_scale cpu) else 1024
  else if CONFIG_ARCH_SCALE_INVARIANT_CPU_CAPACITY then
    if known then u32 (capacity cpu) else 1024
  else 1024.

(** Whether load is scaled; both scales have a shift of 10. *)
Definition scaled : bool := CONFIG_HMP_FREQUENCY_INVARIANT_SCALE || CONFIG_ARCH_SCALE_INVARIANT_CPU_CAPACITY.

(** Applies the scale to an amount of runnable time held in 32 bits. *)
Definition scale32 (scale x : Z) : Z :=
  if scaled then Z.shiftr (u32 (x * scale)) SCHED_FREQSCALE_SHIFT else x.
Definition scale64 (scale x : Z) : Z :=
  if scaled then Z.shiftr (u64 (x * scale)) SCHED_FREQSCALE_SHIFT else x.

(** Decays the load accumulated so far by [n] periods. *)
Definition decay_sums (n : Z) sa : sched_avg :=
  let sa := sa <| runnable_avg_sum := u32 (decay_load (runnable_avg_sum sa) n) |> in
  let sa := sa <| runnable_avg_period := u32 (decay_load (runnable_avg_period sa) n) |> in
  sa <| usage_avg_sum := u32 (decay_load (usage_avg_sum sa) n) |>.

(** The body of [if (delta + delta_w >= 1024)]: completes the current period,
    decays what was accumulated and adds the whole periods that [delta] spans.
    Returns the remainder of [delta]. *)
Definition roll_over (scale : Z) (runnable running : bool) (delta delta_w : Z) sa :
    sched_avg * Z :=
  let delta_w := 1024 - delta_w in
  let sa := accrue runnable running (scale32 scale delta_w) sa in
  let sa := sa <| runnable_avg_period := u32 (runnable_avg_period sa + delta_w) |> in
  let delta := u64 (delta - delta_w) in
  let periods := delta / 1024 in
  let delta := delta mod 1024 in
  let n := u64 (periods + 1) in
  let sa := decay_sums n sa in
  let runnable_contrib := __compute_runnable_contrib periods in
  let sa := accrue runnable running (scale32 scale runnable_contrib) sa in
  let sa := sa <| runnable_avg_period :=
                    u32 (runnable_avg_period sa + runnable_contrib) |> in
  (sa, delta).

(** Returns the updated average and whether a period boundary was crossed. *)
Definition __update_entity_runnable_avg (d : hmp_data_struct)
    (freq_scale : Z -> cpufreq_extents) (capacity : Z -> Z) (nr_cpu_ids now : Z) sa
    (runnable running : bool) (cpu : Z) : sched_avg * bool :=
  let delta := u64 (now - last_runnable_update sa) in
  let delta := hmp_variable_scale_convert d delta in
  if s64 delta <? 0 then (sa <| last_runnable_update := now |>, false)
  else
    let delta := Z.shiftr delta 10 in
    if delta =? 0 then (sa, false)
    else
      let sa := sa <| last_runnable_update := now |> in
      let scale := load_scale d freq_scale capacity nr_cpu_ids cpu in
      let delta_w := runnable_avg_period sa mod 1024 in
      let '(sa, delta, decayed) :=
        if 1024 <=? u64 (delta + delta_w)
        then (roll_over scale runnable running delta delta_w sa, true)
        else (sa, delta, false) in
      let sa := accrue runnable running (scale64 scale delta) sa in
      let sa := sa <| runnable_avg_period := u32 (runnable_avg_period sa + delta) |> in
      (sa, decayed).

End update.

(** * Tables *)

(** [zrange n] is [0; 1; ...; n-1]: the finite domains checked by computation. *)
Definition zrange (n : nat) : list Z := Z.of_nat <$> seq 0 n.

Lemma forallb_zrange (f : Z -> bool) n :
  forallb f (zrange n) = true -> forall i, 0 <= i < Z.of_nat n -> f i = true.
Proof.
  rewrite forallb_forall. intros Hf i Hi. apply Hf.
  apply list_elem_of_In. unfold zrange. apply list_elem_of_fmap.
  exists (Z.to_nat i). rewrite elem_of_seq. lia.
Qed.

(** Checks a decidable fact on all of [0 <= i < n] by evaluation. *)
Tactic Notation "by_table" constr(n) constr(f) "as" ident(T) :=
  pose proof (forallb_zrange f n ltac:(vm_compute; reflexivity)) as T;
  cbn beta in T.

Definition inv_at (i : Z) : Z := table_get runnable_avg_yN_inv i.

Lemma inv_at_bounds i : 0 <= i < 32 -> 2 ^ 31 < inv_at i <= 2 ^ 32 - 1.
Proof.
  by_table 32%nat (fun i => (2 ^ 31 <? inv_at i) && (inv_at i <=? 2 ^ 32 - 1)) as T.
  intros Hi. specialize (T i). lia.
Qed.

Lemma inv_at_step i : 0 <= i < 31 -> inv_at (i + 1) < inv_at i.
Proof.
  by_table 31%nat (fun i => inv_at (i + 1) <? inv_at i) as T.
  intros Hi. specialize (T i). lia.
Qed.

(** * [decay_load] *)

(** In range the 64-bit product cannot overflow, and [decay_load] is the
    expression it abbreviates. *)
Lemma decay_load_exact v n :
  0 <= v < 2 ^ 32 -> 0 < n <= 2016 ->
  decay_load v n = v / 2 ^ (n / 32) * inv_at (n mod 32) / 2 ^ 32.
Proof.
  intros Hv Hn. unfold decay_load, LOAD_AVG_PERIOD.
  destruct (Z.eqb_spec n 0); [lia|]. destruct (Z.ltb_spec (32 * 63) n); [lia|].
  rewrite (u32_id n) by lia.
  assert (Hm : 0 <= n mod 32 < 32) by (apply Z.mod_pos_bound; lia).
  pose proof (inv_at_bounds (n mod 32) Hm).
  assert (Hd : 0 <= v / 2 ^ (n / 32) <= v)
    by (apply div_le_self; [lia | apply pow2_pos, Z.div_pos; lia]).
  destruct (Z.leb_spec 32 n).
  - rewrite (shiftr_div v) by (apply Z.div_pos; lia). fold (inv_at (n mod 32)).
    rewrite shiftr_div, u64_id by nia. done.
  - rewrite (Z.div_small n 32), (Z.mod_small n 32), Z.pow_0_r, Z.div_1_r in * by lia.
    fold (inv_at n). rewrite shiftr_div, u64_id by nia. done.
Qed.

Lemma decay_load_0 v : decay_load v 0 = v.
Proof. done. Qed.

Lemma decay_load_far v n : 2016 < n -> decay_load v n = 0.
Proof.
  intros. unfold decay_load, LOAD_AVG_PERIOD.
  destruct (Z.eqb_spec n 0); [lia|]. destruct (Z.ltb_spec (32 * 63) n); [done|lia].
Qed.

(** Case analysis on the three regimes of [decay_load]. *)
Ltac decay_cases n :=
  destruct (decide (n = 0)) as [->|];
  [| destruct (decide (2016 < n)); [rewrite ?decay_load_far by lia |]].

Lemma decay_load_nonneg v n : 0 <= v < 2 ^ 32 -> 0 <= n -> 0 <= decay_load v n.
Proof.
  intros Hv Hn. decay_cases n; [rewrite decay_load_0; lia|lia|].
  rewrite decay_load_exact by lia. pose proof (inv_at_bounds (n mod 32)).
  assert (0 <= n mod 32 < 32) by (apply Z.mod_pos_bound; lia).
  assert (0 <= v / 2 ^ (n / 32) <= v)
    by (apply div_le_self; [lia | apply pow2_pos, Z.div_pos; lia]).
  apply Z.div_pos; nia.
Qed.

Lemma decay_load_mono v1 v2 n :
  0 <= v1 <= v2 -> v2 < 2 ^ 32 -> 0 <= n -> decay_load v1 n <= decay_load v2 n.
Proof.
  intros Hv Hv2 Hn. decay_cases n; [rewrite !decay_load_0; lia|lia|].
  rewrite !decay_load_exact by lia. pose proof (inv_at_bounds (n mod 32)).
  assert (0 <= n mod 32 < 32) by (apply Z.mod_pos_bound; lia).
  assert (v1 / 2 ^ (n / 32) <= v2 / 2 ^ (n / 32)).
  { apply Z.div_le_mono; [|lia]. apply pow2_pos, Z.div_pos; lia. }
  apply Z.div_le_mono; nia.
Qed.

Lemma decay_load_le v n : 0 <= v < 2 ^ 32 -> 0 <= n -> decay_load v n <= v.
Proof.
  intros Hv Hn. decay_cases n; [rewrite decay_load_0; lia|lia|].
  rewrite decay_load_exact by lia. pose proof (inv_at_bounds (n mod 32)).
  assert (0 <= n mod 32 < 32) by (apply Z.mod_pos_bound; lia).
  assert (0 <= v / 2 ^ (n / 32) <= v)
    by (apply div_le_self; [lia | apply pow2_pos, Z.div_pos; lia]).
  apply Z.div_le_upper_bound; nia.
Qed.

Lemma decay_load_bounds v n : 0 <= v < 2 ^ 32 -> 0 <= n -> 0 <= decay_load v n <= v.
Proof. intros. split; [by apply decay_load_nonneg | by apply decay_load_le]. Qed.

(** A longer sleep never leaves more load. *)
Lemma decay_load_antitone_step v n :
  0 <= v < 2 ^ 32 -> 0 <= n -> decay_load v (n + 1) <= decay_load v n.
Proof.
  intros Hv Hn. destruct (decide (n = 0)) as [->|].
  { rewrite decay_load_0. by apply decay_load_le. }
  destruct (decide (2016 < n + 1)).
  { rewrite (decay_load_far v (n + 1)) by lia. by apply decay_load_nonneg. }
  rewrite !decay_load_exact by lia.
  assert (Hm : 0 <= n mod 32 < 32) by (apply Z.mod_pos_bound; lia).
  assert (Hq : 0 <= n / 32) by (apply Z.div_pos; lia).
  pose proof (Z.div_mod n 32 ltac:(lia)) as Hdm.
  pose proof (inv_at_bounds (n mod 32) Hm).
  assert (0 <= v / 2 ^ (n / 32) <= v) by (apply div_le_self; [lia | by apply pow2_pos]).
  destruct (decide (n mod 32 = 31)) as [Hr|Hr].
  - replace ((n + 1) / 32) with (n / 32 + 1)
      by (apply (Z.div_unique _ _ _ 0); lia).
    replace ((n + 1) mod 32) with 0 by (apply (Z.mod_unique _ _ (n / 32 + 1)); lia).
    rewrite Z.pow_add_r, <- Z.div_div by (try lia; by apply pow2_pos).
    rewrite Hr in *. set (w := v / 2 ^ (n / 32)) in *.
    pose proof (div_floor_bounds w 2 ltac:(lia)).
    apply Z.div_le_mono; [lia|]. change (2 ^ 1) with 2. change (inv_at 0) with (2 ^ 32 - 1).
    change (inv_at 31) with 0x82cd8698. nia.
  - replace ((n + 1) / 32) with (n / 32) by (apply (Z.div_unique _ _ _ (n mod 32 + 1)); lia).
    replace ((n + 1) mod 32) with (n mod 32 + 1) by (apply (Z.mod_unique _ _ (n / 32)); lia).
    pose proof (inv_at_step (n mod 32) ltac:(lia)).
    apply Z.div_le_mono; nia.
Qed.

Lemma decay_load_antitone v n m :
  0 <= v < 2 ^ 32 -> 0 <= n <= m -> decay_load v m <= decay_load v n.
Proof.
  intros Hv [Hn Hm]. replace m with (n + Z.of_nat (Z.to_nat (m - n))) by lia.
  induction (Z.to_nat (m - n)) as [|k IH]; [by rewrite Z.add_0_r|].
  rewrite Nat2Z.inj_succ, <- Z.add_1_r, Z.add_assoc.
  pose proof (decay_load_antitone_step v (n + Z.of_nat k)). lia.
Qed.

(** Half-life: 32 further periods of decay are exactly one halving, the
    result never grows with time or shrinks with load, and it stays below the
    load it started from.  (The load is any 32-bit sum, for which the 64-bit
    product inside [decay_load] cannot overflow.) *)
Theorem decay_load_half_life v n :
  0 <= v < 2 ^ 32 -> 0 < n ->
  decay_load v (n + LOAD_AVG_PERIOD) = (if n <=? 1984 then decay_load (v / 2) n else 0)
  /\ (forall w m, 0 <= w <= v -> n <= m -> decay_load w m <= decay_load v n)
  /\ 0 <= decay_load v n <= v.
Proof.
  intros Hv Hn. unfold LOAD_AVG_PERIOD. split_and!.
  - destruct (Z.leb_spec n 1984); [|by apply decay_load_far; lia].
    pose proof (div_le_self v 2 ltac:(lia) ltac:(lia)).
    assert (0 <= n / 32) by (apply Z.div_pos; lia).
    rewrite !decay_load_exact by lia.
    replace (n + 32) with (n + 1 * 32) by lia.
    rewrite Z.div_add, Z.mod_add by lia.
    rewrite Z.add_comm, Z.pow_add_r by lia. rewrite Z.div_div by (lia || by apply pow2_pos).
    done.
  - intros w m Hw Hm. etransitivity; [apply (decay_load_antitone w n m); lia|].
    apply decay_load_mono; lia.
  - apply decay_load_nonneg; lia.
  - apply decay_load_le; lia.
Qed.

Lemma decay_load_half_life_witness :
  decay_load 1000 (5 + LOAD_AVG_PERIOD) = decay_load 500 5 /\ decay_load 1000 5 = 897.
Proof.
  destruct (decay_load_half_life 1000 5 ltac:(lia) ltac:(lia)) as (-> & _ & _).
  split; vm_compute; reflexivity.
Defined.

(** The tables hold what the comments promise: [runnable_avg_yN_inv[i]] is
    below [2^32 * y^i] by less than two units, with [y^32 = 1/2] (raised to the 32nd
    power to stay in the integers), so decay always rounds down; each [runnable_avg_yN_sum] entry is one period of decay
    after the previous one plus a full period, and [LOAD_AVG_MAX] is the fixed
    point of that one-period step when the current period is counted. *)
Theorem load_tables_correct :
  (forall i, 0 <= i < LOAD_AVG_PERIOD ->
     table_get runnable_avg_yN_inv i ^ 32 * 2 ^ i < 2 ^ 1024
       < (table_get runnable_avg_yN_inv i + 2) ^ 32 * 2 ^ i)
  /\ (forall n, 0 <= n < LOAD_AVG_PERIOD ->
        table_get runnable_avg_yN_sum (n + 1)
        = decay_load (table_get runnable_avg_yN_sum n + 1024) 1)
  /\ decay_load LOAD_AVG_MAX 1 + 1024 = LOAD_AVG_MAX.
Proof.
  split_and!; [| |done].
  - by_table 32%nat (fun i =>
      (table_get runnable_avg_yN_inv i ^ 32 * 2 ^ i <? 2 ^ 1024)
      && (2 ^ 1024 <? (table_get runnable_avg_yN_inv i + 2) ^ 32 * 2 ^ i)) as T.
    intros i Hi. specialize (T i Hi). apply andb_true_iff in T as [H1 H2].
    by apply Z.ltb_lt in H1, H2.
  - by_table 32%nat (fun n => table_get runnable_avg_yN_sum (n + 1)
      =? decay_load (table_get runnable_avg_yN_sum n + 1024) 1) as T.
    intros n Hn. specialize (T n Hn). by apply Z.eqb_eq.
Qed.

(** * [__compute_runnable_contrib] *)

(** The reference: [k] successive single-period updates of an always-runnable
    entity, each adding a full period and decaying once. *)
Fixpoint contrib_by_periods (k : nat) : Z :=
  match k with
  | O => 0
  | S k => decay_load (contrib_by_periods k + 1024) 1
  end.

(** The loop always leaves within its fuel, with [n] reduced below the period. *)
Lemma contrib_loop_exit fuel contrib n :
  LOAD_AVG_PERIOD < n < 2 ^ 64 -> (Z.to_nat (n / LOAD_AVG_PERIOD + 1) <= fuel)%nat ->
  0 < (contrib_loop fuel contrib n).2 <= LOAD_AVG_PERIOD.
Proof.
  unfold LOAD_AVG_PERIOD. revert contrib n.
  induction fuel as [|fuel IH]; intros contrib n Hn Hf; simpl.
  { pose proof (Z.div_pos n 32). lia. }
  unfold LOAD_AVG_PERIOD. rewrite (u64_id (n - 32)) by lia.
  destruct (Z.ltb_spec 32 (n - 32)); [|simpl; lia].
  apply IH; [lia|]. replace (n - 32) with (n + (-1) * 32) by lia.
  rewrite Z.div_add by lia. pose proof (Z.div_pos n 32). lia.
Qed.

Lemma contrib_by_periods_S k :
  contrib_by_periods (S k) = decay_load (contrib_by_periods k + 1024) 1.
Proof. done. Qed.

Lemma contrib_by_periods_fix k : contrib_by_periods (346 + k) = 46718.
Proof.
  induction k as [|k IH]; [vm_compute; done|].
  by rewrite Nat.add_succ_r, contrib_by_periods_S, IH.
Qed.

(** Walks the closed form and the iteration side by side from period [k]. *)
Fixpoint contrib_close (steps : nat) (k r : Z) : bool :=
  match steps with
  | O => true
  | S steps =>
      (Z.abs (__compute_runnable_contrib k - r) <=? 4)
      && contrib_close steps (k + 1) (decay_load (r + 1024) 1)
  end.

Lemma contrib_close_spec steps k r :
  contrib_close steps (Z.of_nat k) r = true -> contrib_by_periods k = r ->
  forall i, (i < steps)%nat ->
  Z.abs (__compute_runnable_contrib (Z.of_nat (k + i)) - contrib_by_periods (k + i)) <= 4.
Proof.
  revert k r. induction steps as [|steps IH]; intros k r Hc Hr i Hi; [lia|].
  simpl in Hc. apply andb_true_iff in Hc as [H1 H2]. apply Z.leb_le in H1.
  destruct i as [|i]; [by rewrite Nat.add_0_r, Hr|].
  rewrite Nat.add_succ_r, <- Nat.add_succ_l.
  apply (IH (S k) (decay_load (r + 1024) 1)); [|by rewrite contrib_by_periods_S, Hr|lia].
  by replace (Z.of_nat (S k)) with (Z.of_nat k + 1) by lia.
Qed.

(** C35. [__compute_runnable_contrib n] terminates for every [n] (its loop leaves
    with [0 < n <= 32] within the fuel), never exceeds [LOAD_AVG_MAX], and for
    fewer than [LOAD_AVG_MAX_N] periods is within 4 units of iterating the
    single-period update [n] times.  From [LOAD_AVG_MAX_N] periods on it
    saturates at [LOAD_AVG_MAX], which is one whole period (1024) above the
    limit of that iteration. *)
Theorem compute_runnable_contrib_spec n :
  0 <= n < 2 ^ 64 ->
  (LOAD_AVG_PERIOD < n -> 0 < (contrib_loop (contrib_fuel n) 0 n).2 <= LOAD_AVG_PERIOD)
  /\ 0 <= __compute_runnable_contrib n <= LOAD_AVG_MAX
  /\ (n < LOAD_AVG_MAX_N ->
      Z.abs (__compute_runnable_contrib n - contrib_by_periods (Z.to_nat n)) <= 4)
  /\ (LOAD_AVG_MAX_N < n ->
      __compute_runnable_contrib n = contrib_by_periods (Z.to_nat n) + 1024).
Proof.
  intros Hn. split_and!.
  - intros. apply contrib_loop_exit; [lia|done].
  - destruct (decide (n < 345)).
    + by_table 345%nat (fun n => 0 <=? __compute_runnable_contrib n) as T.
      specialize (T n). lia.
    + unfold __compute_runnable_contrib, LOAD_AVG_PERIOD, LOAD_AVG_MAX_N, LOAD_AVG_MAX.
      destruct (Z.leb_spec n 32), (Z.leb_spec 345 n); lia.
  - destruct (decide (n < 345)).
    + by_table 345%nat (fun n => __compute_runnable_contrib n <=? LOAD_AVG_MAX) as T.
      specialize (T n). lia.
    + unfold __compute_runnable_contrib, LOAD_AVG_PERIOD, LOAD_AVG_MAX_N, LOAD_AVG_MAX.
      destruct (Z.leb_spec n 32), (Z.leb_spec 345 n); lia.
  - unfold LOAD_AVG_MAX_N. intros.
    pose proof (contrib_close_spec 345 0 0 ltac:(vm_compute; reflexivity) eq_refl
                  (Z.to_nat n) ltac:(lia)) as T.
    by rewrite Nat.add_0_l, Z2Nat.id in T by lia.
  - unfold LOAD_AVG_MAX_N. intros.
    replace (Z.to_nat n) with (346 + Z.to_nat (n - 346))%nat by lia.
    rewrite contrib_by_periods_fix.
    unfold __compute_runnable_contrib, LOAD_AVG_PERIOD, LOAD_AVG_MAX_N, LOAD_AVG_MAX.
    destruct (Z.leb_spec n 32), (Z.leb_spec 345 n); lia.
Qed.

Lemma compute_runnable_contrib_spec_witness :
  __compute_runnable_contrib 400 = contrib_by_periods 400 + 1024
  /\ Z.abs (__compute_runnable_contrib 100 - contrib_by_periods 100) <= 4.
Proof.
  split.
  - destruct (compute_runnable_contrib_spec 400 ltac:(lia)) as (_ & _ & _ & H).
    apply H. reflexivity.
  - destruct (compute_runnable_contrib_spec 100 ltac:(lia)) as (_ & _ & H & _).
    apply H. reflexivity.
Defined.

(** * The running averages *)

(** The largest value of the averaging period: 48 periods of 1024us, less one. *)
Definition AVG_BOUND : Z := 48 * 1024 - 1.

(** Type invariant of a tracked entity: running time never exceeds runnable time,
    runnable time never exceeds the period, and the period is bounded. *)
Definition avg_ok (sa : sched_avg) : Prop :=
  0 <= usage_avg_sum sa <= runnable_avg_sum sa
  /\ runnable_avg_sum sa <= runnable_avg_period sa <= AVG_BOUND.

#[export] Instance avg_ok_dec sa : Decision (avg_ok sa).
Proof. unfold avg_ok. apply _. Defined.

Lemma contrib_bounds n :
  0 <= n < 2 ^ 64 -> 0 <= __compute_runnable_contrib n <= LOAD_AVG_MAX.
Proof.
  intros Hn. unfold LOAD_AVG_MAX. destruct (decide (n < 345)).
  - by_table 345%nat (fun n => (0 <=? __compute_runnable_contrib n)
                               && (__compute_runnable_contrib n <=? 47742)) as T.
    specialize (T n). lia.
  - unfold __compute_runnable_contrib, LOAD_AVG_PERIOD, LOAD_AVG_MAX_N, LOAD_AVG_MAX.
    destruct (Z.leb_spec n 32), (Z.leb_spec 345 n); lia.
Qed.

(** A full averaging period, decayed over any roll-over and topped up, is back
    within the bound. *)
Lemma roll_over_bound k :
  0 <= k < 2 ^ 64 ->
  decay_load (AVG_BOUND + 1) (k + 1) + __compute_runnable_contrib k + 1023 <= AVG_BOUND.
Proof.
  intros Hk. unfold AVG_BOUND. destruct (decide (k < 345)).
  - by_table 345%nat (fun k => decay_load (48 * 1024 - 1 + 1) (k + 1)
                       + __compute_runnable_contrib k + 1023 <=? 48 * 1024 - 1) as T.
    specialize (T k). lia.
  - pose proof (decay_load_antitone (48 * 1024 - 1 + 1) 346 (k + 1) ltac:(lia) ltac:(lia)) as Hd.
    change (decay_load (48 * 1024 - 1 + 1) 346) with 27 in Hd.
    pose proof (contrib_bounds k Hk). unfold LOAD_AVG_MAX in *. lia.
Qed.

Section invariant.
Context `{Config}.

(** Scales are at most [m] times 1.0, and for [m <= 64] products fit in 32 bits.  [ord] tells
    whether the running entities are the runnable ones only. *)
Section bounded.
Context (m : Z) (m_range : 1 <= m <= 64) (ord : Prop).

Lemma scaled_le s x M : 0 <= s <= 1024 * m -> 0 <= x < 2 ^ 16 -> 2 ^ 32 <= M ->
  0 <= Z.shiftr ((x * s) mod M) SCHED_FREQSCALE_SHIFT <= m * x.
Proof using m_range.
  intros Hs Hx HM. unfold SCHED_FREQSCALE_SHIFT. rewrite shiftr_div by lia.
  rewrite (Z.mod_small (x * s) M) by nia. split; [apply Z.div_pos; nia|].
  apply Z.div_le_upper_bound; nia.
Qed.

Lemma scale32_bounds s x : 0 <= s <= 1024 * m -> 0 <= x < 2 ^ 16 -> 0 <= scale32 s x <= m * x.
Proof using m_range. intros. unfold scale32. destruct scaled; [by apply scaled_le | nia]. Qed.

Lemma scale64_bounds s x : 0 <= s <= 1024 * m -> 0 <= x < 2 ^ 16 -> 0 <= scale64 s x <= m * x.
Proof using m_range. intros. unfold scale64. destruct scaled; [by apply scaled_le | nia]. Qed.

(** The period below a ceiling, and the sums below [m] times the period.  Decay rounds the
    period and its multiples apart: the room for that is [slack]. *)
Definition slack : Z := if m =? 1 then 0 else 200.
Record sums_below (b : Z) (sa : sched_avg) : Prop := {
  sb_period : 0 <= runnable_avg_period sa <= b;
  sb_usage : 0 <= usage_avg_sum sa <= m * (runnable_avg_period sa + slack);
  sb_runnable : 0 <= runnable_avg_sum sa <= m * (runnable_avg_period sa + slack);
  sb_ord : ord -> usage_avg_sum sa <= runnable_avg_sum sa;
}.

Lemma slack_range : 0 <= slack <= 200.
Proof using. unfold slack. destruct (m =? 1); lia. Qed.

(** Accruing [x] to the sums and [p] to the period raises the ceiling by [p]. *)
Lemma accrue_below b sa runnable running x p :
  sums_below b sa -> (ord -> running = true -> runnable = true) ->
  0 <= x <= m * p -> 0 <= p -> b + p < 2 ^ 17 ->
  sums_below (b + p)
    (accrue runnable running x sa
       <| runnable_avg_period :=
            u32 (runnable_avg_period (accrue runnable running x sa) + p) |>).
Proof using m_range.
  intros [Hp Hu Hr Ho] Hrun Hx Hp0 Hb. pose proof slack_range.
  assert (E : forall q, m * (q + p + slack) = m * (q + slack) + m * p) by (intros; lia).
  assert (m * (runnable_avg_period sa + slack) + m * p < 2 ^ 32) by nia.
  split; unfold accrue; destruct runnable, running; cbn; rewrite ?u32_id, ?E by lia; try lia;
    intros Hx1; specialize (Ho Hx1); specialize (Hrun Hx1); try lia.
Qed.

(** Decay of a multiple, as against the multiple of what decays. *)
Lemma decay_load_scaled v n :
  0 <= v < 2 ^ 18 -> 0 < n -> decay_load (m * v) n <= m * (decay_load v n + 2).
Proof using m_range.
  intros Hv Hn. destruct (decide (2016 < n)); [rewrite !decay_load_far by done; lia|].
  rewrite !decay_load_exact by nia. set (e := 2 ^ (n / 32)).
  assert (He : 0 < e) by (apply pow2_pos, Z.div_pos; lia).
  pose proof (inv_at_bounds (n mod 32) ltac:(apply Z.mod_pos_bound; lia)) as Hi.
  set (w := inv_at (n mod 32)) in *.
  assert (H1 : m * v / e <= m * (v / e + 1)).
  { apply Z.lt_le_incl, Z.div_lt_upper_bound; [done|]. pose proof (div_floor_bounds v e He). nia. }
  assert (H0 : 0 <= v / e) by (apply Z.div_pos; lia).
  etrans; [apply (Z.div_le_mono _ (m * (v / e + 1) * w)); nia|].
  pose proof (div_floor_bounds (v / e * w) (2 ^ 32) ltac:(lia)).
  apply Z.lt_le_incl, Z.div_lt_upper_bound; [lia|]. nia.
Qed.

(** The room for rounding decays by more than the rounding of one decay. *)
Lemma decay_load_slack v n :
  0 <= v < 2 ^ 17 -> 0 < n -> decay_load (v + 200) n + 2 <= decay_load v n + 200.
Proof using.
  intros Hv Hn. destruct (decide (2016 < n)); [rewrite !decay_load_far by done; lia|].
  rewrite !decay_load_exact by lia.
  assert (Hm : 0 <= n mod 32 < 32) by (apply Z.mod_pos_bound; lia).
  assert (Hq : 0 <= n / 32) by (apply Z.div_pos; lia).
  pose proof (inv_at_bounds (n mod 32) Hm) as Hi.
  assert (0 <= v / 2 ^ (n / 32)) by (apply Z.div_pos; [lia|by apply pow2_pos]).
  assert (Hd : exists d, 0 <= d /\ (v + 200) / 2 ^ (n / 32) = v / 2 ^ (n / 32) + d
                    /\ d * inv_at (n mod 32) <= 196 * 2 ^ 32).
  { destruct (decide (n < 32)) as [Hlt|].
    - exists 200. rewrite (Z.div_small n 32), Z.pow_0_r, !Z.div_1_r, (Z.mod_small n 32) by lia.
      split_and!; [lia|done|].
      by_table 32%nat (fun i => (i =? 0) || (200 * inv_at i <=? 196 * 2 ^ 32)) as T.
      specialize (T n). lia.
    - assert (He : 2 <= 2 ^ (n / 32)).
      { change 2 with (2 ^ 1) at 1. apply Z.pow_le_mono_r; [lia|]. apply Z.div_le_lower_bound; lia. }
      set (e := 2 ^ (n / 32)) in *. exists ((v + 200) / e - v / e).
      pose proof (div_floor_bounds v e ltac:(lia)). pose proof (div_floor_bounds (v + 200) e ltac:(lia)).
      assert (0 <= (v + 200) / e - v / e <= 101) by nia. split_and!; [lia|lia|]. nia. }
  destruct Hd as (d & Hd0 & -> & Hd). rewrite Z.mul_add_distr_r.
  set (a := v / 2 ^ (n / 32) * inv_at (n mod 32)). set (c := d * inv_at (n mod 32)) in *.
  assert ((a + c) / 2 ^ 32 <= (a + 196 * 2 ^ 32) / 2 ^ 32) by (apply Z.div_le_mono; lia).
  rewrite Z.div_add in * by lia. lia.
Qed.

(** A sum below [m] times the period, with the slack, still is after both have decayed. *)
Lemma decay_load_below x v n :
  0 <= x <= m * (v + slack) -> 0 <= v < 2 ^ 17 -> 0 < n ->
  0 <= decay_load x n <= m * (decay_load v n + slack).
Proof using m_range.
  intros Hx Hv Hn. pose proof slack_range as Hs.
  split; [apply decay_load_nonneg; nia|].
  etrans; [apply (decay_load_mono x (m * (v + slack))); nia|].
  unfold slack in *. destruct (Z.eqb_spec m 1) as [->|].
  - rewrite !Z.mul_1_l, !Z.add_0_r. lia.
  - pose proof (decay_load_scaled (v + 200) n ltac:(lia) Hn).
    pose proof (decay_load_slack v n Hv Hn). nia.
Qed.

(** Decay keeps the order of the sums, below the decayed ceiling. *)
Lemma decay_below b sa n :
  sums_below b sa -> b < 2 ^ 17 -> 0 < n -> sums_below (decay_load b n) (decay_sums n sa).
Proof using m_range.
  intros [Hp Hu Hr Ho] Hb Hn. pose proof slack_range.
  pose proof (decay_load_below _ _ n Hu ltac:(lia) Hn).
  pose proof (decay_load_below _ _ n Hr ltac:(lia) Hn).
  pose proof (decay_load_bounds (runnable_avg_period sa) n ltac:(lia) ltac:(lia)).
  pose proof (decay_load_mono (runnable_avg_period sa) b n).
  assert (m * (decay_load (runnable_avg_period sa) n + slack) < 2 ^ 32) by nia.
  assert (m * (runnable_avg_period sa + slack) < 2 ^ 32) by nia.
  split; unfold decay_sums; cbn; rewrite ?u32_id by lia; try lia.
  intros G%Ho. apply decay_load_mono; lia.
Qed.

Lemma sums_below_weaken b b' sa : sums_below b sa -> b <= b' -> sums_below b' sa.
Proof using. intros [] Hb. split; auto; lia. Qed.

Lemma sums_below_self b sa : sums_below b sa -> sums_below (runnable_avg_period sa) sa.
Proof using. intros []. split; auto; lia. Qed.

Lemma roll_over_below s runnable running delta sa :
  sums_below AVG_BOUND sa -> 0 <= s <= 1024 * m -> (ord -> running = true -> runnable = true) ->
  0 <= delta < 2 ^ 54 -> 1024 <= delta + runnable_avg_period sa mod 1024 ->
  let k := (delta - (1024 - runnable_avg_period sa mod 1024)) / 1024 in
  let '(sa', rest) := roll_over s runnable running delta (runnable_avg_period sa mod 1024) sa in
  sums_below (decay_load (AVG_BOUND + 1) (k + 1) + __compute_runnable_contrib k) sa'
  /\ 0 <= k < 2 ^ 54 /\ 0 <= rest < 1024.
Proof using m_range.
  intros Hsa Hsc Hr Hd Hge k. unfold roll_over.
  pose proof (sb_period _ _ Hsa) as HP. pose proof (sums_below_self _ _ Hsa) as Hself.
  set (P := runnable_avg_period sa) in *.
  assert (Hw : 0 <= P mod 1024 < 1024) by (apply Z.mod_pos_bound; lia).
  set (dw := 1024 - P mod 1024) in *.
  rewrite (u64_id (delta - dw)) by lia. fold k.
  assert (Hk : 0 <= k < 2 ^ 54).
  { unfold k. split; [apply Z.div_pos; lia|]. apply Z.div_lt_upper_bound; lia. }
  rewrite (u64_id (k + 1)) by lia.
  assert (Hc := contrib_bounds k ltac:(lia)). unfold LOAD_AVG_MAX in Hc.
  split_and!; [|lia|lia|apply Z.mod_pos_bound; lia|apply Z.mod_pos_bound; lia].
  assert (Hp : P + dw <= AVG_BOUND + 1).
  { pose proof (Z.div_mod P 1024 ltac:(lia)).
    unfold AVG_BOUND in *. pose proof (Z.div_lt_upper_bound P 1024 48). lia. }
  pose proof (roll_over_bound k ltac:(lia)).
  apply accrue_below; [|done|apply scale32_bounds; lia|lia|unfold AVG_BOUND in *; lia].
  apply (decay_below (AVG_BOUND + 1)); [|unfold AVG_BOUND; lia|lia].
  apply (sums_below_weaken (P + dw)); [|done].
  apply (accrue_below P); [done|done|apply scale32_bounds; lia|lia|unfold AVG_BOUND in *; lia].
Qed.

(** The bounds across one update. *)
Lemma update_below d freq_scale capacity nr_cpu_ids now sa runnable running cpu :
  sums_below AVG_BOUND sa -> (ord -> running = true -> runnable = true) ->
  0 <= load_scale d freq_scale capacity nr_cpu_ids cpu <= 1024 * m ->
  sums_below AVG_BOUND
    (__update_entity_runnable_avg d freq_scale capacity nr_cpu_ids now sa runnable running cpu).1.
Proof using m_range.
  intros Hsa Hr Hsc. unfold __update_entity_runnable_avg.
  set (delta := hmp_variable_scale_convert d _).
  destruct (Z.ltb_spec (s64 delta) 0) as [|Hpos]; [by destruct Hsa|].
  assert (Hdelta : 0 <= Z.shiftr delta 10 < 2 ^ 54).
  { assert (0 <= delta < 2 ^ 64) as Hb.
    { unfold delta, hmp_variable_scale_convert.
      destruct CONFIG_HMP_VARIABLE_SCALE; apply u64_range. }
    rewrite shiftr_div by lia.
    split; [apply Z.div_pos; lia | apply Z.div_lt_upper_bound; lia]. }
  destruct (Z.eqb_spec (Z.shiftr delta 10) 0); [exact Hsa|].
  set (dl := Z.shiftr delta 10) in *. set (sc := load_scale _ _ _ _ _) in *.
  set (sa0 := sa <| last_runnable_update := now |>).
  assert (H0 : sums_below AVG_BOUND sa0) by (by destruct Hsa).
  assert (Hw : 0 <= runnable_avg_period sa0 mod 1024 < 1024) by (apply Z.mod_pos_bound; lia).
  rewrite (u64_id (dl + _)) by lia.
  destruct (Z.leb_spec 1024 (dl + runnable_avg_period sa0 mod 1024)).
  - pose proof (roll_over_below sc runnable running dl sa0 H0 Hsc Hr Hdelta ltac:(lia)) as Hro.
    cbn zeta in Hro. destruct (roll_over _ _ _ _ _ _) as [sa' rest].
    destruct Hro as (Hb & Hk & Hrest). cbn [fst].
    set (k := (_ - _) / 1024) in *.
    pose proof (roll_over_bound k ltac:(lia)) as Hle.
    eapply sums_below_weaken;
      [apply accrue_below; [exact Hb|done|apply scale64_bounds; lia|lia|]|];
      unfold AVG_BOUND in *; lia.
  - cbn [fst]. pose proof (sb_period _ _ H0). pose proof (sums_below_self _ _ H0).
    pose proof (Z.div_mod (runnable_avg_period sa0) 1024 ltac:(lia)).
    pose proof (Z.div_lt_upper_bound (runnable_avg_period sa0) 1024 48). unfold AVG_BOUND in *.
    apply (sums_below_weaken (runnable_avg_period sa0 + dl)); [|lia].
    apply accrue_below; [done|done|apply scale64_bounds; lia|lia|lia].
Qed.
End bounded.

Lemma avg_ok_below sa : avg_ok sa <-> sums_below 1 True AVG_BOUND sa.
Proof.
  assert (E : slack 1 = 0) by done. unfold avg_ok. split; [intros; split; rewrite ?E; lia|].
  intros [Hp Hu Hr Ho]. specialize (Ho I). rewrite E in *. lia.
Qed.

(** The invariant across one update, with scales of at most 1.0 and a running entity that is
    runnable. *)
Lemma update_keeps_avg_ok d freq_scale capacity nr_cpu_ids now sa runnable running cpu :
  avg_ok sa -> (running = true -> runnable = true) ->
  0 <= load_scale d freq_scale capacity nr_cpu_ids cpu <= 1024 ->
  avg_ok (__update_entity_runnable_avg d freq_scale capacity nr_cpu_ids now sa runnable running cpu).1.
Proof. rewrite !avg_ok_below. intros. apply update_below; auto; lia. Qed.

(** The runnable part of the invariant, which does not depend on [running]. *)
Definition sums_ok sa : Prop :=
  0 <= runnable_avg_sum sa <= runnable_avg_period sa /\ runnable_avg_period sa <= AVG_BOUND.

Lemma update_running_irrelevant d freq_scale capacity nr_cpu_ids now sa runnable running cpu :
  let f sa running :=
    (__update_entity_runnable_avg d freq_scale capacity nr_cpu_ids now sa runnable running cpu).1 in
  runnable_avg_sum (f sa running) = runnable_avg_sum (f (sa <| usage_avg_sum := 0 |>) false)
  /\ runnable_avg_period (f sa running)
     = runnable_avg_period (f (sa <| usage_avg_sum := 0 |>) false).
Proof.
  unfold __update_entity_runnable_avg, roll_over, decay_sums, accrue.
  simpl. repeat (case_match; simpl); auto; simplify_eq; auto.
Qed.

Lemma update_keeps_sums_ok d freq_scale capacity nr_cpu_ids now sa runnable running cpu :
  sums_ok sa -> 0 <= load_scale d freq_scale capacity nr_cpu_ids cpu <= 1024 ->
  sums_ok (__update_entity_runnable_avg d freq_scale capacity nr_cpu_ids now sa runnable running cpu).1.
Proof.
  intros [Hs Hp] Hsc.
  destruct (update_running_irrelevant d freq_scale capacity nr_cpu_ids now sa runnable running cpu)
    as [E1 E2]. unfold sums_ok. rewrite E1, E2.
  pose proof (update_keeps_avg_ok d freq_scale capacity nr_cpu_ids now (sa <| usage_avg_sum := 0 |>)
                runnable false cpu) as K.
  unfold avg_ok in K. simpl in K. destruct K as [K1 K2]; [lia|done|done|]. lia.
Qed.

(** The fields an update of the sums leaves alone. *)
Lemma update_keeps_fields d freq_scale capacity nr_cpu_ids now sa runnable running cpu :
  let sa' := (__update_entity_runnable_avg d freq_scale capacity nr_cpu_ids now sa runnable running cpu).1 in
  load_avg_contrib sa' = load_avg_contrib sa /\ load_avg_ratio sa' = load_avg_ratio sa
  /\ decay_count sa' = decay_count sa.
Proof.
  unfold __update_entity_runnable_avg, roll_over, decay_sums, accrue.
  simpl. repeat (case_match; simpl); auto; simplify_eq; auto.
Qed.

(** One update: the clock, whether the entity is runnable and running, the CPU and
    the frequency scales and tunables in force. *)
Record avg_event := mk_event {
  ev_now : Z;
  ev_runnable : bool;
  ev_running : bool;
  ev_cpu : Z;
  ev_freq : Z -> cpufreq_extents;
  ev_capacity : Z -> Z;
  ev_data : hmp_data_struct;
}.

(** The scale in force is at most [m] times 1.0. *)
Definition event_ok (nr_cpu_ids m : Z) (e : avg_event) : Prop :=
  0 <= load_scale (ev_data e) (ev_freq e) (ev_capacity e) nr_cpu_ids (ev_cpu e) <= 1024 * m.

(** The life of an entity: the updates in the order they happen. *)
Definition avg_history (nr_cpu_ids : Z) (l : list avg_event) sa : sched_avg :=
  foldl (fun sa e => (__update_entity_runnable_avg (ev_data e) (ev_freq e) (ev_capacity e) nr_cpu_ids (ev_now e)
                        sa (ev_runnable e) (ev_running e) (ev_cpu e)).1) sa l.

(** The bounds of [sums_below] between updates: the period at most 49151, each sum at most
    [m] times the period, up to [slack], which is zero when [m] is 1. *)
Definition avg_within (m : Z) (ord : Prop) sa : Prop := sums_below m ord AVG_BOUND sa.

(** C0. The load averages of an entity stay bounded, whatever the sequence of updates: any
    clock, forwards or backwards, any time scale, any CPU and any run states.  Let the scales
    in force (the frequency's or, with CONFIG_ARCH_SCALE_INVARIANT_CPU_CAPACITY alone, the
    CPU's capacity) never exceed [m] times 1.0, [m] from 1 to 64.  Then no 32-bit sum wraps:
    the period stays within 49151 and the runnable and usage sums within [m] times the period
    plus 200; with [m = 1] neither exceeds the period, so the ratios are at most 1.0.  If
    moreover every update that finds the entity running finds it runnable, usage stays at
    most the runnable sum. *)
Theorem load_avg_history_ok nr_cpu_ids m ord l sa :
  1 <= m <= 64 -> avg_within m ord sa ->
  Forall (fun e => event_ok nr_cpu_ids m e
                   /\ (ord -> ev_running e = true -> ev_runnable e = true)) l ->
  let sa' := avg_history nr_cpu_ids l sa in
  0 <= runnable_avg_period sa' <= 49151
  /\ 0 <= runnable_avg_sum sa' <= m * (runnable_avg_period sa' + (if m =? 1 then 0 else 200))
  /\ 0 <= usage_avg_sum sa' <= m * (runnable_avg_period sa' + (if m =? 1 then 0 else 200))
  /\ (ord -> usage_avg_sum sa' <= runnable_avg_sum sa').
Proof.
  intros Hm Hsa Hl sa'. assert (Hw : avg_within m ord sa').
  { subst sa'. revert sa Hsa. induction Hl as [|e l [He Hr] _ IH]; intros sa Hsa; [done|].
    apply IH. by apply update_below. }
  by destruct Hw.
Qed.

(** Time scaling is exact: converting a delta in two 32-bit halves yields
    [delta * multiplier / 2^16] whenever that fits in 64 bits, so the default
    multiplier (65536) leaves time unchanged and a longer delta never converts to
    a shorter one. *)
Theorem hmp_variable_scale_convert_exact d delta :
  0 <= delta < 2 ^ 64 -> 0 <= multiplier d < 2 ^ 31 ->
  delta * multiplier d / 2 ^ 16 < 2 ^ 64 ->
  hmp_variable_scale_convert d delta =
    if CONFIG_HMP_VARIABLE_SCALE then delta * multiplier d / 2 ^ 16 else delta.
Proof.
  intros Hd Hm Hfit. unfold hmp_variable_scale_convert, HMP_VARIABLE_SCALE_SHIFT.
  destruct CONFIG_HMP_VARIABLE_SCALE; [|done]. cbv zeta.
  change 0xffffffff with (Z.ones 32). rewrite Z.land_ones by lia.
  rewrite !shiftr_div, !shiftl_mul by lia. set (m := multiplier d) in *.
  change (32 - 16) with 16.
  pose proof (Z.mod_pos_bound delta (2 ^ 32) ltac:(lia)) as Hlo.
  pose proof (Z.div_mod delta (2 ^ 32) ltac:(lia)) as Hdm.
  assert (Hhi : 0 <= delta / 2 ^ 32 < 2 ^ 32)
    by (split; [apply Z.div_pos; lia | apply Z.div_lt_upper_bound; lia]).
  set (hi := delta / 2 ^ 32) in *. set (lo := delta mod 2 ^ 32) in *.
  rewrite (u64_id m), (u64_id (lo * m)), (u64_id (hi * m)) by nia.
  assert (Heq : delta * m / 2 ^ 16 = hi * m * 2 ^ 16 + lo * m / 2 ^ 16).
  { rewrite Hdm. replace ((2 ^ 32 * hi + lo) * m) with (lo * m + hi * m * 2 ^ 16 * 2 ^ 16) by lia.
    rewrite Z.div_add by lia. lia. }
  assert (0 <= lo * m / 2 ^ 16) by (apply Z.div_pos; nia).
  assert (0 <= hi * m * 2 ^ 16) by nia.
  rewrite Heq in Hfit |- *. rewrite (u64_id (hi * m * 2 ^ 16)), u64_id by lia. lia.
Qed.
End invariant.

Definition sample_avg : sched_avg :=
  {| runnable_avg_sum := 40000; runnable_avg_period := 49151; last_runnable_update := 0;
     decay_count := 0; load_avg_contrib := 0; load_avg_ratio := 0;
     hmp_last_up_migration := 0; hmp_last_down_migration := 0; usage_avg_sum := 20000 |}.
Definition sample_data : hmp_data_struct :=
  {| freqinvar_load_scale_enabled := 1; multiplier := 65536 |}.
Definition sample_freq (c : Z) : cpufreq_extents :=
  {| curr_scale := 512; ext_min := 341; ext_max := 1171; ext_flags := 0;
     const_max := 1171; throttling := 0 |}.

Definition sample_history : list avg_event :=
  [ mk_event 500000000 true true 3 sample_freq (fun _ => 1024) sample_data;
    mk_event 400000000 false false 3 sample_freq (fun _ => 1024) sample_data;
    mk_event 900000000 true false 7 sample_freq (fun _ => 1024) sample_data ].

(** Overclocked to twice the nominal maximum, and a CPU that runs an entity not runnable. *)
Definition fast_freq (c : Z) : cpufreq_extents := (sample_freq c) <| curr_scale := 2048 |>.
Definition fast_history : list avg_event :=
  [ mk_event 500000000 true true 3 fast_freq (fun _ => 1024) sample_data;
    mk_event 400000000 false true 3 sample_freq (fun _ => 1024) sample_data;
    mk_event 900000000 false true 7 fast_freq (fun _ => 1024) sample_data ].

Lemma load_avg_history_ok_witness :
  (runnable_avg_sum (avg_history (H := big_LITTLE_MP) 8 sample_history sample_avg)
   <= 1 * (runnable_avg_period (avg_history (H := big_LITTLE_MP) 8 sample_history sample_avg) + 0))
  /\ (usage_avg_sum (avg_history (H := big_LITTLE_MP) 8 fast_history sample_avg)
      <= 2 * (runnable_avg_period (avg_history (H := big_LITTLE_MP) 8 fast_history sample_avg) + 200)).
Proof.
  split.
  - destruct (load_avg_history_ok (H := big_LITTLE_MP) 8 1 True sample_history sample_avg)
      as (_ & (_ & R) & _); [lia | split; vm_compute; intuition discriminate | | exact R].
    repeat constructor; vm_compute; intuition discriminate.
  - destruct (load_avg_history_ok (H := big_LITTLE_MP) 8 2 False fast_history sample_avg)
      as (_ & _ & (_ & R) & _); [lia | split; vm_compute; intuition discriminate | | exact R].
    repeat constructor; vm_compute; intuition discriminate.
Defined.

Lemma hmp_variable_scale_convert_exact_witness :
  hmp_variable_scale_convert (H := big_LITTLE_MP) sample_data (2 ^ 50 + 12345) = 2 ^ 50 + 12345.
Proof.
  rewrite (hmp_variable_scale_convert_exact (H := big_LITTLE_MP) sample_data (2 ^ 50 + 12345));
    [reflexivity | vm_compute; intuition discriminate ..].
Defined.
