(* ===== verification/SchedTypes.v ===== *)
(** The scheduler state: the C structures of [kernel/sched/sched.h] and
    [include/linux/sched.h] as records, and the kernel-wide store [sys] that the
    operations thread.  Pointers are identifiers: two structures that point to the
    same object hold the same identifier, so an update through one is seen through
    the other. *)

From S2P Require Import Prelude Spinlock Pelt.

(** * Identifiers *)

(** [struct sched_entity *]: the entity embedded in a task, or the entity of a task
    group on a CPU ([tg->se[cpu]]). *)
Inductive se_id :=
| TaskSe (pid : Z)
| GroupSe (tg cpu : Z).

(** [struct cfs_rq *]: [tg->cfs_rq[cpu]]; group 0 is [root_task_group], whose run
    queue is the one embedded in [struct rq]. *)
Inductive cfs_id :=
| CfsRq (tg cpu : Z).

#[export] Instance se_id_eq_dec : EqDecision se_id.
Proof. solve_decision. Defined.
#[export] Instance cfs_id_eq_dec : EqDecision cfs_id.
Proof. solve_decision. Defined.

(** * Structures *)

(** [struct sched_entity]; its place in the rb-tree is in [tasks_timeline]. *)
Record sched_entity := mk_se {
  se_weight : Z;  (* load.weight *)
  se_inv_weight : Z;  (* load.inv_weight *)
  on_rq : Z;
  exec_start : Z;
  sum_exec_runtime : Z;
  vruntime : Z;
  prev_sum_exec_runtime : Z;
  se_parent : option se_id;
  se_cfs_rq : cfs_id;
  my_q : option cfs_id;
  se_avg : sched_avg;
}.
#[export] Instance eta_sched_entity : Eta sched_entity := fun r =>
  {| se_weight := se_weight r;
     se_inv_weight := se_inv_weight r;
     on_rq := on_rq r;
     exec_start := exec_start r;
     sum_exec_runtime := sum_exec_runtime r;
     vruntime := vruntime r;
     prev_sum_exec_runtime := prev_sum_exec_runtime r;
     se_parent := se_parent r;
     se_cfs_rq := se_cfs_rq r;
     my_q := my_q r;
     se_avg := se_avg r |}.

(** [struct cfs_rq].  [tasks_timeline] is the in-order sequence of the rb-tree, so
    [rb_leftmost] is its head and [rb_next] the following element. *)
Record cfs_rq := mk_cfs {
  cfs_weight : Z;  (* load.weight *)
  cfs_inv_weight : Z;  (* load.inv_weight *)
  cfs_nr_running : Z;
  h_nr_running : Z;
  exec_clock : Z;
  min_vruntime : Z;
  tasks_timeline : list se_id;
  curr : option se_id;
  buddy_next : option se_id;
  buddy_last : option se_id;
  buddy_skip : option se_id;
  runnable_load_avg : Z;
  blocked_load_avg : Z;
  decay_counter : Z;
  removed_load : Z;
  last_decay : Z;
  tg_runnable_contrib : Z;
  tg_usage_contrib : Z;
  tg_load_contrib : Z;
  cfs_cpu : Z;  (* the CPU of rq *)
  cfs_tg : Z;
  on_list : Z;
  h_load : Z;
}.
#[export] Instance eta_cfs_rq : Eta cfs_rq := fun r =>
  {| cfs_weight := cfs_weight r;
     cfs_inv_weight := cfs_inv_weight r;
     cfs_nr_running := cfs_nr_running r;
     h_nr_running := h_nr_running r;
     exec_clock := exec_clock r;
     min_vruntime := min_vruntime r;
     tasks_timeline := tasks_timeline r;
     curr := curr r;
     buddy_next := buddy_next r;
     buddy_last := buddy_last r;
     buddy_skip := buddy_skip r;
     runnable_load_avg := runnable_load_avg r;
     blocked_load_avg := blocked_load_avg r;
     decay_counter := decay_counter r;
     removed_load := removed_load r;
     last_decay := last_decay r;
     tg_runnable_contrib := tg_runnable_contrib r;
     tg_usage_contrib := tg_usage_contrib r;
     tg_load_contrib := tg_load_contrib r;
     cfs_cpu := cfs_cpu r;
     cfs_tg := cfs_tg r;
     on_list := on_list r;
     h_load := h_load r |}.

(** [struct task_group] *)
Record task_group := mk_tg {
  shares : Z;
  tg_load_avg : Z;
  tg_runnable_avg : Z;
  tg_usage_avg : Z;
  tg_parent : option Z;
  tg_children : list Z;
}.
#[export] Instance eta_task_group : Eta task_group := fun r =>
  {| shares := shares r;
     tg_load_avg := tg_load_avg r;
     tg_runnable_avg := tg_runnable_avg r;
     tg_usage_avg := tg_usage_avg r;
     tg_parent := tg_parent r;
     tg_children := tg_children r |}.

(** [struct task_struct] *)
Record task_struct := mk_task {
  prio : Z;
  policy : Z;
  sched_task_group : Z;
  cpus_allowed : cpumask;
  task_cpu : Z;
  on_cpu : Z;
  has_mm : bool;
  parent_pid : option Z;
  task_usage : Z;  (* reference count *)
  task_freed : bool;  (* [__put_task_struct] has freed it *)
  task_state : Z;  (* state *)
  nr_cpus_allowed : Z;
}.
#[export] Instance eta_task_struct : Eta task_struct := fun r =>
  {| prio := prio r;
     policy := policy r;
     sched_task_group := sched_task_group r;
     cpus_allowed := cpus_allowed r;
     task_cpu := task_cpu r;
     on_cpu := on_cpu r;
     has_mm := has_mm r;
     parent_pid := parent_pid r;
     task_usage := task_usage r;
     task_freed := task_freed r;
     task_state := task_state r;
     nr_cpus_allowed := nr_cpus_allowed r |}.

(** [struct sched_group] with its [struct sched_group_power].  The groups of a domain are
    a ring of CPU masks. *)
Record sched_group := mk_sg {
  sg_cpumask : cpumask;
  sg_mask : cpumask;  (* sgp->cpumask *)
  group_weight : Z;
  sg_power : Z;  (* sgp->power *)
  power_orig : Z;
  next_update : Z;
  nr_busy_cpus : Z;
}.
#[export] Instance eta_sched_group : Eta sched_group := fun r =>
  {| sg_cpumask := sg_cpumask r;
     sg_mask := sg_mask r;
     group_weight := group_weight r;
     sg_power := sg_power r;
     power_orig := power_orig r;
     next_update := next_update r;
     nr_busy_cpus := nr_busy_cpus r |}.

(** [struct sched_domain]: a CPU's domains are listed from the lowest to the top, so
    [child] and [parent] are the neighbours in the list; [sd_groups] names the groups of
    the ring, from [groups] on. *)
Record sched_domain := mk_sd {
  sd_span : cpumask;
  sd_flags : Z;
  sd_groups : list Z;
  span_weight : Z;
  imbalance_pct : Z;
  busy_idx : Z;
  idle_idx : Z;
  newidle_idx : Z;
  wake_idx : Z;
  forkexec_idx : Z;
  busy_factor : Z;
  min_interval : Z;
  max_interval : Z;
  cache_nice_tries : Z;
  smt_gain : Z;
  last_balance : Z;
  balance_interval : Z;
  nr_balance_failed : Z;
  nohz_idle : Z;
}.
#[export] Instance eta_sched_domain : Eta sched_domain := fun r =>
  {| sd_span := sd_span r;
     sd_flags := sd_flags r;
     sd_groups := sd_groups r;
     span_weight := span_weight r;
     imbalance_pct := imbalance_pct r;
     busy_idx := busy_idx r;
     idle_idx := idle_idx r;
     newidle_idx := newidle_idx r;
     wake_idx := wake_idx r;
     forkexec_idx := forkexec_idx r;
     busy_factor := busy_factor r;
     min_interval := min_interval r;
     max_interval := max_interval r;
     cache_nice_tries := cache_nice_tries r;
     smt_gain := smt_gain r;
     last_balance := last_balance r;
     balance_interval := balance_interval r;
     nr_balance_failed := nr_balance_failed r;
     nohz_idle := nohz_idle r |}.

(** The fields of [cpu_rq(cpu)->cfs.avg] that the code under CONFIG_SCHED_HMP_ENHANCEMENT
    uses. *)
Record hmp_cfs_avg := mk_hmp_cfs_avg {
  pending_load : Z;
  nr_pending : Z;
  nr_dequeuing_low_prio : Z;
  nr_normal_prio : Z;
  cfs_load_avg_ratio : Z;  (* load_avg_ratio *)
  cfs_last_up_migration : Z;  (* hmp_last_up_migration *)
  cfs_last_down_migration : Z;  (* hmp_last_down_migration *)
}.
#[export] Instance eta_hmp_cfs_avg : Eta hmp_cfs_avg := fun r =>
  {| pending_load := pending_load r;
     nr_pending := nr_pending r;
     nr_dequeuing_low_prio := nr_dequeuing_low_prio r;
     nr_normal_prio := nr_normal_prio r;
     cfs_load_avg_ratio := cfs_load_avg_ratio r;
     cfs_last_up_migration := cfs_last_up_migration r;
     cfs_last_down_migration := cfs_last_down_migration r |}.

(** [rq->curr], by scheduling class: a fair task, the idle task, or a task of a
    higher class (stop, real-time), with the CPUs it may use. *)
Inductive running := RunsFair (pid : Z) | RunsIdle | RunsHigher (allowed : cpumask).

(** The part of [struct rq] that load balancing uses, with the per-CPU variables
    [nohz_flags], [sd_llc] (a level of the CPU's domains) and [sd_llc_id]. *)
Record rq_balance := mk_rq_balance {
  cpu_load : list Z;
  last_load_update_tick : Z;
  cpu_power : Z;
  next_balance : Z;
  h_load_throttle : Z;
  idle_stamp : Z;
  avg_idle : Z;
  age_stamp : Z;
  rt_avg : Z;
  wake_list : list Z;
  nohz_tick_stopped : bool;  (* NOHZ_TICK_STOPPED *)
  nohz_balance_kick : bool;  (* NOHZ_BALANCE_KICK *)
  sched_softirq : bool;  (* SCHED_SOFTIRQ is pending *)
  sd_llc : option nat;
  sd_llc_id : Z;
}.
#[export] Instance eta_rq_balance : Eta rq_balance := fun r =>
  {| cpu_load := cpu_load r;
     last_load_update_tick := last_load_update_tick r;
     cpu_power := cpu_power r;
     next_balance := next_balance r;
     h_load_throttle := h_load_throttle r;
     idle_stamp := idle_stamp r;
     avg_idle := avg_idle r;
     age_stamp := age_stamp r;
     rt_avg := rt_avg r;
     wake_list := wake_list r;
     nohz_tick_stopped := nohz_tick_stopped r;
     nohz_balance_kick := nohz_balance_kick r;
     sched_softirq := sched_softirq r;
     sd_llc := sd_llc r;
     sd_llc_id := sd_llc_id r |}.

(** [struct rq]; the embedded root [cfs_rq] of CPU [c] is [CfsRq 0 c]. *)
Record rq := mk_rq {
  rq_nr_running : Z;
  rq_weight : Z;  (* load.weight *)
  rq_clock : Z;  (* clock *)
  clock_task : Z;
  rq_avg : sched_avg;
  rq_cfs_avg : hmp_cfs_avg;
  cfs_tasks : list Z;  (* pids, in list order *)
  leaf_cfs_rq_list : list cfs_id;
  rq_curr : running;
  need_resched : bool;  (* TIF_NEED_RESCHED of rq->curr *)
  skip_clock_update : Z;
  idle_balance : Z;
  active_balance : Z;
  push_cpu : Z;
  migrate_task : option Z;
  wake_for_idle_pull : Z;
  rq_sd : list sched_domain;
  rq_lock : arch_spinlock;  (* lock; taken explicitly in the HMP enhancement only *)
  rq_lb : rq_balance;
}.
#[export] Instance eta_rq : Eta rq := fun r =>
  {| rq_nr_running := rq_nr_running r;
     rq_weight := rq_weight r;
     rq_clock := rq_clock r;
     clock_task := clock_task r;
     rq_avg := rq_avg r;
     rq_cfs_avg := rq_cfs_avg r;
     cfs_tasks := cfs_tasks r;
     leaf_cfs_rq_list := leaf_cfs_rq_list r;
     rq_curr := rq_curr r;
     need_resched := need_resched r;
     skip_clock_update := skip_clock_update r;
     idle_balance := idle_balance r;
     active_balance := active_balance r;
     push_cpu := push_cpu r;
     migrate_task := migrate_task r;
     wake_for_idle_pull := wake_for_idle_pull r;
     rq_sd := rq_sd r;
     rq_lock := rq_lock r;
     rq_lb := rq_lb r |}.

(** [struct hmp_domain] *)
Record hmp_domain := mk_hmp_domain {
  hd_cpus : cpumask;
  possible_cpus : cpumask;
}.
#[export] Instance eta_hmp_domain : Eta hmp_domain := fun r =>
  {| hd_cpus := hd_cpus r;
     possible_cpus := possible_cpus r |}.

(** The HMP tunables of [kernel/sched/fair.c] (the first seven are [unsigned int]
    globals, the last is [hmp_data]). *)
Record hmp_tunables := mk_tunables {
  hmp_up_threshold : Z;
  hmp_down_threshold : Z;
  hmp_up_prio : Z;
  hmp_next_up_threshold : Z;
  hmp_next_down_threshold : Z;
  hmp_packing_enabled : Z;
  hmp_full_threshold : Z;
  hmp_data : hmp_data_struct;
}.
#[export] Instance eta_hmp_tunables : Eta hmp_tunables := fun r =>
  {| hmp_up_threshold := hmp_up_threshold r;
     hmp_down_threshold := hmp_down_threshold r;
     hmp_up_prio := hmp_up_prio r;
     hmp_next_up_threshold := hmp_next_up_threshold r;
     hmp_next_down_threshold := hmp_next_down_threshold r;
     hmp_packing_enabled := hmp_packing_enabled r;
     hmp_full_threshold := hmp_full_threshold r;
     hmp_data := hmp_data r |}.

(** [struct hmp_keepalive]; the [hrtimer] is the delay it was started with, if it is
    armed. *)
Record hmp_keepalive := mk_keepalive {
  ka_init : bool;
  ka_delay : Z;
  ka_timer : option Z;
}.
#[export] Instance eta_keepalive : Eta hmp_keepalive := fun r =>
  {| ka_init := ka_init r;
     ka_delay := ka_delay r;
     ka_timer := ka_timer r |}.

(** The fields of [struct cpuidle_state] the scheduler reads. *)
Record idle_state := mk_idle_state {
  exit_latency : Z;
  target_residency : Z;
}.

(** The scheduler's sysctls and the [sched_feat]s that CFS reads. *)
Record sched_sysctl := mk_sysctl {
  sysctl_sched_latency : Z;
  sysctl_sched_min_granularity : Z;
  sysctl_sched_wakeup_granularity : Z;
  sched_nr_latency : Z;
  sysctl_sched_child_runs_first : bool;
  GENTLE_FAIR_SLEEPERS : bool;
  START_DEBIT : bool;
  NEXT_BUDDY : bool;
  LAST_BUDDY : bool;
  WAKEUP_PREEMPTION : bool;
  sysctl_sched_nr_migrate : Z;
  sysctl_sched_migration_cost : Z;
  sysctl_sched_time_avg : Z;
  LB_BIAS : bool;
  LB_MIN : bool;
  ARCH_POWER : bool;
  CACHE_HOT_BUDDY : bool;
}.

(** What load balancing shares between CPUs: the groups of the domains by address, time,
    the active CPUs, the rest of [nohz], the [balancing] lock, and the CPUs whose stopper has
    an [active_load_balance_cpu_stop] queued. *)
Record balance_state := mk_balance {
  sgs : Z -> sched_group;
  jiffies : Z;
  max_load_balance_interval : Z;
  cpu_active_mask : cpumask;
  nohz_nr_cpus : Z;  (* nohz.nr_cpus *)
  nohz_next_balance : Z;  (* nohz.next_balance *)
  balancing : arch_spinlock;
  lb_stop_works : list Z;
}.
#[export] Instance eta_balance_state : Eta balance_state := fun r =>
  {| sgs := sgs r;
     jiffies := jiffies r;
     max_load_balance_interval := max_load_balance_interval r;
     cpu_active_mask := cpu_active_mask r;
     nohz_nr_cpus := nohz_nr_cpus r;
     nohz_next_balance := nohz_next_balance r;
     balancing := balancing r;
     lb_stop_works := lb_stop_works r |}.

(** Capacities of CPUs ([arch/arm/kernel/topology.c]) and the variables of the HMP
    enhancement. *)
Record enh_state := mk_enh {
  cpu_scale : Z -> Z;
  invariant_cpu_capacity : Z -> Z;
  base_cpu_capacity : Z -> Z;
  cpu_throttling : Z -> Z;
  frequency_invariant_power_enabled : Z;
  sd_pack_buddy : Z -> Z;
  PA_ENABLE : Z;
  LB_ENABLE : Z;
}.
#[export] Instance eta_enh_state : Eta enh_state := fun r =>
  {| cpu_scale := cpu_scale r;
     invariant_cpu_capacity := invariant_cpu_capacity r;
     base_cpu_capacity := base_cpu_capacity r;
     cpu_throttling := cpu_throttling r;
     frequency_invariant_power_enabled := frequency_invariant_power_enabled r;
     sd_pack_buddy := sd_pack_buddy r;
     PA_ENABLE := PA_ENABLE r;
     LB_ENABLE := LB_ENABLE r |}.

(** The kernel's scheduler state. *)
Record sys := mk_sys {
  ses : se_id -> sched_entity;
  cfss : cfs_id -> cfs_rq;
  tgs : Z -> task_group;
  tasks : Z -> task_struct;
  rqs : Z -> rq;  (* cpu_rq *)
  cpu_online_mask : cpumask;
  nr_cpu_ids : Z;
  nr_groups : nat;  (* task groups: bounds the depth of the hierarchy *)
  sched_clock : Z -> Z;  (* what a CPU reads from its clock *)
  tun : hmp_tunables;
  sysctl : sched_sysctl;
  freq_scale : Z -> cpufreq_extents;
  domains : Z -> hmp_domain;  (* domain objects by address *)
  hmp_domains : list Z;  (* fastest first *)
  hmp_cpu_domain : Z -> Z;
  hmp_fast_cpu_mask : cpumask;
  hmp_slow_cpu_mask : cpumask;
  hmp_cpu_keepalive : Z -> hmp_keepalive;
  cpuidle_drv : Z -> option (list idle_state);  (* cpuidle_get_cpu_driver *)
  nohz_idle_cpus_mask : cpumask;  (* nohz.idle_cpus_mask *)
  hmp_force_migration : arch_spinlock;
  stopper_enabled : Z -> bool;  (* cpu_stopper.enabled *)
  stop_works : list Z;  (* CPUs whose stopper has an HMP migration queued *)
  stop_refused : list (Z * option Z);  (* works refused by a disabled stopper, with the task they name: a log *)
  resched_ipis : list Z;  (* smp_send_reschedule, latest first *)
  wild_prio : Z;  (* what task_of() of a group entity reads as prio *)
  bal : balance_state;
  enh : enh_state;
}.
#[export] Instance eta_sys : Eta sys := fun r =>
  {| ses := ses r;
     cfss := cfss r;
     tgs := tgs r;
     tasks := tasks r;
     rqs := rqs r;
     cpu_online_mask := cpu_online_mask r;
     nr_cpu_ids := nr_cpu_ids r;
     nr_groups := nr_groups r;
     sched_clock := sched_clock r;
     tun := tun r;
     sysctl := sysctl r;
     freq_scale := freq_scale r;
     domains := domains r;
     hmp_domains := hmp_domains r;
     hmp_cpu_domain := hmp_cpu_domain r;
     hmp_fast_cpu_mask := hmp_fast_cpu_mask r;
     hmp_slow_cpu_mask := hmp_slow_cpu_mask r;
     hmp_cpu_keepalive := hmp_cpu_keepalive r;
     cpuidle_drv := cpuidle_drv r;
     nohz_idle_cpus_mask := nohz_idle_cpus_mask r;
     hmp_force_migration := hmp_force_migration r;
     stopper_enabled := stopper_enabled r;
     stop_works := stop_works r;
     stop_refused := stop_refused r;
     resched_ipis := resched_ipis r;
     wild_prio := wild_prio r;
     bal := bal r;
     enh := enh r |}.

(** * Store access *)

Definition SCHED_LOAD_SHIFT : Z := 10.
Definition NICE_0_SHIFT : Z := SCHED_LOAD_SHIFT.
Definition NICE_0_LOAD : Z := Z.shiftl 1 SCHED_LOAD_SHIFT.

(** [SCHED_LOAD_RESOLUTION] is 0, so both are the identity. *)
Definition scale_load (w : Z) : Z := w.
Definition scale_load_down (w : Z) : Z := w.

Definition upd_se (i : se_id) (f : sched_entity -> sched_entity) (s : sys) : sys :=
  s <| ses := <[i := f (ses s i)]> (ses s) |>.
Definition upd_avg (i : se_id) (f : sched_avg -> sched_avg) (s : sys) : sys :=
  upd_se i (fun e => e <| se_avg := f (se_avg e) |>) s.
Definition upd_cfs (i : cfs_id) (f : cfs_rq -> cfs_rq) (s : sys) : sys :=
  s <| cfss := <[i := f (cfss s i)]> (cfss s) |>.
Definition upd_rq (c : Z) (f : rq -> rq) (s : sys) : sys :=
  s <| rqs := <[c := f (rqs s c)]> (rqs s) |>.
Definition upd_rq_avg (c : Z) (f : sched_avg -> sched_avg) (s : sys) : sys :=
  upd_rq c (fun r => r <| rq_avg := f (rq_avg r) |>) s.
Definition upd_rq_lb (c : Z) (f : rq_balance -> rq_balance) (s : sys) : sys :=
  upd_rq c (fun r => r <| rq_lb := f (rq_lb r) |>) s.
Definition upd_sg (g : Z) (f : sched_group -> sched_group) (s : sys) : sys :=
  s <| bal := (bal s) <| sgs := <[g := f (sgs (bal s) g)]> (sgs (bal s)) |> |>.
Definition upd_tg (g : Z) (f : task_group -> task_group) (s : sys) : sys :=
  s <| tgs := <[g := f (tgs s g)]> (tgs s) |>.
Definition upd_task (p : Z) (f : task_struct -> task_struct) (s : sys) : sys :=
  s <| tasks := <[p := f (tasks s p)]> (tasks s) |>.
Definition upd_domain (a : Z) (f : hmp_domain -> hmp_domain) (s : sys) : sys :=
  s <| domains := <[a := f (domains s a)]> (domains s) |>.

Definition upd_keepalive (c : Z) (f : hmp_keepalive -> hmp_keepalive) (s : sys) : sys :=
  s <| hmp_cpu_keepalive := <[c := f (hmp_cpu_keepalive s c)]> (hmp_cpu_keepalive s) |>.

(** [entity_is_task(se)]: an entity that owns no run queue. *)
Definition entity_is_task (s : sys) (i : se_id) : bool :=
  match my_q (ses s i) with None => true | Some _ => false end.

(** [cfs_rq_of(se)], [cpu_of(rq_of(cfs_rq))] *)
Definition cfs_rq_of (s : sys) (i : se_id) : cfs_id := se_cfs_rq (ses s i).
Definition cpu_of_cfs (s : sys) (q : cfs_id) : Z := cfs_cpu (cfss s q).

(** [cfs_rq_clock_task] without CONFIG_CFS_BANDWIDTH. *)
Definition cfs_rq_clock_task (s : sys) (q : cfs_id) : Z := clock_task (rqs s (cpu_of_cfs s q)).

(** [task_of(se)->prio]; for a group entity [container_of] reads memory that is not
    a task, which may hold anything. *)
Definition se_prio (s : sys) (i : se_id) : Z :=
  match i with TaskSe p => prio (tasks s p) | GroupSe _ _ => wild_prio s end.

(** The task whose embedded entity this is. *)
Definition task_of (i : se_id) : Z :=
  match i with TaskSe p => p | GroupSe _ _ => -1 end.

(** Reads after writes. *)
Lemma ses_upd_se i f s : ses (upd_se i f s) i = f (ses s i).
Proof. apply fn_lookup_insert. Qed.
Lemma ses_upd_se_ne i j f s : i <> j -> ses (upd_se i f s) j = ses s j.
Proof. intros. by apply fn_lookup_insert_ne. Qed.
Lemma cfss_upd_cfs i f s : cfss (upd_cfs i f s) i = f (cfss s i).
Proof. apply fn_lookup_insert. Qed.
Lemma cfss_upd_cfs_ne i j f s : i <> j -> cfss (upd_cfs i f s) j = cfss s j.
Proof. intros. by apply fn_lookup_insert_ne. Qed.
Lemma rqs_upd_rq c f s : rqs (upd_rq c f s) c = f (rqs s c).
Proof. apply fn_lookup_insert. Qed.
Lemma rqs_upd_rq_ne c d f s : c <> d -> rqs (upd_rq c f s) d = rqs s d.
Proof. intros. by apply fn_lookup_insert_ne. Qed.
Lemma tgs_upd_tg g f s : tgs (upd_tg g f s) g = f (tgs s g).
Proof. apply fn_lookup_insert. Qed.
Lemma tgs_upd_tg_ne g h f s : g <> h -> tgs (upd_tg g f s) h = tgs s h.
Proof. intros. by apply fn_lookup_insert_ne. Qed.
Lemma tasks_upd_task p f s : tasks (upd_task p f s) p = f (tasks s p).
Proof. apply fn_lookup_insert. Qed.
Lemma tasks_upd_task_ne p q f s : p <> q -> tasks (upd_task p f s) q = tasks s q.
Proof. intros. by apply fn_lookup_insert_ne. Qed.
Lemma domains_upd_domain a f s : domains (upd_domain a f s) a = f (domains s a).
Proof. apply fn_lookup_insert. Qed.
Lemma domains_upd_domain_ne a b f s : a <> b -> domains (upd_domain a f s) b = domains s b.
Proof. intros. by apply fn_lookup_insert_ne. Qed.
Lemma keepalive_upd c f s : hmp_cpu_keepalive (upd_keepalive c f s) c = f (hmp_cpu_keepalive s c).
Proof. apply fn_lookup_insert. Qed.

Create Rewrite HintDb store.
#[export] Hint Rewrite ses_upd_se cfss_upd_cfs rqs_upd_rq tgs_upd_tg tasks_upd_task
  domains_upd_domain keepalive_upd : store.
#[export] Hint Rewrite ses_upd_se_ne cfss_upd_cfs_ne rqs_upd_rq_ne tgs_upd_tg_ne tasks_upd_task_ne
  domains_upd_domain_ne using (congruence || lia) : store.

Lemma ses_upd_avg_ne i j f s : i <> j -> ses (upd_avg i f s) j = ses s j.
Proof. intros. unfold upd_avg. by rewrite ses_upd_se_ne. Qed.
Lemma ses_upd_avg i f s :
  ses (upd_avg i f s) i = (ses s i) <| se_avg := f (se_avg (ses s i)) |>.
Proof. unfold upd_avg. by rewrite ses_upd_se. Qed.
#[export] Hint Rewrite ses_upd_avg : store.
#[export] Hint Rewrite ses_upd_avg_ne using congruence : store.
Lemma rqs_upd_rq_avg c f s : rqs (upd_rq_avg c f s) c = (rqs s c) <| rq_avg := f (rq_avg (rqs s c)) |>.
Proof. unfold upd_rq_avg. by rewrite rqs_upd_rq. Qed.
Lemma rqs_upd_rq_avg_ne c d f s : c <> d -> rqs (upd_rq_avg c f s) d = rqs s d.
Proof. intros. unfold upd_rq_avg. by rewrite rqs_upd_rq_ne. Qed.
Lemma rqs_upd_rq_lb c f s : rqs (upd_rq_lb c f s) c = (rqs s c) <| rq_lb := f (rq_lb (rqs s c)) |>.
Proof. unfold upd_rq_lb. by rewrite rqs_upd_rq. Qed.
Lemma rqs_upd_rq_lb_ne c d f s : c <> d -> rqs (upd_rq_lb c f s) d = rqs s d.
Proof. intros. unfold upd_rq_lb. by rewrite rqs_upd_rq_ne. Qed.
Lemma sgs_upd_sg g f s : sgs (bal (upd_sg g f s)) g = f (sgs (bal s) g).
Proof. apply fn_lookup_insert. Qed.
Lemma sgs_upd_sg_ne g h f s : g <> h -> sgs (bal (upd_sg g f s)) h = sgs (bal s) h.
Proof. intros. by apply fn_lookup_insert_ne. Qed.
#[export] Hint Rewrite rqs_upd_rq_avg rqs_upd_rq_lb sgs_upd_sg : store.
#[export] Hint Rewrite rqs_upd_rq_lb_ne sgs_upd_sg_ne using (congruence || lia) : store.
#[export] Hint Rewrite rqs_upd_rq_avg_ne using (congruence || lia) : store.

#[global] Arguments upd_se : simpl never.
#[global] Arguments upd_avg : simpl never.
#[global] Arguments upd_cfs : simpl never.
#[global] Arguments upd_rq : simpl never.
#[global] Arguments upd_rq_avg : simpl never.
#[global] Arguments upd_rq_lb : simpl never.
#[global] Arguments upd_sg : simpl never.
#[global] Arguments upd_tg : simpl never.
#[global] Arguments upd_task : simpl never.
#[global] Arguments upd_domain : simpl never.
#[global] Arguments upd_keepalive : simpl never.

(** A read of one component of the store skips the writes to the others. *)
Ltac store_frame :=
  repeat match goal with
  | |- context [?g (?w ?a ?f ?s)] =>
      lazymatch type of s with sys => idtac end;
      lazymatch type of (w a f s) with sys => idtac end;
      change (g (w a f s)) with (g s)
  end.

(** Rewrites reads of an updated store; [store_simpl] also evaluates them. *)
Ltac store_rw := repeat (progress (store_frame; autorewrite with store)).
Ltac store_simpl := repeat (progress (store_frame; autorewrite with store; simpl)).

(** * A sample system

    Eight CPUs; CPUs 0-3 are the big cluster (domain 0), CPUs 4-7 the LITTLE one
    (domain 1); tasks 0 to 7 of nice 0 sit on the CPU of the same number. *)
Definition sample_task (pid : Z) : task_struct :=
  {| prio := 120; policy := 0; sched_task_group := 0; cpus_allowed := 255; task_cpu := pid; on_cpu := 0; has_mm := true;
     parent_pid := None; task_usage := 1; task_freed := false; task_state := 0; nr_cpus_allowed := 8 |}.
Definition sample_se (i : se_id) : sched_entity :=
  {| se_weight := 1024; se_inv_weight := 0; on_rq := 0; exec_start := 0; sum_exec_runtime := 0; vruntime := 0;
     prev_sum_exec_runtime := 0; se_parent := None; se_cfs_rq := CfsRq 0 (task_of i);
     my_q := match i with TaskSe _ => None | GroupSe tg cpu => Some (CfsRq tg cpu) end;
     se_avg := sample_avg |}.
Definition sample_cfs (q : cfs_id) : cfs_rq :=
  let '(CfsRq tg cpu) := q in
  {| cfs_weight := 0; cfs_inv_weight := 0; cfs_nr_running := 0; h_nr_running := 0; exec_clock := 0;
     min_vruntime := 0; tasks_timeline := []; curr := None; buddy_next := None;
     buddy_last := None; buddy_skip := None; runnable_load_avg := 0; blocked_load_avg := 0;
     decay_counter := 1; removed_load := 0; last_decay := 0; tg_runnable_contrib := 0;
     tg_usage_contrib := 0; tg_load_contrib := 0; cfs_cpu := cpu; cfs_tg := tg;
     on_list := 0; h_load := 0 |}.

(** Two levels: each cluster with a group per CPU (groups 0 to 7), and all CPUs with a
    group per cluster (groups 8 and 9), which is not balanced. *)
Definition sample_sg (g : Z) : sched_group :=
  let m := if g <? 8 then Z.setbit 0 g else if g =? 8 then 15 else 240 in
  {| sg_cpumask := m; sg_mask := m; group_weight := if g <? 8 then 1 else 4;
     sg_power := if g <? 8 then 1024 else 4096; power_orig := if g <? 8 then 1024 else 4096;
     next_update := 0; nr_busy_cpus := if g <? 8 then 1 else 4 |}.
Definition sample_sd (span flags : Z) (groups : list Z) : sched_domain :=
  {| sd_span := span; sd_flags := flags; sd_groups := groups; span_weight := 4;
     imbalance_pct := 125; busy_idx := 2; idle_idx := 1; newidle_idx := 0; wake_idx := 0;
     forkexec_idx := 0; busy_factor := 64; min_interval := 1; max_interval := 4;
     cache_nice_tries := 1; smt_gain := 0; last_balance := 0; balance_interval := 1;
     nr_balance_failed := 0; nohz_idle := 0 |}.
Definition sample_rq_lb : rq_balance :=
  {| cpu_load := [0; 0; 0; 0; 0]; last_load_update_tick := 0; cpu_power := 1024; next_balance := 0; h_load_throttle := 0;
     idle_stamp := 0; avg_idle := 1000000; age_stamp := 0; rt_avg := 0; wake_list := [];
     nohz_tick_stopped := false; nohz_balance_kick := false; sched_softirq := false;
     sd_llc := None; sd_llc_id := 0 |}.
Definition sample_rq : rq :=
  {| rq_nr_running := 0; rq_weight := 0; rq_clock := 1000000; clock_task := 1000000; rq_avg := sample_avg;
     rq_cfs_avg := mk_hmp_cfs_avg 0 0 0 0 0 0 0; cfs_tasks := [];
     leaf_cfs_rq_list := []; rq_curr := RunsIdle; need_resched := false; skip_clock_update := 0;
     idle_balance := 0;
     active_balance := 0; push_cpu := 0; migrate_task := None; wake_for_idle_pull := 0;
     rq_sd := [sample_sd 15 0 [8]; sample_sd 255 0 [8; 9]];
     rq_lock := __ARCH_SPIN_LOCK_UNLOCKED; rq_lb := sample_rq_lb |}.
Definition sample_sys : sys :=
  {| ses := sample_se; cfss := sample_cfs; tgs := fun _ => mk_tg 1024 0 0 0 None [];
     tasks := sample_task; rqs := fun _ => sample_rq; cpu_online_mask := 255; nr_cpu_ids := 8;
     nr_groups := 1; sched_clock := fun _ => 1000000;
     sysctl := mk_sysctl 6000000 750000 1000000 8 false true true false true true
                 32 500000 1000 true false true true;
     tun := {| hmp_up_threshold := 700; hmp_down_threshold := 512; hmp_up_prio := 110;
               hmp_next_up_threshold := 4096; hmp_next_down_threshold := 4096;
               hmp_packing_enabled := 1; hmp_full_threshold := 650; hmp_data := sample_data |};
     freq_scale := sample_freq;
     domains := fun a => if a =? 0 then mk_hmp_domain 15 15 else mk_hmp_domain 240 240;
     hmp_domains := [0; 1]; hmp_cpu_domain := fun c => if c <? 4 then 0 else 1;
     hmp_fast_cpu_mask := 15; hmp_slow_cpu_mask := 240;
     hmp_cpu_keepalive := fun _ => mk_keepalive false 0 None;
     cpuidle_drv := fun _ => Some [mk_idle_state 1 1; mk_idle_state 700 2500];
     nohz_idle_cpus_mask := 0; hmp_force_migration := __ARCH_SPIN_LOCK_UNLOCKED; stopper_enabled := fun _ => true;
     stop_works := []; stop_refused := []; resched_ipis := []; wild_prio := 0;
     bal := {| sgs := sample_sg; jiffies := 1000; max_load_balance_interval := 10;
               cpu_active_mask := 255; nohz_nr_cpus := 0; nohz_next_balance := 0;
               balancing := __ARCH_SPIN_LOCK_UNLOCKED; lb_stop_works := [] |};
     enh := {| cpu_scale := fun c => if c <? 4 then 1536 else 606;
               invariant_cpu_capacity := fun _ => 1024; base_cpu_capacity := fun _ => 1024;
               cpu_throttling := fun _ => 0; frequency_invariant_power_enabled := 0;
               sd_pack_buddy := fun _ => -1; PA_ENABLE := 1; LB_ENABLE := 1 |} |}.
