(* ===== verification/CpuLoad.v ===== *)
(** The load averages [cpu_load] that balancing looks at, and the share of time that real-time
    tasks take ([kernel/sched/core.c], [decay_load_missed] to [update_cpu_load_active], and
    [sched_avg_update]).

    [cpu_load[i]] is an average over about [2^i] ticks.  It never exceeds the largest load the
    CPU had, an idle CPU reaches zero, and a constant load is a fixed point. *)

From S2P Require Import Prelude Pelt SchedTypes.

Definition CPU_LOAD_IDX_MAX : Z := 5.
Definition DEGRADE_SHIFT : Z := 7.
Definition degrade_zero_ticks : list Z := [0; 8; 32; 64; 128].
Definition degrade_factor : list (list Z) :=
  [[0; 0; 0; 0; 0; 0; 0; 0]; [64; 32; 8; 0; 0; 0; 0; 0]; [96; 72; 40; 12; 1; 0; 0; 0];
   [112; 98; 75; 43; 15; 1; 0; 0]; [120; 112; 98; 76; 45; 16; 2; 0]].

Section cpu_load.
Context `{Config}.
Implicit Types (s : sys) (cpu : Z).

(** * Missed ticks *)

(** The loop over the bits of [missed_updates], of which there are at most eight. *)
Fixpoint degrade (fuel : nat) (load missed : Z) (row : list Z) : Z :=
  match fuel with
  | O => load
  | S fuel =>
      if missed =? 0 then load
      else
        let load := if nonzero (missed mod 2)
                    then Z.shiftr (ulong (load * List.hd 0 row)) DEGRADE_SHIFT else load in
        degrade fuel load (Z.shiftr missed 1) (List.tl row)
  end.

Definition decay_load_missed (load missed_updates idx : Z) : Z :=
  if missed_updates =? 0 then load
  else if nth (Z.to_nat idx) degrade_zero_ticks 0 <=? missed_updates then 0
  else if idx =? 1 then Z.shiftr load missed_updates
  else degrade 8 load missed_updates (nth (Z.to_nat idx) degrade_factor []).

(** * Real-time tasks *)

Definition NSEC_PER_MSEC : Z := 1000000.
Definition sched_avg_period s : Z := u64 (sysctl_sched_time_avg (sysctl s) * NSEC_PER_MSEC) / 2.

(** The loop runs once for each period that has passed; it does not end when the period is
    zero. *)
Fixpoint age_rt (fuel : nat) (clock period age rt : Z) : option (Z * Z) :=
  if period <? s64 (clock - age) then
    match fuel with
    | O => None
    | S fuel => age_rt fuel clock period (u64 (age + period)) (rt / 2)
    end
  else Some (age, rt).

Definition sched_avg_update cpu s : option sys :=
  let r := rqs s cpu in
  let period := s64 (sched_avg_period s) in
  let clock := rq_clock r in
  let fuel := Z.to_nat (s64 (clock - age_stamp (rq_lb r)) / period) in
  '(age, rt) ← age_rt fuel clock period (age_stamp (rq_lb r)) (rt_avg (rq_lb r));
  Some (upd_rq_lb cpu (fun b => b <| age_stamp := age |> <| rt_avg := rt |>) s).

Definition sched_rt_avg_update cpu (rt_delta : Z) s : option sys :=
  sched_avg_update cpu (upd_rq_lb cpu (fun b => b <| rt_avg := u64 (rt_avg b + rt_delta) |>) s).

(** * The averages *)

(** [cpu_load[i]] after [this_load] was seen [pending] ticks after the last update. *)
Definition next_load (this_load pending i old : Z) : Z :=
  let scale := Z.shiftl 1 i in
  let old_load := decay_load_missed old (ulong (pending - 1)) i in
  let new_load := if old_load <? this_load then ulong (this_load + (scale - 1)) else this_load in
  Z.shiftr (ulong (ulong (old_load * (scale - 1)) + new_load)) i.

Definition new_loads (this_load pending : Z) (l : list Z) : list Z :=
  imap (fun i old => if Nat.eqb i 0 then this_load else next_load this_load pending (Z.of_nat i) old) l.

Definition __update_cpu_load cpu (this_load pending : Z) s : option sys :=
  let s := upd_rq_lb cpu (fun b => b <| cpu_load := new_loads this_load pending (cpu_load b) |>) s in
  sched_avg_update cpu s.

Definition update_idle_cpu_load cpu s : option sys :=
  let r := rqs s cpu in
  let curr := jiffies (bal s) in
  if nonzero (rq_weight r) || (curr =? last_load_update_tick (rq_lb r)) then Some s
  else
    let pending := ulong (curr - last_load_update_tick (rq_lb r)) in
    let s := upd_rq_lb cpu (fun b => b <| last_load_update_tick := curr |>) s in
    __update_cpu_load cpu (rq_weight r) pending s.

Definition update_cpu_load_nohz cpu s : option sys :=
  let curr := jiffies (bal s) in
  let last := last_load_update_tick (rq_lb (rqs s cpu)) in
  if curr =? last then Some s
  else if ulong (curr - last) =? 0 then Some s
  else
    let s' := upd_rq_lb cpu (fun b => b <| last_load_update_tick := curr |>) s in
    __update_cpu_load cpu 0 (ulong (curr - last)) s'.

(** Without the global load average. *)
Definition update_cpu_load_active cpu s : option sys :=
  let s := upd_rq_lb cpu (fun b => b <| last_load_update_tick := jiffies (bal s) |>) s in
  __update_cpu_load cpu (rq_weight (rqs s cpu)) 1 s.

(** * Specification *)

Lemma degrade_bounds fuel load missed row W :
  0 <= load <= W -> W * 128 < 2 ^ 32 -> Forall (fun f => 0 <= f <= 128) row ->
  0 <= degrade fuel load missed row <= load.
Proof.
  revert load missed row. induction fuel as [|fuel IH]; intros load missed row Hl Hw Hr; cbn; [lia|].
  case_match; [lia|]. cbv zeta.
  assert (Hh : 0 <= List.hd 0 row <= 128) by (destruct Hr; simpl; lia).
  assert (Ht : Forall (fun f => 0 <= f <= 128) (List.tl row)) by (destruct Hr; simpl; auto).
  set (load' := if nonzero _ then _ else _).
  assert (Hl' : 0 <= load' <= load).
  { unfold load'. case_match; [|lia]. assert (0 <= load * List.hd 0 row <= W * 128) by nia.
    rewrite ulong_id, shiftr_div by (unfold DEGRADE_SHIFT; lia). change (2 ^ DEGRADE_SHIFT) with 128.
    split; [apply Z.div_pos; lia|]. apply Z.div_le_upper_bound; [lia|].
    rewrite (Z.mul_comm 128). apply Z.mul_le_mono_nonneg_l; lia. }
  pose proof (IH load' (Z.shiftr missed 1) (List.tl row) ltac:(lia) Hw Ht). lia.
Qed.

Lemma decay_bounds load missed idx W :
  0 <= load <= W -> W * 128 < 2 ^ 32 -> 0 <= missed ->
  0 <= decay_load_missed load missed idx <= load.
Proof.
  intros Hl Hw Hm. unfold decay_load_missed. case_match; [lia|]. case_match; [lia|]. case_match.
  - rewrite shiftr_div by done. split; [apply Z.div_pos; [lia|by apply pow2_pos]|].
    apply Z.div_le_upper_bound; [by apply pow2_pos|]. pose proof (pow2_pos missed Hm). nia.
  - apply degrade_bounds with W; [done..|].
    destruct (nth_in_or_default (Z.to_nat idx) degrade_factor []) as [Hin|E]; [|rewrite E; constructor].
    revert Hin. generalize (nth (Z.to_nat idx) degrade_factor []). intros row Hin. simpl in Hin.
    by repeat destruct Hin as [<-|Hin]; [repeat constructor; lia..|].
Qed.

(** One tick: the average moves towards the load, and does not overshoot. *)
Lemma next_load_tick this i old :
  1 <= i <= 4 -> 0 <= this < 2 ^ 25 -> 0 <= old < 2 ^ 25 ->
  let new := next_load this 1 i old in
  (old < this -> old < new <= this) /\ (old = this -> new = this) /\ (this < old -> this <= new < old).
Proof.
  intros Hi Ht Ho. unfold next_load. cbv zeta. rewrite Z.shiftl_1_l.
  change (ulong (1 - 1)) with (ulong 0). rewrite (ulong_id 0) by lia. change (decay_load_missed old 0 i) with old.
  assert (Hp : 2 <= 2 ^ i <= 16).
  { split; [change 2 with (2 ^ 1) at 1|change 16 with (2 ^ 4)]; apply Z.pow_le_mono_r; lia. }
  rewrite shiftr_div by lia. set (k := 2 ^ i) in *. clearbody k.
  assert (Hm : 0 <= old * (k - 1) <= 2 ^ 25 * 15) by nia.
  rewrite (ulong_id (old * (k - 1))) by lia.
  set (new := if old <? this then ulong (this + (k - 1)) else this).
  assert (Hn : new = if old <? this then this + (k - 1) else this)
    by (unfold new; case_match; [apply ulong_id; lia|done]). clearbody new. subst new.
  rewrite ulong_id by (case_match; lia).
  assert (Hd := div_floor_bounds (old * (k - 1) + (if old <? this then this + (k - 1) else this)) k).
  set (q := _ / k) in *. clearbody q. destruct (Z.ltb_spec old this); split_and!; intros; nia.
Qed.

Lemma next_load_bounds W this pending i old :
  1 <= i <= 4 -> W < 2 ^ 25 -> 0 <= this <= W -> 0 <= old <= W ->
  0 <= next_load this pending i old <= W.
Proof.
  intros Hi Hw Ht Ho. unfold next_load. cbv zeta. rewrite Z.shiftl_1_l.
  pose proof (ulong_range (pending - 1)) as Hm.
  pose proof (decay_bounds old (ulong (pending - 1)) i W Ho ltac:(lia) (proj1 Hm)) as Hd.
  set (o := decay_load_missed _ _ _) in *. clearbody o.
  assert (Hp : 2 <= 2 ^ i <= 16).
  { split; [change 2 with (2 ^ 1) at 1|change 16 with (2 ^ 4)]; apply Z.pow_le_mono_r; lia. }
  rewrite shiftr_div by lia. set (k := 2 ^ i) in *. clearbody k.
  assert (Hk : 0 <= o * (k - 1) <= W * (k - 1) /\ W * (k - 1) <= 2 ^ 25 * 15) by nia.
  rewrite (ulong_id (o * (k - 1))) by lia.
  set (new := if o <? this then ulong (this + (k - 1)) else this).
  assert (Hn : new = if o <? this then this + (k - 1) else this)
    by (unfold new; case_match; [apply ulong_id; lia|done]). clearbody new. subst new.
  rewrite ulong_id by (case_match; lia).
  split; [apply Z.div_pos; [case_match; nia|lia]|].
  apply Z.lt_succ_r, Z.div_lt_upper_bound; [lia|]. case_match; nia.
Qed.
(** ** Aging *)

Lemma s64_shift clock age period :
  0 < period -> period < s64 (clock - age) -> s64 (clock - u64 (age + period)) = s64 (clock - age) - period.
Proof.
  unfold s64, u64. intros Hp Hd.
  pose proof (Z.mod_pos_bound (clock - age + 2 ^ 63) (2 ^ 64) ltac:(lia)) as Hb.
  replace (clock - (age + period) mod 2 ^ 64 + 2 ^ 63)
    with (clock - age + 2 ^ 63 - period + ((age + period) / 2 ^ 64) * 2 ^ 64)
    by (pose proof (Z.div_mod (age + period) (2 ^ 64)); lia).
  rewrite Z.mod_add, <- Zminus_mod_idemp_l by lia. rewrite Z.mod_small by lia. lia.
Qed.

Lemma age_rt_total fuel clock period age rt :
  0 < period -> s64 (clock - age) / period <= Z.of_nat fuel -> is_Some (age_rt fuel clock period age rt).
Proof.
  intros Hp. revert age rt. induction fuel as [|fuel IH]; intros age rt Hf; cbn [age_rt];
    destruct (Z.ltb_spec period (s64 (clock - age))) as [Hd|]; try by eexists.
  - exfalso. assert (1 <= s64 (clock - age) / period) by (apply Z.div_le_lower_bound; lia). lia.
  - apply IH. rewrite s64_shift by done.
    replace (s64 (clock - age) - period) with (s64 (clock - age) + -1 * period) by lia.
    rewrite Z.div_add by lia. lia.
Qed.

Lemma avg_period_range s :
  0 < sysctl_sched_time_avg (sysctl s) < 2 ^ 32 -> 0 < s64 (sched_avg_period s) < 2 ^ 63.
Proof.
  intros Ht. unfold sched_avg_period, NSEC_PER_MSEC. rewrite u64_id by lia.
  set (x := _ * _ / 2). assert (0 < x < 2 ^ 63).
  { unfold x. split; [apply Z.div_str_pos; lia|]. apply Z.div_lt_upper_bound; lia. }
  rewrite s64_id; lia.
Qed.

(** It only touches [age_stamp] and [rt_avg]. *)
Lemma avg_update_total cpu s :
  0 < sysctl_sched_time_avg (sysctl s) < 2 ^ 32 ->
  exists age rt, sched_avg_update cpu s
    = Some (upd_rq_lb cpu (fun b => b <| age_stamp := age |> <| rt_avg := rt |>) s).
Proof.
  intros Ht. apply avg_period_range in Ht. unfold sched_avg_update. cbv zeta.
  set (d := s64 (rq_clock (rqs s cpu) - age_stamp (rq_lb (rqs s cpu)))).
  destruct (age_rt_total (Z.to_nat (d / s64 (sched_avg_period s))) (rq_clock (rqs s cpu))
              (s64 (sched_avg_period s)) (age_stamp (rq_lb (rqs s cpu))) (rt_avg (rq_lb (rqs s cpu))))
    as [[age rt] E]; [lia|fold d; lia|].
  exists age, rt. by rewrite E.
Qed.

(** Setting [sched_time_avg_ms] to 0, which [sysctl] allows, makes the next tick with a clock
    ahead of [age_stamp] loop forever. *)
Theorem zero_time_avg_hangs cpu s :
  sysctl_sched_time_avg (sysctl s) = 0 -> is_u64 (age_stamp (rq_lb (rqs s cpu))) ->
  0 < s64 (rq_clock (rqs s cpu) - age_stamp (rq_lb (rqs s cpu))) ->
  (forall fuel, age_rt fuel (rq_clock (rqs s cpu)) (s64 (sched_avg_period s))
                  (age_stamp (rq_lb (rqs s cpu))) (rt_avg (rq_lb (rqs s cpu))) = None)
  /\ sched_avg_update cpu s = None.
Proof.
  intros Ht Hu Hd. match goal with |- ?P /\ _ => assert (Hn : P) end.
  2:{ split; [exact Hn|]. unfold sched_avg_update. cbv zeta. by rewrite Hn. }
  intros fuel. assert (E : s64 (sched_avg_period s) = 0).
  { unfold sched_avg_period. by rewrite Ht. }
  rewrite E. generalize (rt_avg (rq_lb (rqs s cpu))) as rt.
  set (age := age_stamp _) in *.
  assert (Ha : u64 (age + 0) = age) by (rewrite Z.add_0_r; by apply u64_id).
  clearbody age. induction fuel as [|fuel IH]; intros rt; cbn [age_rt];
    (destruct (Z.ltb_spec 0 (s64 (rq_clock (rqs s cpu) - age))); [|lia]); [done|].
  by rewrite Ha.
Qed.
(** ** Ticks *)

Lemma tick_total cpu s :
  0 < sysctl_sched_time_avg (sysctl s) < 2 ^ 32 ->
  exists s', update_cpu_load_active cpu s = Some s' /\ sysctl s' = sysctl s
    /\ rq_weight (rqs s' cpu) = rq_weight (rqs s cpu)
    /\ cpu_load (rq_lb (rqs s' cpu)) = new_loads (rq_weight (rqs s cpu)) 1 (cpu_load (rq_lb (rqs s cpu))).
Proof.
  intros Ht. unfold update_cpu_load_active, __update_cpu_load. cbv zeta.
  match goal with |- context [sched_avg_update cpu ?x] =>
    destruct (avg_update_total cpu x) as (age & rt & ->); [exact Ht|] end.
  eexists. split; [done|]. split; [done|]. by store_simpl.
Qed.

(** [y] is an average [x] that came nearer to [w]: on the same side, and by at least 1 for each
    of [n] ticks until it is there. *)
Definition nearer (w n x y : Z) : Prop :=
  (x <= w -> x <= y <= w) /\ (w <= x -> w <= y <= x) /\ Z.abs (y - w) <= Z.max 0 (Z.abs (x - w) - n).

Definition loads_small (l : list Z) : Prop := length l = 5%nat /\ Forall (fun x => 0 <= x < 2 ^ 25) l.

Lemma new_loads_step w l :
  0 <= w < 2 ^ 25 -> loads_small l ->
  Forall2 (nearer w 1) l (new_loads w 1 l) /\ loads_small (new_loads w 1 l).
Proof.
  intros Hw [Hl Hf]. assert (Hn : Forall2 (nearer w 1) l (new_loads w 1 l)).
  { apply Forall2_same_length_lookup. unfold new_loads. split; [by rewrite length_imap|].
    intros i old x E. rewrite list_lookup_imap, E. simpl. intros [= <-].
    rewrite Forall_lookup in Hf. specialize (Hf i old E).
    apply lookup_lt_Some in E. unfold nearer. destruct i as [|i]; [simpl; lia|]. cbn [Nat.eqb].
    pose proof (next_load_tick w (Z.of_nat (S i)) old ltac:(lia) Hw Hf) as (Hu & He & Hdn).
    destruct (Z.lt_total old w) as [Hlt|[Heq|Hgt]];
      [specialize (Hu Hlt)|specialize (He Heq)|specialize (Hdn Hgt)]; lia. }
  split; [done|]. split; [unfold new_loads; by rewrite length_imap|].
  apply Forall_lookup. intros i y Hy. destruct (Forall2_lookup_r _ _ _ _ _ Hn Hy) as (x & Hx & N).
  rewrite Forall_lookup in Hf. specialize (Hf i x Hx). unfold nearer in N. lia.
Qed.

Lemma nearer_trans w n x y z : 0 <= n -> nearer w 1 x y -> nearer w n y z -> nearer w (n + 1) x z.
Proof. unfold nearer. lia. Qed.

Lemma ticks_nearer cpu n s :
  0 < sysctl_sched_time_avg (sysctl s) < 2 ^ 32 ->
  loads_small (cpu_load (rq_lb (rqs s cpu))) -> 0 <= rq_weight (rqs s cpu) < 2 ^ 25 ->
  exists s', foldM (fun s _ => update_cpu_load_active cpu s) (replicate n tt) s = Some s'
    /\ sysctl s' = sysctl s /\ rq_weight (rqs s' cpu) = rq_weight (rqs s cpu)
    /\ loads_small (cpu_load (rq_lb (rqs s' cpu)))
    /\ Forall2 (nearer (rq_weight (rqs s cpu)) (Z.of_nat n))
        (cpu_load (rq_lb (rqs s cpu))) (cpu_load (rq_lb (rqs s' cpu))).
Proof.
  revert s. induction n as [|n IH]; intros s Ht Hl Hw; cbn [replicate foldM].
  { exists s. split_and!; try done. apply Forall_Forall2_diag, Forall_true. unfold nearer. lia. }
  destruct (tick_total cpu s Ht) as (s1 & -> & E1 & E2 & E3). cbn [mbind option_bind].
  destruct (new_loads_step _ _ Hw Hl) as [N1 L1]. rewrite <- E3 in N1, L1.
  destruct (IH s1) as (s' & -> & F1 & F2 & F3 & F4); [congruence|done|congruence|].
  exists s'. split_and!; [done|congruence..|]. rewrite E2 in F4.
  eapply Forall2_trans; [|exact N1|exact F4]. intros x y z ? ?.
  replace (Z.of_nat (S n)) with (Z.of_nat n + 1) by lia. apply nearer_trans with y; [lia|done..].
Qed.

(** C29. [cpu_load] follows the load.  Let [sysctl_sched_time_avg] be between 1 and 2^32 - 1, and
    the load of the CPU and its five averages be below 2^25.  While the load stays the same, any
    number of ticks is executed without a fault or a product that wraps, and after [n] of them
    every average is on the same side of the load as before, no farther, and nearer by at least
    [n] or equal to the load; the next tick again brings every average that is not the load
    nearer by at least 1, and never past it.  So after as many ticks as the largest distance all
    five are exactly the load. *)
Theorem cpu_load_tracks cpu n s :
  0 < sysctl_sched_time_avg (sysctl s) < 2 ^ 32 ->
  loads_small (cpu_load (rq_lb (rqs s cpu))) -> 0 <= rq_weight (rqs s cpu) < 2 ^ 25 ->
  exists s' s'', foldM (fun s _ => update_cpu_load_active cpu s) (replicate n tt) s = Some s'
    /\ Forall2 (nearer (rq_weight (rqs s cpu)) (Z.of_nat n))
        (cpu_load (rq_lb (rqs s cpu))) (cpu_load (rq_lb (rqs s' cpu)))
    /\ update_cpu_load_active cpu s' = Some s''
    /\ Forall2 (nearer (rq_weight (rqs s cpu)) 1)
        (cpu_load (rq_lb (rqs s' cpu))) (cpu_load (rq_lb (rqs s'' cpu)))
    /\ (Forall (fun x => Z.abs (x - rq_weight (rqs s cpu)) <= Z.of_nat n)
          (cpu_load (rq_lb (rqs s cpu))) ->
        cpu_load (rq_lb (rqs s' cpu)) = replicate 5 (rq_weight (rqs s cpu))).
Proof.
  intros Ht Hl Hw. destruct (ticks_nearer cpu n s Ht Hl Hw) as (s' & E & F1 & F2 & F3 & F4).
  destruct (tick_total cpu s') as (s'' & E1 & _ & _ & E3); [congruence|].
  exists s', s''. split_and!; [done..| |].
  - rewrite E3, F2. by apply new_loads_step.
  - intros Hd. symmetry. apply replicate_as_elem_of. split; [apply F3|]. intros y Hy.
    apply list_elem_of_lookup in Hy as [i Hy]. destruct (Forall2_lookup_r _ _ _ _ _ F4 Hy) as (x & Hx & N).
    rewrite Forall_lookup in Hd. specialize (Hd i x Hx). unfold nearer in N. lia.
Qed.
End cpu_load.

(** * Witnesses *)

(** CPU 4 has load 3 after a long time at load 0: four ticks are more than enough. *)
Definition tick_sys : sys := upd_rq 4 (fun r => r <| rq_weight := 3 |>) sample_sys.

Lemma cpu_load_tracks_witness :
  exists s' s'', foldM (fun s _ => update_cpu_load_active (H := big_LITTLE_MP) 4 s) (replicate 4 tt) tick_sys = Some s'
    /\ update_cpu_load_active (H := big_LITTLE_MP) 4 s' = Some s''
    /\ cpu_load (rq_lb (rqs s' 4)) = replicate 5 3.
Proof.
  destruct (cpu_load_tracks (H := big_LITTLE_MP) 4 4 tick_sys) as (s' & s'' & E & _ & E2 & _ & F).
  - vm_compute. split; reflexivity.
  - split; [reflexivity|]. apply (bool_decide_unpack _). vm_compute. exact I.
  - vm_compute. split; [discriminate|reflexivity].
  - exists s', s''. split; [exact E|]. split; [exact E2|]. apply F.
    apply (bool_decide_unpack _). vm_compute. exact I.
Defined.

Lemma zero_time_avg_hangs_witness :
  let s := sample_sys <| sysctl := mk_sysctl 6000000 750000 1000000 8 false true true false true true
                                     32 500000 0 true false true true |> in
  (forall fuel, age_rt fuel (rq_clock (rqs s 4)) (s64 (sched_avg_period s))
                  (age_stamp (rq_lb (rqs s 4))) (rt_avg (rq_lb (rqs s 4))) = None)
  /\ sched_avg_update 4 s = None.
Proof.
  intros s. apply (zero_time_avg_hangs 4 s); [reflexivity|split; [discriminate|reflexivity]|reflexivity].
Defined.
