(* ===== verification/EntityLoad.v ===== *)
(** Per-entity load tracking, the stateful part: how an entity's average feeds its
    run queue, its task group and the blocked load ([kernel/sched/fair.c],
    [__synchronize_entity_decay] to [idle_exit_fair]). *)

From S2P Require Import Prelude Pelt SchedTypes.

Section entity_load.
Context `{Config}.

(** * Operations *)

(** Synchronises an entity's decay with its parenting [cfs_rq]. *)
Definition __synchronize_entity_decay (se : se_id) (s : sys) : sys * Z :=
  let decays := u64 (decay_counter (cfss s (cfs_rq_of s se))
                     - decay_count (se_avg (ses s se))) in
  let s :=
    if nonzero decays
    then upd_avg se (fun a => a <| load_avg_contrib :=
                                     ulong (decay_load (load_avg_contrib a) decays) |>) s
    else s in
  (upd_avg se (fun a => a <| decay_count := 0 |>) s, decays).

Definition __update_cfs_rq_tg_load_contrib (q : cfs_id) (force_update : bool) (s : sys) : sys :=
  let c := cfss s q in
  let tg := cfs_tg c in
  let tg_contrib := s64 (runnable_load_avg c + blocked_load_avg c) in
  let tg_contrib := s64 (tg_contrib - tg_load_contrib c) in
  if force_update || (tg_load_contrib c / 8 <? u64 (Z.abs tg_contrib)) then
    let s := upd_tg tg (fun t => t <| tg_load_avg := s64 (tg_load_avg t + tg_contrib) |>) s in
    upd_cfs q (fun c => c <| tg_load_contrib := u64 (tg_load_contrib c + tg_contrib) |>) s
  else s.

(** Aggregates [cfs_rq] runnable averages into its task group. *)
Definition __update_tg_runnable_avg (sa : sched_avg) (q : cfs_id) (s : sys) : sys :=
  let c := cfss s q in
  let tg := cfs_tg c in
  let contrib := u32 (Z.shiftl (runnable_avg_sum sa) NICE_0_SHIFT)
                 / u32 (runnable_avg_period sa + 1) in
  let contrib := slong (contrib - tg_runnable_contrib c) in
  let usage_contrib := u32 (Z.shiftl (usage_avg_sum sa) NICE_0_SHIFT)
                       / u32 (runnable_avg_period sa + 1) in
  let usage_contrib := slong (usage_contrib - tg_usage_contrib c) in
  if (tg_runnable_contrib c / 64 <? Z.abs contrib)
     || (tg_usage_contrib c / 64 <? Z.abs usage_contrib) then
    let s := upd_tg tg (fun t => t <| tg_runnable_avg := s32 (tg_runnable_avg t + contrib) |>) s in
    let s := upd_cfs q (fun c => c <| tg_runnable_contrib :=
                                        u32 (tg_runnable_contrib c + contrib) |>) s in
    let s := upd_tg tg (fun t => t <| tg_usage_avg := s32 (tg_usage_avg t + usage_contrib) |>) s in
    upd_cfs q (fun c => c <| tg_usage_contrib := u32 (tg_usage_contrib c + usage_contrib) |>) s
  else s.

(** [group_cfs_rq(se)] for a group entity. *)
Definition group_cfs_rq (s : sys) (se : se_id) : cfs_id :=
  match my_q (ses s se) with Some q => q | None => cfs_rq_of s se end.

Definition __update_group_entity_contrib (se : se_id) (s : sys) : sys :=
  let c := cfss s (group_cfs_rq s se) in
  let t := tgs s (cfs_tg c) in
  let contrib := u64 (tg_load_contrib c * shares t) in
  let s := upd_avg se (fun a => a <| load_avg_contrib :=
                                   ulong (contrib / u64 (tg_load_avg t + 1)) |>) s in
  let runnable_avg := tg_runnable_avg t in
  if runnable_avg <? NICE_0_LOAD then
    let s := upd_avg se (fun a => a <| load_avg_contrib :=
                                     ulong (load_avg_contrib a * ulong runnable_avg) |>) s in
    upd_avg se (fun a => a <| load_avg_contrib :=
                           Z.shiftr (load_avg_contrib a) NICE_0_SHIFT |>) s
  else s.

(** The weighted share of one CPU that [sa] amounts to, as computed in 32 bits. *)
Definition avg_times_weight (sa : sched_avg) (w : Z) : Z :=
  u32 (runnable_avg_sum sa * scale_load_down w) / u32 (runnable_avg_period sa + 1).

Definition __update_task_entity_contrib (se : se_id) (s : sys) : sys :=
  let contrib := avg_times_weight (se_avg (ses s se)) (se_weight (ses s se)) in
  upd_avg se (fun a => a <| load_avg_contrib := scale_load contrib |>) s.

(** Recomputes the entity's contribution; returns the contribution and ratio deltas. *)
Definition __update_entity_load_avg_contrib (se : se_id) (s : sys) : sys * Z * Z :=
  let old_contrib := slong (load_avg_contrib (se_avg (ses s se))) in
  let old_ratio := slong (load_avg_ratio (se_avg (ses s se))) in
  let s :=
    if entity_is_task s se then __update_task_entity_contrib se s
    else __update_group_entity_contrib se
           (__update_tg_runnable_avg (se_avg (ses s se)) (group_cfs_rq s se) s) in
  let ratio := slong (load_avg_ratio (se_avg (ses s se)) - old_ratio) in
  (s, slong (load_avg_contrib (se_avg (ses s se)) - old_contrib), ratio).

(** Defined with CONFIG_SCHED_HMP_ENHANCEMENT (or the MTK scheduler) only. *)
Definition __update_task_entity_ratio (se : se_id) (s : sys) : sys * Z :=
  if CONFIG_SCHED_HMP_ENHANCEMENT then
    let old_ratio := slong (load_avg_ratio (se_avg (ses s se))) in
    let ratio := avg_times_weight (se_avg (ses s se)) NICE_0_LOAD in
    let s := upd_avg se (fun a => a <| load_avg_ratio := scale_load ratio |>) s in
    (s, slong (load_avg_ratio (se_avg (ses s se)) - old_ratio))
  else (s, 0).

Definition subtract_blocked_load_contrib (q : cfs_id) (load_contrib : Z) (s : sys) : sys :=
  upd_cfs q (fun c =>
    if u64 load_contrib <? blocked_load_avg c
    then c <| blocked_load_avg := u64 (blocked_load_avg c - load_contrib) |>
    else c <| blocked_load_avg := 0 |>) s.

(** [__update_entity_runnable_avg] with the globals of the store. *)
Definition update_avg (s : sys) (now : Z) (sa : sched_avg) (runnable running : bool) (cpu : Z) :
    sched_avg * bool :=
  __update_entity_runnable_avg (hmp_data (tun s)) (freq_scale s) (invariant_cpu_capacity (enh s)) (nr_cpu_ids s)
    now sa runnable running cpu.

(** Updates a [sched_entity]'s runnable average. *)
Definition update_entity_load_avg (se : se_id) (update_cfs_rq : bool) (s : sys) : sys :=
  let q := cfs_rq_of s se in
  let cpu := if scaled then cpu_of_cfs s q else -1 in
  let now := if entity_is_task s se then cfs_rq_clock_task s q
             else cfs_rq_clock_task s (group_cfs_rq s se) in
  let '(sa, decayed) :=
    update_avg s now (se_avg (ses s se)) (nonzero (on_rq (ses s se)))
      (bool_decide (curr (cfss s q) = Some se)) cpu in
  let s := upd_avg se (fun _ => sa) s in
  if negb decayed then s
  else
    let '(s, contrib_delta, ratio_delta) := __update_entity_load_avg_contrib se s in
    let '(s, ratio_delta) :=
      if CONFIG_SCHED_HMP_ENHANCEMENT && entity_is_task s se
      then __update_task_entity_ratio se s else (s, ratio_delta) in
    if negb update_cfs_rq then s
    else if nonzero (on_rq (ses s se)) then
      let s := upd_cfs q (fun c => c <| runnable_load_avg :=
                                     u64 (runnable_load_avg c + contrib_delta) |>) s in
      let rq := cpu_of_cfs s q in
      let s := upd_rq_avg rq (fun a => a <| load_avg_ratio :=
                                     ulong (load_avg_ratio a + ratio_delta) |>) s in
      if CONFIG_SCHED_HMP_ENHANCEMENT then
        upd_rq_avg rq (fun a => a <| load_avg_contrib :=
                               ulong (load_avg_contrib a + contrib_delta) |>) s
      else s
    else subtract_blocked_load_contrib q (slong (- contrib_delta)) s.

(** Decays the load contributed by all blocked children. *)
Definition update_cfs_rq_blocked_load (q : cfs_id) (force_update : bool) (s : sys) : sys :=
  let now := Z.shiftr (cfs_rq_clock_task s q) 20 in
  let decays := u64 (now - last_decay (cfss s q)) in
  if negb (nonzero decays) && negb force_update then s
  else
    let s :=
      if nonzero (removed_load (cfss s q)) then
        let removed := removed_load (cfss s q) in
        let s := upd_cfs q (fun c => c <| removed_load := 0 |>) s in
        subtract_blocked_load_contrib q (slong removed) s
      else s in
    let s :=
      if nonzero decays then
        let s := upd_cfs q (fun c => c <| blocked_load_avg :=
                                       decay_load (blocked_load_avg c) decays |>) s in
        let s := upd_cfs q (fun c => c <| decay_counter := s64 (decay_counter c + decays) |>) s in
        upd_cfs q (fun c => c <| last_decay := now |>) s
      else s in
    __update_cfs_rq_tg_load_contrib q force_update s.

Definition update_rq_runnable_avg (c : Z) (runnable : bool) (s : sys) : sys :=
  let cpu := if scaled then c else -1 in
  let '(sa, _) := update_avg s (clock_task (rqs s c)) (rq_avg (rqs s c)) runnable runnable cpu in
  let s := upd_rq_avg c (fun _ => sa) s in
  __update_tg_runnable_avg (rq_avg (rqs s c)) (CfsRq 0 c) s.

(** [task_low_priority(prio)] *)
Definition task_low_priority (s : sys) (p : Z) : bool :=
  if CONFIG_SCHED_HMP_PRIO_FILTER then hmp_up_prio (tun s) <=? p else false.

Definition upd_hmp_cfs_avg (c : Z) (f : hmp_cfs_avg -> hmp_cfs_avg) (s : sys) : sys :=
  upd_rq c (fun r => r <| rq_cfs_avg := f (rq_cfs_avg r) |>) s.

(** The first half of [enqueue_entity_load_avg]: brings [se]'s average up to date
    with the time it was asleep or migrating; returns the [wakeup] that holds from
    there on. *)
Definition enqueue_sync (q : cfs_id) (se : se_id) (wakeup : bool) (s : sys) : sys * bool :=
  let '(s, wakeup) :=
    if decay_count (se_avg (ses s se)) <=? 0 then
      let s := upd_avg se (fun a => a <| last_runnable_update :=
                                      clock_task (rqs s (cpu_of_cfs s q)) |>) s in
      let s :=
        if nonzero (decay_count (se_avg (ses s se))) then
          let s := upd_avg se (fun a => a <| last_runnable_update :=
                     u64 (last_runnable_update a
                          - s64 (Z.shiftl (- decay_count a) 20)) |>) s in
          let s := update_entity_load_avg se false s in
          upd_avg se (fun a => a <| decay_count := 0 |>) s
        else s in
      (s, false)
    else ((__synchronize_entity_decay se s).1, wakeup) in
  if wakeup then
    let s := subtract_blocked_load_contrib q (slong (load_avg_contrib (se_avg (ses s se)))) s in
    (update_entity_load_avg se false s, true)
  else (s, false).

(** Adds the load generated by [se] into [cfs_rq]'s child load-average. *)
Definition enqueue_entity_load_avg (q : cfs_id) (se : se_id) (wakeup : bool) (s : sys) : sys :=
  let cpu := cpu_of_cfs s q in
  let '(s, wakeup) := enqueue_sync q se wakeup s in
  let s := upd_cfs q (fun c => c <| runnable_load_avg :=
             u64 (runnable_load_avg c + load_avg_contrib (se_avg (ses s se))) |>) s in
  let s := upd_rq_avg cpu (fun a => a <| load_avg_ratio :=
             ulong (load_avg_ratio a + load_avg_ratio (se_avg (ses s se))) |>) s in
  let s :=
    if CONFIG_SCHED_HMP_ENHANCEMENT then
      let s := upd_hmp_cfs_avg cpu (fun h => h <| nr_pending := 0 |>) s in
      let s := upd_hmp_cfs_avg cpu (fun h => h <| pending_load := 0 |>) s in
      if CONFIG_SCHED_HMP_PRIO_FILTER && negb (task_low_priority s (se_prio s se))
      then upd_hmp_cfs_avg cpu (fun h => h <| nr_normal_prio := u32 (nr_normal_prio h + 1) |>) s
      else s
    else s in
  update_cfs_rq_blocked_load q (negb wakeup) s.

(** Removes [se]'s load from this [cfs_rq]'s child load-average. *)
Definition dequeue_entity_load_avg (q : cfs_id) (se : se_id) (sleep : bool) (s : sys) : sys :=
  let cpu := cpu_of_cfs s q in
  let s := update_entity_load_avg se true s in
  let s := update_cfs_rq_blocked_load q (negb sleep) s in
  let s := upd_cfs q (fun c => c <| runnable_load_avg :=
             u64 (runnable_load_avg c - load_avg_contrib (se_avg (ses s se))) |>) s in
  let s := upd_rq_avg cpu (fun a => a <| load_avg_ratio :=
             ulong (load_avg_ratio a - load_avg_ratio (se_avg (ses s se))) |>) s in
  let s :=
    if CONFIG_SCHED_HMP_ENHANCEMENT && CONFIG_SCHED_HMP_PRIO_FILTER then
      let s := upd_hmp_cfs_avg cpu (fun h => h <| nr_dequeuing_low_prio := 0 |>) s in
      if negb (task_low_priority s (se_prio s se))
      then upd_hmp_cfs_avg cpu (fun h => h <| nr_normal_prio := u32 (nr_normal_prio h - 1) |>) s
      else s
    else s in
  if sleep then
    let s := upd_cfs q (fun c => c <| blocked_load_avg :=
               u64 (blocked_load_avg c + load_avg_contrib (se_avg (ses s se))) |>) s in
    upd_avg se (fun a => a <| decay_count := decay_counter (cfss s q) |>) s
  else s.

Definition idle_enter_fair (c : Z) (s : sys) : sys := update_rq_runnable_avg c true s.
Definition idle_exit_fair (c : Z) (s : sys) : sys := update_rq_runnable_avg c false s.

End entity_load.

(** * Frame lemmas

    What each operation leaves alone: [rla] is a run queue's runnable load,
    [contrib] an entity's contribution to it. *)

Definition rla (s : sys) (q : cfs_id) : Z := runnable_load_avg (cfss s q).
Definition contrib (s : sys) (i : se_id) : Z := load_avg_contrib (se_avg (ses s i)).
Definition ratio (s : sys) (i : se_id) : Z := load_avg_ratio (se_avg (ses s i)).

(** The update of a run queue does not touch its runnable load. *)
Lemma rla_upd_cfs_frame q f s q' :
  (forall c, runnable_load_avg (f c) = runnable_load_avg c) -> rla (upd_cfs q f s) q' = rla s q'.
Proof.
  intros Hf. unfold rla. destruct (decide (q = q')) as [->|]; autorewrite with store; auto.
Qed.

Lemma rla_upd_cfs q f s q' :
  rla (upd_cfs q f s) q' = if decide (q' = q) then runnable_load_avg (f (cfss s q)) else rla s q'.
Proof. unfold rla. case_decide; subst; by autorewrite with store. Qed.

(** The part of a run queue that load tracking does not write. *)
Definition cfs_frame (c : cfs_rq) : option se_id * Z * Z * Z * Z * list se_id :=
  (curr c, cfs_cpu c, cfs_tg c, cfs_weight c, cfs_nr_running c, tasks_timeline c).

(** Two stores that agree on everything but the running averages of one entity,
    the averages of the run queues and group statistics: what every load-tracking
    operation on entity [i] guarantees. *)
Record only_avg (i : se_id) (s s' : sys) : Prop := {
  oa_other : forall j, j <> i -> ses s' j = ses s j;
  oa_self : ses s' i = (ses s i) <| se_avg := se_avg (ses s' i) |>;
  oa_cfs : forall q, cfs_frame (cfss s' q) = cfs_frame (cfss s q);
  oa_tun : tun s' = tun s /\ freq_scale s' = freq_scale s /\ nr_cpu_ids s' = nr_cpu_ids s /\ enh s' = enh s;
}.

Lemma se_eta (e : sched_entity) : e = e <| se_avg := se_avg e |>.
Proof. by destruct e. Qed.

Lemma only_avg_refl i s : only_avg i s s.
Proof. split; auto. apply se_eta. Qed.

Lemma only_avg_trans i s1 s2 s3 : only_avg i s1 s2 -> only_avg i s2 s3 -> only_avg i s1 s3.
Proof.
  intros [o1 e1 c1 (t1 & f1 & n1 & h1)] [o2 e2 c2 (t2 & f2 & n2 & h2)]. split.
  - intros j Hj. rewrite o2, o1; auto.
  - rewrite e2 at 1. rewrite e1 at 1. done.
  - intros q. by rewrite c2, c1.
  - split_and!; congruence.
Qed.

Lemma only_avg_upd_avg i f s : only_avg i s (upd_avg i f s).
Proof. split; intros; autorewrite with store; auto. Qed.

Lemma only_avg_upd_cfs i q f s :
  (forall c, cfs_frame (f c) = cfs_frame c) -> only_avg i s (upd_cfs q f s).
Proof.
  intros Hc. split; auto.
  - apply se_eta.
  - intros q'. destruct (decide (q = q')) as [->|]; autorewrite with store; auto.
Qed.

Lemma only_avg_upd_tg i g f s : only_avg i s (upd_tg g f s).
Proof. split; auto. apply se_eta. Qed.
Lemma only_avg_upd_rq i c f s : only_avg i s (upd_rq c f s).
Proof. split; auto. apply se_eta. Qed.

Create HintDb frame.
#[export] Hint Resolve only_avg_upd_avg only_avg_upd_tg only_avg_upd_rq : frame.
#[export] Hint Extern 2 (only_avg _ _ (upd_cfs _ _ _)) =>
  apply only_avg_upd_cfs; intros; repeat case_match; reflexivity : frame.
#[export] Hint Extern 2 (only_avg _ _ (upd_rq_avg _ _ _)) => apply only_avg_upd_rq : frame.
#[export] Hint Extern 2 (only_avg _ _ (upd_hmp_cfs_avg _ _ _)) => apply only_avg_upd_rq : frame.

(** Splits a chain of updates into its links, last first. *)
Ltac frame_chain :=
  cbv zeta;
  repeat first
    [ apply only_avg_refl
    | eapply only_avg_trans; [|solve [auto with frame nocore]]
    | case_match ].

Section frames.
Context `{Config}.
Implicit Types (s : sys) (i : se_id) (q : cfs_id).

Lemma subtract_blocked_frame q x s i : only_avg i s (subtract_blocked_load_contrib q x s).
Proof. apply only_avg_upd_cfs; intros c; by case_match. Qed.
Lemma subtract_blocked_rla q x s q' : rla (subtract_blocked_load_contrib q x s) q' = rla s q'.
Proof. apply rla_upd_cfs_frame. intros c. by case_match. Qed.
Hint Resolve subtract_blocked_frame : frame.

Lemma tg_load_contrib_frame q b s i : only_avg i s (__update_cfs_rq_tg_load_contrib q b s).
Proof. unfold __update_cfs_rq_tg_load_contrib. frame_chain. Qed.
Lemma tg_load_contrib_rla q b s q' : rla (__update_cfs_rq_tg_load_contrib q b s) q' = rla s q'.
Proof.
  unfold __update_cfs_rq_tg_load_contrib. case_match; [|done].
  by rewrite rla_upd_cfs_frame.
Qed.
Hint Resolve tg_load_contrib_frame : frame.

Lemma blocked_load_frame q b s i : only_avg i s (update_cfs_rq_blocked_load q b s).
Proof. unfold update_cfs_rq_blocked_load. frame_chain. Qed.
Lemma blocked_load_rla q b s q' : rla (update_cfs_rq_blocked_load q b s) q' = rla s q'.
Proof.
  unfold update_cfs_rq_blocked_load. case_match; [done|]. rewrite tg_load_contrib_rla.
  destruct (nonzero (u64 _)); destruct (nonzero (removed_load _));
    rewrite ?rla_upd_cfs_frame, ?subtract_blocked_rla, ?rla_upd_cfs_frame by done; done.
Qed.
Lemma task_contrib_frame i s : only_avg i s (__update_task_entity_contrib i s).
Proof. apply only_avg_upd_avg. Qed.
Hint Resolve blocked_load_frame task_contrib_frame : frame.

(** What [update_entity_load_avg] computes for a task: the new average, and whether
    a period boundary was crossed. *)
Definition task_avg (i : se_id) (s : sys) : sched_avg * bool :=
  let q := cfs_rq_of s i in
  update_avg s (cfs_rq_clock_task s q) (se_avg (ses s i)) (nonzero (on_rq (ses s i)))
    (bool_decide (curr (cfss s q) = Some i))
    (if scaled then cpu_of_cfs s q else -1).

(** The entity's average after the update, contribution and ratio included. *)
Definition new_task_avg (i : se_id) (s : sys) : sched_avg :=
  let '(sa, decayed) := task_avg i s in
  if decayed then
    let sa' := sa <| load_avg_contrib := avg_times_weight sa (se_weight (ses s i)) |> in
    if CONFIG_SCHED_HMP_ENHANCEMENT
    then sa' <| load_avg_ratio := avg_times_weight sa NICE_0_LOAD |> else sa'
  else sa.

Lemma entity_is_task_upd_avg i f s j : entity_is_task (upd_avg i f s) j = entity_is_task s j.
Proof.
  unfold entity_is_task. destruct (decide (i = j)) as [->|]; by autorewrite with store.
Qed.

(** Unfolds the update of a task down to the store updates it makes. *)
Ltac unfold_task_update Ht :=
  unfold update_entity_load_avg, new_task_avg, task_avg, __update_entity_load_avg_contrib,
    __update_task_entity_contrib, __update_task_entity_ratio;
  rewrite ?entity_is_task_upd_avg, ?Ht;
  destruct (update_avg _ _ _ _ _ _) as [sa d]; cbv beta iota zeta;
  rewrite ?entity_is_task_upd_avg, ?Ht, ?andb_true_r; cbv beta iota zeta;
  rewrite ?entity_is_task_upd_avg, ?Ht, ?andb_true_r;
  destruct d; cbn [negb fst snd andb].

Lemma update_task_frame i b s :
  entity_is_task s i = true -> only_avg i s (update_entity_load_avg i b s).
Proof.
  intros Ht. unfold_task_update Ht; [|auto with frame].
  destruct CONFIG_SCHED_HMP_ENHANCEMENT; frame_chain.
Qed.

Lemma update_task_avg i b s :
  entity_is_task s i = true -> se_avg (ses (update_entity_load_avg i b s) i) = new_task_avg i s.
Proof.
  intros Ht. unfold_task_update Ht; [|by store_simpl].
  unfold subtract_blocked_load_contrib.
  destruct CONFIG_SCHED_HMP_ENHANCEMENT, b; cbn [negb]; try case_match; by store_simpl.
Qed.

(** How the run queue's runnable load follows: it receives the change of the
    contribution if the task is queued. *)
Lemma update_task_rla i b s q :
  entity_is_task s i = true ->
  rla (update_entity_load_avg i b s) q
  = if bool_decide (q = cfs_rq_of s i) && (task_avg i s).2 && b && nonzero (on_rq (ses s i))
    then u64 (rla s q + slong (load_avg_contrib (new_task_avg i s)
                               - slong (load_avg_contrib (task_avg i s).1)))
    else rla s q.
Proof.
  intros Ht. unfold_task_update Ht; [|by rewrite andb_false_r].
  unfold rla. rewrite !andb_true_r.
  destruct b; cbn [negb]; rewrite ?andb_false_r, ?andb_true_r;
    [|by destruct CONFIG_SCHED_HMP_ENHANCEMENT].
  destruct (decide (q = cfs_rq_of s i)) as [->|Hq];
    [rewrite bool_decide_true by done|rewrite bool_decide_false by done];
  destruct CONFIG_SCHED_HMP_ENHANCEMENT; store_simpl; destruct (nonzero (on_rq _)); 
    store_simpl; try done; apply subtract_blocked_rla.
Qed.

(** * Contributions *)

Lemma avg_times_weight_bounds sa w :
  sums_ok sa -> 0 <= w -> 0 <= avg_times_weight sa w <= w.
Proof.
  intros [Hs Hp] Hw. unfold avg_times_weight, scale_load_down.
  unfold AVG_BOUND in Hp. rewrite (u32_id (_ + 1)) by lia.
  pose proof (u32_range (runnable_avg_sum sa * w)).
  assert (u32 (runnable_avg_sum sa * w) <= runnable_avg_sum sa * w) by (apply Z.mod_le; nia).
  split; [apply Z.div_pos; lia | apply Z.div_le_upper_bound; nia].
Qed.

(** Up to this weight (the largest below nice -20's) the 32-bit product is exact. *)
Definition WEIGHT_BOUND : Z := 87381.

Lemma avg_times_weight_exact sa w :
  sums_ok sa -> 0 <= w <= WEIGHT_BOUND ->
  avg_times_weight sa w = runnable_avg_sum sa * w / (runnable_avg_period sa + 1).
Proof.
  unfold WEIGHT_BOUND. intros [Hs Hp] Hw. unfold avg_times_weight, scale_load_down.
  unfold AVG_BOUND in Hp. rewrite !u32_id by nia. done.
Qed.

(** The contribution of a task of nice -19 to 19 is its weight times the
    fraction of the recent past it was runnable, rounded down: the 32-bit product
    does not overflow, and the result is below the weight. *)
Theorem task_contrib_exact i s :
  sums_ok (se_avg (ses s i)) -> 0 < se_weight (ses s i) <= WEIGHT_BOUND ->
  let sa := se_avg (ses s i) in
  let c := contrib (__update_task_entity_contrib i s) i in
  c = runnable_avg_sum sa * se_weight (ses s i) / (runnable_avg_period sa + 1)
  /\ 0 <= c < se_weight (ses s i).
Proof.
  intros Hs Hw. unfold contrib, __update_task_entity_contrib. store_simpl.
  unfold scale_load. rewrite avg_times_weight_exact by (done || lia).
  destruct Hs. split; [done|]. split; [apply Z.div_pos; nia | apply Z.div_lt_upper_bound; nia].
Qed.

Lemma task_avg_fields i s :
  load_avg_contrib (task_avg i s).1 = contrib s i /\ load_avg_ratio (task_avg i s).1 = ratio s i
  /\ decay_count (task_avg i s).1 = decay_count (se_avg (ses s i)).
Proof. unfold task_avg, update_avg, contrib, ratio. cbv zeta. by apply update_keeps_fields. Qed.

(** Without CONFIG_SCHED_HMP_ENHANCEMENT nothing recomputes a task's
    [load_avg_ratio], the value that all HMP migration thresholds are compared
    with: it keeps the value it was given at fork across every update, enqueue and
    dequeue. *)
Theorem load_avg_ratio_frozen i b s :
  CONFIG_SCHED_HMP_ENHANCEMENT = false -> entity_is_task s i = true ->
  ratio (update_entity_load_avg i b s) i = ratio s i.
Proof.
  intros Hc Ht. unfold ratio at 1. rewrite update_task_avg by done. unfold new_task_avg.
  destruct (task_avg_fields i s) as (_ & Hr & _).
  destruct (task_avg i s) as [sa d]. rewrite Hc. by destruct d.
Qed.

(** * Enqueue and dequeue *)

(** What the operations rely on for an entity: its sums are in range and its weight
    is one of [prio_to_weight]. *)
Record task_ok (s : sys) (i : se_id) : Prop := {
  to_task : entity_is_task s i = true;
  to_sums : sums_ok (se_avg (ses s i));
  to_weight : 0 <= se_weight (ses s i) <= 88761;
  to_contrib : 0 <= contrib s i <= 88761;
}.

(** The frequency scales never exceed 1.0. *)
Definition scales_ok (s : sys) : Prop :=
  forall cpu, 0 <= load_scale (hmp_data (tun s)) (freq_scale s) (invariant_cpu_capacity (enh s)) (nr_cpu_ids s) cpu <= 1024.

Lemma scales_ok_frame i s s' : only_avg i s s' -> scales_ok s -> scales_ok s'.
Proof. intros [_ _ _ (E1 & E2 & E3 & E4)] Hs c. rewrite E1, E2, E3, E4. apply Hs. Qed.

(** A frame step preserves [task_ok] if it keeps the sums and contribution sane. *)
Lemma task_ok_frame i s s' :
  only_avg i s s' -> task_ok s i -> sums_ok (se_avg (ses s' i)) -> 0 <= contrib s' i <= 88761 ->
  task_ok s' i.
Proof.
  intros F [Ht _ Hw _] Hs Hc. pose proof (oa_self _ _ _ F) as E. split; auto.
  - unfold entity_is_task in *. by rewrite E.
  - by rewrite E.
Qed.

Lemma new_task_avg_ok i s :
  scales_ok s -> task_ok s i ->
  sums_ok (new_task_avg i s) /\ 0 <= load_avg_contrib (new_task_avg i s) <= 88761.
Proof.
  intros Hsc [Ht Hs Hw Hc]. destruct (task_avg_fields i s) as (Ec & _ & _).
  assert (Hs' : sums_ok (task_avg i s).1).
  { unfold task_avg, update_avg. cbv zeta. apply update_keeps_sums_ok; [done|apply Hsc]. }
  unfold new_task_avg. destruct (task_avg i s) as [sa d]. cbn [fst snd] in *.
  pose proof (avg_times_weight_bounds sa (se_weight (ses s i)) Hs' ltac:(lia)).
  destruct d, CONFIG_SCHED_HMP_ENHANCEMENT; simpl; (split; [exact Hs'|lia]).
Qed.

Lemma update_task_ok i b s :
  scales_ok s -> task_ok s i -> task_ok (update_entity_load_avg i b s) i.
Proof.
  intros Hsc Hok. pose proof (to_task _ _ Hok) as Ht.
  destruct (new_task_avg_ok i s Hsc Hok) as [Hs Hc].
  apply (task_ok_frame i s); [by apply update_task_frame|done|..].
  - by rewrite update_task_avg.
  - unfold contrib. by rewrite update_task_avg.
Qed.

(** A step on behalf of task [i] that moves no runnable load and keeps the task sane. *)
Record quiet (i : se_id) (s s' : sys) : Prop := {
  qt_frame : only_avg i s s';
  qt_rla : forall q, rla s' q = rla s q;
  qt_ok : task_ok s' i;
}.

Lemma quiet_refl i s : task_ok s i -> quiet i s s.
Proof. split; auto using only_avg_refl. Qed.

Lemma quiet_trans i s1 s2 s3 :
  quiet i s1 s2 -> (task_ok s2 i -> quiet i s2 s3) -> quiet i s1 s3.
Proof.
  intros [F1 R1 O1] H2. destruct (H2 O1) as [F2 R2 O2]. split; [|intros q|done].
  - by eapply only_avg_trans.
  - by rewrite R2, R1.
Qed.

Lemma quiet_upd_avg i f s :
  (forall a, runnable_avg_sum (f a) = runnable_avg_sum a
             /\ runnable_avg_period (f a) = runnable_avg_period a) ->
  (forall a, 0 <= load_avg_contrib a <= 88761 -> 0 <= load_avg_contrib (f a) <= 88761) ->
  task_ok s i -> quiet i s (upd_avg i f s).
Proof.
  intros Hf Hc Hok. split; [auto with frame|done|].
  destruct (Hf (se_avg (ses s i))) as [E1 E2].
  apply (task_ok_frame i s); [auto with frame|done|..].
  - unfold sums_ok. store_simpl. rewrite E1, E2. apply Hok.
  - unfold contrib. store_simpl. apply Hc, Hok.
Qed.

(** Updates of other objects: the entity itself is untouched. *)
Lemma quiet_same i s s' :
  only_avg i s s' -> (forall q, rla s' q = rla s q) -> ses s' i = ses s i ->
  task_ok s i -> quiet i s s'.
Proof.
  intros F R E Hok. split; [done|done|]. apply (task_ok_frame i s); [done|done|..];
    unfold contrib; rewrite E; apply Hok.
Qed.

Lemma blocked_load_ses q b s i : ses (update_cfs_rq_blocked_load q b s) i = ses s i.
Proof.
  unfold update_cfs_rq_blocked_load, __update_cfs_rq_tg_load_contrib,
    subtract_blocked_load_contrib. repeat case_match; by store_simpl.
Qed.

Lemma quiet_subtract i q x s : task_ok s i -> quiet i s (subtract_blocked_load_contrib q x s).
Proof. apply quiet_same; [auto with frame|apply subtract_blocked_rla|done]. Qed.
Lemma quiet_blocked i q b s : task_ok s i -> quiet i s (update_cfs_rq_blocked_load q b s).
Proof. apply quiet_same; [auto with frame|apply blocked_load_rla|apply blocked_load_ses]. Qed.
Lemma quiet_upd_rq i c f s : task_ok s i -> quiet i s (upd_rq c f s).
Proof. by apply quiet_same; auto with frame. Qed.

Lemma quiet_update i s :
  scales_ok s -> task_ok s i -> quiet i s (update_entity_load_avg i false s).
Proof.
  intros Hsc Hok. split; [by apply update_task_frame, Hok| |by apply update_task_ok].
  intros q. rewrite update_task_rla by apply Hok. by rewrite andb_false_r.
Qed.

Lemma quiet_synchronize i s : task_ok s i -> quiet i s (__synchronize_entity_decay i s).1.
Proof.
  intros Hok. unfold __synchronize_entity_decay. cbv zeta. cbn [fst].
  eapply quiet_trans; [|intros; apply quiet_upd_avg; [done|done|done]].
  case_match; [|by apply quiet_refl]. apply quiet_upd_avg; [done| |done].
  intros a Ha. simpl.
  pose proof (u64_range (decay_counter (cfss s (cfs_rq_of s i)) - decay_count (se_avg (ses s i)))).
  pose proof (decay_load_bounds (load_avg_contrib a) (u64
     (decay_counter (cfss s (cfs_rq_of s i)) - decay_count (se_avg (ses s i)))) ltac:(lia) ltac:(lia)).
  rewrite ulong_id; lia.
Qed.

Lemma quiet_enqueue_sync i q w s :
  scales_ok s -> task_ok s i -> quiet i s (enqueue_sync q i w s).1.
Proof.
  intros Hsc Hok. unfold enqueue_sync.
  assert (Hp : forall s1, quiet i s s1 -> scales_ok s1).
  { intros s1 [F _ _]. by eapply scales_ok_frame. }
  set (p := if decay_count _ <=? 0 then _ else _).
  assert (Q : quiet i s p.1).
  { unfold p. case_match; [|by apply quiet_synchronize]. cbv zeta. cbn [fst].
    set (s1 := upd_avg _ _ s).
    assert (Q1 : quiet i s s1) by (by apply quiet_upd_avg).
    case_match; [|done].
    eapply quiet_trans; [|intros; by apply quiet_upd_avg].
    set (s2 := upd_avg _ _ s1).
    assert (Q2 : quiet i s s2).
    { eapply quiet_trans; [exact Q1|]. intros. by apply quiet_upd_avg. }
    eapply quiet_trans; [exact Q2|]. intros. apply quiet_update; auto. }
  clearbody p. destruct p as [s1 w1]. cbn [fst] in Q. cbv zeta. destruct w1; [|done].
  eapply quiet_trans; [|intros; apply quiet_update; [|done]].
  - eapply quiet_trans; [exact Q|]. intros. by apply quiet_subtract.
  - apply (scales_ok_frame i s1); auto. auto with frame.
Qed.

(** Enqueueing a task adds exactly its (updated) contribution to the run queue. *)
Lemma enqueue_load_spec i q w s :
  scales_ok s -> task_ok s i ->
  let s' := enqueue_entity_load_avg q i w s in
  only_avg i s s' /\ task_ok s' i
  /\ forall q', rla s' q' = if decide (q' = q) then u64 (rla s q + contrib s' i) else rla s q'.
Proof.
  intros Hsc Hok. pose proof (quiet_enqueue_sync i q w s Hsc Hok) as Q.
  unfold enqueue_entity_load_avg. destruct (enqueue_sync q i w s) as [s1 w1].
  cbn [fst] in Q. cbv zeta.
  set (s2 := upd_cfs _ _ s1). set (s3 := upd_rq_avg _ _ s2).
  set (s4 := if CONFIG_SCHED_HMP_ENHANCEMENT then _ else s3).
  assert (F2 : only_avg i s1 s2) by (unfold s2; auto with frame).
  assert (O2 : task_ok s2 i) by (apply (task_ok_frame i s1); [done|apply Q..]).
  assert (Q4 : quiet i s2 s4).
  { unfold s4, s3. repeat case_match; repeat (eapply quiet_trans;
      [|intros; by apply quiet_upd_rq]); by apply quiet_refl. }
  assert (Q5 : quiet i s2 (update_cfs_rq_blocked_load q (negb w1) s4)).
  { eapply quiet_trans; [exact Q4|]. intros. by apply quiet_blocked. }
  assert (E : contrib (update_cfs_rq_blocked_load q (negb w1) s4) i = contrib s1 i).
  { unfold contrib. rewrite blocked_load_ses. unfold s4, s3, s2. repeat case_match; by store_simpl. }
  split_and!; [|apply Q5|].
  - eapply only_avg_trans; [apply Q|]. eapply only_avg_trans; [exact F2|apply Q5].
  - intros q'. rewrite (qt_rla _ _ _ Q5), E. unfold s2.
    rewrite <- !(qt_rla _ _ _ Q). unfold rla, contrib.
    case_decide; subst; by store_simpl.
Qed.

(** The update of a queued task moves the run queue's load by the change of its
    contribution. *)
Lemma update_queued_rla i s q :
  scales_ok s -> task_ok s i -> on_rq (ses s i) <> 0 ->
  (q = cfs_rq_of s i -> is_u64 (rla s q)) ->
  let s' := update_entity_load_avg i true s in
  rla s' q = if decide (q = cfs_rq_of s i) then u64 (rla s q + (contrib s' i - contrib s i))
             else rla s q.
Proof.
  intros Hsc Hok Hq Hr s'. pose proof (to_task _ _ Hok) as Ht.
  pose proof (new_task_avg_ok i s Hsc Hok) as [_ Hn].
  destruct (task_avg_fields i s) as (Ec & _ & _). pose proof (to_contrib _ _ Hok) as Hc.
  unfold s'. rewrite update_task_rla by done.
  assert (E' : contrib s' i = load_avg_contrib (new_task_avg i s))
    by (unfold contrib, s'; by rewrite update_task_avg).
  fold s'. rewrite E', Ec.
  replace (nonzero (on_rq (ses s i))) with true by (unfold nonzero; lia).
  rewrite !andb_true_r.
  case_decide; [rewrite bool_decide_true by done|by rewrite bool_decide_false].
  destruct (task_avg i s).2 eqn:Ed; cbn [andb].
  - by rewrite !slong_id by (rewrite ?slong_id; lia).
  - assert (load_avg_contrib (new_task_avg i s) = contrib s i) as ->.
    { rewrite <- Ec. unfold new_task_avg. destruct (task_avg i s) as [sa d]. cbn in *.
      by subst d. }
    rewrite Z.sub_diag, Z.add_0_r, u64_id; [done|by apply Hr].
Qed.

(** Dequeueing a queued task takes exactly the contribution it had away again. *)
Lemma dequeue_load_spec i q b s :
  scales_ok s -> task_ok s i -> cfs_rq_of s i = q -> on_rq (ses s i) <> 0 ->
  is_u64 (rla s q) ->
  let s' := dequeue_entity_load_avg q i b s in
  only_avg i s s' /\ task_ok s' i
  /\ forall q', rla s' q' = if decide (q' = q) then u64 (rla s q - contrib s i) else rla s q'.
Proof.
  intros Hsc Hok Hq Hon Hr. unfold dequeue_entity_load_avg. cbv zeta.
  set (s1 := update_entity_load_avg i true s).
  set (s2 := update_cfs_rq_blocked_load q (negb b) s1).
  assert (F1 : only_avg i s s1) by (by apply update_task_frame, Hok).
  assert (Q2 : quiet i s1 s2) by (apply quiet_blocked; by apply update_task_ok).
  set (s3 := upd_cfs q _ s2). set (s4 := upd_rq_avg _ _ s3).
  set (s5 := if _ && _ then _ else s4).
  assert (F3 : only_avg i s2 s3) by (unfold s3; auto with frame).
  assert (O3 : task_ok s3 i) by (apply (task_ok_frame i s2); [done|apply Q2..]).
  assert (Q5 : quiet i s3 s5).
  { unfold s5, s4. repeat case_match; repeat (eapply quiet_trans;
      [|intros; by apply quiet_upd_rq]); by apply quiet_refl. }
  set (s6 := if b then _ else s5).
  assert (Q6 : quiet i s3 s6).
  { unfold s6. case_match; [|done]. eapply quiet_trans; [|intros; by apply quiet_upd_avg].
    eapply quiet_trans; [exact Q5|]. intros. apply quiet_same; [auto with frame| |done|done].
    intros q'. by rewrite rla_upd_cfs_frame. }
  split_and!; [|apply Q6|].
  - eapply only_avg_trans; [exact F1|]. eapply only_avg_trans; [apply Q2|].
    eapply only_avg_trans; [exact F3|apply Q6].
  - intros q'. rewrite (qt_rla _ _ _ Q6). unfold s3. rewrite rla_upd_cfs.
    assert (E : contrib s2 i = contrib s1 i) by (unfold contrib, s2; by rewrite blocked_load_ses).
    pose proof (update_queued_rla i s q' Hsc Hok Hon ltac:(intros ->; by rewrite Hq)) as U.
    fold s1 in U. rewrite Hq in U.
    pose proof (qt_rla _ _ _ Q2 q') as R2.
    case_decide; [subst q'|congruence].
    change (u64 (rla s2 q - contrib s2 i) = u64 (rla s q - contrib s i)).
    rewrite E, R2, U, u64_sub_l. f_equal. lia.
Qed.
End frames.

(** * Overflow at nice -20 *)

(** A queued task of nice -20, runnable all its life, whose average was last
    updated 363.5 ms ago. *)
Definition heavy_sys : sys :=
  upd_rq 4 (fun r => r <| clock_task := Z.shiftl 363500 10 |>)
    (upd_se (TaskSe 4) (fun e => e <| se_weight := 88761 |> <| on_rq := 1 |>
       <| se_avg := sample_avg <| runnable_avg_sum := 47000 |> <| runnable_avg_period := 47000 |>
                               <| usage_avg_sum := 0 |> <| last_runnable_update := 0 |> |>)
       (sample_sys <| tun := (tun sample_sys) <| hmp_data := mk_hmp_data 0 65536 |> |>)).

(** A task of nice -20 (weight 88761) overflows the 32-bit product of
    [__update_task_entity_contrib] once its sum passes 48388, which a single update
    over 345 or more periods produces: the task has been runnable all the time, yet
    the contribution of the heaviest kind of task drops below that of a nice-0
    task. *)
Theorem task_contrib_overflow :
  let s := update_entity_load_avg (H := big_LITTLE_MP) (TaskSe 4) true heavy_sys in
  let sa := se_avg (ses s (TaskSe 4)) in
  avg_ok sa /\ runnable_avg_sum sa = runnable_avg_period sa /\ 48388 < runnable_avg_sum sa
  /\ contrib s (TaskSe 4) < NICE_0_LOAD.
Proof. vm_compute. intuition discriminate. Qed.

(** * Witnesses *)

Lemma sample_scales_ok `{Config} : scales_ok sample_sys.
Proof. intros c. unfold load_scale. repeat case_match; vm_compute; intuition discriminate. Qed.

Lemma task_contrib_exact_witness :
  contrib (__update_task_entity_contrib (TaskSe 4) sample_sys) (TaskSe 4) = 833.
Proof.
  destruct (task_contrib_exact (TaskSe 4) sample_sys) as [E _];
    [vm_compute; intuition discriminate | vm_compute; intuition discriminate |].
  rewrite E. vm_compute. reflexivity.
Defined.

Lemma load_avg_ratio_frozen_witness :
  ratio (update_entity_load_avg (H := big_LITTLE_MP) (TaskSe 4) true heavy_sys) (TaskSe 4)
  = ratio heavy_sys (TaskSe 4).
Proof. apply (load_avg_ratio_frozen (H := big_LITTLE_MP)); reflexivity. Defined.
