(* ===== verification/HmpDomain.v ===== *)
(** The HMP topology: which CPUs are big and which are LITTLE
    ([arch/arm/kernel/topology.c]), the list of HMP domains built from it, CPU
    hot-plug, and the keepalive timers ([kernel/sched/fair.c]). *)

From Stdlib Require Import String.
From S2P Require Import Prelude Pelt SchedTypes.

(** * Reading the device tree *)

(** A [struct device_node] of type "cpu": its [reg] property, if it has one of four
    bytes, and what [of_device_is_compatible] answers. *)
Record cpu_node := mk_cpu_node {
  node_reg : option Z;
  of_device_is_compatible : string -> bool;
}.

Definition little_cores : list string := ["arm,cortex-a7"%string].

Definition is_little_cpu (cn : cpu_node) : bool :=
  existsb (of_device_is_compatible cn) little_cores.

Section topology.
Context `{Config}.

(** [get_logical_index]: the logical CPU number for an MPIDR. *)
Definition get_logical_index (nr_cpu_ids : Z) (cpu_logical_map : Z -> Z) (mpidr : Z) : Z :=
  match List.find (fun cpu => cpu_logical_map cpu =? mpidr)
          (Z.of_nat <$> seq 0 (Z.to_nat nr_cpu_ids)) with
  | Some cpu => cpu
  | None => - EINVAL
  end.

(** The [while] loop over the CPU nodes; returns the fast and the slow mask. *)
Fixpoint scan_cpu_nodes (nr_cpu_ids : Z) (cpu_logical_map : Z -> Z) (nodes : list cpu_node)
    (fast slow : cpumask) : cpumask * cpumask :=
  match nodes with
  | [] => (fast, slow)
  | cn :: nodes =>
      match node_reg cn with
      | None => scan_cpu_nodes nr_cpu_ids cpu_logical_map nodes fast slow
      | Some mpidr =>
          let cpu := get_logical_index nr_cpu_ids cpu_logical_map mpidr in
          if cpu =? - EINVAL then (fast, slow)
          else if is_little_cpu cn
          then scan_cpu_nodes nr_cpu_ids cpu_logical_map nodes fast (cpumask_set_cpu cpu slow)
          else scan_cpu_nodes nr_cpu_ids cpu_logical_map nodes (cpumask_set_cpu cpu fast) slow
      end
  end.

Definition cpumask_setall : cpumask := Z.ones NR_CPUS.

(** [cpulist_parse] yields the error code and the mask it stored.  The two strings
    are CONFIG_HMP_FAST_CPU_MASK and CONFIG_HMP_SLOW_CPU_MASK. *)
Definition arch_get_fast_and_slow_cpus (cpulist_parse : string -> Z * cpumask)
    (config_fast config_slow : string) (nr_cpu_ids : Z) (cpu_logical_map : Z -> Z)
    (nodes : list cpu_node) : cpumask * cpumask :=
  if negb (String.eqb config_fast "") && negb (String.eqb config_slow "") then
    ((cpulist_parse config_fast).2, (cpulist_parse config_slow).2)
  else
    let '(fast, slow) := scan_cpu_nodes nr_cpu_ids cpu_logical_map nodes 0 0 in
    if negb (cpumask_empty fast) && negb (cpumask_empty slow) then (fast, slow)
    else (cpumask_setall, 0).

(** * The list of domains

    [hmp_domains] is a circular list through its head: the neighbour of the last
    domain is the head itself, which [list_entry] takes for a domain. *)

Definition hmp_domains_head : Z := -2.
Definition NULL_DOMAIN : Z := -1.

(** [kmalloc] and initialise a domain, and [list_add] it in front. *)
Definition add_domain (possible : cpumask) (s : sys) : sys :=
  let a := Z.of_nat (length (hmp_domains s)) in
  let s := upd_domain a (fun _ => {| possible_cpus := possible;
                                     hd_cpus := cpumask_and (cpu_online_mask s) possible |}) s in
  s <| hmp_domains := a :: hmp_domains s |>.

(** [arch_get_hmp_domains], given the masks [arch_get_fast_and_slow_cpus] found. *)
Definition arch_get_hmp_domains (masks : cpumask * cpumask) (s : sys) : sys :=
  let '(fast, slow) := masks in
  let s := s <| hmp_slow_cpu_mask := slow |> in
  let s := if CONFIG_SCHED_HMP_ENHANCEMENT then s <| hmp_fast_cpu_mask := fast |> else s in
  let s := if cpumask_empty slow then s else add_domain slow s in
  add_domain fast s.

(** [per_cpu(hmp_cpu_domain, cpu) = domain] for the CPUs of one domain. *)
Definition set_cpu_domain (a : Z) (s : sys) : sys :=
  foldl (fun s cpu => s <| hmp_cpu_domain := <[cpu := a]> (hmp_cpu_domain s) |>) s
    (cpus_of (possible_cpus (domains s a))).

(** The body of the loop over the domains of [hmp_cpu_mask_setup]. *)
Definition setup_domain (s : sys) (a : Z) : sys :=
  let s :=
    if CONFIG_SCHED_HMP_ENHANCEMENT then
      if cpumask_empty (hmp_fast_cpu_mask s)
      then s <| hmp_fast_cpu_mask := possible_cpus (domains s a) |>
      else if cpumask_empty (hmp_slow_cpu_mask s)
      then s <| hmp_slow_cpu_mask := possible_cpus (domains s a) |>
      else s
    else s in
  set_cpu_domain a s.

Definition hmp_cpu_mask_setup (masks : cpumask * cpumask) (s : sys) : sys * Z :=
  let s := if CONFIG_SCHED_HMP_ENHANCEMENT
           then s <| hmp_fast_cpu_mask := 0 |> <| hmp_slow_cpu_mask := 0 |> else s in
  let s := arch_get_hmp_domains masks s in
  match hmp_domains s with
  | [] => (s, 0)
  | l => (foldl setup_domain s l, 1)
  end.

Definition hmp_get_hmp_domain_for_cpu (cpu : Z) (s : sys) : option Z :=
  List.find (fun a => cpumask_test_cpu cpu (possible_cpus (domains s a))) (hmp_domains s).

(** ** Keepalive timers *)

(** The delay that keeps [cpu] out of the idle states whose exit latency exceeds
    [ns_delay]; 0 if there is none. *)
Definition hmp_keepalive_delay (cpu ns_delay : Z) (s : sys) : Z :=
  match cpuidle_drv s cpu with
  | None => ns_delay
  | Some states =>
      let us_max_delay := ns_delay / 1000 in
      let us_delay :=
        foldl (fun us_delay st =>
                 if (us_max_delay <? exit_latency st) && (target_residency st <? us_delay)
                 then target_residency st else us_delay) UINT_MAX states in
      if us_delay =? UINT_MAX then 0 else u32 (1000 * u32 (us_delay - 1))
  end.

(** [cpu] is [smp_processor_id()]. *)
Definition hmp_cpu_keepalive_trigger (cpu : Z) (s : sys) : sys :=
  let s :=
    if ka_init (hmp_cpu_keepalive s cpu) then s
    else
      let s := upd_keepalive cpu (fun k => k <| ka_timer := None |>) s in
      let ns_delay := hmp_keepalive_delay cpu 100000 s in
      let s := upd_keepalive cpu (fun k => k <| ka_delay := ns_delay |>) s in
      upd_keepalive cpu (fun k => k <| ka_init := true |>) s in
  if nonzero (ka_delay (hmp_cpu_keepalive s cpu))
  then upd_keepalive cpu (fun k => k <| ka_timer := Some (ka_delay k) |>) s
  else s.

Definition hmp_cpu_keepalive_cancel (cpu : Z) (s : sys) : sys :=
  if ka_init (hmp_cpu_keepalive s cpu)
  then upd_keepalive cpu (fun k => k <| ka_timer := None |>) s else s.

(** ** Hot-plug *)

Definition hmp_online_cpu (cpu : Z) (s : sys) : sys :=
  match hmp_get_hmp_domain_for_cpu cpu s with
  | Some a => upd_domain a (fun d => d <| hd_cpus := cpumask_set_cpu cpu (hd_cpus d) |>) s
  | None => s
  end.

Definition hmp_offline_cpu (cpu : Z) (s : sys) : sys :=
  let s :=
    match hmp_get_hmp_domain_for_cpu cpu s with
    | Some a => upd_domain a (fun d => d <| hd_cpus := cpumask_clear_cpu cpu (hd_cpus d) |>) s
    | None => s
    end in
  hmp_cpu_keepalive_cancel cpu s.

(** ** Neighbours *)

(** [list_entry(pos->next)] and [list_entry(pos->prev)] *)
Fixpoint next_in (x : Z) (l : list Z) : Z :=
  match l with
  | [] => hmp_domains_head
  | y :: l' => if y =? x then match l' with z :: _ => z | [] => hmp_domains_head end
               else next_in x l'
  end.
Definition prev_in (x : Z) (l : list Z) : Z := next_in x (rev l).

Definition hmp_smallest_domain (s : sys) : Z := List.last (hmp_domains s) hmp_domains_head.
Definition hmp_cpu_is_fastest (cpu : Z) (s : sys) : bool :=
  hmp_cpu_domain s cpu =? hd hmp_domains_head (hmp_domains s).
Definition hmp_cpu_is_slowest (cpu : Z) (s : sys) : bool :=
  next_in (hmp_cpu_domain s cpu) (hmp_domains s) =? hmp_domains_head.
Definition hmp_slower_domain (cpu : Z) (s : sys) : Z :=
  next_in (hmp_cpu_domain s cpu) (hmp_domains s).
Definition hmp_faster_domain (cpu : Z) (s : sys) : Z :=
  prev_in (hmp_cpu_domain s cpu) (hmp_domains s).


(** * The device tree scan *)

Lemma get_logical_index_spec n lm mpidr c :
  get_logical_index n lm mpidr = c -> c <> - EINVAL -> 0 <= c < n /\ lm c = mpidr.
Proof.
  unfold get_logical_index. intros <- Hc.
  destruct (List.find _ _) as [c|] eqn:Hf; [|done].
  apply List.find_some in Hf as [Hin Heq].
  apply list_elem_of_In, list_elem_of_fmap in Hin as (k & -> & Hk).
  apply elem_of_seq in Hk. lia.
Qed.

(** The nodes up to the first whose MPIDR has no logical CPU, as (CPU, little?). *)
Fixpoint scanned (n : Z) (lm : Z -> Z) (nodes : list cpu_node) : list (Z * bool) :=
  match nodes with
  | [] => []
  | cn :: nodes =>
      match node_reg cn with
      | None => scanned n lm nodes
      | Some mpidr =>
          let cpu := get_logical_index n lm mpidr in
          if cpu =? - EINVAL then [] else (cpu, is_little_cpu cn) :: scanned n lm nodes
      end
  end.

Lemma test_set_cpu c d m : 0 <= c -> 0 <= d ->
  cpumask_test_cpu d (cpumask_set_cpu c m) = cpumask_test_cpu d m || (d =? c).
Proof.
  intros Hc Hd. destruct (Z.eqb_spec d c) as [->|]; rewrite ?orb_true_r, ?orb_false_r.
  - by apply test_set_eq.
  - apply test_set_ne; [done|congruence].
Qed.

Lemma scan_cpu_nodes_spec n lm nodes fast slow c :
  0 <= c ->
  let '(fast', slow') := scan_cpu_nodes n lm nodes fast slow in
  (cpumask_test_cpu c fast' = true <-> cpumask_test_cpu c fast = true \/ (c, false) ∈ scanned n lm nodes)
  /\ (cpumask_test_cpu c slow' = true
      <-> cpumask_test_cpu c slow = true \/ (c, true) ∈ scanned n lm nodes).
Proof.
  intros Hc. revert fast slow.
  induction nodes as [|cn nodes IH]; intros fast slow; simpl; [set_solver|].
  destruct (node_reg cn) as [mpidr|]; [|apply IH].
  destruct (Z.eqb_spec (get_logical_index n lm mpidr) (- EINVAL)) as [|Hne]; [set_solver|].
  destruct (get_logical_index_spec n lm mpidr _ eq_refl Hne) as [Hb _].
  set (cpu := get_logical_index n lm mpidr) in *.
  destruct (is_little_cpu cn);
    [specialize (IH fast (cpumask_set_cpu cpu slow))
    |specialize (IH (cpumask_set_cpu cpu fast) slow)];
    destruct (scan_cpu_nodes _ _ _ _ _) as [fast' slow'];
    rewrite test_set_cpu, orb_true_iff, Z.eqb_eq in IH by lia;
    destruct IH as [-> ->]; rewrite !elem_of_cons; intuition congruence.
Qed.

(** Distinct MPIDRs give distinct CPUs, so no CPU is scanned twice. *)
Lemma scanned_lookup n lm nodes c b :
  (c, b) ∈ scanned n lm nodes ->
  0 <= c < n /\ exists cn, cn ∈ nodes /\ node_reg cn = Some (lm c) /\ is_little_cpu cn = b.
Proof.
  induction nodes as [|cn nodes IH]; simpl; [set_solver|].
  intros Hin. destruct (node_reg cn) as [mpidr|] eqn:Hr; [|naive_solver set_solver].
  destruct (Z.eqb_spec (get_logical_index n lm mpidr) (- EINVAL)) as [|Hne]; [set_solver|].
  destruct (get_logical_index_spec n lm mpidr _ eq_refl Hne) as [Hb Hl].
  apply elem_of_cons in Hin as [Heq|Hin]; [|naive_solver set_solver].
  simplify_eq. split; [done|]. exists cn. rewrite Hr, Hl. set_solver.
Qed.

Lemma node_by_reg (nodes : list cpu_node) cn1 cn2 r :
  NoDup (omap node_reg nodes) -> cn1 ∈ nodes -> cn2 ∈ nodes ->
  node_reg cn1 = Some r -> node_reg cn2 = Some r -> cn1 = cn2.
Proof.
  induction nodes as [|cn nodes IH]; [set_solver|]. intros Hd H1 H2 R1 R2.
  assert (Hm : forall x, x ∈ nodes -> node_reg x = Some r -> r ∈ omap node_reg nodes)
    by (intros x Hx Hr; apply list_elem_of_omap; eauto).
  simpl in Hd. apply elem_of_cons in H1, H2. destruct (node_reg cn) eqn:Hc.
  - apply list.NoDup_cons in Hd as [Hni Hd]. naive_solver.
  - naive_solver.
Qed.


(** The masks read from a device tree whose CPU nodes have distinct [reg] values and
    name a core of each kind. *)
Lemma fast_and_slow_cpus_spec parse n lm nodes df ds :
  NoDup (omap node_reg nodes) ->
  0 <= df < NR_CPUS -> (df, false) ∈ scanned n lm nodes ->
  0 <= ds < NR_CPUS -> (ds, true) ∈ scanned n lm nodes ->
  let '(fast, slow) := arch_get_fast_and_slow_cpus parse "" "" n lm nodes in
  cpumask_empty slow = false /\
  forall c, 0 <= c ->
    (cpumask_test_cpu c fast = true <-> (c, false) ∈ scanned n lm nodes)
    /\ (cpumask_test_cpu c slow = true <-> (c, true) ∈ scanned n lm nodes)
    /\ (cpumask_test_cpu c fast && cpumask_test_cpu c slow = false).
Proof.
  intros Hd Hdf Hf Hds Hs. unfold arch_get_fast_and_slow_cpus. simpl.
  pose proof (fun c Hc => scan_cpu_nodes_spec n lm nodes 0 0 c Hc) as S.
  destruct (scan_cpu_nodes n lm nodes 0 0) as [fast slow].
  assert (S' : forall c, 0 <= c ->
    (cpumask_test_cpu c fast = true <-> (c, false) ∈ scanned n lm nodes)
    /\ (cpumask_test_cpu c slow = true <-> (c, true) ∈ scanned n lm nodes)).
  { intros d Hd0. destruct (S d Hd0) as [-> ->]. unfold cpumask_test_cpu. rewrite Z.testbit_0_l.
    intuition discriminate. }
  assert (Ef : cpumask_empty fast = false).
  { apply (cpumask_nonempty df); [done|]. by apply (proj1 (S' df ltac:(lia))). }
  assert (Es : cpumask_empty slow = false).
  { apply (cpumask_nonempty ds); [done|]. by apply (proj2 (S' ds ltac:(lia))). }
  rewrite Ef, Es. simpl. split; [done|].
  intros c Hc. destruct (S' c Hc) as [Sf Ss]. split_and!; [done|done|].
  apply not_true_is_false. rewrite andb_true_iff, Sf, Ss. intros [H1 H2].
  apply scanned_lookup in H1 as (_ & c1 & N1 & R1 & L1), H2 as (_ & c2 & N2 & R2 & L2).
  rewrite (node_by_reg nodes c1 c2 (lm c)) in L1 by done. congruence.
Qed.

(** * The topology invariant *)

(** Every CPU belongs to at most one domain, the per-CPU pointers agree with the
    domains, and a domain's [cpus] are its possible CPUs that are online. *)
Record topology_ok (s : sys) : Prop := {
  tk_nodup : NoDup (hmp_domains s);
  tk_addr : forall a, a ∈ hmp_domains s -> 0 <= a;
  tk_cpu : forall a c, a ∈ hmp_domains s -> 0 <= c < NR_CPUS ->
    cpumask_test_cpu c (possible_cpus (domains s a)) = true -> hmp_cpu_domain s c = a;
  tk_sync : forall a c, a ∈ hmp_domains s -> 0 <= c ->
    cpumask_test_cpu c (hd_cpus (domains s a))
    = cpumask_test_cpu c (cpu_online_mask s) && cpumask_test_cpu c (possible_cpus (domains s a));
}.

(** [set_cpu_domain] points exactly the possible CPUs of [a] to it. *)
Lemma set_cpu_domain_spec a s c :
  hmp_cpu_domain (set_cpu_domain a s) c
  = if bool_decide (c ∈ cpus_of (possible_cpus (domains s a))) then a else hmp_cpu_domain s c.
Proof.
  unfold set_cpu_domain. generalize (cpus_of (possible_cpus (domains s a))) as l. intros l. revert s.
  induction l as [|d l IH]; intros s; [done|]. simpl. rewrite IH. simpl.
  destruct (decide (d = c)) as [->|Hne].
  - rewrite fn_lookup_insert. repeat case_bool_decide; set_solver.
  - rewrite fn_lookup_insert_ne by done. repeat case_bool_decide; set_solver.
Qed.

Lemma set_cpu_domain_frame a s :
  domains (set_cpu_domain a s) = domains s /\ hmp_domains (set_cpu_domain a s) = hmp_domains s
  /\ cpu_online_mask (set_cpu_domain a s) = cpu_online_mask s.
Proof.
  unfold set_cpu_domain. generalize (cpus_of (possible_cpus (domains s a))) as l. intros l. revert s.
  induction l as [|d l IH]; intros s; [done|]. simpl. by destruct (IH
    (s <| hmp_cpu_domain := <[d:=a]> (hmp_cpu_domain s) |>)) as (-> & -> & ->).
Qed.

Lemma setup_domain_frame s a :
  domains (setup_domain s a) = domains s /\ hmp_domains (setup_domain s a) = hmp_domains s
  /\ cpu_online_mask (setup_domain s a) = cpu_online_mask s.
Proof.
  unfold setup_domain. repeat case_match;
    match goal with |- context [set_cpu_domain a ?s0] =>
      by destruct (set_cpu_domain_frame a s0) as (-> & -> & ->) end.
Qed.

Lemma setup_domain_spec a s c :
  hmp_cpu_domain (setup_domain s a) c
  = if bool_decide (c ∈ cpus_of (possible_cpus (domains s a))) then a else hmp_cpu_domain s c.
Proof.
  unfold setup_domain. cbv zeta. rewrite set_cpu_domain_spec.
  destruct CONFIG_SCHED_HMP_ENHANCEMENT; [|done].
  destruct (cpumask_empty (hmp_fast_cpu_mask s)); [done|].
  by destruct (cpumask_empty (hmp_slow_cpu_mask s)).
Qed.

(** What the set-up leaves: the store before the loop, with the CPU pointers set. *)
Lemma foldl_setup_frame l s :
  domains (foldl setup_domain s l) = domains s
  /\ hmp_domains (foldl setup_domain s l) = hmp_domains s
  /\ cpu_online_mask (foldl setup_domain s l) = cpu_online_mask s.
Proof.
  revert s. induction l as [|a l IH]; intros s; [done|]. simpl.
  destruct (IH (setup_domain s a)) as (-> & -> & ->). apply setup_domain_frame.
Qed.

(** The set-up stores in its domains the two masks, fast first. *)
Lemma arch_get_hmp_domains_spec fast slow s :
  hmp_domains s = [] -> cpumask_empty slow = false ->
  let s' := arch_get_hmp_domains (fast, slow) s in
  hmp_domains s' = [1; 0] /\ cpu_online_mask s' = cpu_online_mask s
  /\ domains s' 1 = mk_hmp_domain (cpumask_and (cpu_online_mask s) fast) fast
  /\ domains s' 0 = mk_hmp_domain (cpumask_and (cpu_online_mask s) slow) slow.
Proof.
  intros Hl Hs. unfold arch_get_hmp_domains, add_domain. rewrite Hs.
  destruct CONFIG_SCHED_HMP_ENHANCEMENT; simpl; rewrite Hl; simpl; done.
Qed.

Lemma hmp_cpu_mask_setup_spec fast slow s c :
  hmp_domains s = [] -> cpumask_empty slow = false ->
  (forall c, 0 <= c -> cpumask_test_cpu c fast && cpumask_test_cpu c slow = false) ->
  0 <= c < NR_CPUS ->
  let s' := (hmp_cpu_mask_setup (fast, slow) s).1 in
  topology_ok s' /\ hmp_domains s' = [1; 0]
  /\ (cpumask_test_cpu c fast = true -> hmp_cpu_domain s' c = 1)
  /\ (cpumask_test_cpu c slow = true -> hmp_cpu_domain s' c = 0).
Proof.
  intros Hl Hs Hdis Hc. unfold hmp_cpu_mask_setup.
  set (s0 := if CONFIG_SCHED_HMP_ENHANCEMENT then _ else s).
  assert (E0 : hmp_domains s0 = [] /\ cpu_online_mask s0 = cpu_online_mask s)
    by (unfold s0; by case_match).
  destruct E0 as [E0 Eo].
  destruct (arch_get_hmp_domains_spec fast slow s0 E0 Hs) as (El & Eo' & E1 & E2).
  set (s1 := arch_get_hmp_domains (fast, slow) s0) in *. rewrite El. cbn zeta. cbn [fst].
  destruct (foldl_setup_frame [1; 0] s1) as (Fd & Fl & Fo).
  assert (Hp : forall c, 0 <= c < NR_CPUS ->
    (cpumask_test_cpu c fast = true -> hmp_cpu_domain (foldl setup_domain s1 [1; 0]) c = 1)
    /\ (cpumask_test_cpu c slow = true -> hmp_cpu_domain (foldl setup_domain s1 [1; 0]) c = 0)).
  { intros d Hd. cbn [foldl]. rewrite !setup_domain_spec.
    destruct (setup_domain_frame s1 1) as (-> & _ & _). rewrite E1, E2. cbn [possible_cpus].
    specialize (Hdis d ltac:(lia)).
    split; intros Ht; rewrite Ht in Hdis;
      repeat case_bool_decide; rewrite ?elem_of_cpus_of in *; naive_solver congruence. }
  split_and!; [split|congruence|apply Hp; lia|apply Hp; lia]; rewrite ?Fl, ?Fd, ?Fo, ?El.
  - repeat constructor; set_solver.
  - set_solver by lia.
  - intros a d Ha Hd. apply elem_of_cons in Ha as [->|Ha%list_elem_of_singleton]; subst;
      rewrite ?E1, ?E2; simpl; apply Hp; lia.
  - intros a d Ha Hd. apply elem_of_cons in Ha as [->|Ha%list_elem_of_singleton]; subst;
      rewrite ?E1, ?E2, Eo'; simpl; apply test_and.
Qed.

(** C33. Boot-time topology.  From a device tree whose CPU nodes have distinct [reg]
    values and name at least one core of each kind, the set-up builds two domains
    that satisfy the topology invariant, and classifies each CPU by its node: a CPU
    with a LITTLE node is in the slowest domain, any other scanned CPU in the
    fastest, and the two are never the same. *)
Theorem hmp_topology_from_device_tree parse n lm nodes df ds s c b :
  NoDup (omap node_reg nodes) -> hmp_domains s = [] ->
  0 <= df < NR_CPUS -> (df, false) ∈ scanned n lm nodes ->
  0 <= ds < NR_CPUS -> (ds, true) ∈ scanned n lm nodes ->
  0 <= c < NR_CPUS -> (c, b) ∈ scanned n lm nodes ->
  let s' := (hmp_cpu_mask_setup (arch_get_fast_and_slow_cpus parse "" "" n lm nodes) s).1 in
  topology_ok s' /\ hmp_cpu_is_fastest c s' = negb b /\ hmp_cpu_is_slowest c s' = b.
Proof.
  intros Hd Hl Hdf Hf Hds Hs Hc Hcb.
  pose proof (fast_and_slow_cpus_spec parse n lm nodes df ds Hd Hdf Hf Hds Hs) as M.
  destruct (arch_get_fast_and_slow_cpus _ _ _ _ _ _) as [fast slow].
  destruct M as [Hse M].
  destruct (hmp_cpu_mask_setup_spec fast slow s c Hl Hse) as (Hok & El & Ef & Es);
    [intros d Hd0; by apply M|done|].
  split; [exact Hok|]. unfold hmp_cpu_is_fastest, hmp_cpu_is_slowest. rewrite El.
  destruct (M c ltac:(lia)) as (Mf & Ms & _).
  destruct b; [rewrite Es by (by apply Ms)|rewrite Ef by (by apply Mf)]; done.
Qed.

(** * Hot-plug *)

(** A CPU comes online or goes offline: the scheduler's callback runs and the
    online mask changes. *)
Inductive hotplug_event := CpuUp (c : Z) | CpuDown (c : Z).

Definition hotplug (s : sys) (e : hotplug_event) : sys :=
  match e with
  | CpuUp c => (hmp_online_cpu c s) <| cpu_online_mask := cpumask_set_cpu c (cpu_online_mask s) |>
  | CpuDown c => (hmp_offline_cpu c s)
                   <| cpu_online_mask := cpumask_clear_cpu c (cpu_online_mask s) |>
  end.

Definition event_cpu (e : hotplug_event) : Z := match e with CpuUp c | CpuDown c => c end.

Lemma domain_for_cpu_unique s c a a' :
  topology_ok s -> 0 <= c < NR_CPUS -> hmp_get_hmp_domain_for_cpu c s = Some a ->
  a' ∈ hmp_domains s -> cpumask_test_cpu c (possible_cpus (domains s a')) = true -> a' = a.
Proof.
  intros Hok Hc Hf Ha' Ht'. apply List.find_some in Hf as [Hin Ht].
  apply list_elem_of_In in Hin.
  rewrite <- (tk_cpu s Hok a c), <- (tk_cpu s Hok a' c); done.
Qed.

Lemma domain_for_cpu_none s c a :
  hmp_get_hmp_domain_for_cpu c s = None -> a ∈ hmp_domains s ->
  cpumask_test_cpu c (possible_cpus (domains s a)) = false.
Proof. intros Hn Ha. apply (List.find_none _ _ Hn). by apply list_elem_of_In. Qed.

Lemma test_clear_cpu c d m :
  cpumask_test_cpu d (cpumask_clear_cpu c m) = cpumask_test_cpu d m && negb (d =? c).
Proof.
  destruct (Z.eqb_spec d c) as [->|]; rewrite ?andb_true_r, ?andb_false_r.
  - apply test_clear_eq.
  - apply test_clear_ne. congruence.
Qed.

(** Writes the bit of [c] in its domain and in the online mask alike. *)
Lemma topology_step s c f v :
  topology_ok s -> 0 <= c < NR_CPUS ->
  (forall d m, 0 <= d -> cpumask_test_cpu d (f m) = if d =? c then v else cpumask_test_cpu d m) ->
  topology_ok
    (match hmp_get_hmp_domain_for_cpu c s with
     | Some a => upd_domain a (fun d => d <| hd_cpus := f (hd_cpus d) |>) s
     | None => s
     end <| cpu_online_mask := f (cpu_online_mask s) |>).
Proof.
  intros Hok Hc Hf. destruct (hmp_get_hmp_domain_for_cpu c s) as [a|] eqn:Ha.
  - set (s1 := upd_domain a _ s).
    assert (Hp : forall a', possible_cpus (domains s1 a') = possible_cpus (domains s a')).
    { intros a'. unfold s1. destruct (decide (a = a')) as [->|]; by store_simpl. }
    assert (Hh : forall a', hd_cpus (domains s1 a') = if decide (a = a') then f (hd_cpus (domains s a'))
                                                      else hd_cpus (domains s a')).
    { intros a'. unfold s1. case_decide; subst; by store_simpl. }
    assert (E : hmp_domains s1 = hmp_domains s /\ hmp_cpu_domain s1 = hmp_cpu_domain s) by done.
    clearbody s1. destruct E as [El Ec].
    split; simpl; rewrite ?El, ?Ec; [apply Hok|apply Hok|intros a' d; rewrite Hp; apply Hok|].
    intros a' d Ha' Hd. rewrite Hp, Hf, Hh by done. case_decide as Hne; [subst a'|].
    + rewrite Hf by done. destruct (Z.eqb_spec d c) as [->|]; [|by apply Hok].
      apply List.find_some in Ha as [_ ->]. by rewrite andb_true_r.
    + rewrite (tk_sync s Hok a' d) by done.
      destruct (Z.eqb_spec d c) as [->|]; [|done].
      replace (cpumask_test_cpu c (possible_cpus (domains s a'))) with false; [by rewrite !andb_false_r|].
      symmetry. apply not_true_is_false. intros Ht. apply Hne. symmetry.
      by apply (domain_for_cpu_unique s c).
  - split; simpl; try apply Hok. intros a' d Ha' Hd. rewrite Hf, (tk_sync s Hok a' d) by done.
    destruct (Z.eqb_spec d c) as [->|]; [|done].
    rewrite (domain_for_cpu_none s c a') by done. by rewrite !andb_false_r.
Qed.

Lemma topology_ok_cancel c s m :
  topology_ok (s <| cpu_online_mask := m |>) ->
  topology_ok ((hmp_cpu_keepalive_cancel c s) <| cpu_online_mask := m |>).
Proof.
  intros Hok. unfold hmp_cpu_keepalive_cancel. case_match; [|done]. split; intros; by apply Hok.
Qed.

(** Hot-plug.  Whatever sequence of CPUs coming online and going offline, each
    domain's [cpus] stays exactly the set of its possible CPUs that are online. *)
Theorem hotplug_tracks_online s l :
  topology_ok s -> Forall (fun e => 0 <= event_cpu e < NR_CPUS) l ->
  topology_ok (foldl hotplug s l).
Proof.
  intros Hok Hl. revert s Hok. induction Hl as [|e l He Hl IH]; intros s Hok; [done|].
  simpl. apply IH. destruct e as [c|c]; simpl in *.
  - apply (topology_step s c (cpumask_set_cpu c) true); [done|done|].
    intros d m Hd. rewrite test_set_cpu by lia. destruct (d =? c); by rewrite ?orb_true_r, ?orb_false_r.
  - pose proof (topology_step s c (cpumask_clear_cpu c) false Hok He) as T.
    apply topology_ok_cancel, T. intros d m Hd. rewrite test_clear_cpu.
    destruct (d =? c); by rewrite ?andb_true_r, ?andb_false_r.
Qed.

(** * Neighbouring domains *)

Lemma next_in_split x l :
  next_in x l <> hmp_domains_head -> exists l1 l2, l = l1 ++ x :: next_in x l :: l2 /\ x ∉ l1.
Proof.
  induction l as [|y l IH]; simpl; [done|].
  destruct (Z.eqb_spec y x) as [->|Hne].
  - destruct l as [|z l]; [done|]. intros _. exists [], l. set_solver.
  - intros Hn. destruct (IH Hn) as (l1 & l2 & E & Hx). exists (y :: l1), l2.
    rewrite E at 1. set_solver.
Qed.

Lemma next_in_app x y l1 l2 : x ∉ l1 -> next_in x (l1 ++ x :: y :: l2) = y.
Proof.
  induction l1 as [|z l1 IH]; simpl; intros Hx.
  - by rewrite Z.eqb_refl.
  - destruct (Z.eqb_spec z x); set_solver.
Qed.

Lemma next_in_last x l : x ∉ l -> next_in x (l ++ [x]) = hmp_domains_head.
Proof.
  induction l as [|z l IH]; simpl; intros Hx.
  - by rewrite Z.eqb_refl.
  - destruct (Z.eqb_spec z x); set_solver.
Qed.

(** Up and down are inverse.  For a CPU that is not in the slowest domain, every
    possible CPU of the next slower domain has that CPU's domain as its next faster
    one; it is not in the fastest domain. *)
Theorem faster_of_slower s c d :
  topology_ok s -> hmp_cpu_domain s c ∈ hmp_domains s -> hmp_cpu_is_slowest c s = false ->
  0 <= d < NR_CPUS ->
  cpumask_test_cpu d (possible_cpus (domains s (hmp_slower_domain c s))) = true ->
  hmp_faster_domain d s = hmp_cpu_domain s c /\ hmp_cpu_is_fastest d s = false.
Proof.
  intros Hok Hc Hs Hd Ht. unfold hmp_cpu_is_slowest in Hs. apply Z.eqb_neq in Hs.
  destruct (next_in_split _ _ Hs) as (l1 & l2 & E & Hx). unfold hmp_slower_domain in Ht.
  set (y := next_in (hmp_cpu_domain s c) (hmp_domains s)) in *.
  assert (Hy : y ∈ hmp_domains s) by (rewrite E; set_solver).
  assert (Ey : hmp_cpu_domain s d = y) by (by apply Hok).
  pose proof (tk_nodup s Hok) as Hnd. rewrite E in Hnd.
  apply list.NoDup_app in Hnd as (_ & H1 & Hnd).
  apply list.NoDup_cons in Hnd as [Hx2 [Hy2 _]%list.NoDup_cons].
  unfold hmp_faster_domain, prev_in, hmp_cpu_is_fastest. rewrite Ey, E. split.
  - rewrite rev_app_distr. simpl. rewrite <- !app_assoc. simpl.
    apply next_in_app. by rewrite list_elem_of_In, <- in_rev, <- list_elem_of_In.
  - apply Z.eqb_neq. destruct l1; simpl; [set_solver|]. intros ->. set_solver.
Qed.

(** * Keepalive timers *)

(** The loop's minimum, started at [b]. *)
Lemma residency_fold_spec m l b :
  let r := foldl (fun d st => if (m <? exit_latency st) && (target_residency st <? d)
                              then target_residency st else d) b l in
  r <= b /\ (forall st, st ∈ l -> m < exit_latency st -> r <= target_residency st)
  /\ (r = b \/ exists st, st ∈ l /\ m < exit_latency st /\ r = target_residency st).
Proof.
  revert b. induction l as [|st l IH]; intros b; simpl; [set_solver by lia|].
  set (b' := if _ && _ then _ else b).
  assert (Hb : b' <= b /\ (m < exit_latency st -> b' <= target_residency st)
               /\ (b' = b \/ m < exit_latency st /\ b' = target_residency st)).
  { unfold b'. destruct (Z.ltb_spec m (exit_latency st)), (Z.ltb_spec (target_residency st) b);
      simpl; lia. }
  specialize (IH b') as (I1 & I2 & I3). destruct Hb as (B1 & B2 & B3). split_and!; [lia| |].
  - intros st' [->|Hin]%elem_of_cons Hm; [specialize (B2 Hm); lia|auto].
  - destruct I3 as [E|(st' & ? & ? & ?)]; [|right; exists st'; set_solver].
    destruct B3 as [?|[? ?]]; [left; lia|right]. exists st. set_solver by lia.
Qed.

(** The keepalive delay.  With sane target residencies (1 us to 4.29 s), the
    delay computed for a CPU is 0 exactly if no idle state is too slow to leave, or
    one of them is worth entering for a microsecond; otherwise it ends a microsecond
    before the earliest time at which a too-slow state becomes worth entering, so no
    such state can be chosen while the timer runs. *)
Theorem keepalive_delay_spec cpu ns s states :
  cpuidle_drv s cpu = Some states -> 0 <= ns ->
  Forall (fun st => 1 <= target_residency st <= 4294967) states ->
  let d := hmp_keepalive_delay cpu ns s in
  (forall st, st ∈ states -> ns / 1000 < exit_latency st -> d <= 1000 * (target_residency st - 1))
  /\ ((forall st, st ∈ states -> exit_latency st <= ns / 1000) -> d = 0)
  /\ (0 < d -> exists st, st ∈ states /\ ns / 1000 < exit_latency st
                          /\ d = 1000 * (target_residency st - 1)).
Proof.
  intros Hd Hns Hr. rewrite Forall_forall in Hr. unfold hmp_keepalive_delay. rewrite Hd.
  destruct (residency_fold_spec (ns / 1000) states UINT_MAX) as (I1 & I2 & I3). cbv zeta.
  set (r := foldl _ UINT_MAX states) in *. unfold UINT_MAX in *.
  destruct (Z.eqb_spec r (2 ^ 32 - 1)) as [->|Hne].
  - split_and!; [|done|lia]. intros st Hin Hm. specialize (I2 st Hin Hm).
    specialize (Hr st Hin). lia.
  - destruct I3 as [?|(st & Hin & Hm & E)]; [done|]. pose proof (Hr st Hin).
    rewrite (u32_id (r - 1)), u32_id by (rewrite E; lia). split_and!.
    + intros st' Hin' Hm'. specialize (I2 st' Hin' Hm'). lia.
    + intros Hall. specialize (Hall st Hin). lia.
    + intros _. exists st. split_and!; [done|done|lia].
Qed.
End topology.

(** * Witnesses *)

(** Four Cortex-A15 nodes then four Cortex-A7 nodes, as on a TC2-like platform. *)
Definition sample_nodes : list cpu_node :=
  ((fun r => mk_cpu_node (Some r) (String.eqb "arm,cortex-a15")) <$> [0; 1; 2; 3])
  ++ ((fun r => mk_cpu_node (Some r) (String.eqb "arm,cortex-a7")) <$> [256; 257; 258; 259]).
Definition sample_logical_map (c : Z) : Z := if c <? 4 then c else 256 + (c - 4).
Definition no_parse (_ : string) : Z * cpumask := (- EINVAL, 0).

Lemma hmp_topology_from_device_tree_witness :
  let s := (hmp_cpu_mask_setup (H := big_LITTLE_MP)
              (arch_get_fast_and_slow_cpus (H := big_LITTLE_MP) no_parse "" "" 8
                 sample_logical_map sample_nodes) (sample_sys <| hmp_domains := [] |>)).1 in
  topology_ok (H := big_LITTLE_MP) s /\ hmp_cpu_is_fastest 6 s = false
  /\ hmp_cpu_is_slowest 6 s = true.
Proof.
  apply (hmp_topology_from_device_tree (H := big_LITTLE_MP) no_parse 8 sample_logical_map
           sample_nodes 0 4 (sample_sys <| hmp_domains := [] |>) 6 true);
    try (apply (bool_decide_unpack _); vm_compute; exact I);
    try (vm_compute; intuition discriminate); reflexivity.
Defined.

Lemma sample_topology_ok : topology_ok (H := big_LITTLE_MP) sample_sys.
Proof.
  split; simpl.
  - apply (bool_decide_unpack _). vm_compute. exact I.
  - set_solver by lia.
  - intros a c [->| ->%list_elem_of_singleton]%elem_of_cons Hc; simpl;
      by_table 8%nat (fun c => implb (cpumask_test_cpu c 15) (c <? 4)
                               && implb (cpumask_test_cpu c 240) (negb (c <? 4))) as T;
      specialize (T c Hc); intros Ht; rewrite Ht in T; destruct (c <? 4); simpl in *;
      try done; by rewrite ?andb_false_r in T.
  - intros a c [->| ->%list_elem_of_singleton]%elem_of_cons Hc; simpl;
      rewrite <- test_and; reflexivity.
Qed.

Lemma hotplug_tracks_online_witness :
  topology_ok (H := big_LITTLE_MP)
    (foldl hotplug sample_sys [CpuDown 2; CpuDown 5; CpuUp 2])
  /\ hd_cpus (domains (foldl hotplug sample_sys [CpuDown 2; CpuDown 5; CpuUp 2]) 1) = 208.
Proof.
  split; [|vm_compute; reflexivity].
  apply (hotplug_tracks_online (H := big_LITTLE_MP)); [exact sample_topology_ok|].
  repeat constructor; vm_compute; intuition discriminate.
Defined.

Lemma keepalive_delay_spec_witness :
  hmp_keepalive_delay 0 100000 sample_sys <= 1000 * (2500 - 1).
Proof.
  apply (keepalive_delay_spec 0 100000 sample_sys [mk_idle_state 1 1; mk_idle_state 700 2500])
    with (st := mk_idle_state 700 2500);
    [reflexivity | lia | repeat constructor; vm_compute; intuition discriminate
    | set_solver | reflexivity].
Defined.
