(* ===== verification/CpuTopology.v ===== *)
(** What the ARM code learns about CPUs as they boot ([arch/arm/kernel/topology.c]): which are
    threads of a core and cores of a cluster, from their MPIDRs, and how much computing power
    they have, from the device tree. *)

From Stdlib Require Import String Btauto.
From S2P Require Import Prelude SchedTypes.

(** [arch/arm/include/asm/cputype.h] *)
Definition MPIDR_SMP_BITMASK : Z := Z.shiftl 3 30.
Definition MPIDR_SMP_VALUE : Z := Z.shiftl 2 30.
Definition MPIDR_MT_BITMASK : Z := Z.shiftl 1 24.
Definition HWID_BITMASK : Z := 0xFFFFFF.
Definition affinity_level (mpidr level : Z) : Z := Z.land (Z.shiftr mpidr (8 * level)) 255.

(** [arch/arm/include/asm/topology.h] *)
Record cputopo_arm := mk_cputopo {
  thread_id : Z;
  core_id : Z;
  socket_id : Z;
  thread_sibling : cpumask;
  core_sibling : cpumask;
}.
#[export] Instance eta_cputopo : Eta cputopo_arm := fun r =>
  {| thread_id := thread_id r; core_id := core_id r; socket_id := socket_id r;
     thread_sibling := thread_sibling r; core_sibling := core_sibling r |}.

(** [struct cpu_capacity] *)
Record cpu_cap := mk_cap {
  hwid : Z;
  capacity : Z;
}.

(** The variables of the file. *)
Record arm_topo := mk_arm_topo {
  cpu_topology : Z -> cputopo_arm;
  cpu_capacity : Z -> cpu_cap;
  middle_capacity : Z;
  min_capacity : Z;
  max_capacity : Z;
  power_scale : Z -> Z;  (* cpu_scale *)
}.
#[export] Instance eta_arm_topo : Eta arm_topo := fun r =>
  {| cpu_topology := cpu_topology r; cpu_capacity := cpu_capacity r; middle_capacity := middle_capacity r;
     min_capacity := min_capacity r; max_capacity := max_capacity r; power_scale := power_scale r |}.

(** A device-tree node of type "cpu": what [of_device_is_compatible] answers, and its
    properties [clock-frequency] and [reg], if they have four bytes. *)
Record dt_cpu := mk_dt_cpu {
  dt_compatible : string -> bool;
  dt_clock : option Z;
  dt_reg : option Z;
}.

Definition table_efficiency : list (string * Z) :=
  [("arm,cortex-a15"%string, 3891); ("arm,cortex-a7"%string, 2048)].

Section arm.
Context `{Config} (possible : cpumask).
Implicit Types (t : arm_topo) (ct : Z -> cputopo_arm) (cpu cpuid : Z).

Definition num_possible_cpus : Z := cpumask_weight possible.

(** * Siblings *)

(** Puts CPU [x] in a mask of CPU [c]. *)
Definition set_core (x c : Z) ct : Z -> cputopo_arm :=
  <[c := ct c <| core_sibling := cpumask_set_cpu x (core_sibling (ct c)) |>]> ct.
Definition set_thread (x c : Z) ct : Z -> cputopo_arm :=
  <[c := ct c <| thread_sibling := cpumask_set_cpu x (thread_sibling (ct c)) |>]> ct.

(** The body of the loop over the possible CPUs. *)
Definition add_siblings cpuid ct cpu : Z -> cputopo_arm :=
  if negb (socket_id (ct cpuid) =? socket_id (ct cpu)) then ct
  else
    let ct := set_core cpuid cpu ct in
    let ct := if cpu =? cpuid then ct else set_core cpu cpuid ct in
    if negb (core_id (ct cpuid) =? core_id (ct cpu)) then ct
    else
      let ct := set_thread cpuid cpu ct in
      if cpu =? cpuid then ct else set_thread cpu cpuid ct.

Definition update_siblings_masks cpuid ct : Z -> cputopo_arm :=
  foldl (add_siblings cpuid) ct (cpus_of possible).

(** * Capacities *)

Definition set_power_scale cpu (power : Z) t : arm_topo := t <| power_scale := <[cpu := power]> (power_scale t) |>.

(** What a node of the device tree adds at index [cpu] of the table; the index is returned. *)
Definition parse_dt_cpu (a : arm_topo * Z) (cn : dt_cpu) : arm_topo * Z :=
  let '(t, cpu) := a in
  if num_possible_cpus <=? cpu then a
  else match List.find (fun e => dt_compatible cn e.1) table_efficiency, dt_clock cn, dt_reg cn with
       | Some e, Some rate, Some reg =>
           let cap := ulong (Z.shiftr rate 20 * e.2) in
           (t <| min_capacity := Z.min (min_capacity t) cap |>
              <| max_capacity := Z.max (max_capacity t) cap |>
              <| cpu_capacity := <[cpu := mk_cap reg cap]> (cpu_capacity t) |>, cpu + 1)
       | _, _, _ => a
       end.

Definition NO_HWID : Z := 2 ^ BITS_PER_LONG - 1.
Definition end_table (cpu : Z) t : arm_topo :=
  t <| cpu_capacity := <[cpu := mk_cap NO_HWID (capacity (cpu_capacity t cpu))]> (cpu_capacity t) |>.

Definition parse_dt_topology (nodes : list dt_cpu) t : arm_topo :=
  let '(t, cpu) := foldl parse_dt_cpu (t <| cpu_capacity := fun _ => mk_cap 0 0 |>, 0) nodes in
  let t := if cpu <? num_possible_cpus then end_table cpu t else t in
  if min_capacity t =? max_capacity t then end_table 0 t
  else if ulong (4 * max_capacity t) <? ulong (3 * ulong (max_capacity t + min_capacity t)) then
    t <| middle_capacity := Z.shiftr (ulong (min_capacity t + max_capacity t)) 11 |>
  else t <| middle_capacity := Z.shiftr (max_capacity t / 3) 9 + 1 |>.

(** The loop over the table: the entry with the hardware identity, if one is found before the
    end of the table. *)
Definition find_hwid (id : Z) t : option cpu_cap :=
  match List.find (fun i => (hwid (cpu_capacity t i) =? id) || (hwid (cpu_capacity t i) =? NO_HWID))
          (Z.of_nat <$> seq 0 (Z.to_nat num_possible_cpus)) with
  | Some i => if hwid (cpu_capacity t i) =? id then Some (cpu_capacity t i) else None
  | None => None
  end.

(** [update_cpu_power] of the ARM code; [None] if it divides by zero. *)
Definition arm_update_cpu_power cpu (id : Z) t : option arm_topo :=
  match find_hwid id t with
  | None => Some t
  | Some e => q ← udiv (capacity e) (middle_capacity t); Some (set_power_scale cpu q t)
  end.

(** * Booting *)

Definition init_cpu_topology (nodes : list dt_cpu) t : arm_topo :=
  let reset t cpu :=
    set_power_scale cpu 1024 (t <| cpu_topology := <[cpu := mk_cputopo (-1) (-1) (-1) 0 0]> (cpu_topology t) |>) in
  parse_dt_topology nodes (foldl reset t (cpus_of possible)).

(** The thread, core and socket an MPIDR tells. *)
Definition topo_ids (mpidr : Z) : Z * Z * Z :=
  if Z.land mpidr MPIDR_SMP_BITMASK =? MPIDR_SMP_VALUE then
    if nonzero (Z.land mpidr MPIDR_MT_BITMASK)
    then (affinity_level mpidr 0, affinity_level mpidr 1, affinity_level mpidr 2)
    else (-1, affinity_level mpidr 0, affinity_level mpidr 1)
  else (-1, 0, -1).

(** CPU [cpuid] runs this; [mpidr] is what [read_cpuid_mpidr] returns. *)
Definition store_cpu_topology cpuid (mpidr : Z) t : option arm_topo :=
  if negb (core_id (cpu_topology t cpuid) =? -1) then Some t
  else
    let '(th, co, so) := topo_ids mpidr in
    let ct := <[cpuid := cpu_topology t cpuid <| thread_id := th |> <| core_id := co |> <| socket_id := so |>]>
                (cpu_topology t) in
    arm_update_cpu_power cpuid (Z.land mpidr HWID_BITMASK)
      (t <| cpu_topology := update_siblings_masks cpuid ct |>).

(** The file's variables at the start, and CPUs that boot one after the other. *)
Definition arm_start : arm_topo :=
  mk_arm_topo (fun _ => mk_cputopo 0 0 0 0 0) (fun _ => mk_cap 0 0) 1 NO_HWID 0 (fun _ => 0).
Fixpoint boot_cpus (mpidr : Z -> Z) (l : list Z) t : option arm_topo :=
  match l with
  | [] => Some t
  | cpu :: l => t ← store_cpu_topology cpu (mpidr cpu) t; boot_cpus mpidr l t
  end.

(** ** Siblings are what MPIDRs say *)

Definition socket_of (mpidr : Z) : Z := (topo_ids mpidr).2.
Definition core_of (mpidr : Z) : Z := (topo_ids mpidr).1.2.
Definition ids (r : cputopo_arm) := (thread_id r, core_id r, socket_id r).

Lemma set_core_ids x c ct d : ids (set_core x c ct d) = ids (ct d).
Proof. unfold set_core. destruct (decide (c = d)) as [->|]; by rewrite ?fn_lookup_insert, ?fn_lookup_insert_ne by done. Qed.
Lemma set_thread_ids x c ct d : ids (set_thread x c ct d) = ids (ct d).
Proof. unfold set_thread. destruct (decide (c = d)) as [->|]; by rewrite ?fn_lookup_insert, ?fn_lookup_insert_ne by done. Qed.
Lemma set_core_thread x c ct d : thread_sibling (set_core x c ct d) = thread_sibling (ct d).
Proof. unfold set_core. destruct (decide (c = d)) as [->|]; by rewrite ?fn_lookup_insert, ?fn_lookup_insert_ne by done. Qed.
Lemma set_thread_core x c ct d : core_sibling (set_thread x c ct d) = core_sibling (ct d).
Proof. unfold set_thread. destruct (decide (c = d)) as [->|]; by rewrite ?fn_lookup_insert, ?fn_lookup_insert_ne by done. Qed.
Lemma test_set_eqb x m y :
  0 <= x -> cpumask_test_cpu y (cpumask_set_cpu x m) = (x =? y) || cpumask_test_cpu y m.
Proof. apply Z.setbit_eqb. Qed.
Lemma set_core_test x c ct d y : 0 <= x ->
  cpumask_test_cpu y (core_sibling (set_core x c ct d))
  = (c =? d) && (x =? y) || cpumask_test_cpu y (core_sibling (ct d)).
Proof.
  intros Hx. unfold set_core. destruct (Z.eqb_spec c d) as [->|]; rewrite ?fn_lookup_insert, ?fn_lookup_insert_ne by done; [|done]. by apply test_set_eqb.
Qed.
Lemma set_thread_test x c ct d y : 0 <= x ->
  cpumask_test_cpu y (thread_sibling (set_thread x c ct d))
  = (c =? d) && (x =? y) || cpumask_test_cpu y (thread_sibling (ct d)).
Proof.
  intros Hx. unfold set_thread. destruct (Z.eqb_spec c d) as [->|]; rewrite ?fn_lookup_insert, ?fn_lookup_insert_ne by done; [|done]. by apply test_set_eqb.
Qed.

(** CPUs of one socket, or of one core. *)
Definition same_socket ct (a b : Z) : bool := socket_id (ct a) =? socket_id (ct b).
Definition same_core ct (a b : Z) : bool := same_socket ct a b && (core_id (ct a) =? core_id (ct b)).

Lemma add_siblings_ids cpuid ct cpu c : ids (add_siblings cpuid ct cpu c) = ids (ct c).
Proof.
  unfold add_siblings. cbv zeta. repeat case_match; by rewrite ?set_thread_ids, ?set_core_ids.
Qed.
Lemma add_siblings_test cpuid ct cpu c y :
  0 <= cpuid -> 0 <= cpu ->
  let new := (cpu =? c) && (cpuid =? y) || (cpuid =? c) && (cpu =? y) in
  cpumask_test_cpu y (core_sibling (add_siblings cpuid ct cpu c))
  = same_socket ct cpuid cpu && new || cpumask_test_cpu y (core_sibling (ct c)) /\
  cpumask_test_cpu y (thread_sibling (add_siblings cpuid ct cpu c))
  = same_core ct cpuid cpu && new || cpumask_test_cpu y (thread_sibling (ct c)).
Proof.
  intros Hi Hc new. unfold add_siblings, same_core, same_socket. cbv zeta.
  destruct (Z.eqb_spec (socket_id (ct cpuid)) (socket_id (ct cpu))) as [Es|]; [|done]. cbn [negb andb].
  set (ct1 := set_core cpuid cpu ct). set (ct2 := if cpu =? cpuid then ct1 else set_core cpu cpuid ct1).
  assert (I2 : forall d, ids (ct2 d) = ids (ct d)).
  { intros d. unfold ct2, ct1. case_match; by rewrite ?set_core_ids. }
  assert (T2 : forall d, thread_sibling (ct2 d) = thread_sibling (ct d)).
  { intros d. unfold ct2, ct1. case_match; by rewrite ?set_core_thread. }
  assert (C2 : cpumask_test_cpu y (core_sibling (ct2 c)) = new || cpumask_test_cpu y (core_sibling (ct c))).
  { unfold ct2, ct1, new. destruct (Z.eqb_spec cpu cpuid) as [->|]; rewrite ?set_core_test by done.
    - by rewrite orb_diag.
    - by rewrite orb_assoc, (orb_comm (_ && _) ((cpu =? c) && _)). }
  assert (E2 : forall d, core_id (ct2 d) = core_id (ct d)) by (intros d; specialize (I2 d); unfold ids in I2; congruence).
  rewrite !E2. destruct (Z.eqb_spec (core_id (ct cpuid)) (core_id (ct cpu))); cbn [negb andb orb]; [|by rewrite T2].
  clearbody ct2. unfold new. split.
  - case_match; rewrite ?set_thread_core; exact C2.
  - destruct (Z.eqb_spec cpu cpuid) as [->|]; rewrite ?set_thread_test, T2 by done.
    + by rewrite orb_diag.
    + by rewrite orb_assoc, (orb_comm (_ && _) ((cpu =? c) && _)).
Qed.

Lemma existsb_ext' {A} (f g : A -> bool) l : (forall x, f x = g x) -> existsb f l = existsb g l.
Proof. intros E. induction l as [|x l IH]; cbn [existsb]; [done|]. by rewrite E, IH. Qed.

(** What the loop adds to a mask: [cpuid] to its siblings' masks and them to its own. *)
Lemma siblings_loop cpuid ct l c y :
  0 <= cpuid -> Forall (fun cpu => 0 <= cpu) l ->
  let new cpu := (cpu =? c) && (cpuid =? y) || (cpuid =? c) && (cpu =? y) in
  let ct' := foldl (add_siblings cpuid) ct l in
  (forall d, ids (ct' d) = ids (ct d)) /\
  cpumask_test_cpu y (core_sibling (ct' c))
  = existsb (fun cpu => same_socket ct cpuid cpu && new cpu) l || cpumask_test_cpu y (core_sibling (ct c)) /\
  cpumask_test_cpu y (thread_sibling (ct' c))
  = existsb (fun cpu => same_core ct cpuid cpu && new cpu) l || cpumask_test_cpu y (thread_sibling (ct c)).
Proof.
  intros Hi Hl new. revert ct. induction Hl as [|cpu l Hc _ IH]; intros ct; cbn [foldl existsb]; [done|].
  set (ct1 := add_siblings cpuid ct cpu). destruct (IH ct1) as (I & C & T).
  assert (I1 : forall d, ids (ct1 d) = ids (ct d)) by (intros d; apply add_siblings_ids).
  assert (So : forall d, socket_id (ct1 d) = socket_id (ct d))
    by (intros d; specialize (I1 d); unfold ids in I1; congruence).
  assert (Co : forall d, core_id (ct1 d) = core_id (ct d))
    by (intros d; specialize (I1 d); unfold ids in I1; congruence).
  destruct (add_siblings_test cpuid ct cpu c y Hi Hc) as [C1 T1]. fold ct1 in C1, T1.
  rewrite (existsb_ext' _ (fun cpu => same_socket ct cpuid cpu && new cpu)) in C
    by (intros x; unfold same_socket; by rewrite !So).
  rewrite (existsb_ext' _ (fun cpu => same_core ct cpuid cpu && new cpu)) in T
    by (intros x; unfold same_core, same_socket; by rewrite !So, !Co).
  split_and!; [intros d; by rewrite I|rewrite C, C1|rewrite T, T1]; unfold new; btauto.
Qed.

Lemma siblings_spec cpuid ct c y :
  cpuid ∈ cpus_of possible -> c ∈ cpus_of possible ->
  let ct' := update_siblings_masks cpuid ct in
  ids (ct' c) = ids (ct c) /\
  (cpumask_test_cpu y (core_sibling (ct' c)) = true <->
   cpumask_test_cpu y (core_sibling (ct c)) = true
   \/ y = cpuid /\ same_socket ct cpuid c = true
   \/ c = cpuid /\ y ∈ cpus_of possible /\ same_socket ct cpuid y = true) /\
  (cpumask_test_cpu y (thread_sibling (ct' c)) = true <->
   cpumask_test_cpu y (thread_sibling (ct c)) = true
   \/ y = cpuid /\ same_core ct cpuid c = true
   \/ c = cpuid /\ y ∈ cpus_of possible /\ same_core ct cpuid y = true).
Proof.
  intros Hi Hc. assert (Hi0 : 0 <= cpuid) by (apply elem_of_cpus_of in Hi; lia).
  destruct (siblings_loop cpuid ct (cpus_of possible) c y Hi0) as (I & C & T).
  { apply Forall_forall. intros x Hx%elem_of_cpus_of. lia. }
  assert (X : forall f : Z -> bool, existsb (fun cpu => f cpu && ((cpu =? c) && (cpuid =? y) || (cpuid =? c) && (cpu =? y)))
      (cpus_of possible) = true <->
    y = cpuid /\ f c = true \/ c = cpuid /\ y ∈ cpus_of possible /\ f y = true).
  { intros f. rewrite existsb_exists. setoid_rewrite <- list_elem_of_In. split.
    - intros (x & Hx & (Hf & Hn)%andb_true_iff).
      apply orb_true_iff in Hn as [[->%Z.eqb_eq ->%Z.eqb_eq]%andb_true_iff|[->%Z.eqb_eq ->%Z.eqb_eq]%andb_true_iff]; auto.
    - intros [[-> Hf]|(-> & Hy & Hf)].
      + exists c. by rewrite Hf, !Z.eqb_refl.
      + exists y. rewrite Hf, !Z.eqb_refl. split; [done|]. btauto. }
  cbv zeta. unfold update_siblings_masks.
  split_and!; [apply I|rewrite C|rewrite T]; rewrite orb_true_iff, X; tauto.
Qed.

(** The MPIDRs are those of a multiprocessor. *)
Context (mpidr : Z -> Z).
Definition multiprocessor : Prop := forall c, Z.land (mpidr c) MPIDR_SMP_BITMASK = MPIDR_SMP_VALUE.

(** What is known when the CPUs of [D] have booted. *)
Record learned (D : list Z) ct : Prop := {
  le_ids : forall c, c ∈ D -> ids (ct c) = topo_ids (mpidr c);
  le_none : forall c, c ∈ cpus_of possible -> c ∉ D -> ids (ct c) = (-1, -1, -1);
  le_core : forall c y, c ∈ cpus_of possible ->
    cpumask_test_cpu y (core_sibling (ct c)) = true <->
    c ∈ D /\ y ∈ D /\ socket_of (mpidr c) = socket_of (mpidr y);
  le_thread : forall c y, c ∈ cpus_of possible ->
    cpumask_test_cpu y (thread_sibling (ct c)) = true <->
    c ∈ D /\ y ∈ D /\ socket_of (mpidr c) = socket_of (mpidr y) /\ core_of (mpidr c) = core_of (mpidr y);
}.

Lemma affinity_nonneg m l : 0 <= affinity_level m l.
Proof. apply Z.land_nonneg. by right. Qed.
Lemma topo_ids_nonneg c : multiprocessor -> 0 <= core_of (mpidr c) /\ 0 <= socket_of (mpidr c).
Proof.
  intros Hm. unfold core_of, socket_of, topo_ids. rewrite (Hm c), Z.eqb_refl.
  destruct (nonzero _); cbn; split; apply affinity_nonneg.
Qed.

(** Whether a CPU [y] is a sibling of one that boots: it has booted, or is the same. *)
Lemma booted_same (D : list Z) ct c y :
  multiprocessor -> (forall x, x ∈ D -> ids (ct x) = topo_ids (mpidr x)) -> ids (ct c) = topo_ids (mpidr c) ->
  (forall x, x ∈ cpus_of possible -> x ∉ D -> x <> c -> ids (ct x) = (-1, -1, -1)) ->
  y ∈ cpus_of possible ->
  (same_socket ct c y = true <-> (y ∈ D \/ y = c) /\ socket_of (mpidr c) = socket_of (mpidr y)) /\
  (same_core ct c y = true <-> (y ∈ D \/ y = c) /\ socket_of (mpidr c) = socket_of (mpidr y)
                                               /\ core_of (mpidr c) = core_of (mpidr y)).
Proof.
  intros Hm Hd Hc Hn Hy. assert (Hi : y ∈ D \/ y = c -> ids (ct y) = topo_ids (mpidr y)) by (intros [?| ->]; auto).
  assert (V : forall x, ids (ct x) = topo_ids (mpidr x) ->
    socket_id (ct x) = socket_of (mpidr x) /\ core_id (ct x) = core_of (mpidr x)).
  { intros x E. unfold socket_of, core_of. rewrite <- E. done. }
  destruct (V c Hc) as [S1 C1]. unfold same_core, same_socket. rewrite S1, C1.
  destruct (decide (y ∈ D \/ y = c)) as [Hin|Hout].
  - destruct (V y (Hi Hin)) as [-> ->]. rewrite andb_true_iff, !Z.eqb_eq. tauto.
  - assert (E : ids (ct y) = (-1, -1, -1)) by (apply Hn; tauto). unfold ids in E. injection E as _ _ Es. rewrite Es.
    pose proof (topo_ids_nonneg c Hm). destruct (Z.eqb_spec (socket_of (mpidr c)) (-1)); [lia|]. cbn. naive_solver.
Qed.

(** The masks relate the CPUs that have booted and are related by [R]. *)
Lemma siblings_joined (R : Z -> Z -> Prop) (D P : list Z) (same : Z -> Prop) cpu c y :
  (forall a b, R a b -> R b a) -> R cpu cpu -> D ⊆ P -> cpu ∈ P ->
  (same c <-> (c ∈ D \/ c = cpu) /\ R cpu c) -> (y ∈ P -> same y <-> (y ∈ D \/ y = cpu) /\ R cpu y) ->
  (c ∈ D /\ y ∈ D /\ R c y) \/ (y = cpu /\ same c) \/ (c = cpu /\ y ∈ P /\ same y)
  <-> (c = cpu \/ c ∈ D) /\ (y = cpu \/ y ∈ D) /\ R c y.
Proof.
  intros Rs Rr HD Hp Hc Hy. specialize (HD y). split.
  - intros [(? & ? & ?)|[(-> & [? ?]%Hc)|(-> & Hy' & [? ?]%Hy)]]; [tauto| |tauto|done]. split; [tauto|]. auto.
  - intros ([->|H1] & [->|H2] & Hr); rewrite ?Hc, ?Hy by auto; auto 10.
Qed.

Lemma learned_step (D : list Z) ct cpu :
  multiprocessor -> D ⊆ cpus_of possible -> cpu ∈ cpus_of possible -> cpu ∉ D -> learned D ct ->
  let '(th, co, so) := topo_ids (mpidr cpu) in
  learned (cpu :: D) (update_siblings_masks cpu
    (<[cpu := ct cpu <| thread_id := th |> <| core_id := co |> <| socket_id := so |>]> ct)).
Proof.
  intros Hm HD Hp Hn [Li Ln Lc Lt]. destruct (topo_ids (mpidr cpu)) as [[th co] so] eqn:Et.
  set (ct1 := <[cpu := _]> ct).
  assert (I1 : ids (ct1 cpu) = topo_ids (mpidr cpu)) by (unfold ct1; by rewrite fn_lookup_insert, Et).
  assert (E1 : forall x, x <> cpu -> ct1 x = ct x) by (intros x Hx; unfold ct1; by rewrite fn_lookup_insert_ne).
  assert (M1 : forall x, core_sibling (ct1 x) = core_sibling (ct x) /\ thread_sibling (ct1 x) = thread_sibling (ct x)).
  { intros x. unfold ct1. destruct (decide (cpu = x)) as [->|];
      by rewrite ?fn_lookup_insert, ?fn_lookup_insert_ne by done. }
  clearbody ct1.
  assert (Bs : forall y, y ∈ cpus_of possible -> _) by
    (refine (fun y => booted_same D ct1 cpu y Hm _ I1 _);
     [intros x Hx; rewrite E1 by (by intros ->); auto|intros x ? ? ?; rewrite E1 by done; auto]).
  assert (Sp : forall c y, c ∈ cpus_of possible -> _) by (intros c y; exact (siblings_spec cpu ct1 c y Hp)).
  split.
  - intros c Hc. assert (Hcp : c ∈ cpus_of possible) by (apply elem_of_cons in Hc as [->|]; auto).
    destruct (Sp c c Hcp) as [-> _]. apply elem_of_cons in Hc as [->|Hc]; [done|].
    rewrite E1 by (by intros ->). auto.
  - intros c Hcp [Hne Hc]%not_elem_of_cons. destruct (Sp c c Hcp) as [-> _]. rewrite E1 by done. auto.
  - intros c y Hcp. destruct (Sp c y Hcp) as (_ & -> & _). rewrite (proj1 (M1 c)), Lc, !elem_of_cons by done.
    apply (siblings_joined (fun a b => socket_of (mpidr a) = socket_of (mpidr b)) D (cpus_of possible)
             (fun x => same_socket ct1 cpu x = true)); auto.
    + exact (proj1 (Bs c Hcp)).
    + intros Hy. exact (proj1 (Bs y Hy)).
  - intros c y Hcp. destruct (Sp c y Hcp) as (_ & _ & ->). rewrite (proj2 (M1 c)), Lt, !elem_of_cons by done.
    apply (siblings_joined (fun a b => socket_of (mpidr a) = socket_of (mpidr b) /\ core_of (mpidr a) = core_of (mpidr b))
             D (cpus_of possible) (fun x => same_core ct1 cpu x = true)); auto.
    + intros a b []. split; congruence.
    + exact (proj2 (Bs c Hcp)).
    + intros Hy. exact (proj2 (Bs y Hy)).
Qed.

(** ** Capacities *)

(** Clocks run at 16 MHz or more. *)
Definition clocked (nodes : list dt_cpu) : Prop :=
  Forall (fun cn => forall rate, dt_clock cn = Some rate -> 2 ^ 24 <= rate < 2 ^ 32) nodes.

Definition CAP_MIN : Z := 16 * 2048.
Definition CAP_MAX : Z := 4095 * 3891.
(** The table after [n] CPUs. *)
Record table_ok (n : Z) t : Prop := {
  ta_n : 0 <= n <= num_possible_cpus;
  ta_caps : forall i, 0 <= i < n ->
    CAP_MIN <= min_capacity t <= capacity (cpu_capacity t i)
    /\ capacity (cpu_capacity t i) <= max_capacity t <= CAP_MAX;
  ta_empty : n = 0 -> (min_capacity t, max_capacity t) = (NO_HWID, 0);
}.

Lemma dt_cap_range rate (e : string * Z) :
  2 ^ 24 <= rate < 2 ^ 32 -> e ∈ table_efficiency ->
  CAP_MIN <= ulong (Z.shiftr rate 20 * e.2) <= CAP_MAX.
Proof.
  intros Hr He. rewrite shiftr_div by done.
  assert (Hq : 16 <= rate / 2 ^ 20 <= 4095)
    by (split; [apply Z.div_le_lower_bound|apply Z.lt_succ_r, Z.div_lt_upper_bound]; lia).
  assert (Hx : e.2 = 3891 \/ e.2 = 2048) by (unfold table_efficiency in He; set_solver).
  unfold CAP_MIN, CAP_MAX. rewrite ulong_id by nia. nia.
Qed.

Lemma parse_cpu_ok t n cn :
  (forall rate, dt_clock cn = Some rate -> 2 ^ 24 <= rate < 2 ^ 32) -> table_ok n t ->
  table_ok (parse_dt_cpu (t, n) cn).2 (parse_dt_cpu (t, n) cn).1.
Proof.
  intros Hr [Tn Tc Te]. unfold parse_dt_cpu. destruct (Z.leb_spec num_possible_cpus n); [by split|].
  destruct (List.find _ _) as [e|] eqn:Ef; [|by split].
  destruct (dt_clock cn) as [rate|]; [|by split]. destruct (dt_reg cn) as [reg|]; [|by split]. cbn [fst snd].
  apply find_some in Ef as [He%list_elem_of_In _]. pose proof (dt_cap_range rate e (Hr rate eq_refl) He) as Hc.
  set (cap := ulong _) in *. clearbody cap. split; cbn; [lia| |lia]. intros i Hi.
  assert (B : CAP_MIN <= Z.min (min_capacity t) cap /\ Z.max (max_capacity t) cap <= CAP_MAX).
  { destruct (decide (n = 0)) as [En|]; [|pose proof (Tc 0 ltac:(lia)); lia].
    specialize (Te En). injection Te as -> ->. unfold NO_HWID, CAP_MIN, CAP_MAX in *.
    destruct BITS_PER_LONG_ok as [-> | ->]; lia. }
  destruct (decide (n = i)) as [<-|]; [rewrite fn_lookup_insert; cbn; lia|].
  rewrite fn_lookup_insert_ne by done. pose proof (Tc i ltac:(lia)). lia.
Qed.

Lemma parse_cpus_ok nodes t n :
  clocked nodes -> table_ok n t ->
  table_ok (foldl parse_dt_cpu (t, n) nodes).2 (foldl parse_dt_cpu (t, n) nodes).1.
Proof.
  intros Hc. revert t n. induction Hc as [|cn nodes Hr _ IH]; intros t n Ht; cbn [foldl]; [done|].
  pose proof (parse_cpu_ok t n cn Hr Ht) as Ht'. destruct (parse_dt_cpu (t, n) cn). by apply IH.
Qed.

(** The middle of capacities, as a divisor of any between them. *)
Lemma middle_bounds mn mx c :
  CAP_MIN <= mn -> mn < mx -> mx <= CAP_MAX -> mn <= c <= mx ->
  let m := if ulong (4 * mx) <? ulong (3 * ulong (mx + mn)) then Z.shiftr (ulong (mn + mx)) 11
           else Z.shiftr (mx / 3) 9 + 1 in
  0 < m /\ 0 < c / m <= 1583.
Proof.
  unfold CAP_MIN, CAP_MAX. intros H1 H2 H3 Hc. rewrite !ulong_id by (rewrite ?ulong_id by lia; lia).
  rewrite !shiftr_div by done. change (2 ^ 11) with 2048. change (2 ^ 9) with 512. cbv zeta.
  assert (X : forall m, 0 < m -> m <= c -> c < 1584 * m -> 0 < m /\ 0 < c / m <= 1583).
  { intros m Hm Hl Hu. pose proof (Z.div_le_lower_bound c m 1 Hm ltac:(lia)).
    pose proof (Z.div_lt_upper_bound c m 1584 Hm ltac:(lia)). lia. }
  destruct (Z.ltb_spec (4 * mx) (3 * (mx + mn))) as [Hlt|Hge].
  - pose proof (div_floor_bounds (mn + mx) 2048 ltac:(lia)). apply X; lia.
  - pose proof (div_floor_bounds mx 3 ltac:(lia)). pose proof (div_floor_bounds (mx / 3) 512 ltac:(lia)). apply X; lia.
Qed.

Lemma find_first {A} (f : A -> bool) l x :
  List.find f l = Some x ->
  exists k, l !! k = Some x /\ f x = true /\ forall j y, (j < k)%nat -> l !! j = Some y -> f y = false.
Proof.
  induction l as [|z l IH]; cbn [List.find]; [done|]. destruct (f z) eqn:Ez.
  - intros [= <-]. exists O. split_and!; [done..|]. intros j y Hj. lia.
  - intros (k & Hk & Hx & Hl)%IH. exists (S k). split_and!; [done..|]. intros [|j] y Hj Hy; [by simplify_eq/=|].
    apply (Hl j); [lia|done].
Qed.

(** The search stops at the end of the table. *)
Lemma find_hwid_before n id t e :
  id <> NO_HWID -> 0 <= n -> (n < num_possible_cpus -> hwid (cpu_capacity t n) = NO_HWID) ->
  find_hwid id t = Some e -> exists i, 0 <= i < n /\ e = cpu_capacity t i.
Proof.
  intros Hid Hn He. unfold find_hwid. destruct (List.find _ _) as [i|] eqn:Ef; [|done].
  destruct (find_first _ _ _ Ef) as (k & Hk & _ & Hl). destruct (Z.eqb_spec (hwid (cpu_capacity t i)) id) as [Ei|]; [|done].
  intros [= <-]. rewrite list_lookup_fmap in Hk. destruct (seq _ _ !! k) as [k'|] eqn:Hk'; [|done].
  apply lookup_seq in Hk' as [-> Hk']. cbn in Hk. injection Hk as <-. exists (Z.of_nat k). split; [|done].
  destruct (decide (Z.of_nat k = n)) as [<-|]; [exfalso; apply Hid; rewrite <- Ei; apply He; lia|].
  destruct (decide (Z.of_nat k < n)); [lia|]. exfalso.
  specialize (Hl (Z.to_nat n) n ltac:(lia)). rewrite He, Z.eqb_refl, orb_true_r in Hl by lia.
  discriminate Hl. rewrite list_lookup_fmap, lookup_seq_lt by lia. cbn. f_equal. lia.
Qed.

Lemma end_table_hwid n t : hwid (cpu_capacity (end_table n t) n) = NO_HWID.
Proof. unfold end_table. cbn. by rewrite fn_lookup_insert. Qed.

(** Capacities that are found are between bounds in proportion to the middle. *)
Definition scales_found t : Prop := forall id e, id <> NO_HWID -> find_hwid id t = Some e ->
  0 < middle_capacity t /\ 0 < capacity e / middle_capacity t <= 1583.

Lemma parse_dt_ok nodes t :
  clocked nodes -> min_capacity t = NO_HWID -> max_capacity t = 0 -> scales_found (parse_dt_topology nodes t).
Proof.
  intros Hn E1 E2. unfold parse_dt_topology.
  assert (T0 : table_ok 0 (t <| cpu_capacity := fun _ => mk_cap 0 0 |>)).
  { split; cbn; [unfold num_possible_cpus, cpumask_weight; lia|lia|congruence]. }
  pose proof (parse_cpus_ok nodes _ 0 Hn T0) as T. destruct (foldl _ _ _) as [t1 n]. cbn in T. clear T0 E1 E2 t.
  set (t2 := if n <? num_possible_cpus then end_table n t1 else t1).
  assert (T2 : table_ok n t2).
  { unfold t2. case_match; [|done]. destruct T as [Tn Tc Te]. split; [done| |done].
    intros i Hi. cbn. rewrite fn_lookup_insert_ne by lia. by apply Tc. }
  assert (End : n < num_possible_cpus -> hwid (cpu_capacity t2 n) = NO_HWID).
  { intros Hl. unfold t2. destruct (Z.ltb_spec n num_possible_cpus); [apply end_table_hwid|lia]. }
  clearbody t2. clear T t1. destruct T2 as [Tn Tc Te]. intros id e Hid.
  destruct (Z.eqb_spec (min_capacity t2) (max_capacity t2)) as [|Hne].
  { intros (i & Hi & _)%(find_hwid_before 0); [lia|done|done|]. intros _. apply end_table_hwid. }
  assert (X : find_hwid id t2 = Some e -> 0 < n /\ min_capacity t2 < max_capacity t2
    /\ CAP_MIN <= min_capacity t2 /\ max_capacity t2 <= CAP_MAX /\ min_capacity t2 <= capacity e <= max_capacity t2).
  { intros (i & Hi & ->)%(find_hwid_before n); [|done|lia|done]. pose proof (Tc i Hi). lia. }
  pose proof (middle_bounds (min_capacity t2) (max_capacity t2) (capacity e)) as B. cbv zeta in B.
  destruct (_ <? _); intros F%X; apply B; lia.
Qed.

(** ** Booting *)

Record booted (D : list Z) t : Prop := {
  bt_topo : learned D (cpu_topology t);
  bt_found : scales_found t;
  bt_scale : forall c, c ∈ cpus_of possible -> 0 < power_scale t c <= 1583;
}.

Lemma reset_cpus l t c :
  let t' := foldl (fun t cpu => set_power_scale cpu 1024
              (t <| cpu_topology := <[cpu := mk_cputopo (-1) (-1) (-1) 0 0]> (cpu_topology t) |>)) t l in
  (min_capacity t', max_capacity t') = (min_capacity t, max_capacity t) /\
  (c ∈ l -> cpu_topology t' c = mk_cputopo (-1) (-1) (-1) 0 0 /\ power_scale t' c = 1024).
Proof.
  induction l as [|x l IH] using rev_ind.
  - split; [done|]. intros Hc. by apply elem_of_nil in Hc.
  - rewrite foldl_app. cbn [foldl]. destruct IH as [I1 I2]. split; [done|]. intros Hc. cbn.
    destruct (decide (x = c)) as [->|]; rewrite ?fn_lookup_insert, ?fn_lookup_insert_ne by done; [done|].
    apply I2. apply elem_of_app in Hc as [Hc|Hc%list_elem_of_singleton]; [done|by subst].
Qed.

Definition known t := (cpu_topology t, power_scale t).
Lemma parse_dt_known nodes t : known (parse_dt_topology nodes t) = known t.
Proof.
  assert (F : forall l a, known (foldl parse_dt_cpu a l).1 = known a.1).
  { induction l as [|cn l IH]; intros [t' n]; cbn [foldl]; [done|]. rewrite IH. unfold parse_dt_cpu. by repeat case_match. }
  unfold parse_dt_topology. specialize (F nodes (t <| cpu_capacity := fun _ => mk_cap 0 0 |>, 0)).
  destruct (foldl _ _ _) as [t' n]. change (known t' = known t) in F. rewrite <- F. by repeat case_match.
Qed.

Lemma booted_none nodes : clocked nodes -> booted [] (init_cpu_topology nodes arm_start).
Proof.
  intros Hn. unfold init_cpu_topology. cbv zeta. pose proof (reset_cpus (cpus_of possible) arm_start) as R.
  cbv zeta in R. set (t0 := foldl _ _ _) in *. clearbody t0. pose proof (proj1 (R 0)) as I. injection I as Imin Imax.
  pose proof (parse_dt_known nodes t0) as K. injection K as K1 K2. split; [|by apply parse_dt_ok|].
  - rewrite K1. split; [intros c Hc; by apply elem_of_nil in Hc|intros c Hc _; by destruct (proj2 (R c) Hc) as [-> _]|..];
      intros c y Hc; destruct (proj2 (R c) Hc) as [-> _]; unfold cpumask_test_cpu; cbn; rewrite Z.bits_0;
      (split; [done|intros [Hx _]; by apply elem_of_nil in Hx]).
  - intros c Hc. rewrite K2. destruct (proj2 (R c) Hc) as [_ ->]. lia.
Qed.

Lemma booted_step (D : list Z) t cpu :
  multiprocessor -> D ⊆ cpus_of possible -> cpu ∈ cpus_of possible -> booted D t ->
  exists t' D', store_cpu_topology cpu (mpidr cpu) t = Some t' /\ booted D' t' /\ forall c, c ∈ D' <-> c = cpu \/ c ∈ D.
Proof.
  intros Hm HD Hp [L F S]. unfold store_cpu_topology. destruct (decide (cpu ∈ D)) as [Hin|Hout].
  - pose proof (le_ids _ _ L cpu Hin) as Ei. pose proof (topo_ids_nonneg cpu Hm) as Hn. unfold core_of in Hn.
    rewrite <- Ei in Hn. cbn in Hn. destruct (Z.eqb_spec (core_id (cpu_topology t cpu)) (-1)); [lia|].
    exists t, D. split_and!; [done|done|]. intros c. split; [auto|intros [->|]; done].
  - pose proof (le_none _ _ L cpu Hp Hout) as Ei. unfold ids in Ei. injection Ei as _ -> _. cbn [negb Z.eqb].
    change (-1 =? -1) with true. cbn [negb]. pose proof (learned_step D _ cpu Hm HD Hp Hout L) as L'.
    destruct (topo_ids (mpidr cpu)) as [[th co] so]. set (t1 := t <| cpu_topology := _ |>).
    unfold arm_update_cpu_power. assert (Hid : Z.land (mpidr cpu) HWID_BITMASK <> NO_HWID).
    { unfold HWID_BITMASK, NO_HWID. change 0xFFFFFF with (Z.ones 24). rewrite Z.land_ones by done.
      pose proof (Z.mod_pos_bound (mpidr cpu) (2 ^ 24) ltac:(lia)). destruct BITS_PER_LONG_ok as [-> | ->]; lia. }
    destruct (find_hwid _ t1) as [e|] eqn:Ef; [|eexists _, (cpu :: D); split; [done|]; split; [by split|intros c; apply elem_of_cons]].
    destruct (F _ e Hid Ef) as [F1 F2]. change (middle_capacity t1) with (middle_capacity t).
    rewrite udiv_some by lia. cbn [mbind option_bind]. eexists _, (cpu :: D). split; [done|]. split; [|intros c; apply elem_of_cons].
    split; [done|exact F|]. intros c Hc. unfold set_power_scale. cbn.
    destruct (decide (cpu = c)) as [->|]; rewrite ?fn_lookup_insert, ?fn_lookup_insert_ne by done; [done|by apply S].
Qed.

Lemma boot_cpus_ok l D t :
  multiprocessor -> (forall c, c ∈ D -> c ∈ cpus_of possible) -> (forall c, c ∈ l -> c ∈ cpus_of possible) -> booted D t ->
  exists t' D', boot_cpus mpidr l t = Some t' /\ booted D' t' /\ forall c, c ∈ D' <-> c ∈ l \/ c ∈ D.
Proof.
  intros Hm. revert D t. induction l as [|cpu l IH]; intros D t HD Hl B; cbn [boot_cpus].
  - exists t, D. split_and!; [done|done|]. intros c. rewrite elem_of_nil. tauto.
  - destruct (booted_step D t cpu Hm HD ltac:(apply Hl, list_elem_of_here) B) as (t1 & D1 & -> & B1 & H1).
    cbn [mbind option_bind]. destruct (IH D1 t1) as (t2 & D2 & E2 & B2 & H2).
    + intros c [->|]%H1; [apply Hl, list_elem_of_here|auto].
    + intros c Hc. by apply Hl, list_elem_of_further.
    + done.
    + exists t2, D2. split_and!; [done|done|]. intros c. rewrite H2, H1, elem_of_cons. tauto.
Qed.

(** C32. However CPUs boot, and whether they boot again after being unplugged, the sibling masks
    say what the MPIDRs say: the CPUs that have booted are partitioned into clusters by
    [core_sibling] and, within them, into cores by [thread_sibling]; a CPU that has not booted
    is in no mask, so that the masks of different CPUs always agree. *)
Theorem siblings_from_mpidr nodes l :
  multiprocessor -> clocked nodes -> (forall c, c ∈ l -> c ∈ cpus_of possible) ->
  exists t, boot_cpus mpidr l (init_cpu_topology nodes arm_start) = Some t /\
  forall c y, c ∈ cpus_of possible ->
    (cpumask_test_cpu y (core_sibling (cpu_topology t c)) = true <->
     c ∈ l /\ y ∈ l /\ socket_of (mpidr c) = socket_of (mpidr y)) /\
    (cpumask_test_cpu y (thread_sibling (cpu_topology t c)) = true <->
     c ∈ l /\ y ∈ l /\ socket_of (mpidr c) = socket_of (mpidr y) /\ core_of (mpidr c) = core_of (mpidr y)).
Proof.
  intros Hm Hn Hl.
  destruct (boot_cpus_ok l [] _ Hm ltac:(intros c Hc; by apply elem_of_nil in Hc) Hl (booted_none nodes Hn))
    as (t & D & E & [L _ _] & HD).
  assert (HD' : forall c, c ∈ D <-> c ∈ l) by (intros c; rewrite HD, elem_of_nil; tauto).
  exists t. split; [done|]. intros c y Hc. rewrite (le_core _ _ L), (le_thread _ _ L), !HD' by done. done.
Qed.

(** C34. Computing power is never zero nor far from the middle: with clocks of 16 MHz or more,
    reading the device tree and booting CPUs never divides by zero, and gives each CPU a scale
    between 1 and 1583, so that its power is not rounded to zero and counts for at most two
    CPUs of the default power 1024. *)
Theorem cpu_scale_bounds nodes l :
  multiprocessor -> clocked nodes -> (forall c, c ∈ l -> c ∈ cpus_of possible) ->
  exists t, boot_cpus mpidr l (init_cpu_topology nodes arm_start) = Some t /\
  forall c, c ∈ cpus_of possible -> 0 < power_scale t c <= 1583.
Proof.
  intros Hm Hn Hl.
  destruct (boot_cpus_ok l [] _ Hm ltac:(intros c Hc; by apply elem_of_nil in Hc) Hl (booted_none nodes Hn))
    as (t & D & E & [_ _ S] & _).
  by exists t.
Qed.
End arm.

(** * Two clusters

    Big CPUs 0 to 3 and LITTLE CPUs 4 to 7, in clusters 0 and 1. *)

#[local] Instance : Config := big_LITTLE_MP.

Definition sample_mpidr (c : Z) : Z := Z.lor MPIDR_SMP_VALUE (if c <? 4 then Z.land c 3 else Z.lor 256 (Z.land c 3)).
Definition dt_node (kind : string) (clock reg : Z) : dt_cpu := mk_dt_cpu (String.eqb kind) (Some clock) (Some reg).
Definition dt_board (big little : Z) : list dt_cpu :=
  (dt_node "arm,cortex-a15" big <$> [0; 1; 2; 3]) ++ (dt_node "arm,cortex-a7" little <$> [256; 257; 258; 259]).
Definition board_topo (big little : Z) : option arm_topo :=
  boot_cpus 255 sample_mpidr [0; 1; 4; 5; 6; 1] (init_cpu_topology 255 (dt_board big little) (arm_start)).

Lemma sample_multiprocessor : multiprocessor sample_mpidr.
Proof.
  intros c. unfold sample_mpidr. apply Z.bits_inj'. intros n Hn.
  assert (E : forall m, 0 <= m < 2 ^ 30 -> Z.land (Z.lor MPIDR_SMP_VALUE m) MPIDR_SMP_BITMASK = MPIDR_SMP_VALUE).
  { intros m Hm. apply Z.bits_inj'. intros i Hi. rewrite Z.land_spec, Z.lor_spec.
    unfold MPIDR_SMP_VALUE, MPIDR_SMP_BITMASK. rewrite !Z.shiftl_spec by done.
    destruct (decide (i < 30)); [rewrite !(Z.testbit_neg_r _ (i - 30)) by lia; by rewrite andb_false_r|].
    assert (Em : Z.testbit m i = false)
      by (rewrite <- (Z.mod_small m (2 ^ 30)) by done; apply Z.mod_pow2_bits_high; lia).
    rewrite Em, orb_false_r. by rewrite <- Z.land_spec. }
  rewrite E; [done|]. assert (R : 0 <= Z.land c 3 < 4).
  { change 3 with (Z.ones 2). rewrite Z.land_ones by done. apply Z.mod_pos_bound. done. }
  destruct (c <? 4); [lia|].
  assert (Hc : Z.land c 3 = 0 \/ Z.land c 3 = 1 \/ Z.land c 3 = 2 \/ Z.land c 3 = 3) by lia.
  by destruct Hc as [->|[->|[->| ->]]].
Qed.

Lemma board_clocked big little : 2 ^ 24 <= big < 2 ^ 32 -> 2 ^ 24 <= little < 2 ^ 32 -> clocked (dt_board big little).
Proof.
  intros Hb Hl. apply Forall_forall. intros cn [Hc|Hc]%elem_of_app;
    apply list_elem_of_fmap in Hc as (r & -> & _); cbn; intros rate [= <-]; done.
Qed.
Lemma board_boots c : c ∈ [0; 1; 4; 5; 6; 1] -> c ∈ cpus_of 255.
Proof.
  assert (F : Forall (fun c => c ∈ cpus_of 255) [0; 1; 4; 5; 6; 1])
    by (apply (bool_decide_unpack _); vm_compute; exact I).
  rewrite Forall_forall in F. apply F.
Qed.

Lemma some_view {A B} (f : A -> B) (o : option A) t v : o = Some t -> f <$> o = Some v -> f t = v.
Proof. intros -> [= ->]. done. Qed.

(** CPUs 2, 3 and 7 have not booted; CPU 1 has booted twice. *)
Lemma siblings_from_mpidr_witness :
  exists t, board_topo 1200000000 1000000000 = Some t /\
    (core_sibling (cpu_topology t 0), core_sibling (cpu_topology t 5), core_sibling (cpu_topology t 7),
     thread_sibling (cpu_topology t 5)) = (3, 112, 0, 32)
    /\ cpumask_test_cpu 6 (core_sibling (cpu_topology t 4)) = true
    /\ cpumask_test_cpu 1 (core_sibling (cpu_topology t 4)) <> true.
Proof.
  destruct (siblings_from_mpidr 255 sample_mpidr (dt_board 1200000000 1000000000) [0; 1; 4; 5; 6; 1])
    as (t & E & H).
  - exact sample_multiprocessor.
  - by apply board_clocked.
  - exact board_boots.
  - exists t. split; [exact E|]. split.
    + apply (some_view (fun t => (core_sibling (cpu_topology t 0), core_sibling (cpu_topology t 5),
               core_sibling (cpu_topology t 7), thread_sibling (cpu_topology t 5)))
               (board_topo 1200000000 1000000000)); [exact E|vm_compute; reflexivity].
    + assert (H4 : 4 ∈ [0; 1; 4; 5; 6; 1]) by (apply (bool_decide_unpack _); vm_compute; exact I).
      assert (H6 : 6 ∈ [0; 1; 4; 5; 6; 1]) by (apply (bool_decide_unpack _); vm_compute; exact I).
      pose proof (board_boots 4 H4) as Hc. split.
      * apply (proj1 (H 4 6 Hc)). exact (conj H4 (conj H6 eq_refl)).
      * rewrite (proj1 (H 4 1 Hc)). intros (_ & _ & E'). vm_compute in E'. discriminate E'.
Defined.

Lemma cpu_scale_bounds_witness :
  exists t, board_topo 1200000000 1000000000 = Some t /\ (power_scale t 0, power_scale t 5) = (1423, 624)
    /\ forall c, c ∈ cpus_of 255 -> 0 < power_scale t c <= 1583.
Proof.
  destruct (cpu_scale_bounds 255 sample_mpidr (dt_board 1200000000 1000000000) [0; 1; 4; 5; 6; 1])
    as (t & E & H).
  - exact sample_multiprocessor.
  - by apply board_clocked.
  - exact board_boots.
  - exists t. split; [exact E|]. split; [|exact H].
    apply (some_view (fun t => (power_scale t 0, power_scale t 5)) (board_topo 1200000000 1000000000)); [exact E|].
    vm_compute. reflexivity.
Defined.

(** The range that the comment on [table_efficiency] promises, [cpu_scale] below 3/2 of
    [SCHED_POWER_SCALE], is not kept: [middle_capacity] is rounded down.  With a Cortex-A15
    at 188743680 Hz and a Cortex-A7 at 119537664 Hz a big CPU gets 1539, over 1536, which
    [DIV_ROUND_CLOSEST] takes for two CPUs. *)
Theorem cpu_scale_exceeds :
  exists t, board_topo 188743680 119537664 = Some t /\ power_scale t 0 = 1539
    /\ (power_scale t 0 + 1024 / 2) / 1024 = 2.
Proof.
  assert (V : (fun t => power_scale t 0) <$> board_topo 188743680 119537664 = Some 1539) by (vm_compute; reflexivity).
  destruct (board_topo _ _) as [t|]; [|discriminate V]. injection V as V. exists t. by rewrite V.
Qed.
