(* ===== verification/HmpSelect.v ===== *)
(** HMP decisions: the least loaded CPU of a domain, the heaviest and the lightest
    task of a run queue, little-CPU packing, and whether a task should move up or
    down ([kernel/sched/fair.c], [hmp_domain_min_load] to [hmp_offload_down] and
    [hmp_task_eligible_for_up_migration] to [hmp_down_migration]). *)

From S2P Require Import Prelude Pelt SchedTypes HmpDomain.

Section select.
Context `{Config}.
Implicit Types (s : sys) (cpu : Z) (se : se_id).

(** * The least loaded CPU of a domain *)

(** The clock of the last HMP migration that touched a CPU's run queue. *)
Definition curr_last_migration s cpu : Z :=
  let avg := rq_avg (rqs s cpu) in
  if nonzero (hmp_last_up_migration avg) then hmp_last_up_migration avg
  else hmp_last_down_migration avg.

(** Any load counts as completely busy. *)
Definition cpu_contrib s cpu : Z :=
  if nonzero (load_avg_ratio (rq_avg (rqs s cpu))) then 1023 else 0.

(** The body of the loop; the state is (CPU, its last migration, its load). *)
Definition min_load_step s (m : Z * Z * Z) cpu : Z * Z * Z :=
  let '(_, min_target_last_migration, min_runnable_load) := m in
  if (cpu_contrib s cpu <? min_runnable_load)
     || ((cpu_contrib s cpu =? min_runnable_load)
         && (curr_last_migration s cpu <? min_target_last_migration))
  then (cpu, curr_last_migration s cpu, cpu_contrib s cpu) else m.

(** Returns the load and stores the CPU through [min_cpu]. *)
Definition hmp_domain_min_load (hmpd : hmp_domain) (affinity : option cpumask) s : Z * Z :=
  let temp_cpumask :=
    cpumask_and (hd_cpus hmpd) (match affinity with Some m => m | None => cpu_online_mask s end) in
  let '(min_cpu, _, min_load) :=
    foldl (min_load_step s) (NR_CPUS, ULLONG_MAX, INT_MAX) (cpus_of temp_cpumask) in
  (min_load, min_cpu).

(** * Selecting a CPU in a neighbouring domain *)

Definition tsk_cpus_allowed s (p : Z) : cpumask := cpus_allowed (tasks s p).

Definition hmp_select_faster_cpu s (tsk : Z) cpu : Z :=
  if CONFIG_SCHED_HMP_ENHANCEMENT then
    let '(_, lowest_cpu) := hmp_domain_min_load (domains s (hmp_faster_domain cpu s)) None s in
    if (lowest_cpu <? nr_cpu_ids s) && cpumask_test_cpu lowest_cpu (tsk_cpus_allowed s tsk)
    then lowest_cpu
    else cpumask_any_and (hd_cpus (domains s (hmp_faster_domain cpu s))) (tsk_cpus_allowed s tsk)
  else
    let hmp := if hmp_cpu_is_fastest cpu s then hmp_cpu_domain s cpu
               else hmp_faster_domain cpu s in
    (hmp_domain_min_load (domains s hmp) (Some (tsk_cpus_allowed s tsk)) s).2.

Definition hmp_select_slower_cpu s (tsk : Z) cpu : Z :=
  if CONFIG_SCHED_HMP_ENHANCEMENT then
    let '(_, lowest_cpu) := hmp_domain_min_load (domains s (hmp_slower_domain cpu s)) None s in
    if (lowest_cpu <? nr_cpu_ids s) && cpumask_test_cpu lowest_cpu (tsk_cpus_allowed s tsk)
    then lowest_cpu
    else cpumask_any_and (hd_cpus (domains s (hmp_slower_domain cpu s))) (tsk_cpus_allowed s tsk)
  else
    let hmp := if hmp_cpu_is_slowest cpu s then hmp_cpu_domain s cpu
               else hmp_slower_domain cpu s in
    (hmp_domain_min_load (domains s hmp) (Some (tsk_cpus_allowed s tsk)) s).2.

(** * The heaviest and the lightest task

    [__pick_first_entity] and [__pick_next_entity] walk the rb-tree in order; at most
    [hmp_max_tasks] entities are looked at. *)

Definition hmp_max_tasks : nat := 5.

Definition se_ratio s se : Z := load_avg_ratio (se_avg (ses s se)).

Definition walk s se : list se_id :=
  take hmp_max_tasks (tasks_timeline (cfss s (cfs_rq_of s se))).

(** [cpu_of(se->cfs_rq->rq)] *)
Definition se_cpu s se : Z := cpu_of_cfs s (cfs_rq_of s se).

(** The heaviest task that may run on [hmp_target_mask], starting from [max_se]. *)
Definition heaviest_in s (hmp_target_mask : cpumask) (l : list se_id) (max_se : se_id) : se_id :=
  foldl (fun max_se se =>
           if entity_is_task s se && (se_ratio s max_se <? se_ratio s se)
              && cpumask_intersects hmp_target_mask (tsk_cpus_allowed s (task_of se))
           then se else max_se) max_se l.

Definition hmp_get_heaviest_task (se : se_id) (target_cpu : Z) s : option se_id :=
  if hmp_cpu_is_fastest (se_cpu s se) s then Some se
  else
    let hmp_target_mask := hd_cpus (domains s (hmp_faster_domain (se_cpu s se) s)) in
    if 0 <=? target_cpu then
      if cpumask_test_cpu target_cpu hmp_target_mask
      then Some (heaviest_in s (cpumask_of target_cpu) (walk s se) se)
      else None
    else Some (heaviest_in s hmp_target_mask (walk s se) se).

Definition lightest_in s (hmp_target_mask : option cpumask) (l : list se_id) (min_se : se_id) :
    se_id :=
  foldl (fun min_se se =>
           if entity_is_task s se && (se_ratio s se <? se_ratio s min_se)
              && match hmp_target_mask with
                 | Some m => cpumask_intersects m (tsk_cpus_allowed s (task_of se))
                 | None => false
                 end
           then se else min_se) min_se l.

Definition hmp_get_lightest_task (se : se_id) (migrate_down : bool) s : se_id :=
  if migrate_down then
    if hmp_cpu_is_slowest (se_cpu s se) s then se
    else lightest_in s (Some (hd_cpus (domains s (hmp_slower_domain (se_cpu s se) s))))
           (walk s se) se
  else lightest_in s None (walk s se) se.

(** * Packing *)

(** With CONFIG_SCHED_HMP_LITTLE_PACKING and without CONFIG_SCHED_HMP_ENHANCEMENT. *)
Definition hmp_best_little_cpu s (tsk : Z) cpu : Z :=
  if negb (nonzero (hmp_packing_enabled (tun s)))
     || (NICE_0_LOAD * 90 / 100 <? se_ratio s (TaskSe tsk))
  then hmp_select_slower_cpu s tsk cpu
  else
    let hmp := if hmp_cpu_is_slowest cpu s then hmp_cpu_domain s cpu
               else hmp_slower_domain cpu s in
    let allowed_hmp_cpus := cpumask_and (hd_cpus (domains s hmp)) (tsk_cpus_allowed s tsk) in
    match List.find (fun tmp_cpu =>
            ulong (load_avg_ratio (rq_avg (rqs s tmp_cpu)) + se_ratio s (TaskSe tsk))
              <=? hmp_full_threshold (tun s)) (cpus_of allowed_hmp_cpus) with
    | Some tmp_cpu => tmp_cpu
    | None => cpu
    end.

(** * Rate limiting *)

(** hack - always use clock from first online CPU *)
Definition hmp_now s : Z := clock_task (rqs s (cpumask_first (cpu_online_mask s))).

Definition hmp_next_up_delay (se : se_id) cpu s : sys :=
  let now := hmp_now s in
  let s := upd_avg se (fun a => a <| hmp_last_up_migration := now |>) s in
  let s := upd_avg se (fun a => a <| hmp_last_down_migration := 0 |>) s in
  let s := upd_rq_avg cpu (fun a => a <| hmp_last_up_migration := now |>) s in
  upd_rq_avg cpu (fun a => a <| hmp_last_down_migration := 0 |>) s.

Definition hmp_next_down_delay (se : se_id) cpu s : sys :=
  let now := hmp_now s in
  let s := upd_avg se (fun a => a <| hmp_last_down_migration := now |>) s in
  let s := upd_avg se (fun a => a <| hmp_last_up_migration := 0 |>) s in
  let s := upd_rq_avg cpu (fun a => a <| hmp_last_down_migration := now |>) s in
  upd_rq_avg cpu (fun a => a <| hmp_last_up_migration := 0 |>) s.

(** * Offloading a big CPU *)

(** Running time over runnable time, 1024 standing for 1. *)
Definition hmp_task_starvation (se : se_id) s : Z :=
  let sa := se_avg (ses s se) in
  u32 (usage_avg_sum sa * scale_load_down NICE_0_LOAD) / u32 (runnable_avg_sum sa + 1).

Definition hmp_offload_down cpu (se : se_id) s : Z :=
  if hmp_cpu_is_slowest cpu s then NR_CPUS
  else if (hmp_domain_min_load (domains s (hmp_cpu_domain s cpu)) None s).1 =? 0 then NR_CPUS
  else if h_nr_running (cfss s (CfsRq 0 cpu)) <? 2 then NR_CPUS
  else if 768 <? hmp_task_starvation se s then NR_CPUS
  else
    let '(min_usage, dest_cpu) :=
      hmp_domain_min_load (domains s (hmp_slower_domain cpu s))
        (Some (tsk_cpus_allowed s (task_of se))) s in
    if min_usage =? 0 then dest_cpu else NR_CPUS.

(** * Up and down migration *)

Definition hmp_task_eligible_for_up_migration (se : se_id) s : bool :=
  negb (se_ratio s se <? hmp_up_threshold (tun s)).

(** Returns the target CPU, if the task should move. *)
Definition hmp_up_migration cpu (se : se_id) s : option Z :=
  let p := task_of se in
  if hmp_cpu_is_fastest cpu s then None
  else if CONFIG_SCHED_HMP_PRIO_FILTER && (hmp_up_prio (tun s) <=? prio (tasks s p)) then None
  else if negb (hmp_task_eligible_for_up_migration se s) then None
  else if Z.shiftr (u64 (hmp_now s - hmp_last_up_migration (se_avg (ses s se)))) 10
            <? hmp_next_up_threshold (tun s) then None
  else
    let '(load, temp_target_cpu) :=
      hmp_domain_min_load (domains s (hmp_faster_domain cpu s))
        (Some (tsk_cpus_allowed s p)) s in
    if (load =? 0) && negb (temp_target_cpu =? NR_CPUS) then Some temp_target_cpu else None.

Definition hmp_down_migration cpu (se : se_id) s : bool :=
  let p := task_of se in
  let slower_ok := cpumask_intersects (hd_cpus (domains s (hmp_slower_domain cpu s)))
                     (tsk_cpus_allowed s p) in
  if hmp_cpu_is_slowest cpu s then
    CONFIG_SCHED_HMP_LITTLE_PACKING && nonzero (hmp_packing_enabled (tun s))
  else if CONFIG_SCHED_HMP_PRIO_FILTER && (hmp_up_prio (tun s) <=? prio (tasks s p)) && slower_ok
  then true
  else if Z.shiftr (u64 (hmp_now s - hmp_last_down_migration (se_avg (ses s se)))) 10
            <? hmp_next_down_threshold (tun s) then false
  else slower_ok && (se_ratio s se <? hmp_down_threshold (tun s)).

(** ** The two HMP parts of [select_task_rq_fair] *)

(** [hmp_task_should_forkboost(p)]: children of init and of kthreadd are not boosted. *)
Definition hmp_task_should_forkboost s (p : Z) : bool :=
  match parent_pid (tasks s p) with Some q => 2 <? q | None => false end.

(** Fork balancing, for task [p] with [fork = sd_flag & SD_BALANCE_FORK] and
    [cpu = smp_processor_id()]: the CPU that is returned at once ([inl]), or the
    [new_cpu] normal balancing starts from ([inr]). *)
Definition hmp_fork_balance (p cpu : Z) (fork : bool) s : sys * (Z + Z) :=
  let prev_cpu := task_cpu (tasks s p) in
  let allowed := tsk_cpus_allowed s p in
  let recover new_cpu := (inr (if nr_cpu_ids s <=? new_cpu then cpu else new_cpu) : Z + Z) in
  if has_mm (tasks s p) && fork && hmp_task_should_forkboost s p then
    if hmp_cpu_is_fastest prev_cpu s then
      let '(_, new_cpu) := hmp_domain_min_load (domains s (hmp_cpu_domain s prev_cpu)) None s in
      if (new_cpu <? nr_cpu_ids s) && cpumask_test_cpu new_cpu allowed then (s, inl new_cpu)
      else
        let new_cpu := cpumask_any_and (hd_cpus (domains s (hmp_faster_domain cpu s))) allowed in
        if new_cpu <? nr_cpu_ids s then (s, inl new_cpu) else (s, recover new_cpu)
    else
      let new_cpu := hmp_select_faster_cpu s p prev_cpu in
      if negb (new_cpu =? NR_CPUS)
      then (hmp_next_up_delay (TaskSe p) new_cpu s, inl new_cpu)
      else (s, recover new_cpu)
  else (s, inr cpu).

(** The last part, without CONFIG_SCHED_HMP_ENHANCEMENT: [new_cpu] is what wake-up or
    idlest-CPU balancing chose. *)
Definition hmp_wakeup_select (p new_cpu : Z) s : sys * Z :=
  let prev_cpu := task_cpu (tasks s p) in
  let se := TaskSe p in
  match hmp_up_migration prev_cpu se s with
  | Some target => (hmp_next_up_delay se target s, target)
  | None =>
      let stay new_cpu :=
        (s, if cpumask_test_cpu new_cpu (hd_cpus (domains s (hmp_cpu_domain s prev_cpu)))
            then new_cpu else prev_cpu) in
      if hmp_down_migration prev_cpu se s then
        let new_cpu := if CONFIG_SCHED_HMP_LITTLE_PACKING then hmp_best_little_cpu s p prev_cpu
                       else hmp_select_slower_cpu s p prev_cpu in
        if (new_cpu <? NR_CPUS) && negb (new_cpu =? prev_cpu)
        then (hmp_next_down_delay se new_cpu s, new_cpu)
        else stay new_cpu
      else stay new_cpu
  end.


(** * The least loaded CPU: specification *)

(** The order in which CPUs are preferred: idle first, then longest undisturbed. *)
Definition key_lt s (c d : Z) : Prop :=
  cpu_contrib s c < cpu_contrib s d
  \/ (cpu_contrib s c = cpu_contrib s d /\ curr_last_migration s c < curr_last_migration s d).
Definition key_le s (c d : Z) : Prop := ~ key_lt s d c.

Lemma key_le_trans s a b c : key_le s a b -> key_le s b c -> key_le s a c.
Proof. unfold key_le, key_lt. lia. Qed.
Lemma key_lt_le_trans s a b c : key_lt s a b -> key_le s b c -> key_lt s a c.
Proof. unfold key_le, key_lt. lia. Qed.

Definition key_of s (c : Z) : Z * Z * Z := (c, curr_last_migration s c, cpu_contrib s c).

Lemma cpu_contrib_cases s c : cpu_contrib s c = 0 \/ cpu_contrib s c = 1023.
Proof. unfold cpu_contrib. case_match; auto. Qed.

Lemma min_load_step_key s c d :
  (key_lt s d c /\ min_load_step s (key_of s c) d = key_of s d)
  \/ (key_le s c d /\ min_load_step s (key_of s c) d = key_of s c).
Proof.
  unfold min_load_step, key_of, key_lt, key_le, key_lt.
  destruct (Z.ltb_spec (cpu_contrib s d) (cpu_contrib s c)),
    (Z.eqb_spec (cpu_contrib s d) (cpu_contrib s c)),
    (Z.ltb_spec (curr_last_migration s d) (curr_last_migration s c)); simpl;
    (left; split; [lia|reflexivity]) || (right; split; [lia|reflexivity]).
Qed.

(** [c] is the first of the preferred CPUs of [l]. *)
Definition first_min s (l : list Z) (c : Z) : Prop :=
  exists l1 l2, l = l1 ++ c :: l2 /\ Forall (key_lt s c) l1 /\ Forall (key_le s c) l2.

Lemma min_load_fold s l c :
  exists m, foldl (min_load_step s) (key_of s c) l = key_of s m /\ first_min s (c :: l) m.
Proof.
  revert c. induction l as [|d l IH]; intros c; cbn [foldl].
  { exists c. split; [done|]. exists [], []. auto. }
  destruct (min_load_step_key s c d) as [[Hlt ->]|[Hle ->]].
  - destruct (IH d) as (m & -> & l1 & l2 & E & F1 & F2). exists m. split; [done|].
    exists (c :: l1), l2. rewrite E. split_and!; [done| |done]. constructor; [|done].
    destruct l1 as [|x l1]; simplify_eq/=; [done|].
    apply Forall_cons in F1 as [F1 _]. unfold key_lt in *. lia.
  - destruct (IH c) as (m & -> & l1 & l2 & E & F1 & F2). exists m. split; [done|].
    destruct l1 as [|x l1]; simplify_eq/=.
    + eexists [], _. split; [reflexivity|]. auto.
    + apply Forall_cons in F1 as [F0 F1]. exists (x :: d :: l1), l2. split_and!; [done| |done].
      constructor; [done|]. constructor; [by eapply key_lt_le_trans|done].
Qed.

(** The CPUs [hmp_domain_min_load] looks at. *)
Definition min_load_cpus (hmpd : hmp_domain) (affinity : option cpumask) s : list Z :=
  cpus_of (cpumask_and (hd_cpus hmpd)
             (match affinity with Some m => m | None => cpu_online_mask s end)).

Lemma domain_min_load_cases hmpd affinity s :
  (min_load_cpus hmpd affinity s = []
   /\ hmp_domain_min_load hmpd affinity s = (INT_MAX, NR_CPUS))
  \/ exists m, first_min s (min_load_cpus hmpd affinity s) m
               /\ hmp_domain_min_load hmpd affinity s = (cpu_contrib s m, m).
Proof.
  unfold hmp_domain_min_load. fold (min_load_cpus hmpd affinity s).
  destruct (min_load_cpus hmpd affinity s) as [|c l]; [auto|right].
  assert (E : min_load_step s (NR_CPUS, ULLONG_MAX, INT_MAX) c = key_of s c).
  { unfold min_load_step, key_of. by destruct (cpu_contrib_cases s c) as [->| ->]. }
  cbn [foldl]. rewrite E. destruct (min_load_fold s l c) as (m & -> & Hm). exists m. done.
Qed.

Definition cpu_idle s (c : Z) : Prop := load_avg_ratio (rq_avg (rqs s c)) = 0.

Lemma cpu_contrib_idle s c : cpu_contrib s c = 0 <-> cpu_idle s c.
Proof.
  unfold cpu_contrib, cpu_idle, nonzero.
  destruct (Z.eqb_spec (load_avg_ratio (rq_avg (rqs s c))) 0); simpl; lia.
Qed.

Lemma first_min_elem s l m : first_min s l m -> m ∈ l.
Proof. intros (l1 & l2 & -> & _). set_solver. Qed.

Lemma first_min_le s l m c : first_min s l m -> c ∈ l -> key_le s m c.
Proof.
  intros (l1 & l2 & -> & F1 & F2). rewrite elem_of_app, elem_of_cons.
  rewrite Forall_forall in F1, F2. unfold key_le, key_lt in *.
  intros [Hc|[->|Hc]]; [specialize (F1 c Hc)| |specialize (F2 c Hc)]; lia.
Qed.

Lemma first_min_idle s l m : first_min s l m -> (cpu_idle s m <-> exists c, c ∈ l /\ cpu_idle s c).
Proof.
  intros Hm. split; [intros Hi; exists m; by split; [apply (first_min_elem s)|]|].
  intros (c & Hc & Hi). pose proof (first_min_le s l m c Hm Hc) as Hle.
  rewrite <- cpu_contrib_idle in *. unfold key_le, key_lt in Hle.
  destruct (cpu_contrib_cases s m); lia.
Qed.

(** C30. [hmp_domain_min_load] returns the least loaded CPU of the domain's CPUs that
    the affinity mask (or the online mask) allows: NR_CPUS if there is none;
    otherwise one of them, idle if any of them is idle (load 0, else 1023), among
    equally loaded ones the one least recently disturbed by an HMP migration, and
    the lowest-numbered if there is still a tie. *)
Theorem domain_min_load_spec hmpd affinity s :
  let '(load, cpu) := hmp_domain_min_load hmpd affinity s in
  let l := min_load_cpus hmpd affinity s in
  (l = [] -> load = INT_MAX /\ cpu = NR_CPUS)
  /\ (l <> [] -> cpu ∈ l /\ first_min s l cpu /\ (load = 0 \/ load = 1023)
                 /\ (load = 0 <-> exists c, c ∈ l /\ cpu_idle s c)).
Proof.
  destruct (domain_min_load_cases hmpd affinity s) as [[E ->]|(m & Hm & ->)].
  - rewrite E. done.
  - split; [intros E; apply first_min_elem in Hm; rewrite E in Hm; set_solver|].
    intros _. split_and!; [by apply (first_min_elem s)|done|apply cpu_contrib_cases|].
    rewrite cpu_contrib_idle. by apply first_min_idle.
Qed.

(** An idle allowed CPU was found. *)
Lemma min_load_found hmpd affinity s cpu :
  hmp_domain_min_load hmpd affinity s = (0, cpu) ->
  cpu ∈ min_load_cpus hmpd affinity s /\ cpu_idle s cpu.
Proof.
  destruct (domain_min_load_cases hmpd affinity s) as [[_ ->]|(m & Hm & ->)]; [done|].
  intros [= E ->]. split; [by apply (first_min_elem s)|by apply cpu_contrib_idle].
Qed.

Lemma elem_of_min_load_cpus hmpd m s c :
  c ∈ min_load_cpus hmpd (Some m) s
  <-> 0 <= c < NR_CPUS /\ cpumask_test_cpu c (hd_cpus hmpd) = true /\ cpumask_test_cpu c m = true.
Proof. unfold min_load_cpus. rewrite elem_of_cpus_of, test_and, andb_true_iff. tauto. Qed.

Lemma first_min_unique s l c d : first_min s l c -> first_min s l d -> c = d.
Proof.
  intros (l1 & l2 & E & F1 & F2) (k1 & k2 & E' & G1 & G2).
  rewrite Forall_forall in F1, F2, G1, G2. rewrite E in E'. clear E.
  apply app_eq_inv in E' as [(x & -> & E)|(x & -> & E)];
    (destruct x as [|y x]; [by injection E|]; exfalso; injection E as Ey Et; subst y).
  - assert (L1 : key_lt s c d) by (apply F1; set_solver).
    assert (L2 : key_le s d c) by (apply G2; set_solver). done.
  - assert (L1 : key_lt s d c) by (apply G1; set_solver).
    assert (L2 : key_le s c d) by (apply F2; set_solver). done.
Qed.

(** * Up and down migration: specification *)

(** What the last test of [hmp_up_migration] amounts to. *)
Lemma min_load_target hmpd m s target :
  (let '(load, c) := hmp_domain_min_load hmpd (Some m) s in
   if (load =? 0) && negb (c =? NR_CPUS) then Some c else None) = Some target
  <-> first_min s (min_load_cpus hmpd (Some m) s) target /\ cpu_idle s target.
Proof.
  destruct (domain_min_load_cases hmpd (Some m) s) as [[E ->]|(c & Hc & ->)].
  - split; [done|]. intros [Hm _]. apply first_min_elem in Hm. rewrite E in Hm. set_solver.
  - pose proof (first_min_elem _ _ _ Hc) as Hin. apply elem_of_min_load_cpus in Hin.
    destruct (Z.eqb_spec c NR_CPUS); [lia|]. rewrite andb_true_r. split.
    + destruct (Z.eqb_spec (cpu_contrib s c) 0) as [Hi|]; [|done].
      intros [= ->]. by rewrite cpu_contrib_idle in Hi.
    + intros [Hm Hi]. rewrite (first_min_unique s _ c target Hc Hm).
      apply cpu_contrib_idle in Hi. by rewrite Hi.
Qed.

(** C11. Up-migration is decided exactly as documented: a task moves to [target] if and
    only if its CPU is not in the fastest domain, its priority is high enough (with
    the priority filter), its load ratio has reached the up threshold, the last up
    migration is long enough ago, and [target] is the preferred CPU among the idle,
    allowed CPUs of the next faster domain. *)
Theorem up_migration_spec cpu se s target :
  hmp_up_migration cpu se s = Some target <->
  hmp_cpu_is_fastest cpu s = false
  /\ (CONFIG_SCHED_HMP_PRIO_FILTER = true -> prio (tasks s (task_of se)) < hmp_up_prio (tun s))
  /\ hmp_up_threshold (tun s) <= se_ratio s se
  /\ hmp_next_up_threshold (tun s)
     <= u64 (hmp_now s - hmp_last_up_migration (se_avg (ses s se))) / 1024
  /\ first_min s (min_load_cpus (domains s (hmp_faster_domain cpu s))
                    (Some (tsk_cpus_allowed s (task_of se))) s) target
  /\ cpu_idle s target.
Proof.
  unfold hmp_up_migration, hmp_task_eligible_for_up_migration.
  rewrite shiftr_div by lia. change (2 ^ 10) with 1024.
  destruct (hmp_cpu_is_fastest cpu s); [naive_solver|].
  destruct CONFIG_SCHED_HMP_PRIO_FILTER; simpl;
    [destruct (Z.leb_spec (hmp_up_prio (tun s)) (prio (tasks s (task_of se)))); [naive_solver lia|]|];
  (destruct (Z.ltb_spec (se_ratio s se) (hmp_up_threshold (tun s))); [naive_solver lia|]);
  (destruct (Z.ltb_spec (u64 (hmp_now s - hmp_last_up_migration (se_avg (ses s se))) / 1024)
              (hmp_next_up_threshold (tun s))); [naive_solver lia|]);
  simpl; rewrite min_load_target; intuition (done || lia).
Qed.

(** No ping-pong.  As long as the down threshold does not exceed the up threshold,
    a task that qualifies to move up from a LITTLE CPU would not, in the same state,
    be moved down from any CPU of a faster domain: the two decisions exclude each
    other, whatever the priorities, clocks and affinities. *)
Theorem up_down_exclusive c1 c2 se s target :
  hmp_down_threshold (tun s) <= hmp_up_threshold (tun s) ->
  hmp_up_migration c1 se s = Some target -> hmp_cpu_is_slowest c2 s = false ->
  hmp_down_migration c2 se s = false.
Proof.
  unfold hmp_up_migration, hmp_down_migration, hmp_task_eligible_for_up_migration.
  intros Ht Hup ->. destruct (hmp_cpu_is_fastest c1 s); [done|].
  destruct (CONFIG_SCHED_HMP_PRIO_FILTER && _) eqn:Hp; [done|]. simpl.
  destruct (Z.ltb_spec (se_ratio s se) (hmp_up_threshold (tun s))); [done|].
  clear Hup. case_match; [done|]. rewrite andb_false_iff. right. lia.
Qed.

Lemma up_migration_rate cpu se s :
  u64 (hmp_now s - hmp_last_up_migration (se_avg (ses s se))) / 1024 < hmp_next_up_threshold (tun s) ->
  hmp_up_migration cpu se s = None.
Proof.
  intros Hr. unfold hmp_up_migration. rewrite shiftr_div by lia. change (2 ^ 10) with 1024.
  repeat (case_match; [done|]).
  destruct (Z.ltb_spec (u64 (hmp_now s - hmp_last_up_migration (se_avg (ses s se))) / 1024)
              (hmp_next_up_threshold (tun s))); [done|lia].
Qed.

(** Rate limit.  After an up migration of a task (recorded by
    [hmp_next_up_delay]), no further up migration of it is decided until
    [hmp_next_up_threshold] units of 1024 ns have passed on the reference clock,
    wherever the task runs and whatever happens to its load meanwhile. *)
Theorem up_migration_rate_limited cpu cpu' se s s' :
  hmp_last_up_migration (se_avg (ses s' se))
  = hmp_last_up_migration (se_avg (ses (hmp_next_up_delay se cpu s) se)) ->
  0 <= hmp_now s <= hmp_now s' -> hmp_now s' < 2 ^ 64 ->
  (hmp_now s' - hmp_now s) / 1024 < hmp_next_up_threshold (tun s') ->
  hmp_up_migration cpu' se s' = None.
Proof.
  intros Hl Hn Hb Hd. apply up_migration_rate. rewrite Hl.
  assert (hmp_last_up_migration (se_avg (ses (hmp_next_up_delay se cpu s) se)) = hmp_now s) as ->
    by (unfold hmp_next_up_delay; by store_simpl).
  by rewrite u64_id by lia.
Qed.

(** * Heaviest and lightest: specification *)

(** Scanning a list for the greatest value among the candidates [ok]. *)
Lemma scan_best {A} (step : A -> A -> A) (ok : A -> bool) (val : A -> Z) l m0 :
  (forall m x, step m x = if ok x && (val m <? val x) then x else m) ->
  let m := foldl step m0 l in
  val m0 <= val m /\ (forall x, x ∈ l -> ok x = true -> val x <= val m)
  /\ (m = m0 \/ (m ∈ l /\ ok m = true)).
Proof.
  intros Hs. revert m0. induction l as [|x l IH]; intros m0; simpl.
  { split_and!; [lia|set_solver|auto]. }
  specialize (IH (step m0 x)) as (I1 & I2 & I3).
  assert (Hx : val m0 <= val (step m0 x) /\ (ok x = true -> val x <= val (step m0 x))
               /\ (step m0 x = m0 \/ step m0 x = x /\ ok x = true)).
  { rewrite Hs. destruct (ok x), (Z.ltb_spec (val m0) (val x)); simpl; split_and!; auto; lia. }
  destruct Hx as (X1 & X2 & X3). split_and!; [lia| |].
  - intros y [->|Hy]%elem_of_cons Ho; [specialize (X2 Ho); lia|auto].
  - destruct I3 as [->|[? ?]]; [|right; set_solver].
    destruct X3 as [->|[-> ?]]; [auto|right; set_solver].
Qed.

(** An entity of the walk that may be moved to one of the CPUs of [mask]. *)
Definition movable s (mask : cpumask) (se : se_id) : bool :=
  entity_is_task s se && cpumask_intersects mask (tsk_cpus_allowed s (task_of se)).

(** On a CPU outside the fastest domain, [hmp_get_heaviest_task] returns, for an
    allowed target, the entity with the greatest load ratio among the current one
    and those of the first five queued entities that are tasks allowed on the target
    CPUs; it returns NULL exactly if a target CPU is given that the next faster
    domain does not have online. *)
Theorem heaviest_task_spec se target s :
  hmp_cpu_is_fastest (se_cpu s se) s = false ->
  let mask := hd_cpus (domains s (hmp_faster_domain (se_cpu s se) s)) in
  let tmask := if 0 <=? target then cpumask_of target else mask in
  match hmp_get_heaviest_task se target s with
  | None => 0 <= target /\ cpumask_test_cpu target mask = false
  | Some m =>
      (0 <= target -> cpumask_test_cpu target mask = true)
      /\ se_ratio s se <= se_ratio s m
      /\ (forall x, x ∈ walk s se -> movable s tmask x = true -> se_ratio s x <= se_ratio s m)
      /\ (m = se \/ (m ∈ walk s se /\ movable s tmask m = true))
  end.
Proof.
  intros Hf mask tmask. unfold hmp_get_heaviest_task. rewrite Hf. fold mask.
  assert (Hb : forall k, let m := heaviest_in s k (walk s se) se in
    se_ratio s se <= se_ratio s m
    /\ (forall x, x ∈ walk s se -> movable s k x = true -> se_ratio s x <= se_ratio s m)
    /\ (m = se \/ (m ∈ walk s se /\ movable s k m = true))).
  { intros k. apply scan_best. intros m x. unfold movable.
    destruct (entity_is_task s x), (cpumask_intersects k _), (se_ratio s m <? se_ratio s x); done. }
  unfold tmask. destruct (Z.leb_spec 0 target); [|split; [lia|apply Hb]].
  destruct (cpumask_test_cpu target mask) eqn:Ht; [|by split]. split; [done|apply Hb].
Qed.

(** On a CPU outside the slowest domain, [hmp_get_lightest_task(se, 1)] returns the
    entity with the least load ratio among the current one and those of the first
    five queued entities that are tasks allowed in the next slower domain. *)
Theorem lightest_task_spec se s :
  hmp_cpu_is_slowest (se_cpu s se) s = false ->
  let mask := hd_cpus (domains s (hmp_slower_domain (se_cpu s se) s)) in
  let m := hmp_get_lightest_task se true s in
  se_ratio s m <= se_ratio s se
  /\ (forall x, x ∈ walk s se -> movable s mask x = true -> se_ratio s m <= se_ratio s x)
  /\ (m = se \/ (m ∈ walk s se /\ movable s mask m = true)).
Proof.
  intros Hs mask m. unfold m, hmp_get_lightest_task. rewrite Hs. fold mask.
  destruct (scan_best (fun min_se x => if entity_is_task s x && (se_ratio s x <? se_ratio s min_se)
    && cpumask_intersects mask (tsk_cpus_allowed s (task_of x)) then x else min_se)
    (movable s mask) (fun x => - se_ratio s x) (walk s se) se) as (B1 & B2 & B3).
  - intros m0 x. unfold movable. replace (- se_ratio s m0 <? - se_ratio s x)
      with (se_ratio s x <? se_ratio s m0) by lia.
    destruct (entity_is_task s x), (cpumask_intersects mask _), (se_ratio s x <? se_ratio s m0); done.
  - fold (lightest_in s (Some mask) (walk s se) se) in B1, B2, B3.
    split_and!; [lia| |done]. intros x Hx Ho. specialize (B2 x Hx Ho). lia.
Qed.

(** * Offloading and wake-up placement: specification *)

(** C12. A big CPU offloads a task to [dest] if and only if it is not in the slowest
    domain, every CPU of its own domain is busy, at least two tasks share it, the
    task gets at most three quarters of the time it wants, and [dest] is the
    preferred CPU among the idle, allowed CPUs of the next slower domain. *)
Theorem offload_down_spec cpu se s dest :
  dest < NR_CPUS ->
  let own := min_load_cpus (domains s (hmp_cpu_domain s cpu)) None s in
  hmp_offload_down cpu se s = dest <->
  hmp_cpu_is_slowest cpu s = false
  /\ (forall c, c ∈ own -> ~ cpu_idle s c)
  /\ 2 <= h_nr_running (cfss s (CfsRq 0 cpu))
  /\ hmp_task_starvation se s <= 768
  /\ first_min s (min_load_cpus (domains s (hmp_slower_domain cpu s))
                    (Some (tsk_cpus_allowed s (task_of se))) s) dest
  /\ cpu_idle s dest.
Proof.
  intros Hd own. unfold hmp_offload_down.
  destruct (hmp_cpu_is_slowest cpu s); [naive_solver lia|].
  assert (Hown : (hmp_domain_min_load (domains s (hmp_cpu_domain s cpu)) None s).1 <> 0
                 <-> forall c, c ∈ own -> ~ cpu_idle s c).
  { unfold own. destruct (domain_min_load_cases (domains s (hmp_cpu_domain s cpu)) None s)
      as [[-> ->]|(m & Hm & ->)]; simpl; [set_solver by lia|].
    rewrite cpu_contrib_idle, (first_min_idle s _ m Hm). naive_solver. }
  destruct (Z.eqb_spec (hmp_domain_min_load (domains s (hmp_cpu_domain s cpu)) None s).1 0);
    [naive_solver lia|].
  destruct (Z.ltb_spec (h_nr_running (cfss s (CfsRq 0 cpu))) 2); [naive_solver lia|].
  destruct (Z.ltb_spec 768 (hmp_task_starvation se s)); [naive_solver lia|].
  pose proof (min_load_target (domains s (hmp_slower_domain cpu s))
                (tsk_cpus_allowed s (task_of se)) s dest) as T.
  destruct (hmp_domain_min_load _ (Some _) s) as [load c]. rewrite <- T.
  destruct (Z.eqb_spec load 0); destruct (Z.eqb_spec c NR_CPUS); simpl; naive_solver lia.
Qed.

(** The domain a task is kept in or moved down to from [cpu]. *)
Definition little_domain s cpu : Z :=
  if hmp_cpu_is_slowest cpu s then hmp_cpu_domain s cpu else hmp_slower_domain cpu s.

Definition cpu_in s (a : Z) (p c : Z) : Prop :=
  0 <= c < NR_CPUS /\ cpumask_test_cpu c (hd_cpus (domains s a)) = true
  /\ cpumask_test_cpu c (tsk_cpus_allowed s p) = true.

Lemma select_slower_sound s p cpu :
  CONFIG_SCHED_HMP_ENHANCEMENT = false ->
  let c := hmp_select_slower_cpu s p cpu in c = NR_CPUS \/ cpu_in s (little_domain s cpu) p c.
Proof.
  intros He. unfold hmp_select_slower_cpu. rewrite He. fold (little_domain s cpu). cbv zeta.
  destruct (domain_min_load_cases (domains s (little_domain s cpu))
              (Some (tsk_cpus_allowed s p)) s) as [[_ ->]|(m & Hm & ->)]; [auto|right].
  by apply first_min_elem, elem_of_min_load_cpus in Hm.
Qed.

Lemma best_little_sound s p cpu :
  CONFIG_SCHED_HMP_ENHANCEMENT = false ->
  let c := hmp_best_little_cpu s p cpu in
  c = cpu \/ c = NR_CPUS \/ cpu_in s (little_domain s cpu) p c.
Proof.
  intros He. unfold hmp_best_little_cpu. case_match; [by right; apply select_slower_sound|].
  fold (little_domain s cpu). cbv zeta. destruct (List.find _ _) as [c|] eqn:Hf; [|auto].
  apply List.find_some in Hf as [Hin _]. apply list_elem_of_In, elem_of_cpus_of in Hin.
  rewrite test_and, andb_true_iff in Hin. unfold cpu_in. tauto.
Qed.

(** Wake-up placement.  The CPU chosen for a waking task is the CPU it last ran
    on; or the one normal balancing proposed, if it is in the same HMP domain; or an
    idle CPU of the next faster domain; or a CPU of the next slower domain (of its own
    domain if that is the slowest).  In the last two cases the CPU exists and the
    task's affinity mask allows it. *)
Theorem wakeup_select_sound p new_cpu s :
  CONFIG_SCHED_HMP_ENHANCEMENT = false ->
  let prev := task_cpu (tasks s p) in
  cpumask_test_cpu NR_CPUS (hd_cpus (domains s (hmp_cpu_domain s prev))) = false ->
  let r := (hmp_wakeup_select p new_cpu s).2 in
  r = prev
  \/ (r = new_cpu /\ cpumask_test_cpu r (hd_cpus (domains s (hmp_cpu_domain s prev))) = true)
  \/ (cpu_in s (hmp_faster_domain prev s) p r /\ cpu_idle s r)
  \/ cpu_in s (little_domain s prev) p r.
Proof.
  intros He prev Hn. unfold hmp_wakeup_select. fold prev.
  destruct (hmp_up_migration prev (TaskSe p) s) as [target|] eqn:Hup.
  - cbn [snd]. right; right; left. unfold hmp_up_migration in Hup.
    repeat (case_match; [done|]). apply min_load_target in Hup as [Hm Hi]. split; [|done].
    by apply first_min_elem, elem_of_min_load_cpus in Hm.
  - clear Hup. destruct (hmp_down_migration prev (TaskSe p) s); [|cbn; case_match; auto].
    set (c := if CONFIG_SCHED_HMP_LITTLE_PACKING then _ else _).
    assert (Hc : c = prev \/ c = NR_CPUS \/ cpu_in s (little_domain s prev) p c).
    { unfold c. case_match; [by apply best_little_sound|by right; apply select_slower_sound]. }
    case_match eqn:Hg; cbn [snd].
    + destruct Hc as [?|[?|?]]; [auto|lia|auto].
    + destruct Hc as [->|[->|?]]; [case_match; auto|rewrite Hn; auto|case_match; auto].
Qed.

(** Packing.  A small task woken on a LITTLE CPU with packing enabled goes to the
    first allowed LITTLE CPU whose load, with the task's added, stays within the
    packing limit. *)
Theorem best_little_packs s p cpu c :
  hmp_packing_enabled (tun s) <> 0 -> 0 <= se_ratio s (TaskSe p) <= NICE_0_LOAD * 90 / 100 ->
  c ∈ cpus_of (cpumask_and (hd_cpus (domains s (little_domain s cpu))) (tsk_cpus_allowed s p)) ->
  (forall c, 0 <= load_avg_ratio (rq_avg (rqs s c)) < 2 ^ 31) ->
  load_avg_ratio (rq_avg (rqs s c)) + se_ratio s (TaskSe p) <= hmp_full_threshold (tun s) ->
  let r := hmp_best_little_cpu s p cpu in
  r <= c /\ cpu_in s (little_domain s cpu) p r
  /\ load_avg_ratio (rq_avg (rqs s r)) + se_ratio s (TaskSe p) <= hmp_full_threshold (tun s).
Proof.
  change (NICE_0_LOAD * 90 / 100) with 921. intros Hp Hr Hc Hl Hfit.
  assert (Hu : forall d, ulong (load_avg_ratio (rq_avg (rqs s d)) + se_ratio s (TaskSe p))
                         = load_avg_ratio (rq_avg (rqs s d)) + se_ratio s (TaskSe p)).
  { intros d. apply ulong_id. specialize (Hl d). lia. }
  unfold hmp_best_little_cpu. destruct (nonzero _) eqn:Hn; [|by unfold nonzero in Hn; lia].
  change (NICE_0_LOAD * 90 / 100) with 921.
  destruct (Z.ltb_spec 921 (se_ratio s (TaskSe p))) as [Hlt|_]; [lia|].
  simpl. fold (little_domain s cpu).
  edestruct (find_cpu_least (fun tmp_cpu =>
    ulong (load_avg_ratio (rq_avg (rqs s tmp_cpu)) + se_ratio s (TaskSe p))
      <=? hmp_full_threshold (tun s)) _ c Hc) as (r & -> & Hle & Hin & Hfr); [rewrite Hu; lia|].
  rewrite Hu in Hfr. apply elem_of_cpus_of in Hin. rewrite test_and, andb_true_iff in Hin.
  unfold cpu_in. split_and!; try tauto; lia.
Qed.

(** Fork balancing reads past the domain list.  When the CPU preferred in the
    fastest domain is not allowed for the task, fork balancing on a CPU of that domain takes
    the "next faster" domain, which is the list head misread as a domain: the CPU
    returned is whatever that memory says, even a CPU that is offline. *)
Theorem fork_balance_reads_list_head p cpu s :
  has_mm (tasks s p) = true -> hmp_task_should_forkboost s p = true ->
  hmp_cpu_is_fastest (task_cpu (tasks s p)) s = true -> hmp_cpu_is_fastest cpu s = true ->
  NoDup (hmp_domains s) ->
  (let '(_, c) := hmp_domain_min_load (domains s (hmp_cpu_domain s (task_cpu (tasks s p)))) None s in
   cpumask_test_cpu c (tsk_cpus_allowed s p) = false) ->
  let c := cpumask_any_and (hd_cpus (domains s hmp_domains_head)) (tsk_cpus_allowed s p) in
  c < nr_cpu_ids s -> (hmp_fork_balance p cpu true s).2 = inl c.
Proof.
  intros Hmm Hb Hf Hc Hnd Hm c Hlt. unfold hmp_fork_balance. rewrite Hmm, Hb, Hf. simpl.
  destruct (hmp_domain_min_load _ None s) as [load d]. rewrite Hm, andb_false_r.
  assert (Eh : hmp_faster_domain cpu s = hmp_domains_head).
  { unfold hmp_cpu_is_fastest in Hc. unfold hmp_faster_domain, prev_in. apply Z.eqb_eq in Hc.
    rewrite Hc. destruct (hmp_domains s) as [|a l]; [done|]. simpl.
    apply next_in_last. rewrite list_elem_of_In, <- in_rev, <- list_elem_of_In.
    by apply NoDup_cons in Hnd as [? _]. }
  rewrite Eh. fold c. destruct (Z.ltb_spec c (nr_cpu_ids s)); [done|lia].
Qed.
End select.

(** * Witnesses *)

(** Task 4 is a heavy task on LITTLE CPU 4, where tasks 12 and 20 queue; task 1 is a
    light task on big CPU 1; the big CPUs 0 and 1 are busy. *)
Definition busy_sys : sys :=
  let s := sample_sys <| rqs := fun c => sample_rq <| clock_task := 10000000000 |>
             <| rq_avg := sample_avg <| load_avg_ratio := if c <? 2 then 600 else 0 |> |> |> in
  let s := s <| ses := fun i => (sample_se i)
             <| se_cfs_rq := CfsRq 0 (task_of i mod 8) |>
             <| se_avg := sample_avg
                  <| load_avg_ratio := match i with TaskSe 4 => 800 | TaskSe 12 => 900
                                                  | TaskSe 20 => 300 | _ => 100 end |> |> |> in
  let s := s <| tasks := fun p => (sample_task p) <| task_cpu := p mod 8 |>
             <| prio := 100 |> <| parent_pid := Some 100 |> |> in
  upd_cfs (CfsRq 0 4) (fun c => c <| tasks_timeline := [TaskSe 12; TaskSe 20] |>) s.

Lemma up_down_exclusive_witness :
  hmp_up_migration (H := big_LITTLE_MP) 4 (TaskSe 4) busy_sys = Some 2
  /\ hmp_down_migration (H := big_LITTLE_MP) 1 (TaskSe 4) busy_sys = false.
Proof.
  split; [vm_compute; reflexivity|].
  apply (up_down_exclusive (H := big_LITTLE_MP) 4 1 (TaskSe 4) busy_sys 2);
    [vm_compute; discriminate | vm_compute; reflexivity | reflexivity].
Defined.

Lemma up_migration_rate_limited_witness :
  hmp_up_migration (H := big_LITTLE_MP) 4 (TaskSe 4)
    (hmp_next_up_delay (H := big_LITTLE_MP) (TaskSe 4) 2 busy_sys) = None.
Proof.
  apply (up_migration_rate_limited (H := big_LITTLE_MP) 2 4 (TaskSe 4) busy_sys);
    vm_compute; intuition discriminate.
Defined.

Lemma heaviest_task_spec_witness :
  hmp_get_heaviest_task (H := big_LITTLE_MP) (TaskSe 4) (-1) busy_sys = Some (TaskSe 12)
  /\ se_ratio busy_sys (TaskSe 4) <= se_ratio busy_sys (TaskSe 12).
Proof.
  pose proof (heaviest_task_spec (H := big_LITTLE_MP) (TaskSe 4) (-1) busy_sys eq_refl) as Hs.
  assert (E : hmp_get_heaviest_task (H := big_LITTLE_MP) (TaskSe 4) (-1) busy_sys
              = Some (TaskSe 12)) by (vm_compute; reflexivity).
  rewrite E in Hs. destruct Hs as (_ & Hr & _). split; [exact E|exact Hr].
Defined.

Lemma lightest_task_spec_witness :
  se_ratio busy_sys (hmp_get_lightest_task (H := big_LITTLE_MP) (TaskSe 1) true busy_sys)
  <= se_ratio busy_sys (TaskSe 1).
Proof. exact (proj1 (lightest_task_spec (H := big_LITTLE_MP) (TaskSe 1) busy_sys eq_refl)). Defined.

(** All big CPUs are busy and CPU 1 runs two tasks. *)
Definition crowded_sys : sys :=
  upd_cfs (CfsRq 0 1) (fun c => c <| h_nr_running := 2 |>)
    (busy_sys <| rqs := fun c => sample_rq <| rq_avg := sample_avg
                          <| load_avg_ratio := if c <? 4 then 600 else 0 |> |> |>).

Lemma offload_down_spec_witness :
  hmp_offload_down (H := big_LITTLE_MP) 1 (TaskSe 1) crowded_sys = 4
  /\ hmp_cpu_is_slowest 1 crowded_sys = false /\ cpu_idle crowded_sys 4.
Proof.
  assert (E : hmp_offload_down (H := big_LITTLE_MP) 1 (TaskSe 1) crowded_sys = 4)
    by (vm_compute; reflexivity).
  split; [exact E|].
  destruct (proj1 (offload_down_spec (H := big_LITTLE_MP) 1 (TaskSe 1) crowded_sys 4 eq_refl) E)
    as (H1 & _ & _ & _ & _ & H2).
  split; [exact H1|exact H2].
Defined.

Lemma wakeup_select_sound_witness :
  (hmp_wakeup_select (H := big_LITTLE_MP) 4 5 busy_sys).2 = 2
  /\ (cpu_in (H := big_LITTLE_MP) busy_sys (hmp_faster_domain 4 busy_sys) 4 2
      \/ 2 = 4 \/ 2 = 5 \/ cpu_in (H := big_LITTLE_MP) busy_sys (little_domain busy_sys 4) 4 2).
Proof.
  assert (E : (hmp_wakeup_select (H := big_LITTLE_MP) 4 5 busy_sys).2 = 2)
    by (vm_compute; reflexivity).
  split; [exact E|].
  pose proof (wakeup_select_sound (H := big_LITTLE_MP) 4 5 busy_sys eq_refl eq_refl) as W.
  rewrite E in W. destruct W as [W|[[W _]|[[W _]|W]]]; tauto.
Defined.

Lemma best_little_packs_witness :
  hmp_best_little_cpu (H := big_LITTLE_MP) busy_sys 6 6 <= 5.
Proof.
  apply (best_little_packs (H := big_LITTLE_MP) busy_sys 6 6 5);
    [discriminate | vm_compute; intuition discriminate
    | apply (bool_decide_unpack _); vm_compute; exact I
    | intros c; simpl; destruct (c <? 2); simpl; lia
    | vm_compute; discriminate].
Defined.

(** Task 1, on big CPU 1, may only run on CPU 6; the memory of the list head, read as
    a domain, happens to have bit 6 set, although CPU 6 is offline. *)
Definition fork_sys : sys :=
  let s := upd_task 1 (fun t => t <| cpus_allowed := 64 |>) busy_sys in
  let s := upd_domain hmp_domains_head (fun d => d <| hd_cpus := 255 |>) s in
  s <| cpu_online_mask := 191 |>.

Lemma fork_balance_reads_list_head_witness :
  (hmp_fork_balance (H := big_LITTLE_MP) 1 0 true fork_sys).2 = inl 6
  /\ cpumask_test_cpu 6 (cpu_online_mask fork_sys) = false.
Proof.
  split; [|reflexivity].
  apply (fork_balance_reads_list_head (H := big_LITTLE_MP) 1 0 fork_sys);
    try reflexivity.
  apply (bool_decide_unpack _). vm_compute. exact I.
Defined.
