(* ===== verification/Cfs.v ===== *)
(** The completely fair scheduler ([kernel/sched/fair.c]): virtual runtime, the run
    queue's timeline, enqueueing, dequeueing, picking and preempting entities, with
    group scheduling and without bandwidth control (CONFIG_FAIR_GROUP_SCHED,
    !CONFIG_CFS_BANDWIDTH, !CONFIG_SCHEDSTATS, !CONFIG_SCHED_HRTICK).  The rb-tree
    is its in-order sequence. *)

From S2P Require Import Prelude Pelt SchedTypes EntityLoad.

Definition ENQUEUE_WAKEUP : Z := 1.
Definition ENQUEUE_WAKING : Z := 4.
Definition DEQUEUE_SLEEP : Z := 1.
Definition WF_FORK : Z := 2.
Definition SCHED_NORMAL : Z := 0.
Definition SCHED_BATCH : Z := 3.
Definition SCHED_IDLE : Z := 5.
Definition MIN_SHARES : Z := 2.

(** [flags & bit] as a truth value. *)
Definition has_flag (flags bit : Z) : bool := nonzero (Z.land flags bit).

Section cfs.
Context `{Config}.
Implicit Types (s : sys) (q : cfs_id) (se : se_id).

(** * Virtual time *)

(** [max_vruntime] and [min_vruntime] compare modulo 2^64. *)
Definition max_vruntime (max_vr vr : Z) : Z := if 0 <? s64 (vr - max_vr) then vr else max_vr.
Definition min_vruntime_of (min_vr vr : Z) : Z := if s64 (vr - min_vr) <? 0 then vr else min_vr.

Definition vr s se : Z := vruntime (ses s se).
Definition entity_before s (a b : se_id) : bool := s64 (vr s a - vr s b) <? 0.

Definition __pick_first_entity s q : option se_id := head (tasks_timeline (cfss s q)).

Definition update_min_vruntime q s : sys :=
  let c := cfss s q in
  let v := match curr c with Some se => vr s se | None => min_vruntime c end in
  let v :=
    match __pick_first_entity s q with
    | Some se =>
        match curr c with None => vr s se | Some _ => min_vruntime_of v (vr s se) end
    | None => v
    end in
  upd_cfs q (fun c => c <| min_vruntime := max_vruntime (min_vruntime c) v |>) s.

(** Places [se] in front of the first entry it comes before. *)
Fixpoint timeline_insert s se (l : list se_id) : list se_id :=
  match l with
  | [] => [se]
  | entry :: l' => if entity_before s se entry then se :: l else entry :: timeline_insert s se l'
  end.

Definition __enqueue_entity q se s : sys :=
  upd_cfs q (fun c => c <| tasks_timeline := timeline_insert s se (tasks_timeline c) |>) s.

Definition __dequeue_entity q se s : sys :=
  upd_cfs q (fun c => c <| tasks_timeline := filter (fun x => x <> se) (tasks_timeline c) |>) s.

(** [rb_next] *)
Fixpoint timeline_next se (l : list se_id) : option se_id :=
  match l with
  | [] => None
  | x :: l' => if bool_decide (x = se) then head l' else timeline_next se l'
  end.
Definition __pick_next_entity s q se : option se_id := timeline_next se (tasks_timeline (cfss s q)).
Definition __pick_last_entity s q : option se_id := last (tasks_timeline (cfss s q)).

(** ** Weighted time *)

Definition WMULT_CONST : Z := if BITS_PER_LONG =? 32 then 2 ^ 32 - 1 else 2 ^ 32.
Definition WMULT_SHIFT : Z := 32.
Definition LONG_MAX : Z := 2 ^ (BITS_PER_LONG - 1) - 1.

(** Shift right and round. *)
Definition SRR (x y : Z) : Z := Z.shiftr (u64 (x + Z.shiftl 1 (y - 1))) y.

(** [struct load_weight]'s cached inverse, filled in when it is 0. *)
Definition fill_inv_weight (weight inv : Z) : Z :=
  if inv =? 0 then
    let w := scale_load_down weight in
    if (32 <? BITS_PER_LONG) && (WMULT_CONST <=? w) then 1
    else if w =? 0 then WMULT_CONST
    else WMULT_CONST / w
  else inv.

(** [delta *= weight / lw]; [inv] is the inverse left in [lw]. *)
Definition calc_delta_mine (delta_exec weight inv : Z) : Z :=
  let tmp := if 1 <? weight then u64 (delta_exec * scale_load_down weight) else delta_exec in
  let tmp :=
    if WMULT_CONST <? tmp
    then SRR (u64 (SRR tmp (WMULT_SHIFT / 2) * inv)) (WMULT_SHIFT / 2)
    else SRR (u64 (tmp * inv)) WMULT_SHIFT in
  Z.min tmp LONG_MAX.

(** [delta /= w]; leaves the inverse in [se->load]. *)
Definition calc_delta_fair (delta : Z) se s : sys * Z :=
  let e := ses s se in
  if se_weight e =? NICE_0_LOAD then (s, delta)
  else
    let inv := fill_inv_weight (se_weight e) (se_inv_weight e) in
    (upd_se se (fun e => e <| se_inv_weight := inv |>) s, calc_delta_mine delta NICE_0_LOAD inv).

Definition __sched_period s (nr_running : Z) : Z :=
  if sched_nr_latency (sysctl s) <? nr_running
  then u64 (sysctl_sched_min_granularity (sysctl s) * nr_running)
  else sysctl_sched_latency (sysctl s).

(** [for_each_sched_entity(se)]: the entity and its ancestors; no hierarchy is deeper
    than the number of groups. *)
Fixpoint chain_from (fuel : nat) s se : list se_id :=
  se :: match fuel, se_parent (ses s se) with
        | S fuel, Some parent => chain_from fuel s parent
        | _, _ => []
        end.
Definition for_each_sched_entity s se : list se_id := chain_from (nr_groups s) s se.

Definition parent_entity s se : option se_id := se_parent (ses s se).

(** The body of the loop of [sched_slice]. *)
Definition slice_step (acc : sys * Z) se : sys * Z :=
  let '(s, slice) := acc in
  let q := cfs_rq_of s se in
  let w := se_weight (ses s se) in
  if nonzero (on_rq (ses s se)) then
    let inv := fill_inv_weight (cfs_weight (cfss s q)) (cfs_inv_weight (cfss s q)) in
    (upd_cfs q (fun c => c <| cfs_inv_weight := inv |>) s, calc_delta_mine (ulong slice) w inv)
  else
    let inv := fill_inv_weight (ulong (cfs_weight (cfss s q) + w)) 0 in
    (s, calc_delta_mine (ulong slice) w inv).

Definition sched_slice q se s : sys * Z :=
  let nr := cfs_nr_running (cfss s q) + b2z (negb (nonzero (on_rq (ses s se)))) in
  foldl slice_step (s, __sched_period s nr) (for_each_sched_entity s se).

Definition sched_vslice q se s : sys * Z :=
  let '(s, slice) := sched_slice q se s in calc_delta_fair (ulong slice) se s.

(** ** Charging the running entity *)

Definition __update_curr q (c : se_id) (delta_exec : Z) s : sys :=
  let s := upd_se c (fun e => e <| sum_exec_runtime := u64 (sum_exec_runtime e + delta_exec) |>) s in
  let '(s, delta_exec_weighted) := calc_delta_fair delta_exec c s in
  let s := upd_se c (fun e => e <| vruntime := u64 (vruntime e + delta_exec_weighted) |>) s in
  update_min_vruntime q s.

Definition update_curr q s : sys :=
  match curr (cfss s q) with
  | None => s
  | Some c =>
      let now := clock_task (rqs s (cpu_of_cfs s q)) in
      let delta_exec := ulong (now - exec_start (ses s c)) in
      if delta_exec =? 0 then s
      else upd_se c (fun e => e <| exec_start := now |>) (__update_curr q c delta_exec s)
  end.

(** * Accounting *)

Definition update_load_add_cfs q (inc : Z) : sys -> sys :=
  upd_cfs q (fun c => c <| cfs_weight := ulong (cfs_weight c + inc) |> <| cfs_inv_weight := 0 |>).
Definition update_load_sub_cfs q (dec : Z) : sys -> sys :=
  upd_cfs q (fun c => c <| cfs_weight := ulong (cfs_weight c - dec) |> <| cfs_inv_weight := 0 |>).

Definition account_entity_enqueue q se s : sys :=
  let w := se_weight (ses s se) in
  let cpu := cpu_of_cfs s q in
  let s := update_load_add_cfs q w s in
  let s := match parent_entity s se with
           | None => upd_rq cpu (fun r => r <| rq_weight := ulong (rq_weight r + w) |>) s
           | Some _ => s
           end in
  let s := if entity_is_task s se
           then upd_rq cpu (fun r => r <| cfs_tasks := task_of se :: cfs_tasks r |>) s else s in
  upd_cfs q (fun c => c <| cfs_nr_running := u32 (cfs_nr_running c + 1) |>) s.

Definition account_entity_dequeue q se s : sys :=
  let w := se_weight (ses s se) in
  let cpu := cpu_of_cfs s q in
  let s := update_load_sub_cfs q w s in
  let s := match parent_entity s se with
           | None => upd_rq cpu (fun r => r <| rq_weight := ulong (rq_weight r - w) |>) s
           | Some _ => s
           end in
  let s := if entity_is_task s se
           then upd_rq cpu (fun r => r <| cfs_tasks := filter (fun p => p <> task_of se)
                                                         (cfs_tasks r) |>) s else s in
  upd_cfs q (fun c => c <| cfs_nr_running := u32 (cfs_nr_running c - 1) |>) s.

(** ** Group shares *)

Definition calc_tg_weight (tg : Z) q s : Z :=
  let tg_weight := slong (tg_load_avg (tgs s tg)) in
  let tg_weight := slong (tg_weight - tg_load_contrib (cfss s q)) in
  slong (tg_weight + cfs_weight (cfss s q)).

(** [MIN_SHARES] and [tg->shares] are unsigned, so both comparisons are. *)
Definition calc_cfs_shares q (tg : Z) s : Z :=
  let tg_weight := calc_tg_weight tg q s in
  let load := slong (cfs_weight (cfss s q)) in
  let sh := slong (shares (tgs s tg) * load) in
  let sh := if tg_weight =? 0 then sh else Z.quot sh tg_weight in
  let sh := if ulong sh <? MIN_SHARES then MIN_SHARES else sh in
  if shares (tgs s tg) <? ulong sh then slong (shares (tgs s tg)) else sh.

Definition reweight_entity q se (weight : Z) s : sys :=
  let s :=
    if nonzero (on_rq (ses s se)) then
      let s := if bool_decide (curr (cfss s q) = Some se) then update_curr q s else s in
      account_entity_dequeue q se s
    else s in
  let s := upd_se se (fun e => e <| se_weight := weight |> <| se_inv_weight := 0 |>) s in
  if nonzero (on_rq (ses s se)) then account_entity_enqueue q se s else s.

(** [tg->se[cpu]]; the root group has none. *)
Definition tg_se (tg cpu : Z) : option se_id := if tg =? 0 then None else Some (GroupSe tg cpu).

Definition update_cfs_shares q s : sys :=
  let tg := cfs_tg (cfss s q) in
  match tg_se tg (cpu_of_cfs s q) with
  | None => s
  | Some se => reweight_entity (cfs_rq_of s se) se (ulong (calc_cfs_shares q tg s)) s
  end.

(** [list_add_rcu] in front of or behind the leaf run queues of the CPU; [parent_on_list]
    is whether the parent group's run queue is on the list. *)
Definition list_add_leaf_cfs_rq q s : sys :=
  let c := cfss s q in
  let cpu := cpu_of_cfs s q in
  if nonzero (on_list c) then s
  else
    let parent_on_list :=
      match tg_se (cfs_tg c) cpu with
      | None => false
      | Some se => nonzero (on_list (cfss s (cfs_rq_of s se)))
      end in
    let s := upd_rq cpu (fun r => r <| leaf_cfs_rq_list :=
               if parent_on_list then q :: leaf_cfs_rq_list r
               else leaf_cfs_rq_list r ++ [q] |>) s in
    let s := upd_cfs q (fun c => c <| on_list := 1 |>) s in
    update_cfs_rq_blocked_load q false s.

(** * Entities *)

Definition place_entity q se (initial : bool) s : sys :=
  let v := min_vruntime (cfss s q) in
  let '(s, v) :=
    if initial && START_DEBIT (sysctl s)
    then let '(s, vs) := sched_vslice q se s in (s, u64 (v + vs))
    else (s, v) in
  let v :=
    if initial then v
    else
      let thresh := ulong (sysctl_sched_latency (sysctl s)) in
      let thresh := if GENTLE_FAIR_SLEEPERS (sysctl s) then Z.shiftr thresh 1 else thresh in
      u64 (v - thresh) in
  upd_se se (fun e => e <| vruntime := max_vruntime (vruntime e) v |>) s.

Definition enqueue_entity q se (flags : Z) s : sys :=
  let s :=
    if negb (has_flag flags ENQUEUE_WAKEUP) || has_flag flags ENQUEUE_WAKING
    then upd_se se (fun e => e <| vruntime := u64 (vruntime e + min_vruntime (cfss s q)) |>) s
    else s in
  let s := update_curr q s in
  let s := enqueue_entity_load_avg q se (has_flag flags ENQUEUE_WAKEUP) s in
  let s := account_entity_enqueue q se s in
  let s := update_cfs_shares q s in
  let s := if has_flag flags ENQUEUE_WAKEUP then place_entity q se false s else s in
  let s := if bool_decide (curr (cfss s q) = Some se) then s else __enqueue_entity q se s in
  let s := upd_se se (fun e => e <| on_rq := 1 |>) s in
  if cfs_nr_running (cfss s q) =? 1 then list_add_leaf_cfs_rq q s else s.

(** ** Buddies *)

(** Walks up while the entity is the buddy of its run queue, clearing it. *)
Fixpoint clear_buddy_chain (get : cfs_rq -> option se_id) (clear : cfs_rq -> cfs_rq)
    (l : list se_id) s : sys :=
  match l with
  | [] => s
  | se :: l =>
      let q := cfs_rq_of s se in
      if bool_decide (get (cfss s q) = Some se)
      then clear_buddy_chain get clear l (upd_cfs q clear s) else s
  end.
Definition __clear_buddies_last se s : sys :=
  clear_buddy_chain buddy_last (fun c => c <| buddy_last := None |>) (for_each_sched_entity s se) s.
Definition __clear_buddies_next se s : sys :=
  clear_buddy_chain buddy_next (fun c => c <| buddy_next := None |>) (for_each_sched_entity s se) s.
Definition __clear_buddies_skip se s : sys :=
  clear_buddy_chain buddy_skip (fun c => c <| buddy_skip := None |>) (for_each_sched_entity s se) s.

Definition clear_buddies q se s : sys :=
  let s := if bool_decide (buddy_last (cfss s q) = Some se) then __clear_buddies_last se s else s in
  let s := if bool_decide (buddy_next (cfss s q) = Some se) then __clear_buddies_next se s else s in
  if bool_decide (buddy_skip (cfss s q) = Some se) then __clear_buddies_skip se s else s.

Definition is_idle_policy s se : bool :=
  entity_is_task s se && (policy (tasks s (task_of se)) =? SCHED_IDLE).

Definition set_last_buddy se s : sys :=
  if is_idle_policy s se then s
  else foldl (fun s se => upd_cfs (cfs_rq_of s se) (fun c => c <| buddy_last := Some se |>) s) s
         (for_each_sched_entity s se).
Definition set_next_buddy se s : sys :=
  if is_idle_policy s se then s
  else foldl (fun s se => upd_cfs (cfs_rq_of s se) (fun c => c <| buddy_next := Some se |>) s) s
         (for_each_sched_entity s se).
Definition set_skip_buddy se s : sys :=
  foldl (fun s se => upd_cfs (cfs_rq_of s se) (fun c => c <| buddy_skip := Some se |>) s) s
    (for_each_sched_entity s se).

(** ** Dequeueing, running and putting back *)

Definition dequeue_entity q se (flags : Z) s : sys :=
  let s := update_curr q s in
  let s := dequeue_entity_load_avg q se (has_flag flags DEQUEUE_SLEEP) s in
  let s := clear_buddies q se s in
  let s := if bool_decide (curr (cfss s q) = Some se) then s else __dequeue_entity q se s in
  let s := upd_se se (fun e => e <| on_rq := 0 |>) s in
  let s := account_entity_dequeue q se s in
  let s :=
    if has_flag flags DEQUEUE_SLEEP then s
    else upd_se se (fun e => e <| vruntime := u64 (vruntime e - min_vruntime (cfss s q)) |>) s in
  let s := update_min_vruntime q s in
  update_cfs_shares q s.

(** [resched_task(rq->curr)] *)
Definition resched_curr (cpu : Z) s : sys := upd_rq cpu (fun r => r <| need_resched := true |>) s.

(** [None]: the timeline is empty, and the code dereferences NULL. *)
Definition check_preempt_tick q (c : se_id) s : option sys :=
  let cpu := cpu_of_cfs s q in
  let '(s, slice) := sched_slice q c s in
  let ideal_runtime := ulong slice in
  let delta_exec := ulong (sum_exec_runtime (ses s c) - prev_sum_exec_runtime (ses s c)) in
  if ideal_runtime <? delta_exec then Some (clear_buddies q c (resched_curr cpu s))
  else if delta_exec <? sysctl_sched_min_granularity (sysctl s) then Some s
  else
    se ← __pick_first_entity s q;
    let delta := s64 (vr s c - vr s se) in
    if delta <? 0 then Some s
    else if ideal_runtime <? delta then Some (resched_curr cpu s)
    else Some s.

Definition set_next_entity q se s : sys :=
  let s :=
    if nonzero (on_rq (ses s se))
    then update_entity_load_avg se true (__dequeue_entity q se s) else s in
  let s := upd_se se (fun e => e <| exec_start := clock_task (rqs s (cpu_of_cfs s q)) |>) s in
  let s := upd_cfs q (fun c => c <| curr := Some se |>) s in
  upd_se se (fun e => e <| prev_sum_exec_runtime := sum_exec_runtime e |>) s.

Definition put_prev_entity q (prev : se_id) s : sys :=
  let s := if nonzero (on_rq (ses s prev)) then update_curr q s else s in
  let s :=
    if nonzero (on_rq (ses s prev))
    then update_entity_load_avg prev true (__enqueue_entity q prev s) else s in
  upd_cfs q (fun c => c <| curr := None |>) s.

(** ** Picking *)

Definition wakeup_gran se s : sys * Z :=
  calc_delta_fair (ulong (sysctl_sched_wakeup_granularity (sysctl s))) se s.

(** Should [se] preempt [c]: -1, 0 or 1. *)
Definition wakeup_preempt_entity (c se : se_id) s : sys * Z :=
  let vdiff := s64 (vr s c - vr s se) in
  if vdiff <=? 0 then (s, -1)
  else
    let '(s, gran) := wakeup_gran se s in
    if s64 gran <? vdiff then (s, 1) else (s, 0).

(** Replaces the choice by [buddy] unless that is too unfair to [leftmost]. *)
Definition prefer (buddy : option se_id) (leftmost : se_id) (acc : sys * se_id) : sys * se_id :=
  match buddy with
  | None => acc
  | Some b =>
      let '(s, r) := wakeup_preempt_entity b leftmost acc.1 in
      (s, if r <? 1 then b else acc.2)
  end.

(** On an empty timeline the code dereferences NULL. *)
Definition pick_next_entity q s : option (sys * se_id) :=
  match __pick_first_entity s q with
  | None => None
  | Some leftmost =>
      let second := if bool_decide (buddy_skip (cfss s q) = Some leftmost)
                    then __pick_next_entity s q leftmost else None in
      let acc := prefer second leftmost (s, leftmost) in
      let acc := prefer (buddy_last (cfss s q)) leftmost acc in
      let '(s, se) := prefer (buddy_next (cfss s q)) leftmost acc in
      Some (clear_buddies q se s, se)
  end.

(** [queued] ticks come from the hrtick, which is configured out. *)
Definition entity_tick q (c : se_id) s : option sys :=
  let s := update_curr q s in
  let s := update_entity_load_avg c true s in
  let s := update_cfs_rq_blocked_load q true s in
  let s := update_cfs_shares q s in
  if 1 <? cfs_nr_running (cfss s q) then check_preempt_tick q c s else Some s.

(** * Tasks *)

(** The first loop of [enqueue_task_fair]; returns the entities it did not reach. *)
Fixpoint enqueue_chain (l : list se_id) (flags : Z) s : sys * list se_id :=
  match l with
  | [] => (s, [])
  | se :: l' =>
      if nonzero (on_rq (ses s se)) then (s, l)
      else
        let q := cfs_rq_of s se in
        let s := enqueue_entity q se flags s in
        let s := upd_cfs q (fun c => c <| h_nr_running := u32 (h_nr_running c + 1) |>) s in
        enqueue_chain l' ENQUEUE_WAKEUP s
  end.

Definition enqueue_task_fair (cpu p flags : Z) s : sys :=
  let '(s, rest) := enqueue_chain (for_each_sched_entity s (TaskSe p)) flags s in
  let s := foldl (fun s se =>
             let q := cfs_rq_of s se in
             let s := upd_cfs q (fun c => c <| h_nr_running := u32 (h_nr_running c + 1) |>) s in
             update_entity_load_avg se true (update_cfs_shares q s)) s rest in
  let s := update_rq_runnable_avg cpu (nonzero (rq_nr_running (rqs s cpu))) s in
  upd_rq cpu (fun r => r <| rq_nr_running := u32 (rq_nr_running r + 1) |>) s.

Fixpoint dequeue_chain (l : list se_id) (flags : Z) (task_sleep : bool) s : sys * list se_id :=
  match l with
  | [] => (s, [])
  | se :: l' =>
      let q := cfs_rq_of s se in
      let s := dequeue_entity q se flags s in
      let s := upd_cfs q (fun c => c <| h_nr_running := u32 (h_nr_running c - 1) |>) s in
      if nonzero (cfs_weight (cfss s q)) then
        let s := match parent_entity s se with
                 | Some parent => if task_sleep then set_next_buddy parent s else s
                 | None => s
                 end in
        (s, l')
      else dequeue_chain l' (Z.lor flags DEQUEUE_SLEEP) task_sleep s
  end.

Definition dequeue_task_fair (cpu p flags : Z) s : sys :=
  let '(s, rest) := dequeue_chain (for_each_sched_entity s (TaskSe p)) flags
                      (has_flag flags DEQUEUE_SLEEP) s in
  let s := foldl (fun s se =>
             let q := cfs_rq_of s se in
             let s := upd_cfs q (fun c => c <| h_nr_running := u32 (h_nr_running c - 1) |>) s in
             update_entity_load_avg se true (update_cfs_shares q s)) s rest in
  let s := upd_rq cpu (fun r => r <| rq_nr_running := u32 (rq_nr_running r - 1) |>) s in
  update_rq_runnable_avg cpu true s.

(** Without CONFIG_64BIT the re-read loop only waits for a consistent value. *)
Definition task_waking_fair (p : Z) s : sys :=
  let q := cfs_rq_of s (TaskSe p) in
  upd_se (TaskSe p) (fun e => e <| vruntime := u64 (vruntime e - min_vruntime (cfss s q)) |>) s.

(** The [do ... while (cfs_rq)] loop down the hierarchy, at most as deep as there are groups. *)
Fixpoint pick_down (fuel : nat) q s : option (sys * se_id) :=
  '(s, se) ← pick_next_entity q s;
  let s := set_next_entity q se s in
  match my_q (ses s se), fuel with
  | None, _ => Some (s, se)
  | Some q', S fuel => pick_down fuel q' s
  | Some _, O => None
  end.

(** Returns the task picked, if the run queue has one. *)
Definition pick_next_task_fair (cpu : Z) s : option (sys * option Z) :=
  let q := CfsRq 0 cpu in
  if cfs_nr_running (cfss s q) =? 0 then Some (s, None)
  else '(s, se) ← pick_down (nr_groups s) q s; Some (s, Some (task_of se)).

Definition put_prev_task_fair (prev : Z) s : sys :=
  foldl (fun s se => put_prev_entity (cfs_rq_of s se) se s) s (for_each_sched_entity s (TaskSe prev)).

Definition set_curr_task_fair (c : Z) s : sys :=
  foldl (fun s se => set_next_entity (cfs_rq_of s se) se s) s (for_each_sched_entity s (TaskSe c)).

Fixpoint tick_entities (l : list se_id) s : option sys :=
  match l with
  | [] => Some s
  | se :: l => s ← entity_tick (cfs_rq_of s se) se s; tick_entities l s
  end.
Definition task_tick_fair (cpu c : Z) s : option sys :=
  s ← tick_entities (for_each_sched_entity s (TaskSe c)) s;
  Some (update_rq_runnable_avg cpu true s).

(** ** Preemption at wake-up *)

Definition depth_se s se : nat := length (for_each_sched_entity s se).

(** The first ancestors of the two entities that share a run queue: the chains are
    cut to equal length and walked together. *)
Definition find_matching_se (se pse : se_id) s : option (se_id * se_id) :=
  let l := for_each_sched_entity s se in
  let k := for_each_sched_entity s pse in
  List.find (fun '(a, b) => bool_decide (cfs_rq_of s a = cfs_rq_of s b))
    (zip (drop (length l - length k) l) (drop (length k - length l) k)).

(** [p] has just been enqueued on [cpu], whose running task is [c]. *)
Definition check_preempt_wakeup (cpu c p wake_flags : Z) s : sys :=
  let se := TaskSe c in
  let pse := TaskSe p in
  let q := cfs_rq_of s se in
  let scale := sched_nr_latency (sysctl s) <=? cfs_nr_running (cfss s q) in
  let preempt se s :=
    let s := resched_curr cpu s in
    if negb (nonzero (on_rq (ses s se))) then s
    else if LAST_BUDDY (sysctl s) && scale && entity_is_task s se then set_last_buddy se s
    else s in
  if bool_decide (se = pse) then s
  else
    let mark := NEXT_BUDDY (sysctl s) && scale && negb (has_flag wake_flags WF_FORK) in
    let s := if mark then set_next_buddy pse s else s in
    if need_resched (rqs s cpu) then s
    else if (policy (tasks s c) =? SCHED_IDLE) && negb (policy (tasks s p) =? SCHED_IDLE)
    then preempt se s
    else if negb (policy (tasks s p) =? SCHED_NORMAL) || negb (WAKEUP_PREEMPTION (sysctl s))
    then s
    else
      match find_matching_se se pse s with
      | None => s
      | Some (se, pse) =>
          let s := update_curr (cfs_rq_of s se) s in
          let '(s, r) := wakeup_preempt_entity se pse s in
          if r =? 1 then preempt se (if mark then s else set_next_buddy pse s) else s
      end.

(** ** Yielding, forking and changing class *)

(** The clocks of a run queue follow the CPU's clock unless told to skip one update; without
    accounting of interrupt and stolen time [update_rq_clock_task] adds the same to both. *)
Definition update_rq_clock (cpu : Z) s : sys :=
  if 0 <? skip_clock_update (rqs s cpu) then s
  else
    let delta := s64 (sched_clock s cpu - rq_clock (rqs s cpu)) in
    upd_rq cpu (fun r => r <| rq_clock := u64 (rq_clock r + delta) |>
                           <| clock_task := u64 (clock_task r + delta) |>) s.

(** [c] is [rq->curr]. *)
Definition yield_task_fair (cpu c : Z) s : sys :=
  let se := TaskSe c in
  let q := cfs_rq_of s se in
  if rq_nr_running (rqs s cpu) =? 1 then s
  else
    let s := clear_buddies q se s in
    let s :=
      if policy (tasks s c) =? SCHED_BATCH then s
      else upd_rq cpu (fun r => r <| skip_clock_update := 1 |>)
             (update_curr q (update_rq_clock cpu s)) in
    set_skip_buddy se s.

Definition yield_to_task_fair (cpu c p : Z) s : sys * bool :=
  if nonzero (on_rq (ses s (TaskSe p)))
  then (yield_task_fair cpu c (set_next_buddy (TaskSe p) s), true) else (s, false).

Definition set_task_rq (p cpu : Z) s : sys :=
  let tg := sched_task_group (tasks s p) in
  upd_se (TaskSe p) (fun e => e <| se_cfs_rq := CfsRq tg cpu |> <| se_parent := tg_se tg cpu |>) s.

Definition __set_task_cpu (p cpu : Z) s : sys :=
  upd_task p (fun t => t <| task_cpu := cpu |>) (set_task_rq p cpu s).

(** [cpu] is [smp_processor_id()] and [parent] the forking task. *)
Definition task_fork_fair (cpu p parent : Z) s : sys :=
  let se := TaskSe p in
  let s := update_rq_clock cpu s in
  let q := cfs_rq_of s (TaskSe parent) in
  let c := curr (cfss s q) in
  let s := __set_task_cpu p cpu s in
  let s := update_curr q s in
  let s := match c with
           | Some c => upd_se se (fun e => e <| vruntime := vr s c |>) s
           | None => s
           end in
  let s := place_entity q se true s in
  let s :=
    match c with
    | Some c =>
        if sysctl_sched_child_runs_first (sysctl s) && entity_before s c se then
          let vc := vr s c in
          let vse := vr s se in
          resched_curr cpu (upd_se se (fun e => e <| vruntime := vc |>)
                              (upd_se c (fun e => e <| vruntime := vse |>) s))
        else s
    | None => s
    end in
  upd_se se (fun e => e <| vruntime := u64 (vruntime e - min_vruntime (cfss s q)) |>) s.

(** [asleep] is [!p->on_rq && p->state != TASK_RUNNING]. *)
Definition switched_from_fair (p : Z) (asleep : bool) s : sys :=
  let se := TaskSe p in
  let q := cfs_rq_of s se in
  let s :=
    if asleep then
      let s := place_entity q se false s in
      upd_se se (fun e => e <| vruntime := u64 (vruntime e - min_vruntime (cfss s q)) |>) s
    else s in
  if nonzero (decay_count (se_avg (ses s se))) then
    let s := (__synchronize_entity_decay se s).1 in
    subtract_blocked_load_contrib q (slong (load_avg_contrib (se_avg (ses s se)))) s
  else s.

(** [check_preempt_curr(rq, p, flags)] for a fair task [p].  [rq->curr->on_rq] is set and
    cleared together with the entity's own [on_rq], which stands for it here. *)
Definition check_preempt_curr (cpu p flags : Z) s : sys :=
  let s :=
    match rq_curr (rqs s cpu) with
    | RunsFair c => check_preempt_wakeup cpu c p flags s
    | RunsIdle => resched_curr cpu s
    | RunsHigher _ => s
    end in
  let curr_on_rq :=
    match rq_curr (rqs s cpu) with
    | RunsFair c => nonzero (on_rq (ses s (TaskSe c)))
    | RunsIdle | RunsHigher _ => true
    end in
  if curr_on_rq && need_resched (rqs s cpu)
  then upd_rq cpu (fun r => r <| skip_clock_update := 1 |>) s else s.

Definition switched_to_fair (cpu p : Z) s : sys :=
  if negb (nonzero (on_rq (ses s (TaskSe p)))) then s
  else
    match rq_curr (rqs s cpu) with
    | RunsFair c => if c =? p then resched_curr cpu s else check_preempt_curr cpu p 0 s
    | _ => check_preempt_curr cpu p 0 s
    end.

Definition prio_changed_fair (cpu p oldprio : Z) s : sys :=
  if negb (nonzero (on_rq (ses s (TaskSe p)))) then s
  else
    match rq_curr (rqs s cpu) with
    | RunsFair c =>
        if c =? p then if oldprio <? prio (tasks s p) then resched_curr cpu s else s
        else check_preempt_curr cpu p 0 s
    | _ => check_preempt_curr cpu p 0 s
    end.

Definition init_cfs_rq q s : sys :=
  let s := upd_cfs q (fun c => c <| tasks_timeline := [] |>) s in
  let s := upd_cfs q (fun c => c <| min_vruntime := u64 (- Z.shiftl 1 20) |>) s in
  let s := upd_cfs q (fun c => c <| decay_counter := 1 |>) s in
  upd_cfs q (fun c => c <| removed_load := 0 |>) s.

End cfs.
