(* ===== verification/CfsInv.v ===== *)
(** Correctness of the fair run queues: what each run queue accounts for (number of
    entities, weight, runnable load, timeline) is what is queued on it, across every
    operation; properties of virtual time and of weighted time. *)

From S2P Require Import Prelude Pelt SchedTypes EntityLoad Cfs.

(** * Equivalence of stores up to virtual time

    Two stores are equivalent if they agree on what the run queues account for: the
    membership, weight and average of entities, and the load, weight, count and
    timeline of run queues.  Virtual time, clocks, buddies and caches may differ. *)

Definition ent_view (e : sched_entity) : Z * Z * option se_id * cfs_id * option cfs_id * sched_avg :=
  (se_weight e, on_rq e, se_parent e, se_cfs_rq e, my_q e, se_avg e).

Lemma ent_view_inv e e' :
  ent_view e' = ent_view e ->
  se_weight e' = se_weight e /\ on_rq e' = on_rq e /\ se_parent e' = se_parent e
  /\ se_cfs_rq e' = se_cfs_rq e /\ my_q e' = my_q e /\ se_avg e' = se_avg e.
Proof. unfold ent_view. intros E. by simplify_eq. Qed.

Lemma cfs_frame_inv c c' :
  cfs_frame c' = cfs_frame c ->
  curr c' = curr c /\ cfs_cpu c' = cfs_cpu c /\ cfs_tg c' = cfs_tg c /\ cfs_weight c' = cfs_weight c
  /\ cfs_nr_running c' = cfs_nr_running c /\ tasks_timeline c' = tasks_timeline c.
Proof. unfold cfs_frame. intros E. by simplify_eq. Qed.

Record loadeq (s s' : sys) : Prop := {
  le_se : forall i, ent_view (ses s' i) = ent_view (ses s i);
  le_cfs : forall q, cfs_frame (cfss s' q) = cfs_frame (cfss s q);
  le_rla : forall q, rla s' q = rla s q;
  le_tun : tun s' = tun s /\ freq_scale s' = freq_scale s /\ nr_cpu_ids s' = nr_cpu_ids s /\ enh s' = enh s;
}.

#[export] Instance loadeq_equiv : Equivalence loadeq.
Proof.
  split.
  - by split.
  - intros s s' [E1 E2 E3 (E4 & E5 & E6 & E7)]. split; intros; auto using eq_sym.
  - intros s1 s2 s3 [E1 E2 E3 (E4 & E5 & E6 & E7)] [F1 F2 F3 (F4 & F5 & F6 & F7)].
    split; intros; try (by etrans; eauto). split_and!; congruence.
Qed.

Lemma loadeq_upd_se i f s :
  (forall e, ent_view (f e) = ent_view e) -> loadeq s (upd_se i f s).
Proof.
  intros Hf. split; auto. intros j. destruct (decide (i = j)) as [->|]; autorewrite with store; auto.
Qed.
Lemma loadeq_upd_cfs q f s :
  (forall c, cfs_frame (f c) = cfs_frame c) ->
  (forall c, runnable_load_avg (f c) = runnable_load_avg c) -> loadeq s (upd_cfs q f s).
Proof.
  intros Hf Hr. split; auto.
  - intros q'. destruct (decide (q = q')) as [->|]; autorewrite with store; auto.
  - intros q'. by apply rla_upd_cfs_frame.
Qed.
Lemma loadeq_upd_rq c f s : loadeq s (upd_rq c f s).
Proof. by split. Qed.

(** The operations that do not concern the accounting. *)
Create HintDb loadeq.
#[export] Hint Resolve loadeq_upd_rq : loadeq.
#[export] Hint Extern 2 (loadeq _ (upd_se _ _ _)) =>
  apply loadeq_upd_se; intros; reflexivity : loadeq.
#[export] Hint Extern 2 (loadeq _ (upd_cfs _ _ _)) =>
  apply loadeq_upd_cfs; intros; reflexivity : loadeq.

(** Splits a chain of updates into its links, last first. *)
Ltac loadeq_chain :=
  cbv zeta;
  repeat first
    [ reflexivity
    | etransitivity; [|solve [auto with loadeq nocore]]
    | case_match ].

Section quiet_ops.
Context `{Config}.
Implicit Types (s : sys) (q : cfs_id) (i se : se_id).

Lemma update_min_vruntime_eq q s : loadeq s (update_min_vruntime q s).
Proof. unfold update_min_vruntime. loadeq_chain. Qed.
Hint Resolve update_min_vruntime_eq : loadeq.

Lemma calc_delta_fair_eq d i s : loadeq s (calc_delta_fair d i s).1.
Proof. unfold calc_delta_fair. case_match; simpl; [done|]. loadeq_chain. Qed.

Lemma __update_curr_eq q c d s : loadeq s (__update_curr q c d s).
Proof.
  unfold __update_curr. cbv zeta. set (s1 := upd_se _ _ s).
  assert (E1 : loadeq s s1) by (unfold s1; loadeq_chain).
  pose proof (calc_delta_fair_eq d c s1) as E2.
  destruct (calc_delta_fair d c s1) as [s2 w]. cbn [fst] in E2.
  etransitivity; [exact E1|]. etransitivity; [exact E2|]. loadeq_chain.
Qed.
Hint Resolve __update_curr_eq : loadeq.

Lemma update_curr_eq q s : loadeq s (update_curr q s).
Proof. unfold update_curr. loadeq_chain. Qed.

Lemma slice_step_eq s x i : loadeq s (slice_step (s, x) i).1.
Proof. unfold slice_step. case_match; simpl; [|done]. loadeq_chain. Qed.

Lemma sched_slice_eq q i s : loadeq s (sched_slice q i s).1.
Proof.
  unfold sched_slice. generalize (for_each_sched_entity s i) as l. intros l.
  generalize (__sched_period s (cfs_nr_running (cfss s q)
    + b2z (negb (nonzero (on_rq (ses s i)))))) as x.
  revert s. induction l as [|j l IH]; intros s x; [done|]. cbn [foldl].
  pose proof (slice_step_eq s x j) as E. destruct (slice_step (s, x) j) as [s1 x1].
  cbn [fst] in E. etransitivity; [exact E|apply IH].
Qed.

Lemma sched_vslice_eq q i s : loadeq s (sched_vslice q i s).1.
Proof.
  unfold sched_vslice. pose proof (sched_slice_eq q i s) as E.
  destruct (sched_slice q i s) as [s1 x]. etransitivity; [exact E|apply calc_delta_fair_eq].
Qed.

Lemma place_entity_eq q i b s : loadeq s (place_entity q i b s).
Proof.
  unfold place_entity. cbv zeta. set (p := if b && _ then _ else _).
  assert (E : loadeq s p.1).
  { unfold p. case_match; [|done]. pose proof (sched_vslice_eq q i s) as E.
    by destruct (sched_vslice q i s) as [s1 x]. }
  clearbody p. destruct p as [s1 v]. etransitivity; [exact E|]. loadeq_chain.
Qed.
Hint Resolve update_curr_eq place_entity_eq : loadeq.

Lemma clear_buddy_chain_eq g f l s :
  (forall c, cfs_frame (f c) = cfs_frame c) ->
  (forall c, runnable_load_avg (f c) = runnable_load_avg c) -> loadeq s (clear_buddy_chain g f l s).
Proof.
  intros Hf Hr. revert s. induction l as [|i l IH]; intros s; simpl; [done|].
  case_bool_decide; [|done]. etransitivity; [|apply IH]. by apply loadeq_upd_cfs.
Qed.

Lemma clear_buddies_eq q i s : loadeq s (clear_buddies q i s).
Proof.
  unfold clear_buddies, __clear_buddies_last, __clear_buddies_next, __clear_buddies_skip. cbv zeta.
  repeat first [reflexivity
    | case_bool_decide; [etransitivity; [|by apply clear_buddy_chain_eq]|]
    | etransitivity; [|by apply clear_buddy_chain_eq]].
Qed.
Hint Resolve clear_buddies_eq : loadeq.

Lemma blocked_load_eq q b s : loadeq s (update_cfs_rq_blocked_load q b s).
Proof.
  pose proof (blocked_load_frame q b s (TaskSe 0)) as F. split.
  - intros i. by rewrite blocked_load_ses.
  - apply F.
  - intros q'. apply blocked_load_rla.
  - apply F.
Qed.
Hint Resolve blocked_load_eq : loadeq.

Lemma list_add_leaf_eq q s : loadeq s (list_add_leaf_cfs_rq q s).
Proof. unfold list_add_leaf_cfs_rq. loadeq_chain. Qed.

(** With a waiting entity the check has a leftmost one to compare with. *)
Lemma check_preempt_tick_eq q c s :
  tasks_timeline (cfss s q) <> [] -> exists s', check_preempt_tick q c s = Some s' /\ loadeq s s'.
Proof.
  unfold check_preempt_tick, resched_curr, __pick_first_entity. pose proof (sched_slice_eq q c s) as E.
  destruct (sched_slice q c s) as [s1 x]. cbn [fst] in E. intros Hne.
  destruct (cfs_frame_inv _ _ (le_cfs _ _ E q)) as (_ & _ & _ & _ & _ & <-) in Hne.
  destruct (tasks_timeline (cfss s1 q)) as [|l tl]; [done|]. cbn [head mbind option_bind].
  repeat case_match; eexists; (split; [reflexivity|]); etransitivity; try exact E; loadeq_chain.
Qed.
End quiet_ops.

#[export] Hint Resolve update_min_vruntime_eq update_curr_eq place_entity_eq clear_buddies_eq
  blocked_load_eq list_add_leaf_eq : loadeq.

(** * The accounting invariant

    [univ] lists the fair tasks' entities, all children of the root group. *)

Section invariant.
Context `{Config}.
Context (univ : list se_id) (univ_nodup : NoDup univ) (univ_small : Z.of_nat (length univ) <= 48000).
Implicit Types (s : sys) (q : cfs_id) (i se : se_id).

Definition queued s q i : Prop := on_rq (ses s i) <> 0 /\ cfs_rq_of s i = q.
#[export] Instance queued_dec s q i : Decision (queued s q i).
Proof. unfold queued. apply _. Defined.

(** The entities queued on [q]. *)
Definition members s q : list se_id := filter (queued s q) univ.

Definition weight s i : Z := se_weight (ses s i).

(** What a root run queue accounts for. *)
Record queue_ok s q : Prop := {
  qo_nr : cfs_nr_running (cfss s q) = Z.of_nat (length (members s q));
  qo_weight : cfs_weight (cfss s q) = sum_over (weight s) (members s q);
  qo_rla : rla s q = sum_over (contrib s) (members s q);
  qo_nodup : NoDup (tasks_timeline (cfss s q));
  qo_timeline : forall i, i ∈ tasks_timeline (cfss s q)
                          <-> i ∈ members s q /\ curr (cfss s q) <> Some i;
  qo_curr : forall i, curr (cfss s q) = Some i -> i ∈ univ /\ cfs_rq_of s i = q;
  qo_root : cfs_tg (cfss s q) = 0;
}.

Record cfs_ok s : Prop := {
  co_queue : forall cpu, queue_ok s (CfsRq 0 cpu);
  co_task : forall i, i ∈ univ -> task_ok s i /\ se_parent (ses s i) = None;
  co_rq : forall i, i ∈ univ -> exists cpu, cfs_rq_of s i = CfsRq 0 cpu;
  co_scales : scales_ok s;
}.

(** The invariant respects the equivalence. *)
Lemma members_eq s s' q : (forall i, queued s' q i <-> queued s q i) -> members s' q = members s q.
Proof. intros E. apply list_filter_iff. intros i. by rewrite E. Qed.

Lemma ent_view_queued s s' q i :
  ent_view (ses s' i) = ent_view (ses s i) -> queued s' q i <-> queued s q i.
Proof.
  intros (_ & Eo & _ & Eq & _)%ent_view_inv. unfold queued, cfs_rq_of. by rewrite Eo, Eq.
Qed.

Lemma task_ok_view s s' i : ent_view (ses s' i) = ent_view (ses s i) -> task_ok s i -> task_ok s' i.
Proof.
  intros (Ew & _ & _ & _ & Em & Ea)%ent_view_inv [Ht Hs Hw Hc].
  split; unfold entity_is_task, contrib in *; by rewrite ?Ew, ?Em, ?Ea.
Qed.

#[export] Instance cfs_ok_proper : Proper (loadeq ==> impl) cfs_ok.
Proof.
  intros s s' L [Hq Ht Hr Hs]. destruct L as [Es Ec Er (E1 & E2 & E3 & E4)].
  assert (Em : forall q, members s' q = members s q).
  { intros q. apply members_eq. intros i. by apply ent_view_queued. }
  assert (Es' := fun i => ent_view_inv _ _ (Es i)).
  split.
  - intros cpu. specialize (Hq cpu). set (q := CfsRq 0 cpu) in *.
    destruct (cfs_frame_inv _ _ (Ec q)) as (Fc & _ & Ft & Fw & Fn & Fl). destruct Hq.
    split; rewrite ?Em, ?Er, ?Fc, ?Ft, ?Fw, ?Fn, ?Fl; [done| | |done|done| |done].
    + rewrite qo_weight0. apply sum_over_ext. intros i _. unfold weight. symmetry. apply Es'.
    + rewrite qo_rla0. apply sum_over_ext. intros i _. unfold contrib.
      by destruct (Es' i) as (_ & _ & _ & _ & _ & ->).
    + intros i Hi. unfold cfs_rq_of. destruct (Es' i) as (_ & _ & _ & -> & _). by apply qo_curr0.
  - intros i Hi. destruct (Ht i Hi) as [T P]. split; [by apply (task_ok_view s); [apply Es|]|].
    destruct (Es' i) as (_ & _ & E & _). by rewrite E.
  - intros i Hi. destruct (Hr i Hi) as [cpu E]. exists cpu. unfold cfs_rq_of.
    destruct (Es' i) as (_ & _ & _ & -> & _). exact E.
  - intros c. rewrite E1, E2, E3, E4. apply Hs.
Qed.

Lemma scales_ok_env s s' :
  tun s' = tun s -> freq_scale s' = freq_scale s -> nr_cpu_ids s' = nr_cpu_ids s -> enh s' = enh s ->
  scales_ok s -> scales_ok s'.
Proof. intros E1 E2 E3 E4 Hs c. rewrite E1, E2, E3, E4. apply Hs. Qed.

(** ** Transitions *)

Lemma elem_of_members s q i : i ∈ members s q <-> queued s q i /\ i ∈ univ.
Proof. apply list_elem_of_filter. Qed.
Lemma NoDup_members s q : NoDup (members s q).
Proof. by apply NoDup_filter. Qed.

(** Everything but the entity [i] and the run queue [q] is as before. *)
Record local (i : se_id) (q : cfs_id) (s s' : sys) : Prop := {
  lo_se : forall j, j <> i -> ent_view (ses s' j) = ent_view (ses s j);
  lo_weight : weight s' i = weight s i;
  lo_parent : se_parent (ses s' i) = se_parent (ses s i);
  lo_rq : cfs_rq_of s' i = cfs_rq_of s i;
  lo_cfs : forall q', q' <> q -> cfs_frame (cfss s' q') = cfs_frame (cfss s q');
  lo_rla : forall q', q' <> q -> rla s' q' = rla s q';
  lo_root : cfs_tg (cfss s' q) = cfs_tg (cfss s q);
}.

Lemma local_other i q s s' q' :
  local i q s s' -> cfs_rq_of s i = q -> q' <> q -> queue_ok s q' -> queue_ok s' q'.
Proof.
  intros L Hi Hne Hq. pose proof (fun j Hj => ent_view_inv _ _ (lo_se _ _ _ _ L j Hj)) as E.
  destruct (cfs_frame_inv _ _ (lo_cfs _ _ _ _ L q' Hne)) as (Fc & _ & Ft & Fw & Fn & Fl).
  pose proof (lo_rq _ _ _ _ L) as Er.
  assert (Q : forall j, queued s' q' j <-> queued s q' j).
  { intros j. destruct (decide (j = i)) as [->|Hj]; [|by apply ent_view_queued, L].
    unfold queued. rewrite Er. split; intros [_ ?]; congruence. }
  assert (N : forall j, j ∈ members s q' -> j <> i).
  { intros j [[_ Hj] _]%elem_of_members ->. congruence. }
  destruct Hq. split; rewrite ?(members_eq s s' q' Q), ?(lo_rla _ _ _ _ L) by done;
    rewrite ?Fc, ?Ft, ?Fw, ?Fn, ?Fl; [done| | |done|done| |done].
  - rewrite qo_weight0. apply sum_over_ext. intros j Hj. unfold weight. symmetry. by apply E, N.
  - rewrite qo_rla0. apply sum_over_ext. intros j Hj. unfold contrib.
    by destruct (E j (N j Hj)) as (_ & _ & _ & _ & _ & ->).
  - intros j Hj. destruct (qo_curr0 j Hj) as [? Hjq]. split; [done|].
    destruct (decide (j = i)) as [->|Hji]; [congruence|]. unfold cfs_rq_of.
    destruct (E j Hji) as (_ & _ & _ & -> & _). exact Hjq.
Qed.

(** The invariant after a local step, given that it holds for the one run queue. *)
Lemma local_ok i q s s' :
  cfs_ok s -> local i q s s' -> i ∈ univ -> cfs_rq_of s i = q -> task_ok s' i -> scales_ok s' ->
  queue_ok s' q -> cfs_ok s'.
Proof.
  intros [Hq Ht Hr Hs] L Hi Hiq Hok Hsc Hq'. split; [| | |done].
  - intros cpu. destruct (decide (CfsRq 0 cpu = q)) as [->|Hne]; [done|].
    by apply (local_other i q s).
  - intros j Hj. destruct (Ht j Hj) as [T P]. destruct (decide (j = i)) as [->|Hji].
    + split; [done|]. by rewrite (lo_parent _ _ _ _ L).
    + split; [by apply (task_ok_view s); [apply L|]|].
      destruct (ent_view_inv _ _ (lo_se _ _ _ _ L j Hji)) as (_ & _ & -> & _). done.
  - intros j Hj. destruct (decide (j = i)) as [->|Hji].
    + rewrite (lo_rq _ _ _ _ L). by apply Hr.
    + destruct (Hr j Hj) as [cpu E]. exists cpu. unfold cfs_rq_of.
      destruct (ent_view_inv _ _ (lo_se _ _ _ _ L j Hji)) as (_ & _ & _ & -> & _). exact E.
Qed.

(** The members after [i] joins or leaves. *)
Lemma members_add s s' q i :
  local i q s s' -> i ∈ univ -> ~ queued s q i -> queued s' q i ->
  members s' q ≡ₚ i :: members s q.
Proof.
  intros L Hi Hn Hq. apply NoDup_Permutation.
  - apply NoDup_members.
  - apply NoDup_cons. split; [by rewrite elem_of_members; intros [? _]|apply NoDup_members].
  - intros j. rewrite elem_of_cons, !elem_of_members. destruct (decide (j = i)) as [->|Hj];
      [naive_solver|]. rewrite (ent_view_queued s s' q j) by (by apply L). naive_solver.
Qed.

(** Sums over the old members do not change. *)
Lemma local_sums s s' q i :
  local i q s s' -> ~ i ∈ members s q ->
  sum_over (weight s') (members s q) = sum_over (weight s) (members s q)
  /\ sum_over (contrib s') (members s q) = sum_over (contrib s) (members s q).
Proof.
  intros L Hn. split; apply sum_over_ext; intros j Hj;
    assert (Hji : j <> i) by (by intros ->);
    destruct (ent_view_inv _ _ (lo_se _ _ _ _ L j Hji)) as (Ew & _ & _ & _ & _ & Ea).
  - exact Ew.
  - unfold contrib. by rewrite Ea.
Qed.

(** No account of a run queue can overflow. *)
Lemma member_sums_small s q :
  (forall i, i ∈ univ -> task_ok s i) ->
  0 <= sum_over (weight s) (members s q) <= 88761 * Z.of_nat (length (members s q))
  /\ 0 <= sum_over (contrib s) (members s q) <= 88761 * Z.of_nat (length (members s q))
  /\ Z.of_nat (length (members s q)) <= 48000.
Proof.
  intros Ht. split; [|split];
    try (apply sum_over_bounds; intros i [_ Hi]%elem_of_members; destruct (Ht i Hi); done).
  pose proof (length_filter (queued s q) univ). unfold members. lia.
Qed.

Lemma local_tasks i q s s' :
  cfs_ok s -> local i q s s' -> task_ok s' i -> forall j, j ∈ univ -> task_ok s' j.
Proof.
  intros Hok L Hi j Hj. destruct (decide (j = i)) as [->|Hji]; [done|].
  apply (task_ok_view s); [by apply L|by apply Hok].
Qed.

(** [i] joins the run queue: its account grows by one entity. *)
Lemma queue_add i q s s' :
  cfs_ok s -> local i q s s' -> i ∈ univ -> cfs_rq_of s i = q -> on_rq (ses s i) = 0 ->
  on_rq (ses s' i) <> 0 -> task_ok s' i -> queue_ok s q ->
  curr (cfss s' q) = curr (cfss s q) ->
  cfs_nr_running (cfss s' q) = u32 (cfs_nr_running (cfss s q) + 1) ->
  cfs_weight (cfss s' q) = ulong (cfs_weight (cfss s q) + weight s i) ->
  rla s' q = u64 (rla s q + contrib s' i) ->
  tasks_timeline (cfss s' q) ≡ₚ (if decide (curr (cfss s q) = Some i)
                                  then tasks_timeline (cfss s q) else i :: tasks_timeline (cfss s q)) ->
  queue_ok s' q.
Proof.
  intros Hok L Hi Hiq Hoff Hon Hti Hq Fc Fn Fw Fr Fl.
  assert (Hn : ~ queued s q i) by (by intros [? _]).
  assert (Hm : ~ i ∈ members s q) by (by rewrite elem_of_members; intros [? _]).
  assert (P : members s' q ≡ₚ i :: members s q).
  { apply members_add; try done. split; [done|]. by rewrite (lo_rq _ _ _ _ L). }
  destruct (local_sums s s' q i L Hm) as [Sw Sc].
  destruct (member_sums_small s' q (local_tasks i q s s' Hok L Hti)) as (Bw & Bc & Bn).
  rewrite P in Bw, Bc, Bn. cbn [length] in Bw, Bc, Bn.
  rewrite sum_over_cons, Sw, (lo_weight _ _ _ _ L) in Bw. rewrite sum_over_cons, Sc in Bc.
  destruct Hq as [Qn Qw Qr Qd Qt Qc Qg]. split.
  - rewrite Fn, Qn, P. cbn [length]. rewrite u32_id; lia.
  - rewrite Fw, Qw, P, sum_over_cons, Sw, (lo_weight _ _ _ _ L), ulong_id; lia.
  - rewrite Fr, Qr, P, sum_over_cons, Sc, u64_id; lia.
  - rewrite Fl. case_decide; [done|]. apply NoDup_cons. split; [|done]. rewrite Qt. tauto.
  - intros j. rewrite Fl, Fc, P. case_decide as Hc.
    + rewrite Qt, elem_of_cons. intuition congruence.
    + rewrite !elem_of_cons, Qt. intuition congruence.
  - intros j Hj. rewrite Fc in Hj. destruct (Qc j Hj) as [? Hjq]. split; [done|].
    destruct (decide (j = i)) as [->|Hji]; [by rewrite (lo_rq _ _ _ _ L)|].
    destruct (ent_view_inv _ _ (lo_se _ _ _ _ L j Hji)) as (_ & _ & _ & E & _).
    unfold cfs_rq_of. rewrite E. exact Hjq.
  - by rewrite (lo_root _ _ _ _ L).
Qed.

(** [i] leaves the run queue. *)
Lemma queue_remove i q s s' :
  cfs_ok s -> local i q s s' -> i ∈ univ -> queued s q i -> on_rq (ses s' i) = 0 ->
  queue_ok s q ->
  curr (cfss s' q) = curr (cfss s q) ->
  cfs_nr_running (cfss s' q) = u32 (cfs_nr_running (cfss s q) - 1) ->
  cfs_weight (cfss s' q) = ulong (cfs_weight (cfss s q) - weight s i) ->
  rla s' q = u64 (rla s q - contrib s i) ->
  tasks_timeline (cfss s' q) = filter (fun x => x <> i) (tasks_timeline (cfss s q)) ->
  queue_ok s' q.
Proof.
  intros Hok L Hi Hin Hoff Hq Fc Fn Fw Fr Fl.
  assert (Hn' : ~ queued s' q i) by (by intros [? _]).
  assert (P : members s q ≡ₚ i :: members s' q).
  { apply NoDup_Permutation; [apply NoDup_members| |].
    - apply NoDup_cons. split; [by rewrite elem_of_members; intros [? _]|apply NoDup_members].
    - intros j. rewrite elem_of_cons, !elem_of_members. destruct (decide (j = i)) as [->|Hj];
        [naive_solver|]. rewrite (ent_view_queued s s' q j) by (by apply L). naive_solver. }
  assert (Sw : sum_over (weight s') (members s' q) = sum_over (weight s) (members s' q)
               /\ sum_over (contrib s') (members s' q) = sum_over (contrib s) (members s' q)).
  { split; apply sum_over_ext; intros j Hj; assert (Hji : j <> i)
      by (intros ->; by apply elem_of_members in Hj as [? _]);
      destruct (ent_view_inv _ _ (lo_se _ _ _ _ L j Hji)) as (Ew & _ & _ & _ & _ & Ea);
      [exact Ew|unfold contrib; by rewrite Ea]. }
  destruct Sw as [Sw Sc].
  destruct (member_sums_small s q (fun j Hj => proj1 (co_task s Hok j Hj))) as (Bw & Bc & Bn).
  destruct (co_task s Hok i Hi) as [[_ _ Wi Ci] _]. fold (weight s i) in Wi.
  assert (Nn : 0 <= sum_over (weight s) (members s' q) /\ 0 <= sum_over (contrib s) (members s' q)).
  { split; apply sum_over_nonneg; intros j [_ Hj]%elem_of_members;
      destruct (co_task s Hok j Hj) as [[_ _ ? ?] _]; unfold weight; lia. }
  destruct Hq as [Qn Qw Qr Qd Qt Qc Qg]. rewrite P in Qn, Qw, Qr, Bw, Bc, Bn.
  rewrite sum_over_cons in Qw, Qr, Bw, Bc. cbn [length] in Qn, Bw, Bc, Bn. split.
  - rewrite Fn, Qn, u32_id; lia.
  - rewrite Fw, Qw, Sw, ulong_id; lia.
  - rewrite Fr, Qr, Sc, u64_id; lia.
  - rewrite Fl. by apply NoDup_filter.
  - intros j. rewrite Fl, Fc, list_elem_of_filter, Qt, P, elem_of_cons.
    split; [intuition|]. intros [Hj Hc]. split_and!; [|by right|done].
    intros ->. by apply elem_of_members in Hj as [? _].
  - intros j Hj. rewrite Fc in Hj. destruct (Qc j Hj) as [? Hjq]. split; [done|].
    destruct (decide (j = i)) as [->|Hji]; [by rewrite (lo_rq _ _ _ _ L)|].
    destruct (ent_view_inv _ _ (lo_se _ _ _ _ L j Hji)) as (_ & _ & _ & E & _).
    unfold cfs_rq_of. rewrite E. exact Hjq.
  - by rewrite (lo_root _ _ _ _ L).
Qed.

(** ** The operations *)

Lemma account_enqueue_spec q i s :
  let s' := account_entity_enqueue q i s in
  ses s' = ses s
  /\ (forall q', q' <> q -> cfss s' q' = cfss s q')
  /\ cfss s' q = (cfss s q) <| cfs_weight := ulong (cfs_weight (cfss s q) + weight s i) |>
                   <| cfs_inv_weight := 0 |> <| cfs_nr_running := u32 (cfs_nr_running (cfss s q) + 1) |>
  /\ tun s' = tun s /\ freq_scale s' = freq_scale s /\ nr_cpu_ids s' = nr_cpu_ids s /\ enh s' = enh s.
Proof.
  unfold account_entity_enqueue, update_load_add_cfs, weight. cbv zeta.
  set (s1 := upd_cfs q _ s).
  assert (E : forall s2, cfss s2 = cfss s1 -> cfss (upd_cfs q (fun c => c <| cfs_nr_running := u32
    (cfs_nr_running c + 1) |>) s2) q = (cfss s1 q) <| cfs_nr_running := u32 (cfs_nr_running (cfss s1 q) + 1) |>).
  { intros s2 E2. autorewrite with store. by rewrite E2. }
  split_and!; [by repeat case_match| | |by repeat case_match..].
  - intros q' Hq. rewrite cfss_upd_cfs_ne by congruence.
    repeat case_match; store_frame; unfold s1; by rewrite cfss_upd_cfs_ne by congruence.
  - rewrite E by (by repeat case_match). unfold s1. by autorewrite with store.
Qed.

Lemma account_dequeue_spec q i s :
  let s' := account_entity_dequeue q i s in
  ses s' = ses s
  /\ (forall q', q' <> q -> cfss s' q' = cfss s q')
  /\ cfss s' q = (cfss s q) <| cfs_weight := ulong (cfs_weight (cfss s q) - weight s i) |>
                   <| cfs_inv_weight := 0 |> <| cfs_nr_running := u32 (cfs_nr_running (cfss s q) - 1) |>
  /\ tun s' = tun s /\ freq_scale s' = freq_scale s /\ nr_cpu_ids s' = nr_cpu_ids s /\ enh s' = enh s.
Proof.
  unfold account_entity_dequeue, update_load_sub_cfs, weight. cbv zeta.
  set (s1 := upd_cfs q _ s).
  assert (E : forall s2, cfss s2 = cfss s1 -> cfss (upd_cfs q (fun c => c <| cfs_nr_running := u32
    (cfs_nr_running c - 1) |>) s2) q = (cfss s1 q) <| cfs_nr_running := u32 (cfs_nr_running (cfss s1 q) - 1) |>).
  { intros s2 E2. autorewrite with store. by rewrite E2. }
  split_and!; [by repeat case_match| | |by repeat case_match..].
  - intros q' Hq. rewrite cfss_upd_cfs_ne by congruence.
    repeat case_match; store_frame; unfold s1; by rewrite cfss_upd_cfs_ne by congruence.
  - rewrite E by (by repeat case_match). unfold s1. by autorewrite with store.
Qed.

Lemma timeline_insert_perm s i l : timeline_insert s i l ≡ₚ i :: l.
Proof.
  induction l as [|j l IH]; simpl; [done|]. case_match; [done|]. rewrite IH. apply perm_swap.
Qed.

Lemma shares_root q s : cfs_tg (cfss s q) = 0 -> update_cfs_shares q s = s.
Proof. unfold update_cfs_shares, tg_se. by intros ->. Qed.

Lemma oa_frame i s s' q :
  only_avg i s s' ->
  curr (cfss s' q) = curr (cfss s q) /\ cfs_cpu (cfss s' q) = cfs_cpu (cfss s q)
  /\ cfs_tg (cfss s' q) = cfs_tg (cfss s q) /\ cfs_weight (cfss s' q) = cfs_weight (cfss s q)
  /\ cfs_nr_running (cfss s' q) = cfs_nr_running (cfss s q)
  /\ tasks_timeline (cfss s' q) = tasks_timeline (cfss s q).
Proof. intros F. apply cfs_frame_inv, F. Qed.

(** Putting an entity on the timeline (unless it runs) and marking it queued. *)
Definition settle q i s : sys :=
  upd_se i (fun e => e <| on_rq := 1 |>)
    (if bool_decide (curr (cfss s q) = Some i) then s else __enqueue_entity q i s).

Lemma settle_spec q i s :
  let s' := settle q i s in
  (forall j, j <> i -> ses s' j = ses s j) /\ ses s' i = (ses s i) <| on_rq := 1 |>
  /\ (forall q', q' <> q -> cfss s' q' = cfss s q') /\ (forall q', rla s' q' = rla s q')
  /\ curr (cfss s' q) = curr (cfss s q) /\ cfs_tg (cfss s' q) = cfs_tg (cfss s q)
  /\ cfs_weight (cfss s' q) = cfs_weight (cfss s q)
  /\ cfs_nr_running (cfss s' q) = cfs_nr_running (cfss s q)
  /\ tasks_timeline (cfss s' q) ≡ₚ (if decide (curr (cfss s q) = Some i)
       then tasks_timeline (cfss s q) else i :: tasks_timeline (cfss s q))
  /\ tun s' = tun s /\ freq_scale s' = freq_scale s /\ nr_cpu_ids s' = nr_cpu_ids s /\ enh s' = enh s.
Proof.
  unfold settle, __enqueue_entity. case_bool_decide as Hc; [rewrite decide_True by done|rewrite decide_False by done].
  - split_and!; try done; intros; by autorewrite with store.
  - split_and!; try (intros; by store_rw).
    + intros q'. unfold rla. destruct (decide (q = q')) as [->|]; by store_rw.
    + store_frame. autorewrite with store. simpl. apply timeline_insert_perm.
Qed.

Lemma enqueue_core q i w s s6 :
  cfs_ok s -> i ∈ univ -> cfs_rq_of s i = q -> on_rq (ses s i) = 0 ->
  loadeq (account_entity_enqueue q i (enqueue_entity_load_avg q i w s)) s6 ->
  cfs_ok (settle q i s6) /\ queued (settle q i s6) q i.
Proof.
  intros Hok Hi Hiq Hoff L6.
  destruct (co_task s Hok i Hi) as [Hti _]. destruct (co_rq s Hok i Hi) as [cpu Hcpu].
  destruct (enqueue_load_spec i q w s (co_scales s Hok) Hti) as (F3 & T3 & R3).
  set (s3 := enqueue_entity_load_avg q i w s) in *.
  destruct (account_enqueue_spec q i s3) as (A1 & A2 & A3 & A4 & A5 & A6 & A7).
  set (s4 := account_entity_enqueue q i s3) in *.
  destruct (settle_spec q i s6) as (B1 & B2 & B3 & B4 & B5 & B6 & B7 & B8 & B9 & Bt).
  set (s8 := settle q i s6) in *. clearbody s3 s4 s8.
  pose proof (fun j => ent_view_inv _ _ (le_se _ _ L6 j)) as E6.
  pose proof (fun q => cfs_frame_inv _ _ (le_cfs _ _ L6 q)) as C6.
  assert (Wi : se_weight (ses s3 i) = se_weight (ses s i) /\ se_parent (ses s3 i) = se_parent (ses s i)
    /\ se_cfs_rq (ses s3 i) = se_cfs_rq (ses s i) /\ my_q (ses s3 i) = my_q (ses s i)).
  { rewrite (oa_self _ _ _ F3). done. }
  destruct Wi as (W1 & W2 & W3 & W4).
  destruct (E6 i) as (V1 & V2 & V3 & V4 & V5 & V6). rewrite A1 in *.
  assert (Ec8 : contrib s8 i = contrib s3 i).
  { unfold contrib. rewrite B2. simpl. by rewrite V6. }
  assert (Lo : local i q s s8).
  { split.
    - intros j Hj. rewrite B1, (le_se _ _ L6 j), A1, (oa_other _ _ _ F3 j Hj) by done. done.
    - unfold weight. rewrite B2. simpl. congruence.
    - rewrite B2. simpl. congruence.
    - unfold cfs_rq_of. rewrite B2. simpl. congruence.
    - intros q' Hq. rewrite B3, (le_cfs _ _ L6 q'), A2 by done. apply F3.
    - intros q' Hq. rewrite B4, (le_rla _ _ L6 q'). unfold rla at 1. rewrite A2 by done.
      fold (rla s3 q'). rewrite R3. by rewrite decide_False.
    - rewrite B6. destruct (C6 q) as (_ & _ & -> & _). rewrite A3. simpl. by apply (oa_frame i s s3). }
  assert (T8 : task_ok s8 i).
  { destruct T3 as [t1 t2 t3 t4]. split; unfold entity_is_task, contrib in *; rewrite B2; simpl;
      rewrite ?V1, ?V5, ?V6; done. }
  assert (Sc : scales_ok s8).
  { destruct (oa_tun _ _ _ F3) as (? & ? & ? & ?), (le_tun _ _ L6) as (? & ? & ? & ?), Bt as (? & ? & ? & ?).
    apply (scales_ok_env s); [congruence..|apply Hok]. }
  split; [|split; [by rewrite B2|unfold cfs_rq_of in *; rewrite B2; simpl; congruence]].
  apply (local_ok i q s); try done.
  destruct (C6 q) as (D1 & _ & D3 & D4 & D5 & D6). destruct (oa_frame i s s3 q F3) as (G1 & _ & G3 & G4 & G5 & G6).
  rewrite A3 in *. simpl in *.
  apply (queue_add i q s); try done.
  - rewrite B2. done.
  - rewrite <- Hiq, Hcpu. apply Hok.
  - congruence.
  - rewrite B8, D5, G5. done.
  - rewrite B7, D4, G4. unfold weight. by rewrite W1.
  - rewrite B4, (le_rla _ _ L6 q), Ec8. unfold rla at 1. rewrite A3. simpl. fold (rla s3 q).
    rewrite R3. by rewrite decide_True.
  - rewrite B9, D1, D6, G1, G6. done.
Qed.

Lemma loadeq_facts s s' i q :
  loadeq s s' -> cfs_ok s -> cfs_ok s' /\ cfs_rq_of s' i = cfs_rq_of s i
  /\ on_rq (ses s' i) = on_rq (ses s i) /\ contrib s' i = contrib s i
  /\ curr (cfss s' q) = curr (cfss s q) /\ cfs_tg (cfss s' q) = cfs_tg (cfss s q).
Proof.
  intros L Hok. destruct (ent_view_inv _ _ (le_se _ _ L i)) as (_ & Eo & _ & Eq & _ & Ea).
  destruct (cfs_frame_inv _ _ (le_cfs _ _ L q)) as (Ec & _ & Et & _).
  split_and!; try done; [by rewrite <- L|]. unfold contrib. by rewrite Ea.
Qed.

Lemma enqueue_entity_ok q i flags s :
  cfs_ok s -> i ∈ univ -> cfs_rq_of s i = q -> on_rq (ses s i) = 0 ->
  cfs_ok (enqueue_entity q i flags s) /\ queued (enqueue_entity q i flags s) q i.
Proof.
  intros Hok Hi Hiq Hoff. unfold enqueue_entity. cbv zeta.
  set (s1 := if negb (has_flag flags ENQUEUE_WAKEUP) || _ then _ else s).
  assert (L1 : loadeq s s1) by (unfold s1; case_match; [auto with loadeq|done]).
  set (s2 := update_curr q s1).
  assert (L2 : loadeq s s2) by (etransitivity; [exact L1|apply update_curr_eq]).
  destruct (loadeq_facts s s2 i q L2 Hok) as (Hok2 & Hiq2 & Hoff2 & _).
  destruct (co_rq s2 Hok2 i Hi) as [cpu Hcpu].
  set (s4 := account_entity_enqueue q i _).
  assert (G4 : cfs_tg (cfss s4 q) = 0).
  { unfold s4. destruct (account_enqueue_spec q i
      (enqueue_entity_load_avg q i (has_flag flags ENQUEUE_WAKEUP) s2)) as (_ & _ & -> & _).
    destruct (enqueue_load_spec i q (has_flag flags ENQUEUE_WAKEUP) s2) as (F & _);
      [apply Hok2|by apply Hok2|]. simpl. destruct (oa_frame _ _ _ q F) as (_ & _ & -> & _).
    rewrite <- Hiq, <- Hiq2, Hcpu. apply Hok2. }
  rewrite (shares_root q s4 G4).
  set (s6 := if has_flag flags ENQUEUE_WAKEUP then _ else s4).
  assert (L6 : loadeq s4 s6) by (unfold s6; case_match; [auto with loadeq|done]).
  assert (Hset : cfs_ok (settle q i s6) /\ queued (settle q i s6) q i)
    by (eapply enqueue_core; [exact Hok2|..]; congruence || done).
  fold (settle q i s6). case_match; [|done]. destruct Hset as [Hset Hq].
  split; [by rewrite <- list_add_leaf_eq|].
  by apply (ent_view_queued (settle q i s6)), Hq; apply list_add_leaf_eq.
Qed.

(** Taking an entity off the timeline (unless it runs) and marking it not queued. *)
Definition unsettle q i s : sys :=
  upd_se i (fun e => e <| on_rq := 0 |>)
    (if bool_decide (curr (cfss s q) = Some i) then s else __dequeue_entity q i s).

Lemma unsettle_spec q i s :
  (curr (cfss s q) = Some i -> i ∉ tasks_timeline (cfss s q)) ->
  let s' := unsettle q i s in
  (forall j, j <> i -> ses s' j = ses s j) /\ ses s' i = (ses s i) <| on_rq := 0 |>
  /\ (forall q', q' <> q -> cfss s' q' = cfss s q') /\ (forall q', rla s' q' = rla s q')
  /\ curr (cfss s' q) = curr (cfss s q) /\ cfs_tg (cfss s' q) = cfs_tg (cfss s q)
  /\ cfs_weight (cfss s' q) = cfs_weight (cfss s q)
  /\ cfs_nr_running (cfss s' q) = cfs_nr_running (cfss s q)
  /\ tasks_timeline (cfss s' q) = filter (fun x => x <> i) (tasks_timeline (cfss s q))
  /\ tun s' = tun s /\ freq_scale s' = freq_scale s /\ nr_cpu_ids s' = nr_cpu_ids s /\ enh s' = enh s.
Proof.
  unfold unsettle, __dequeue_entity. intros Hc. case_bool_decide as Hcur.
  - split_and!; try done; intros; try (by autorewrite with store).
    symmetry. apply filter_keeps. intros x Hx ->. by apply Hc in Hx.
  - split_and!; try (intros; by store_rw).
    intros q'. unfold rla. destruct (decide (q = q')) as [->|]; by store_rw.
Qed.

Lemma dequeue_core q i b s s3 :
  cfs_ok s -> i ∈ univ -> cfs_rq_of s i = q -> on_rq (ses s i) <> 0 ->
  loadeq (dequeue_entity_load_avg q i b s) s3 ->
  cfs_ok (account_entity_dequeue q i (unsettle q i s3))
  /\ cfs_tg (cfss (account_entity_dequeue q i (unsettle q i s3)) q) = 0
  /\ on_rq (ses (account_entity_dequeue q i (unsettle q i s3)) i) = 0.
Proof.
  intros Hok Hi Hiq Hon L3.
  destruct (co_task s Hok i Hi) as [Hti _]. destruct (co_rq s Hok i Hi) as [cpu Hcpu].
  assert (Hqok : queue_ok s q) by (rewrite <- Hiq, Hcpu; apply Hok).
  destruct (dequeue_load_spec i q b s (co_scales s Hok) Hti Hiq Hon) as (F2 & T2 & R2).
  { rewrite (qo_rla s q Hqok).
    pose proof (member_sums_small s q (fun j Hj => proj1 (co_task s Hok j Hj))). unfold is_u64. lia. }
  set (s2 := dequeue_entity_load_avg q i b s) in *. clearbody s2.
  pose proof (fun j => ent_view_inv _ _ (le_se _ _ L3 j)) as E3.
  pose proof (fun q => cfs_frame_inv _ _ (le_cfs _ _ L3 q)) as C3.
  destruct (C3 q) as (D1 & _ & D3 & D4 & D5 & D6).
  destruct (oa_frame i s s2 q F2) as (G1 & _ & G3 & G4 & G5 & G6).
  destruct (unsettle_spec q i s3) as (B1 & B2 & B3 & B4 & B5 & B6 & B7 & B8 & B9 & Bt).
  { rewrite D1, D6, G1, G6. intros Hc Hin. by apply (qo_timeline s q Hqok) in Hin as [_ ?]. }
  set (s5 := unsettle q i s3) in *.
  destruct (account_dequeue_spec q i s5) as (A1 & A2 & A3 & A4 & A5 & A6 & A7).
  set (s6 := account_entity_dequeue q i s5) in *. clearbody s5 s6.
  destruct (E3 i) as (V1 & _ & V3 & V4 & V5 & V6).
  pose proof (oa_self _ _ _ F2) as Es.
  assert (Wi : weight s6 i = weight s i).
  { unfold weight. rewrite A1, B2. simpl. by rewrite V1, Es. }
  assert (Lo : local i q s s6).
  { split; try done.
    - intros j Hj. rewrite A1, B1, (le_se _ _ L3 j), (oa_other _ _ _ F2 j Hj) by done. done.
    - rewrite A1, B2. simpl. by rewrite V3, Es.
    - unfold cfs_rq_of. rewrite A1, B2. simpl. by rewrite V4, Es.
    - intros q' Hq. rewrite A2, B3, (le_cfs _ _ L3 q') by done. apply F2.
    - intros q' Hq. unfold rla at 1. rewrite A2 by done. fold (rla s5 q').
      rewrite B4, (le_rla _ _ L3 q'), R2. by rewrite decide_False.
    - rewrite A3. simpl. congruence. }
  assert (T6 : task_ok s6 i).
  { destruct T2 as [t1 t2 t3 t4]. split; unfold entity_is_task, contrib in *; rewrite A1, B2; simpl;
      rewrite ?V1, ?V5, ?V6; done. }
  split; [|split; [rewrite (lo_root _ _ _ _ Lo); apply Hqok|by rewrite A1, B2]].
  apply (local_ok i q s); try done.
  { destruct (oa_tun _ _ _ F2) as (? & ? & ? & ?), (le_tun _ _ L3) as (? & ? & ? & ?), Bt as (? & ? & ? & ?).
    apply (scales_ok_env s); [congruence..|apply Hok]. }
  apply (queue_remove i q s); try done; rewrite ?A3; simpl; try congruence.
  - rewrite A1, B2. done.
  - rewrite B7, D4, G4. unfold weight in *. rewrite A1, B2 in Wi. simpl in Wi. rewrite B2. simpl.
    by rewrite Wi.
  - unfold rla at 1. rewrite A3. simpl. fold (rla s5 q). rewrite B4, (le_rla _ _ L3 q), R2.
    by rewrite decide_True.
Qed.

Lemma dequeue_entity_ok q i flags s :
  cfs_ok s -> i ∈ univ -> cfs_rq_of s i = q -> on_rq (ses s i) <> 0 ->
  cfs_ok (dequeue_entity q i flags s) /\ on_rq (ses (dequeue_entity q i flags s) i) = 0.
Proof.
  intros Hok Hi Hiq Hon. unfold dequeue_entity. cbv zeta.
  set (s1 := update_curr q s).
  assert (L1 : loadeq s s1) by apply update_curr_eq.
  destruct (loadeq_facts s s1 i q L1 Hok) as (Hok1 & Hiq1 & Hon1 & _).
  set (s2 := dequeue_entity_load_avg q i _ s1). set (s3 := clear_buddies q i s2).
  assert (L3 : loadeq s2 s3) by apply clear_buddies_eq.
  fold (unsettle q i s3). set (s6 := account_entity_dequeue q i _).
  destruct (dequeue_core q i (has_flag flags DEQUEUE_SLEEP) s1 s3) as (H6 & G6 & O6);
    [done|done|congruence|congruence|done|]. fold s6 in H6, G6, O6.
  set (s7 := if has_flag flags DEQUEUE_SLEEP then s6 else _).
  assert (L8 : loadeq s6 (update_min_vruntime q s7)).
  { etransitivity; [|apply update_min_vruntime_eq]. unfold s7. case_match; [done|auto with loadeq]. }
  destruct (loadeq_facts s6 _ i q L8 H6) as (H8 & _ & O8 & _ & _ & G8).
  rewrite shares_root by congruence. split; [done|congruence].
Qed.

(** [i] stays queued on [q] while its average, the timeline and [curr] may change. *)
Lemma queue_stay i q s s' :
  cfs_ok s -> local i q s s' -> i ∈ univ -> queued s q i ->
  on_rq (ses s' i) = on_rq (ses s i) -> task_ok s' i -> queue_ok s q ->
  cfs_nr_running (cfss s' q) = cfs_nr_running (cfss s q) ->
  cfs_weight (cfss s' q) = cfs_weight (cfss s q) ->
  rla s' q = u64 (rla s q + (contrib s' i - contrib s i)) ->
  NoDup (tasks_timeline (cfss s' q)) ->
  (forall j, j ∈ tasks_timeline (cfss s' q) <-> j ∈ members s q /\ curr (cfss s' q) <> Some j) ->
  (forall j, curr (cfss s' q) = Some j -> j ∈ univ /\ cfs_rq_of s j = q) ->
  queue_ok s' q.
Proof.
  intros Hok L Hi Hin Eon Hti Hq Fn Fw Fr Fd Fl Fc.
  assert (Er : forall j, cfs_rq_of s' j = cfs_rq_of s j).
  { intros j. destruct (decide (j = i)) as [->|Hji]; [apply L|].
    destruct (ent_view_inv _ _ (lo_se _ _ _ _ L j Hji)) as (_ & _ & _ & E & _). exact E. }
  assert (Em : members s' q = members s q).
  { apply members_eq. intros j. destruct (decide (j = i)) as [->|Hji];
      [|by apply ent_view_queued, L]. unfold queued. by rewrite Eon, Er. }
  assert (P : exists l, members s q ≡ₚ i :: l /\ i ∉ l).
  { exists (filter (fun x => x <> i) (members s q)). split.
    - apply NoDup_Permutation; [apply NoDup_members| |].
      + apply NoDup_cons. split; [|apply NoDup_filter, NoDup_members].
        rewrite list_elem_of_filter. naive_solver.
      + intros j. rewrite elem_of_cons, list_elem_of_filter, elem_of_members.
        destruct (decide (j = i)) as [->|]; naive_solver.
    - rewrite list_elem_of_filter. naive_solver. }
  destruct P as (l & P & Hni).
  destruct (member_sums_small s' q (local_tasks i q s s' Hok L Hti)) as (_ & Bc & Bn).
  assert (Sc : sum_over (contrib s') l = sum_over (contrib s) l).
  { apply sum_over_ext. intros j Hj. assert (Hji : j <> i) by congruence.
    destruct (ent_view_inv _ _ (lo_se _ _ _ _ L j Hji)) as (_ & _ & _ & _ & _ & Ea).
    unfold contrib. by rewrite Ea. }
  destruct Hq as [Qn Qw Qr Qd Qt Qc Qg]. split; rewrite ?Em; try done.
  - by rewrite Fn.
  - rewrite Fw, Qw. apply sum_over_ext. intros j Hj. destruct (decide (j = i)) as [->|Hji].
    + symmetry. apply L.
    + destruct (ent_view_inv _ _ (lo_se _ _ _ _ L j Hji)) as (Ew & _). unfold weight. by rewrite Ew.
  - rewrite Em, P, sum_over_cons, Sc in Bc. rewrite Em in Bn. rewrite Fr, Qr, P, !sum_over_cons, Sc.
    rewrite P in Bn. rewrite u64_id; lia.
  - intros j Hj. rewrite Er. by apply Fc.
  - by rewrite (lo_root _ _ _ _ L).
Qed.

(** [s1] is [s] with another timeline for [q]. *)
Record retimed q (tl : list se_id) (s s1 : sys) : Prop := {
  rt_ses : ses s1 = ses s;
  rt_other : forall q', q' <> q -> cfss s1 q' = cfss s q';
  rt_cfs : cfss s1 q = (cfss s q) <| tasks_timeline := tl |>;
  rt_env : tun s1 = tun s /\ freq_scale s1 = freq_scale s /\ nr_cpu_ids s1 = nr_cpu_ids s /\ enh s1 = enh s;
}.

(** [s'] is [s2] with another current entity for [q], up to virtual time. *)
Record recurred q (c : option se_id) (s2 s' : sys) : Prop := {
  rc_se : forall j, ent_view (ses s' j) = ent_view (ses s2 j);
  rc_other : forall q', q' <> q -> cfs_frame (cfss s' q') = cfs_frame (cfss s2 q');
  rc_rla : forall q', rla s' q' = rla s2 q';
  rc_cfs : cfs_frame (cfss s' q) = cfs_frame ((cfss s2 q) <| curr := c |>);
  rc_env : tun s' = tun s2 /\ freq_scale s' = freq_scale s2 /\ nr_cpu_ids s' = nr_cpu_ids s2 /\ enh s' = enh s2;
}.

(** Updating the average of a queued entity while it goes to or comes from the CPU. *)
Lemma stay_core q i tl c s s1 s' :
  cfs_ok s -> i ∈ univ -> queued s q i ->
  retimed q tl s s1 -> recurred q c (update_entity_load_avg i true s1) s' ->
  NoDup tl -> (forall j, j ∈ tl <-> j ∈ members s q /\ c <> Some j) ->
  (forall j, c = Some j -> j ∈ univ /\ cfs_rq_of s j = q) ->
  cfs_ok s'.
Proof.
  intros Hok Hi [Hon Hiq] R C Hnd Htl Hc.
  destruct (co_task s Hok i Hi) as [Hti _]. destruct (co_rq s Hok i Hi) as [cpu Hcpu].
  assert (Hqok : queue_ok s q) by (rewrite <- Hiq, Hcpu; apply Hok).
  destruct R as [Rs Ro Rc (Re1 & Re2 & Re3 & Re4)].
  assert (Hsc1 : scales_ok s1) by (apply (scales_ok_env s); [done..|apply Hok]).
  assert (Ht1 : task_ok s1 i) by (apply (task_ok_view s); [by rewrite Rs|done]).
  assert (Hr1 : rla s1 q = rla s q) by (unfold rla; by rewrite Rc).
  assert (Hb : is_u64 (rla s q)).
  { rewrite (qo_rla s q Hqok).
    pose proof (member_sums_small s q (fun j Hj => proj1 (co_task s Hok j Hj))). unfold is_u64. lia. }
  assert (Hiq1 : cfs_rq_of s1 i = q) by (unfold cfs_rq_of; by rewrite Rs).
  pose proof (update_task_frame i true s1 (to_task _ _ Ht1)) as F.
  pose proof (update_task_ok i true s1 Hsc1 Ht1) as T2.
  assert (Hon1 : on_rq (ses s1 i) <> 0) by (by rewrite Rs).
  assert (U : forall q', rla (update_entity_load_avg i true s1) q' = if decide (q' = q)
    then u64 (rla s q + (contrib (update_entity_load_avg i true s1) i - contrib s i)) else rla s1 q').
  { intros q'. rewrite update_queued_rla; [|done..|intros ->; by rewrite Hiq1, Hr1].
    rewrite Hiq1. case_decide as Hd; [subst q'|done].
    rewrite Hr1. unfold contrib at 2. by rewrite Rs. }
  set (s2 := update_entity_load_avg i true s1) in *. clearbody s2.
  destruct C as [Cs Co Cr Cc (Ce1 & Ce2 & Ce3 & Ce4)]. destruct (oa_tun _ _ _ F) as (Fe1 & Fe2 & Fe3 & Fe4).
  pose proof (fun j => ent_view_inv _ _ (Cs j)) as V.
  destruct (cfs_frame_inv _ _ Cc) as (K1 & _ & K3 & K4 & K5 & K6). simpl in *.
  destruct (oa_frame i s1 s2 q F) as (_ & _ & G3 & G4 & G5 & G6). rewrite Rc in *. simpl in *.
  destruct (V i) as (V1 & V2 & V3 & V4 & V5 & V6). pose proof (oa_self _ _ _ F) as Es.
  rewrite Es in V1, V2, V3, V4, V5. simpl in *. rewrite Rs in *.
  assert (Ec : contrib s' i = contrib s2 i) by (unfold contrib; by rewrite V6).
  assert (Lo : local i q s s').
  { split; try done.
    - intros j Hj. rewrite (Cs j), (oa_other _ _ _ F j Hj), Rs. done.
    - intros q' Hq. rewrite Co, (oa_cfs _ _ _ F q'), Ro; done.
    - intros q' Hq. rewrite Cr, U, decide_False by done. unfold rla. by rewrite Ro.
    - congruence. }
  assert (T' : task_ok s' i) by (by apply (task_ok_view s2)).
  apply (local_ok i q s); try done.
  { apply (scales_ok_env s); [congruence..|apply Hok]. }
  apply (queue_stay i q s); try done; try congruence.
  - rewrite Cr, U, decide_True, Ec; done.
  - intros j. rewrite K6, G6, K1. apply Htl.
  - intros j. rewrite K1. apply Hc.
Qed.

Lemma retimed_upd q f tl s :
  f (cfss s q) = (cfss s q) <| tasks_timeline := tl |> -> retimed q tl s (upd_cfs q f s).
Proof. intros E. split; try done; intros; autorewrite with store; done. Qed.

Lemma root_queue_ok s q i : cfs_ok s -> i ∈ univ -> cfs_rq_of s i = q -> queue_ok s q.
Proof. intros Hok Hi <-. destruct (co_rq s Hok i Hi) as [cpu ->]. apply Hok. Qed.

Lemma set_next_entity_ok q i s :
  cfs_ok s -> i ∈ univ -> queued s q i -> curr (cfss s q) = None ->
  cfs_ok (set_next_entity q i s).
Proof.
  intros Hok Hi Hin Hcur. unfold set_next_entity.
  replace (nonzero (on_rq (ses s i))) with true by (unfold nonzero; destruct Hin; lia).
  destruct (root_queue_ok s q i Hok Hi (proj2 Hin)).
  apply (stay_core q i (filter (fun x => x <> i) (tasks_timeline (cfss s q))) (Some i) s
           (__dequeue_entity q i s)); try done.
  - by apply retimed_upd.
  - set (s2 := update_entity_load_avg i true _). clearbody s2. cbv zeta.
    split; try done; intros; try (by store_rw).
    + destruct (decide (i = j)) as [->|]; by store_rw.
    + unfold rla. destruct (decide (q = q')) as [->|]; by store_rw.
  - by apply NoDup_filter.
  - intros j. rewrite list_elem_of_filter, qo_timeline0, Hcur. naive_solver.
  - intros j [= <-]. split; [done|apply Hin].
Qed.

Lemma put_prev_entity_ok q i s :
  cfs_ok s -> i ∈ univ -> curr (cfss s q) = Some i -> cfs_rq_of s i = q ->
  cfs_ok (put_prev_entity q i s).
Proof.
  intros Hok Hi Hcur Hiq. unfold put_prev_entity.
  destruct (nonzero (on_rq (ses s i))) eqn:Hon.
  - assert (L1 : loadeq s (update_curr q s)) by apply update_curr_eq.
    destruct (loadeq_facts s _ i q L1 Hok) as (Hok1 & Hiq1 & Hon1 & _ & Hc1 & _).
    set (s1 := update_curr q s) in *. clearbody s1. cbv zeta. rewrite Hon1, Hon.
    assert (Hin : queued s1 q i) by (split; [unfold nonzero in Hon; lia|congruence]).
    destruct (root_queue_ok s1 q i Hok1 Hi (proj2 Hin)).
    apply (stay_core q i (timeline_insert s1 i (tasks_timeline (cfss s1 q))) None s1
             (__enqueue_entity q i s1)); try done.
    + by apply retimed_upd.
    + set (s2 := update_entity_load_avg i true _). clearbody s2.
      split; try done; intros; try (by store_rw).
      unfold rla. destruct (decide (q = q')) as [->|]; by store_rw.
    + rewrite timeline_insert_perm. apply NoDup_cons. split; [|done].
      rewrite qo_timeline0. intros [_ ?]. congruence.
    + intros j. rewrite timeline_insert_perm, elem_of_cons, qo_timeline0, Hc1, Hcur, elem_of_members.
      destruct (decide (j = i)) as [->|]; naive_solver.
  - cbv zeta. rewrite Hon. destruct (root_queue_ok s q i Hok Hi Hiq) as [Qn Qw Qr Qd Qt Qc Qg].
    set (s' := upd_cfs q _ s).
    assert (Hs : (forall q', q' <> q -> cfss s' q' = cfss s q')
                 /\ cfss s' q = (cfss s q) <| curr := None |>).
    { unfold s'. split; intros; by autorewrite with store. }
    destruct Hs as [So Sq].
    apply (local_ok i q s); [done| |done|done| |apply Hok|].
    + split; try done; intros; [by rewrite So|unfold rla; by rewrite So|by rewrite Sq].
    + apply (task_ok_view s); [done|by apply Hok].
    + assert (Em : members s' q = members s q) by done.
      split; rewrite ?Em; unfold rla; rewrite ?Sq; cbn; try done.
      intros j. rewrite Qt, Hcur, elem_of_members. unfold queued.
      destruct (decide (j = i)) as [->|]; [unfold nonzero in Hon|]; naive_solver lia.
Qed.

(** With two entities queued one of them waits in the timeline. *)
Lemma timeline_waits s q : queue_ok s q -> 1 < cfs_nr_running (cfss s q) -> tasks_timeline (cfss s q) <> [].
Proof.
  intros Q Hn E. rewrite (qo_nr _ _ Q) in Hn. pose proof (NoDup_members s q) as Hd.
  pose proof (fun i => qo_timeline _ _ Q i) as T. rewrite E in T.
  destruct (members s q) as [|a [|b m]]; [simpl in Hn; lia..|].
  assert (C : forall c, c ∈ a :: b :: m -> curr (cfss s q) = Some c).
  { intros c Hc. destruct (decide (curr (cfss s q) = Some c)) as [|n]; [done|].
    assert (F : c ∈ []) by (by apply T). by apply elem_of_nil in F. }
  pose proof (C a (list_elem_of_here _ _)) as Ha.
  assert (Hb : curr (cfss s q) = Some b) by (apply C, elem_of_cons; right; apply list_elem_of_here).
  apply NoDup_cons in Hd as [Hd _]. apply Hd. rewrite Ha in Hb. simplify_eq. apply list_elem_of_here.
Qed.

Lemma entity_tick_ok q i s :
  cfs_ok s -> i ∈ univ -> queued s q i -> exists s', entity_tick q i s = Some s' /\ cfs_ok s'.
Proof.
  intros Hok Hi Hin. unfold entity_tick. cbv zeta.
  assert (L1 : loadeq s (update_curr q s)) by apply update_curr_eq.
  destruct (loadeq_facts s _ i q L1 Hok) as (Hok1 & Hiq1 & Hon1 & _ & Hc1 & _).
  set (s1 := update_curr q s) in *. clearbody s1.
  assert (Hin1 : queued s1 q i) by (destruct Hin; split; congruence).
  destruct (root_queue_ok s1 q i Hok1 Hi (proj2 Hin1)).
  assert (H2 : cfs_ok (update_entity_load_avg i true s1)).
  { apply (stay_core q i (tasks_timeline (cfss s1 q)) (curr (cfss s1 q)) s1 s1); try done.
    - split; try done. by destruct (cfss s1 q).
    - split; try done. destruct (oa_frame i s1 (update_entity_load_avg i true s1) q) as (E & _).
      { apply update_task_frame. by apply Hok1. }
      unfold cfs_frame. simpl. by rewrite E. }
  assert (Hr2 : cfs_rq_of (update_entity_load_avg i true s1) i = cfs_rq_of s1 i).
  { unfold cfs_rq_of. rewrite (oa_self i s1); [done|]. apply update_task_frame. by apply Hok1. }
  set (s2 := update_entity_load_avg i true s1) in *. clearbody s2.
  destruct (loadeq_facts s2 _ i q (blocked_load_eq q true s2) H2) as (H3 & Hr3 & _).
  set (s3 := update_cfs_rq_blocked_load q true s2) in *. clearbody s3.
  assert (Q3 : queue_ok s3 q).
  { by apply (root_queue_ok s3 q i); [..|destruct Hin1; congruence]. }
  rewrite shares_root by apply Q3. case_match eqn:Hnr; [|by exists s3].
  destruct (check_preempt_tick_eq q i s3) as (s4 & E4 & L4); [apply timeline_waits; [done|lia]|].
  exists s4. split; [done|]. by rewrite <- L4.
Qed.

(** ** Tasks *)

Lemma loadeq_upd_tg g f s : loadeq s (upd_tg g f s).
Proof. by split. Qed.
Hint Resolve loadeq_upd_tg : loadeq.

Lemma update_rq_runnable_avg_eq c b s : loadeq s (update_rq_runnable_avg c b s).
Proof.
  unfold update_rq_runnable_avg, __update_tg_runnable_avg.
  destruct (update_avg _ _ _ _ _ _) as [sa d]. unfold upd_rq_avg. loadeq_chain.
Qed.
Hint Resolve update_rq_runnable_avg_eq : loadeq.

Lemma chain_task s i : se_parent (ses s i) = None -> for_each_sched_entity s i = [i].
Proof. unfold for_each_sched_entity. intros E. destruct (nr_groups s); simpl; by rewrite ?E. Qed.

Lemma enqueue_task_ok cpu p flags s :
  cfs_ok s -> TaskSe p ∈ univ -> on_rq (ses s (TaskSe p)) = 0 ->
  cfs_ok (enqueue_task_fair cpu p flags s)
  /\ queued (enqueue_task_fair cpu p flags s) (cfs_rq_of s (TaskSe p)) (TaskSe p).
Proof.
  intros Hok Hi Hoff. unfold enqueue_task_fair.
  rewrite chain_task by (by apply Hok). cbn [enqueue_chain].
  replace (nonzero (on_rq (ses s (TaskSe p)))) with false by (unfold nonzero; lia).
  cbv zeta. cbn [foldl]. set (q := cfs_rq_of s (TaskSe p)).
  destruct (enqueue_entity_ok q (TaskSe p) flags s) as [H1 Q1]; [done..|].
  set (s1 := enqueue_entity q (TaskSe p) flags s) in *. clearbody s1. set (s2 := upd_rq cpu _ _).
  assert (L2 : loadeq s1 s2) by (unfold s2; loadeq_chain). clearbody s2.
  split; [by rewrite <- L2|]. apply (ent_view_queued s1); [apply L2|done].
Qed.

Lemma dequeue_task_ok cpu p flags s :
  cfs_ok s -> TaskSe p ∈ univ -> on_rq (ses s (TaskSe p)) <> 0 ->
  cfs_ok (dequeue_task_fair cpu p flags s)
  /\ on_rq (ses (dequeue_task_fair cpu p flags s) (TaskSe p)) = 0.
Proof.
  intros Hok Hi Hon. unfold dequeue_task_fair.
  rewrite chain_task by (by apply Hok). cbn [dequeue_chain]. cbv zeta.
  set (q := cfs_rq_of s (TaskSe p)).
  destruct (dequeue_entity_ok q (TaskSe p) flags s) as [H1 O1]; [done..|].
  set (s1 := dequeue_entity q (TaskSe p) flags s) in *. clearbody s1.
  set (s2 := upd_cfs q _ s1).
  assert (L2 : loadeq s1 s2) by (unfold s2; auto with loadeq).
  assert (P2 : parent_entity s2 (TaskSe p) = None).
  { unfold parent_entity. destruct (loadeq_facts s1 s2 (TaskSe p) q L2 H1) as (H2 & _). by apply H2. }
  rewrite P2. match goal with |- cfs_ok ?x /\ _ => set (s3 := x) end.
  assert (L3 : loadeq s1 s3).
  { etransitivity; [exact L2|]. unfold s3.
    destruct (nonzero (cfs_weight (cfss s2 q))); cbn [foldl]; loadeq_chain. }
  destruct (loadeq_facts s1 s3 (TaskSe p) q L3 H1) as (H3 & _ & O3 & _). split; [done|congruence].
Qed.

Lemma put_prev_task_ok p s :
  cfs_ok s -> TaskSe p ∈ univ -> curr (cfss s (cfs_rq_of s (TaskSe p))) = Some (TaskSe p) ->
  cfs_ok (put_prev_task_fair p s).
Proof.
  intros Hok Hi Hc. unfold put_prev_task_fair. rewrite chain_task by (by apply Hok). simpl.
  by apply put_prev_entity_ok.
Qed.

Lemma task_tick_ok cpu p s :
  cfs_ok s -> TaskSe p ∈ univ -> on_rq (ses s (TaskSe p)) <> 0 ->
  exists s', task_tick_fair cpu p s = Some s' /\ cfs_ok s'.
Proof.
  intros Hok Hi Hon. unfold task_tick_fair. rewrite chain_task by (by apply Hok). cbn [tick_entities].
  destruct (entity_tick_ok (cfs_rq_of s (TaskSe p)) (TaskSe p) s) as (s1 & -> & Hok1); [done..|].
  cbn [mbind option_bind]. eexists. split; [done|]. by rewrite <- update_rq_runnable_avg_eq.
Qed.

(** ** Picking the next task *)

Definition buddies_ok s q : Prop :=
  forall b, buddy_last (cfss s q) = Some b \/ buddy_next (cfss s q) = Some b -> b ∈ members s q.

Lemma prefer_spec b l acc :
  loadeq acc.1 (prefer b l acc).1
  /\ ((prefer b l acc).2 = acc.2 \/ Some (prefer b l acc).2 = b).
Proof.
  unfold prefer, wakeup_preempt_entity, wakeup_gran. destruct acc as [s se], b as [b|];
    simpl; [|by split; [|left]].
  destruct (s64 (vr s b - vr s l) <=? 0); simpl; [by split; [|right]|].
  pose proof (calc_delta_fair_eq (ulong (sysctl_sched_wakeup_granularity (sysctl s))) l s) as E.
  destruct (calc_delta_fair _ l s) as [s1 g]. simpl in E.
  destruct (s64 g <? s64 (vr s b - vr s l)); simpl; auto.
Qed.

Lemma timeline_next_elem i j l : timeline_next i l = Some j -> j ∈ l.
Proof.
  induction l as [|x l IH]; simpl; [done|]. case_bool_decide; [|set_solver].
  destruct l; simpl; [done|]. intros [= ->]. set_solver.
Qed.

Lemma pick_next_entity_spec q s :
  queue_ok s q -> curr (cfss s q) = None -> buddies_ok s q -> members s q <> [] ->
  exists s' i, pick_next_entity q s = Some (s', i) /\ loadeq s s' /\ i ∈ members s q.
Proof.
  intros Hq Hc Hb Hne. unfold pick_next_entity, __pick_first_entity, __pick_next_entity.
  assert (Htl : forall i, i ∈ tasks_timeline (cfss s q) <-> i ∈ members s q).
  { intros i. rewrite (qo_timeline s q Hq), Hc. naive_solver. }
  destruct (head (tasks_timeline (cfss s q))) as [l|] eqn:Hh.
  2:{ exfalso. destruct (members s q) as [|i m]; [done|].
      assert (Hi : i ∈ tasks_timeline (cfss s q)) by (apply Htl; set_solver).
      destruct (tasks_timeline (cfss s q)); [set_solver|done]. }
  assert (Hl : l ∈ members s q).
  { apply Htl. destruct (tasks_timeline (cfss s q)); [done|]. simplify_eq/=. set_solver. }
  set (second := if bool_decide _ then _ else _).
  assert (H2 : forall x, second = Some x -> x ∈ members s q).
  { unfold second. intros x. case_bool_decide; [|done]. intros Hx. apply Htl.
    by apply timeline_next_elem in Hx. }
  destruct (prefer_spec second l (s, l)) as [L1 C1].
  set (a1 := prefer second l (s, l)) in *.
  destruct (prefer_spec (buddy_last (cfss s q)) l a1) as [L2 C2].
  set (a2 := prefer (buddy_last (cfss s q)) l a1) in *.
  destruct (prefer_spec (buddy_next (cfss s q)) l a2) as [L3 C3].
  destruct (prefer (buddy_next (cfss s q)) l a2) as [s3 i] eqn:E3. cbn [fst snd] in *.
  exists (clear_buddies q i s3), i. split; [done|]. split.
  - etransitivity; [exact L1|]. etransitivity; [exact L2|]. etransitivity; [exact L3|].
    apply clear_buddies_eq.
  - destruct C3 as [->|C3]; [|apply Hb; by right].
    destruct C2 as [->|C2]; [|apply Hb; by left]. destruct C1 as [->|C1]; auto.
Qed.

(** The run queue has a task to pick exactly if one is queued. *)
Lemma pick_next_task_spec cpu s :
  let q := CfsRq 0 cpu in
  cfs_ok s -> curr (cfss s q) = None -> buddies_ok s q ->
  exists s' r, pick_next_task_fair cpu s = Some (s', r) /\ cfs_ok s' /\
  match r with
  | None => members s q = [] /\ s' = s
  | Some p => exists i, i ∈ members s q /\ task_of i = p /\ curr (cfss s' q) = Some i
  end.
Proof.
  intros q Hok Hc Hb. unfold pick_next_task_fair. fold q.
  pose proof (co_queue s Hok cpu) as Hq. fold q in Hq. rewrite (qo_nr s q Hq).
  destruct (Z.eqb_spec (Z.of_nat (length (members s q))) 0) as [E0|Hne].
  { exists s, None. split_and!; [done..| |done]. by destruct (members s q). }
  destruct (pick_next_entity_spec q s Hq Hc Hb) as (s1 & i & Ep & L & Hi);
    [by intros E; rewrite E in Hne|].
  apply elem_of_members in Hi as Hi'. destruct Hi' as [Hqi Hiu].
  destruct (loadeq_facts s s1 i q L Hok) as (Hok1 & Hr1 & Ho1 & _ & Hc1 & _).
  assert (Hs : cfs_ok (set_next_entity q i s1)).
  { apply set_next_entity_ok; try done; [|congruence]. destruct Hqi; split; congruence. }
  assert (Hm : my_q (ses (set_next_entity q i s1) i) = None).
  { destruct (co_task _ Hs i Hiu) as [[Ht _ _ _] _]. unfold entity_is_task in Ht. by case_match. }
  assert (Hcur : curr (cfss (set_next_entity q i s1) q) = Some i).
  { unfold set_next_entity. cbv zeta. by store_rw. }
  assert (E : pick_down (nr_groups s) q s = Some (set_next_entity q i s1, i)).
  { destruct (nr_groups s); cbn [pick_down]; rewrite Ep; cbn [mbind option_bind]; cbv zeta; by rewrite Hm. }
  rewrite E. cbn [mbind option_bind]. eexists _, _. split; [done|]. split; [done|]. by exists i.
Qed.

(** ** Migration *)

(** Load-tracking work on a task that is not queued. *)
Lemma quiet_off_queue i s s' :
  cfs_ok s -> i ∈ univ -> on_rq (ses s i) = 0 -> quiet i s s' -> cfs_ok s'.
Proof.
  intros [Hq Ht Hr Hs] Hi Hoff [F R O]. pose proof (oa_self _ _ _ F) as Ei.
  assert (Eq : forall j, on_rq (ses s' j) = on_rq (ses s j) /\ cfs_rq_of s' j = cfs_rq_of s j
                         /\ se_parent (ses s' j) = se_parent (ses s j)).
  { intros j. unfold cfs_rq_of. destruct (decide (j = i)) as [->|Hj]; [by rewrite Ei|].
    by rewrite (oa_other _ _ _ F j Hj). }
  assert (Em : forall q, members s' q = members s q).
  { intros q. apply members_eq. intros j. unfold queued. by destruct (Eq j) as (-> & -> & _). }
  assert (Hn : forall q j, j ∈ members s q -> ses s' j = ses s j).
  { intros q j [[? _] _]%elem_of_members. apply F. intros ->. done. }
  split.
  - intros c. destruct (Hq c) as [Qn Qw Qr Qd Qt Qc Qg]. set (q := CfsRq 0 c) in *.
    destruct (oa_frame i s s' q F) as (Ec & _ & Eg & Ew & En & El).
    split; rewrite ?Em, ?R, ?En, ?Ew, ?El, ?Ec, ?Eg; try done.
    + rewrite Qw. apply sum_over_ext. intros j Hj. unfold weight. by rewrite (Hn q).
    + rewrite Qr. apply sum_over_ext. intros j Hj. unfold contrib. by rewrite (Hn q).
    + intros j Hj. destruct (Eq j) as (_ & -> & _). by apply Qc.
  - intros j Hj. destruct (Eq j) as (_ & _ & ->). split; [|by apply Ht].
    destruct (decide (j = i)) as [->|Hne]; [done|].
    destruct (Ht j Hj) as [[T1 T2 T3 T4] _].
    split; unfold entity_is_task, contrib in *; by rewrite (oa_other _ _ _ F j Hne).
  - intros j Hj. destruct (Eq j) as (_ & -> & _). by apply Hr.
  - by eapply scales_ok_frame.
Qed.

(** ** Reachable states *)

(** What the core scheduler does to fair run queues, one operation at a time; a
    sleeping task may change CPU, and clocks advance. *)
Inductive cfs_step : sys -> sys -> Prop :=
| step_enqueue cpu p flags s :
    TaskSe p ∈ univ -> on_rq (ses s (TaskSe p)) = 0 ->
    cfs_step s (enqueue_task_fair cpu p flags s)
| step_dequeue cpu p flags s :
    TaskSe p ∈ univ -> on_rq (ses s (TaskSe p)) <> 0 ->
    cfs_step s (dequeue_task_fair cpu p flags s)
| step_pick cpu s s' r :
    curr (cfss s (CfsRq 0 cpu)) = None -> buddies_ok s (CfsRq 0 cpu) ->
    pick_next_task_fair cpu s = Some (s', r) -> cfs_step s s'
| step_put_prev p s :
    TaskSe p ∈ univ -> curr (cfss s (cfs_rq_of s (TaskSe p))) = Some (TaskSe p) ->
    cfs_step s (put_prev_task_fair p s)
| step_tick cpu p s s' :
    TaskSe p ∈ univ -> on_rq (ses s (TaskSe p)) <> 0 -> task_tick_fair cpu p s = Some s' -> cfs_step s s'
| step_move cpu p s :
    TaskSe p ∈ univ -> on_rq (ses s (TaskSe p)) = 0 -> sched_task_group (tasks s p) = 0 ->
    (forall q, curr (cfss s q) <> Some (TaskSe p)) -> cfs_step s (__set_task_cpu p cpu s)
| step_clock cpu t u s : cfs_step s (upd_rq cpu (fun r => r <| rq_clock := t |> <| clock_task := u |>) s).

Lemma set_task_cpu_ok cpu p s :
  cfs_ok s -> TaskSe p ∈ univ -> on_rq (ses s (TaskSe p)) = 0 -> sched_task_group (tasks s p) = 0 ->
  (forall q, curr (cfss s q) <> Some (TaskSe p)) -> cfs_ok (__set_task_cpu p cpu s).
Proof.
  intros Hok Hi Hoff Htg Hc. unfold __set_task_cpu, set_task_rq. rewrite Htg.
  set (s' := upd_task _ _ _).
  assert (E : (forall j, j <> TaskSe p -> ses s' j = ses s j)
              /\ ses s' (TaskSe p) = (ses s (TaskSe p)) <| se_cfs_rq := CfsRq 0 cpu |> <| se_parent := None |>
              /\ cfss s' = cfss s).
  { unfold s'. split_and!; intros; by store_rw. }
  destruct E as (Eo & Ei & Ec). assert (Es : scales_ok s') by apply Hok. clearbody s'.
  assert (Em : forall q, members s' q = members s q).
  { intros q. apply members_eq. intros j. unfold queued, cfs_rq_of.
    destruct (decide (j = TaskSe p)) as [->|Hj]; [rewrite Ei; simpl; naive_solver|by rewrite Eo]. }
  assert (Hn : forall q j, j ∈ members s q -> j <> TaskSe p).
  { intros q j [[? _] _]%elem_of_members ->. done. }
  split; [| | |done].
  - intros c. destruct (co_queue s Hok c) as [Qn Qw Qr Qd Qt Qc Qg]. set (q := CfsRq 0 c) in *.
    split; rewrite ?Em; unfold rla in *; rewrite ?Ec; try done.
    + rewrite Qw. apply sum_over_ext. intros j Hj. unfold weight. by rewrite Eo by eauto.
    + rewrite Qr. apply sum_over_ext. intros j Hj. unfold contrib. by rewrite Eo by eauto.
    + intros j Hj. destruct (Qc j Hj). split; [done|]. unfold cfs_rq_of.
      rewrite Eo by (intros ->; by apply (Hc q)). done.
  - intros j Hj. destruct (co_task s Hok j Hj) as [[T1 T2 T3 T4] P].
    destruct (decide (j = TaskSe p)) as [->|Hne].
    + split; [split|]; unfold entity_is_task, contrib in *; rewrite Ei; done.
    + split; [split|]; unfold entity_is_task, contrib in *; rewrite Eo by done; done.
  - intros j Hj. unfold cfs_rq_of. destruct (decide (j = TaskSe p)) as [->|Hne].
    + rewrite Ei. by exists cpu.
    + rewrite Eo by done. by apply Hok.
Qed.

Lemma cfs_step_ok s s' : cfs_step s s' -> cfs_ok s -> cfs_ok s'.
Proof.
  intros [] Hok; eauto using put_prev_task_ok, set_task_cpu_ok.
  - by apply enqueue_task_ok.
  - by apply dequeue_task_ok.
  - destruct (pick_next_task_spec cpu s0 Hok) as (s1 & r1 & E & Hok1 & _); [done..|congruence].
  - destruct (task_tick_ok cpu p s0) as (s1 & E & Hok1); [done..|congruence].
  - by rewrite <- loadeq_upd_rq.
Qed.

(** C2. Fair run queues account for exactly what is queued on them.  In every state the
    core scheduler can reach from a consistent one (tasks waking, sleeping, being
    picked, put back, ticking, moving between CPUs, in any order on any CPUs): the
    number of entities, the total weight and the runnable load of each root run
    queue are the count and the sums over the tasks queued on it, with no 32- or
    64-bit account ever wrapping; its timeline holds exactly the queued tasks
    that are not running, once each; and the load averages stay in range.  In each of
    them picking the next task and the tick of a queued task succeed, with no NULL
    dereference for want of a leftmost entity. *)
Theorem cfs_accounting s s' :
  cfs_ok s -> rtc cfs_step s s' ->
  cfs_ok s'
  /\ (forall cpu, curr (cfss s' (CfsRq 0 cpu)) = None -> buddies_ok s' (CfsRq 0 cpu) ->
        is_Some (pick_next_task_fair cpu s'))
  /\ (forall cpu p, TaskSe p ∈ univ -> on_rq (ses s' (TaskSe p)) <> 0 -> is_Some (task_tick_fair cpu p s')).
Proof.
  intros Hok R. assert (Hok' : cfs_ok s') by (induction R; eauto using cfs_step_ok). split_and!; [done| |].
  - intros cpu Hc Hb. destruct (pick_next_task_spec cpu s' Hok' Hc Hb) as (s1 & r & -> & _). done.
  - intros cpu p Hp Hon. destruct (task_tick_ok cpu p s' Hok' Hp Hon) as (s1 & -> & _). done.
Qed.

(** Work conservation.  With a consistent run queue and no task running, picking
    the next task yields a task queued there and makes it current; it yields none
    only if nothing is queued. *)
Theorem pick_next_task_live cpu s :
  cfs_ok s -> curr (cfss s (CfsRq 0 cpu)) = None -> buddies_ok s (CfsRq 0 cpu) ->
  exists s' r, pick_next_task_fair cpu s = Some (s', r) /\
  match r with
  | None => members s (CfsRq 0 cpu) = []
  | Some p => exists i, i ∈ members s (CfsRq 0 cpu) /\ task_of i = p
                        /\ curr (cfss s' (CfsRq 0 cpu)) = Some i
  end.
Proof.
  intros Hok Hc Hb. destruct (pick_next_task_spec cpu s Hok Hc Hb) as (s' & r & E & _ & P).
  exists s', r. split; [done|]. destruct r; [done|apply P].
Qed.
End invariant.

(** * Weighted time *)

Section weighted.
Context `{Config}.

Lemma WMULT_CONST_cases : WMULT_CONST = 2 ^ 32 - 1 \/ WMULT_CONST = 2 ^ 32.
Proof. unfold WMULT_CONST. case_match; auto. Qed.

Lemma LONG_MAX_bound : 2 ^ 31 - 1 <= LONG_MAX.
Proof. unfold LONG_MAX. destruct BITS_PER_LONG_ok as [->| ->]; lia. Qed.

Lemma fill_inv_fresh w : 1 <= w < 2 ^ 32 -> fill_inv_weight w 0 = WMULT_CONST / w.
Proof.
  intros Hw. unfold fill_inv_weight, scale_load_down, WMULT_CONST.
  destruct BITS_PER_LONG_ok as [->| ->]; simpl.
  - destruct (Z.eqb_spec w 0); [lia|done].
  - destruct (Z.leb_spec (2 ^ 32) w); [lia|]. simpl. destruct (Z.eqb_spec w 0); [lia|done].
Qed.

(** Weighted time is accurate.  For weights from 15 (nice 19) up, as long as the
    product fits the fast path (at most 2^32 - 1), scaling a time slice by
    [weight / lw] through the cached inverse differs from the exact quotient, rounded
    down, by at most one. *)
Theorem calc_delta_mine_accurate delta weight lw :
  0 <= delta -> 1 < weight -> 15 <= lw < 2 ^ 32 -> delta * weight <= 2 ^ 32 - 1 ->
  let r := calc_delta_mine delta weight (fill_inv_weight lw 0) in
  delta * weight / lw - 1 <= r <= delta * weight / lw + 1.
Proof.
  intros Hd Hw Hl Ht. cbv zeta. rewrite fill_inv_fresh by lia. unfold calc_delta_mine, scale_load_down.
  set (T := delta * weight) in *. assert (HT : 0 <= T) by (unfold T; nia).
  destruct (Z.ltb_spec 1 weight); [|lia]. rewrite (u64_id T) by lia.
  destruct (Z.ltb_spec WMULT_CONST T); [destruct WMULT_CONST_cases; lia|].
  set (inv := WMULT_CONST / lw).
  assert (Hinv : lw * inv <= WMULT_CONST < lw * inv + lw) by (apply div_floor_bounds; lia).
  assert (Hinv0 : 0 <= inv) by (apply Z.div_pos; destruct WMULT_CONST_cases; lia).
  assert (Hinv1 : inv <= 2 ^ 32) by (destruct WMULT_CONST_cases; nia).
  unfold SRR, WMULT_SHIFT. rewrite shiftl_mul, shiftr_div by lia.
  rewrite (u64_id (T * inv)), u64_id by (destruct WMULT_CONST_cases; nia).
  change (1 * 2 ^ (32 - 1)) with (2 ^ 31).
  set (r := (T * inv + 2 ^ 31) / 2 ^ 32).
  assert (Hr : 2 ^ 32 * r <= T * inv + 2 ^ 31 < 2 ^ 32 * r + 2 ^ 32) by (apply div_floor_bounds; lia).
  pose proof (div_floor_bounds T lw ltac:(lia)) as Hq. set (k := T / lw) in *.
  assert (A1 : T * (lw * inv) <= T * 2 ^ 32) by (destruct WMULT_CONST_cases; nia).
  assert (A2 : T * 2 ^ 32 <= T * (lw * inv) + T * lw) by (destruct WMULT_CONST_cases; nia).
  assert (Hlo : k - 1 <= r) by nia. assert (Hhi : r <= k + 1) by nia.
  pose proof LONG_MAX_bound. assert (k <= 2 ^ 31 - 2) by nia. lia.
Qed.
End weighted.

(** * The timeline is ordered by virtual time *)

Section timeline.
Context `{Config}.
Implicit Types (s : sys) (q : cfs_id) (i : se_id).

(** An entity's virtual runtime relative to [base], in a window of 2^63. *)
Definition vkey s (base : Z) i : Z := s64 (vr s i - base).
Definition in_window s (base : Z) i : Prop := - 2 ^ 62 < vkey s base i < 2 ^ 62.

Lemma s64_cong z : exists k, s64 z = z + k * 2 ^ 64.
Proof.
  unfold s64. pose proof (Z.div_mod (z + 2 ^ 63) (2 ^ 64) ltac:(lia)).
  exists (- ((z + 2 ^ 63) / 2 ^ 64)). lia.
Qed.

Lemma s64_range z : - 2 ^ 63 <= s64 z < 2 ^ 63.
Proof. unfold s64. pose proof (Z.mod_pos_bound (z + 2 ^ 63) (2 ^ 64) ltac:(lia)). lia. Qed.

(** Within the window the wrapping comparison is the comparison of keys. *)
Lemma entity_before_key s base a b :
  in_window s base a -> in_window s base b ->
  entity_before s a b = (vkey s base a <? vkey s base b).
Proof.
  unfold in_window, entity_before, vkey. intros Ha Hb.
  destruct (s64_cong (vr s a - base)) as [ka Ea], (s64_cong (vr s b - base)) as [kb Eb],
    (s64_cong (vr s a - vr s b)) as [k E].
  pose proof (s64_range (vr s a - vr s b)).
  assert (s64 (vr s a - vr s b) = s64 (vr s a - base) - s64 (vr s b - base)) as -> by lia.
  destruct (Z.ltb_spec (s64 (vr s a - base)) (s64 (vr s b - base))); lia.
Qed.

Definition key_ordered s base : list se_id -> Prop :=
  StronglySorted (fun a b => vkey s base a <= vkey s base b).

Lemma timeline_insert_ordered s base i l :
  Forall (in_window s base) (i :: l) -> key_ordered s base l ->
  key_ordered s base (timeline_insert s i l).
Proof.
  intros [Hi Hl]%Forall_cons Hs. revert Hl. induction Hs as [|j l Hs IH Hj]; intros Hl; simpl.
  { repeat constructor. }
  apply Forall_cons in Hl as [Hwj Hl]. rewrite (entity_before_key s base) by done.
  rewrite Forall_forall in Hj. destruct (Z.ltb_spec (vkey s base i) (vkey s base j)).
  - constructor; [by constructor; [|apply Forall_forall]|]. apply Forall_forall.
    intros x [->|Hx]%elem_of_cons; [lia|]. specialize (Hj x Hx). lia.
  - constructor; [by apply IH|]. apply Forall_forall. intros x.
    rewrite timeline_insert_perm, elem_of_cons. intros [->|Hx]; [lia|]. by apply Hj.
Qed.

(** Fairness of the choice.  Enqueueing keeps the timeline ordered by virtual
    runtime (compared modulo 2^64, with all runtimes within 2^63 of each other), so
    that with no buddy set the entity picked next, after any entity is put on the
    timeline, is one that has received the least weighted CPU time. *)
Theorem pick_is_fair s base q i j :
  let l := tasks_timeline (cfss s q) in
  let s' := __enqueue_entity q i s in
  Forall (in_window s base) (i :: l) -> key_ordered s base l ->
  buddy_skip (cfss s q) = None -> buddy_last (cfss s q) = None -> buddy_next (cfss s q) = None ->
  j ∈ i :: l ->
  exists s'' m, pick_next_entity q s' = Some (s'', m) /\ m ∈ i :: l
                /\ vkey s base m <= vkey s base j.
Proof.
  intros l s' Hw Ho Hk Hl Hn Hj.
  pose proof (timeline_insert_ordered s base i l Hw Ho) as Ho'.
  assert (E : cfss s' q = (cfss s q) <| tasks_timeline := timeline_insert s i l |>).
  { unfold s', __enqueue_entity. by autorewrite with store. }
  unfold pick_next_entity, __pick_first_entity. rewrite E. simpl. rewrite Hk, Hl, Hn.
  pose proof (timeline_insert_perm s i l) as P.
  destruct (timeline_insert s i l) as [|m t] eqn:Et; [by apply Permutation_nil_cons in P|].
  simpl. eexists _, m. split; [done|]. rewrite <- P in Hj |- *. split; [set_solver|].
  apply StronglySorted_inv in Ho' as [_ Hm]. rewrite Forall_forall in Hm.
  apply elem_of_cons in Hj as [->|Hj]; [lia|by apply Hm].
Qed.
End timeline.

(** * Witnesses *)

Definition sample_univ : list se_id := [TaskSe 4; TaskSe 5].

Lemma sample_cfs_ok `{Config} : cfs_ok sample_univ sample_sys.
Proof.
  split; [| | |exact sample_scales_ok].
  - intros cpu. split; [reflexivity..|constructor| |discriminate|reflexivity].
    intros i. split; [intros Hi; by apply elem_of_nil in Hi|intros [Hi _]; by apply elem_of_nil in Hi].
  - intros i [->|[->|Hi%elem_of_nil]%elem_of_cons]%elem_of_cons; [| |done];
      (split; [split|]; vm_compute; intuition discriminate).
  - intros i [->|[->|Hi%elem_of_nil]%elem_of_cons]%elem_of_cons; [| |done]; eexists; reflexivity.
Qed.

(** Task 4 wakes up, is picked, and the tick hits it. *)
Lemma some_default {A} (d : A) (o : option A) :
  match o with Some _ => true | None => false end = true -> o = Some (default d o).
Proof. by destruct o. Qed.
Lemma snd_default {A B} (d : A * B) (o : option (A * B)) r : snd <$> o = Some r -> o = Some ((default d o).1, r).
Proof. destruct o as [[]|]; intros [= ->]. done. Qed.
Lemma cfs_accounting_witness :
  let s1 := enqueue_task_fair (H := big_LITTLE_MP) 4 4 ENQUEUE_WAKEUP sample_sys in
  let s2 := (default (s1, None) (pick_next_task_fair (H := big_LITTLE_MP) 4 s1)).1 in
  let s3 := default s2 (task_tick_fair (H := big_LITTLE_MP) 4 4 s2) in
  cfs_ok (H := big_LITTLE_MP) sample_univ s3
  /\ cfs_weight (cfss s3 (CfsRq 0 4)) = 1024 /\ curr (cfss s3 (CfsRq 0 4)) = Some (TaskSe 4).
Proof.
  intros s1 s2 s3. split; [|split; vm_compute; reflexivity].
  refine (proj1 (cfs_accounting (H := big_LITTLE_MP) sample_univ
           ltac:(apply (bool_decide_unpack _); vm_compute; exact I)
           ltac:(vm_compute; discriminate) sample_sys s3 sample_cfs_ok _)).
  apply (rtc_l _ _ s1); [|apply (rtc_l _ _ s2); [|apply (rtc_l _ _ s3); [|apply rtc_refl]]].
  - apply step_enqueue; [apply list_elem_of_here|reflexivity].
  - apply (step_pick _ 4 _ _ (Some 4)); [vm_compute; reflexivity| |apply snd_default; vm_compute; reflexivity].
    intros b [Hb|Hb]; vm_compute in Hb; discriminate.
  - apply (step_tick _ 4 4); [apply list_elem_of_here|vm_compute; discriminate|apply some_default; vm_compute; reflexivity].
Defined.

Lemma pick_next_task_live_witness :
  (snd <$> pick_next_task_fair (H := big_LITTLE_MP) 4 sample_sys) = Some None
  /\ members sample_univ sample_sys (CfsRq 0 4) = [].
Proof.
  destruct (pick_next_task_live (H := big_LITTLE_MP) sample_univ
           ltac:(apply (bool_decide_unpack _); vm_compute; exact I)
           ltac:(vm_compute; discriminate) 4 sample_sys sample_cfs_ok eq_refl) as (s & r & E & P);
    [intros b [Hb|Hb]; discriminate|].
  split; [reflexivity|]. destruct r; [|exact P]. apply (f_equal (fmap snd)) in E. discriminate E.
Defined.

Lemma calc_delta_mine_accurate_witness :
  calc_delta_mine (H := big_LITTLE_MP) 4000000 1024 (fill_inv_weight (H := big_LITTLE_MP) 3121 0)
  <= 1312399 + 1.
Proof.
  apply (calc_delta_mine_accurate (H := big_LITTLE_MP) 4000000 1024 3121); vm_compute;
    intuition discriminate.
Defined.

Lemma pick_is_fair_witness :
  exists s m, pick_next_entity (H := big_LITTLE_MP) (CfsRq 0 4)
                (__enqueue_entity (CfsRq 0 4) (TaskSe 4) sample_sys) = Some (s, m)
              /\ vkey sample_sys 0 m <= vkey sample_sys 0 (TaskSe 4).
Proof.
  destruct (pick_is_fair (H := big_LITTLE_MP) sample_sys 0 (CfsRq 0 4) (TaskSe 4) (TaskSe 4))
    as (s & m & E & _ & Hk).
  - repeat constructor; vm_compute; intuition discriminate.
  - constructor.
  - reflexivity.
  - reflexivity.
  - reflexivity.
  - apply list_elem_of_here.
  - exists s, m. split; [exact E|exact Hk].
Defined.
