(* ===== verification/CfsTree.v ===== *)
(** The timeline of a run queue as the code keeps it ([kernel/sched/fair.c]): a red-black
    tree of the nodes embedded in the entities, with a pointer to the leftmost one; and that
    it refines the sequence of entities that [Cfs] works on. *)

From stdpp Require Import gmap countable.
From S2P Require Import Prelude Rbtree RbShape RbInsert RbErase RbSpec.
From S2P Require Import Pelt SchedTypes EntityLoad Cfs CfsInv.

(** Where the entities lie: [&se->run_node], and [rb_entry] back from it. *)
Class Layout := {
  run_node : se_id -> Z;
  rb_entry : Z -> se_id;
  rb_entry_node : forall i, rb_entry (run_node i) = i;
  run_node_addr : forall i, addr (run_node i);
}.

(** [cfs_rq->tasks_timeline] with its nodes, and [cfs_rq->rb_leftmost]. *)
Record timeline := mk_timeline {
  tl_rbs : rbs;
  rb_leftmost : Z;
}.

Section tree.
Context `{Config} `{Layout}.
Implicit Types (s : sys) (se : se_id) (tl : timeline).

(** The loop of [__enqueue_entity] that goes down to a free link. *)
Fixpoint find_place (fuel : nat) s se (k : link) (parent : Z) (leftmost : bool) : M (link * Z * bool) :=
  match fuel with
  | O => fun _ => None
  | S fuel =>
      p ← read_link k;
      if nonzero p then
        if entity_before s se (rb_entry p) then find_place fuel s se (Some (p, L)) p leftmost
        else find_place fuel s se (Some (p, R)) p false
      else mret (k, parent, leftmost)
  end.

Definition rb_enqueue_entity (fuel : nat) s se tl : option timeline :=
  '((k, parent, leftmost), t) ← find_place fuel s se None 0 true (tl_rbs tl);
  let left := if leftmost : bool then run_node se else rb_leftmost tl in
  '(_, t) ← (rb_link_node (run_node se) parent k;; rb_insert_color fuel (run_node se)) t;
  Some (mk_timeline t left).

Definition rb_dequeue_entity (fuel : nat) se tl : option timeline :=
  left ← (if rb_leftmost tl =? run_node se then fst <$> rb_next fuel (run_node se) (tl_rbs tl)
          else Some (rb_leftmost tl));
  '(_, t) ← rb_erase fuel (run_node se) (tl_rbs tl);
  Some (mk_timeline t left).

(** [rb_entry], NULL being no entity. *)
Definition entry_or_null (p : Z) : option se_id := if negb (nonzero p) then None else Some (rb_entry p).

Definition rb_pick_first_entity tl : option se_id := entry_or_null (rb_leftmost tl).
Definition rb_pick_next_entity (fuel : nat) se tl : option (option se_id) :=
  '(next, _) ← rb_next fuel (run_node se) (tl_rbs tl); Some (entry_or_null next).
Definition rb_pick_last_entity (fuel : nat) tl : option (option se_id) :=
  '(last, _) ← rb_last fuel (tl_rbs tl); Some (entry_or_null last).

(** * The way to a free link *)

(** [P] is false up to a point of [l] and true from there on. *)
Definition cut {A} (P : A -> bool) (l : list A) : Prop :=
  exists l1 l2, l = l1 ++ l2 /\ Forall (fun x => P x = false) l1 /\ Forall (fun x => P x = true) l2.

Lemma cut_mid {A} (P : A -> bool) l a r :
  cut P (l ++ a :: r) ->
  if P a then cut P l /\ Forall (fun x => P x = true) r else Forall (fun x => P x = false) l /\ cut P r.
Proof.
  intros (l1 & l2 & E0 & H1 & H2). apply app_eq_inv in E0 as [(k & -> & E0)|(k & -> & E0)].
  - subst l2. rewrite Forall_app, Forall_cons in H2. destruct H2 as (Hk & Ha & Hr). rewrite Ha. split; [|done]. by exists l1, k.
  - destruct k as [|b k]; cbn [app] in E0.
    + subst l2. apply Forall_cons in H2 as [Ha H2]. rewrite Ha. split; [|done]. rewrite app_nil_r in H1. exists l, []. by rewrite app_nil_r.
    + injection E0 as <- ->. rewrite Forall_app, Forall_cons in H1. destruct H1 as (H1 & Ha & Hk). rewrite Ha.
      split; [done|]. by exists k, l2.
Qed.

Lemma read_link_ok x ctx t : zips t x ctx -> read_link (link_of ctx) t = Some (ptr x, t).
Proof.
  intros [_ Rc _ _]. destruct ctx as [|[d c a y] ctx]; cbn [link_of read_link rep_ctx] in *; [by rewrite Rc|].
  destruct Rc as [Na _]. erewrite get_child_eq by done. by rewrite child_node.
Qed.

Lemma find_place_ok fuel s se x ctx t :
  let P a := entity_before s se (rb_entry a) in
  zips t x ctx -> cut P (elems x) ->
  Forall (fun a => P a = false) (before ctx) -> Forall (fun a => P a = true) (after ctx) -> (height x < fuel)%nat ->
  exists ctx', find_place fuel s se (link_of ctx) (parent_of ctx) (bool_decide (before ctx = [])) t
      = Some ((link_of ctx', parent_of ctx', bool_decide (before ctx' = [])), t)
    /\ plug ctx' E = plug ctx x
    /\ Forall (fun a => P a = false) (before ctx') /\ Forall (fun a => P a = true) (after ctx').
Proof.
  intros P. revert ctx fuel. induction x as [|c l IHl a r IHr]; intros ctx fuel Hz Hcut Hb Ha Hf;
    (destruct fuel as [|fuel]; [lia|]); cbn [find_place].
  - exists ctx. erewrite bind_eq by (by apply read_link_ok). done.
  - pose proof Hz as [_ _ _ Had]. cbn [elems] in Had, Hcut. rewrite !Forall_app, Forall_cons in Had. destruct Had as ((_ & Aa & _) & _).
    erewrite bind_eq by (by apply read_link_ok). cbn [ptr]. rewrite addr_nonzero by done. cbn [height] in Hf.
    apply cut_mid in Hcut. fold (P a). destruct (P a) eqn:Pa; destruct Hcut as [Hl Hr].
    + destruct (IHl (F L c a r :: ctx) fuel) as (ctx' & E1 & H1 & H2); [by apply zips_up|done|done| |lia|].
      { cbn [after]. by rewrite Forall_cons, Forall_app. }
      by exists ctx'.
    + destruct (IHr (F R c a l :: ctx) fuel) as (ctx' & E1 & H1 & H2); [by apply zips_up|done| |done|lia|].
      { cbn [before]. rewrite !Forall_app, Forall_cons. done. }
      exists ctx'. split; [|done]. rewrite <- E1. f_equal. symmetry. apply bool_decide_false. cbn [before].
      by intros [_ [_ ?]%app_eq_nil]%app_eq_nil.
Qed.

(** * The sequence and the tree *)

(** The timeline holds the entities [l] in order. *)
Definition holds tl (l : list se_id) : Prop :=
  rb_tree (tl_rbs tl) (run_node <$> l) /\ rb_leftmost tl = default 0 (head (run_node <$> l)).

#[local] Instance run_node_inj : Inj (=) (=) run_node.
Proof. intros i j E0. rewrite <- (rb_entry_node i), E0. apply rb_entry_node. Qed.

Lemma ordered_cut s base se l :
  Forall (in_window s base) (se :: l) -> key_ordered s base l -> cut (entity_before s se) l.
Proof.
  intros [Hi Hl]%Forall_cons Hs. revert Hl. induction Hs as [|j l Hs IH Hj]; intros Hl; [by exists [], []|].
  apply Forall_cons in Hl as [Hwj Hl]. destruct (entity_before s se j) eqn:Hb.
  - exists [], (j :: l). split_and!; [done|constructor|]. constructor; [done|].
    rewrite (entity_before_key s base) in Hb by done. apply Z.ltb_lt in Hb. rewrite Forall_forall in Hj, Hl |- *.
    intros x Hx. rewrite (entity_before_key s base) by auto. apply Z.ltb_lt. specialize (Hj x Hx). lia.
  - destruct (IH Hl) as (l1 & l2 & -> & H1 & H2). exists (j :: l1), l2. split_and!; [done|by constructor|done].
Qed.

Lemma timeline_insert_cut s se l1 l2 :
  Forall (fun x => entity_before s se x = false) l1 -> Forall (fun x => entity_before s se x = true) l2 ->
  timeline_insert s se (l1 ++ l2) = l1 ++ se :: l2.
Proof.
  intros H1 H2. induction H1 as [|j l1 Hj _ IH]; cbn [app timeline_insert]; [|by rewrite Hj, IH].
  destruct H2 as [|j l2 Hj _]; cbn [timeline_insert]; [done|by rewrite Hj].
Qed.

(** Down to the place, then linking and rebalancing. *)
Lemma enqueue_holds fuel s se tl l :
  holds tl l -> cut (entity_before s se) l -> se ∉ l -> (max_depth (length l) < fuel)%nat ->
  exists tl', rb_enqueue_entity fuel s se tl = Some tl' /\ holds tl' (timeline_insert s se l).
Proof.
  intros [(t & n & Hr & Ht & He) Hlm] Hcut Hse Hf. pose proof (rb_depth _ _ Ht) as Hd.
  assert (Hlen : length (elems t) = length l) by (by rewrite He, length_fmap). rewrite Hlen in Hd.
  destruct (find_place_ok fuel s se t [] (tl_rbs tl)) as (ctx & E1 & Hp & Hb & Ha); [done| |constructor|constructor|lia|].
  { destruct Hcut as (l1 & l2 & -> & H1 & H2). exists (run_node <$> l1), (run_node <$> l2). rewrite He, fmap_app.
    split_and!; [done|apply Forall_fmap|apply Forall_fmap]; (eapply Forall_impl; [done|]); intros x Hx; cbn; by rewrite rb_entry_node. }
  cbn [link_of parent_of before plug] in *. rewrite bool_decide_true in E1 by done.
  destruct (insert_at (tl_rbs tl) t ctx (run_node se) n fuel) as (t' & E2 & T2); [done|done|done|apply run_node_addr| |by rewrite Hlen|].
  { rewrite He, list_elem_of_fmap. intros (i & ->%run_node_inj & Hi). done. }
  unfold rb_enqueue_entity. rewrite E1. cbn [mbind option_bind]. rewrite E2. cbn [mbind option_bind]. eexists; split; [done|].
  assert (Hl : run_node <$> l = before ctx ++ after ctx) by (by rewrite <- He, <- Hp, elems_plug).
  apply fmap_app_inv in Hl as (l1 & l2 & Eb & Ea & ->). rewrite Eb in Hb, T2 |- *. rewrite Ea in Ha, T2.
  rewrite Forall_fmap in Hb, Ha. rewrite timeline_insert_cut.
  2: { eapply Forall_impl; [exact Hb|]. intros x. cbn. by rewrite rb_entry_node. }
  2: { eapply Forall_impl; [exact Ha|]. intros x. cbn. by rewrite rb_entry_node. }
  split; cbn [tl_rbs rb_leftmost]; [by rewrite fmap_app|]. rewrite Hlm. by destruct l1.
Qed.

Lemma dequeue_holds fuel se tl l l1 l2 :
  holds tl l -> l = l1 ++ se :: l2 -> se ∉ l1 -> (max_depth (length l) < fuel)%nat ->
  exists tl', rb_dequeue_entity fuel se tl = Some tl' /\ holds tl' (l1 ++ l2).
Proof.
  intros [Ht Hlm] -> Hn Hf. rewrite fmap_app, fmap_cons in Ht. set (k := (run_node <$> l1) ++ run_node se :: (run_node <$> l2)) in Ht.
  assert (Hlen : length k = length (l1 ++ se :: l2)) by (unfold k; rewrite !length_app; simpl; by rewrite !length_fmap).
  assert (Hfk : (max_depth (length k) < fuel)%nat) by (by rewrite Hlen).
  destruct (erase_in (tl_rbs tl) k _ _ _ fuel Ht eq_refl) as (t' & E1 & T1); [lia|].
  unfold rb_dequeue_entity. rewrite Hlm. destruct l1 as [|i l1]; cbn [app fmap list_fmap head default] in *.
  - rewrite Z.eqb_refl. unfold rb_next. rewrite (step_in _ k _ R [] _ (run_node <$> l2) Ht Hfk eq_refl). cbn. rewrite E1. cbn.
    eexists; split; [done|]. by split.
  - assert (run_node i <> run_node se) by (intros ->%run_node_inj; set_solver).
    rewrite (proj2 (Z.eqb_neq _ _)) by done. cbn. rewrite E1. cbn. eexists; split; [done|].
    split; [cbn [tl_rbs]; by rewrite fmap_cons, fmap_app|done].
Qed.

Lemma entry_null (o : option se_id) : entry_or_null (default 0 (run_node <$> o)) = o.
Proof.
  destruct o as [i|]; [|done]. cbn. unfold entry_or_null. rewrite addr_nonzero by apply run_node_addr. cbn. by rewrite rb_entry_node.
Qed.

Lemma fmap_head (l : list se_id) : head (run_node <$> l) = run_node <$> head l.
Proof. by destruct l. Qed.

Lemma holds_nodup tl l : holds tl l -> NoDup l.
Proof.
  intros [(t & n & [_ _ Hn _] & _ & He) _]. cbn [nodes] in Hn. rewrite app_nil_r, He in Hn. by apply (NoDup_fmap_1 run_node) in Hn.
Qed.

Lemma filter_absent (se : se_id) (l : list se_id) : se ∉ l -> filter (fun x => x <> se) l = l.
Proof.
  induction l as [|i l IH]; [done|]. intros [Hi Hl]%not_elem_of_cons. rewrite filter_cons_True by done. by rewrite IH.
Qed.

Lemma filter_out (se : se_id) l1 l2 : NoDup (l1 ++ se :: l2) -> filter (fun x => x <> se) (l1 ++ se :: l2) = l1 ++ l2.
Proof.
  intros (_ & Hd & [Hs _]%NoDup_cons)%NoDup_app. rewrite filter_app, filter_cons_False by tauto.
  rewrite !filter_absent; [done|done|]. intros Hl. apply (Hd se); [done|left].
Qed.

Lemma timeline_next_split (se : se_id) l1 l2 : se ∉ l1 -> timeline_next se (l1 ++ se :: l2) = head l2.
Proof.
  induction l1 as [|i l1 IH]; intros Hs; cbn [app timeline_next]; [by rewrite bool_decide_true|].
  apply not_elem_of_cons in Hs as [Hi Hs]. rewrite bool_decide_false by congruence. by apply IH.
Qed.

(** C4. The red-black tree implements the timeline.  As long as the tree of the run queue
    holds its entities in order, with [rb_leftmost] at the first, the descent, linking and
    rebalancing of [__enqueue_entity] put an entity where [Cfs] puts it (runtimes within
    2^63 of each other), [__dequeue_entity] takes it out, and both end, follow no NULL
    pointer and keep the tree red-black and [rb_leftmost] right; the entities that
    [__pick_first_entity], [__pick_next_entity] and [__pick_last_entity] read off the tree
    are those of the sequence. *)
Theorem timeline_refines fuel s q tl :
  let l := tasks_timeline (cfss s q) in
  holds tl l -> (max_depth (length l) < fuel)%nat ->
  (forall base se, Forall (in_window s base) (se :: l) -> key_ordered s base l -> se ∉ l ->
     exists tl', rb_enqueue_entity fuel s se tl = Some tl' /\ holds tl' (tasks_timeline (cfss (__enqueue_entity q se s) q)))
  /\ (forall se, se ∈ l ->
     exists tl', rb_dequeue_entity fuel se tl = Some tl' /\ holds tl' (tasks_timeline (cfss (__dequeue_entity q se s) q)))
  /\ rb_pick_first_entity tl = __pick_first_entity s q
  /\ (forall se, se ∈ l -> rb_pick_next_entity fuel se tl = Some (__pick_next_entity s q se))
  /\ rb_pick_last_entity fuel tl = Some (__pick_last_entity s q).
Proof.
  intros l Hh Hf. pose proof (holds_nodup tl l Hh) as Hn. pose proof Hh as [Ht Hlm].
  assert (Hlen : length (run_node <$> l) = length l) by apply length_fmap.
  split_and!.
  - intros base se Hw Ho Hse. unfold __enqueue_entity. autorewrite with store. cbn.
    apply enqueue_holds; [done|by apply (ordered_cut s base)|done|done].
  - intros se (l1 & l2 & El)%list_elem_of_split. unfold __dequeue_entity. autorewrite with store. cbn. fold l.
    rewrite El in Hn |- *. rewrite filter_out by done. rewrite <- El in Hn.
    apply (dequeue_holds fuel se tl l); [done|done| |done]. rewrite El in Hn. apply NoDup_app in Hn as (_ & Hd & _). set_solver.
  - unfold rb_pick_first_entity. rewrite Hlm, fmap_head. apply entry_null.
  - intros se (l1 & l2 & El)%list_elem_of_split. unfold rb_pick_next_entity, __pick_next_entity, rb_next. fold l.
    rewrite (step_in _ (run_node <$> l) fuel R (run_node <$> l1) _ (run_node <$> l2)); [|done|by rewrite Hlen|by rewrite El, fmap_app].
    cbn. unfold end_of. rewrite fmap_head, entry_null, El, timeline_next_split; [done|].
    rewrite El in Hn. apply NoDup_app in Hn as (_ & Hd & _). set_solver.
  - unfold rb_pick_last_entity, rb_last, __pick_last_entity. fold l. rewrite (ends_ok _ (run_node <$> l)) by (done || (rewrite Hlen; lia)).
    cbn. unfold end_of. by rewrite fmap_last, entry_null.
Qed.
End tree.

(** * Witness *)

#[local] Instance se_id_countable : Countable se_id.
Proof.
  refine (inj_countable' (fun i => match i with TaskSe p => inl p | GroupSe g c => inr (g, c) end)
    (fun x => match x with inl p => TaskSe p | inr (g, c) => GroupSe g c end) _). by intros [].
Defined.

#[local] Program Instance sample_layout : Layout := {|
  run_node i := 4 * Zpos (encode i);
  rb_entry a := default (TaskSe 0) (decode (Z.to_pos (a / 4)));
|}.
Next Obligation. intros i. cbn beta. rewrite Z.mul_comm, Z.div_mul, Pos2Z.id, decode_encode by done. done. Qed.
Next Obligation.
  intros i. split; [lia|]. cbn beta. replace 3 with (Z.ones 2) by done. rewrite Z.land_ones by done.
  by rewrite Z.mul_comm, Z_mod_mult.
Qed.

Definition empty_timeline : timeline := mk_timeline (mk_rbs ∅ 0) 0.

Lemma empty_holds : holds empty_timeline [].
Proof.
  split; [|done]. exists E, 0%nat. split_and!; [|constructor|done]. split; [done|done|constructor|constructor].
Qed.

Lemma timeline_refines_witness : exists tl',
  rb_enqueue_entity 1 sample_sys (TaskSe 4) empty_timeline = Some tl'
  /\ holds tl' (tasks_timeline (cfss (__enqueue_entity (CfsRq 0 4) (TaskSe 4) sample_sys) (CfsRq 0 4))).
Proof.
  destruct (timeline_refines 1 sample_sys (CfsRq 0 4) empty_timeline) as (He & _).
  - exact empty_holds.
  - vm_compute. lia.
  - apply (He 0 (TaskSe 4)).
    + repeat constructor; vm_compute; intuition discriminate.
    + constructor.
    + apply not_elem_of_nil.
Defined.
