(* ===== verification/HmpSysfs.v ===== *)
(** The HMP tunables in sysfs ([kernel/sched/fair.c], [hmp_show] to [hmp_attr_init]):
    parsing and printing decimal numbers as [sscanf] and [sprintf] of
    [lib/vsprintf.c] do, the range check of each attribute, and the table of
    attributes.

    A string is the list of its bytes.  [None] stands for a division by zero, which
    stops the kernel. *)

From Stdlib Require Import String.
From S2P Require Import Prelude Pelt SchedTypes.

(** * Decimal numbers *)

Definition isspace (c : Z) : bool := ((9 <=? c) && (c <=? 13)) || (c =? 32) || (c =? 160).
Definition isdigit (c : Z) : bool := (48 <=? c) && (c <=? 57).

Fixpoint skip_spaces (str : list Z) : list Z :=
  match str with
  | c :: str' => if isspace c then skip_spaces str' else str
  | [] => []
  end.

(** [_parse_integer(s, 10, &res)]; the overflow it reports is ignored by the caller. *)
Fixpoint _parse_integer (s : list Z) (res : Z) : Z :=
  match s with
  | c :: s => if isdigit c then _parse_integer s (u64 (res * 10 + (c - 48))) else res
  | [] => res
  end.

(** [sscanf(str, "%d", &temp)]: the value stored, if a conversion was made.  The
    result of [simple_strtol] is a [long], which is stored in an [int]. *)
Definition sscanf_d (str : list Z) : option Z :=
  match skip_spaces str with
  | [] => None
  | c :: s =>
      if c =? 45 then
        match s with
        | d :: _ => if isdigit d then Some (s32 (- _parse_integer s 0)) else None
        | [] => None
        end
      else if isdigit c then Some (s32 (_parse_integer (c :: s) 0)) else None
  end.

(** The decimal digits of [n], most significant first; ten are enough for an [int]. *)
Fixpoint digits (fuel : nat) (n : Z) : list Z :=
  match fuel with
  | O => []
  | S fuel => (if n <? 10 then [] else digits fuel (n / 10)) ++ [48 + n mod 10]
  end.

(** [sprintf(buf, "%d\n", temp)] *)
Definition sprintf_d (temp : Z) : list Z :=
  (if temp <? 0 then 45 :: digits 10 (- temp) else digits 10 temp) ++ [10].

(** * Attributes *)

(** What [hmp_global_attr.value] points to. *)
Inductive hmp_value :=
| Up_threshold | Down_threshold | Multiplier | Freqinvar_load_scale_enabled
| Packing_enabled | Full_threshold.

#[export] Instance hmp_value_eq_dec : EqDecision hmp_value.
Proof. solve_decision. Defined.

Record hmp_global_attr := mk_attr {
  attr_name : string;
  attr_mode : Z;
  attr_value : option hmp_value;
  to_sysfs : option (Z -> option Z);
  from_sysfs : option (Z -> option Z);
  to_sysfs_text : option (sys -> list Z);
}.

Definition read_value (v : hmp_value) (s : sys) : Z :=
  match v with
  | Up_threshold => hmp_up_threshold (tun s)
  | Down_threshold => hmp_down_threshold (tun s)
  | Multiplier => multiplier (hmp_data (tun s))
  | Freqinvar_load_scale_enabled => freqinvar_load_scale_enabled (hmp_data (tun s))
  | Packing_enabled => hmp_packing_enabled (tun s)
  | Full_threshold => hmp_full_threshold (tun s)
  end.

Definition write_tun (v : hmp_value) (x : Z) (t : hmp_tunables) : hmp_tunables :=
  match v with
  | Up_threshold => t <| hmp_up_threshold := x |>
  | Down_threshold => t <| hmp_down_threshold := x |>
  | Multiplier => t <| hmp_data := hmp_data t <| multiplier := x |> |>
  | Freqinvar_load_scale_enabled =>
      t <| hmp_data := hmp_data t <| freqinvar_load_scale_enabled := x |> |>
  | Packing_enabled => t <| hmp_packing_enabled := x |>
  | Full_threshold => t <| hmp_full_threshold := x |>
  end.
Definition write_value (v : hmp_value) (x : Z) (s : sys) : sys := s <| tun := write_tun v x (tun s) |>.

(** The quotient of C's [int] division. *)
Definition int_div (a b : Z) : option Z := if b =? 0 then None else Some (s32 (Z.quot a b)).

Definition hmp_period_tofrom_sysfs (value : Z) : option Z :=
  int_div (Z.shiftl LOAD_AVG_PERIOD HMP_VARIABLE_SCALE_SHIFT) value.
Definition hmp_theshold_from_sysfs (value : Z) : option Z :=
  Some (if 1024 <? value then -1 else value).
Definition hmp_toggle_from_sysfs (value : Z) : option Z :=
  Some (if (value <? 0) || (1 <? value) then -1 else value).
Definition hmp_packing_from_sysfs (value : Z) : option Z := Some (if value <? 0 then -1 else value).

Definition apply_opt (f : option (Z -> option Z)) (x : Z) : option Z :=
  match f with Some f => f x | None => Some x end.

(** The text read; an attribute without a value has a text function. *)
Definition hmp_show (a : hmp_global_attr) (s : sys) : option (list Z) :=
  match to_sysfs_text a with
  | Some text => Some (text s)
  | None =>
      v ← attr_value a;
      temp ← apply_opt (to_sysfs a) (s32 (read_value v s));
      Some (sprintf_d temp)
  end.

(** Returns the new state and the result of the system call; [mem] tells whether
    [vmalloc] succeeds.  For an attribute without a value a number that is accepted
    is stored through NULL. *)
Definition hmp_store (a : hmp_global_attr) (buf : list Z) (mem : bool) (s : sys) : option (sys * Z) :=
  if negb mem then Some (s, - ENOMEM)
  else
    match sscanf_d buf with
    | None => Some (s, - EINVAL)
    | Some temp =>
        temp ← apply_opt (from_sysfs a) temp;
        if temp <? 0 then Some (s, - EINVAL)
        else v ← attr_value a; Some (write_value v (u32 temp) s, Z.of_nat (length buf))
    end.

(** * The table *)

Definition HMP_DATA_SYSFS_MAX : Z := 8.

Definition hmp_attr_add (name : string) (value : option hmp_value)
    (to_sysfs from_sysfs : option (Z -> option Z)) (to_sysfs_text : option (sys -> list Z))
    (mode : Z) (attributes : list hmp_global_attr) : list hmp_global_attr :=
  if HMP_DATA_SYSFS_MAX <=? Z.of_nat (length attributes) then attributes
  else attributes ++ [mk_attr name (if nonzero mode then mode else 420) value to_sysfs from_sysfs
                        to_sysfs_text].

Section table.
Context `{Config}.

(** [print_domains] is the text of [hmp_print_domains].  [memset] is given length 0, so
    it clears nothing.  If the division in the middle faults there is no table. *)
Definition hmp_attr_init (print_domains : sys -> list Z) (s : sys) :
    option (sys * list hmp_global_attr) :=
  let l := hmp_attr_add "hmp_domains" None None None (Some print_domains) 292 [] in
  let l := hmp_attr_add "up_threshold" (Some Up_threshold) None (Some hmp_theshold_from_sysfs)
             None 0 l in
  let l := hmp_attr_add "down_threshold" (Some Down_threshold) None
             (Some hmp_theshold_from_sysfs) None 0 l in
  '(s, l) ←
    (if CONFIG_HMP_VARIABLE_SCALE then
       m ← hmp_period_tofrom_sysfs LOAD_AVG_PERIOD;
       Some (write_value Multiplier m s,
             hmp_attr_add "load_avg_period_ms" (Some Multiplier) (Some hmp_period_tofrom_sysfs)
               (Some hmp_period_tofrom_sysfs) None 0 l)
     else Some (s, l));
  let '(s, l) :=
    if CONFIG_HMP_FREQUENCY_INVARIANT_SCALE then
      (write_value Freqinvar_load_scale_enabled 1 s,
       hmp_attr_add "frequency_invariant_load_scale" (Some Freqinvar_load_scale_enabled) None
         (Some hmp_toggle_from_sysfs) None 0 l)
    else (s, l) in
  let l :=
    if CONFIG_SCHED_HMP_LITTLE_PACKING then
      hmp_attr_add "packing_limit" (Some Full_threshold) None (Some hmp_packing_from_sysfs) None 0
        (hmp_attr_add "packing_enable" (Some Packing_enabled) None (Some hmp_toggle_from_sysfs)
           None 0 l)
    else l in
  Some (s, l).
End table.

(** * Printing and parsing are inverse *)

Lemma isdigit_facts c : isdigit c = true -> isspace c = false /\ (c =? 45) = false.
Proof. unfold isdigit, isspace. lia. Qed.

Lemma digits_head f n : (0 < f)%nat -> 0 <= n -> exists d l, digits f n = d :: l /\ isdigit d = true.
Proof.
  revert n. induction f as [|f IH]; intros n Hf Hn; [lia|]. cbn [digits].
  pose proof (Z.mod_pos_bound n 10 ltac:(lia)).
  assert (Hd : isdigit (48 + n mod 10) = true) by (unfold isdigit; lia).
  destruct (n <? 10); cbn [app]; [by eexists _, _|].
  destruct f as [|f]; [by eexists _, _|].
  destruct (IH (n / 10)) as (d & l & -> & Hd'); [lia|by apply Z.div_pos|]. by eexists _, _.
Qed.

Lemma parse_digits f n k :
  0 <= n < 10 ^ Z.of_nat f -> n < 2 ^ 64 -> _parse_integer (digits f n ++ k) 0 = _parse_integer k n.
Proof.
  revert n k. induction f as [|f IH]; intros n k Hn Hb.
  { change (10 ^ Z.of_nat 0) with 1 in Hn. by replace n with 0 by lia. }
  rewrite Nat2Z.inj_succ, Z.pow_succ_r in Hn by lia.
  pose proof (Z.mod_pos_bound n 10 ltac:(lia)). pose proof (Z.div_mod n 10 ltac:(lia)).
  assert (Hd : isdigit (48 + n mod 10) = true) by (unfold isdigit; lia).
  cbn [digits]. destruct (Z.ltb_spec n 10) as [Hs|Hl].
  - cbn [app _parse_integer]. rewrite Hd. f_equal. rewrite Z.mod_small in * by lia. rewrite u64_id; lia.
  - rewrite <- app_assoc, IH by lia. cbn [app _parse_integer]. rewrite Hd. f_equal.
    rewrite u64_id; lia.
Qed.

Lemma sscanf_sprintf n : 0 <= n < 2 ^ 31 -> sscanf_d (sprintf_d n) = Some n.
Proof.
  intros Hn. unfold sscanf_d, sprintf_d. destruct (Z.ltb_spec n 0); [lia|].
  pose proof (parse_digits 10 n [10]) as P. change (10 ^ Z.of_nat 10) with 10000000000 in P.
  destruct (digits_head 10 n) as (d & l & E & Hd); [lia|lia|]. rewrite E in *. cbn [app skip_spaces].
  destruct (isdigit_facts d Hd) as [-> ->]. rewrite Hd. cbn [app] in P. rewrite P by lia.
  change (_parse_integer [10] n) with n. by rewrite s32_id by lia.
Qed.

Lemma sscanf_int str temp : sscanf_d str = Some temp -> - 2 ^ 31 <= temp < 2 ^ 31.
Proof.
  unfold sscanf_d. intros E. repeat case_match; simplify_eq; unfold s32;
    match goal with |- context [?x mod 2 ^ 32] => pose proof (Z.mod_pos_bound x (2 ^ 32)) end; lia.
Qed.

(** * The tunables stay in range *)

(** The values the kernel relies on. *)
Definition in_range (v : hmp_value) (x : Z) : Prop :=
  0 <= x <= match v with
            | Up_threshold | Down_threshold => 1024
            | Multiplier => 2097152
            | Freqinvar_load_scale_enabled | Packing_enabled => 1
            | Full_threshold => 2 ^ 31 - 1
            end.

Definition tunables_ok (s : sys) : Prop := forall v, in_range v (read_value v s).

Lemma in_range_int v x : in_range v x -> 0 <= x < 2 ^ 31.
Proof. destruct v; unfold in_range; lia. Qed.

Lemma read_write v w x s : read_value w (write_value v x s) = if decide (v = w) then x else read_value w s.
Proof. by destruct v, w. Qed.

(** What an attribute's check lets through is in range. *)
Definition attr_ok (a : hmp_global_attr) : Prop :=
  forall v temp x, attr_value a = Some v -> - 2 ^ 31 <= temp < 2 ^ 31 ->
    apply_opt (from_sysfs a) temp = Some x -> 0 <= x -> in_range v x.

Lemma elem_of_attr_add name v t f x m l a :
  a ∈ hmp_attr_add name v t f x m l ->
  a ∈ l \/ (attr_value a = v /\ to_sysfs a = t /\ from_sysfs a = f /\ to_sysfs_text a = x).
Proof. unfold hmp_attr_add. case_match; [auto|]. rewrite elem_of_app, list_elem_of_singleton. naive_solver. Qed.

Lemma period_range p x :
  - 2 ^ 31 <= p < 2 ^ 31 -> hmp_period_tofrom_sysfs p = Some x -> 0 <= x ->
  x = Z.quot 2097152 p /\ p <> 0.
Proof.
  unfold hmp_period_tofrom_sysfs, int_div. change (Z.shiftl _ _) with 2097152.
  destruct (Z.eqb_spec p 0); [done|]. intros Hp [= <-] _. split; [|done]. apply s32_id.
  pose proof (Z.quot_abs 2097152 p n). assert (0 <= Z.quot (Z.abs 2097152) (Z.abs p) <= 2097152).
  { split; [apply Z.quot_pos; lia|]. apply Z.quot_le_upper_bound; lia. }
  lia.
Qed.

Section tunables.
Context `{Config} (print_domains : sys -> list Z).

(** Every attribute with a value: how it is read and what it accepts. *)
Lemma table_attr s s0 l a v :
  hmp_attr_init print_domains s = Some (s0, l) -> a ∈ l -> attr_value a = Some v ->
  to_sysfs_text a = None
  /\ match v with
     | Multiplier => to_sysfs a = Some hmp_period_tofrom_sysfs /\ from_sysfs a = Some hmp_period_tofrom_sysfs
     | Up_threshold | Down_threshold => to_sysfs a = None /\ from_sysfs a = Some hmp_theshold_from_sysfs
     | Full_threshold => to_sysfs a = None /\ from_sysfs a = Some hmp_packing_from_sysfs
     | _ => to_sysfs a = None /\ from_sysfs a = Some hmp_toggle_from_sysfs
     end.
Proof.
  unfold hmp_attr_init. change (hmp_period_tofrom_sysfs LOAD_AVG_PERIOD) with (Some 65536).
  intros E Ha Hv. cbn [mbind option_bind] in E.
  destruct CONFIG_HMP_VARIABLE_SCALE, CONFIG_HMP_FREQUENCY_INVARIANT_SCALE,
    CONFIG_SCHED_HMP_LITTLE_PACKING; cbn [mbind option_bind] in E; injection E as <- <-;
  repeat (apply elem_of_attr_add in Ha as [Ha|(E1 & E2 & E3 & E4)];
    [|rewrite E1 in Hv; by simplify_eq]); by apply elem_of_nil in Ha.
Qed.

Lemma table_ok s s0 l a : hmp_attr_init print_domains s = Some (s0, l) -> a ∈ l -> attr_ok a.
Proof.
  intros E Ha v temp x Hv Ht. destruct (table_attr s s0 l a v E Ha Hv) as [_ A].
  destruct v; destruct A as [_ ->]; cbn [apply_opt]; unfold hmp_theshold_from_sysfs,
    hmp_toggle_from_sysfs, hmp_packing_from_sysfs; try (intros [= <-]; case_match; unfold in_range; lia).
  intros Hx Hp. destruct (period_range temp x Ht Hx Hp) as [-> Hne]. split; [done|].
  destruct (decide (0 < temp)); [apply Z.quot_le_upper_bound; nia|].
  rewrite <- (Z.opp_involutive temp), Z.quot_opp_r by lia.
  pose proof (Z.quot_pos 2097152 (- temp)). lia.
Qed.

Lemma hmp_store_ok a buf mem s s' r :
  attr_ok a -> tunables_ok s -> hmp_store a buf mem s = Some (s', r) -> tunables_ok s'.
Proof.
  intros Ha Hs. unfold hmp_store. destruct mem; cbn [negb]; [|by intros [= <- <-]].
  destruct (sscanf_d buf) as [temp|] eqn:Ht; [|by intros [= <- <-]]. apply sscanf_int in Ht.
  destruct (apply_opt (from_sysfs a) temp) as [x|] eqn:Hx; cbn; [|done].
  destruct (Z.ltb_spec x 0); [by intros [= <- <-]|]. destruct (attr_value a) as [v|] eqn:Hv; cbn; [|done].
  intros [= <- _] w. pose proof (Ha v temp x Hv Ht Hx ltac:(lia)) as Hr.
  rewrite read_write. case_decide; [|apply Hs]. subst.
  pose proof (in_range_int _ _ Hr). by rewrite u32_id by lia.
Qed.

(** A sequence of writes to attributes. *)
Fixpoint sysfs_writes (ws : list (hmp_global_attr * list Z * bool)) (s : sys) : option sys :=
  match ws with
  | [] => Some s
  | (a, buf, mem) :: ws => '(s, _) ← hmp_store a buf mem s; sysfs_writes ws s
  end.

(** Whatever is written to the HMP attributes, in any order, as long as no write
    faults, the tunables stay in the ranges the scheduler relies on: thresholds
    within 0..1024, the switches 0 or 1, the packing limit a non-negative [int], the
    time multiplier within 0..2097152. *)
Theorem sysfs_tunables_ok s s0 l ws s' :
  hmp_attr_init print_domains s = Some (s0, l) -> tunables_ok s ->
  Forall (fun w => w.1.1 ∈ l) ws -> sysfs_writes ws s0 = Some s' -> tunables_ok s'.
Proof.
  intros E Hs Hw. assert (H0 : tunables_ok s0).
  { unfold hmp_attr_init in E. change (hmp_period_tofrom_sysfs LOAD_AVG_PERIOD) with (Some 65536) in E.
    destruct CONFIG_HMP_VARIABLE_SCALE, CONFIG_HMP_FREQUENCY_INVARIANT_SCALE;
      cbn [mbind option_bind] in E; injection E as <- <-; intros v; rewrite ?read_write;
      repeat case_decide; subst; try apply Hs; unfold in_range; lia. }
  pose proof (fun a => table_ok s s0 l a E) as Ha. clear E Hs.
  revert s0 H0. induction Hw as [|[[a buf] mem] ws Hin Hw IH]; intros s0 H0; cbn; [by intros [= <-]|].
  destruct (hmp_store a buf mem s0) as [[s1 r]|] eqn:E1; cbn; [|done].
  apply IH. eapply hmp_store_ok; [|exact H0|exact E1]. by apply Ha.
Qed.

(** Round trip.  The text read from an HMP attribute (other than the period), when
    written back later, is accepted in full and restores exactly the value read,
    whatever the attribute holds in between. *)
Theorem sysfs_read_write s0 s1 l a v s :
  hmp_attr_init print_domains s0 = Some (s1, l) -> a ∈ l -> attr_value a = Some v ->
  v <> Multiplier -> tunables_ok s ->
  exists text, hmp_show a s = Some text
    /\ forall s', hmp_store a text true s'
                  = Some (write_value v (read_value v s) s', Z.of_nat (length text)).
Proof.
  intros E Ha Hv Hm Hs. destruct (table_attr s0 s1 l a v E Ha Hv) as [Ht A].
  pose proof (Hs v) as Hr. pose proof (in_range_int _ _ Hr) as Hi.
  assert (Hto : to_sysfs a = None) by (by destruct v, A).
  assert (Hf : apply_opt (from_sysfs a) (read_value v s) = Some (read_value v s)).
  { destruct v; destruct A as [_ ->]; try done; cbn [apply_opt]; unfold in_range in Hr;
      unfold hmp_theshold_from_sysfs, hmp_toggle_from_sysfs, hmp_packing_from_sysfs;
      f_equal; case_match; lia. }
  unfold hmp_show. rewrite Ht, Hv, Hto. cbn. rewrite s32_id by lia.
  eexists. split; [done|]. intros s'. unfold hmp_store. cbn [negb].
  rewrite sscanf_sprintf, Hf by lia. cbn. destruct (Z.ltb_spec (read_value v s) 0); [lia|].
  rewrite Hv. cbn. by rewrite u32_id by lia.
Qed.

(** The averaging period.  A period of 1 to 1448 ms is stored as the fixed-point
    multiplier 2^21 / period, and reading the attribute shows that very period. *)
Theorem load_avg_period_exact s0 s1 l a s p :
  hmp_attr_init print_domains s0 = Some (s1, l) -> a ∈ l -> attr_value a = Some Multiplier ->
  1 <= p <= 1448 ->
  exists s' n, hmp_store a (sprintf_d p) true s = Some (s', n)
    /\ read_value Multiplier s' = 2097152 / p /\ hmp_show a s' = Some (sprintf_d p).
Proof.
  intros E Ha Hv Hp. destruct (table_attr s0 s1 l a _ E Ha Hv) as (Ht & Hto & Hf).
  assert (Hd : forall x, 0 < x -> 0 <= 2097152 / x <= 2097152).
  { intros x Hx. split; [by apply Z.div_pos|]. apply Z.div_le_upper_bound; nia. }
  assert (Hq : forall x, 0 < x -> hmp_period_tofrom_sysfs x = Some (2097152 / x)).
  { intros x Hx. unfold hmp_period_tofrom_sysfs, int_div. change (Z.shiftl _ _) with 2097152.
    destruct (Z.eqb_spec x 0); [lia|]. rewrite Z.quot_div_nonneg by lia. specialize (Hd x Hx).
    by rewrite s32_id by lia. }
  assert (Hb : 1448 <= 2097152 / p) by (apply Z.div_le_lower_bound; nia).
  specialize (Hd p ltac:(lia)). unfold hmp_store. rewrite Hf. cbn [negb apply_opt].
  rewrite sscanf_sprintf, Hq by lia. cbn. destruct (Z.ltb_spec (2097152 / p) 0); [lia|].
  rewrite Hv. cbn. rewrite u32_id by lia. eexists _, _. split; [done|]. split; [done|].
  unfold hmp_show. rewrite Ht, Hto, Hv. cbn. rewrite s32_id, Hq by lia. cbn. do 2 f_equal.
  pose proof (Z.div_mod 2097152 p ltac:(lia)). pose proof (Z.mod_pos_bound 2097152 p ltac:(lia)).
  symmetry. apply (Z.div_unique _ _ _ (2097152 mod p)); [left|]; lia.
Qed.

(** Two writes that stop the kernel.  Writing a period of 0 divides by zero; a
    period above 2097152 is accepted, stores the multiplier 0 (so no load is ever
    tracked again), and the next read of the attribute divides by zero. *)
Theorem load_avg_period_faults s0 s1 l a s buf p :
  hmp_attr_init print_domains s0 = Some (s1, l) -> a ∈ l -> attr_value a = Some Multiplier ->
  sscanf_d buf = Some p ->
  (p = 0 -> hmp_store a buf true s = None)
  /\ (2097152 < p -> exists s' n, hmp_store a buf true s = Some (s', n)
                                 /\ read_value Multiplier s' = 0 /\ hmp_show a s' = None).
Proof.
  intros E Ha Hv Hb. destruct (table_attr s0 s1 l a _ E Ha Hv) as (Ht & Hto & Hf).
  unfold hmp_store. rewrite Hb, Hf. cbn [negb apply_opt]. split.
  - by intros ->.
  - intros Hp. assert (Hq : hmp_period_tofrom_sysfs p = Some 0).
    { unfold hmp_period_tofrom_sysfs, int_div. change (Z.shiftl _ _) with 2097152.
      destruct (Z.eqb_spec p 0); [lia|]. by rewrite Z.quot_small by lia. }
    rewrite Hq. cbn. rewrite Hv. cbn. eexists _, _. split; [done|]. split; [done|].
    unfold hmp_show. rewrite Ht, Hto, Hv. done.
Qed.
End tunables.

(** * Witnesses *)

Definition no_domains (s : sys) : list Z := [10].
Definition sample_table : list hmp_global_attr :=
  match hmp_attr_init (H := big_LITTLE_MP) no_domains sample_sys with Some (_, l) => l | None => [] end.
Definition sample_init : sys :=
  match hmp_attr_init (H := big_LITTLE_MP) no_domains sample_sys with Some (s, _) => s | None => sample_sys end.
Definition nth_attr (n : nat) : hmp_global_attr :=
  List.nth n sample_table (mk_attr EmptyString 0 None None None None).

Lemma sample_tunables_ok : tunables_ok sample_sys.
Proof. intros v. destruct v; vm_compute; intuition discriminate. Qed.

Lemma nth_attr_elem n : (n < 7)%nat -> nth_attr n ∈ sample_table.
Proof. intros Hn. apply list_elem_of_In, nth_In. exact Hn. Qed.

(** "800" is written to up_threshold, "9999" to down_threshold. *)
Lemma sysfs_tunables_ok_witness :
  exists s', sysfs_writes [(nth_attr 1, [56; 48; 48; 10], true); (nth_attr 2, [57; 57; 57; 57], true)]
               sample_init = Some s'
    /\ hmp_up_threshold (tun s') = 800 /\ hmp_down_threshold (tun s') = 512 /\ tunables_ok s'.
Proof.
  eexists. split; [vm_compute; reflexivity|]. split; [vm_compute; reflexivity|].
  split; [vm_compute; reflexivity|].
  apply (sysfs_tunables_ok (H := big_LITTLE_MP) no_domains sample_sys sample_init sample_table
           [(nth_attr 1, [56; 48; 48; 10], true); (nth_attr 2, [57; 57; 57; 57], true)]);
    [reflexivity | exact sample_tunables_ok | | vm_compute; reflexivity].
  repeat constructor; apply nth_attr_elem; lia.
Defined.

Lemma sysfs_read_write_witness :
  exists text, hmp_show (nth_attr 1) sample_sys = Some text
    /\ forall s', hmp_store (nth_attr 1) text true s'
                  = Some (write_value Up_threshold 700 s', Z.of_nat (length text)).
Proof.
  apply (sysfs_read_write (H := big_LITTLE_MP) no_domains sample_sys sample_init sample_table
           (nth_attr 1) Up_threshold sample_sys);
    [reflexivity | apply nth_attr_elem; lia | reflexivity | discriminate | exact sample_tunables_ok].
Defined.

Lemma load_avg_period_exact_witness :
  exists s' n, hmp_store (nth_attr 3) (sprintf_d 64) true sample_sys = Some (s', n)
    /\ read_value Multiplier s' = 2097152 / 64 /\ hmp_show (nth_attr 3) s' = Some (sprintf_d 64).
Proof.
  apply (load_avg_period_exact (H := big_LITTLE_MP) no_domains sample_sys sample_init sample_table);
    [reflexivity | apply nth_attr_elem; lia | reflexivity | lia].
Defined.

Lemma load_avg_period_faults_witness :
  hmp_store (nth_attr 3) [48; 10] true sample_sys = None.
Proof.
  apply (load_avg_period_faults (H := big_LITTLE_MP) no_domains sample_sys sample_init sample_table
           (nth_attr 3) sample_sys [48; 10] 0);
    [reflexivity | apply nth_attr_elem; lia | reflexivity | reflexivity | reflexivity].
Defined.
