(* ===== verification/FreqScale.v ===== *)
(** Frequency-invariant load: the cpufreq notifiers that keep each CPU's load scale,
    its current frequency relative to the maximum with 1024 for 1.0
    ([kernel/sched/fair.c], [cpufreq_calc_scale] to
    [register_sched_cpufreq_notifier], without CONFIG_SCHED_HMP_ENHANCEMENT). *)

From Stdlib Require Import String.
From S2P Require Import Prelude Pelt SchedTypes EntityLoad.

Definition CPUFREQ_INCOMPATIBLE : Z := 1.
Definition CPUFREQ_START : Z := 3.
Definition CPUFREQ_POSTCHANGE : Z := 1.
Definition CPUFREQ_CONST_LOOPS : Z := 2.
Definition SCHED_LOAD_FREQINVAR_SINGLEFREQ : Z := 1.

(** [struct cpufreq_freqs] and the fields of [struct cpufreq_policy] that are read;
    frequencies in kHz. *)
Record cpufreq_freqs := mk_freqs {
  freq_cpu : Z;
  freq_new : Z;
  freq_flags : Z;
}.
Record cpufreq_policy := mk_policy {
  policy_cpus : cpumask;
  policy_min : Z;
  policy_max : Z;
  policy_cur : Z;
  policy_governor : string;
}.

(** [None] stands for a division by zero. *)
Definition cpufreq_calc_scale (min max curr : Z) : option Z :=
  if max =? 0 then None else Some (u32 (curr / max)).

Definition upd_extents (cpu : Z) (f : cpufreq_extents -> cpufreq_extents) (s : sys) : sys :=
  s <| freq_scale := <[cpu := f (freq_scale s cpu)]> (freq_scale s) |>.

Definition freqinvar (s : sys) : bool := nonzero (freqinvar_load_scale_enabled (hmp_data (tun s))).
Definition single_freq (e : cpufreq_extents) : bool :=
  nonzero (Z.land (ext_flags e) SCHED_LOAD_FREQINVAR_SINGLEFREQ).

(** Called when the CPU frequency is changed, once for each CPU. *)
Definition cpufreq_callback (val : Z) (freq : cpufreq_freqs) (s : sys) : option sys :=
  let cpu := freq_cpu freq in
  if nonzero (Z.land (freq_flags freq) CPUFREQ_CONST_LOOPS) then Some s
  else if negb (val =? CPUFREQ_POSTCHANGE) then Some s
  else if negb (freqinvar s) then Some (upd_extents cpu (fun e => e <| curr_scale := 1024 |>) s)
  else if single_freq (freq_scale s cpu)
  then Some (upd_extents cpu (fun e => e <| curr_scale := 1024 |>) s)
  else
    scale ← cpufreq_calc_scale (ext_min (freq_scale s cpu)) (ext_max (freq_scale s cpu)) (freq_new freq);
    Some (upd_extents cpu (fun e => e <| curr_scale := scale |>) s).

(** The governors recognised as single-frequency. *)
Definition single_freq_governor (name : string) : bool :=
  String.prefix "performance" name || String.prefix "powersave" name.

(** The body of the loop over the policy's CPUs. *)
Definition policy_cpu (policy : cpufreq_policy) (cpu : Z) (s : sys) : option sys :=
  let s := upd_extents cpu (fun e => e <| ext_max := Z.shiftr (policy_max policy) SCHED_FREQSCALE_SHIFT |>) s in
  let s := upd_extents cpu (fun e => e <| ext_min := Z.shiftr (policy_min policy) SCHED_FREQSCALE_SHIFT |>) s in
  if negb (freqinvar s) then Some (upd_extents cpu (fun e => e <| curr_scale := 1024 |>) s)
  else if single_freq_governor (policy_governor policy) then
    let s := upd_extents cpu (fun e => e <| ext_flags :=
               Z.lor (ext_flags e) SCHED_LOAD_FREQINVAR_SINGLEFREQ |>) s in
    Some (upd_extents cpu (fun e => e <| curr_scale := 1024 |>) s)
  else
    let s := upd_extents cpu (fun e => e <| ext_flags :=
               Z.land (ext_flags e) (u32 (Z.lnot SCHED_LOAD_FREQINVAR_SINGLEFREQ)) |>) s in
    scale ← cpufreq_calc_scale (ext_min (freq_scale s cpu)) (ext_max (freq_scale s cpu))
              (policy_cur policy);
    Some (upd_extents cpu (fun e => e <| curr_scale := scale |>) s).

Fixpoint policy_cpus_loop (policy : cpufreq_policy) (l : list Z) (s : sys) : option sys :=
  match l with
  | [] => Some s
  | cpu :: l => s ← policy_cpu policy cpu s; policy_cpus_loop policy l s
  end.

Section freq.
Context `{Config}.

(** Called when the CPUFreq governor is changed. *)
Definition cpufreq_policy_callback (event : Z) (policy : cpufreq_policy) (s : sys) : option sys :=
  if event =? CPUFREQ_START then Some s
  else if negb (event =? CPUFREQ_INCOMPATIBLE) then Some s
  else policy_cpus_loop policy (cpus_of (policy_cpus policy)) s.

(** The safe defaults; the notifiers are registered afterwards. *)
Definition register_sched_cpufreq_notifier (s : sys) : sys :=
  foldl (fun s cpu =>
    let s := upd_extents cpu (fun e => e <| ext_max := 1024 |>) s in
    let s := upd_extents cpu (fun e => e <| ext_min := 1024 |>) s in
    upd_extents cpu (fun e => e <| curr_scale := 1024 |>) s) s cpu_ids.

(** * The scale never exceeds 1.0 *)

(** The maxima for which [curr / (max >> 10)] does not exceed 1024. *)
Definition fits (max : Z) : Prop := 0 <= max mod 1024 < max / 1024.

Lemma scale_fits max curr :
  fits max -> 0 <= curr <= max -> 0 < max / 1024 /\ 0 <= curr / (max / 1024) <= 1024.
Proof.
  intros [Hr Hq] Hc. assert (0 < max / 1024) by lia. split; [done|].
  split; [by apply Z.div_pos; lia|].
  pose proof (Z.div_mod max 1024 ltac:(lia)).
  apply Z.lt_succ_r, Z.div_lt_upper_bound; nia.
Qed.

(** What the cpufreq core does: it announces policies and frequencies, and user space
    toggles the scaling. *)
Inductive freq_event :=
| PolicyEvent (event : Z) (policy : cpufreq_policy)
| TransitionEvent (val : Z) (freq : cpufreq_freqs)
| ToggleEvent (on : Z).

Definition run_event (e : freq_event) (s : sys) : option sys :=
  match e with
  | PolicyEvent event policy => cpufreq_policy_callback event policy s
  | TransitionEvent val freq => cpufreq_callback val freq s
  | ToggleEvent on =>
      Some (s <| tun := tun s <| hmp_data := hmp_data (tun s) <| freqinvar_load_scale_enabled := on |> |> |>)
  end.

Fixpoint run_events (es : list freq_event) (s : sys) : option sys :=
  match es with
  | [] => Some s
  | e :: es => s ← run_event e s; run_events es s
  end.

(** [limit] is the maximum of the policy last announced for each CPU. *)
Definition next_limit (e : freq_event) (limit : Z -> Z) : Z -> Z :=
  match e with
  | PolicyEvent event policy =>
      if event =? CPUFREQ_INCOMPATIBLE
      then fun c => if bool_decide (c ∈ cpus_of (policy_cpus policy)) then policy_max policy else limit c
      else limit
  | _ => limit
  end.

(** Frequencies stay within the policy, and the policy's maximum fits. *)
Definition freq_event_ok (limit : Z -> Z) (e : freq_event) : Prop :=
  match e with
  | PolicyEvent event policy =>
      event = CPUFREQ_INCOMPATIBLE ->
      fits (policy_max policy) /\ 0 <= policy_cur policy <= policy_max policy
  | TransitionEvent _ freq => 0 <= freq_cpu freq < NR_CPUS /\ 0 <= freq_new freq <= limit (freq_cpu freq)
  | ToggleEvent _ => True
  end.

Fixpoint events_ok (limit : Z -> Z) (es : list freq_event) : Prop :=
  match es with
  | [] => True
  | e :: es => freq_event_ok limit e /\ events_ok (next_limit e limit) es
  end.

Record extents_ok (limit : Z) (e : cpufreq_extents) : Prop := {
  ex_fits : fits limit;
  ex_max : ext_max e = limit / 1024;
  ex_scale : 0 <= curr_scale e <= 1024;
}.
Definition freq_ok (limit : Z -> Z) (s : sys) : Prop :=
  forall c, 0 <= c < NR_CPUS -> extents_ok (limit c) (freq_scale s c).

Lemma freq_scale_upd c f s d :
  freq_scale (upd_extents c f s) d = if decide (c = d) then f (freq_scale s d) else freq_scale s d.
Proof.
  unfold upd_extents. simpl. case_decide as E; [rewrite E; apply fn_lookup_insert|by apply fn_lookup_insert_ne].
Qed.

Lemma calc_scale_ok min limit curr :
  fits limit -> 0 <= curr <= limit ->
  exists r, cpufreq_calc_scale min (limit / 1024) curr = Some r /\ 0 <= r <= 1024.
Proof.
  intros Hf Hc. destruct (scale_fits limit curr Hf Hc) as [Hq Hr]. unfold cpufreq_calc_scale.
  destruct (Z.eqb_spec (limit / 1024) 0); [lia|]. eexists. split; [done|]. by rewrite u32_id by lia.
Qed.

Lemma policy_cpu_ok policy c s :
  fits (policy_max policy) -> 0 <= policy_cur policy <= policy_max policy ->
  exists s', policy_cpu policy c s = Some s'
    /\ extents_ok (policy_max policy) (freq_scale s' c)
    /\ (forall d, d <> c -> freq_scale s' d = freq_scale s d)
    /\ tun s' = tun s /\ nr_cpu_ids s' = nr_cpu_ids s.
Proof.
  intros Hf Hc. unfold policy_cpu. cbv zeta.
  rewrite (shiftr_div (policy_max policy)) by done. change (2 ^ SCHED_FREQSCALE_SHIFT) with 1024.
  repeat (case_match; [eexists; split; [done|];
    split; [split; [done|rewrite !freq_scale_upd; by rewrite !decide_True..]|];
    split; [intros d Hd; rewrite !freq_scale_upd; by rewrite !decide_False|done]|]).
  match goal with |- context [cpufreq_calc_scale ?m ?x ?c] =>
    replace x with (policy_max policy / 1024) by (rewrite !freq_scale_upd; by rewrite !decide_True);
    destruct (calc_scale_ok m _ c Hf Hc) as (r & -> & Hr) end.
  cbn [mbind option_bind]. eexists. split; [done|].
  split; [split; [done|rewrite !freq_scale_upd; by rewrite !decide_True..]|].
  split; [intros d Hd; rewrite !freq_scale_upd; by rewrite !decide_False|done].
Qed.

Lemma policy_loop_ok policy l s :
  fits (policy_max policy) -> 0 <= policy_cur policy <= policy_max policy ->
  exists s', policy_cpus_loop policy l s = Some s'
    /\ (forall c, c ∈ l -> extents_ok (policy_max policy) (freq_scale s' c))
    /\ (forall c, c ∉ l -> freq_scale s' c = freq_scale s c)
    /\ nr_cpu_ids s' = nr_cpu_ids s.
Proof.
  intros Hf Hc. revert s. induction l as [|c l IH]; intros s; cbn [policy_cpus_loop].
  { exists s. split_and!; [done|set_solver|done|done]. }
  destruct (policy_cpu_ok policy c s Hf Hc) as (s1 & -> & E1 & O1 & _ & N1). cbn [mbind option_bind].
  destruct (IH s1) as (s2 & -> & E2 & O2 & N2). exists s2. split; [done|]. split; [|split; [|congruence]].
  - intros d [->|Hd]%elem_of_cons; [|by apply E2].
    destruct (decide (c ∈ l)); [by apply E2|by rewrite O2].
  - intros d [Hd Hl]%not_elem_of_cons. by rewrite O2, O1.
Qed.

Lemma run_event_ok limit e s :
  freq_ok limit s -> freq_event_ok limit e ->
  exists s', run_event e s = Some s' /\ freq_ok (next_limit e limit) s' /\ nr_cpu_ids s' = nr_cpu_ids s.
Proof.
  intros Hs He. destruct e as [event policy|val freq|on]; cbn in *.
  - unfold cpufreq_policy_callback. destruct (Z.eqb_spec event CPUFREQ_START) as [->|_]; [eauto|].
    destruct (Z.eqb_spec event CPUFREQ_INCOMPATIBLE) as [E|_]; cbn [negb]; [|eauto].
    destruct (He E) as [Hf Hc].
    destruct (policy_loop_ok policy (cpus_of (policy_cpus policy)) s Hf Hc) as (s' & -> & E1 & O1 & N1).
    exists s'. split; [done|]. split; [|done]. intros c Hc'. case_bool_decide; [by apply E1|].
    rewrite O1 by done. by apply Hs.
  - destruct He as [Hr Hn]. destruct (Hs _ Hr) as [Hf Hm Hsc]. unfold cpufreq_callback.
    assert (Hset : forall r, 0 <= r <= 1024 -> freq_ok limit
              (upd_extents (freq_cpu freq) (fun e => e <| curr_scale := r |>) s)).
    { intros r Hr0 d Hd. rewrite freq_scale_upd. case_decide as E; [|by apply Hs].
      destruct (Hs d Hd) as [F M S]. split; done. }
    repeat (case_match; [eexists; split; [done|]; split; [by auto; apply Hset; lia|done]|]).
    rewrite Hm. destruct (calc_scale_ok (ext_min (freq_scale s (freq_cpu freq))) _ _ Hf Hn) as (r & -> & Hr').
    cbn. eexists. split; [done|]. split; [by apply Hset|done].
  - eauto.
Qed.

Lemma register_ok s :
  freq_ok (fun _ => 1048576) (register_sched_cpufreq_notifier s)
  /\ nr_cpu_ids (register_sched_cpufreq_notifier s) = nr_cpu_ids s.
Proof.
  unfold register_sched_cpufreq_notifier.
  assert (G : forall l s, let s' := foldl (fun s cpu =>
      upd_extents cpu (fun e => e <| curr_scale := 1024 |>)
        (upd_extents cpu (fun e => e <| ext_min := 1024 |>)
           (upd_extents cpu (fun e => e <| ext_max := 1024 |>) s))) s l in
    (forall c, c ∈ l \/ extents_ok 1048576 (freq_scale s c) -> extents_ok 1048576 (freq_scale s' c))
    /\ nr_cpu_ids s' = nr_cpu_ids s).
  { clear s. intros l. induction l as [|d l IH]; intros s; cbn [foldl].
    - split; [|done]. intros c [Hc|Hc]; [set_solver|done].
    - destruct (IH (upd_extents d (fun e => e <| curr_scale := 1024 |>)
        (upd_extents d (fun e => e <| ext_min := 1024 |>)
           (upd_extents d (fun e => e <| ext_max := 1024 |>) s)))) as [I1 I2].
      split; [|done]. intros c Hc. apply I1. rewrite !freq_scale_upd.
      destruct (decide (d = c)) as [->|]; [right; by split|]. set_solver. }
  destruct (G cpu_ids s) as [G1 G2]. split; [|done]. intros c Hc. apply G1. left. by apply elem_of_cpu_ids.
Qed.

(** Frequency-invariant scaling never scales load up.  From the defaults set at
    registration, through any sequence of policy and frequency notifications and
    toggles of the feature (with frequencies within the announced policy, whose
    maximum fits), no notifier divides by zero and the load scale of every CPU stays
    within 0..1024, which is what the load averages rely on. *)
Theorem freq_scale_bounded s es :
  CONFIG_HMP_FREQUENCY_INVARIANT_SCALE = true ->
  events_ok (fun _ => 1048576) es -> nr_cpu_ids s <= NR_CPUS ->
  exists s', run_events es (register_sched_cpufreq_notifier s) = Some s' /\ scales_ok s'.
Proof.
  intros Hcfg He Hn. destruct (register_ok s) as [Hs Hi]. rewrite <- Hi in Hn. clear Hi.
  revert He Hs Hn. generalize (fun _ : Z => 1048576) as limit.
  generalize (register_sched_cpufreq_notifier s) as s0. clear s.
  induction es as [|e es IH]; intros s limit He Hs Hn; cbn [run_events].
  - exists s. split; [done|]. intros c. unfold load_scale. rewrite Hcfg.
    destruct (Z.leb_spec 0 c); simpl; [|lia]. destruct (Z.ltb_spec c (nr_cpu_ids s)); simpl; [|lia].
    case_match; [|lia]. apply (Hs c). lia.
  - destruct He as [He Hes]. destruct (run_event_ok limit e s Hs He) as (s1 & -> & H1 & N1).
    cbn [mbind option_bind]. apply (IH s1 (next_limit e limit)); [done|done|congruence].
Qed.

(** Policies whose maximum does not fit.  At the maximum frequency of a policy of
    at least 1024 kHz the scale exceeds 1.0 exactly if the remainder of the maximum
    modulo 1024 is at least the quotient (for instance 300 MHz), and a maximum below
    1024 kHz divides by zero. *)
Theorem freq_scale_exceeds policy c s :
  freqinvar s = true -> single_freq_governor (policy_governor policy) = false ->
  policy_cur policy = policy_max policy -> 0 <= policy_max policy < 2 ^ 32 ->
  (policy_max policy < 1024 -> policy_cpu policy c s = None)
  /\ (1024 <= policy_max policy -> exists s', policy_cpu policy c s = Some s'
        /\ (1024 < curr_scale (freq_scale s' c) <-> ~ fits (policy_max policy))).
Proof.
  intros Hi Hg Hc Hb. unfold policy_cpu. cbv zeta.
  change (freqinvar (upd_extents _ _ _)) with (freqinvar s). rewrite Hi, Hg. cbn [negb].
  rewrite (shiftr_div (policy_max policy)) by done. change (2 ^ SCHED_FREQSCALE_SHIFT) with 1024.
  match goal with |- context [cpufreq_calc_scale ?m ?x ?c] =>
    replace x with (policy_max policy / 1024) by (rewrite !freq_scale_upd; by rewrite !decide_True) end.
  rewrite Hc. set (m := policy_max policy) in *. unfold cpufreq_calc_scale. split.
  - intros Hlt. by rewrite (Z.div_small m 1024) by lia.
  - intros Hge. assert (Hq : 1 <= m / 1024) by (by apply Z.div_le_lower_bound).
    destruct (Z.eqb_spec (m / 1024) 0); [lia|]. cbn [mbind option_bind]. eexists. split; [done|].
    rewrite freq_scale_upd, decide_True by done. simpl.
    pose proof (div_le_self m (m / 1024) ltac:(lia) ltac:(lia)). rewrite u32_id by lia.
    pose proof (Z.div_mod m 1024 ltac:(lia)) as Hd. pose proof (Z.mod_pos_bound m 1024 ltac:(lia)).
    unfold fits. rewrite <- Z.le_succ_l. change (Z.succ 1024) with 1025. split.
    + intros Hs Hf. assert (m / (m / 1024) < 1025) by (apply Z.div_lt_upper_bound; nia). lia.
    + intros Hf. apply Z.div_le_lower_bound; [lia|]. nia.
Qed.
End freq.

(** * Witnesses *)

(** A policy of 0.5 to 1.2 GHz on the big cluster, a change to 0.6 GHz, and the feature
    switched off and on. *)
Definition ondemand : cpufreq_policy := mk_policy 15 500000 1200000 500000 "ondemand".
Definition sample_events : list freq_event :=
  [PolicyEvent 1 ondemand; TransitionEvent 1 (mk_freqs 2 600000 0); ToggleEvent 0; ToggleEvent 1].

Lemma freq_scale_bounded_witness :
  exists s', run_events (H := big_LITTLE_MP) sample_events
               (register_sched_cpufreq_notifier (H := big_LITTLE_MP) sample_sys) = Some s'
             /\ scales_ok (H := big_LITTLE_MP) s'.
Proof.
  apply (freq_scale_bounded (H := big_LITTLE_MP) sample_sys sample_events); [reflexivity|..];
    vm_compute; intuition discriminate.
Defined.

Lemma freq_scale_exceeds_witness :
  exists s', policy_cpu (mk_policy 240 100000 300000 300000 "interactive") 4 sample_sys = Some s'
             /\ 1024 < curr_scale (freq_scale s' 4).
Proof.
  destruct (freq_scale_exceeds (mk_policy 240 100000 300000 300000 "interactive") 4 sample_sys)
    as [_ Hx]; [reflexivity..|vm_compute; intuition discriminate|].
  destruct Hx as (s' & E & Hi); [vm_compute; discriminate|].
  exists s'. split; [exact E|]. apply Hi. intros [_ Hf]. vm_compute in Hf. discriminate.
Defined.
