(* ===== verification/HmpMigration.v ===== *)
(** HMP migrations: moving a task between run queues, the periodic check that forces
    tasks up or down, the idle pull of a big CPU and the CPU stopper that moves a
    running task ([kernel/sched/fair.c], [migrate_task_rq_fair], [move_task],
    [__do_active_load_balance_cpu_stop] and [hmp_idle_pull_cpu_stop] to
    [run_rebalance_domains]; [set_task_cpu], [activate_task] and [deactivate_task] of
    [kernel/sched/core.c]).

    A run queue is named by its CPU.  [None] stands for a kernel that stopped in
    [BUG_ON] or on a NULL pointer.  The locks are not modelled, except
    [hmp_force_migration], which is only tried: each function is one atomic step. *)

From S2P Require Import Prelude Spinlock Pelt SchedTypes EntityLoad HmpDomain HmpSelect Cfs CfsInv.

Section migration.
Context `{Config}.
Implicit Types (s : sys) (cpu : Z).

(** * Moving a task *)

Definition nohz_test_cpu cpu s : bool := cpumask_test_cpu cpu (nohz_idle_cpus_mask s).

Definition migrate_task_rq_fair (p : Z) s : sys :=
  let se := TaskSe p in
  let q := cfs_rq_of s se in
  if nonzero (decay_count (se_avg (ses s se))) then
    let s :=
      if negb (nonzero (on_rq (ses s se))) && nohz_test_cpu (task_cpu (tasks s p)) s
      then update_cfs_rq_blocked_load q false (update_rq_clock (task_cpu (tasks s p)) s)
      else s in
    let '(s, decays) := __synchronize_entity_decay se s in
    let s := upd_avg se (fun a => a <| decay_count := s64 (- decays) |>) s in
    upd_cfs q (fun c => c <| removed_load := u64 (removed_load c
                                                  + load_avg_contrib (se_avg (ses s se))) |>) s
  else s.

(** Statistics and notifiers have no effect on the scheduler. *)
Definition set_task_cpu (p new_cpu : Z) s : sys :=
  let s := if negb (task_cpu (tasks s p) =? new_cpu) then migrate_task_rq_fair p s else s in
  __set_task_cpu p new_cpu s.

Definition deactivate_task cpu (p flags : Z) s : sys :=
  dequeue_task_fair cpu p flags (update_rq_clock cpu s).
Definition activate_task cpu (p flags : Z) s : sys :=
  enqueue_task_fair cpu p flags (update_rq_clock cpu s).

Definition move_task (p src dst : Z) s : sys :=
  let s := deactivate_task src p 0 s in
  let s := set_task_cpu p dst s in
  let s := activate_task dst p 0 s in
  check_preempt_curr dst p 0 s.

(** Cache hotness only selects which statistic is incremented. *)
Definition hmp_can_migrate_task (p dst : Z) s : bool :=
  cpumask_test_cpu dst (tsk_cpus_allowed s p) && negb (nonzero (on_cpu (tasks s p))).

(** Without CONFIG_CFS_BANDWIDTH no task is throttled. *)
Definition move_specific_task (src dst pm : Z) s : sys * bool :=
  match List.find (fun p => hmp_can_migrate_task p dst s && (p =? pm)) (cfs_tasks (rqs s src)) with
  | Some p => (move_task p src dst s, true)
  | None => (s, false)
  end.

(** [for_each_domain(dst, sd)] found one that spans [src]. *)
Definition spanning_domain (src dst : Z) s : bool :=
  List.existsb (fun sd => cpumask_test_cpu src (sd_span sd)) (rq_sd (rqs s dst)).

Definition get_task_struct (p : Z) s : sys :=
  upd_task p (fun t => t <| task_usage := task_usage t + 1 |>) s.
(** The last reference frees the task: [atomic_dec_and_test], then [__put_task_struct]. *)
Definition put_task_struct (p : Z) s : sys :=
  upd_task p (fun t =>
    let t := t <| task_usage := task_usage t - 1 |> in
    if task_usage t =? 0 then t <| task_freed := true |> else t) s.

(** * The CPU stopper *)

(** [__do_active_load_balance_cpu_stop(busiest_rq, false)], run on [this_cpu]. *)
Definition hmp_active_task_migration_cpu_stop (busiest_cpu this_cpu : Z) s : option sys :=
  p ← migrate_task (rqs s busiest_cpu);
  let target_cpu := push_cpu (rqs s busiest_cpu) in
  let out s :=
    put_task_struct p (upd_rq busiest_cpu (fun r => r <| active_balance := 0 |>) s) in
  if negb (busiest_cpu =? this_cpu) || negb (nonzero (active_balance (rqs s busiest_cpu)))
  then Some (out s)
  else if rq_nr_running (rqs s busiest_cpu) <=? 1 then Some (out s)
  else if negb (task_cpu (tasks s p) =? busiest_cpu) then Some (out s)
  else if busiest_cpu =? target_cpu then None
  else Some (out (if spanning_domain busiest_cpu target_cpu s
                  then (move_specific_task busiest_cpu target_cpu p s).1 else s)).

(** The same steps; only the order of the two writes at the end differs. *)
Definition hmp_idle_pull_cpu_stop (busiest_cpu this_cpu : Z) s : option sys :=
  p ← migrate_task (rqs s busiest_cpu);
  let target_cpu := push_cpu (rqs s busiest_cpu) in
  let out s :=
    upd_rq busiest_cpu (fun r => r <| active_balance := 0 |>) (put_task_struct p s) in
  if negb (busiest_cpu =? this_cpu) || negb (nonzero (active_balance (rqs s busiest_cpu)))
  then Some (out s)
  else if rq_nr_running (rqs s busiest_cpu) <=? 1 then Some (out s)
  else if negb (task_cpu (tasks s p) =? busiest_cpu) then Some (out s)
  else if busiest_cpu =? target_cpu then None
  else Some (out (if spanning_domain busiest_cpu target_cpu s
                  then (move_specific_task busiest_cpu target_cpu p s).1 else s)).

(** A disabled stopper drops the work; nobody waits for it, so that only [stop_refused] knows. *)
Definition cpu_stop_refuse cpu s : sys :=
  s <| stop_refused := (cpu, migrate_task (rqs s cpu)) :: stop_refused s |>.
Definition cpu_stop_queue_work cpu s : sys :=
  if stopper_enabled s cpu then s <| stop_works := stop_works s ++ [cpu] |> else cpu_stop_refuse cpu s.

(** Whether the work could not be queued. *)
Definition __cpu_stop_dispatch_work cpu s : sys * bool :=
  if stopper_enabled s cpu then (s <| stop_works := stop_works s ++ [cpu] |>, false)
  else (cpu_stop_refuse cpu s, true).

(** The [if (force)] block; returns [force]. *)
Definition stop_target cpu s : sys * bool :=
  if CONFIG_HMP_PACK_STOP_MACHINE then
    let '(s, failed) := __cpu_stop_dispatch_work cpu s in
    if failed then (upd_rq cpu (fun r => r <| active_balance := 0 |>) s, false) else (s, true)
  else (cpu_stop_queue_work cpu s, true).

(** * Forced migration *)

Definition hmp_migrate_runnable_task (src_cpu : Z) s : option sys :=
  let dst_cpu := push_cpu (rqs s src_cpu) in
  p ← migrate_task (rqs s src_cpu);
  if nonzero (active_balance (rqs s src_cpu)) then Some (put_task_struct p s)
  else if rq_nr_running (rqs s src_cpu) <=? 1 then Some (put_task_struct p s)
  else if negb (task_cpu (tasks s p) =? src_cpu) then Some (put_task_struct p s)
  else if src_cpu =? dst_cpu then None
  else Some (put_task_struct p (if spanning_domain src_cpu dst_cpu s
                                then (move_specific_task src_cpu dst_cpu p s).1 else s)).

(** The task running on a CPU, down the hierarchy from the root's [curr]. *)
Fixpoint curr_task (fuel : nat) (se : se_id) s : option se_id :=
  match my_q (ses s se), fuel with
  | Some q, S fuel => c ← curr (cfss s q); curr_task fuel c s
  | Some _, O => None
  | None, _ => Some se
  end.

(** Moves [p] off [cpu] now if it is not running, else through the stopper; the flag
    is [force]. *)
Definition push_or_stop cpu (p : Z) s : option (sys * bool) :=
  if negb (nonzero (on_cpu (tasks s p))) then
    s ← hmp_migrate_runnable_task cpu s; Some (s, false)
  else Some (stop_target cpu (upd_rq cpu (fun r => r <| active_balance := 1 |>) s)).

(** The body of the loop of [hmp_force_up_migration]; the flag is set when the function
    returns. *)
Definition force_up_cpu (this_cpu cpu : Z) s : option (sys * bool) :=
  match curr (cfss s (CfsRq 0 cpu)) with
  | None => Some (s, false)
  | Some c =>
      if nonzero (active_balance (rqs s cpu)) then Some (s, false)
      else
        orig ← curr_task (nr_groups s) c s;
        match hmp_get_heaviest_task orig (-1) s with
        | None => Some (s, false)
        | Some heavy =>
            let p := task_of heavy in
            match hmp_up_migration cpu heavy s with
            | Some target_cpu =>
                if CONFIG_HMP_DELAY_UP_MIGRATION then
                  let s := upd_rq target_cpu (fun r => r <| wake_for_idle_pull := 1 |>) s in
                  Some (s <| resched_ipis := target_cpu :: resched_ipis s |>, true)
                else
                  let s :=
                    if negb (nonzero (active_balance (rqs s cpu)))
                       && (task_cpu (tasks s p) =? cpu) then
                      let s := get_task_struct p s in
                      let s := upd_rq cpu (fun r => r <| push_cpu := this_cpu |>) s in
                      let s := upd_rq cpu (fun r => r <| migrate_task := Some p |>) s in
                      hmp_next_up_delay (TaskSe p) (push_cpu (rqs s cpu)) s
                    else s in
                  '(s, _) ← push_or_stop cpu p s; Some (s, true)
            | None =>
                let light := hmp_get_lightest_task orig true s in
                let p := task_of light in
                let dest := hmp_offload_down cpu light s in
                let s := upd_rq cpu (fun r => r <| push_cpu := dest |>) s in
                if push_cpu (rqs s cpu) <? NR_CPUS then
                  let s := get_task_struct p s in
                  let s := upd_rq cpu (fun r => r <| migrate_task := Some p |>) s in
                  let s := hmp_next_down_delay (TaskSe p) (push_cpu (rqs s cpu)) s in
                  '(s, _) ← push_or_stop cpu p s; Some (s, false)
                else Some (s, false)
            end
        end
  end.

Fixpoint force_up_cpus (this_cpu : Z) (l : list Z) s : option sys :=
  match l with
  | [] => Some s
  | cpu :: l =>
      '(s, ret) ← force_up_cpu this_cpu cpu s;
      if ret : bool then Some s else force_up_cpus this_cpu l s
  end.

(** [spin_trylock(&hmp_force_migration)] and [spin_unlock(&hmp_force_migration)] *)
Definition trylock_force s : option sys :=
  let '(l, won) := arch_spin_trylock (hmp_force_migration s) in
  if won then Some (s <| hmp_force_migration := l |>) else None.
Definition unlock_force s : sys :=
  s <| hmp_force_migration := arch_spin_unlock (hmp_force_migration s) |>.

(** Without CONFIG_SCHED_HMP_ENHANCEMENT. *)
Definition hmp_force_up_migration (this_cpu : Z) s : option sys :=
  match trylock_force s with
  | None => Some s
  | Some s =>
      s ← force_up_cpus this_cpu (cpus_of (cpu_online_mask s)) s; Some (unlock_force s)
  end.

(** * Idle pull *)

(** The search for the heaviest task that may be pulled: the loop body; the state is the
    candidate's pid and CPU with its load ratio. *)
Definition idle_pull_step (this_cpu : Z) s (best : option (Z * Z) * Z) cpu :
    option (option (Z * Z) * Z) :=
  match curr (cfss s (CfsRq 0 cpu)) with
  | None => Some best
  | Some c =>
      orig ← curr_task (nr_groups s) c s;
      match hmp_get_heaviest_task orig this_cpu s with
      | Some se =>
          if hmp_task_eligible_for_up_migration se s && (best.2 <? se_ratio s se)
             && cpumask_test_cpu this_cpu (tsk_cpus_allowed s (task_of se))
          then Some (Some (task_of se, cpu), se_ratio s se) else Some best
      | None => Some best
      end
  end.

Fixpoint idle_pull_scan (this_cpu : Z) s (l : list Z) (best : option (Z * Z) * Z) :
    option (option (Z * Z) * Z) :=
  match l with
  | [] => Some best
  | cpu :: l => best ← idle_pull_step this_cpu s best cpu; idle_pull_scan this_cpu s l best
  end.

(** With CONFIG_HMP_DELAY_UP_MIGRATION; returns [force]. *)
Definition hmp_idle_pull (this_cpu : Z) s : option (sys * bool) :=
  if hmp_cpu_is_slowest this_cpu s then Some (s, false)
  else match trylock_force s with
  | None => Some (s, false)
  | Some s =>
    let hd := domains s (hmp_slower_domain this_cpu s) in
    '(best, _) ← idle_pull_scan this_cpu s (cpus_of (hd_cpus hd)) (None, 0);
    match best with
    | None => Some (unlock_force s, false)
    | Some (p, target) =>
        '(s, force) ←
          (if negb (nonzero (active_balance (rqs s target))) && (task_cpu (tasks s p) =? target) then
             let s := get_task_struct p s in
             let s := upd_rq target (fun r => r <| push_cpu := this_cpu |>) s in
             let s := upd_rq target (fun r => r <| migrate_task := Some p |>) s in
             let s := hmp_next_up_delay (TaskSe p) (push_cpu (rqs s target)) s in
             if negb (nonzero (on_cpu (tasks s p))) then
               s ← hmp_migrate_runnable_task target s; Some (s, false)
             else Some (upd_rq target (fun r => r <| active_balance := 1 |>) s, true)
           else Some (s, false));
        let '(s, force) :=
          if force : bool then stop_target target (hmp_cpu_keepalive_trigger this_cpu s)
          else (s, false) in
        Some (unlock_force s, force)
    end
  end.

(** The HMP part of [run_rebalance_domains]; the flag tells whether normal balancing
    follows. *)
Definition run_rebalance_domains (this_cpu : Z) s : option (sys * bool) :=
  let idle := nonzero (idle_balance (rqs s this_cpu)) in
  '(s, pulled) ←
    (if CONFIG_HMP_DELAY_UP_MIGRATION && nonzero (wake_for_idle_pull (rqs s this_cpu))
     then hmp_idle_pull this_cpu (upd_rq this_cpu (fun r => r <| wake_for_idle_pull := 0 |>) s)
     else Some (s, false));
  if pulled && negb idle then Some (s, false)
  else s ← hmp_force_up_migration this_cpu s; Some (s, true).

End migration.
