(* ===== verification/MigrationSafe.v ===== *)
(** Safety of HMP migrations: what moving a task leaves alone, the reference a pending
    migration holds on its task, and that no interleaving of balancing and CPU
    stoppers reaches a [BUG_ON]. *)

From S2P Require Import Prelude Spinlock Pelt SchedTypes EntityLoad HmpDomain HmpSelect Cfs CfsInv HmpMigration.

(** * What queueing operations leave alone

    Enqueueing, dequeueing and preemption do not touch the fields that pending
    migrations use, reference counts, which entity runs, or the topology. *)

Definition push_view (r : rq) : Z * option Z * Z :=
  (active_balance r, migrate_task r, push_cpu r).

(** What the HMP enhancement reads from [cfs.avg] as a load and as times of migrations. *)
Definition cfs_track (r : rq) : Z * Z * Z :=
  (cfs_load_avg_ratio (rq_cfs_avg r), cfs_last_up_migration (rq_cfs_avg r),
   cfs_last_down_migration (rq_cfs_avg r)).

Definition mig_view (r : rq) :=
  (push_view r, rq_sd r, (rq_lock r, rq_lb r, cfs_track r)).

Definition env_view (s : sys) :=
  ((stop_works s, stopper_enabled s, hmp_force_migration s, cpu_online_mask s),
   (nr_groups s, domains s, hmp_domains s, hmp_cpu_domain s),
   (hmp_fast_cpu_mask s, hmp_slow_cpu_mask s, bal s, enh s, tun s)).

(** The CPU and the group of a [cfs_rq]. *)
Definition cfs_home (c : cfs_rq) : Z * Z := (cfs_cpu c, cfs_tg c).
(** The place of a task group in the tree of groups. *)
Definition tg_home (t : task_group) : option Z * list Z := (tg_parent t, tg_children t).

(** [w] is the part of a [cfs_rq] that is left alone besides its home, [v] that of a run queue,
    [e] that of an entity, [g] that of a task. *)
Record still_on {W V E A} (w : cfs_rq -> W) (v : rq -> V) (e : sched_entity -> E) (g : task_struct -> A)
    (s s' : sys) : Prop := {
  st_rq : forall c, v (rqs s' c) = v (rqs s c);
  st_task : forall p, g (tasks s' p) = g (tasks s p);
  st_curr : forall q, curr (cfss s' q) = curr (cfss s q);
  st_se : forall i, e (ses s' i) = e (ses s i);
  st_env : env_view s' = env_view s;
  st_home : forall q, cfs_home (cfss s' q) = cfs_home (cfss s q);
  st_const : (sysctl s', sched_clock s') = (sysctl s, sched_clock s);
  st_tree : forall t, tg_home (tgs s' t) = tg_home (tgs s t);
  st_line : forall q, w (cfss s' q) = w (cfss s q);
  st_refused : stop_refused s' = stop_refused s;
  st_ipis : resched_ipis s' = resched_ipis s;
}.
Abbreviation still := (still_on cfs_home mig_view my_q (fun t => t)).
Definition life_view (t : task_struct) := (task_usage t, task_freed t).
Abbreviation still_usage := (still_on cfs_home mig_view my_q life_view).
(** The same, and no entity or task is put on or taken off a run queue. *)
Definition list_view (r : rq) := (mig_view r, cfs_tasks r).
Definition place_view (e : sched_entity) := (my_q e, on_rq e, se_cfs_rq e, se_parent e).
Abbreviation resting := (still_on tasks_timeline list_view place_view (fun t => t)).
(** The same, and no clock is read. *)
Definition clock_view (r : rq) := (list_view r, (rq_clock r, clock_task r)).
Abbreviation frozen := (still_on tasks_timeline clock_view place_view (fun t => t)).

#[export] Instance still_equiv {W V E A} (w : cfs_rq -> W) (v : rq -> V) (e : sched_entity -> E)
    (g : task_struct -> A) : Equivalence (still_on w v e g).
Proof.
  split.
  - by split.
  - intros s s' []. by split.
  - intros s1 s2 s3 [] []. split; intros; congruence.
Qed.

Lemma still_weaken {A} (g : task_struct -> A) s s' : still s s' -> still_on cfs_home mig_view my_q g s s'.
Proof. intros []. split; auto. intros. f_equal. auto. Qed.
Lemma resting_still s s' : resting s s' -> still s s'.
Proof.
  intros [Hr Ht Hc Hp He Hh]. split; auto; [intros c; exact (f_equal fst (Hr c))|].
  intros i. exact (f_equal (fun x => x.1.1.1) (Hp i)).
Qed.
Lemma frozen_resting s s' : frozen s s' -> resting s s'.
Proof. intros [Hr Ht Hc Hp]. split; auto. intros c. exact (f_equal fst (Hr c)). Qed.
(** The same as [frozen], except that entities may go to and from the timelines. *)
Abbreviation seated := (still_on cfs_home clock_view place_view (fun t => t)).
Lemma frozen_seated s s' : frozen s s' -> seated s s'.
Proof. intros []. by split. Qed.
Lemma seated_still s s' : seated s s' -> still s s'.
Proof.
  intros [Hr Ht Hc Hp He Hh]. split; auto; [intros c; exact (f_equal (fun x => x.1.1) (Hr c))|].
  intros i. exact (f_equal (fun x => x.1.1.1) (Hp i)).
Qed.
Lemma seated_rq s s' c :
  seated s s' -> cfs_tasks (rqs s' c) = cfs_tasks (rqs s c) /\ rq_clock (rqs s' c) = rq_clock (rqs s c).
Proof. intros [Hr]. split; [exact (f_equal (fun x => x.1.2) (Hr c))|exact (f_equal (fun x => x.2.1) (Hr c))]. Qed.
Lemma frozen_clock s s' c : frozen s s' -> clock_task (rqs s' c) = clock_task (rqs s c).
Proof. intros [Hr]. exact (f_equal (fun x => x.2.2) (Hr c)). Qed.
Lemma frozen_rq_clock s s' c : frozen s s' -> rq_clock (rqs s' c) = rq_clock (rqs s c).
Proof. intros [Hr]. exact (f_equal (fun x => x.2.1) (Hr c)). Qed.
Lemma resting_list s s' c : resting s s' -> cfs_tasks (rqs s' c) = cfs_tasks (rqs s c).
Proof. intros [Hr]. exact (f_equal snd (Hr c)). Qed.

Section updates.
Context {W V E : Type} (w : cfs_rq -> W) (v : rq -> V) (e : sched_entity -> E).
Abbreviation keeps := (still_on w v e (fun t => t)).

Lemma still_upd_se i f s : (forall x, e (f x) = e x) -> keeps s (upd_se i f s).
Proof.
  intros Hf. split; auto. intros j. destruct (decide (i = j)) as [->|]; autorewrite with store; auto.
Qed.
Lemma still_upd_avg i f s :
  (forall x, e (x <| se_avg := f (se_avg x) |>) = e x) -> keeps s (upd_avg i f s).
Proof. by apply still_upd_se. Qed.
Lemma still_upd_cfs q f s :
  (forall c, curr (f c) = curr c) -> (forall c, cfs_home (f c) = cfs_home c) -> (forall c, w (f c) = w c) ->
  keeps s (upd_cfs q f s).
Proof.
  intros Hf Hh Hw. split; auto; intros j; destruct (decide (q = j)) as [->|]; autorewrite with store; auto.
Qed.
Lemma still_upd_rq c f s : (forall r, v (f r) = v r) -> keeps s (upd_rq c f s).
Proof.
  intros Hf. split; auto. intros j. destruct (decide (c = j)) as [->|]; autorewrite with store; auto.
Qed.
Lemma still_upd_tg g f s : (forall t, tg_home (f t) = tg_home t) -> keeps s (upd_tg g f s).
Proof.
  intros Hf. split; auto. intros j. destruct (decide (g = j)) as [->|]; autorewrite with store; auto.
Qed.
Lemma still_foldl {A} (f : sys -> A -> sys) l s :
  (forall s x, keeps s (f s x)) -> keeps s (foldl f s l).
Proof.
  intros Hf. revert s. induction l as [|x l IH]; intros s; simpl; [done|].
  etransitivity; [apply Hf|apply IH].
Qed.
End updates.

Create HintDb still.
#[export] Hint Extern 2 (still_on _ _ _ _ _ (upd_tg _ _ _)) => apply still_upd_tg; intros; reflexivity : still.
#[export] Hint Extern 2 (still_on _ _ _ _ _ (upd_avg _ _ _)) =>
  apply still_upd_avg; intros; reflexivity : still.
#[export] Hint Extern 2 (still_on _ _ _ _ _ (upd_se _ _ _)) => apply still_upd_se; intros; reflexivity : still.
#[export] Hint Extern 2 (still_on _ _ _ _ _ (upd_cfs _ _ _)) =>
  apply still_upd_cfs; intros; repeat case_match; reflexivity : still.
#[export] Hint Extern 2 (still_on _ _ _ _ _ (upd_rq _ _ _)) =>
  apply still_upd_rq; intros; reflexivity : still.
#[export] Hint Extern 2 (still_on _ _ _ _ _ (upd_rq_avg _ _ _)) =>
  apply still_upd_rq; intros; reflexivity : still.
#[export] Hint Extern 2 (still_on _ _ _ _ _ (upd_hmp_cfs_avg _ _ _)) =>
  apply still_upd_rq; intros; reflexivity : still.
#[export] Hint Extern 4 (still_on cfs_home mig_view my_q _ _ _) => apply resting_still : still.
#[export] Hint Extern 4 (still_on tasks_timeline list_view place_view _ _ _) => apply frozen_resting : still.
#[export] Hint Extern 4 (still_on cfs_home clock_view place_view _ _ _) => apply frozen_seated : still.

(** Splits a chain of updates into its links, last first. *)
Ltac still_chain :=
  cbv zeta;
  repeat first
    [ reflexivity
    | etransitivity; [|solve [auto with still nocore]]
    | case_match ].

Section frames.
Context `{Config}.
Implicit Types (s : sys) (q : cfs_id) (i se : se_id).

(** ** Load tracking *)

Lemma still_subtract q x s : frozen s (subtract_blocked_load_contrib q x s).
Proof. unfold subtract_blocked_load_contrib. auto with still. Qed.
Hint Resolve still_subtract : still.
Lemma still_tg_load q b s : frozen s (__update_cfs_rq_tg_load_contrib q b s).
Proof. unfold __update_cfs_rq_tg_load_contrib. still_chain. Qed.
Hint Resolve still_tg_load : still.
Lemma still_blocked q b s : frozen s (update_cfs_rq_blocked_load q b s).
Proof. unfold update_cfs_rq_blocked_load. still_chain. Qed.
Lemma still_tg_runnable sa q s : frozen s (__update_tg_runnable_avg sa q s).
Proof. unfold __update_tg_runnable_avg. still_chain. Qed.
Lemma still_group_contrib i s : frozen s (__update_group_entity_contrib i s).
Proof. unfold __update_group_entity_contrib. still_chain. Qed.
Lemma still_task_contrib i s : frozen s (__update_task_entity_contrib i s).
Proof. unfold __update_task_entity_contrib. still_chain. Qed.
Hint Resolve still_blocked still_tg_runnable still_group_contrib still_task_contrib : still.

Lemma still_entity_contrib i s : frozen s (__update_entity_load_avg_contrib i s).1.1.
Proof. unfold __update_entity_load_avg_contrib. cbv zeta. cbn [fst]. still_chain. Qed.
Lemma still_task_ratio i s : frozen s (__update_task_entity_ratio i s).1.
Proof. unfold __update_task_entity_ratio. case_match; cbv zeta; cbn [fst]; still_chain. Qed.
Lemma still_synchronize i s : frozen s (__synchronize_entity_decay i s).1.
Proof. unfold __synchronize_entity_decay. cbv zeta. cbn [fst]. still_chain. Qed.
Hint Resolve still_synchronize : still.

Lemma still_update_load i b s : frozen s (update_entity_load_avg i b s).
Proof.
  unfold update_entity_load_avg. cbv zeta. destruct (update_avg _ _ _ _ _ _) as [sa d].
  set (s1 := upd_avg i (fun _ => sa) s).
  assert (S1 : frozen s s1) by (by apply still_upd_avg). clearbody s1.
  destruct (negb d); [done|]. pose proof (still_entity_contrib i s1) as S2.
  destruct (__update_entity_load_avg_contrib i s1) as [[s2 cd] rd]. cbn [fst] in S2.
  set (p := if CONFIG_SCHED_HMP_ENHANCEMENT && _ then _ else _).
  assert (S3 : frozen s2 p.1) by (unfold p; case_match; [apply still_task_ratio|done]).
  clearbody p. destruct p as [s3 rd3]. cbn [fst] in S3.
  transitivity s3; [by rewrite S1, S2|]. clear S1 S2 S3. still_chain.
Qed.
Hint Resolve still_update_load : still.

Lemma still_rq_runnable c b s : frozen s (update_rq_runnable_avg c b s).
Proof. unfold update_rq_runnable_avg. cbv zeta. destruct (update_avg _ _ _ _ _ _). still_chain. Qed.

Lemma still_enqueue_sync q i w s : frozen s (enqueue_sync q i w s).1.
Proof.
  unfold enqueue_sync. set (p := if decay_count _ <=? 0 then _ else _).
  assert (S1 : frozen s p.1).
  { unfold p. case_match; cbv zeta; cbn [fst]; [|apply still_synchronize]. still_chain. }
  clearbody p. destruct p as [s1 w1]. cbn [fst] in S1. transitivity s1; [done|].
  destruct w1; cbv zeta; cbn [fst]; still_chain.
Qed.

Lemma still_enqueue_load q i w s : frozen s (enqueue_entity_load_avg q i w s).
Proof.
  unfold enqueue_entity_load_avg. pose proof (still_enqueue_sync q i w s) as S1.
  destruct (enqueue_sync q i w s) as [s1 w1]. cbn [fst] in S1. transitivity s1; [done|]. still_chain.
Qed.
Lemma still_dequeue_load q i b s : frozen s (dequeue_entity_load_avg q i b s).
Proof. unfold dequeue_entity_load_avg. still_chain. Qed.
Hint Resolve still_rq_runnable still_enqueue_load still_dequeue_load : still.

(** ** Queueing *)

Lemma still_min_vruntime q s : frozen s (update_min_vruntime q s).
Proof. unfold update_min_vruntime. still_chain. Qed.
Lemma still_delta_fair d i s : frozen s (calc_delta_fair d i s).1.
Proof. unfold calc_delta_fair. case_match; cbv zeta; cbn [fst]; still_chain. Qed.
Hint Resolve still_min_vruntime : still.

Lemma still_charge q c d s : frozen s (__update_curr q c d s).
Proof.
  unfold __update_curr. set (s1 := upd_se c _ s).
  assert (S1 : frozen s s1) by (apply still_upd_se; done). clearbody s1.
  pose proof (still_delta_fair d c s1) as S2. destruct (calc_delta_fair d c s1) as [s2 w].
  cbn [fst] in S2. transitivity s2; [by rewrite S1|]. still_chain.
Qed.
Hint Resolve still_charge : still.
Lemma still_update_curr q s : frozen s (update_curr q s).
Proof. unfold update_curr. still_chain. Qed.
Hint Resolve still_update_curr : still.

Lemma still_account_enqueue q i s : still s (account_entity_enqueue q i s).
Proof. unfold account_entity_enqueue, update_load_add_cfs. still_chain. Qed.
Lemma still_account_dequeue q i s : still s (account_entity_dequeue q i s).
Proof. unfold account_entity_dequeue, update_load_sub_cfs. still_chain. Qed.
Hint Resolve still_account_enqueue still_account_dequeue : still.
Lemma still_reweight q i w s : still s (reweight_entity q i w s).
Proof. unfold reweight_entity. still_chain. Qed.
Hint Resolve still_reweight : still.
Lemma still_shares q s : still s (update_cfs_shares q s).
Proof. unfold update_cfs_shares. still_chain. Qed.
Lemma still_add_leaf q s : frozen s (list_add_leaf_cfs_rq q s).
Proof. unfold list_add_leaf_cfs_rq. still_chain. Qed.
Hint Resolve still_shares still_add_leaf : still.

Lemma still_slice q i s : frozen s (sched_slice q i s).1.
Proof.
  unfold sched_slice. generalize (__sched_period s (cfs_nr_running (cfss s q)
    + b2z (negb (nonzero (on_rq (ses s i)))))) as x.
  generalize (for_each_sched_entity s i) as l. intros l. revert s.
  induction l as [|j l IH]; intros s x; cbn [foldl]; [done|].
  assert (S1 : frozen s (slice_step (s, x) j).1).
  { unfold slice_step. case_match; cbv zeta; cbn [fst]; still_chain. }
  destruct (slice_step (s, x) j) as [s1 x1]. cbn [fst] in S1. by rewrite S1 at 1.
Qed.
Lemma still_vslice q i s : frozen s (sched_vslice q i s).1.
Proof.
  unfold sched_vslice. pose proof (still_slice q i s) as S1.
  destruct (sched_slice q i s) as [s1 x]. transitivity s1; [done|]. apply still_delta_fair.
Qed.
Lemma still_place q i b s : frozen s (place_entity q i b s).
Proof.
  unfold place_entity. set (p := if b && _ then _ else _).
  assert (S1 : frozen s p.1).
  { unfold p. case_match; [|done]. pose proof (still_vslice q i s). by destruct (sched_vslice q i s). }
  clearbody p. destruct p as [s1 v]. transitivity s1; [done|]. still_chain.
Qed.
Hint Resolve still_place : still.

Lemma still_enqueue_entity q i flags s : still s (enqueue_entity q i flags s).
Proof. unfold enqueue_entity, __enqueue_entity. still_chain. Qed.

Lemma still_buddy_chain g f l s :
  (forall c, curr (f c) = curr c) -> (forall c, cfs_home (f c) = cfs_home c) ->
  (forall c, tasks_timeline (f c) = tasks_timeline c) -> frozen s (clear_buddy_chain g f l s).
Proof.
  intros Hf Hh Hw. revert s. induction l as [|i l IH]; intros s; simpl; [done|].
  case_match; [|done]. etransitivity; [|apply IH]. by apply still_upd_cfs.
Qed.
Lemma still_clear_buddies q i s : frozen s (clear_buddies q i s).
Proof.
  unfold clear_buddies, __clear_buddies_last, __clear_buddies_next, __clear_buddies_skip. cbv zeta.
  repeat (case_match; [etransitivity; [|by apply still_buddy_chain]|]); done.
Qed.
Hint Resolve still_clear_buddies still_enqueue_entity : still.

Lemma still_dequeue_entity q i flags s : still s (dequeue_entity q i flags s).
Proof. unfold dequeue_entity, __dequeue_entity. still_chain. Qed.
Lemma still_next_buddy i s : frozen s (set_next_buddy i s).
Proof. unfold set_next_buddy. case_match; [done|]. apply still_foldl. intros. auto with still. Qed.
Lemma still_last_buddy i s : frozen s (set_last_buddy i s).
Proof. unfold set_last_buddy. case_match; [done|]. apply still_foldl. intros. auto with still. Qed.
Hint Resolve still_dequeue_entity still_next_buddy still_last_buddy : still.

Lemma still_enqueue_chain l flags s : still s (enqueue_chain l flags s).1.
Proof.
  revert flags s. induction l as [|i l IH]; intros flags s; cbn [enqueue_chain]; [done|].
  case_match; [done|]. cbv zeta. etransitivity; [|apply IH]. still_chain.
Qed.
Lemma still_dequeue_chain l flags b s : still s (dequeue_chain l flags b s).1.
Proof.
  revert flags s. induction l as [|i l IH]; intros flags s; cbn [dequeue_chain]; [done|].
  cbv zeta. destruct (nonzero _); [cbn [fst]; still_chain|].
  etransitivity; [|apply IH]. still_chain.
Qed.

Lemma still_enqueue_task cpu p flags s : still s (enqueue_task_fair cpu p flags s).
Proof.
  unfold enqueue_task_fair. pose proof (still_enqueue_chain (for_each_sched_entity s (TaskSe p)) flags s) as S1.
  destruct (enqueue_chain _ flags s) as [s1 rest]. cbn [fst] in S1. cbv zeta.
  set (s2 := foldl _ s1 rest).
  assert (S2 : still s1 s2) by (apply still_foldl; intros; still_chain).
  clearbody s2. transitivity s2; [by rewrite S1|]. still_chain.
Qed.
Lemma still_dequeue_task cpu p flags s : still s (dequeue_task_fair cpu p flags s).
Proof.
  unfold dequeue_task_fair.
  pose proof (still_dequeue_chain (for_each_sched_entity s (TaskSe p)) flags
                (has_flag flags DEQUEUE_SLEEP) s) as S1.
  destruct (dequeue_chain _ flags _ s) as [s1 rest]. cbn [fst] in S1. cbv zeta.
  set (s2 := foldl _ s1 rest).
  assert (S2 : still s1 s2) by (apply still_foldl; intros; still_chain).
  clearbody s2. transitivity s2; [by rewrite S1|]. still_chain.
Qed.
Lemma still_rq_clock c s : resting s (update_rq_clock c s).
Proof. unfold update_rq_clock. still_chain. Qed.
Hint Resolve still_enqueue_task still_dequeue_task still_rq_clock : still.

Lemma still_migrate_rq p s : resting s (migrate_task_rq_fair p s).
Proof.
  unfold migrate_task_rq_fair. case_match; [|done]. set (s1 := if negb _ && _ then _ else s).
  assert (S1 : resting s s1) by (unfold s1; still_chain). clearbody s1.
  pose proof (frozen_resting _ _ (still_synchronize (TaskSe p) s1)) as S2.
  destruct (__synchronize_entity_decay (TaskSe p) s1) as [s2 d]. cbn [fst] in S2.
  transitivity s2; [by rewrite S1|]. still_chain.
Qed.
Hint Resolve still_migrate_rq : still.
(** ** Preemption *)

Lemma still_resched c s : frozen s (resched_curr c s).
Proof. unfold resched_curr. auto with still. Qed.
Hint Resolve still_resched : still.
Lemma still_preempt_entity a b s : frozen s (wakeup_preempt_entity a b s).1.
Proof.
  unfold wakeup_preempt_entity, wakeup_gran. case_match; [done|].
  pose proof (still_delta_fair (ulong (sysctl_sched_wakeup_granularity (sysctl s))) b s) as S1.
  destruct (calc_delta_fair _ b s) as [s1 g]. by case_match.
Qed.

Lemma still_preempt_wakeup cpu c p flags s : frozen s (check_preempt_wakeup cpu c p flags s).
Proof.
  unfold check_preempt_wakeup. cbv zeta. case_match; [done|].
  set (mark := NEXT_BUDDY _ && _ && _). set (s1 := if mark then _ else s).
  assert (S1 : frozen s s1) by (unfold s1; still_chain).
  clearbody s1 mark. transitivity s1; [done|]. clear S1.
  destruct (need_resched _); [done|]. destruct ((policy _ =? SCHED_IDLE) && _); [still_chain|].
  destruct (_ || _); [done|]. destruct (find_matching_se _ _ s1) as [[a b]|]; [|done].
  set (s2 := update_curr _ s1).
  assert (S2 : frozen s1 s2) by apply still_update_curr. clearbody s2.
  pose proof (still_preempt_entity a b s2) as S3.
  destruct (wakeup_preempt_entity a b s2) as [s3 r]. cbn [fst] in S3.
  transitivity s3; [by rewrite S2|]. still_chain.
Qed.
Hint Resolve still_preempt_wakeup : still.
Lemma still_check_preempt cpu p flags s : frozen s (check_preempt_curr cpu p flags s).
Proof. unfold check_preempt_curr. still_chain. Qed.
Hint Resolve still_check_preempt : still.

(** Moving a task changes the CPU of that task only. *)
Lemma tasks_move p src dst s x :
  tasks (move_task p src dst s) x = if decide (x = p) then tasks s p <| task_cpu := dst |> else tasks s x.
Proof.
  unfold move_task, deactivate_task, activate_task, set_task_cpu. cbv zeta.
  set (s1 := dequeue_task_fair _ _ _ _).
  assert (S1 : still s s1) by (unfold s1; still_chain). clearbody s1.
  set (s2 := if negb _ then _ else s1).
  assert (S2 : still s s2) by (transitivity s1; [done|]; unfold s2; still_chain). clearbody s2.
  set (s3 := __set_task_cpu p dst s2).
  assert (E3 : tasks s3 x = if decide (x = p) then tasks s2 p <| task_cpu := dst |> else tasks s2 x).
  { unfold s3, __set_task_cpu, set_task_rq. case_decide; subst; by store_rw. }
  clearbody s3. set (s4 := check_preempt_curr _ _ _ _).
  assert (S4 : still s3 s4) by (unfold s4; still_chain).
  rewrite (st_task _ _ _ _ _ _ S4 x), E3. by rewrite !(st_task _ _ _ _ _ _ S2).
Qed.

Lemma still_set_task_cpu p c s : still_usage s (set_task_cpu p c s).
Proof.
  unfold set_task_cpu, __set_task_cpu, set_task_rq. cbv zeta. set (s1 := if negb _ then _ else s).
  assert (S1 : still s s1) by (unfold s1; still_chain). clearbody s1.
  transitivity s1; [by apply still_weaken|].
  set (s2 := upd_se _ _ _). assert (S2 : still s1 s2) by (unfold s2; auto with still).
  transitivity s2; [by apply still_weaken|].
  split; try done. intros x. destruct (decide (p = x)) as [->|]; by store_rw.
Qed.

Lemma still_move p src dst s : still_usage s (move_task p src dst s).
Proof.
  unfold move_task, deactivate_task, activate_task. cbv zeta.
  set (s1 := dequeue_task_fair _ _ _ _).
  assert (S1 : still s s1) by (unfold s1; still_chain).
  transitivity s1; [by apply still_weaken|]. transitivity (set_task_cpu p dst s1);
    [apply still_set_task_cpu|]. apply still_weaken. still_chain.
Qed.
Lemma still_move_specific src dst p s : still_usage s (move_specific_task src dst p s).1.
Proof. unfold move_specific_task. case_match; [apply still_move|done]. Qed.

Lemma still_up_delay i c s : resting s (hmp_next_up_delay i c s).
Proof. unfold hmp_next_up_delay. still_chain. Qed.
Lemma still_down_delay i c s : resting s (hmp_next_down_delay i c s).
Proof. unfold hmp_next_down_delay. still_chain. Qed.
Lemma still_keepalive c s : resting s (hmp_cpu_keepalive_trigger c s).
Proof. unfold hmp_cpu_keepalive_trigger. split; intros; repeat case_match; done. Qed.

End frames.
#[export] Hint Resolve still_blocked still_update_load still_rq_runnable still_enqueue_load
  still_dequeue_load still_min_vruntime still_update_curr still_add_leaf still_place
  still_clear_buddies still_next_buddy still_last_buddy still_rq_clock still_migrate_rq
  still_resched still_check_preempt still_enqueue_task still_dequeue_task
  still_up_delay still_down_delay still_keepalive : still.

(** * The tasks of run queues

    [U] holds of every task that some run queue names; moving such a task, and everything
    else that HMP migrations do, keeps it so. *)

Definition known (U : Z -> Prop) (i : se_id) : Prop :=
  match i with TaskSe p => U p | GroupSe _ _ => True end.

Record named (U : Z -> Prop) (s : sys) : Prop := {
  pq_line : forall q i, i ∈ tasks_timeline (cfss s q) -> known U i;
  pq_curr : forall q i, curr (cfss s q) = Some i -> known U i;
  pq_list : forall c p, p ∈ cfs_tasks (rqs s c) -> U p;
  pq_parent : forall i j, se_parent (ses s i) = Some j -> known U j;
  pq_group : forall g c, my_q (ses s (GroupSe g c)) <> None;
}.

Section named.
Context `{Config} (U : Z -> Prop).
Implicit Types (s : sys) (q : cfs_id) (i : se_id).

Lemma named_resting s s' : resting s s' -> named U s -> named U s'.
Proof.
  intros [Sr _ Sc Se _ _ _ _ Sl _ _] [P1 P2 P3 P4 P5].
  assert (E : forall i, my_q (ses s' i) = my_q (ses s i) /\ se_parent (ses s' i) = se_parent (ses s i)).
  { intros i. specialize (Se i). unfold place_view in Se. by simplify_eq. }
  split.
  - intros q. rewrite Sl. apply P1.
  - intros q. rewrite Sc. apply P2.
  - intros c. rewrite (f_equal snd (Sr c) : cfs_tasks (rqs s' c) = cfs_tasks (rqs s c)). apply P3.
  - intros i. destruct (E i) as [_ ->]. apply P4.
  - intros g c. destruct (E (GroupSe g c)) as [-> _]. apply P5.
Qed.

Lemma named_upd_se i f s :
  (forall e, my_q (f e) = my_q e) ->
  (forall e j, se_parent (f e) = Some j -> se_parent e = Some j \/ known U j) ->
  named U s -> named U (upd_se i f s).
Proof.
  intros Hm Hp [P1 P2 P3 P4 P5]. split; try done.
  - intros x j. destruct (decide (i = x)) as [->|]; store_rw; [|apply P4].
    intros [E|E]%Hp; [by apply P4 in E|done].
  - intros g c. destruct (decide (i = GroupSe g c)) as [->|]; store_rw; [rewrite Hm|]; apply P5.
Qed.
Lemma named_upd_cfs q f s :
  (forall c, curr (f c) = curr c) ->
  (forall i, i ∈ tasks_timeline (f (cfss s q)) -> i ∈ tasks_timeline (cfss s q) \/ known U i) ->
  named U s -> named U (upd_cfs q f s).
Proof.
  intros Hc Ht [P1 P2 P3 P4 P5]. split; try done; intros x j.
  - destruct (decide (q = x)) as [<-|]; store_rw; [|apply P1]. intros [Hj|Hj]%Ht; [by apply P1 in Hj|done].
  - destruct (decide (q = x)) as [<-|]; store_rw; [rewrite Hc|]; apply P2.
Qed.
Lemma named_upd_rq c f s :
  (forall p, p ∈ cfs_tasks (f (rqs s c)) -> p ∈ cfs_tasks (rqs s c) \/ U p) ->
  named U s -> named U (upd_rq c f s).
Proof.
  intros Hf [P1 P2 P3 P4 P5]. split; try done. intros x p.
  destruct (decide (c = x)) as [->|]; store_rw; [intros [Hp|Hp]%Hf; eauto|apply P3].
Qed.
Lemma named_same s s' :
  cfss s' = cfss s -> rqs s' = rqs s -> ses s' = ses s -> named U s -> named U s'.
Proof. intros E1 E2 E3 []. split; rewrite ?E1, ?E2, ?E3; done. Qed.
Lemma named_upd_task p f s : named U s -> named U (upd_task p f s).
Proof. by apply named_same. Qed.

Lemma known_task i s : named U s -> known U i -> entity_is_task s i = true -> U (task_of i).
Proof.
  intros P Hk Ht. destruct i as [p|g c]; [done|]. unfold entity_is_task in Ht.
  pose proof (pq_group _ _ P g c). by destruct (my_q _).
Qed.

Lemma named_account_enqueue q i s : known U i -> named U s -> named U (account_entity_enqueue q i s).
Proof.
  intros Hk P. unfold account_entity_enqueue, update_load_add_cfs. cbv zeta.
  apply named_upd_cfs; [done|auto|]. set (s1 := match parent_entity _ _ with None => _ | _ => _ end).
  assert (P1 : named U s1).
  { unfold s1. case_match; [|apply named_upd_rq; [auto|]]; apply named_upd_cfs; auto. }
  clearbody s1. destruct (entity_is_task s1 i) eqn:Ht; [|done].
  apply named_upd_rq; [|done]. cbn. intros p [->|Hp]%elem_of_cons; [right; by apply (known_task i s1)|by left].
Qed.
Lemma named_account_dequeue q i s : named U s -> named U (account_entity_dequeue q i s).
Proof.
  intros P. unfold account_entity_dequeue, update_load_sub_cfs. cbv zeta.
  apply named_upd_cfs; [done|auto|]. set (s1 := match parent_entity _ _ with None => _ | _ => _ end).
  assert (P1 : named U s1).
  { unfold s1. case_match; [|apply named_upd_rq; [auto|]]; apply named_upd_cfs; auto. }
  clearbody s1. case_match; [|done]. apply named_upd_rq; [|done]. cbn.
  intros p [_ Hp]%list_elem_of_filter. by left.
Qed.

(** Peels the last update that leaves the queues alone. *)
Ltac named_step :=
  cbv zeta;
  repeat first
    [ assumption
    | apply named_account_enqueue; [done|]
    | apply named_account_dequeue
    | apply named_upd_cfs; [done|by auto|]
    | apply named_upd_rq; [by auto|]
    | apply named_upd_se; [done|by auto|]
    | eapply named_resting; [solve [auto with still nocore]|]
    | case_match ].

Lemma named_reweight q i w s : known U i -> named U s -> named U (reweight_entity q i w s).
Proof. intros Hk P. unfold reweight_entity. named_step. Qed.
Lemma named_shares q s : named U s -> named U (update_cfs_shares q s).
Proof.
  intros P. unfold update_cfs_shares, tg_se. case_match eqn:E; [|done].
  apply named_reweight; [|done]. case_match; simplify_eq. done.
Qed.


Lemma named_enqueue_entity q i flags s : known U i -> named U s -> named U (enqueue_entity q i flags s).
Proof.
  intros Hk P. unfold enqueue_entity. cbv zeta.
  set (s1 := enqueue_entity_load_avg _ _ _ _). assert (P1 : named U s1) by (unfold s1; named_step). clearbody s1.
  set (s2 := update_cfs_shares q _).
  assert (P2 : named U s2) by (by apply named_shares, named_account_enqueue). clearbody s2.
  set (s3 := if has_flag flags ENQUEUE_WAKEUP then _ else s2).
  assert (P3 : named U s3) by (unfold s3; named_step). clearbody s3.
  set (s4 := if bool_decide _ then s3 else __enqueue_entity q i s3). assert (P4 : named U s4).
  { unfold s4, __enqueue_entity. case_match; [done|]. apply named_upd_cfs; [done| |done]. cbn. intros j.
    rewrite (timeline_insert_perm s3 i). intros [->|Hj]%elem_of_cons; [by right|by left]. }
  clearbody s4. named_step.
Qed.
Lemma named_dequeue_entity q i flags s : named U s -> named U (dequeue_entity q i flags s).
Proof.
  intros P. unfold dequeue_entity. cbv zeta. apply named_shares.
  set (s1 := clear_buddies _ _ _). assert (P1 : named U s1) by (unfold s1; named_step). clearbody s1.
  set (s2 := if bool_decide _ then s1 else __dequeue_entity q i s1). assert (P2 : named U s2).
  { unfold s2, __dequeue_entity. case_match; [done|]. apply named_upd_cfs; [done| |done]. cbn.
    intros j [_ Hj]%list_elem_of_filter. by left. }
  clearbody s2. named_step.
Qed.

Lemma chain_known n i s : named U s -> known U i -> Forall (known U) (chain_from n s i).
Proof.
  intros P. revert i. induction n as [|n IH]; intros i Hi; cbn; [by constructor|].
  constructor; [done|]. destruct (se_parent (ses s i)) as [j|] eqn:E; [|by constructor].
  apply IH. by apply (pq_parent _ _ P) in E.
Qed.
Lemma named_enqueue_chain l flags s :
  Forall (known U) l -> named U s -> named U (enqueue_chain l flags s).1.
Proof.
  intros Hl. revert flags s. induction Hl as [|i l Hi Hl IH]; intros flags s P; cbn [enqueue_chain]; [done|].
  case_match; [done|]. cbv zeta. apply IH. apply named_upd_cfs; [done|by auto|]. by apply named_enqueue_entity.
Qed.
Lemma named_dequeue_chain l flags b s : named U s -> named U (dequeue_chain l flags b s).1.
Proof.
  revert flags s. induction l as [|i l IH]; intros flags s P; cbn [dequeue_chain]; [done|].
  cbv zeta. set (s1 := upd_cfs _ _ _).
  assert (P1 : named U s1) by (apply named_upd_cfs; [done|by auto|]; by apply named_dequeue_entity).
  clearbody s1. case_match; [cbn [fst]; named_step|by apply IH].
Qed.
Lemma named_foldl {A} (f : sys -> A -> sys) l s :
  (forall s x, named U s -> named U (f s x)) -> named U s -> named U (foldl f s l).
Proof. intros Hf. revert s. induction l as [|x l IH]; intros s P; cbn; auto. Qed.

Lemma named_enqueue_task cpu p flags s : U p -> named U s -> named U (enqueue_task_fair cpu p flags s).
Proof.
  intros Hp P. unfold enqueue_task_fair.
  pose proof (named_enqueue_chain (for_each_sched_entity s (TaskSe p)) flags s
                (chain_known _ (TaskSe p) _ P Hp) P) as P1.
  destruct (enqueue_chain _ flags s) as [s1 rest]. cbn [fst] in P1. cbv zeta.
  set (s2 := foldl _ s1 rest). assert (P2 : named U s2).
  { apply named_foldl; [|done]. intros s3 x P3. eapply named_resting; [solve [auto with still nocore]|].
    apply named_shares. named_step. }
  clearbody s2. named_step.
Qed.
Lemma named_dequeue_task cpu p flags s : named U s -> named U (dequeue_task_fair cpu p flags s).
Proof.
  intros P. unfold dequeue_task_fair.
  pose proof (named_dequeue_chain (for_each_sched_entity s (TaskSe p)) flags
                (has_flag flags DEQUEUE_SLEEP) s P) as P1.
  destruct (dequeue_chain _ flags _ s) as [s1 rest]. cbn [fst] in P1. cbv zeta.
  set (s2 := foldl _ s1 rest). assert (P2 : named U s2).
  { apply named_foldl; [|done]. intros s3 x P3. eapply named_resting; [solve [auto with still nocore]|].
    apply named_shares. named_step. }
  clearbody s2. named_step.
Qed.

Lemma named_move p src dst s : U p -> named U s -> named U (move_task p src dst s).
Proof.
  intros Hp P. unfold move_task, deactivate_task, activate_task, set_task_cpu, __set_task_cpu, set_task_rq.
  cbv zeta. set (s1 := dequeue_task_fair _ _ _ _).
  assert (P1 : named U s1) by (apply named_dequeue_task; named_step). clearbody s1.
  set (s2 := if negb _ then _ else s1). assert (P2 : named U s2) by (unfold s2; named_step). clearbody s2.
  eapply named_resting; [solve [auto with still nocore]|]. apply named_enqueue_task; [done|].
  eapply named_resting; [solve [auto with still nocore]|]. apply named_upd_task, named_upd_se; [done| |done].
  cbn. intros e j. unfold tg_se. case_match; intros [= <-]. by right.
Qed.
Lemma named_move_specific src dst p s : named U s -> named U (move_specific_task src dst p s).1.
Proof.
  intros P. unfold move_specific_task. destruct (List.find _ _) as [x|] eqn:E; [|done].
  apply List.find_some in E as [Hx _]. apply named_move; [|done].
  by apply (pq_list _ _ P src), list_elem_of_In.
Qed.

(** ** The tasks that HMP looks at *)

Lemma curr_task_known n i s j :
  named U s -> known U i -> curr_task n i s = Some j -> known U j /\ entity_is_task s j = true.
Proof.
  intros P. revert i. induction n as [|n IH]; intros i Hi; cbn; unfold entity_is_task;
    destruct (my_q (ses s i)) as [q|] eqn:E; try done.
  - intros [= <-]. by rewrite E.
  - destruct (curr (cfss s q)) as [c|] eqn:Ec; [|done]. cbn. apply IH. by apply (pq_curr _ _ P) in Ec.
  - intros [= <-]. by rewrite E.
Qed.

Lemma walk_known s i j : named U s -> j ∈ walk s i -> known U j.
Proof.
  intros P Hj. apply (pq_line _ _ P (cfs_rq_of s i)). unfold walk in Hj.
  rewrite <- (take_drop hmp_max_tasks). apply elem_of_app. by left.
Qed.

(** Scans for a best entity end on a task, given that they start on one. *)
Lemma scan_known (f : se_id -> se_id -> bool) l i s :
  named U s -> (forall m x, f m x = true -> entity_is_task s x = true) ->
  (forall x, x ∈ l -> known U x) -> U (task_of i) ->
  U (task_of (foldl (fun m x => if f m x then x else m) i l)).
Proof.
  intros P Hf. revert i. induction l as [|x l IH]; intros i Hl Hi; cbn; [done|].
  apply IH; [intros y Hy; apply Hl, elem_of_cons; by right|]. destruct (f i x) eqn:E; [|done].
  apply (known_task x s); [done| |by eapply Hf]. apply Hl, list_elem_of_here.
Qed.
Lemma heaviest_known i t s j :
  named U s -> U (task_of i) -> hmp_get_heaviest_task i t s = Some j -> U (task_of j).
Proof.
  intros P Hi.
  assert (G : forall m, U (task_of (heaviest_in s m (walk s i) i))).
  { intros m. apply (scan_known (fun a x => entity_is_task s x && (se_ratio s a <? se_ratio s x)
      && cpumask_intersects m (tsk_cpus_allowed s (task_of x))) _ _ s); [done| |by intros; eapply walk_known|done].
    intros a x [[? _]%andb_true_iff _]%andb_true_iff. done. }
  unfold hmp_get_heaviest_task. cbv zeta. repeat case_match; intros [= <-]; auto.
Qed.
Lemma lightest_known i b s : named U s -> U (task_of i) -> U (task_of (hmp_get_lightest_task i b s)).
Proof.
  intros P Hi.
  assert (G : forall m, U (task_of (lightest_in s m (walk s i) i))).
  { intros m. apply (scan_known (fun a x => entity_is_task s x && (se_ratio s x <? se_ratio s a)
      && match m with Some m => cpumask_intersects m (tsk_cpus_allowed s (task_of x)) | None => false end)
      _ _ s); [done| |by intros; eapply walk_known|done].
    intros a x [[? _]%andb_true_iff _]%andb_true_iff. done. }
  unfold hmp_get_lightest_task. repeat case_match; auto.
Qed.
End named.

(** * The invariant of pending migrations *)

Section safety.
Context `{Config}.
Implicit Types (s : sys) (base : Z -> Z).

Lemma curr_task_ext n i s s' :
  (forall q, curr (cfss s' q) = curr (cfss s q)) -> (forall i, my_q (ses s' i) = my_q (ses s i)) ->
  curr_task n i s' = curr_task n i s.
Proof.
  intros Ec Em. revert i. induction n as [|n IH]; intros i; simpl; rewrite Em; [done|].
  case_match; [|done]. rewrite Ec. by destruct (curr (cfss s _)); simpl.
Qed.

(** What the rest of the kernel guarantees: the domains partition the CPUs, and a CPU
    that runs a fair task has a task at the bottom of the hierarchy of running entities. *)
Record sys_ok s : Prop := {
  so_topology : topology_ok s;
  so_curr : forall c i, curr (cfss s (CfsRq 0 c)) = Some i -> is_Some (curr_task (nr_groups s) i s);
}.

(** The globals [sys_ok] reads. *)
Definition topo_view s :=
  (cpu_online_mask s, nr_groups s, domains s, hmp_domains s, hmp_cpu_domain s).

Lemma sys_ok_ext s s' :
  (forall q, curr (cfss s' q) = curr (cfss s q)) -> (forall i, my_q (ses s' i) = my_q (ses s i)) ->
  topo_view s' = topo_view s -> sys_ok s -> sys_ok s'.
Proof.
  unfold topo_view. intros Ec Em E [[T1 T2 T3 T4] Hc].
  injection E as Eo Eg Ed El Eh. split; [split|..].
  - by rewrite El.
  - by rewrite El.
  - intros a c. rewrite El, Ed, Eh. apply T3.
  - intros a c. rewrite El, Ed, Eo. apply T4.
  - intros c i. rewrite Ec, Eg, (curr_task_ext _ _ s s' Ec Em). apply Hc.
Qed.

(** The number of queued stopper works that are to migrate [p]. *)
Definition pending s (p : Z) : Z :=
  Z.of_nat (length (filter (fun c => migrate_task (rqs s c) = Some p) (stop_works s))).
(** The number of works for [p] that a disabled stopper has refused. *)
Definition leaked s (p : Z) : Z :=
  Z.of_nat (length (filter (fun w => w.2 = Some p) (stop_refused s))).
(** The reference that balancing or a stopper has in hand. *)
Definition in_hand (hand : option Z) (p : Z) : Z := if decide (hand = Some p) then 1 else 0.

(** Each queued stopper work belongs to a run queue marked [active_balance], names a
    task and another CPU, and holds one reference on the task; [base] counts the
    references others hold, one at least on each task of a run queue.  A freed task has no
    references left. *)
Record mig_ok (lock : bool) (hand : option Z) base s : Prop := {
  mo_sys : sys_ok s;
  mo_nodup : NoDup (stop_works s);
  mo_work : forall c, c ∈ stop_works s ->
    active_balance (rqs s c) <> 0 /\ push_cpu (rqs s c) <> c /\ is_Some (migrate_task (rqs s c));
  mo_usage : forall p, task_usage (tasks s p) = base p + in_hand hand p + pending s p + leaked s p;
  mo_lock : lock_is lock (hmp_force_migration s);
  mo_base : forall p, 0 <= base p;
  mo_named : named (fun p => 1 <= base p) s;
  mo_freed : forall p, task_freed (tasks s p) = true -> task_usage (tasks s p) = 0;
}.

Lemma push_view_inv r r' :
  push_view r' = push_view r ->
  active_balance r' = active_balance r /\ migrate_task r' = migrate_task r
  /\ push_cpu r' = push_cpu r.
Proof. unfold push_view. intros E. by simplify_eq. Qed.

Lemma mig_view_inv r r' :
  mig_view r' = mig_view r ->
  active_balance r' = active_balance r /\ migrate_task r' = migrate_task r
  /\ push_cpu r' = push_cpu r /\ rq_sd r' = rq_sd r.
Proof. unfold mig_view, push_view. intros E. by simplify_eq. Qed.

Lemma pending_ext s s' p :
  stop_works s' = stop_works s ->
  (forall c, c ∈ stop_works s -> migrate_task (rqs s' c) = migrate_task (rqs s c)) ->
  pending s' p = pending s p.
Proof.
  intros Ew Em. unfold pending. rewrite Ew. do 2 f_equal. revert Em. clear Ew.
  induction (stop_works s) as [|c l IH]; intros Em; [done|].
  rewrite !filter_cons, Em, IH by set_solver. done.
Qed.

Lemma mig_ok_still lock hand base s s' :
  still_usage s s' -> named (fun p => 1 <= base p) s' -> mig_ok lock hand base s -> mig_ok lock hand base s'.
Proof.
  intros [Sr St Sc Sm Se _ _ _ _ Sf _] Hp [Hs Hn Hw Hu Hl Hb _ Hf].
  unfold env_view in Se. injection Se as E1 E2 E3 E4 E5 E6 E7 E8 _ _ _ _ _.
  assert (Eu : forall p, task_usage (tasks s' p) = task_usage (tasks s p)
                         /\ task_freed (tasks s' p) = task_freed (tasks s p)).
  { intros p. specialize (St p). unfold life_view in St. by simplify_eq. }
  split; [apply (sys_ok_ext s); [done|done|unfold topo_view; congruence|done]|by rewrite E1| |..]; try done.
  - intros c. rewrite E1. destruct (mig_view_inv _ _ (Sr c)) as (-> & -> & -> & _). apply Hw.
  - intros p. destruct (Eu p) as [-> _]. unfold leaked. rewrite Hu, Sf. do 2 f_equal. symmetry.
    apply pending_ext; [done|]. intros c _. by apply mig_view_inv.
  - by rewrite E3.
  - intros p. destruct (Eu p) as [-> ->]. apply Hf.
Qed.
Lemma mig_ok_resting lock hand base s s' : resting s s' -> mig_ok lock hand base s -> mig_ok lock hand base s'.
Proof.
  intros R Hok. apply (mig_ok_still _ _ _ s); [by apply still_weaken, resting_still| |done].
  by apply (named_resting _ s), Hok.
Qed.

Lemma mig_ok_lock l l' w hand base s :
  mig_ok l hand base s -> lock_is l' w -> mig_ok l' hand base (s <| hmp_force_migration := w |>).
Proof.
  intros [Hs Hn Hw Hu Hl Hb Hp Hf] Hw'.
  split; [by apply (sys_ok_ext s)|done..|by apply (named_same _ s)|done].
Qed.
Lemma mig_ok_unlock base s : mig_ok true None base s -> mig_ok false None base (unlock_force s).
Proof. intros Hok. eapply mig_ok_lock; [done|]. by apply lock_is_unlock, Hok. Qed.
Lemma mig_ok_trylock base s :
  mig_ok false None base s ->
  exists w, trylock_force s = Some (s <| hmp_force_migration := w |>)
            /\ mig_ok true None base (s <| hmp_force_migration := w |>).
Proof.
  intros Hok. unfold trylock_force. destruct (lock_is_try _ (mo_lock _ _ _ _ Hok)) as [-> Hw].
  eexists. split; [done|]. by eapply mig_ok_lock.
Qed.

(** A task that others hold a reference on, as they do on those of run queues, is not freed. *)
Lemma mig_ok_alive l h base p s :
  mig_ok l h base s -> 1 <= base p \/ 1 <= pending s p -> task_freed (tasks s p) = false.
Proof.
  intros Hok Hp. apply not_true_is_false. intros Hf. pose proof (mo_freed _ _ _ _ Hok p Hf) as E.
  rewrite (mo_usage _ _ _ _ Hok) in E. pose proof (mo_base _ _ _ _ Hok p).
  unfold pending, leaked, in_hand in *. case_decide; lia.
Qed.

Lemma mig_ok_get l base p s :
  mig_ok l None base s -> 1 <= base p -> mig_ok l (Some p) base (get_task_struct p s).
Proof.
  intros Hok Hb. pose proof (mig_ok_alive _ _ _ p _ Hok (or_introl Hb)) as Ha.
  destruct Hok as [Hs Hn Hw Hu Hl Hb0 Hp Hf].
  split; [by apply (sys_ok_ext s)|done|done| |done|done|by apply (named_same _ s)|];
    intros x; unfold get_task_struct; specialize (Hu x); specialize (Hf x); unfold in_hand in *;
    change (pending (upd_task _ _ s) x) with (pending s x); change (leaked (upd_task _ _ s) x) with (leaked s x);
    destruct (decide (x = p)) as [->|]; store_rw; simpl; repeat case_decide; simplify_eq; try lia; congruence || auto.
Qed.
Lemma mig_ok_put l base p s : mig_ok l (Some p) base s -> mig_ok l None base (put_task_struct p s).
Proof.
  intros [Hs Hn Hw Hu Hl Hb Hp Hf].
  split; [by apply (sys_ok_ext s)|done|done| |done|done|by apply (named_same _ s)|];
    intros x; unfold put_task_struct; specialize (Hu x); specialize (Hf x); unfold in_hand in *;
    change (pending (upd_task _ _ s) x) with (pending s x); change (leaked (upd_task _ _ s) x) with (leaked s x);
    destruct (decide (x = p)) as [->|]; store_rw; cbv zeta; repeat case_decide; simplify_eq;
    try case_match eqn:E; simpl in *; try lia; auto.
  intros Hfr. specialize (Hf Hfr). specialize (Hb p). unfold pending, leaked in *. lia.
Qed.

(** The run queue of a CPU with no work queued may be changed at will, but for its tasks. *)
Lemma mig_ok_upd_rq l h base c f s :
  c ∉ stop_works s -> (forall r, cfs_tasks (f r) = cfs_tasks r) ->
  mig_ok l h base s -> mig_ok l h base (upd_rq c f s).
Proof.
  intros Hc Hf [Hs Hn Hw Hu Hl Hb Hp Hfr].
  assert (E : forall d, d ∈ stop_works s -> rqs (upd_rq c f s) d = rqs s d).
  { intros d Hd. apply rqs_upd_rq_ne. set_solver. }
  split; try done; [by apply (sys_ok_ext s)|..].
  - intros d Hd. change (stop_works _) with (stop_works s) in Hd. rewrite E by done. by apply Hw.
  - intros p. change (leaked _ p) with (leaked s p). store_frame. rewrite Hu. do 2 f_equal. symmetry.
    apply pending_ext; [done|]. intros d Hd. by rewrite E.
  - apply named_upd_rq; [|done]. intros p. rewrite Hf. auto.
Qed.

(** Queueing the stopper work hands the reference over to it. *)
Lemma mig_ok_queue l base c p s :
  mig_ok l (Some p) base s -> c ∉ stop_works s -> active_balance (rqs s c) <> 0 ->
  push_cpu (rqs s c) <> c -> migrate_task (rqs s c) = Some p ->
  mig_ok l None base (s <| stop_works := stop_works s ++ [c] |>).
Proof.
  intros [Hs Hn Hw Hu Hl Hb Hpl Hf] Hc Ha Hp Hm. split; try done; simpl.
  - by apply (sys_ok_ext s).
  - apply list.NoDup_app. split_and!; [done|set_solver|apply list.NoDup_singleton].
  - intros d [Hd| ->%list_elem_of_singleton]%elem_of_app; [by apply Hw|]. rewrite Hm. by split_and!.
  - intros x. rewrite Hu. unfold in_hand, pending, leaked. simpl. rewrite filter_app, length_app, filter_cons.
    rewrite Hm. destruct (decide (p = x)) as [->|]; repeat case_decide; simplify_eq/=; lia.
  - by apply (named_same _ s).
Qed.
(** A work that is refused takes the reference with it. *)
Lemma mig_ok_refuse l base c p s :
  mig_ok l (Some p) base s -> migrate_task (rqs s c) = Some p -> mig_ok l None base (cpu_stop_refuse c s).
Proof.
  intros [Hs Hn Hw Hu Hl Hb Hpl Hf] Hm. unfold cpu_stop_refuse. rewrite Hm. split; try done; simpl.
  - by apply (sys_ok_ext s).
  - intros x. rewrite Hu. unfold in_hand, leaked. change (pending _ x) with (pending s x). simpl.
    rewrite filter_cons. simpl. destruct (decide (p = x)) as [->|]; repeat case_decide; simplify_eq/=; lia.
  - by apply (named_same _ s).
Qed.

Lemma mig_ok_free l h base s c : mig_ok l h base s -> active_balance (rqs s c) = 0 -> c ∉ stop_works s.
Proof. intros Hok Ha Hc. by destruct (mo_work _ _ _ _ Hok c Hc). Qed.

(** A CPU of the next slower domain is another CPU. *)
Lemma slower_other s c d :
  topology_ok s -> hmp_cpu_is_slowest c s = false -> 0 <= d < NR_CPUS ->
  cpumask_test_cpu d (hd_cpus (domains s (hmp_slower_domain c s))) = true -> c <> d.
Proof.
  intros Hok Hs Hd Ht ->. unfold hmp_cpu_is_slowest in Hs. apply Z.eqb_neq in Hs.
  destruct (next_in_split _ _ Hs) as (l1 & l2 & E & _). unfold hmp_slower_domain in Ht.
  set (y := next_in (hmp_cpu_domain s d) (hmp_domains s)) in *.
  assert (Hy : y ∈ hmp_domains s) by (rewrite E; set_solver).
  rewrite (tk_sync s Hok) in Ht by (done || lia). apply andb_true_iff in Ht as [_ Ht].
  pose proof (tk_cpu s Hok y d Hy Hd Ht) as Ey. pose proof (tk_nodup s Hok) as Hnd.
  rewrite E, Ey in Hnd. apply list.NoDup_app in Hnd as (_ & _ & [Hn _]%list.NoDup_cons). set_solver.
Qed.

Lemma offload_dest cpu se s :
  topology_ok s -> hmp_offload_down cpu se s < NR_CPUS -> hmp_offload_down cpu se s <> cpu.
Proof.
  unfold hmp_offload_down. intros Hok. destruct (hmp_cpu_is_slowest cpu s) eqn:Hs; [lia|].
  repeat (case_match; [lia|]). destruct (hmp_domain_min_load _ (Some _) s) as [m d] eqn:Hm.
  case_match eqn:Ez; [|lia]. apply Z.eqb_eq in Ez as ->. intros _ ->.
  apply min_load_found in Hm as [Hm _]. apply elem_of_min_load_cpus in Hm as (Hr & Ht & _).
  by apply (slower_other s cpu cpu).
Qed.

(** ** Each operation keeps the invariant and does not crash *)

(** [cpu]'s run queue is set up to push [p], with the reference taken. *)
Record armed (l : bool) base (cpu p : Z) s : Prop := {
  ar_ok : mig_ok l (Some p) base s;
  ar_idle : active_balance (rqs s cpu) = 0;
  ar_push : push_cpu (rqs s cpu) <> cpu;
  ar_task : migrate_task (rqs s cpu) = Some p;
}.

Lemma armed_resting l base cpu p s s' : resting s s' -> armed l base cpu p s -> armed l base cpu p s'.
Proof.
  intros S [Hok Ha Hp Hm].
  destruct (mig_view_inv _ _ (st_rq _ _ _ _ _ _ (resting_still _ _ S) cpu)) as (E1 & E2 & E3 & _).
  split; [by eapply mig_ok_resting|congruence..].
Qed.

Lemma named_push (c d p : Z) b U s :
  named U s -> named U (if b : bool then (move_specific_task c d p s).1 else s).
Proof. intros P. case_match; [by apply named_move_specific|done]. Qed.

Lemma migrate_runnable_ok l base cpu p s :
  armed l base cpu p s ->
  exists s', hmp_migrate_runnable_task cpu s = Some s' /\ mig_ok l None base s'.
Proof.
  intros [Hok Ha Hp Hm]. unfold hmp_migrate_runnable_task. rewrite Hm. cbn.
  repeat (case_match; [try (eexists; split; [done|by apply mig_ok_put]); lia|]).
  eexists. split; [done|]. apply mig_ok_put, (mig_ok_still _ _ _ s); [|by apply named_push, Hok|done].
  case_match; [apply still_move_specific|done].
Qed.

Lemma stop_target_ok l base cpu p s s2 :
  armed l base cpu p s -> resting (upd_rq cpu (fun r => r <| active_balance := 1 |>) s) s2 ->
  mig_ok l None base (stop_target cpu s2).1.
Proof.
  intros [Hok Ha Hp Hm] S. set (s1 := upd_rq cpu _ s) in *.
  assert (Hf : cpu ∉ stop_works s) by (by eapply mig_ok_free).
  assert (Hok2 : mig_ok l (Some p) base s2) by (apply (mig_ok_resting _ _ _ s1); [done|]; by apply mig_ok_upd_rq).
  destruct (mig_view_inv _ _ (st_rq _ _ _ _ _ _ (resting_still _ _ S) cpu)) as (E1 & E2 & E3 & _).
  unfold s1 in E1, E2, E3. rewrite rqs_upd_rq in E1, E2, E3. simpl in E1, E2, E3.
  pose proof (st_env _ _ _ _ _ _ S) as E. unfold env_view in E. injection E as Ew _ _ _ _ _ _ _ _ _ _ _ _.
  change (stop_works s1) with (stop_works s) in Ew.
  assert (Hq : mig_ok l None base (s2 <| stop_works := stop_works s2 ++ [cpu] |>)).
  { apply (mig_ok_queue l base cpu p); [done|by rewrite Ew|lia|congruence|congruence]. }
  assert (Hr : mig_ok l None base (cpu_stop_refuse cpu s2)) by (apply (mig_ok_refuse l base cpu p); congruence).
  unfold stop_target, __cpu_stop_dispatch_work, cpu_stop_queue_work.
  destruct CONFIG_HMP_PACK_STOP_MACHINE, (stopper_enabled s2 cpu); cbn [fst]; try done.
  apply mig_ok_upd_rq; [|done..]. change (cpu ∉ stop_works s2). by rewrite Ew.
Qed.

Lemma push_or_stop_ok l base cpu p s :
  armed l base cpu p s ->
  exists s' b, push_or_stop cpu p s = Some (s', b) /\ mig_ok l None base s'.
Proof.
  intros Har. unfold push_or_stop. case_match.
  - destruct (migrate_runnable_ok l base cpu p s Har) as (s' & -> & Hs). cbn. eauto.
  - pose proof (stop_target_ok l base cpu p s _ Har (reflexivity _)) as Hs.
    destruct (stop_target cpu _) as [s' b]. eauto.
Qed.

Lemma rqs_get p s : rqs (get_task_struct p s) = rqs s.
Proof. done. Qed.

(** Taking the reference and recording target and task arms the run queue. *)
Lemma armed_pull l base cpu p d s :
  mig_ok l None base s -> 1 <= base p -> active_balance (rqs s cpu) = 0 -> d <> cpu ->
  armed l base cpu p
    (upd_rq cpu (fun r => r <| migrate_task := Some p |>)
       (upd_rq cpu (fun r => r <| push_cpu := d |>) (get_task_struct p s))).
Proof.
  intros Hok Hp Ha Hd. assert (cpu ∉ stop_works s) by (by eapply mig_ok_free).
  split; try (rewrite !rqs_upd_rq, ?rqs_get, ?rqs_upd_rq; done).
  apply mig_ok_upd_rq; [done..|]. apply mig_ok_upd_rq; [done..|]. by apply mig_ok_get.
Qed.
Lemma armed_offload l base cpu p d s :
  mig_ok l None base s -> 1 <= base p -> active_balance (rqs s cpu) = 0 -> d <> cpu ->
  armed l base cpu p
    (upd_rq cpu (fun r => r <| migrate_task := Some p |>)
       (get_task_struct p (upd_rq cpu (fun r => r <| push_cpu := d |>) s))).
Proof.
  intros Hok Hp Ha Hd. assert (cpu ∉ stop_works s) by (by eapply mig_ok_free).
  split; try (rewrite !rqs_upd_rq, ?rqs_get, ?rqs_upd_rq; done).
  apply mig_ok_upd_rq; [done..|]. apply mig_ok_get; [|done]. by apply mig_ok_upd_rq.
Qed.

Lemma wake_up_ok l h base c s ipis :
  mig_ok l h base s ->
  mig_ok l h base (upd_rq c (fun r => r <| wake_for_idle_pull := 1 |>) s <| resched_ipis := ipis |>).
Proof.
  intros Hok. set (s1 := upd_rq c _ s).
  assert (H1 : mig_ok l h base s1) by (apply (mig_ok_resting _ _ _ s); [unfold s1; auto with still|done]).
  destruct H1 as [Hs Hn Hw Hu Hl Hb Hp Hf].
  split; [by apply (sys_ok_ext s1)|done..|by apply (named_same _ s1)|done].
Qed.

(** The current task of a CPU, and those HMP compares it with, are tasks others refer to. *)
Lemma orig_known l h base s q c n o :
  mig_ok l h base s -> curr (cfss s q) = Some c -> curr_task n c s = Some o -> 1 <= base (task_of o).
Proof.
  intros Hok Hc Ho. pose proof (mo_named _ _ _ _ Hok) as P.
  destruct (curr_task_known _ n c s o P) as [K T]; [by apply (pq_curr _ _ P) in Hc|done|].
  exact (known_task _ o s P K T).
Qed.

Lemma force_up_cpu_ok l base this cpu s :
  CONFIG_HMP_DELAY_UP_MIGRATION = true -> mig_ok l None base s ->
  exists s' b, force_up_cpu this cpu s = Some (s', b) /\ mig_ok l None base s'.
Proof.
  intros Hd Hok. unfold force_up_cpu. destruct (curr _) as [c|] eqn:Hc; [|eauto].
  destruct (nonzero _) eqn:Ha; [eauto|].
  assert (Ha0 : active_balance (rqs s cpu) = 0) by (unfold nonzero in Ha; lia).
  destruct (so_curr s (mo_sys _ _ _ _ Hok) cpu c Hc) as [orig Ho]. rewrite Ho. cbn [mbind option_bind].
  destruct (hmp_get_heaviest_task _ _ _) as [heavy|]; [|eauto]. rewrite Hd.
  destruct (hmp_up_migration _ _ _) as [t|].
  { eexists _, _. split; [done|]. by apply wake_up_ok. }
  assert (Hb : 1 <= base (task_of (hmp_get_lightest_task orig true s))).
  { apply (lightest_known (fun p => 1 <= base p) orig true s); [apply Hok|by eapply orig_known]. }
  set (light := hmp_get_lightest_task orig true s) in *. clearbody light. rewrite rqs_upd_rq. simpl.
  case_match eqn:Hlt; [|eexists _, _; split; [done|]; apply mig_ok_upd_rq; [by eapply mig_ok_free|done..]].
  apply Z.ltb_lt in Hlt.
  edestruct (push_or_stop_ok l base cpu (task_of light)) as (s' & b & -> & Hs'); [|cbn; eauto].
  eapply armed_resting; [apply still_down_delay|]. apply armed_offload; [done..|].
  by apply offload_dest; [apply Hok|].
Qed.

Lemma force_up_ok base this s :
  CONFIG_HMP_DELAY_UP_MIGRATION = true -> mig_ok false None base s ->
  exists s', hmp_force_up_migration this s = Some s' /\ mig_ok false None base s'.
Proof.
  intros Hd Hok. unfold hmp_force_up_migration.
  destruct (mig_ok_trylock base s Hok) as (w & -> & Hok'). revert Hok'.
  generalize (s <| hmp_force_migration := w |>). clear s Hok w. intros s.
  generalize (cpus_of (cpu_online_mask s)) as l. intros l. revert s.
  induction l as [|c l IH]; intros s Hok; cbn.
  { eexists. split; [done|]. by apply mig_ok_unlock. }
  destruct (force_up_cpu_ok true base this c s Hd Hok) as (s1 & b & -> & H1). cbn.
  destruct b; [|by apply IH]. cbn. eexists. split; [done|]. by apply mig_ok_unlock.
Qed.

(** The scan always ends, with a candidate from a CPU it looked at that others refer to. *)
Lemma idle_pull_scan_ok l0 h base this s l best :
  mig_ok l0 h base s ->
  exists r ratio, idle_pull_scan this s l best = Some (r, ratio)
    /\ (r = best.1 \/ exists p c, r = Some (p, c) /\ c ∈ l /\ 1 <= base p).
Proof.
  intros Hok. revert best. induction l as [|c l IH]; intros best; cbn.
  { destruct best as [r x]. eauto. }
  assert (Hst : exists b, idle_pull_step this s best c = Some b
    /\ (b.1 = best.1 \/ exists p, b.1 = Some (p, c) /\ 1 <= base p)).
  { unfold idle_pull_step. destruct (curr _) as [i|] eqn:Hc; [|eauto].
    destruct (so_curr s (mo_sys _ _ _ _ Hok) c i Hc) as [o Ho]. rewrite Ho. cbn.
    destruct (hmp_get_heaviest_task o this s) as [se|] eqn:Hh; [case_match|]; eauto.
    eexists. split; [done|]. right. eexists. split; [done|].
    apply (heaviest_known (fun p => 1 <= base p) o this s se); [apply Hok|by eapply orig_known|done]. }
  destruct Hst as (b & -> & Hb). cbn. destruct (IH b) as (r & x & -> & Hr).
  exists r, x. split; [done|]. destruct Hr as [->|(p & d & -> & Hd & Hcd)].
  - destruct Hb as [->|(p & -> & Hc)]; [auto|]. right. exists p, c. set_solver.
  - right. exists p, d. set_solver.
Qed.

Lemma idle_pull_ok base this s :
  mig_ok false None base s ->
  exists s' b, hmp_idle_pull this s = Some (s', b) /\ mig_ok false None base s'.
Proof.
  intros Hok. unfold hmp_idle_pull. destruct (hmp_cpu_is_slowest this s) eqn:Hsl; [eauto|].
  destruct (mig_ok_trylock base s Hok) as (w & -> & Hok').
  change (hmp_cpu_is_slowest this (s <| hmp_force_migration := w |>) = false) in Hsl.
  revert Hok' Hsl. generalize (s <| hmp_force_migration := w |>). clear s Hok w. intros s Hok Hsl.
  destruct (idle_pull_scan_ok _ _ base this s (cpus_of (hd_cpus (domains s (hmp_slower_domain this s))))
              (None, 0) Hok) as (r & x & -> & Hr). cbn.
  destruct Hr as [->|(p & c & -> & Hin & Hp)]; cbn.
  { eexists _, _. split; [done|]. by apply mig_ok_unlock. }
  apply elem_of_cpus_of in Hin as [Hcr Hct].
  assert (Hne : this <> c) by (eapply slower_other; [apply Hok|done..]).
  destruct (nonzero (active_balance (rqs s c))) eqn:Ha; cbn.
  { eexists _, _. split; [done|]. by apply mig_ok_unlock. }
  destruct (task_cpu _ =? c); cbn.
  2:{ eexists _, _. split; [done|]. by apply mig_ok_unlock. }
  set (s1 := upd_rq c _ _). set (s2 := hmp_next_up_delay (TaskSe p) _ s1).
  assert (Har : armed true base c p s2).
  { apply (armed_resting _ _ _ _ s1); [apply still_up_delay|]. apply armed_pull; [done..| |done].
    unfold nonzero in Ha. lia. }
  destruct (negb (nonzero (on_cpu (tasks s2 p)))).
  - destruct (migrate_runnable_ok true base c p s2 Har) as (s3 & -> & H3). cbn.
    eexists _, _. split; [done|]. by apply mig_ok_unlock.
  - cbn. set (s3 := hmp_cpu_keepalive_trigger this _).
    pose proof (stop_target_ok true base c p s2 s3 Har (still_keepalive _ _)) as H4.
    destruct (stop_target c s3) as [s4 b]. eexists _, _. split; [done|]. by apply mig_ok_unlock.
Qed.

Lemma rebalance_ok base this s :
  CONFIG_HMP_DELAY_UP_MIGRATION = true -> mig_ok false None base s ->
  exists s' b, run_rebalance_domains this s = Some (s', b) /\ mig_ok false None base s'.
Proof.
  intros Hd Hok. unfold run_rebalance_domains. rewrite Hd. cbv zeta. simpl andb.
  set (m := if nonzero (wake_for_idle_pull _) then _ else _).
  assert (Hm : exists s1 b, m = Some (s1, b) /\ mig_ok false None base s1).
  { unfold m. case_match; [|eauto]. apply idle_pull_ok.
    apply (mig_ok_resting _ _ _ s); [auto with still|done]. }
  destruct Hm as (s1 & b & -> & H1). cbn. case_match; [eauto|].
  destruct (force_up_ok base this s1 Hd H1) as (s2 & -> & H2). cbn. eauto.
Qed.

(** The stopper of [c] takes its work off the queue. *)
Definition take_work (c : Z) s : sys := s <| stop_works := filter (fun d => d <> c) (stop_works s) |>.

Lemma pending_take c p s :
  NoDup (stop_works s) -> c ∈ stop_works s -> migrate_task (rqs s c) = Some p ->
  forall x, pending s x = pending (take_work c s) x + if x =? p then 1 else 0.
Proof.
  unfold pending, take_work. simpl. intros Hn Hc Hm x. induction (stop_works s) as [|d l IH]; [set_solver|].
  apply list.NoDup_cons in Hn as [Hd Hn]. apply elem_of_cons in Hc as [<-|Hc].
  - rewrite (filter_cons_False (fun d => d <> c)) by auto.
    rewrite (filter_keeps (fun d => d <> c)) by (intros y Hy ->; done).
    rewrite filter_cons, Hm. destruct (Z.eqb_spec x p); case_decide; simpl; simplify_eq; lia.
  - rewrite (filter_cons_True (fun d => d <> c)) by (intros ->; done).
    rewrite !filter_cons. case_decide; simpl; rewrite ?Nat2Z.inj_succ, (IH Hn Hc); lia.
Qed.

Lemma take_work_ok l base c p s :
  mig_ok l None base s -> c ∈ stop_works s -> migrate_task (rqs s c) = Some p ->
  mig_ok l (Some p) base (take_work c s).
Proof.
  intros [Hs Hn Hw Hu Hl Hb Hp Hf] Hc Hm. split; try done.
  - by apply (sys_ok_ext s).
  - by apply list.NoDup_filter.
  - intros d Hd. apply list_elem_of_filter in Hd as [_ Hd]. by apply Hw.
  - intros x. change (task_usage (tasks (take_work c s) x)) with (task_usage (tasks s x)).
    change (leaked (take_work c s) x) with (leaked s x).
    rewrite Hu, (pending_take c p s Hn Hc Hm x). unfold in_hand.
    destruct (Z.eqb_spec x p) as [->|]; repeat case_decide; simplify_eq; lia.
  - by apply (named_same _ s).
Qed.

(** Both stopper functions: the reference in hand is put, before or after the run queue is
    released. *)
Lemma cpu_stop_ok l base c this s :
  mig_ok l None base s -> c ∈ stop_works s ->
  (exists s', hmp_active_task_migration_cpu_stop c this (take_work c s) = Some s' /\ mig_ok l None base s')
  /\ (exists s', hmp_idle_pull_cpu_stop c this (take_work c s) = Some s' /\ mig_ok l None base s').
Proof.
  intros Hok Hc. destruct (mo_work _ _ _ _ Hok c Hc) as (Ha & Hp & p & Hm).
  pose proof (take_work_ok l base c p s Hok Hc Hm) as H1.
  unfold hmp_active_task_migration_cpu_stop, hmp_idle_pull_cpu_stop. change (rqs (take_work c s)) with (rqs s).
  rewrite Hm. cbn [mbind option_bind]. cbv zeta.
  assert (Hf : c ∉ stop_works (take_work c s)) by (unfold take_work; simpl; rewrite list_elem_of_filter; naive_solver).
  set (s1 := take_work c s) in *.
  assert (Hout : forall s', still_usage s1 s' -> named (fun p => 1 <= base p) s' ->
     mig_ok l None base (put_task_struct p (upd_rq c (fun r => r <| active_balance := 0 |>) s'))
     /\ mig_ok l None base (upd_rq c (fun r => r <| active_balance := 0 |>) (put_task_struct p s'))).
  { intros s' S P. pose proof (mig_ok_still _ _ _ s1 s' S P H1) as H2.
    pose proof (st_env _ _ _ _ _ _ S) as E. unfold env_view in E. injection E as E _ _ _ _ _ _ _ _ _ _ _ _.
    assert (Hf' : c ∉ stop_works s') by (by rewrite E). split.
    - by apply mig_ok_put, mig_ok_upd_rq.
    - by apply mig_ok_upd_rq, mig_ok_put. }
  destruct (Hout s1 (reflexivity _) (mo_named _ _ _ _ H1)) as [O1 O2].
  do 3 (case_match; [by split; eexists|]). case_match; [lia|].
  match goal with |- context [if spanning_domain ?a ?b ?x then _ else _] =>
    destruct (Hout (if spanning_domain a b x then (move_specific_task a b p x).1 else x)) as [O3 O4] end.
  - case_match; [apply still_move_specific|done].
  - apply named_push, H1.
  - by split; eexists.
Qed.

(** ** Interleavings *)

(** Anything else the kernel does.  It leaves the stopper works, the run queues they belong to
    and [hmp_force_migration] alone.  It queues, runs and moves tasks, takes and drops
    references of its own ([base] becomes [base']), at least one of which it holds on every task
    of a run queue, and it enables and disables stoppers. *)
Record other_activity base s base' s' : Prop := {
  ac_works : stop_works s' = stop_works s /\ stop_refused s' = stop_refused s;
  ac_push : forall c, c ∈ stop_works s -> push_view (rqs s' c) = push_view (rqs s c);
  ac_usage : forall p, task_usage (tasks s' p) - task_usage (tasks s p) = base' p - base p;
  ac_freed : forall p, task_freed (tasks s' p) = true -> task_usage (tasks s' p) = 0;
  ac_force : hmp_force_migration s' = hmp_force_migration s;
  ac_base : forall p, 0 <= base' p;
  ac_named : named (fun p => 1 <= base' p) s';
  ac_sys : sys_ok s';
}.

(** Softirq balancing, the pull of a CPU that goes idle ([idle_balance]), a stopper with either
    of the two functions, and the rest. *)
Inductive hmp_step : (Z -> Z) * sys -> (Z -> Z) * sys -> Prop :=
| step_rebalance base this s s' b :
    run_rebalance_domains this s = Some (s', b) -> hmp_step (base, s) (base, s')
| step_idle_pull base this s s' b :
    hmp_idle_pull this s = Some (s', b) -> hmp_step (base, s) (base, s')
| step_stopper base c this s s' :
    c ∈ stop_works s -> hmp_active_task_migration_cpu_stop c this (take_work c s) = Some s' ->
    hmp_step (base, s) (base, s')
| step_pull_stopper base c this s s' :
    c ∈ stop_works s -> hmp_idle_pull_cpu_stop c this (take_work c s) = Some s' ->
    hmp_step (base, s) (base, s')
| step_other base s base' s' : other_activity base s base' s' -> hmp_step (base, s) (base', s').

Lemma other_ok base s base' s' :
  other_activity base s base' s' -> mig_ok false None base s -> mig_ok false None base' s'.
Proof.
  intros [[Ew Er] Ep Eu Ef El Hb Hp Hs] [_ Hn Hw Hu Hl _ _ _]. split; [done|congruence| | |congruence|done..].
  - intros c Hc. rewrite Ew in Hc. destruct (push_view_inv _ _ (Ep c Hc)) as (-> & -> & ->). auto.
  - intros p. specialize (Eu p). specialize (Hu p). unfold leaked in *. rewrite Er.
    rewrite (pending_ext s s' p); [lia|done|]. intros c Hc. by apply push_view_inv, Ep.
Qed.

Lemma hmp_step_ok x y :
  CONFIG_HMP_DELAY_UP_MIGRATION = true -> hmp_step x y -> mig_ok false None x.1 x.2 -> mig_ok false None y.1 y.2.
Proof.
  intros Hd [base this s1 s2 b E|base this s1 s2 b E|base c this s1 s2 Hc E|base c this s1 s2 Hc E|base s1 base' s2 O];
    cbn; intros Hok.
  - destruct (rebalance_ok base this s1 Hd Hok) as (s3 & b' & E' & H3). congruence.
  - destruct (idle_pull_ok base this s1 Hok) as (s3 & b' & E' & H3). congruence.
  - destruct (cpu_stop_ok false base c this s1 Hok Hc) as [(s3 & E' & H3) _]. congruence.
  - destruct (cpu_stop_ok false base c this s1 Hok Hc) as [_ (s3 & E' & H3)]. congruence.
  - by eapply other_ok.
Qed.

End safety.

(** * Moving a task keeps the accounts *)

Section move.
Context `{Config}.
Context (univ : list se_id) (univ_nodup : NoDup univ) (univ_small : Z.of_nat (length univ) <= 48000).
Implicit Types (s : sys).

Lemma update_rq_clock_eq c s : loadeq s (update_rq_clock c s).
Proof. unfold update_rq_clock. loadeq_chain. Qed.
Hint Resolve update_rq_clock_eq : loadeq.

Lemma set_buddy_eq (f : se_id -> cfs_rq -> cfs_rq) l s :
  (forall i c, cfs_frame (f i c) = cfs_frame c) ->
  (forall i c, runnable_load_avg (f i c) = runnable_load_avg c) ->
  loadeq s (foldl (fun s i => upd_cfs (cfs_rq_of s i) (f i) s) s l).
Proof.
  intros Hf Hr. revert s. induction l as [|i l IH]; intros s; simpl; [done|].
  etransitivity; [|apply IH]. by apply loadeq_upd_cfs.
Qed.
Lemma set_next_buddy_eq i s : loadeq s (set_next_buddy i s).
Proof. unfold set_next_buddy. case_match; [done|]. by apply set_buddy_eq. Qed.
Lemma set_last_buddy_eq i s : loadeq s (set_last_buddy i s).
Proof. unfold set_last_buddy. case_match; [done|]. by apply set_buddy_eq. Qed.
Lemma resched_curr_eq c s : loadeq s (resched_curr c s).
Proof. apply loadeq_upd_rq. Qed.
Hint Resolve set_next_buddy_eq set_last_buddy_eq resched_curr_eq : loadeq.

Lemma check_preempt_wakeup_eq cpu c p flags s : loadeq s (check_preempt_wakeup cpu c p flags s).
Proof.
  unfold check_preempt_wakeup. cbv zeta. case_match; [done|].
  set (mark := NEXT_BUDDY _ && _ && _). set (s1 := if mark then _ else s).
  assert (S1 : loadeq s s1) by (unfold s1; loadeq_chain).
  clearbody s1 mark. transitivity s1; [done|]. clear S1.
  destruct (need_resched _); [done|]. destruct ((policy _ =? SCHED_IDLE) && _); [loadeq_chain|].
  destruct (_ || _); [done|]. destruct (find_matching_se _ _ s1) as [[a b]|]; [|done].
  set (s2 := update_curr _ s1).
  assert (S2 : loadeq s1 s2) by apply update_curr_eq. clearbody s2.
  assert (S3 : loadeq s2 (wakeup_preempt_entity a b s2).1).
  { unfold wakeup_preempt_entity, wakeup_gran. case_match; [done|].
    pose proof (calc_delta_fair_eq (ulong (sysctl_sched_wakeup_granularity (sysctl s2))) b s2).
    destruct (calc_delta_fair _ b s2). by case_match. }
  destruct (wakeup_preempt_entity a b s2) as [s3 r]. cbn [fst] in S3.
  transitivity s3; [by rewrite S2|]. loadeq_chain.
Qed.
Hint Resolve check_preempt_wakeup_eq : loadeq.
Lemma check_preempt_curr_eq cpu p flags s : loadeq s (check_preempt_curr cpu p flags s).
Proof. unfold check_preempt_curr. loadeq_chain. Qed.

Lemma migrate_task_rq_ok p s :
  cfs_ok univ s -> TaskSe p ∈ univ -> on_rq (ses s (TaskSe p)) = 0 ->
  cfs_ok univ (migrate_task_rq_fair p s) /\ on_rq (ses (migrate_task_rq_fair p s) (TaskSe p)) = 0.
Proof.
  intros Hok Hi Hoff. unfold migrate_task_rq_fair. case_match; [|done].
  set (q := cfs_rq_of s (TaskSe p)). set (s1 := if negb _ && _ then _ else s).
  assert (L1 : loadeq s s1) by (unfold s1; loadeq_chain).
  destruct (loadeq_facts univ s s1 (TaskSe p) q L1 Hok) as (H1 & _ & O1 & _). clearbody s1.
  pose proof (quiet_synchronize (TaskSe p) s1 (proj1 (co_task _ _ H1 _ Hi))) as Q2.
  destruct (__synchronize_entity_decay (TaskSe p) s1) as [s2 d]. cbn [fst] in Q2.
  set (s3 := upd_avg _ _ s2).
  assert (Q3 : quiet (TaskSe p) s1 s3).
  { eapply quiet_trans; [exact Q2|]. intros. by apply quiet_upd_avg. }
  set (s4 := upd_cfs q _ s3). assert (L4 : loadeq s3 s4) by (unfold s4; auto with loadeq).
  assert (H3 : cfs_ok univ s3) by (apply (quiet_off_queue univ (TaskSe p) s1); congruence || done).
  destruct (loadeq_facts univ s3 s4 (TaskSe p) q L4 H3) as (H4 & _ & O4 & _).
  split; [done|]. rewrite O4, (oa_self _ _ _ (qt_frame _ _ _ Q3)). simpl. congruence.
Qed.

(** Off the queue of the old CPU: what [deactivate_task] and [set_task_cpu] lead to. *)
Lemma rehome_ok p src dst s :
  cfs_ok univ s -> TaskSe p ∈ univ -> on_rq (ses s (TaskSe p)) <> 0 ->
  (forall q, curr (cfss s q) <> Some (TaskSe p)) -> sched_task_group (tasks s p) = 0 ->
  let s' := set_task_cpu p dst (deactivate_task src p 0 s) in
  cfs_ok univ s' /\ cfs_rq_of s' (TaskSe p) = CfsRq 0 dst /\ on_rq (ses s' (TaskSe p)) = 0.
Proof.
  intros Hok Hi Hon Hc Htg. unfold deactivate_task, set_task_cpu. cbv zeta.
  set (s0 := update_rq_clock src s).
  destruct (loadeq_facts univ s s0 (TaskSe p) (CfsRq 0 src) (update_rq_clock_eq src s) Hok)
    as (H0 & _ & O0 & _).
  destruct (dequeue_task_ok univ univ_nodup univ_small src p 0 s0) as [H1 O1]; [done|done|congruence|].
  set (s1 := dequeue_task_fair src p 0 s0) in *.
  assert (S1 : still s s1) by (transitivity s0; [apply resting_still, still_rq_clock|apply still_dequeue_task]).
  clearbody s1. set (s2 := if negb _ then _ else s1).
  assert (H2 : cfs_ok univ s2 /\ on_rq (ses s2 (TaskSe p)) = 0 /\ still s1 s2).
  { unfold s2. case_match; [|done]. destruct (migrate_task_rq_ok p s1 H1 Hi O1).
    split; [done|]. split; [done|apply resting_still, still_migrate_rq]. }
  clearbody s2. destruct H2 as (H2 & O2 & S2). rewrite <- S1 in S2.
  assert (G2 : sched_task_group (tasks s2 p) = 0) by (by rewrite (st_task _ _ _ _ _ _ S2)).
  split; [apply set_task_cpu_ok; try done; intros q; by rewrite (st_curr _ _ _ _ _ _ S2)|].
  unfold __set_task_cpu, set_task_rq, cfs_rq_of. rewrite G2. by store_simpl.
Qed.

(** C9. Moving a queued task.  [move_task] takes a task that is queued, and not
    running, off its run queue, re-homes it and queues it on the destination CPU:
    afterwards the task is there, and the accounts of all run queues (counts,
    weights, runnable load, timelines) again agree with what is queued on them. *)
Theorem move_task_accounted p src dst s :
  cfs_ok univ s -> TaskSe p ∈ univ -> on_rq (ses s (TaskSe p)) <> 0 ->
  (forall q, curr (cfss s q) <> Some (TaskSe p)) -> sched_task_group (tasks s p) = 0 ->
  let s' := move_task p src dst s in
  cfs_ok univ s' /\ TaskSe p ∈ members univ s' (CfsRq 0 dst) /\ task_cpu (tasks s' p) = dst.
Proof.
  intros Hok Hi Hon Hc Htg. destruct (rehome_ok p src dst s) as (H3 & E3 & O3); [done..|].
  cbv zeta. split; [|split; [|rewrite tasks_move; by rewrite decide_True]]; unfold move_task, activate_task;
    cbv zeta; set (s3 := set_task_cpu p dst _) in *; clearbody s3;
    destruct (loadeq_facts univ s3 _ (TaskSe p) (CfsRq 0 dst) (update_rq_clock_eq dst s3) H3)
      as (H4 & E4 & O4 & _);
    destruct (enqueue_task_ok univ univ_nodup univ_small dst p 0 (update_rq_clock dst s3)) as [H5 Q5];
    try (done || congruence).
  - by rewrite <- check_preempt_curr_eq.
  - apply elem_of_members. split; [|done]. rewrite E4, E3 in Q5.
    eapply ent_view_queued; [apply check_preempt_curr_eq|exact Q5].
Qed.
End move.

(** * Which task is pulled, and what goes wrong *)

Section pull.
Context `{Config}.
Implicit Types (s : sys).

(** The task [hmp_idle_pull] would take from [cpu]. *)
Definition pullable (this cpu : Z) s : option se_id :=
  c ← curr (cfss s (CfsRq 0 cpu));
  orig ← curr_task (nr_groups s) c s;
  se ← hmp_get_heaviest_task orig this s;
  if hmp_task_eligible_for_up_migration se s
     && cpumask_test_cpu this (tsk_cpus_allowed s (task_of se))
  then Some se else None.

Lemma idle_pull_step_spec this s best cpu b :
  idle_pull_step this s best cpu = Some b ->
  b = match pullable this cpu s with
      | Some se => if best.2 <? se_ratio s se then (Some (task_of se, cpu), se_ratio s se) else best
      | None => best
      end.
Proof.
  unfold idle_pull_step, pullable. destruct (curr _) as [c|]; cbn; [|congruence].
  destruct (curr_task _ _ _) as [o|]; cbn; [|done].
  destruct (hmp_get_heaviest_task o this s) as [se|]; cbn; [|congruence].
  destruct (hmp_task_eligible_for_up_migration se s), (cpumask_test_cpu this _); cbn;
    rewrite ?andb_true_r, ?andb_false_r; try (by intros [= <-]).
  destruct (best.2 <? se_ratio s se); by intros [= <-].
Qed.

(** Idle pull takes the heaviest.  The search of [hmp_idle_pull] over the CPUs of
    the slower domain ends with a task if some CPU offers one whose ratio is
    positive: a task that is eligible for up-migration and allowed on the pulling
    CPU, with the greatest load ratio any of the CPUs offers. *)
Theorem idle_pull_heaviest this s l r ratio :
  idle_pull_scan this s l (None, 0) = Some (r, ratio) ->
  (forall c se, c ∈ l -> pullable this c s = Some se -> se_ratio s se <= ratio)
  /\ match r with
     | Some (p, c) => c ∈ l /\ exists se, pullable this c s = Some se /\ task_of se = p
                                          /\ se_ratio s se = ratio
     | None => ratio = 0
     end.
Proof.
  assert (G : forall l best, idle_pull_scan this s l best = Some (r, ratio) ->
    best.2 <= ratio
    /\ (forall c se, c ∈ l -> pullable this c s = Some se -> se_ratio s se <= ratio)
    /\ ((r, ratio) = best \/ exists c se, r = Some (task_of se, c) /\ c ∈ l
          /\ pullable this c s = Some se /\ se_ratio s se = ratio)).
  { clear l. induction l as [|c l IH]; intros best; cbn.
    - intros [= ->]. split; [done|]. split; [set_solver|auto].
    - destruct (idle_pull_step this s best c) as [b|] eqn:E; [|done]. cbn.
      apply idle_pull_step_spec in E. intros (I1 & I2 & I3)%IH.
      destruct (pullable this c s) as [se|] eqn:Hp;
        [destruct (Z.ltb_spec best.2 (se_ratio s se))|]; subst b; simpl in *;
        (split; [lia|]); (split; [intros d x [->|Hd]%elem_of_cons Hx; [|by eapply I2]|]);
        try (rewrite Hp in Hx; simplify_eq; lia);
        (destruct I3 as [?|(d & x & ? & ? & ? & ?)];
         [simplify_eq; try (right; exists c, se; set_solver); by auto
         |right; exists d, x; set_solver]). }
  intros (G1 & G2 & G3)%G. split; [done|]. destruct G3 as [[= -> ->]|(c & se & -> & ? & ? & ?)]; [done|].
  split; [done|]. by exists se.
Qed.

Lemma up_delay_nr_running i d s c :
  rq_nr_running (rqs (hmp_next_up_delay i d s) c) = rq_nr_running (rqs s c).
Proof.
  unfold hmp_next_up_delay. cbv zeta. destruct (decide (d = c)) as [->|]; by store_simpl.
Qed.

(** A task that is queued on [cpu] and does not run is moved at once, unless the target is
    [cpu] itself. *)
Lemma push_now cpu p s :
  migrate_task (rqs s cpu) = Some p -> active_balance (rqs s cpu) = 0 ->
  2 <= rq_nr_running (rqs s cpu) -> task_cpu (tasks s p) = cpu -> on_cpu (tasks s p) = 0 ->
  let dst := push_cpu (rqs s cpu) in
  push_or_stop cpu p s
  = if cpu =? dst then None
    else Some (put_task_struct p (if spanning_domain cpu dst s
                                  then (move_specific_task cpu dst p s).1 else s), false).
Proof.
  intros Hm Ha Hn Ht Hr. unfold push_or_stop, hmp_migrate_runnable_task.
  rewrite Hr, Hm, Ha. change (nonzero 0) with false. cbn [negb mbind option_bind].
  destruct (Z.leb_spec (rq_nr_running (rqs s cpu)) 1); [lia|].
  rewrite Ht, Z.eqb_refl. cbn [negb]. by case_match.
Qed.

(** C40. Without delayed up-migration the CPU chosen for an up-migration is ignored: the
    task is sent to the CPU that happens to run the balancing softirq.  If that is the
    very CPU the task is queued on, the kernel stops in [BUG_ON(src_rq == dst_rq)];
    otherwise the target recorded is that CPU, be it a LITTLE one. *)
Theorem force_up_ignores_target this cpu c orig p t s :
  CONFIG_HMP_DELAY_UP_MIGRATION = false ->
  curr (cfss s (CfsRq 0 cpu)) = Some c -> curr_task (nr_groups s) c s = Some orig ->
  active_balance (rqs s cpu) = 0 -> 2 <= rq_nr_running (rqs s cpu) ->
  hmp_get_heaviest_task orig (-1) s = Some (TaskSe p) ->
  hmp_up_migration cpu (TaskSe p) s = Some t ->
  task_cpu (tasks s p) = cpu -> on_cpu (tasks s p) = 0 ->
  (this = cpu -> force_up_cpu this cpu s = None)
  /\ (this <> cpu -> exists s', force_up_cpu this cpu s = Some (s', true)
                               /\ push_cpu (rqs s' cpu) = this).
Proof.
  intros Hd Hc Ho Ha Hn Hh Hu Ht Hr. unfold force_up_cpu. rewrite Hc, Ha.
  change (nonzero 0) with false. cbv iota beta. rewrite Ho. cbn [mbind option_bind].
  rewrite Hh. cbn [task_of]. rewrite Hu, Hd, Ht, Z.eqb_refl. cbv zeta. cbn [negb andb].
  set (s0 := upd_rq cpu (fun r => r <| migrate_task := Some p |>) _).
  set (s1 := hmp_next_up_delay (TaskSe p) _ s0).
  assert (S1 : still s0 s1) by apply resting_still, still_up_delay.
  assert (E0 : rqs s0 cpu = rqs s cpu <| push_cpu := this |> <| migrate_task := Some p |>)
    by (unfold s0; by rewrite !rqs_upd_rq).
  assert (T0 : tasks s0 p = tasks s p <| task_usage := task_usage (tasks s p) + 1 |>)
    by (unfold s0, get_task_struct; by store_rw).
  assert (N1 : rq_nr_running (rqs s1 cpu) = rq_nr_running (rqs s0 cpu)) by apply up_delay_nr_running.
  destruct (mig_view_inv _ _ (st_rq _ _ _ _ _ _ S1 cpu)) as (A1 & M1 & P1 & _).
  pose proof (st_task _ _ _ _ _ _ S1 p) as T1. cbv beta in T1.
  clearbody s1 s0. rewrite E0 in A1, M1, P1, N1. rewrite T0 in T1. simpl in A1, M1, P1, N1.
  rewrite (push_now cpu p s1) by (rewrite ?T1; simpl; congruence || lia). rewrite P1. split.
  - intros ->. by rewrite Z.eqb_refl.
  - intros Hne. destruct (Z.eqb_spec cpu this); [done|]. eexists. split; [done|].
    set (s2 := if spanning_domain cpu this s1 then _ else s1).
    assert (S2 : still_usage s1 s2) by (unfold s2; case_match; [apply still_move_specific|done]).
    destruct (mig_view_inv _ _ (st_rq _ _ _ _ _ _ S2 cpu)) as (_ & _ & E2 & _).
    change (push_cpu (rqs s2 cpu) = this). congruence.
Qed.
End pull.

(** * Witnesses *)

(** The configuration with delayed up-migration. *)
Definition delay_config : Config := {|
  NR_CPUS := 8; NR_CPUS_pos := eq_refl;
  BITS_PER_LONG := 32; BITS_PER_LONG_ok := or_introl eq_refl;
  CONFIG_SCHED_HMP_PRIO_FILTER := false;
  CONFIG_HMP_VARIABLE_SCALE := true;
  CONFIG_HMP_FREQUENCY_INVARIANT_SCALE := true;
  CONFIG_SCHED_HMP_LITTLE_PACKING := true;
  CONFIG_HMP_DELAY_UP_MIGRATION := true;
  CONFIG_HMP_PACK_STOP_MACHINE := false;
  CONFIG_SCHED_HMP_ENHANCEMENT := false;
  CONFIG_HMP_DYNAMIC_THRESHOLD := false; USE_HMP_DYNAMIC_THRESHOLD := false;
  CONFIG_HMP_GLOBAL_BALANCE := false; CONFIG_HMP_TASK_ASSIGNMENT := false;
  CONFIG_HMP_DISCARD_CFS_SELECTION_RESULT := false; CONFIG_HMP_PACK_SMALL_TASK := false;
  CONFIG_HMP_LAZY_BALANCE := false; CONFIG_HMP_POWER_AWARE_CONTROLLER := false;
  CONFIG_ARCH_SCALE_INVARIANT_CPU_CAPACITY := false; CONFIG_PREEMPT := false;
  CONFIG_SCHED_MC := true; CONFIG_SCHED_SMT := false; CONFIG_DISABLE_CPU_SCHED_DOMAIN_BALANCE := true;
  HZ := 100; HZ_ok := conj eq_refl eq_refl |}.

(** The heavy task 4 runs on LITTLE CPU 4, where task 20 is queued; big CPU 2 has been
    asked to pull. *)
Definition pull_sys : sys :=
  let s := upd_cfs (CfsRq 0 4) (fun c => c <| curr := Some (TaskSe 4) |>
                                           <| tasks_timeline := [TaskSe 20] |>) busy_sys in
  let s := upd_task 4 (fun t => t <| on_cpu := 1 |>) s in
  let s := upd_rq 4 (fun r => r <| rq_nr_running := 2 |> <| cfs_tasks := [20; 4] |>) s in
  upd_rq 2 (fun r => r <| wake_for_idle_pull := 1 |>) s.

Lemma busy_sys_place i :
  my_q (ses busy_sys i) = my_q (sample_se i) /\ se_parent (ses busy_sys i) = None.
Proof. unfold busy_sys. store_frame. done. Qed.

Lemma pull_sys_ok : mig_ok (H := delay_config) false None (fun _ => 1) pull_sys.
Proof.
  split.
  - split.
    + destruct sample_topology_ok. by split.
    + intros c i Hi. unfold pull_sys in *. revert Hi. store_frame.
      destruct (decide (c = 4)) as [->|Hc].
      * store_simpl. intros [= <-]. by eexists.
      * rewrite cfss_upd_cfs_ne by congruence. unfold busy_sys. cbv zeta.
        by rewrite cfss_upd_cfs_ne by congruence.
  - constructor.
  - intros c Hc. by apply elem_of_nil in Hc.
  - intros p. unfold pull_sys. store_frame.
    destruct (decide (p = 4)) as [->|]; [done|]. by rewrite tasks_upd_task_ne.
  - done.
  - done.
  - split.
    + intros q i _. by destruct i.
    + intros q i _. by destruct i.
    + done.
    + intros i j Hj. unfold pull_sys in Hj. revert Hj. store_frame.
      by rewrite (proj2 (busy_sys_place i)).
    + intros g c. unfold pull_sys. store_frame. by rewrite (proj1 (busy_sys_place _)).
  - intros p. unfold pull_sys. store_frame.
    destruct (decide (p = 4)) as [->|]; [done|]. by rewrite tasks_upd_task_ne.
Qed.

(** The state after CPU 2 has balanced: the work is queued on the stopper of CPU 4. *)
Definition pulled_sys : sys :=
  match run_rebalance_domains (H := delay_config) 2 pull_sys with Some (s, _) => s | None => pull_sys end.

Lemma pulled_sys_run :
  exists b, run_rebalance_domains (H := delay_config) 2 pull_sys = Some (pulled_sys, b).
Proof.
  assert (E : match run_rebalance_domains (H := delay_config) 2 pull_sys with
              | Some _ => true | None => false end = true) by (vm_compute; reflexivity).
  unfold pulled_sys. destruct (run_rebalance_domains 2 pull_sys) as [[s b]|]; [by exists b|done].
Qed.


(** With the stopper of CPU 4 disabled the reference is lost, and CPU 4 stays marked. *)
Example refused_work_leaks :
  match run_rebalance_domains (H := delay_config) 2 (pull_sys <| stopper_enabled := fun _ => false |>) with
  | Some (s, _) => (stop_works s, leaked s 4, task_usage (tasks s 4), active_balance (rqs s 4))
  | None => ([], 0, 0, 0)
  end = ([], 1, 2, 1).
Proof. vm_compute. reflexivity. Qed.

(** Task 12 is queued on CPU 4, heavier than the running task 4: without delayed
    up-migration, balancing on CPU 4 itself stops the kernel. *)
Definition queued_heavy_sys : sys :=
  upd_rq 4 (fun r => r <| rq_nr_running := 2 |> <| cfs_tasks := [12; 4] |>)
    (upd_cfs (CfsRq 0 4) (fun c => c <| curr := Some (TaskSe 4) |>
                                     <| tasks_timeline := [TaskSe 12] |>) busy_sys).

Lemma force_up_ignores_target_witness :
  force_up_cpu (H := big_LITTLE_MP) 4 4 queued_heavy_sys = None
  /\ (exists s, force_up_cpu (H := big_LITTLE_MP) 5 4 queued_heavy_sys = Some (s, true)
                /\ push_cpu (rqs s 4) = 5)
  /\ run_rebalance_domains (H := big_LITTLE_MP) 4 queued_heavy_sys = None.
Proof.
  split; [|split; [|vm_compute; reflexivity]].
  - apply (force_up_ignores_target (H := big_LITTLE_MP) 4 4 (TaskSe 4) (TaskSe 4) 12 2
             queued_heavy_sys); (vm_compute; reflexivity) || (vm_compute; discriminate).
  - apply (force_up_ignores_target (H := big_LITTLE_MP) 5 4 (TaskSe 4) (TaskSe 4) 12 2
             queued_heavy_sys); (vm_compute; reflexivity) || (vm_compute; discriminate).
Defined.

(** CPU 2 looks at CPUs 4 to 7: task 4 is the heaviest on offer. *)
Lemma idle_pull_heaviest_witness :
  idle_pull_scan (H := delay_config) 2 pull_sys [4; 5; 6; 7] (None, 0) = Some (Some (4, 4), 800)
  /\ exists se, pullable (H := delay_config) 2 4 pull_sys = Some se /\ task_of se = 4
                /\ se_ratio pull_sys se = 800.
Proof.
  assert (E : idle_pull_scan (H := delay_config) 2 pull_sys [4; 5; 6; 7] (None, 0)
              = Some (Some (4, 4), 800)) by (vm_compute; reflexivity).
  split; [exact E|].
  destruct (idle_pull_heaviest (H := delay_config) 2 pull_sys [4; 5; 6; 7] _ _ E) as [_ [_ Hp]].
  exact Hp.
Defined.

(** Task 4, woken on CPU 4, is moved to CPU 5. *)
Lemma move_task_accounted_witness :
  let s := enqueue_task_fair (H := big_LITTLE_MP) 4 4 ENQUEUE_WAKEUP sample_sys in
  let s' := move_task (H := big_LITTLE_MP) 4 4 5 s in
  cfs_ok (H := big_LITTLE_MP) sample_univ s' /\ members sample_univ s' (CfsRq 0 4) = []
  /\ cfs_nr_running (cfss s' (CfsRq 0 5)) = 1.
Proof.
  intros s s'.
  assert (Nu : NoDup sample_univ) by (apply (bool_decide_unpack _); vm_compute; exact I).
  assert (Su : Z.of_nat (length sample_univ) <= 48000) by (vm_compute; discriminate).
  split; [|split; vm_compute; reflexivity].
  apply (move_task_accounted (H := big_LITTLE_MP) sample_univ Nu Su 4 4 5 s).
  - apply (enqueue_task_ok (H := big_LITTLE_MP) sample_univ Nu Su 4 4 ENQUEUE_WAKEUP sample_sys
             sample_cfs_ok); [apply list_elem_of_here|reflexivity].
  - apply list_elem_of_here.
  - vm_compute. discriminate.
  - intros q. unfold s.
    rewrite (st_curr _ _ _ _ _ _ (still_enqueue_task (H := big_LITTLE_MP) 4 4 ENQUEUE_WAKEUP sample_sys)).
    by destruct q.
  - reflexivity.
Defined.
