(* ===== verification/TaskLists.v ===== *)
(** The list of tasks that load balancing walks ([rq->cfs_tasks]) holds exactly tasks that are
    queued on that run queue.  Moving a task keeps this, and changes nothing for other tasks:
    the lemmas here give the effect of enqueueing, dequeueing and moving on the lists and on
    the places of entities. *)

From S2P Require Import Prelude Spinlock Pelt SchedTypes EntityLoad HmpDomain HmpSelect Cfs CfsInv.
From S2P Require Import HmpMigration MigrationSafe.

(** Each run queue keeps its clock or reads the current time. *)
Definition clocked (s s' : sys) : Prop :=
  forall c, rq_clock (rqs s' c) = rq_clock (rqs s c) \/ rq_clock (rqs s' c) = u64 (sched_clock s c).
Definition timed (s s' : sys) : Prop := resting s s' /\ clocked s s'.

Lemma still_clocks {W V E A} (w : cfs_rq -> W) (v : rq -> V) (e : sched_entity -> E) (g : task_struct -> A) s s' :
  still_on w v e g s s' -> sched_clock s' = sched_clock s.
Proof. intros S. exact (f_equal snd (st_const _ _ _ _ _ _ S)). Qed.
Lemma clocked_trans s1 s2 s3 :
  sched_clock s2 = sched_clock s1 -> clocked s1 s2 -> clocked s2 s3 -> clocked s1 s3.
Proof. intros E H1 H2 c. destruct (H1 c), (H2 c); rewrite ?E in *; (left; congruence) || (right; congruence). Qed.
#[export] Instance timed_preorder : PreOrder timed.
Proof.
  split.
  - intros s. split; [done|]. intros c. by left.
  - intros s1 s2 s3 [R1 C1] [R2 C2]. split; [by rewrite R1|].
    eapply clocked_trans; [by eapply still_clocks|done|done].
Qed.
Lemma frozen_timed s s' : frozen s s' -> timed s s'.
Proof. intros F. split; [by apply frozen_resting|]. intros c. left. by apply frozen_rq_clock. Qed.
#[export] Hint Extern 4 (timed _ _) => apply frozen_timed : still.

(** From [s] to [s'] the entity of [p] becomes queued ([on] is 1) or not, the lists change by
    [f], and no other entity changes its place. *)
Record placed (p on : Z) (f : Z -> list Z -> list Z) (s s' : sys) : Prop := {
  pl_still : still s s';
  pl_self : place_view (ses s' (TaskSe p))
            = (my_q (ses s (TaskSe p)), on, se_cfs_rq (ses s (TaskSe p)), se_parent (ses s (TaskSe p)));
  pl_other : forall j, j <> TaskSe p -> place_view (ses s' j) = place_view (ses s j);
  pl_list : forall c, cfs_tasks (rqs s' c) = f c (cfs_tasks (rqs s c));
  pl_clock : clocked s s';
}.

Lemma place_view_inv e e' :
  place_view e' = place_view e ->
  my_q e' = my_q e /\ on_rq e' = on_rq e /\ se_cfs_rq e' = se_cfs_rq e /\ se_parent e' = se_parent e.
Proof. unfold place_view. intros E. by simplify_eq. Qed.

Lemma cfs_home_inv c c' : cfs_home c' = cfs_home c -> cfs_cpu c' = cfs_cpu c /\ cfs_tg c' = cfs_tg c.
Proof. unfold cfs_home. intros E. by simplify_eq. Qed.

Lemma placed_before p on f s0 s s' : seated s0 s -> placed p on f s s' -> placed p on f s0 s'.
Proof.
  intros R [S Hp Ho Hl Hc]. split.
  - etransitivity; [by apply seated_still|done].
  - rewrite Hp. destruct (place_view_inv _ _ (st_se _ _ _ _ _ _ R (TaskSe p))) as (-> & _ & -> & ->). done.
  - intros j Hj. rewrite Ho by done. apply R.
  - intros c. by rewrite Hl, (proj1 (seated_rq _ _ c R)).
  - eapply clocked_trans; [by eapply still_clocks| |done]. intros c. left. by apply seated_rq.
Qed.
Lemma placed_read p on f s0 s s' : timed s0 s -> placed p on f s s' -> placed p on f s0 s'.
Proof.
  intros [R C] [S Hp Ho Hl Hc]. split.
  - etransitivity; [by apply resting_still|done].
  - rewrite Hp. destruct (place_view_inv _ _ (st_se _ _ _ _ _ _ R (TaskSe p))) as (-> & _ & -> & ->). done.
  - intros j Hj. rewrite Ho by done. apply R.
  - intros c. by rewrite Hl, (resting_list _ _ c R).
  - eapply clocked_trans; [by eapply still_clocks|done|done].
Qed.
Lemma placed_after p on f s s' s1 : placed p on f s s' -> timed s' s1 -> placed p on f s s1.
Proof.
  intros [S Hp Ho Hl Hc] [R C]. split.
  - etransitivity; [done|by apply resting_still].
  - by rewrite (st_se _ _ _ _ _ _ R (TaskSe p)).
  - intros j Hj. rewrite (st_se _ _ _ _ _ _ R j). by apply Ho.
  - intros c. by rewrite (resting_list _ _ c R).
  - eapply clocked_trans; [by eapply still_clocks|done|done].
Qed.

(** What accounting does to the list of a CPU. *)
Definition list_add (cpu p : Z) : Z -> list Z -> list Z := fun c l => if cpu =? c then p :: l else l.
Definition list_del (cpu p : Z) : Z -> list Z -> list Z :=
  fun c l => if cpu =? c then filter (fun x => x <> p) l else l.

Section lists.
Context `{Config}.
Implicit Types (s : sys) (p : Z) (q : cfs_id).

Lemma account_enqueue_list q p s c :
  my_q (ses s (TaskSe p)) = None ->
  cfs_tasks (rqs (account_entity_enqueue q (TaskSe p) s) c)
  = list_add (cfs_cpu (cfss s q)) p c (cfs_tasks (rqs s c)).
Proof.
  intros Hm. unfold account_entity_enqueue, update_load_add_cfs, list_add. cbv zeta.
  set (cpu := cpu_of_cfs s q). change (cfs_cpu (cfss s q)) with cpu. clearbody cpu. store_frame.
  set (s1 := match parent_entity _ _ with None => _ | Some _ => _ end).
  assert (E : ses s1 = ses s /\ forall d, cfs_tasks (rqs s1 d) = cfs_tasks (rqs s d)).
  { unfold s1. case_match; [done|]. split; [done|]. intros d.
    destruct (decide (cpu = d)) as [->|]; by store_rw. }
  destruct E as [E1 E2]. unfold entity_is_task. rewrite E1, Hm. clearbody s1. rewrite <- E2.
  destruct (Z.eqb_spec cpu c) as [->|]; by store_simpl.
Qed.

Lemma account_dequeue_list q p s c :
  my_q (ses s (TaskSe p)) = None ->
  cfs_tasks (rqs (account_entity_dequeue q (TaskSe p) s) c)
  = list_del (cfs_cpu (cfss s q)) p c (cfs_tasks (rqs s c)).
Proof.
  intros Hm. unfold account_entity_dequeue, update_load_sub_cfs, list_del. cbv zeta.
  set (cpu := cpu_of_cfs s q). change (cfs_cpu (cfss s q)) with cpu. clearbody cpu. store_frame.
  set (s1 := match parent_entity _ _ with None => _ | Some _ => _ end).
  assert (E : ses s1 = ses s /\ forall d, cfs_tasks (rqs s1 d) = cfs_tasks (rqs s d)).
  { unfold s1. case_match; [done|]. split; [done|]. intros d.
    destruct (decide (cpu = d)) as [->|]; by store_rw. }
  destruct E as [E1 E2]. unfold entity_is_task. rewrite E1, Hm. clearbody s1. rewrite <- E2.
  destruct (Z.eqb_spec cpu c) as [->|]; by store_simpl.
Qed.

Lemma root_shares q s : cfs_tg (cfss s q) = 0 -> update_cfs_shares q s = s.
Proof. intros E. unfold update_cfs_shares. by rewrite E. Qed.

Lemma account_ses q i s :
  ses (account_entity_enqueue q i s) = ses s /\ ses (account_entity_dequeue q i s) = ses s.
Proof.
  unfold account_entity_enqueue, account_entity_dequeue. cbv zeta.
  split; repeat case_match; done.
Qed.

Lemma account_clock q i s c :
  rq_clock (rqs (account_entity_enqueue q i s) c) = rq_clock (rqs s c) /\
  rq_clock (rqs (account_entity_dequeue q i s) c) = rq_clock (rqs s c).
Proof.
  unfold account_entity_enqueue, account_entity_dequeue, update_load_add_cfs, update_load_sub_cfs. cbv zeta.
  set (cpu := cpu_of_cfs s q). clearbody cpu.
  destruct (decide (cpu = c)) as [->|]; repeat case_match; split; by store_rw.
Qed.

Lemma enqueue_entity_placed q p flags s :
  my_q (ses s (TaskSe p)) = None -> cfs_tg (cfss s q) = 0 ->
  placed p 1 (list_add (cfs_cpu (cfss s q)) p) s (enqueue_entity q (TaskSe p) flags s).
Proof.
  intros Hm Ht. unfold enqueue_entity. cbv zeta.
  set (s1 := enqueue_entity_load_avg _ _ _ _).
  assert (R1 : seated s s1) by (apply frozen_seated; unfold s1; still_chain).
  destruct (place_view_inv _ _ (st_se _ _ _ _ _ _ R1 (TaskSe p))) as (M1 & _).
  destruct (cfs_home_inv _ _ (st_home _ _ _ _ _ _ R1 q)) as [C1 T1].
  clearbody s1. rewrite <- C1. eapply placed_before; [by apply R1|]. clear R1 C1.
  set (s2 := account_entity_enqueue q (TaskSe p) s1).
  assert (S2 : still s1 s2) by apply still_account_enqueue.
  assert (E2 : ses s2 = ses s1) by exact (proj1 (account_ses q (TaskSe p) s1)).
  assert (L2 : forall c, cfs_tasks (rqs s2 c) = list_add (cfs_cpu (cfss s1 q)) p c (cfs_tasks (rqs s1 c)))
    by (intros c; apply account_enqueue_list; congruence).
  assert (K2 : forall c, rq_clock (rqs s2 c) = rq_clock (rqs s1 c)) 
    by (intros c; exact (proj1 (account_clock q (TaskSe p) s1 c))).
  destruct (cfs_home_inv _ _ (st_home _ _ _ _ _ _ S2 q)) as [_ T2].
  clearbody s2. rewrite root_shares by congruence.
  set (s3 := if has_flag flags ENQUEUE_WAKEUP then _ else s2).
  assert (R3 : frozen s2 s3) by (unfold s3; still_chain). clearbody s3.
  set (s4 := if bool_decide _ then s3 else _).
  assert (R4 : seated s2 s4) by (etransitivity; [apply frozen_seated, R3|]; unfold s4, __enqueue_entity; still_chain).
  clearbody s4. set (s5 := upd_se (TaskSe p) _ s4).
  assert (P5 : placed p 1 (list_add (cfs_cpu (cfss s1 q)) p) s1 s5).
  { split.
    - etransitivity; [exact S2|]. etransitivity; [apply seated_still, R4|]. unfold s5. auto with still.
    - unfold s5. store_rw. destruct (place_view_inv _ _ (st_se _ _ _ _ _ _ R4 (TaskSe p))) as (A & _ & B & C).
      unfold place_view. simpl. by rewrite A, B, C, E2.
    - intros j Hj. unfold s5. rewrite ses_upd_se_ne by done. by rewrite (st_se _ _ _ _ _ _ R4 j), E2.
    - intros c. change (rqs s5) with (rqs s4). by rewrite (proj1 (seated_rq _ _ c R4)).
    - intros c. left. change (rqs s5) with (rqs s4). by rewrite (proj2 (seated_rq _ _ c R4)). }
  clearbody s5. eapply placed_after; [exact P5|]. apply frozen_timed. still_chain.
Qed.

Lemma dequeue_entity_placed q p flags s :
  my_q (ses s (TaskSe p)) = None -> cfs_tg (cfss s q) = 0 ->
  placed p 0 (list_del (cfs_cpu (cfss s q)) p) s (dequeue_entity q (TaskSe p) flags s).
Proof.
  intros Hm Ht. unfold dequeue_entity. cbv zeta.
  set (s1 := if bool_decide _ then _ else _).
  assert (R1 : seated s s1) by (unfold s1, __dequeue_entity; still_chain).
  destruct (place_view_inv _ _ (st_se _ _ _ _ _ _ R1 (TaskSe p))) as (M1 & _).
  destruct (cfs_home_inv _ _ (st_home _ _ _ _ _ _ R1 q)) as [C1 T1].
  clearbody s1. rewrite <- C1. eapply placed_before; [by apply R1|]. clear R1 C1.
  set (s2 := upd_se (TaskSe p) _ s1). set (s3 := account_entity_dequeue q (TaskSe p) s2).
  assert (P3 : placed p 0 (list_del (cfs_cpu (cfss s1 q)) p) s1 s3).
  { split.
    - etransitivity; [|apply still_account_dequeue]. unfold s2. auto with still.
    - unfold s3. rewrite (proj2 (account_ses q (TaskSe p) s2)). unfold s2. by store_rw.
    - intros j Hj. unfold s3. rewrite (proj2 (account_ses q (TaskSe p) s2)). unfold s2.
      by rewrite ses_upd_se_ne.
    - intros c. unfold s3. rewrite account_dequeue_list; [done|]. unfold s2. store_rw. simpl. congruence.
    - intros c. left. unfold s3. by rewrite (proj2 (account_clock q (TaskSe p) s2 c)). }
  destruct (cfs_home_inv _ _ (st_home _ _ _ _ _ _ (pl_still _ _ _ _ _ P3) q)) as [_ T3].
  clearbody s3. clear s2. set (s4 := if has_flag flags DEQUEUE_SLEEP then s3 else _).
  assert (R4 : frozen s3 (update_min_vruntime q s4)).
  { etransitivity; [|apply still_min_vruntime]. unfold s4. still_chain. }
  destruct (cfs_home_inv _ _ (st_home _ _ _ _ _ _ R4 q)) as [_ T4].
  rewrite root_shares by congruence. eapply placed_after; [exact P3|apply frozen_timed, R4].
Qed.

Lemma enqueue_task_placed cpu p flags s :
  my_q (ses s (TaskSe p)) = None -> se_parent (ses s (TaskSe p)) = None ->
  on_rq (ses s (TaskSe p)) = 0 -> cfs_tg (cfss s (cfs_rq_of s (TaskSe p))) = 0 ->
  placed p 1 (list_add (cfs_cpu (cfss s (cfs_rq_of s (TaskSe p)))) p) s (enqueue_task_fair cpu p flags s).
Proof.
  intros Hm Hp Ho Ht. unfold enqueue_task_fair. rewrite chain_task by done. cbn [enqueue_chain].
  replace (nonzero (on_rq (ses s (TaskSe p)))) with false by (by rewrite Ho).
  cbv zeta. cbn [foldl]. set (q := cfs_rq_of s (TaskSe p)) in *.
  pose proof (enqueue_entity_placed q p flags s Hm Ht) as P.
  set (s1 := enqueue_entity q (TaskSe p) flags s) in *. clearbody s1.
  eapply placed_after; [exact P|]. apply frozen_timed. still_chain.
Qed.

Lemma dequeue_task_placed cpu p flags s :
  my_q (ses s (TaskSe p)) = None -> se_parent (ses s (TaskSe p)) = None ->
  cfs_tg (cfss s (cfs_rq_of s (TaskSe p))) = 0 ->
  placed p 0 (list_del (cfs_cpu (cfss s (cfs_rq_of s (TaskSe p)))) p) s (dequeue_task_fair cpu p flags s).
Proof.
  intros Hm Hp Ht. unfold dequeue_task_fair. rewrite chain_task by done. cbn [dequeue_chain]. cbv zeta.
  set (q := cfs_rq_of s (TaskSe p)) in *. pose proof (dequeue_entity_placed q p flags s Hm Ht) as P.
  set (s1 := dequeue_entity q (TaskSe p) flags s) in *.
  set (s2 := upd_cfs q _ s1).
  assert (E2 : parent_entity s2 (TaskSe p) = None).
  { unfold parent_entity, s2. store_rw. pose proof (pl_self _ _ _ _ _ P) as S. unfold place_view in S.
    assert (se_parent (ses s1 (TaskSe p)) = se_parent (ses s (TaskSe p))) by (exact (f_equal snd S)).
    congruence. }
  rewrite E2. assert (R2 : frozen s1 s2) by (unfold s2; auto with still). clearbody s1 s2.
  eapply placed_after; [exact P|]. apply frozen_timed. etransitivity; [exact R2|].
  destruct (nonzero (cfs_weight (cfss s2 q))); cbn [foldl]; still_chain.
Qed.

(** ** The lists and the tasks queued *)

Section moving.
Context (univ : list se_id) (univ_nodup : NoDup univ) (univ_small : Z.of_nat (length univ) <= 48000).

(** Every listed task is a known one, queued on that CPU; the running task is marked so. *)
Record lists_ok s : Prop := {
  li_home : forall c, cfs_home (cfss s (CfsRq 0 c)) = (c, 0);
  li_group : forall p, TaskSe p ∈ univ -> sched_task_group (tasks s p) = 0;
  li_task : forall c p, p ∈ cfs_tasks (rqs s c) ->
    TaskSe p ∈ univ /\ queued s (CfsRq 0 c) (TaskSe p) /\ task_cpu (tasks s p) = c;
  li_running : forall q p, curr (cfss s q) = Some (TaskSe p) -> on_cpu (tasks s p) <> 0;
}.

Lemma lists_resting s s' : resting s s' -> lists_ok s -> lists_ok s'.
Proof.
  intros R [Hh Hg Ht Hr]. split.
  - intros c. by rewrite (st_home _ _ _ _ _ _ R).
  - intros p. rewrite (st_task _ _ _ _ _ _ R p). apply Hg.
  - intros c p. rewrite (resting_list _ _ c R), (st_task _ _ _ _ _ _ R p). intros Hp.
    destruct (Ht c p Hp) as (Hu & [Ho Hq] & Hc). split_and!; [done| |done].
    destruct (place_view_inv _ _ (st_se _ _ _ _ _ _ R (TaskSe p))) as (_ & E1 & E2 & _).
    unfold queued, cfs_rq_of in *. by rewrite E1, E2.
  - intros q p. rewrite (st_curr _ _ _ _ _ _ R q), (st_task _ _ _ _ _ _ R p). apply Hr.
Qed.

(** Moving [p] changes its place and the two lists only. *)
Record moved (p src dst : Z) s s' : Prop := {
  mv_task : forall x, tasks s' x = if decide (x = p) then tasks s p <| task_cpu := dst |> else tasks s x;
  mv_curr : forall q, curr (cfss s' q) = curr (cfss s q);
  mv_home : forall q, cfs_home (cfss s' q) = cfs_home (cfss s q);
  mv_self : queued s' (CfsRq 0 dst) (TaskSe p);
  mv_other : forall j, j <> TaskSe p -> place_view (ses s' j) = place_view (ses s j);
  mv_list : forall c, cfs_tasks (rqs s' c)
                      = list_add dst p c (list_del src p c (cfs_tasks (rqs s c)));
  mv_clock : clocked s s';
}.

Lemma rq_clock_timed c s : timed s (update_rq_clock c s).
Proof.
  split; [apply still_rq_clock|]. intros d. unfold update_rq_clock. case_match; [by left|].
  destruct (decide (c = d)) as [->|]; store_rw; auto. right. cbn. rewrite u64_add_s64, Zplus_minus. done.
Qed.
Lemma migrate_rq_timed p s : timed s (migrate_task_rq_fair p s).
Proof.
  unfold migrate_task_rq_fair. case_match; [|done]. set (s1 := if negb _ && _ then _ else s).
  assert (S1 : timed s s1).
  { unfold s1. case_match; [|done]. etransitivity; [apply rq_clock_timed|]. auto with still. }
  clearbody s1. pose proof (still_synchronize (TaskSe p) s1) as S2.
  destruct (__synchronize_entity_decay (TaskSe p) s1) as [s2 d]. cbn [fst] in S2.
  etransitivity; [exact S1|]. apply frozen_timed. etransitivity; [exact S2|]. still_chain.
Qed.

(** Taken off its run queue, and told that it migrates. *)
Lemma move_out p src dst s :
  my_q (ses s (TaskSe p)) = None -> se_parent (ses s (TaskSe p)) = None ->
  cfs_rq_of s (TaskSe p) = CfsRq 0 src -> cfs_home (cfss s (CfsRq 0 src)) = (src, 0) ->
  let s1 := deactivate_task src p 0 s in
  placed p 0 (list_del src p) s (if negb (task_cpu (tasks s1 p) =? dst) then migrate_task_rq_fair p s1 else s1).
Proof.
  intros Hm Hp Hq Hh. unfold deactivate_task. cbv zeta. unfold cfs_home in Hh. injection Hh as Hs1 Hs2.
  set (s0 := update_rq_clock src s). assert (K0 : timed s s0) by apply rq_clock_timed.
  destruct (place_view_inv _ _ (st_se _ _ _ _ _ _ (proj1 K0) (TaskSe p))) as (M0 & _ & Q0 & P0).
  destruct (cfs_home_inv _ _ (st_home _ _ _ _ _ _ (proj1 K0) (CfsRq 0 src))) as [C0 T0].
  set (s1 := dequeue_task_fair src p 0 s0).
  assert (P1 : placed p 0 (list_del src p) s0 s1).
  { replace (list_del src p) with (list_del (cfs_cpu (cfss s0 (cfs_rq_of s0 (TaskSe p)))) p).
    - apply dequeue_task_placed; unfold cfs_rq_of in *; congruence.
    - f_equal. unfold cfs_rq_of in *. congruence. }
  clearbody s0 s1. eapply placed_read; [exact K0|]. eapply placed_after; [exact P1|].
  case_match; [apply migrate_rq_timed|done].
Qed.

(** Put on the run queue of its new CPU. *)
Lemma move_in p dst s :
  my_q (ses s (TaskSe p)) = None -> se_parent (ses s (TaskSe p)) = None -> on_rq (ses s (TaskSe p)) = 0 ->
  cfs_rq_of s (TaskSe p) = CfsRq 0 dst -> cfs_home (cfss s (CfsRq 0 dst)) = (dst, 0) ->
  placed p 1 (list_add dst p) s (check_preempt_curr dst p 0 (activate_task dst p 0 s)).
Proof.
  intros Hm Hp Ho Hq Hh. unfold activate_task. unfold cfs_home in Hh. injection Hh as Hd1 Hd2.
  set (s4 := update_rq_clock dst s). assert (K4 : timed s s4) by apply rq_clock_timed.
  destruct (place_view_inv _ _ (st_se _ _ _ _ _ _ (proj1 K4) (TaskSe p))) as (M4 & O4 & Q4 & P4).
  destruct (cfs_home_inv _ _ (st_home _ _ _ _ _ _ (proj1 K4) (CfsRq 0 dst))) as [C4 T4].
  assert (QD : cfs_rq_of s4 (TaskSe p) = CfsRq 0 dst) by (unfold cfs_rq_of in *; congruence).
  set (s5 := enqueue_task_fair dst p 0 s4).
  assert (P5 : placed p 1 (list_add dst p) s4 s5).
  { replace (list_add dst p) with (list_add (cfs_cpu (cfss s4 (cfs_rq_of s4 (TaskSe p)))) p).
    - apply enqueue_task_placed; rewrite ?QD; congruence.
    - by rewrite QD, C4, Hd1. }
  clearbody s4 s5. eapply placed_read; [exact K4|]. eapply placed_after; [exact P5|].
  apply frozen_timed, still_check_preempt.
Qed.

Lemma move_moved p src dst s :
  my_q (ses s (TaskSe p)) = None -> se_parent (ses s (TaskSe p)) = None ->
  cfs_rq_of s (TaskSe p) = CfsRq 0 src -> (forall c, cfs_home (cfss s (CfsRq 0 c)) = (c, 0)) ->
  sched_task_group (tasks s p) = 0 -> moved p src dst s (move_task p src dst s).
Proof.
  intros Hm Hp Hq Hh Hg. assert (TM := tasks_move p src dst s). revert TM.
  unfold move_task, set_task_cpu. cbv zeta. pose proof (move_out p src dst s Hm Hp Hq (Hh src)) as P2.
  cbv zeta in P2. set (s2 := if negb _ then _ else _) in *. clearbody s2.
  pose proof (pl_still _ _ _ _ _ P2) as S2. set (s3 := __set_task_cpu p dst s2).
  assert (E3 : ses s3 (TaskSe p) = ses s2 (TaskSe p) <| se_cfs_rq := CfsRq 0 dst |> <| se_parent := None |>).
  { unfold s3, __set_task_cpu, set_task_rq. store_rw. by rewrite (st_task _ _ _ _ _ _ S2), Hg. }
  assert (O3 : forall j, j <> TaskSe p -> ses s3 j = ses s2 j).
  { intros j Hj. unfold s3, __set_task_cpu, set_task_rq. by store_rw. }
  assert (F3 : cfss s3 = cfss s2 /\ rqs s3 = rqs s2 /\ sched_clock s3 = sched_clock s2) by done.
  clearbody s3. destruct F3 as (F3 & F4 & F5).
  pose proof (pl_self _ _ _ _ _ P2) as V2. unfold place_view in V2. injection V2 as V1 V2 V3 V4.
  assert (P6 : placed p 1 (list_add dst p) s3 (check_preempt_curr dst p 0 (activate_task dst p 0 s3))).
  { apply move_in; unfold cfs_rq_of; rewrite ?E3, ?F3, ?(st_home _ _ _ _ _ _ S2); cbn; congruence. }
  set (s6 := check_preempt_curr dst p 0 _) in *. clearbody s6. intros TM.
  pose proof (pl_still _ _ _ _ _ P6) as S6. split.
  - exact TM.
  - intros q. rewrite (st_curr _ _ _ _ _ _ S6), F3. apply S2.
  - intros q. rewrite (st_home _ _ _ _ _ _ S6), F3. apply S2.
  - pose proof (pl_self _ _ _ _ _ P6) as V6. unfold place_view in V6. injection V6 as _ W1 W2 _.
    unfold queued, cfs_rq_of. rewrite W1, W2, E3. done.
  - intros j Hj. rewrite (pl_other _ _ _ _ _ P6), O3 by done. by apply (pl_other _ _ _ _ _ P2).
  - intros c. rewrite (pl_list _ _ _ _ _ P6), F4. by rewrite (pl_list _ _ _ _ _ P2).
  - pose proof (pl_clock _ _ _ _ _ P6) as K6. unfold clocked in K6. rewrite F4, F5 in K6.
    eapply clocked_trans; [|apply (pl_clock _ _ _ _ _ P2)|exact K6].
    eapply still_clocks, (pl_still _ _ _ _ _ P2).
Qed.

(** Moving a listed task that is not running keeps all accounts and lists. *)
Lemma move_ok p src dst s :
  cfs_ok univ s -> lists_ok s -> p ∈ cfs_tasks (rqs s src) -> on_cpu (tasks s p) = 0 ->
  let s' := move_task p src dst s in cfs_ok univ s' /\ lists_ok s' /\ moved p src dst s s'.
Proof.
  intros Hok Hl Hp Hoff. destruct (li_task s Hl src p Hp) as (Hu & [Hon Hq] & Hc).
  assert (Hm : my_q (ses s (TaskSe p)) = None).
  { destruct (co_task _ _ Hok _ Hu) as [[T _ _ _] _]. unfold entity_is_task in T. by case_match. }
  pose proof (move_moved p src dst s Hm (proj2 (co_task _ _ Hok _ Hu)) Hq (li_home s Hl) (li_group s Hl p Hu)) as M.
  cbv zeta. split; [|split; [|exact M]].
  - destruct (rehome_ok univ univ_nodup univ_small p src dst s) as (H3 & E3 & O3); try done.
    { intros q Eq. apply (li_running s Hl) in Eq. done. }
    { by apply (li_group s Hl). }
    unfold move_task, activate_task. cbv zeta. set (s3 := set_task_cpu p dst _) in *. clearbody s3.
    destruct (loadeq_facts univ s3 _ (TaskSe p) (CfsRq 0 dst) (update_rq_clock_eq dst s3) H3) as (H4 & E4 & O4 & _).
    destruct (enqueue_task_ok univ univ_nodup univ_small dst p 0 (update_rq_clock dst s3)) as [H5 Q5];
      try (done || congruence). by rewrite <- check_preempt_curr_eq.
  - destruct M as [Mt Mc Mh Ms Mo Ml _]. destruct Hl as [Lh Lg Lt Lr]. split.
    + intros c. by rewrite Mh.
    + intros x Hx. rewrite Mt. case_decide; subst; simpl; by apply Lg.
    + intros c x. rewrite Ml, Mt. unfold list_add, list_del. intros Hx.
      destruct (decide (x = p)) as [->|Hne].
      * split; [done|]. assert (dst = c) as <-.
        { destruct (Z.eqb_spec dst c) as [->|]; [done|]. exfalso.
          destruct (Z.eqb_spec src c) as [->|]; [by apply list_elem_of_filter in Hx as [? _]|].
          destruct (Lt c p Hx) as (_ & [_ Hq'] & _). congruence. }
        split; [done|by simpl].
      * assert (Hx' : x ∈ cfs_tasks (rqs s c)).
        { destruct (dst =? c); [apply elem_of_cons in Hx as [?|Hx]; [done|]|];
            (destruct (src =? c); [by apply list_elem_of_filter in Hx as [_ ?]|done]). }
        destruct (Lt c x Hx') as (? & [Ho' Hq'] & ?). split_and!; [done| |done].
        destruct (place_view_inv _ _ (Mo (TaskSe x) ltac:(congruence))) as (_ & E1 & E2 & _).
        unfold queued, cfs_rq_of in *. by rewrite E1, E2.
    + intros q x. rewrite Mc, Mt. intros Eq. apply Lr in Eq. by case_decide; subst.
Qed.
End moving.
End lists.
