(* ===== verification/HmpEnh.v ===== *)
(** The variant of HMP scheduling under CONFIG_SCHED_HMP_ENHANCEMENT: statistics of the two
    clusters, thresholds that follow them, the choice of a CPU, and forced migration in both
    directions ([kernel/sched/fair.c], [collect_cluster_stats] to [sched_update_clbstats] and
    [hmp_up_stable] to [hmp_idle_pull]).  Definitions are in [Module Enh], because the two
    variants use the same names.

    Run-queue locks are taken and released here as the code does it: the variant releases
    some twice.  Each function still runs undisturbed, so a lock that is not free when it is
    asked for stays so; [None] stands for a CPU that spins forever, a NULL pointer or a
    division by zero.  Tracing and the counters it prints are left out. *)

From S2P Require Import Prelude Spinlock Pelt SchedTypes EntityLoad HmpDomain HmpSelect Cfs HmpMigration.

Module Enh.

(** * Data *)

(** [struct clb_stats]; all fields are [int]. *)
Record clb_stats := mk_clb {
  ncpu : Z;
  ntask : Z;
  load_avg : Z;
  cpu_capacity : Z;
  cpu_power : Z;
  acap : Z;
  scaled_acap : Z;
  scaled_atask : Z;
  threshold : Z;
  nr_normal_prio_task : Z;
  nr_dequeuing_low_prio : Z;
}.
#[export] Instance eta_clb_stats : Eta clb_stats := fun r =>
  {| ncpu := ncpu r; ntask := ntask r; load_avg := load_avg r; cpu_capacity := cpu_capacity r;
     cpu_power := cpu_power r; acap := acap r; scaled_acap := scaled_acap r;
     scaled_atask := scaled_atask r; threshold := threshold r;
     nr_normal_prio_task := nr_normal_prio_task r;
     nr_dequeuing_low_prio := nr_dequeuing_low_prio r |}.

(** [struct clb_env] *)
Record clb_env := mk_clbenv {
  bstats : clb_stats;
  lstats : clb_stats;
  btarget : Z;
  ltarget : Z;
  bcpus : cpumask;
  lcpus : cpumask;
  flags : Z;
  mcheck_status : Z;
  mcheck_result : Z;
}.
#[export] Instance eta_clb_env : Eta clb_env := fun r =>
  {| bstats := bstats r; lstats := lstats r; btarget := btarget r; ltarget := ltarget r;
     bcpus := bcpus r; lcpus := lcpus r; flags := flags r; mcheck_status := mcheck_status r;
     mcheck_result := mcheck_result r |}.

Definition HMP_GB : Z := 0x1000.
Definition HMP_SELECT_RQ : Z := 0x2000.
Definition HMP_LB : Z := 0x4000.
Definition HMP_MAX_LOAD : Z := NICE_0_LOAD - 1.

Definition HMP_BIG_NOT_OVERSUBSCRIBED : Z := 0x01.
Definition HMP_BIG_CAPACITY_INSUFFICIENT : Z := 0x02.
Definition HMP_LITTLE_CAPACITY_INSUFFICIENT : Z := 0x04.
Definition HMP_LOW_PRIORITY_FILTER : Z := 0x08.
Definition HMP_BIG_BUSY_LITTLE_IDLE : Z := 0x10.
Definition HMP_BIG_IDLE : Z := 0x20.
Definition HMP_MIGRATION_APPROVED : Z := 0x100.
Definition HMP_TASK_UP_MIGRATION : Z := 0x200.
Definition HMP_TASK_DOWN_MIGRATION : Z := 0x400.

Definition TASK_DEAD : Z := 64.
Definition SD_BALANCE_EXEC : Z := 0x4.
Definition SD_BALANCE_FORK : Z := 0x8.

(** [memset(&clbenv, 0, sizeof(clbenv))] *)
Definition clb_zero : clb_stats := mk_clb 0 0 0 0 0 0 0 0 0 0 0.

Section enh.
Context `{Config}.
Implicit Types (s : sys) (cpu : Z) (se : se_id).

(** * Loads *)

Definition se_load s se : Z := se_ratio s se.
Definition cfs_load s cpu : Z := cfs_load_avg_ratio (rq_cfs_avg (rqs s cpu)).
Definition cfs_pending_load s cpu : Z := pending_load (rq_cfs_avg (rqs s cpu)).
Definition cfs_nr_pending s cpu : Z := nr_pending (rq_cfs_avg (rqs s cpu)).
Definition cfs_length s cpu : Z := h_nr_running (cfss s (CfsRq 0 cpu)).
Definition rq_length s cpu : Z := u32 (rq_nr_running (rqs s cpu) + cfs_nr_pending s cpu).
Definition hmp_last_up_migration s cpu : Z := cfs_last_up_migration (rq_cfs_avg (rqs s cpu)).
Definition hmp_last_down_migration s cpu : Z := cfs_last_down_migration (rq_cfs_avg (rqs s cpu)).

Definition task_low_priority s (prio : Z) : bool :=
  CONFIG_SCHED_HMP_PRIO_FILTER && (hmp_up_prio (tun s) <=? prio).

Definition cpu_online s cpu : bool := cpumask_test_cpu cpu (cpu_online_mask s).

(** [arch_scale_freq_power] and the capacities of [arch/arm/kernel/topology.c]. *)
Definition arch_scale_freq_power s cpu : Z := cpu_scale (enh s) cpu.
Definition topology_cpu_capacity s cpu : Z :=
  if CONFIG_ARCH_SCALE_INVARIANT_CPU_CAPACITY then invariant_cpu_capacity (enh s) cpu
  else cpu_scale (enh s) cpu.
Definition topology_max_cpu_capacity s cpu : Z :=
  if CONFIG_ARCH_SCALE_INVARIANT_CPU_CAPACITY then base_cpu_capacity (enh s) cpu
  else cpu_scale (enh s) cpu.

(** * Statistics of a cluster *)

Definition hmp_scale_down (w : Z) : Z := Z.shiftr w 4.

(** The body of the loop of [collect_cluster_stats]. *)
Definition count_cpu s (b : clb_stats) cpu : clb_stats :=
  if cpu_online s cpu then
    let b := b <| ncpu := s32 (ncpu b + 1) |> in
    let b := b <| ntask := s32 (ntask b + cfs_length s cpu) |> in
    let b := b <| load_avg := s32 (load_avg b + cfs_load s cpu) |> in
    if CONFIG_SCHED_HMP_PRIO_FILTER then
      let a := rq_cfs_avg (rqs s cpu) in
      let b := b <| nr_normal_prio_task := s32 (nr_normal_prio_task b + nr_normal_prio a) |> in
      b <| nr_dequeuing_low_prio
             := s32 (nr_dequeuing_low_prio b + SchedTypes.nr_dequeuing_low_prio a) |>
    else b
  else b.

(** [cpu_capacity] after the scaling by frequency. *)
Definition scaled_capacity s (cluster_cpus : cpumask) : Z :=
  let cpu := cpumask_first cluster_cpus in
  let scale by_what := Z.min HMP_MAX_LOAD (Z.shiftr (s32 (HMP_MAX_LOAD * by_what)) 10) in
  if CONFIG_HMP_FREQUENCY_INVARIANT_SCALE then
    if nonzero (freqinvar_load_scale_enabled (hmp_data (tun s))) then
      let e := freq_scale s cpu in
      scale (if throttling e =? 1 then curr_scale e else ext_max e)
    else HMP_MAX_LOAD
  else if CONFIG_ARCH_SCALE_INVARIANT_CPU_CAPACITY then
    if nonzero (frequency_invariant_power_enabled (enh s)) then
      scale (if nonzero (cpu_throttling (enh s) cpu) then topology_cpu_capacity s cpu
             else topology_max_cpu_capacity s cpu)
    else HMP_MAX_LOAD
  else HMP_MAX_LOAD.

Definition collect_cluster_stats s (clbs : clb_stats) (cluster_cpus : cpumask) (target : Z) :
    clb_stats :=
  let b := foldl (count_cpu s) clbs (cpus_of cluster_cpus) in
  if (ncpu b =? 0) || (NR_CPUS =? target) || negb (cpumask_test_cpu target cluster_cpus) then b
  else
    let b := b <| cpu_power := s32 (arch_scale_freq_power s target) |> in
    let b := b <| cpu_capacity := scaled_capacity s cluster_cpus |> in
    let b := b <| load_avg := Z.quot (load_avg b) (ncpu b) |> in
    let b := b <| acap := s32 (cpu_capacity b - cfs_load s target) |> in
    let b := b <| scaled_acap := hmp_scale_down (acap b) |> in
    let b := b <| scaled_atask := s32 (ulong (cfs_length s target * cfs_load s target)) |> in
    let b := b <| scaled_atask := s32 (cpu_capacity b - scaled_atask b) |> in
    b <| scaled_atask := hmp_scale_down (scaled_atask b) |>.

(** * Thresholds *)

(** [POSITIVE(x)] of an [int], and [hmp_pos]. *)
Definition hmp_pos (v : Z) : Z := if v <? 0 then 0 else v.

(** [(v)*17/10] *)
Definition HMP_RATIO (v : Z) : Z := Z.quot (s32 (v * 17)) 10.

(** One threshold of [hmp_dynamic_threshold], before it is added to or subtracted from a
    tunable: the share of the first cluster in what both have to spare. *)
Definition threshold_share (diff acap atask other_acap other_atask : Z) : option Z :=
  let t := s32 (diff * u32 (u32 (acap + 1) * u32 (atask + 1))) in
  t ← udiv (u32 t) (u32 (u32 (other_acap + acap) + 1));
  t ← udiv (u32 (s32 t)) (u32 (u32 (other_atask + atask) + 1));
  Some (s32 t).

Definition hmp_dynamic_threshold s (env : clb_env) : option clb_env :=
  let L := lstats env in
  let B := bstats env in
  let up := hmp_up_threshold (tun s) in
  let down := hmp_down_threshold (tun s) in
  let hmp_threshold_diff := u32 (up - down) in
  let B_acap := hmp_pos (HMP_RATIO (scaled_acap B)) in
  let B_atask := hmp_pos (HMP_RATIO (scaled_atask B)) in
  let L_acap := hmp_pos (scaled_acap L) in
  let L_atask := hmp_pos (scaled_atask L) in
  if CONFIG_HMP_DYNAMIC_THRESHOLD then
    l ← threshold_share hmp_threshold_diff L_acap L_atask B_acap B_atask;
    b ← threshold_share hmp_threshold_diff B_acap B_atask L_acap L_atask;
    Some (env <| lstats := L <| threshold := s32 (down + l) |> |>
              <| bstats := B <| threshold := s32 (up - b) |> |>)
  else Some (env <| lstats := L <| threshold := s32 down |> |>
                 <| bstats := B <| threshold := s32 up |> |>).

(** The end of [adj_threshold]: both thresholds from what is left of capacity and of room
    for tasks in both clusters. *)
Definition set_thresholds (b_nacap b_natask l_nacap l_natask : Z) (env : clb_env) :
    option clb_env :=
  let d := s32 (s32 (s32 (b_nacap + l_nacap) * s32 (b_natask + l_natask)) + 1) in
  b ← sdiv (slong (slong (HMP_MAX_LOAD * b_nacap) * b_natask)) d;
  l ← sdiv (slong (slong (HMP_MAX_LOAD * l_nacap) * l_natask)) d;
  Some (env <| bstats := (bstats env) <| threshold := s32 (HMP_MAX_LOAD - b) |> |>
            <| lstats := (lstats env) <| threshold := s32 l |> |>).

(** [POSITIVE(x)] of an [unsigned long], stored in an [int]. *)
Definition positive_ulong (x : Z) : Z := if s32 x <? 0 then 0 else s32 x.

Definition TSKLD_SHIFT : Z := 2.

(** The load, number of tasks and capacity of a target CPU; all 0 if there is none. *)
Definition target_stats s cpu : Z * Z * Z :=
  if cpu <? nr_cpu_ids s then (cfs_load s cpu, cfs_length s cpu, topology_cpu_capacity s cpu)
  else (0, 0, 0).

Definition adj_threshold s (env : clb_env) : option clb_env :=
  if USE_HMP_DYNAMIC_THRESHOLD then hmp_dynamic_threshold s env
  else if CONFIG_ARCH_SCALE_INVARIANT_CPU_CAPACITY then
    let '(b_load, b_task, b_cap) := target_stats s (btarget env) in
    let '(l_load, l_task, l_cap) := target_stats s (ltarget env) in
    set_thresholds (positive_ulong (ulong (b_cap - b_load)))
      (positive_ulong (ulong (b_cap - Z.shiftr (ulong (b_task * b_load)) TSKLD_SHIFT)))
      (positive_ulong (ulong (l_cap - l_load)))
      (positive_ulong (ulong (l_cap - Z.shiftr (ulong (l_task * l_load)) TSKLD_SHIFT))) env
  else
    let B := bstats env in
    let L := lstats env in
    b_nacap ← sdiv (s32 (scaled_acap B * cpu_power B)) (s32 (cpu_power L + 1));
    b_natask ← sdiv (s32 (scaled_atask B * cpu_power B)) (s32 (cpu_power L + 1));
    set_thresholds (hmp_pos b_nacap) (hmp_pos b_natask) (hmp_pos (scaled_acap L))
      (hmp_pos (scaled_atask B)) env.

Definition sched_update_clbstats s (env : clb_env) : option clb_env :=
  let env := env <| bstats := collect_cluster_stats s (bstats env) (bcpus env) (btarget env) |> in
  let env := env <| lstats := collect_cluster_stats s (lstats env) (lcpus env) (ltarget env) |> in
  adj_threshold s env.

(** The environment the callers set up. *)
Definition new_env s (caller b_target l_target : Z) : clb_env :=
  mk_clbenv clb_zero clb_zero b_target l_target (hmp_fast_cpu_mask s) (hmp_slow_cpu_mask s)
    caller 0 0.

(** * Choosing a CPU *)

Definition hmp_up_stable s cpu : bool :=
  negb (Z.shiftr (u64 (clock_task (rqs s cpu) - hmp_last_up_migration s cpu)) 10
          <? hmp_next_up_threshold (tun s)).
Definition hmp_down_stable s cpu : bool :=
  negb (Z.shiftr (u64 (clock_task (rqs s cpu) - hmp_last_down_migration s cpu)) 10
          <? hmp_next_down_threshold (tun s)).

Definition hmp_cpu_is_fast s cpu : bool := cpumask_test_cpu cpu (hmp_fast_cpu_mask s).
Definition hmp_cpu_is_slow s cpu : bool := cpumask_test_cpu cpu (hmp_slow_cpu_mask s).
Definition hmp_cpu_stable s cpu : bool :=
  if hmp_cpu_is_fast s cpu then hmp_up_stable s cpu else hmp_down_stable s cpu.

(** The work load of a CPU. *)
Definition wload s cpu : Z :=
  ulong (ulong (ulong (cfs_load s cpu + 1) + cfs_pending_load s cpu) * rq_length s cpu).

(** The CPUs the loop of [hmp_select_cpu] does not skip. *)
Definition select_considers s (caller p cpu : Z) : bool :=
  cpu_online s cpu && cpumask_test_cpu cpu (tsk_cpus_allowed s p)
  && negb ((caller =? HMP_GB) && negb (hmp_cpu_stable s cpu)).

Definition select_step s (caller p prev : Z) (target cpu : Z) : Z :=
  if select_considers s caller p cpu then
    if wload s cpu <? wload s target then cpu
    else if (wload s cpu =? wload s target) && (cpu =? prev) then cpu
    else target
  else target.

Definition hmp_select_cpu s (caller p : Z) (mask : cpumask) (prev : Z) : Z :=
  let srcp := cpumask_and (cpu_online_mask s) mask in
  let target := cpumask_any_and srcp (tsk_cpus_allowed s p) in
  if NR_CPUS =? target then target
  else foldl (select_step s caller p prev) target (cpus_of mask).

(** * Up or down? *)

Definition hmp_caller_is_gb (caller : Z) : bool := caller =? HMP_GB.

Definition hmp_fast_cpu_has_spare_cycles (B : clb_stats) (cpu_load : Z) : bool :=
  cpu_load <? ulong (s32 (HMP_RATIO (cpu_capacity B) - Z.shiftr (cpu_capacity B) 2)).
Definition hmp_task_fast_cpu_afford s (B : clb_stats) se cpu : bool :=
  (0 <? acap B) && hmp_fast_cpu_has_spare_cycles B (ulong (se_load s se + cfs_load s cpu)).
Definition hmp_fast_cpu_oversubscribed s (caller : Z) (B : clb_stats) se cpu : bool :=
  if hmp_caller_is_gb caller then negb (hmp_fast_cpu_has_spare_cycles B (cfs_load s cpu))
  else negb (hmp_task_fast_cpu_afford s B se cpu).
Definition hmp_task_slow_cpu_afford s (L : clb_stats) se : bool :=
  (0 <? acap L) && (se_load s se <=? acap L).
Definition hmp_low_prio_task_up_rejected s (p : Z) (B L : clb_stats) : bool :=
  task_low_priority s (prio (tasks s p))
  && ((ncpu B <=? ntask B) || nonzero (nr_normal_prio_task L))
  && (se_load s (TaskSe p) <? 800).
Definition hmp_low_prio_task_down_allowed s (p : Z) (B L : clb_stats) : bool :=
  task_low_priority s (prio (tasks s p)) && negb (nonzero (nr_dequeuing_low_prio B))
  && (ncpu B <=? ntask B) && nonzero (nr_normal_prio_task L)
  && (se_load s (TaskSe p) <? 800).

(** [check->status |= bits] and [check->result] *)
Definition verdict (env : clb_env) (bits result : Z) : clb_env :=
  env <| mcheck_status := Z.lor (mcheck_status env) bits |> <| mcheck_result := result |>.

(** Should the task of [se], on the LITTLE CPU [cpu], move to the big CPU [target_cpu]? *)
Definition hmp_up_migration cpu (target_cpu : Z) se s (env : clb_env) : clb_env :=
  let p := task_of se in
  let L := lstats env in
  let B := bstats env in
  let env := env <| mcheck_status := Z.lor (flags env) HMP_TASK_UP_MIGRATION |>
                 <| mcheck_result := 0 |> in
  if (ncpu L =? 0) || (ncpu B =? 0) || cpumask_test_cpu cpu (bcpus env)
     || negb (cpumask_intersects (bcpus env) (tsk_cpus_allowed s p)) then env
  else if negb (hmp_up_stable s target_cpu) then env
  else if CONFIG_SCHED_HMP_PRIO_FILTER && hmp_low_prio_task_up_rejected s p B L then
    verdict env HMP_LOW_PRIORITY_FILTER 0
  else if rq_length s target_cpu =? 0 then
    verdict env (Z.lor HMP_BIG_IDLE HMP_MIGRATION_APPROVED) 1
  else if negb (hmp_task_fast_cpu_afford s B se target_cpu) then
    verdict env HMP_BIG_CAPACITY_INSUFFICIENT 0
  else if ulong (threshold B) <? se_load s se then verdict env HMP_MIGRATION_APPROVED 1
  else env.

(** Should the task of [se], on the big CPU [cpu], move to the LITTLE CPU [target_cpu]? *)
Definition hmp_down_migration cpu (target_cpu : Z) se s (env : clb_env) : sys * clb_env :=
  let p := task_of se in
  let L := lstats env in
  let B := bstats env in
  let caller := flags env in
  let env := env <| mcheck_status := Z.lor caller HMP_TASK_DOWN_MIGRATION |>
                 <| mcheck_result := 0 |> in
  if (ncpu L =? 0) || (ncpu B =? 0) || cpumask_test_cpu cpu (lcpus env)
     || negb (cpumask_intersects (lcpus env) (tsk_cpus_allowed s p)) then (s, env)
  else if negb (hmp_down_stable s target_cpu) then (s, env)
  else if (rq_length s target_cpu =? 0) && (caller =? HMP_SELECT_RQ) && (0 <? rq_length s cpu) then
    (s, verdict env (Z.lor HMP_BIG_BUSY_LITTLE_IDLE HMP_MIGRATION_APPROVED) 1)
  else if CONFIG_SCHED_HMP_PRIO_FILTER && hmp_low_prio_task_down_allowed s p B L then
    (upd_hmp_cfs_avg cpu (fun a => a <| SchedTypes.nr_dequeuing_low_prio
                                         := u32 (SchedTypes.nr_dequeuing_low_prio a + 1) |>) s,
     verdict env (Z.lor HMP_LOW_PRIORITY_FILTER HMP_MIGRATION_APPROVED) 1)
  else if negb (hmp_fast_cpu_oversubscribed s caller B se cpu) then
    (s, verdict env HMP_BIG_NOT_OVERSUBSCRIBED 0)
  else if negb (hmp_task_slow_cpu_afford s L se) then
    (s, verdict env HMP_LITTLE_CAPACITY_INSUFFICIENT 0)
  else if se_load s se <=? ulong (threshold L) then (s, verdict env HMP_MIGRATION_APPROVED 1)
  else (s, env).

(** * Waking a task *)

Definition task_created (f : Z) : bool := (SD_BALANCE_EXEC =? f) || (SD_BALANCE_FORK =? f).

(** The end, from label [out] on. *)
Definition select_out (p prev_cpu new_cpu : Z) s : sys * Z :=
  let new_cpu := if nr_cpu_ids s <=? new_cpu then prev_cpu else new_cpu in
  (upd_hmp_cfs_avg new_cpu
     (fun a => a <| nr_pending := u32 (nr_pending a + 1) |>
                 <| pending_load := ulong (pending_load a + se_load s (TaskSe p)) |>) s, new_cpu).

(** Which cluster the task goes to, when it may go to either; [true] is [select_fast]. *)
Definition choose_cluster (sd_flag p prev_cpu B_target L_target : Z) s : option (sys * bool) :=
  let se := TaskSe p in
  let created := task_created sd_flag && negb (task_low_priority s (prio (tasks s p))) in
  if created && (rq_length s B_target =? 0) then Some (s, true)
  else if created && (rq_length s L_target =? 0) then Some (s, false)
  else
    env ← sched_update_clbstats s (new_env s HMP_SELECT_RQ B_target L_target);
    let env := hmp_up_migration L_target B_target se s env in
    if nonzero (mcheck_result env) then Some (s, true)
    else
      let '(s, env) := hmp_down_migration B_target L_target se s env in
      if nonzero (mcheck_result env) then Some (s, false)
      else Some (s, negb (hmp_cpu_is_slow s prev_cpu)).

Definition hmp_select_task_rq_fair (sd_flag p prev_cpu new_cpu : Z) s : option (sys * Z) :=
  if negb CONFIG_HMP_TASK_ASSIGNMENT then Some (s, new_cpu)
  else if NR_CPUS <=? prev_cpu then Some (s, new_cpu)
  else if cpumask_weight (cpu_online_mask s) =? 1 then Some (select_out p prev_cpu new_cpu s)
  else
    let B_target := hmp_select_cpu s HMP_SELECT_RQ p (hmp_fast_cpu_mask s) prev_cpu in
    let L_target := hmp_select_cpu s HMP_SELECT_RQ p (hmp_slow_cpu_mask s) prev_cpu in
    let none b := NR_CPUS =? b in
    if CONFIG_HMP_DISCARD_CFS_SELECTION_RESULT && none B_target && none L_target then
      Some (select_out p prev_cpu new_cpu s)
    else if CONFIG_HMP_DISCARD_CFS_SELECTION_RESULT && none B_target then
      Some (select_out p prev_cpu L_target s)
    else if CONFIG_HMP_DISCARD_CFS_SELECTION_RESULT && none L_target then
      Some (select_out p prev_cpu B_target s)
    else if none B_target || none L_target then Some (select_out p prev_cpu new_cpu s)
    else
      '(s, fast) ← choose_cluster sd_flag p prev_cpu B_target L_target s;
      Some (select_out p prev_cpu (if fast : bool then B_target else L_target) s).

(** * Forced migration *)

(** [raw_spin_lock_irqsave(&cpu_rq(cpu)->lock, flags)] and its counterpart *)
Definition lock_rq cpu s : option sys :=
  let l := rq_lock (rqs s cpu) in
  if ticket_next l =? ticket_owner l
  then Some (upd_rq cpu (fun r => r <| rq_lock := take_ticket l |>) s) else None.
Definition unlock_rq cpu s : sys :=
  upd_rq cpu (fun r => r <| rq_lock := arch_spin_unlock (rq_lock r) |>) s.

Definition cpu_park s cpu : bool := negb (stopper_enabled s cpu).

(** The test before a migration is recorded, besides the decision itself. *)
Definition parked s cpu : bool := CONFIG_HMP_PACK_STOP_MACHINE && cpu_park s cpu.

(** The assignments that record a migration. *)
Definition record_push cpu (target p : Z) s : sys :=
  let s := upd_rq cpu (fun r => r <| active_balance := 1 |>) s in
  let s := upd_rq cpu (fun r => r <| push_cpu := target |>) s in
  upd_rq cpu (fun r => r <| migrate_task := Some p |>) s.

(** The [if (force)] block; returns [force]. *)
Definition stop_source cpu s : option (sys * bool) :=
  if CONFIG_HMP_PACK_STOP_MACHINE then
    let '(s, failed) := __cpu_stop_dispatch_work cpu s in
    if failed then
      s ← lock_rq cpu s;
      Some (unlock_rq cpu (upd_rq cpu (fun r => r <| active_balance := 0 |>) s), false)
    else Some (s, true)
  else Some (cpu_stop_queue_work cpu s, true).

(** The body of the loop of [hmp_force_down_migration]. *)
Definition force_down_cpu cpu s : option sys :=
  if negb (cpu_online s cpu) then Some s
  else
    s ← lock_rq cpu s;
    match curr (cfss s (CfsRq 0 cpu)) with
    | None => Some (unlock_rq cpu s)
    | Some c =>
        se ← curr_task (nr_groups s) c s;
        let p := task_of se in
        let target_cpu := hmp_select_cpu s HMP_GB p (hmp_slow_cpu_mask s) (-1) in
        if NR_CPUS =? target_cpu then Some (unlock_rq cpu s)
        else
          env ← sched_update_clbstats s (new_env s HMP_GB cpu target_cpu);
          if nonzero (active_balance (rqs s cpu)) then Some (unlock_rq cpu s)
          else
            let '(s, env) := hmp_down_migration cpu target_cpu se s env in
            if nonzero (mcheck_result env) && negb (parked s cpu)
               && negb (task_state (tasks s p) =? TASK_DEAD) then
              let s := record_push cpu target_cpu p s in
              let s := hmp_next_down_delay (TaskSe p) (push_cpu (rqs s cpu)) s in
              '(s, _) ← stop_source cpu (unlock_rq cpu s); Some s
            else Some (unlock_rq cpu s)
    end.

Fixpoint each_cpu (f : Z -> sys -> option sys) (l : list Z) s : option sys :=
  match l with [] => Some s | cpu :: l => s ← f cpu s; each_cpu f l s end.

Definition hmp_force_down_migration s : option sys :=
  each_cpu force_down_cpu (cpus_of (hmp_fast_cpu_mask s)) s.

(** A task that runs less than a quarter of the time, and a CPU that is busy. *)
Definition is_light_task s (p : Z) : bool :=
  let a := se_avg (ses s (TaskSe p)) in
  u32 (Z.shiftl (usage_avg_sum a) 2) <? runnable_avg_period a.
Definition is_buddy_busy s cpu : bool :=
  if CONFIG_HMP_PACK_SMALL_TASK && (cpu <? 0) then false
  else
    let r := rqs s cpu in
    runnable_avg_period (rq_avg r) <? u32 (Z.shiftl (usage_avg_sum (rq_avg r)) (rq_nr_running r)).

(** The lazy-balance test before an up-migration. *)
Definition lazy_stay s cpu (p : Z) : bool :=
  CONFIG_HMP_LAZY_BALANCE
  && (negb CONFIG_HMP_POWER_AWARE_CONTROLLER
      || (nonzero (PA_ENABLE (enh s)) && nonzero (LB_ENABLE (enh s))))
  && is_light_task s p && negb (is_buddy_busy s (sd_pack_buddy (enh s) cpu)).

(** What both loops over the LITTLE CPUs do up to the decision, with the run queue locked:
    the running task and the big CPU it should move to, if it should. *)
Definition up_candidate cpu s : option (option (Z * Z)) :=
  match curr (cfss s (CfsRq 0 cpu)) with
  | None => Some None
  | Some c =>
      se ← curr_task (nr_groups s) c s;
      let p := task_of se in
      let target_cpu := hmp_select_cpu s HMP_GB p (hmp_fast_cpu_mask s) (-1) in
      if NR_CPUS =? target_cpu then Some None
      else
        env ← sched_update_clbstats s (new_env s HMP_GB target_cpu cpu);
        if lazy_stay s cpu p then Some None
        else if negb (nonzero (active_balance (rqs s cpu)))
             && nonzero (mcheck_result (hmp_up_migration cpu target_cpu se s env))
             && negb (parked s cpu)
        then Some (Some (p, target_cpu)) else Some None
  end.

(** [if (p->state != TASK_DEAD)] and what follows it up to the unlock; returns [force]. *)
Definition record_up cpu (p target_cpu : Z) s : sys * bool :=
  if negb (task_state (tasks s p) =? TASK_DEAD) then
    let s := record_push cpu target_cpu p s in
    (hmp_next_up_delay (TaskSe p) (push_cpu (rqs s cpu)) s, true)
  else (s, false).

(** The body of the loop of [hmp_force_up_migration].  With CONFIG_HMP_DELAY_UP_MIGRATION
    both locks are released when the big CPU is asked to pull, and control then reaches the
    unlock at [out_force_up]. *)
Definition force_up_cpu cpu s : option sys :=
  if negb (cpu_online s cpu) then Some s
  else
    s ← lock_rq cpu s;
    r ← up_candidate cpu s;
    match r with
    | None => Some (unlock_rq cpu s)
    | Some (p, target_cpu) =>
        if CONFIG_HMP_DELAY_UP_MIGRATION then
          let s := upd_rq target_cpu (fun r => r <| wake_for_idle_pull := 1 |>) s in
          let s := unlock_rq cpu s in
          let s := unlock_force s in
          let s := s <| resched_ipis := target_cpu :: resched_ipis s |> in
          Some (unlock_rq cpu s)
        else
          let '(s, force) := record_up cpu p target_cpu s in
          let s := unlock_rq cpu s in
          if force : bool then '(s, _) ← stop_source cpu s; Some s else Some s
    end.

Definition hmp_force_up_migration s : option sys :=
  match trylock_force s with
  | None => Some s
  | Some s =>
      s ← each_cpu force_up_cpu (cpus_of (hmp_slow_cpu_mask s)) s;
      s ← (if CONFIG_HMP_GLOBAL_BALANCE then hmp_force_down_migration s else Some s);
      Some (unlock_force s)
  end.

(** * Idle pull *)

(** The body of the loop; [force] is the variable of that name. *)
Definition idle_pull_cpu (this_cpu : Z) cpu (force : bool) s : option (sys * bool) :=
  if negb (cpu_online s cpu) then Some (s, force)
  else
    s ← lock_rq cpu s;
    r ← up_candidate cpu s;
    match r with
    | None => Some (unlock_rq cpu s, false)
    | Some (p, target_cpu) =>
        let '(s, force) := record_up cpu p target_cpu s in
        let s := unlock_rq cpu s in
        if force : bool then stop_source cpu (hmp_cpu_keepalive_trigger this_cpu s)
        else Some (s, false)
    end.

Fixpoint idle_pull_cpus (this_cpu : Z) (l : list Z) (force : bool) s : option (sys * bool) :=
  match l with
  | [] => Some (s, force)
  | cpu :: l => '(s, force) ← idle_pull_cpu this_cpu cpu force s; idle_pull_cpus this_cpu l force s
  end.

Definition hmp_idle_pull (this_cpu : Z) s : option (sys * bool) :=
  match trylock_force s with
  | None => Some (s, false)
  | Some s =>
      '(s, force) ← idle_pull_cpus this_cpu (cpus_of (hmp_slow_cpu_mask s)) false s;
      Some (unlock_force s, force)
  end.

(** The HMP part of [run_rebalance_domains] with this variant; the flag tells whether normal
    balancing follows. *)
Definition run_rebalance_domains (this_cpu : Z) s : option (sys * bool) :=
  let idle := nonzero (idle_balance (rqs s this_cpu)) in
  '(s, pulled) ←
    (if CONFIG_HMP_DELAY_UP_MIGRATION && nonzero (wake_for_idle_pull (rqs s this_cpu))
     then hmp_idle_pull this_cpu (upd_rq this_cpu (fun r => r <| wake_for_idle_pull := 0 |>) s)
     else Some (s, false));
  if pulled && negb idle then Some (s, false)
  else s ← hmp_force_up_migration s; Some (s, true).

End enh.
End Enh.
