(* ===== verification/HmpEnhSpec.v ===== *)
(** What the enhanced variant of HMP scheduling guarantees: which CPU [hmp_select_cpu]
    chooses, that the two migration thresholds are in range and leave a gap between them,
    where a woken task goes, that forced migration in both directions neither stops nor
    deadlocks when up-migration is not delayed, and what is wrong with the variant. *)

From S2P Require Import Prelude Spinlock Pelt SchedTypes EntityLoad HmpDomain HmpSelect Cfs CfsInv.
From S2P Require Import HmpMigration MigrationSafe HmpEnh.
Import Enh.

(** * The choice of a CPU *)

Section select_cpu.
Context `{Config}.
Implicit Types (s : sys).

(** A CPU of [mask] that is online and that task [p] may use. *)
Definition available s (p : Z) (mask : cpumask) (c : Z) : Prop :=
  c ∈ cpus_of mask /\ cpu_online s c = true /\ cpumask_test_cpu c (tsk_cpus_allowed s p) = true.

Lemma available_src s p mask c :
  c ∈ cpus_of (cpumask_and (cpumask_and (cpu_online_mask s) mask) (tsk_cpus_allowed s p))
  <-> available s p mask c.
Proof.
  unfold available, cpu_online. rewrite !elem_of_cpus_of, !test_and, !andb_true_iff. tauto.
Qed.

Lemma select_considers_spec s caller p c :
  select_considers s caller p c = true
  <-> cpu_online s c = true /\ cpumask_test_cpu c (tsk_cpus_allowed s p) = true
      /\ (caller = HMP_GB -> hmp_cpu_stable s c = true).
Proof.
  unfold select_considers. rewrite !andb_true_iff, negb_true_iff.
  destruct (Z.eqb_spec caller HMP_GB), (hmp_cpu_stable s c); simpl; naive_solver.
Qed.

Lemma select_fold s caller p prev l t :
  let r := foldl (select_step s caller p prev) t l in
  (r = t \/ (r ∈ l /\ select_considers s caller p r = true))
  /\ wload s r <= wload s t
  /\ (forall c, c ∈ l -> select_considers s caller p c = true -> wload s r <= wload s c)
  /\ ((t = prev \/ (prev ∈ l /\ select_considers s caller p prev = true)) ->
      wload s prev <= wload s t ->
      (forall c, c ∈ l -> select_considers s caller p c = true -> wload s prev <= wload s c) ->
      r = prev).
Proof.
  cbv zeta. revert t. induction l as [|d l IH]; intros t; cbn [foldl].
  { split_and!; [auto|lia|set_solver|set_solver]. }
  set (t' := select_step s caller p prev t d).
  assert (Ht : wload s t' <= wload s t /\ (t' = t \/ (t' = d /\ select_considers s caller p d = true))
    /\ (select_considers s caller p d = true -> wload s t' <= wload s d
        /\ (d = prev -> wload s prev <= wload s t -> t' = prev))
    /\ (t = prev -> (select_considers s caller p d = true -> wload s prev <= wload s d) -> t' = prev)).
  { unfold t', select_step. destruct (select_considers s caller p d); [|naive_solver lia].
    destruct (Z.ltb_spec (wload s d) (wload s t)); [naive_solver lia|].
    destruct (Z.eqb_spec (wload s d) (wload s t)), (Z.eqb_spec d prev); simpl; naive_solver lia. }
  destruct Ht as (T1 & T2 & T3 & T4). clearbody t'.
  destruct (IH t') as (I1 & I2 & I3 & I4). split_and!.
  - destruct I1 as [->|[? ?]]; [|set_solver]. destruct T2 as [->|[-> ?]]; [auto|set_solver].
  - lia.
  - intros c [->|Hc]%elem_of_cons Hs; [|by apply I3]. destruct (T3 Hs). lia.
  - intros Hp Hle Hall. apply I4; [|by destruct T2 as [->|[-> ?]]; [|apply Hall; [set_solver|]]|].
    + destruct Hp as [->|[[->|Hp]%elem_of_cons Hs]]; [|left; by apply T3|auto].
      left. apply T4; [done|]. intros. apply Hall; [set_solver|done].
    + intros c Hc. apply Hall. set_solver.
Qed.

(** The first available CPU, where the search starts. *)
Lemma select_start s p mask :
  let t := cpumask_any_and (cpumask_and (cpu_online_mask s) mask) (tsk_cpus_allowed s p) in
  (t = NR_CPUS /\ forall c, ~ available s p mask c) \/ (t <> NR_CPUS /\ available s p mask t).
Proof.
  cbv zeta. unfold cpumask_any_and. set (m := cpumask_and (cpumask_and _ _) _).
  assert (Hav : forall c, c ∈ cpus_of m <-> available s p mask c) by apply available_src.
  destruct (decide (cpumask_first m = NR_CPUS)) as [E|Hne].
  - left. split; [done|]. intros c Hc%Hav. unfold cpumask_first in E.
    destruct (cpus_of m) as [|d l] eqn:El; [set_solver|].
    assert (d ∈ cpus_of m) as Hd%elem_of_cpus_of by (rewrite El; set_solver). lia.
  - right. split; [done|]. by apply Hav, cpumask_first_elem.
Qed.

(** The CPUs among which [caller] chooses: the available ones, but a global balance passes
    over a CPU that took part in a migration a short time ago, unless it is the first. *)
Definition candidate s (caller p : Z) (mask : cpumask) (c : Z) : Prop :=
  available s p mask c
  /\ (caller = HMP_GB -> hmp_cpu_stable s c = true
      \/ c = cpumask_any_and (cpumask_and (cpu_online_mask s) mask) (tsk_cpus_allowed s p)).

Lemma select_cpu_some s caller p mask prev :
  (exists c, available s p mask c) ->
  let r := hmp_select_cpu s caller p mask prev in
  (r <> NR_CPUS /\ candidate s caller p mask r)
  /\ (forall c, candidate s caller p mask c -> wload s r <= wload s c)
  /\ (candidate s caller p mask prev ->
      (forall c, candidate s caller p mask c -> wload s prev <= wload s c) -> r = prev).
Proof.
  intros [c0 Hc0]. cbv zeta. unfold hmp_select_cpu, candidate.
  destruct (select_start s p mask) as [[_ Hno]|[Hne Ht]]; [by destruct (Hno c0)|].
  set (t := cpumask_any_and _ _) in *. destruct (Z.eqb_spec NR_CPUS t); [congruence|].
  destruct (select_fold s caller p prev (cpus_of mask) t) as (F1 & F2 & F3 & F4).
  set (r := foldl _ _ _) in *.
  assert (Hcand : forall c, available s p mask c /\
      (caller = HMP_GB -> hmp_cpu_stable s c = true \/ c = t)
    <-> c = t \/ (c ∈ cpus_of mask /\ select_considers s caller p c = true)).
  { intros c. rewrite select_considers_spec. unfold available. destruct Ht as (? & ? & ?).
    destruct (decide (caller = HMP_GB)), (decide (c = t)); naive_solver. }
  apply Hcand in F1. split; [|split].
  - split; [destruct F1 as [[Hr%elem_of_cpus_of _] _]; lia|done].
  - intros c [->|[Hc Hs]]%Hcand; [done|by apply F3].
  - intros Hp%Hcand Hall. apply F4; [naive_solver|apply Hall, Hcand; by left|].
    intros d Hd Hs. apply Hall, Hcand. auto.
Qed.

Lemma select_cpu_available s caller p mask prev :
  (exists c, available s p mask c) ->
  hmp_select_cpu s caller p mask prev <> NR_CPUS
  /\ available s p mask (hmp_select_cpu s caller p mask prev).
Proof. intros Hc. by destruct (select_cpu_some s caller p mask prev Hc) as ((? & [? _]) & _). Qed.

Lemma select_cpu_none s caller p mask prev :
  hmp_select_cpu s caller p mask prev = NR_CPUS <-> forall c, ~ available s p mask c.
Proof.
  split.
  - intros E c Hc. destruct (select_cpu_available s caller p mask prev) as [? _]; [by exists c|done].
  - intros Hno. unfold hmp_select_cpu. destruct (select_start s p mask) as [[-> _]|[_ Ht]];
      [by rewrite Z.eqb_refl|by destruct (Hno _ Ht)].
Qed.

End select_cpu.

(** * Thresholds *)

(** Compute capacities as [parse_dt_topology] and [update_cpu_power] set them up, 1 to 1583
    where 1024 stands for an average CPU, no CPU having more than 22 times the capacity of
    another ([wide_scales_overflow] below); and loads for which no product leaves 32 bits. *)
Definition scales_ok (s : sys) : Prop :=
  forall c, 1 <= cpu_scale (enh s) c <= 1583 /\ 0 <= invariant_cpu_capacity (enh s) c <= 1024
    /\ forall d, cpu_scale (enh s) c <= 22 * (cpu_scale (enh s) d + 1).
Definition loads_ok (s : sys) : Prop :=
  forall c, 0 <= cfs_load s c <= 2 ^ 20 /\ 0 <= cfs_length s c * cfs_load s c <= 2 ^ 24.

(** The two quotients add up to less than the whole: this is the gap between thresholds. *)
Lemma shares_sum k a b c d :
  0 < k -> 0 <= a -> 0 <= b -> 0 <= c -> 0 <= d ->
  0 <= k * a * b / ((a + c) * (b + d) + 1) /\ 0 <= k * c * d / ((a + c) * (b + d) + 1)
  /\ k * a * b / ((a + c) * (b + d) + 1) + k * c * d / ((a + c) * (b + d) + 1) < k.
Proof.
  intros Hk Ha Hb Hc Hd. set (D := (a + c) * (b + d) + 1).
  assert (HD : 0 < D) by (unfold D; nia).
  pose proof (div_floor_bounds (k * a * b) D HD) as E1.
  pose proof (div_floor_bounds (k * c * d) D HD) as E2.
  split; [apply Z.div_pos; nia|]. split; [apply Z.div_pos; nia|].
  assert (E3 : a * b + c * d < D) by (unfold D; nia).
  assert (E4 : D * (k * a * b / D + k * c * d / D) < D * k) by nia. nia.
Qed.

Section thresholds.
Context `{Config}.
Implicit Types (s : sys).

Lemma quot_div a b : 0 <= a -> 0 < b -> Z.quot a b = a / b.
Proof. intros. by apply Z.quot_div_nonneg. Qed.

Lemma set_thresholds_ok bn bt ln lt env :
  0 <= bn <= 1448 -> 0 <= bt <= 1448 -> 0 <= ln <= 1024 -> 0 <= lt <= 1024 ->
  exists b l, set_thresholds bn bt ln lt env
    = Some (env <| bstats := (bstats env) <| threshold := b |> |>
                <| lstats := (lstats env) <| threshold := l |> |>)
    /\ 0 <= l /\ l < b /\ b <= 1023.
Proof.
  intros Hbn Hbt Hln Hlt. unfold set_thresholds.
  change HMP_MAX_LOAD with 1023.
  set (D := (bn + ln) * (bt + lt) + 1). assert (HD : 0 < D) by (unfold D; nia).
  assert (ED : s32 (s32 (s32 (bn + ln) * s32 (bt + lt)) + 1) = D).
  { rewrite (s32_id (bn + ln)), (s32_id (bt + lt)) by lia.
    rewrite (s32_id ((bn + ln) * (bt + lt))) by nia. apply s32_id. nia. }
  rewrite ED, (slong_id (1023 * bn)), (slong_id (1023 * ln)) by lia.
  rewrite (slong_id (1023 * bn * bt)), (slong_id (1023 * ln * lt)) by nia.
  unfold sdiv. destruct (Z.eqb_spec D 0); [lia|]. cbn [mbind option_bind].
  rewrite !quot_div by nia.
  destruct (shares_sum 1023 bn bt ln lt) as (S1 & S2 & S3); [lia..|]. fold D in S1, S2, S3.
  rewrite !s32_id by lia. eexists _, _. split; [reflexivity|]. lia.
Qed.

Lemma hmp_pos_bound v n : 0 <= n -> v <= n -> 0 <= hmp_pos v <= n.
Proof. intros. unfold hmp_pos. destruct (Z.ltb_spec v 0); lia. Qed.

Lemma shiftr_bound v lo hi n : 0 <= n -> lo * 2 ^ n <= v < (hi + 1) * 2 ^ n -> lo <= Z.shiftr v n <= hi.
Proof.
  intros Hn Hv. rewrite shiftr_div by done. pose proof (pow2_pos n Hn).
  split; [apply Z.div_le_lower_bound; lia|].
  apply Z.lt_succ_r, Z.div_lt_upper_bound; lia.
Qed.

Lemma s32_range z : - 2 ^ 31 <= s32 z < 2 ^ 31.
Proof. unfold s32. pose proof (Z.mod_pos_bound (z + 2 ^ 31) (2 ^ 32)). lia. Qed.

Lemma scaled_capacity_bound s m : - 2 ^ 21 <= scaled_capacity s m <= 1023.
Proof.
  assert (Hs : forall x, - 2 ^ 21 <= Z.min HMP_MAX_LOAD (Z.shiftr (s32 (HMP_MAX_LOAD * x)) 10) <= 1023).
  { intros x. pose proof (shiftr_bound (s32 (HMP_MAX_LOAD * x)) (- 2 ^ 21) (2 ^ 21 - 1) 10).
    pose proof (s32_range (HMP_MAX_LOAD * x)). change HMP_MAX_LOAD with 1023 in *. lia. }
  unfold scaled_capacity. cbv zeta. repeat case_match; apply Hs || (change HMP_MAX_LOAD with 1023; lia).
Qed.

(** Counting leaves the other fields alone. *)
Definition clb_rest (b : clb_stats) := (cpu_power b, scaled_acap b, scaled_atask b).

Lemma count_rest s b l : clb_rest (foldl (count_cpu s) b l) = clb_rest b.
Proof.
  revert b. induction l as [|c l IH]; intros b; cbn; [done|]. rewrite IH.
  unfold count_cpu. by repeat case_match.
Qed.

Lemma count_ncpu s b l :
  0 <= ncpu b -> ncpu b + Z.of_nat (length l) < 2 ^ 31 ->
  ncpu (foldl (count_cpu s) b l)
  = ncpu b + Z.of_nat (length (filter (fun c => cpu_online s c = true) l)).
Proof.
  revert b. induction l as [|c l IH]; intros b Hb Hl; cbn [foldl]; [simpl; lia|].
  cbn [length] in Hl. rewrite filter_cons. destruct (cpu_online s c) eqn:E.
  - assert (En : ncpu (count_cpu s b c) = ncpu b + 1).
    { unfold count_cpu. rewrite E. case_match; simpl; by rewrite s32_id by lia. }
    rewrite IH; rewrite En; [|lia..]. case_decide; [|done]. cbn [length]. lia.
  - assert (En : count_cpu s b c = b) by (unfold count_cpu; by rewrite E).
    rewrite En, IH by lia. case_decide; [congruence|]. done.
Qed.

Context (NR_small : NR_CPUS <= 1024).

Lemma count_nonzero s m c :
  c ∈ cpus_of m -> cpu_online s c = true -> ncpu (foldl (count_cpu s) clb_zero (cpus_of m)) <> 0.
Proof.
  intros Hc Ho. rewrite count_ncpu; [|done|].
  - simpl. assert (Hin : c ∈ filter (fun c => cpu_online s c = true) (cpus_of m))
      by (by apply list_elem_of_filter).
    destruct (filter _ _); [set_solver|]. cbn [length]. lia.
  - simpl. assert (Hl : (length (cpus_of m) <= length cpu_ids)%nat) by apply length_filter.
    unfold cpu_ids in Hl. rewrite length_fmap, length_seq in Hl. lia.
Qed.

Lemma collect_bounds s m t :
  scales_ok s -> loads_ok s ->
  let b := collect_cluster_stats s clb_zero m t in
  0 <= cpu_power b <= 1583 /\ - 1179648 <= scaled_acap b <= 63 /\ - 1179648 <= scaled_atask b <= 63.
Proof.
  intros Hs Hl. cbv zeta. unfold collect_cluster_stats.
  pose proof (count_rest s clb_zero (cpus_of m)) as Hr. set (b := foldl _ _ _) in *.
  unfold clb_rest in Hr. simpl in Hr. injection Hr as E1 E2 E3.
  case_match; [rewrite E1, E2, E3; lia|]. simpl. cbv zeta.
  destruct (Hl t) as [L1 L2]. destruct (Hs t) as (S1 & _).
  pose proof (scaled_capacity_bound s m) as Hc. set (cap := scaled_capacity s m) in *.
  unfold arch_scale_freq_power, hmp_scale_down.
  rewrite (s32_id (cpu_scale _ _)) by lia. rewrite (s32_id (cap - cfs_load s t)) by lia.
  rewrite (ulong_id (cfs_length s t * cfs_load s t)) by nia.
  rewrite (s32_id (cfs_length s t * cfs_load s t)) by nia.
  rewrite (s32_id (cap - cfs_length s t * cfs_load s t)) by nia.
  split; [lia|]. split; apply shiftr_bound; nia.
Qed.

Lemma collect_power s m t :
  scales_ok s -> t ∈ cpus_of m -> cpu_online s t = true ->
  cpu_power (collect_cluster_stats s clb_zero m t) = cpu_scale (enh s) t.
Proof.
  intros Hs Ht Ho. pose proof (count_nonzero s m t Ht Ho) as Hn.
  apply elem_of_cpus_of in Ht as [Htr Htm]. unfold collect_cluster_stats.
  set (b := foldl _ _ _) in *. destruct (Z.eqb_spec (ncpu b) 0); [done|].
  destruct (Z.eqb_spec NR_CPUS t); [lia|]. rewrite Htm. simpl. destruct (Hs t).
  unfold arch_scale_freq_power. by rewrite s32_id by lia.
Qed.

Lemma collect_power_cases s m t :
  scales_ok s ->
  let b := collect_cluster_stats s clb_zero m t in
  cpu_power b = 0 \/ cpu_power b = cpu_scale (enh s) t.
Proof.
  intros Hs. cbv zeta. unfold collect_cluster_stats.
  pose proof (count_rest s clb_zero (cpus_of m)) as Hr. set (b := foldl _ _ _) in *.
  unfold clb_rest in Hr. simpl in Hr. injection Hr as E1 _ _.
  case_match; [by left|]. right. simpl. destruct (Hs t) as (? & _).
  unfold arch_scale_freq_power. by rewrite s32_id by lia.
Qed.

Lemma positive_cap cap x :
  0 <= cap <= 1024 -> 0 <= x <= 2 ^ 24 -> 0 <= positive_ulong (ulong (cap - x)) <= 1024.
Proof.
  intros Hc Hx. unfold positive_ulong.
  assert (E : s32 (ulong (cap - x)) = cap - x); [|rewrite E; destruct (Z.ltb_spec (cap - x) 0); lia].
  unfold ulong, s32. destruct (decide (0 <= cap - x)) as [Hp|Hp].
  - rewrite (Z.mod_small (cap - x)) by (destruct BITS_PER_LONG_ok as [->| ->]; lia).
    rewrite Z.mod_small; lia.
  - assert (E : exists k, 0 < k /\ 2 ^ BITS_PER_LONG = k * 2 ^ 32).
    { destruct BITS_PER_LONG_ok as [->| ->]; [exists 1|exists (2 ^ 32)]; lia. }
    destruct E as (k & Hk & ->).
    assert (Em : (cap - x) mod (k * 2 ^ 32) = cap - x + k * 2 ^ 32).
    { symmetry. apply (Z.mod_unique _ _ (-1)); nia. }
    rewrite Em. replace (cap - x + k * 2 ^ 32 + 2 ^ 31) with (cap - x + 2 ^ 31 + k * 2 ^ 32) by lia.
    rewrite Z.mod_add, Z.mod_small; lia.
Qed.

(** What [sched_update_clbstats] leaves in the environment. *)
Definition clbstats_of s (caller b l tb tl : Z) : clb_env :=
  new_env s caller b l
  <| bstats := (collect_cluster_stats s clb_zero (hmp_fast_cpu_mask s) b) <| threshold := tb |> |>
  <| lstats := (collect_cluster_stats s clb_zero (hmp_slow_cpu_mask s) l) <| threshold := tl |> |>.

Lemma target_room s c :
  scales_ok s -> loads_ok s -> CONFIG_ARCH_SCALE_INVARIANT_CPU_CAPACITY = true ->
  let '(load, task, cap) := target_stats s c in
  0 <= positive_ulong (ulong (cap - load)) <= 1024
  /\ 0 <= positive_ulong (ulong (cap - Z.shiftr (ulong (task * load)) TSKLD_SHIFT)) <= 1024.
Proof.
  intros Hs Hl Ha. unfold target_stats, topology_cpu_capacity. rewrite Ha.
  destruct (c <? nr_cpu_ids s).
  - destruct (Hl c) as [L1 L2]. destruct (Hs c) as (_ & S & _).
    rewrite (ulong_id (_ * _)) by nia.
    split; apply positive_cap; try lia. unfold TSKLD_SHIFT.
    pose proof (shiftr_bound (cfs_length s c * cfs_load s c) 0 (2 ^ 24) 2). nia.
  - rewrite (ulong_id (0 * 0)) by lia. split; by apply positive_cap.
Qed.

Lemma clbstats_ok s caller b l :
  USE_HMP_DYNAMIC_THRESHOLD = false -> scales_ok s -> loads_ok s ->
  l ∈ cpus_of (hmp_slow_cpu_mask s) -> cpu_online s l = true ->
  exists tb tl, sched_update_clbstats s (new_env s caller b l) = Some (clbstats_of s caller b l tb tl)
    /\ 0 <= tl /\ tl < tb /\ tb <= 1023.
Proof.
  intros Hu Hs Hl Hls Hlo. unfold sched_update_clbstats. cbv zeta. simpl.
  set (B := collect_cluster_stats s clb_zero (hmp_fast_cpu_mask s) b).
  set (L := collect_cluster_stats s clb_zero (hmp_slow_cpu_mask s) l).
  assert (HB : 0 <= cpu_power B <= 1583 /\ - 1179648 <= scaled_acap B <= 63
               /\ - 1179648 <= scaled_atask B <= 63) by (by apply collect_bounds).
  assert (HL : 0 <= cpu_power L <= 1583 /\ - 1179648 <= scaled_acap L <= 63
               /\ - 1179648 <= scaled_atask L <= 63) by (by apply collect_bounds).
  assert (HP : 1 <= cpu_power L /\ cpu_power B <= 22 * (cpu_power L + 1)).
  { unfold L. rewrite collect_power by done. destruct (Hs l) as (? & _ & _).
    destruct (collect_power_cases s (hmp_fast_cpu_mask s) b Hs) as [E|E]; unfold B; rewrite E;
      [lia|destruct (Hs b) as (_ & _ & ?); naive_solver]. }
  unfold adj_threshold. rewrite Hu. simpl.
  set (env := new_env s caller b l <| bstats := B |> <| lstats := L |>).
  assert (Hset : forall bn bt ln lt, 0 <= bn <= 1448 -> 0 <= bt <= 1448 -> 0 <= ln <= 1024 ->
    0 <= lt <= 1024 -> exists tb tl, set_thresholds bn bt ln lt env
      = Some (clbstats_of s caller b l tb tl) /\ 0 <= tl /\ tl < tb /\ tb <= 1023)
    by (intros; by apply (set_thresholds_ok bn bt ln lt env)).
  clearbody env. destruct CONFIG_ARCH_SCALE_INVARIANT_CPU_CAPACITY eqn:Ha.
  - pose proof (target_room s b Hs Hl Ha) as Rb. pose proof (target_room s l Hs Hl Ha) as Rl.
    destruct (target_stats s b) as [[? ?] ?], (target_stats s l) as [[? ?] ?].
    destruct Rb, Rl. apply Hset; lia.
  - rewrite (s32_id (cpu_power L + 1)) by lia. unfold sdiv.
    destruct (Z.eqb_spec (cpu_power L + 1) 0); [lia|]. cbn [mbind option_bind].
    rewrite (s32_id (scaled_acap B * _)), (s32_id (scaled_atask B * _)) by nia.
    assert (Hq : forall x, -1179648 <= x <= 63 -> Z.quot (x * cpu_power B) (cpu_power L + 1) <= 1448).
    { intros x Hx. destruct (decide (0 <= x)).
      - rewrite quot_div by nia. apply Z.div_le_upper_bound; nia.
      - transitivity 0; [|lia]. replace x with (- - x) by lia. rewrite Z.mul_opp_l, Z.quot_opp_l by lia.
        assert (0 <= Z.quot (- x * cpu_power B) (cpu_power L + 1)) by (apply Z.quot_pos; nia). lia. }
    apply Hset; apply hmp_pos_bound; try lia; apply Hq; lia.
Qed.


(** Without USE_HMP_DYNAMIC_THRESHOLD, which nothing defines, the thresholds do not depend on
    the tunables [hmp_up_threshold] and [hmp_down_threshold]. *)
Lemma thresholds_ignore_tunables s env t :
  USE_HMP_DYNAMIC_THRESHOLD = false ->
  hmp_data t = hmp_data (tun s) ->
  sched_update_clbstats (s <| tun := t |>) env = sched_update_clbstats s env.
Proof.
  intros Hu Ht. unfold sched_update_clbstats. cbv zeta.
  assert (E : forall b m c, collect_cluster_stats (s <| tun := t |>) b m c
                            = collect_cluster_stats s b m c).
  { intros. unfold collect_cluster_stats.
    assert (E2 : scaled_capacity (s <| tun := t |>) m = scaled_capacity s m)
      by (unfold scaled_capacity; simpl; by rewrite Ht).
    rewrite E2. done. }
  rewrite !E. unfold adj_threshold. rewrite Hu. done.
Qed.
End thresholds.

(** * Up or down *)

Section decide.
Context `{Config}.
Implicit Types (s : sys).

Lemma up_approved cpu t se s env :
  mcheck_result (hmp_up_migration cpu t se s env) <> 0 ->
  cpumask_test_cpu cpu (bcpus env) = false
  /\ cpumask_intersects (bcpus env) (tsk_cpus_allowed s (task_of se)) = true
  /\ hmp_up_stable s t = true
  /\ (rq_length s t = 0
      \/ (hmp_task_fast_cpu_afford s (bstats env) se t = true
          /\ ulong (threshold (bstats env)) < se_load s se)).
Proof.
  unfold hmp_up_migration. cbv zeta. cbn [bcpus field_set].
  destruct (ncpu (lstats env) =? 0), (ncpu (bstats env) =? 0); simpl; try done.
  change (bcpus (env <| mcheck_status := _ |> <| mcheck_result := 0 |>)) with (bcpus env).
  destruct (cpumask_test_cpu cpu (bcpus env)); simpl; [done|].
  destruct (cpumask_intersects _ _); simpl; [|done].
  destruct (hmp_up_stable s t); simpl; [|done].
  destruct (_ && hmp_low_prio_task_up_rejected _ _ _ _); simpl; [done|].
  destruct (Z.eqb_spec (rq_length s t) 0); simpl; [by auto|].
  destruct (hmp_task_fast_cpu_afford _ _ _ _); simpl; [|done].
  destruct (Z.ltb_spec (ulong (threshold (bstats env))) (se_load s se)); simpl; [|done].
  intros _. split_and!; [done..|]. by right.
Qed.

Lemma down_approved cpu t se s env :
  mcheck_result (hmp_down_migration cpu t se s env).2 <> 0 ->
  cpumask_test_cpu cpu (lcpus env) = false
  /\ cpumask_intersects (lcpus env) (tsk_cpus_allowed s (task_of se)) = true
  /\ hmp_down_stable s t = true
  /\ ((rq_length s t = 0 /\ flags env = HMP_SELECT_RQ /\ 0 < rq_length s cpu)
      \/ (CONFIG_SCHED_HMP_PRIO_FILTER = true
          /\ hmp_low_prio_task_down_allowed s (task_of se) (bstats env) (lstats env) = true)
      \/ (hmp_fast_cpu_oversubscribed s (flags env) (bstats env) se cpu = true
          /\ hmp_task_slow_cpu_afford s (lstats env) se = true
          /\ se_load s se <= ulong (threshold (lstats env)))).
Proof.
  unfold hmp_down_migration. cbv zeta.
  destruct (ncpu (lstats env) =? 0), (ncpu (bstats env) =? 0); simpl; try done.
  destruct (cpumask_test_cpu cpu (lcpus env)); simpl; [done|].
  destruct (cpumask_intersects _ _); simpl; [|done].
  destruct (hmp_down_stable s t); simpl; [|done].
  destruct ((rq_length s t =? 0) && (flags env =? HMP_SELECT_RQ) && (0 <? rq_length s cpu)) eqn:E1;
    simpl.
  { intros _. split_and!; [done..|]. left. rewrite !andb_true_iff, !Z.eqb_eq, Z.ltb_lt in E1. tauto. }
  destruct (CONFIG_SCHED_HMP_PRIO_FILTER && hmp_low_prio_task_down_allowed _ _ _ _) eqn:E2; simpl.
  { intros _. split_and!; [done..|]. right; left. by apply andb_true_iff in E2. }
  destruct (hmp_fast_cpu_oversubscribed _ _ _ _ _); simpl; [|done].
  destruct (hmp_task_slow_cpu_afford _ _ _); simpl; [|done].
  destruct (Z.leb_spec (se_load s se) (ulong (threshold (lstats env)))); simpl; [|done].
  intros _. split_and!; [done..|]. right; by right.
Qed.

(** What a decision to move down changes: the count of low-priority tasks on their way. *)
Lemma down_state cpu t se s env :
  (hmp_down_migration cpu t se s env).1 = s
  \/ (hmp_down_migration cpu t se s env).1
     = upd_hmp_cfs_avg cpu (fun a => a <| SchedTypes.nr_dequeuing_low_prio
                                           := u32 (SchedTypes.nr_dequeuing_low_prio a + 1) |>) s.
Proof.
  unfold hmp_down_migration. cbv zeta. repeat (case_match; [by left|]).
  case_match; [by right|]. repeat (case_match; [by left|]). by left.
Qed.

(** Up and down do not contradict each other.  With the thresholds of one set of
    statistics, a task is wanted both on the big CPU [b] and on the LITTLE CPU [l] only when
    one of the short cuts applies: [b] is idle, or [l] is idle while a task is being woken, or
    the low-priority filter applies.  The load of the task alone never asks for both. *)
Theorem enh_up_down_exclusive se s env b l :
  0 <= threshold (lstats env) -> threshold (lstats env) < threshold (bstats env) ->
  threshold (bstats env) <= HMP_MAX_LOAD ->
  mcheck_result (hmp_up_migration l b se s env) <> 0 ->
  mcheck_result (hmp_down_migration b l se s env).2 <> 0 ->
  rq_length s b = 0 \/ (rq_length s l = 0 /\ flags env = HMP_SELECT_RQ)
  \/ hmp_low_prio_task_down_allowed s (task_of se) (bstats env) (lstats env) = true.
Proof.
  intros Hl Hlb Hb (_ & _ & _ & [Hu|[_ Hu]])%up_approved (_ & _ & _ & Hd)%down_approved; [by left|].
  destruct Hd as [(? & ? & _)|[[_ ?]|(_ & _ & Hd)]]; [auto..|].
  change HMP_MAX_LOAD with 1023 in Hb. rewrite ulong_id in Hu, Hd by lia. lia.
Qed.
End decide.

(** * Waking a task *)

Section wakeup.
Context `{Config}.
Context (NR_small : NR_CPUS <= 1024).
Implicit Types (s : sys).

(** What is on its way to a CPU: tasks and their load. *)
Definition pending_on s (c : Z) : Z * Z := (cfs_nr_pending s c, cfs_pending_load s c).

Lemma rqs_upd_hmp_cfs_avg c f s d :
  rqs (upd_hmp_cfs_avg c f s) d
  = if decide (c = d) then (rqs s c) <| rq_cfs_avg := f (rq_cfs_avg (rqs s c)) |> else rqs s d.
Proof.
  unfold upd_hmp_cfs_avg. destruct (decide (c = d)) as [->|]; [by rewrite rqs_upd_rq|].
  by rewrite rqs_upd_rq_ne.
Qed.

Lemma down_pending cpu t se s env c :
  pending_on (hmp_down_migration cpu t se s env).1 c = pending_on s c.
Proof.
  destruct (down_state cpu t se s env) as [->| ->]; [done|].
  unfold pending_on, cfs_nr_pending, cfs_pending_load. rewrite rqs_upd_hmp_cfs_avg.
  by destruct (decide (cpu = c)) as [->|].
Qed.

Lemma down_frame cpu t se s env :
  let s' := (hmp_down_migration cpu t se s env).1 in
  nr_cpu_ids s' = nr_cpu_ids s /\ hmp_slow_cpu_mask s' = hmp_slow_cpu_mask s /\ ses s' = ses s.
Proof. cbv zeta. by destruct (down_state cpu t se s env) as [->| ->]. Qed.

Lemma select_out_spec p prev new s :
  new < nr_cpu_ids s ->
  exists s', select_out p prev new s = (s', new)
    /\ forall c, pending_on s' c
         = if decide (new = c) then (u32 (cfs_nr_pending s c + 1),
                                     ulong (cfs_pending_load s c + se_load s (TaskSe p)))
           else pending_on s c.
Proof.
  intros Hn. unfold select_out. destruct (Z.leb_spec (nr_cpu_ids s) new); [lia|].
  eexists. split; [done|]. intros c. unfold pending_on, cfs_nr_pending, cfs_pending_load.
  rewrite rqs_upd_hmp_cfs_avg. by destruct (decide (new = c)) as [->|].
Qed.

Lemma choose_cluster_ok sd_flag p prev b l s :
  USE_HMP_DYNAMIC_THRESHOLD = false -> scales_ok s -> loads_ok s ->
  l ∈ cpus_of (hmp_slow_cpu_mask s) -> cpu_online s l = true ->
  exists s' fast, choose_cluster sd_flag p prev b l s = Some (s', fast)
    /\ (forall c, pending_on s' c = pending_on s c) /\ nr_cpu_ids s' = nr_cpu_ids s /\ ses s' = ses s.
Proof.
  intros Hu Hs Hl Hls Hlo. unfold choose_cluster. cbv zeta. case_match; [eauto 7|].
  case_match; [eauto 7|].
  destruct (clbstats_ok NR_small s HMP_SELECT_RQ b l) as (tb & tl & -> & _); [done..|].
  cbn [mbind option_bind]. set (env := clbstats_of _ _ _ _ _ _). case_match; [eauto 7|].
  set (env' := hmp_up_migration _ _ _ _ _).
  pose proof (down_pending b l (TaskSe p) s env') as Hp.
  pose proof (down_frame b l (TaskSe p) s env') as Hf.
  destruct (hmp_down_migration b l (TaskSe p) s env') as [s1 env1]. simpl in Hp, Hf.
  destruct Hf as (? & ? & ?). case_match; eauto 7.
Qed.

End wakeup.

(** * Witnesses *)

Lemma busy_scales_ok : scales_ok busy_sys.
Proof.
  intros c. unfold busy_sys. store_frame. cbn [enh sample_sys cpu_scale invariant_cpu_capacity].
  split; [case_match; lia|]. split; [lia|]. intros d. repeat case_match; lia.
Qed.
Lemma busy_loads_ok : loads_ok busy_sys.
Proof. intros c. change (cfs_load busy_sys c) with 0. lia. Qed.


(** The range of scales matters: were a big CPU 1583 times as fast as a LITTLE one, the
    product of what is left in both clusters would leave 32 bits, and the up-threshold would
    be above every load. *)
Definition wide_sys : sys :=
  busy_sys <| enh := (enh busy_sys) <| cpu_scale := fun c => if c <? 4 then 1583 else 1 |> |>.

Example wide_scales_overflow :
  exists env, sched_update_clbstats (H := backup_config) wide_sys (new_env wide_sys HMP_SELECT_RQ 2 4)
    = Some env /\ (threshold (bstats env), threshold (lstats env)) = (2434, 0).
Proof. eexists. split; vm_compute; reflexivity. Qed.

(** A global balance is to bypass unstable CPUs, but it chooses CPU 0, to which a task went up
    this very moment, because the search starts there without looking; CPUs 1 to 3 are
    stable and no more loaded. *)
Definition just_moved_sys : sys :=
  upd_hmp_cfs_avg 0 (fun a => a <| cfs_last_up_migration := clock_task (rqs busy_sys 0) |>) busy_sys.

Example unstable_cpu_chosen :
  hmp_select_cpu (H := backup_config) just_moved_sys HMP_GB 4 15 (-1) = 0
  /\ map (hmp_cpu_stable just_moved_sys) [0; 1; 2; 3] = [false; true; true; true]
  /\ map (wload (H := backup_config) just_moved_sys) [0; 1; 2; 3] = [0; 0; 0; 0].
Proof. vm_compute. auto. Qed.

(** Task 4 is wanted on CPU 2 for its load, and on CPU 5, which is idle, because CPU 2 is not. *)
Definition busy_big_sys : sys :=
  upd_se (TaskSe 4) (fun e => e <| se_avg := sample_avg <| load_avg_ratio := 600 |> |>)
    (upd_rq 2 (fun r => r <| rq_nr_running := 1 |>) busy_sys).
Definition wake_env : clb_env :=
  match sched_update_clbstats (H := backup_config) busy_big_sys (new_env busy_big_sys HMP_SELECT_RQ 2 5) with
  | Some env => env | None => new_env busy_big_sys HMP_SELECT_RQ 2 5 end.

Lemma enh_up_down_exclusive_witness :
  rq_length busy_big_sys 2 <> 0
  /\ (rq_length busy_big_sys 2 = 0 \/ (rq_length busy_big_sys 5 = 0 /\ flags wake_env = HMP_SELECT_RQ)
      \/ hmp_low_prio_task_down_allowed (H := backup_config) busy_big_sys 4 (bstats wake_env) (lstats wake_env) = true).
Proof.
  split; [vm_compute; discriminate|].
  apply (enh_up_down_exclusive (H := backup_config) (TaskSe 4) busy_big_sys wake_env 2 5);
    vm_compute; congruence.
Defined.

