(* ===== verification/EnhSafe.v ===== *)
(** Forced migration in the enhanced variant: with every interleaving of balancing, CPU
    stoppers and other activity, when up-migration is not delayed, nothing stops, every lock is
    released as often as it is taken, and a queued migration names a task and another CPU; but
    each migration drops a reference to its task that nobody took.  When up-migration is
    delayed, locks are released twice, after which they can no longer be taken. *)

From S2P Require Import Prelude Spinlock Pelt SchedTypes EntityLoad HmpDomain HmpSelect Cfs CfsInv.
From S2P Require Import HmpMigration MigrationSafe HmpEnh HmpEnhSpec.
Import Enh.

(** * The invariant *)

Section safety.
Context `{Config}.
Context (NR_small : NR_CPUS <= 1024) (Hdyn : USE_HMP_DYNAMIC_THRESHOLD = false).

(** The clusters, which do not overlap. *)
Context (fast slow : cpumask)
  (clusters : forall c, cpumask_test_cpu c fast = true -> cpumask_test_cpu c slow = false).
Implicit Types (s : sys) (U : Z -> Z).

(** [held] tells whether [hmp_force_migration] is held, [locked] which run queue is locked;
    [U] gives the reference counts.  A task is freed
    with its last reference. *)
Record enh_ok (held : bool) (locked : option Z) U s : Prop := {
  eo_sys : sys_ok s;
  eo_force : lock_is held (hmp_force_migration s);
  eo_locks : forall c, lock_is (bool_decide (locked = Some c)) (rq_lock (rqs s c));
  eo_masks : hmp_fast_cpu_mask s = fast /\ hmp_slow_cpu_mask s = slow;
  eo_scales : scales_ok s;
  eo_track : forall c, cfs_track (rqs s c) = (0, 0, 0);
  eo_nodup : NoDup (stop_works s);
  eo_work : forall c, c ∈ stop_works s ->
    active_balance (rqs s c) <> 0 /\ push_cpu (rqs s c) <> c /\ is_Some (migrate_task (rqs s c));
  eo_usage : forall p, task_usage (tasks s p) = U p;
  eo_freed : forall p, task_freed (tasks s p) = true <-> U p <= 0;
}.

Lemma enh_ok_loads h k U s : enh_ok h k U s -> loads_ok s.
Proof.
  intros Hok c. pose proof (eo_track _ _ _ _ Hok c) as E. unfold cfs_track in E.
  injection E as E _ _. unfold cfs_load. rewrite E. lia.
Qed.

Lemma enh_ok_idle h k U s c :
  enh_ok h k U s -> nonzero (active_balance (rqs s c)) = false -> c ∉ stop_works s.
Proof. intros Hok Ha Hc. destruct (eo_work _ _ _ _ Hok c Hc) as [Hn _]. unfold nonzero in Ha. lia. Qed.

Lemma mig_view_rest r r' :
  mig_view r' = mig_view r -> rq_lock r' = rq_lock r /\ cfs_track r' = cfs_track r.
Proof. intros E. split; [exact (f_equal (fun v => v.2.1.1) E)|exact (f_equal (fun v => v.2.2) E)]. Qed.

Lemma enh_ok_still h k U s s' : still_usage s s' -> enh_ok h k U s -> enh_ok h k U s'.
Proof.
  intros [Sr St Sc Sm Se _ _ _ _ _ _] [Hs Hf Hl Hm Hsc Ht Hn Hw Hu Hfr].
  unfold env_view in Se. injection Se as E1 E2 E3 E4 E5 E6 E7 E8 E9 E10 E11 E12 E13.
  split; [apply (sys_ok_ext s); [done|done|unfold topo_view; congruence|done]|by rewrite E3| |..].
  - intros c. destruct (mig_view_rest _ _ (Sr c)) as [-> _]. apply Hl.
  - by rewrite E9, E10.
  - unfold scales_ok. by rewrite E12.
  - intros c. destruct (mig_view_rest _ _ (Sr c)) as [_ ->]. apply Ht.
  - by rewrite E1.
  - intros c. rewrite E1. destruct (mig_view_inv _ _ (Sr c)) as (-> & -> & -> & _). apply Hw.
  - intros p. by rewrite (f_equal fst (St p) : task_usage (tasks s' p) = task_usage (tasks s p)).
  - intros p. by rewrite (f_equal snd (St p) : task_freed (tasks s' p) = task_freed (tasks s p)).
Qed.

(** A change to the run queue of a CPU with no work queued, as to its lock. *)
Lemma enh_ok_upd_rq h k k' U c f s :
  c ∉ stop_works s \/ (forall r, push_view (f r) = push_view r) ->
  (forall r, cfs_track (f r) = cfs_track r) ->
  (forall d, lock_is (bool_decide (k' = Some d)) (rq_lock (rqs (upd_rq c f s) d))) ->
  enh_ok h k U s -> enh_ok h k' U (upd_rq c f s).
Proof.
  intros Hc Hf Hk [Hs Hfo Hl Hm Hsc Ht Hn Hw Hu Hfr]. split; try done; [by apply (sys_ok_ext s)|..].
  - intros d. destruct (decide (c = d)) as [->|]; [rewrite rqs_upd_rq, Hf; apply Ht|].
    rewrite rqs_upd_rq_ne by done. apply Ht.
  - intros d Hd. change (stop_works _) with (stop_works s) in Hd.
    destruct (decide (c = d)) as [->|]; [|rewrite rqs_upd_rq_ne by done; by apply Hw].
    destruct Hc as [Hc|Hc]; [done|]. rewrite rqs_upd_rq.
    destruct (push_view_inv _ _ (Hc (rqs s d))) as (-> & -> & ->). by apply Hw.
Qed.

Lemma enh_ok_push h k U c f s :
  c ∉ stop_works s -> (forall r, cfs_track (f r) = cfs_track r) ->
  (forall r, rq_lock (f r) = rq_lock r) ->
  enh_ok h k U s -> enh_ok h k U (upd_rq c f s).
Proof.
  intros Hc Ht Hl Hok. eapply enh_ok_upd_rq; [by left|done| |done]. intros d.
  destruct (decide (c = d)) as [->|]; [rewrite rqs_upd_rq, Hl|rewrite rqs_upd_rq_ne by done]; apply Hok.
Qed.

Lemma enh_ok_lock h U c s :
  enh_ok h None U s -> exists s', lock_rq c s = Some s' /\ enh_ok h (Some c) U s'
    /\ stop_works s' = stop_works s /\ cpu_online_mask s' = cpu_online_mask s
    /\ curr (cfss s' (CfsRq 0 c)) = curr (cfss s (CfsRq 0 c)).
Proof.
  intros Hok. unfold lock_rq. pose proof (eo_locks _ _ _ _ Hok c) as Hl. cbn in Hl.
  pose proof (lock_is_free _ Hl) as E. rewrite <- E, Z.eqb_refl.
  eexists. split; [done|]. split; [|done].
  eapply enh_ok_upd_rq; [by right|done| |done]. intros d.
  destruct (decide (c = d)) as [->|Hne].
  - rewrite rqs_upd_rq, bool_decide_true by done. simpl. by apply lock_is_try.
  - rewrite rqs_upd_rq_ne, bool_decide_false by congruence. apply (eo_locks _ _ _ _ Hok d).
Qed.

Lemma enh_ok_unlock h U c s : enh_ok h (Some c) U s -> enh_ok h None U (unlock_rq c s).
Proof.
  intros Hok. eapply enh_ok_upd_rq; [by right|done| |done]. intros d.
  pose proof (eo_locks _ _ _ _ Hok d) as Hl. destruct (decide (c = d)) as [->|Hne].
  - rewrite bool_decide_true in Hl by done. rewrite rqs_upd_rq. simpl. by apply lock_is_unlock.
  - rewrite bool_decide_false in Hl by congruence. by rewrite rqs_upd_rq_ne.
Qed.

Lemma enh_ok_force h h' w k U s :
  enh_ok h k U s -> lock_is h' w -> enh_ok h' k U (s <| hmp_force_migration := w |>).
Proof. intros [] Hw. split; try done. by apply (sys_ok_ext s). Qed.

(** * Recording and queueing a migration *)

(** [c] has a migration recorded and not yet queued. *)
Record recorded (h : bool) U (c : Z) s : Prop := {
  rc_ok : enh_ok h None U s;
  rc_free : c ∉ stop_works s;
  rc_push : active_balance (rqs s c) <> 0 /\ push_cpu (rqs s c) <> c
            /\ is_Some (migrate_task (rqs s c));
}.

Lemma record_ok h U c t p s s1 :
  enh_ok h (Some c) U s -> c ∉ stop_works s -> t <> c -> still (record_push c t p s) s1 ->
  recorded h U c (unlock_rq c s1).
Proof.
  intros Hok Hc Ht S. unfold record_push in S. cbv zeta in S.
  set (s0 := upd_rq c _ _) in S.
  assert (H0 : enh_ok h (Some c) U s0) by (unfold s0; do 3 (apply enh_ok_push; [done..|]); done).
  assert (E0 : push_view (rqs s0 c) = (1, Some p, t))
    by (unfold s0; rewrite !rqs_upd_rq; done).
  assert (F0 : stop_works s0 = stop_works s) by done. clearbody s0.
  pose proof (st_env _ _ _ _ _ _ S) as E. unfold env_view in E. injection E as E _ _ _ _ _ _ _ _ _ _ _ _.
  destruct (mig_view_inv _ _ (st_rq _ _ _ _ _ _ S c)) as (A1 & M1 & P1 & _).
  unfold push_view in E0. injection E0 as A0 M0 P0. split.
  - apply enh_ok_unlock. eapply enh_ok_still; [by apply still_weaken|done].
  - change (stop_works (unlock_rq c s1)) with (stop_works s1). by rewrite E, F0.
  - unfold unlock_rq. rewrite rqs_upd_rq. simpl. rewrite A1, M1, P1, A0, M0, P0. eauto.
Qed.

Lemma recorded_still h U c s s' : still s s' -> recorded h U c s -> recorded h U c s'.
Proof.
  intros S [Hok Hf Hp]. pose proof (st_env _ _ _ _ _ _ S) as E. unfold env_view in E.
  injection E as E _ _ _ _ _ _ _ _ _ _ _ _.
  destruct (mig_view_inv _ _ (st_rq _ _ _ _ _ _ S c)) as (A1 & M1 & P1 & _).
  split; [eapply enh_ok_still; [by apply still_weaken|done]|by rewrite E|by rewrite A1, M1, P1].
Qed.

Lemma queue_ok h U c s :
  recorded h U c s -> enh_ok h None U (s <| stop_works := stop_works s ++ [c] |>).
Proof.
  intros [[Hs Hf Hl Hm Hsc Ht Hn Hw Hu Hfr] Hfree Hp]. split; try done.
  - by apply (sys_ok_ext s).
  - apply NoDup_app. split_and!; [done| |apply NoDup_singleton]. set_solver.
  - intros d [Hd|Hd]%elem_of_app; [by apply Hw|]. apply list_elem_of_singleton in Hd as ->. done.
Qed.

Lemma refuse_ok h U c s : recorded h U c s -> recorded h U c (cpu_stop_refuse c s).
Proof.
  intros [[Hs Hf Hl Hm Hsc Ht Hn Hw Hu Hfr] Hfree Hp]. split; [|done..].
  split; try done. by apply (sys_ok_ext s).
Qed.

Lemma stop_source_ok h U c s :
  recorded h U c s -> exists s' b, stop_source c s = Some (s', b) /\ enh_ok h None U s'.
Proof.
  intros Hr. unfold stop_source, __cpu_stop_dispatch_work, cpu_stop_queue_work.
  destruct CONFIG_HMP_PACK_STOP_MACHINE, (stopper_enabled s c).
  - eexists _, _. split; [done|]. by apply queue_ok.
  - apply refuse_ok in Hr. destruct (enh_ok_lock h U c _ (rc_ok _ _ _ _ Hr)) as (s1 & -> & H1 & E1 & _).
    cbn [mbind option_bind]. eexists _, _. split; [done|]. apply enh_ok_unlock, enh_ok_push; try done.
    rewrite E1. apply Hr.
  - eexists _, _. split; [done|]. by apply queue_ok.
  - eexists _, _. split; [done|]. apply refuse_ok in Hr. apply Hr.
Qed.

(** * Balancing *)

Lemma up_candidate_ok h U c s :
  enh_ok h (Some c) U s -> c ∈ cpus_of slow -> cpu_online s c = true ->
  exists r, up_candidate c s = Some r
    /\ forall p t, r = Some (p, t) -> t <> c /\ c ∉ stop_works s.
Proof.
  intros Hok Hc Ho. unfold up_candidate. destruct (curr _) as [i|] eqn:Hi; [|naive_solver].
  destruct (so_curr s (eo_sys _ _ _ _ Hok) c i Hi) as [se ->]. cbn [mbind option_bind]. cbv zeta.
  destruct (eo_masks _ _ _ _ Hok) as [Ef Es]. rewrite Ef.
  destruct (select_start s (task_of se) fast) as [[_ Hno]|[_ Ht]].
  { rewrite (proj2 (select_cpu_none _ _ _ _ _) Hno), Z.eqb_refl. naive_solver. }
  destruct (select_cpu_available s HMP_GB (task_of se) fast (-1)) as [Hne Hav]; [by eexists|].
  set (t := hmp_select_cpu _ _ _ _ _) in *. destruct (Z.eqb_spec NR_CPUS t); [congruence|].
  destruct (clbstats_ok NR_small s HMP_GB t c Hdyn) as (tb & tl & -> & _);
    [apply Hok|by eapply enh_ok_loads|by rewrite Es|done|].
  cbn [mbind option_bind]. case_match; [naive_solver|].
  destruct (nonzero (active_balance (rqs s c))) eqn:Ha; [naive_solver|].
  case_match; [|naive_solver]. eexists. split; [done|]. intros p t' [= <- <-]. split.
  - intros E. destruct Hav as ([_ Hav]%elem_of_cpus_of & _). apply elem_of_cpus_of in Hc as [_ Hc].
    apply clusters in Hav. congruence.
  - by eapply enh_ok_idle.
Qed.

Lemma enh_force_up_cpu_ok h U c s :
  CONFIG_HMP_DELAY_UP_MIGRATION = false -> enh_ok h None U s -> c ∈ cpus_of slow ->
  exists s', force_up_cpu c s = Some s' /\ enh_ok h None U s'.
Proof.
  intros Hd Hok Hc. unfold force_up_cpu. destruct (cpu_online s c) eqn:Ho; cbn [negb]; [|eauto].
  destruct (enh_ok_lock h U c s Hok) as (s1 & -> & H1 & E1 & Eo & _). cbn [mbind option_bind].
  destruct (up_candidate_ok h U c s1 H1 Hc) as (r & -> & Hr); [unfold cpu_online; by rewrite Eo|].
  cbn [mbind option_bind]. destruct r as [[p t]|].
  2:{ eexists. split; [done|]. by apply enh_ok_unlock. }
  rewrite Hd. destruct (Hr p t eq_refl) as [Ht Hfree]. unfold record_up.
  destruct (negb (task_state (tasks s1 p) =? TASK_DEAD)).
  - cbv zeta. set (s2 := hmp_next_up_delay _ _ _).
    destruct (stop_source_ok h U c (unlock_rq c s2)) as (s3 & b & -> & H3); [|cbn; eauto].
    eapply (record_ok h U c t p s1); [done..|apply resting_still, still_up_delay].
  - eexists. split; [done|]. by apply enh_ok_unlock.
Qed.

Lemma force_down_cpu_ok h U c s :
  enh_ok h None U s -> c ∈ cpus_of fast ->
  exists s', force_down_cpu c s = Some s' /\ enh_ok h None U s'.
Proof.
  intros Hok0 Hc. unfold force_down_cpu. destruct (cpu_online s c) eqn:Ho; cbn [negb]; [|eauto].
  destruct (enh_ok_lock h U c s Hok0) as (s1 & -> & Hok & _). cbn [mbind option_bind].
  clear Hok0 Ho s. rename s1 into s.
  destruct (curr _) as [i|] eqn:Hi; [|eexists; split; [done|by apply enh_ok_unlock]].
  destruct (so_curr s (eo_sys _ _ _ _ Hok) c i Hi) as [se ->]. cbn [mbind option_bind]. cbv zeta.
  destruct (eo_masks _ _ _ _ Hok) as [Ef Es]. rewrite Es.
  destruct (select_start s (task_of se) slow) as [[_ Hno]|[_ Ht]].
  { rewrite (proj2 (select_cpu_none _ _ _ _ _) Hno), Z.eqb_refl.
    eexists; split; [done|by apply enh_ok_unlock]. }
  destruct (select_cpu_available s HMP_GB (task_of se) slow (-1)) as [Hne Hav]; [by eexists|].
  set (t := hmp_select_cpu _ _ _ _ _) in *. destruct (Z.eqb_spec NR_CPUS t); [congruence|].
  pose proof Hav as (Hts & Hto & _).
  destruct (clbstats_ok NR_small s HMP_GB c t Hdyn) as (tb & tl & -> & _);
    [apply Hok|by eapply enh_ok_loads|by rewrite Es|done|]. cbn [mbind option_bind].
  destruct (nonzero (active_balance (rqs s c))) eqn:Ha; [eexists; split; [done|by apply enh_ok_unlock]|].
  assert (Hfree : c ∉ stop_works s) by (by eapply enh_ok_idle).
  assert (Htc : t <> c).
  { intros E. apply elem_of_cpus_of in Hts as [_ Hts]. apply elem_of_cpus_of in Hc as [_ Hc].
    apply clusters in Hc. congruence. }
  set (env := clbstats_of _ _ _ _ _ _).
  pose proof (down_state c t se s env) as Hds. destruct (hmp_down_migration c t se s env) as [s2 env2].
  cbn [fst] in Hds.
  assert (S2 : still s s2) by (destruct Hds as [->| ->]; [done|by auto with still]). clear Hds.
  assert (H2 : enh_ok h (Some c) U s2) by (eapply enh_ok_still; [by apply still_weaken|done]).
  assert (F2 : c ∉ stop_works s2).
  { pose proof (st_env _ _ _ _ _ _ S2) as E. unfold env_view in E. injection E as -> _ _ _ _ _ _ _ _ _ _ _ _. done. }
  case_match; [|eexists; split; [done|by apply enh_ok_unlock]].
  set (s3 := hmp_next_down_delay _ _ _).
  destruct (stop_source_ok h U c (unlock_rq c s3)) as (s4 & b & -> & H4); [|cbn; eauto].
  eapply (record_ok h U c t (task_of se) s2); [done..|apply resting_still, still_down_delay].
Qed.

Lemma each_cpu_ok (f : Z -> sys -> option sys) (m : cpumask) U :
  (forall c s, enh_ok true None U s -> c ∈ cpus_of m ->
     exists s', f c s = Some s' /\ enh_ok true None U s') ->
  forall l s, l ⊆ cpus_of m -> enh_ok true None U s ->
  exists s', each_cpu f l s = Some s' /\ enh_ok true None U s'.
Proof.
  intros Hf. induction l as [|c l IH]; intros s Hl Hok; cbn; [eauto|].
  destruct (Hf c s Hok) as (s1 & -> & H1); [set_solver|]. cbn. apply IH; [set_solver|done].
Qed.

Lemma enh_force_ok U s :
  CONFIG_HMP_DELAY_UP_MIGRATION = false -> enh_ok false None U s ->
  exists s', hmp_force_up_migration s = Some s' /\ enh_ok false None U s'.
Proof.
  intros Hd Hok. unfold hmp_force_up_migration, trylock_force.
  destruct (lock_is_try _ (eo_force _ _ _ _ Hok)) as [-> Hw].
  pose proof (enh_ok_force _ _ _ _ _ _ Hok Hw) as Hok'. revert Hok'. generalize (s <| hmp_force_migration := take_ticket (hmp_force_migration s) |>).
  clear s Hok Hw. intros s Hok. destruct (eo_masks _ _ _ _ Hok) as [_ Es]. rewrite Es.
  destruct (each_cpu_ok force_up_cpu slow U) with (l := cpus_of slow) (s := s) as (s1 & -> & H1);
    [intros; by apply enh_force_up_cpu_ok|done..|]. cbn [mbind option_bind].
  assert (H2 : exists s2, (if CONFIG_HMP_GLOBAL_BALANCE then hmp_force_down_migration s1 else Some s1)
                          = Some s2 /\ enh_ok true None U s2).
  { destruct CONFIG_HMP_GLOBAL_BALANCE; [|eauto]. unfold hmp_force_down_migration.
    destruct (eo_masks _ _ _ _ H1) as [Ef _]. rewrite Ef.
    apply (each_cpu_ok force_down_cpu fast U); [intros; by apply force_down_cpu_ok|done..]. }
  destruct H2 as (s2 & -> & H2). cbn [mbind option_bind]. eexists. split; [done|].
  eapply enh_ok_force; [done|]. apply lock_is_unlock, H2.
Qed.

Lemma enh_rebalance_ok U this s :
  CONFIG_HMP_DELAY_UP_MIGRATION = false -> enh_ok false None U s ->
  exists s' b, Enh.run_rebalance_domains this s = Some (s', b) /\ enh_ok false None U s'.
Proof.
  intros Hd Hok. unfold Enh.run_rebalance_domains. rewrite Hd. cbv zeta. cbn [andb mbind option_bind].
  destruct (enh_force_ok U s Hd Hok) as (s1 & -> & H1). cbn. eauto.
Qed.

(** * Interleavings *)

Definition less1 (p : Z) U : Z -> Z := fun x => U x - if x =? p then 1 else 0.

Lemma enh_take_work h U c s : enh_ok h None U s -> enh_ok h None U (take_work c s).
Proof.
  intros [Hs Hf Hl Hm Hsc Ht Hn Hw Hu Hfr]. split; try done.
  - by apply (sys_ok_ext s).
  - by apply list.NoDup_filter.
  - intros d Hd. apply list_elem_of_filter in Hd as [_ Hd]. by apply Hw.
Qed.

Lemma enh_put h U p s : enh_ok h None U s -> enh_ok h None (less1 p U) (put_task_struct p s).
Proof.
  intros [Hs Hf Hl Hm Hsc Ht Hn Hw Hu Hfr]. split; try done; [by apply (sys_ok_ext s)|..].
  - intros x. unfold put_task_struct, less1. destruct (Z.eqb_spec x p) as [->|]; store_rw; cbv zeta; [|rewrite Hu; lia].
    case_match; simpl; rewrite Hu; lia.
  - intros x. unfold put_task_struct, less1. specialize (Hu x). specialize (Hfr x).
    destruct (Z.eqb_spec x p) as [->|]; store_rw; cbv zeta; [|by rewrite Z.sub_0_r].
    case_match eqn:E; simpl in *; [split; [lia|done]|]. rewrite Hfr. lia.
Qed.

Lemma enh_stopper_ok U c this p s :
  enh_ok false None U s -> c ∈ stop_works s -> migrate_task (rqs s c) = Some p ->
  exists s', hmp_active_task_migration_cpu_stop c this (take_work c s) = Some s'
    /\ enh_ok false None (less1 p U) s'.
Proof.
  intros Hok Hc Hm. destruct (eo_work _ _ _ _ Hok c Hc) as (Ha & Hp & _).
  pose proof (enh_take_work _ _ c _ Hok) as H1.
  unfold hmp_active_task_migration_cpu_stop. change (rqs (take_work c s)) with (rqs s).
  rewrite Hm. cbn [mbind option_bind]. set (s1 := take_work c s) in *.
  assert (Hout : forall s', still_usage s1 s' -> enh_ok false None (less1 p U) (put_task_struct p
            (upd_rq c (fun r => r <| active_balance := 0 |>) s'))).
  { intros s' S. apply enh_put, enh_ok_push; [|done..|by apply (enh_ok_still _ _ _ s1)].
    pose proof (st_env _ _ _ _ _ _ S) as E. unfold env_view in E.
    injection E as -> _ _ _ _ _ _ _ _ _ _ _ _.
    unfold s1, take_work. simpl. rewrite list_elem_of_filter. naive_solver. }
  cbv zeta. repeat (case_match; [try (eexists; split; [done|by apply Hout]); lia|]).
  eexists. split; [done|]. apply Hout. case_match; [apply still_move_specific|done].
Qed.

(** Anything else the kernel does: it leaves stopper works, the run queues they belong to,
    locks and capacities alone; the references it holds change from [R] to [R'], and it frees
    tasks with their last reference. *)
Record enh_other (R : Z -> Z) s (R' : Z -> Z) s' : Prop := {
  ot_sys : sys_ok s';
  ot_works : stop_works s' = stop_works s;
  ot_push : forall c, c ∈ stop_works s -> push_view (rqs s' c) = push_view (rqs s c);
  ot_locks : forall c, rq_lock (rqs s' c) = rq_lock (rqs s c);
  ot_force : hmp_force_migration s' = hmp_force_migration s;
  ot_masks : hmp_fast_cpu_mask s' = hmp_fast_cpu_mask s /\ hmp_slow_cpu_mask s' = hmp_slow_cpu_mask s;
  ot_scales : scales_ok s';
  ot_track : forall c, cfs_track (rqs s' c) = cfs_track (rqs s c);
  ot_usage : forall p, task_usage (tasks s' p) - task_usage (tasks s p) = R' p - R p;
  ot_freed : forall p, task_freed (tasks s' p) = true <-> task_usage (tasks s' p) <= 0;
}.

(** Runs of balancing on any CPU, stoppers and other activity, with the references the latter
    holds and the tasks of the stopper works that have been done. *)
Inductive enh_run : (Z -> Z) -> sys -> list Z -> (Z -> Z) -> sys -> Prop :=
| enh_done R s : enh_run R s [] R s
| enh_balance this R s s1 b ps R' s' :
    Enh.run_rebalance_domains this s = Some (s1, b) -> enh_run R s1 ps R' s' -> enh_run R s ps R' s'
| enh_stopper c this p R s s1 ps R' s' :
    c ∈ stop_works s -> migrate_task (rqs s c) = Some p ->
    hmp_active_task_migration_cpu_stop c this (take_work c s) = Some s1 ->
    enh_run R s1 ps R' s' -> enh_run R s (p :: ps) R' s'
| enh_activity R s R1 s1 ps R' s' :
    enh_other R s R1 s1 -> enh_run R1 s1 ps R' s' -> enh_run R s ps R' s'.

Definition count_pid (p : Z) (ps : list Z) : Z := Z.of_nat (length (filter (fun x => x = p) ps)).

Lemma enh_ok_ext h k U U' s : (forall p, U' p = U p) -> enh_ok h k U s -> enh_ok h k U' s.
Proof. intros E []. split; try done; intros p; by rewrite E. Qed.

Lemma enh_run_ok d R s ps R' s' :
  CONFIG_HMP_DELAY_UP_MIGRATION = false -> enh_run R s ps R' s' ->
  enh_ok false None (fun p => R p - d p) s -> enh_ok false None (fun p => R' p - (d p + count_pid p ps)) s'.
Proof.
  intros Hd Run. revert d.
  induction Run as [R s|this R s s1 b ps R' s' E Run IH|c this p R s s1 ps R' s' Hc Hm E Run IH|R s R1 s1 ps R' s' O Run IH];
    intros d Hok.
  - eapply enh_ok_ext; [|done]. intros p. unfold count_pid. simpl. lia.
  - destruct (enh_rebalance_ok _ this s Hd Hok) as (s2 & b' & E' & H2). apply IH. congruence.
  - destruct (enh_stopper_ok _ c this p s Hok Hc Hm) as (s2 & E' & H2). rewrite E in E'. injection E' as <-.
    eapply enh_ok_ext; [|apply (IH (fun x => d x + if x =? p then 1 else 0))].
    + intros x. unfold count_pid. rewrite filter_cons.
      destruct (Z.eqb_spec x p); case_decide; simplify_eq; cbn [length]; lia.
    + eapply enh_ok_ext; [|done]. intros x. unfold less1. lia.
  - apply IH. destruct Hok as [Hs Hf Hl Hm Hsc Ht Hn Hw Hu Hfr], O as [O1 O2 O3 O4 O5 [O6 O7] O8 O9 O10 O11].
    assert (Eu : forall p, task_usage (tasks s1 p) = R1 p - d p)
      by (intros p; specialize (O10 p); rewrite Hu in O10; lia).
    split; [done|by rewrite O5|intros c; by rewrite O4|by rewrite O6, O7|done|intros c; by rewrite O9
           |by rewrite O2| |done|intros p; by rewrite O11, Eu].
    intros c Hc. rewrite O2 in Hc. destruct (push_view_inv _ _ (O3 c Hc)) as (-> & -> & ->). auto.
Qed.

End safety.

(** * What balancing leaves alone *)

(** Nothing but the lock of [c], of the state that the enhancement looks at. *)
Record frame_at (c : Z) (s s' : sys) : Prop := {
  fa_track : forall d, cfs_track (rqs s' d) = cfs_track (rqs s d);
  fa_lock : forall d, d <> c -> rq_lock (rqs s' d) = rq_lock (rqs s d);
  fa_force : hmp_force_migration s' = hmp_force_migration s;
  fa_ipis : resched_ipis s' = resched_ipis s;
  fa_masks : hmp_fast_cpu_mask s' = hmp_fast_cpu_mask s /\ hmp_slow_cpu_mask s' = hmp_slow_cpu_mask s;
}.

#[export] Instance frame_at_preorder c : PreOrder (frame_at c).
Proof.
  split.
  - by split.
  - intros s1 s2 s3 [A1 A2 A3 A4 [A5 A6]] [B1 B2 B3 B4 [B5 B6]]. split.
    + intros d. by rewrite B1.
    + intros d Hd. by rewrite B2, A2.
    + by rewrite B3.
    + by rewrite B4.
    + by rewrite B5, B6.
Qed.

Lemma frame_upd c f s : (forall r, cfs_track (f r) = cfs_track r) -> frame_at c s (upd_rq c f s).
Proof.
  intros Hf. split; try done; intros d.
  - destruct (decide (c = d)) as [->|]; [by rewrite rqs_upd_rq, Hf|by rewrite rqs_upd_rq_ne].
  - intros Hd. by rewrite rqs_upd_rq_ne.
Qed.

Lemma frame_still c s s' : still s s' -> resched_ipis s' = resched_ipis s -> frame_at c s s'.
Proof.
  intros [Sr _ _ _ Se _ _ _ _] Ei. unfold env_view in Se.
  injection Se as _ _ E3 _ _ _ _ _ E9 E10 _ _ _.
  split; try done; intros d; by destruct (mig_view_rest _ _ (Sr d)).
Qed.

Section frames.
Context `{Config}.
Implicit Types (s : sys).

Lemma frame_lock c s s' :
  lock_rq c s = Some s' -> s' = upd_rq c (fun r => r <| rq_lock := take_ticket (rq_lock (rqs s c)) |>) s.
Proof. unfold lock_rq. case_match; [by intros [= <-]|done]. Qed.

Lemma frame_record c t p s : frame_at c s (record_push c t p s).
Proof. unfold record_push. cbv zeta. by do 3 (etransitivity; [|by apply frame_upd]). Qed.

Lemma frame_stop_source c s s' b : stop_source c s = Some (s', b) -> frame_at c s s'.
Proof.
  unfold stop_source, __cpu_stop_dispatch_work, cpu_stop_queue_work.
  destruct CONFIG_HMP_PACK_STOP_MACHINE, (stopper_enabled s c); try (intros [= <- _]; by split).
  destruct (lock_rq c (cpu_stop_refuse c s)) as [s1|] eqn:E; [|done]. apply frame_lock in E as ->.
  cbn [mbind option_bind]. intros [= <- _]. unfold unlock_rq.
  by do 3 (etransitivity; [|by apply frame_upd]).
Qed.

Lemma frame_record_up c p t s s' b : record_up c p t s = (s', b) -> frame_at c s s'.
Proof.
  unfold record_up. case_match; intros [= <- _]; [|done].
  etransitivity; [apply frame_record|]. apply frame_still; [apply resting_still, still_up_delay|done].
Qed.

Lemma frame_force_down c s s' : force_down_cpu c s = Some s' -> frame_at c s s'.
Proof.
  unfold force_down_cpu. case_match; [by intros [= <-]|].
  destruct (lock_rq c s) as [s1|] eqn:E; [|done]. apply frame_lock in E as ->.
  cbn [mbind option_bind]. set (s1 := upd_rq c _ s).
  assert (F1 : frame_at c s s1) by (by apply frame_upd). clearbody s1.
  assert (FU : forall s2, frame_at c s s2 -> frame_at c s (unlock_rq c s2)).
  { intros s2 F. etransitivity; [exact F|]. by apply frame_upd. }
  destruct (curr _) as [i|]; [|intros [= <-]; by apply FU].
  destruct (curr_task _ _ _) as [se|]; [|done]. cbn [mbind option_bind]. cbv zeta.
  case_match; [intros [= <-]; by apply FU|].
  destruct (sched_update_clbstats _ _) as [env|]; [|done]. cbn [mbind option_bind].
  case_match; [intros [= <-]; by apply FU|].
  match goal with |- context [hmp_down_migration c ?t se s1 env] =>
    pose proof (down_state c t se s1 env) as Hd;
    destruct (hmp_down_migration c t se s1 env) as [s2 env2] end.
  cbn [fst] in Hd. assert (F2 : frame_at c s s2).
  { etransitivity; [exact F1|]. destruct Hd as [->| ->]; [done|by apply frame_upd]. }
  case_match; [|intros [= <-]; by apply FU].
  match goal with |- context [stop_source c ?x] => set (s3 := x) end.
  destruct (stop_source c s3) as [[s4 b]|] eqn:E; [|done]. cbn [mbind option_bind]. intros [= <-].
  etransitivity; [|by eapply frame_stop_source]. unfold s3. apply FU.
  etransitivity; [exact F2|]. etransitivity; [apply frame_record|].
  apply frame_still; [apply resting_still, still_down_delay|done].
Qed.

Lemma frame_idle_pull this c f s s' b : idle_pull_cpu this c f s = Some (s', b) -> frame_at c s s'.
Proof.
  unfold idle_pull_cpu. case_match; [by intros [= <- _]|].
  destruct (lock_rq c s) as [s1|] eqn:E; [|done]. apply frame_lock in E as ->.
  cbn [mbind option_bind]. set (s1 := upd_rq c _ s).
  assert (F1 : frame_at c s s1) by (by apply frame_upd). clearbody s1.
  destruct (up_candidate c s1) as [[[p t]|]|]; [| |done]; cbn [mbind option_bind].
  2:{ intros [= <- _]. etransitivity; [exact F1|]. by apply frame_upd. }
  destruct (record_up c p t s1) as [s2 force] eqn:E2. apply frame_record_up in E2.
  assert (F3 : frame_at c s (unlock_rq c s2)).
  { etransitivity; [exact F1|]. etransitivity; [exact E2|]. by apply frame_upd. }
  destruct force; [|by intros [= <- _]]. intros E3. etransitivity; [exact F3|].
  etransitivity; [|by eapply frame_stop_source]. apply frame_still; [apply resting_still, still_keepalive|].
  unfold hmp_cpu_keepalive_trigger. by repeat case_match.
Qed.

Lemma rqs_unlock c s d :
  rqs (unlock_rq c s) d
  = if decide (c = d) then (rqs s c) <| rq_lock := arch_spin_unlock (rq_lock (rqs s c)) |>
    else rqs s d.
Proof.
  unfold unlock_rq. destruct (decide (c = d)) as [->|]; [by rewrite rqs_upd_rq|].
  by rewrite rqs_upd_rq_ne.
Qed.

(** One round of [hmp_force_up_migration]: nothing but the lock of [c], which is released as
    often as it is taken; or, when up-migration is delayed and a task is to move to [t], the
    lock of [c] is released twice and [hmp_force_migration] once. *)
Lemma force_up_round c s s' :
  force_up_cpu c s = Some s' ->
  (frame_at c s s' /\ (lock_is false (rq_lock (rqs s c)) -> lock_is false (rq_lock (rqs s' c))
                       \/ CONFIG_HMP_DELAY_UP_MIGRATION = false))
  \/ (CONFIG_HMP_DELAY_UP_MIGRATION = true
      /\ (forall d, cfs_track (rqs s' d) = cfs_track (rqs s d))
      /\ (forall d, d <> c -> rq_lock (rqs s' d) = rq_lock (rqs s d))
      /\ (hmp_fast_cpu_mask s' = hmp_fast_cpu_mask s /\ hmp_slow_cpu_mask s' = hmp_slow_cpu_mask s)
      /\ hmp_force_migration s' = arch_spin_unlock (hmp_force_migration s)
      /\ (exists t, resched_ipis s' = t :: resched_ipis s)
      /\ rq_lock (rqs s' c)
         = arch_spin_unlock (arch_spin_unlock (take_ticket (rq_lock (rqs s c))))).
Proof.
  unfold force_up_cpu. case_match; [intros [= <-]; left; split; [reflexivity|by left]|].
  destruct (lock_rq c s) as [s1|] eqn:E; [|done]. apply frame_lock in E as ->.
  cbn [mbind option_bind]. set (s1 := upd_rq c _ s).
  assert (F1 : frame_at c s s1) by (by apply frame_upd).
  assert (L1 : rq_lock (rqs s1 c) = take_ticket (rq_lock (rqs s c)))
    by (unfold s1; by rewrite rqs_upd_rq). clearbody s1.
  destruct (up_candidate c s1) as [[[p t]|]|]; [| |done]; cbn [mbind option_bind].
  2:{ intros [= <-]. left. split; [etransitivity; [exact F1|by apply frame_upd]|].
      intros Hl. left. unfold unlock_rq. rewrite rqs_upd_rq. simpl. rewrite L1.
      by apply lock_is_unlock, lock_is_try. }
  destruct CONFIG_HMP_DELAY_UP_MIGRATION.
  - intros [= <-]. right. cbv zeta. set (s2 := upd_rq t _ s1).
    assert (T2 : forall d, cfs_track (rqs s2 d) = cfs_track (rqs s1 d))
      by apply (frame_upd t (fun r => r <| wake_for_idle_pull := 1 |>) s1 ltac:(done)).
    assert (K2 : forall d, rq_lock (rqs s2 d) = rq_lock (rqs s1 d)).
    { intros d. unfold s2. destruct (decide (t = d)) as [->|]; [by rewrite rqs_upd_rq|].
      by rewrite rqs_upd_rq_ne. }
    set (s3 := unlock_rq c s2).
    set (s4 := unlock_force s3 <| resched_ipis := t :: resched_ipis s1 |>).
    assert (R4 : rqs s4 = rqs s3) by done.
    split_and!; [done|..].
    + intros d. rewrite rqs_unlock, R4. unfold s3. rewrite !rqs_unlock, (decide_True (P := c = c)) by done.
      rewrite <- (fa_track _ _ _ F1 d), <- T2. by destruct (decide (c = d)) as [->|].
    + intros d Hd. rewrite rqs_unlock, decide_False, R4 by done. unfold s3.
      rewrite rqs_unlock, decide_False, K2 by done. by apply F1.
    + apply F1.
    + apply F1.
    + change (arch_spin_unlock (hmp_force_migration s1) = arch_spin_unlock (hmp_force_migration s)).
      by rewrite (fa_force _ _ _ F1).
    + exists t. change (t :: resched_ipis s1 = t :: resched_ipis s). by rewrite (fa_ipis _ _ _ F1).
    + rewrite rqs_unlock, decide_True, R4 by done. unfold s3. rewrite rqs_unlock, decide_True by done.
      transitivity (arch_spin_unlock (arch_spin_unlock (rq_lock (rqs s2 c)))); [done|by rewrite K2, L1].
  - destruct (record_up c p t s1) as [s2 force] eqn:E2. apply frame_record_up in E2.
    assert (F3 : frame_at c s (unlock_rq c s2)).
    { etransitivity; [exact F1|]. etransitivity; [exact E2|]. by apply frame_upd. }
    intros E3. left. split; [|by auto]. destruct force; [|by injection E3 as <-].
    destruct (stop_source c _) as [[s4 b]|] eqn:E4; [|done]. injection E3 as <-.
    etransitivity; [exact F3|]. by eapply frame_stop_source.
Qed.
End frames.

(** * Delayed up-migration *)

(** The lock has been released [k] times more often than taken. *)
Definition ahead (k : Z) (l : arch_spinlock) : Prop :=
  is_slock l /\ ticket_owner l = u16 (ticket_next l + k).

Lemma ahead_free l : lock_is false l -> ahead 0 l.
Proof.
  intros Hl. pose proof (lock_is_free l Hl) as E. destruct Hl as [Hl _]. split; [done|].
  rewrite Z.add_0_r, <- E. symmetry. apply u16_id. by apply tickets_range.
Qed.

Lemma ahead_unlock k l : ahead k l -> ahead (k + 1) (arch_spin_unlock l).
Proof.
  intros [Hl E]. destruct (unlock_spec l Hl) as (En & Eo & Hw). split; [done|].
  rewrite En, Eo, E, u16_add_l. f_equal. lia.
Qed.

Lemma ahead_take k l : ahead k l -> ahead (k - 1) (take_ticket l).
Proof.
  intros [Hl E]. destruct (take_ticket_spec l Hl) as (En & Eo & Hw). split; [done|].
  rewrite En, Eo, E, u16_add_l. f_equal. lia.
Qed.

Lemma ahead_stuck k l : ahead k l -> 0 < k < 2 ^ 16 -> ticket_next l <> ticket_owner l.
Proof.
  intros [Hl E] Hk E'. destruct (tickets_range l Hl) as [_ Hn]. rewrite <- E' in E.
  unfold u16 in E. destruct (decide (ticket_next l + k < 2 ^ 16)); [rewrite Z.mod_small in E; lia|].
  replace (ticket_next l + k) with (ticket_next l + k - 2 ^ 16 + 1 * 2 ^ 16) in E by lia.
  rewrite Z.mod_add, Z.mod_small in E; lia.
Qed.

Section wedge.
Context `{Config}.
Context (NR_small : NR_CPUS <= 1024) (Hdelay : CONFIG_HMP_DELAY_UP_MIGRATION = true).
Implicit Types (s : sys).

Lemma force_up_loop l s s' j :
  each_cpu force_up_cpu l s = Some s' -> NoDup l ->
  (forall c, c ∈ l -> lock_is false (rq_lock (rqs s c))) -> ahead j (hmp_force_migration s) ->
  exists k, 0 <= k <= Z.of_nat (length l) /\ ahead (j + k) (hmp_force_migration s')
    /\ (forall d, d ∉ l -> rq_lock (rqs s' d) = rq_lock (rqs s d))
    /\ (hmp_fast_cpu_mask s' = hmp_fast_cpu_mask s /\ hmp_slow_cpu_mask s' = hmp_slow_cpu_mask s)
    /\ (k = 0 -> resched_ipis s' = resched_ipis s)
    /\ (k <> 0 -> exists c, c ∈ l /\ ahead 1 (rq_lock (rqs s' c))).
Proof.
  revert s j. induction l as [|c l IH]; intros s j Hs Hn Hf Hj; cbn in Hs.
  { injection Hs as <-. exists 0. rewrite Z.add_0_r. split_and!; done || lia. }
  apply list.NoDup_cons in Hn as [Hc Hn].
  destruct (force_up_cpu c s) as [s1|] eqn:E; [|done]. cbn in Hs.
  assert (Hlocks : (forall d, d <> c -> rq_lock (rqs s1 d) = rq_lock (rqs s d)) ->
                   forall d, d ∈ l -> lock_is false (rq_lock (rqs s1 d))).
  { intros Hk d Hd. rewrite Hk by set_solver. apply Hf. set_solver. }
  destruct (force_up_round c s s1 E) as [[[_ L1 F1 I1 [M1 M2]] _]|(_ & _ & L1 & [M1 M2] & F1 & (t & I1) & K1)].
  - destruct (IH s1 j Hs Hn (Hlocks L1)) as (k & Hk & HF & HL & [HM1 HM2] & HI & HW); [by rewrite F1|].
    exists k. cbn [length]. split_and!; [lia|lia|done| | | | |].
    + intros d Hd. rewrite HL, L1 by set_solver. done.
    + congruence.
    + congruence.
    + intros Hk0. rewrite (HI Hk0). done.
    + intros Hk0. destruct (HW Hk0) as (d & Hd & Ha). exists d. split; [set_solver|done].
  - destruct (IH s1 (j + 1) Hs Hn (Hlocks L1)) as (k & Hk & HF & HL & [HM1 HM2] & HI & HW);
      [rewrite F1; by apply ahead_unlock|].
    exists (k + 1). cbn [length]. replace (j + (k + 1)) with (j + 1 + k) by lia.
    split_and!; [lia|lia|done| | | |lia|].
    + intros d Hd. rewrite HL, L1 by set_solver. done.
    + congruence.
    + congruence.
    + intros _. exists c. split; [set_solver|]. rewrite HL, K1 by done.
      apply (ahead_unlock 0), (ahead_unlock (-1)), (ahead_take 0), ahead_free, Hf. set_solver.
Qed.

Lemma force_down_loop l s s' :
  each_cpu force_down_cpu l s = Some s' ->
  (forall d, d ∉ l -> rq_lock (rqs s' d) = rq_lock (rqs s d))
  /\ hmp_force_migration s' = hmp_force_migration s /\ resched_ipis s' = resched_ipis s.
Proof.
  revert s. induction l as [|c l IH]; intros s Hs; cbn in Hs; [by injection Hs as <-|].
  destruct (force_down_cpu c s) as [s1|] eqn:E; [|done]. cbn in Hs.
  apply frame_force_down in E as [_ L1 F1 I1 _]. destruct (IH s1 Hs) as (L2 & F2 & I2).
  split_and!; [|congruence..]. intros d Hd. rewrite L2, L1 by set_solver. done.
Qed.

(** C38. Delayed up-migration wedges the balancer.  When a LITTLE CPU runs a task that should
    move up, [hmp_force_up_migration] with CONFIG_HMP_DELAY_UP_MIGRATION releases the lock of
    the run queue and [hmp_force_migration], and later releases both again.  After a call that
    asked some CPU to pull a task, [hmp_force_migration] can never be had again, so forced
    migration and idle pull do nothing any more, and some LITTLE CPU has a run-queue lock that
    spins forever when it is next taken. *)
Theorem enh_delay_wedges s s' :
  (forall c, cpumask_test_cpu c (hmp_fast_cpu_mask s) = true ->
             cpumask_test_cpu c (hmp_slow_cpu_mask s) = false) ->
  (forall c, lock_is false (rq_lock (rqs s c))) -> lock_is false (hmp_force_migration s) ->
  Enh.hmp_force_up_migration s = Some s' -> resched_ipis s' <> resched_ipis s ->
  Enh.hmp_force_up_migration s' = Some s'
  /\ (forall this, Enh.hmp_idle_pull this s' = Some (s', false))
  /\ exists c, cpumask_test_cpu c (hmp_slow_cpu_mask s) = true /\ lock_rq c s' = None.
Proof.
  intros Hcl Hl Hf Hs Hi. unfold hmp_force_up_migration, trylock_force in Hs.
  destruct (lock_is_try _ Hf) as [Et _]. rewrite Et in Hs.
  set (s0 := s <| hmp_force_migration := _ |>) in Hs.
  destruct (each_cpu force_up_cpu _ s0) as [s1|] eqn:E1; [|done]. cbn [mbind option_bind] in Hs.
  destruct (if CONFIG_HMP_GLOBAL_BALANCE then _ else _) as [s2|] eqn:E2; [|done]. injection Hs as <-.
  destruct (force_up_loop _ _ _ (0 - 1) E1) as (k & Hk & HF & HL & [M1 M2] & HI & HW);
    [apply NoDup_cpus_of|intros c _; apply Hl|by apply ahead_take, ahead_free|].
  change (hmp_slow_cpu_mask s0) with (hmp_slow_cpu_mask s) in *.
  assert (H2 : (forall d, d ∉ cpus_of (hmp_fast_cpu_mask s) -> rq_lock (rqs s2 d) = rq_lock (rqs s1 d))
    /\ hmp_force_migration s2 = hmp_force_migration s1 /\ resched_ipis s2 = resched_ipis s1).
  { destruct CONFIG_HMP_GLOBAL_BALANCE; [|by injection E2 as <-].
    apply force_down_loop. change (hmp_fast_cpu_mask s) with (hmp_fast_cpu_mask s0). by rewrite <- M1. }
  destruct H2 as (L2 & F2 & I2).
  assert (Hk0 : k <> 0) by (intros ->; destruct Hi; change (resched_ipis s2 = resched_ipis s);
                            rewrite I2; by apply HI).
  assert (Hk1 : k <= 1024).
  { assert (Hle : (length (cpus_of (hmp_slow_cpu_mask s)) <= length cpu_ids)%nat) by apply length_filter.
    unfold cpu_ids in Hle. rewrite length_fmap, length_seq in Hle. lia. }
  assert (HA : ahead k (hmp_force_migration (unlock_force s2))).
  { replace k with (0 - 1 + k + 1) by lia. apply ahead_unlock. by rewrite F2. }
  assert (Ht : trylock_force (unlock_force s2) = None).
  { unfold trylock_force. rewrite trylock_spec by apply HA.
    destruct (Z.eqb_spec (ticket_owner (hmp_force_migration (unlock_force s2)))
                (ticket_next (hmp_force_migration (unlock_force s2)))) as [E|]; [|done].
    exfalso. eapply (ahead_stuck k); [exact HA|lia|done]. }
  split; [unfold hmp_force_up_migration; by rewrite Ht|].
  split; [intros this; unfold Enh.hmp_idle_pull; by rewrite Ht|].
  destruct (HW Hk0) as (c & Hc & Ha). exists c. apply elem_of_cpus_of in Hc as [Hcr Hcs].
  split; [done|]. unfold lock_rq. change (rqs (unlock_force s2)) with (rqs s2). rewrite L2.
  2:{ intros [_ Hcf]%elem_of_cpus_of. by rewrite Hcl in Hcs. }
  destruct (Z.eqb_spec (ticket_next (rq_lock (rqs s1 c))) (ticket_owner (rq_lock (rqs s1 c)))) as [E|];
    [|done]. exfalso. eapply (ahead_stuck 1); [exact Ha|lia|done].
Qed.
End wedge.

(** * The load nobody tracks *)

(** The fields of [cfs.avg] that the enhancement reads are left alone on every CPU. *)
Definition untouched (s s' : sys) : Prop := forall d, cfs_track (rqs s' d) = cfs_track (rqs s d).

#[export] Instance untouched_preorder : PreOrder untouched.
Proof. split; [done|]. intros s1 s2 s3 H1 H2 d. by rewrite H2. Qed.

Lemma untouched_still {A} (g : task_struct -> A) s s' : still_on cfs_home mig_view my_q g s s' -> untouched s s'.
Proof. intros S d. by destruct (mig_view_rest _ _ (st_rq _ _ _ _ _ _ S d)). Qed.
Lemma untouched_frozen s s' : frozen s s' -> untouched s s'.
Proof. intros S. by apply frozen_resting, resting_still, untouched_still in S. Qed.

Lemma untouched_rqs s s' : rqs s' = rqs s -> untouched s s'.
Proof. intros E d. by rewrite E. Qed.

Lemma untouched_foldl {A} (f : sys -> A -> sys) l s :
  (forall s x, untouched s (f s x)) -> untouched s (foldl f s l).
Proof.
  intros Hf. revert s. induction l as [|x l IH]; intros s; simpl; [done|].
  etransitivity; [apply Hf|apply IH].
Qed.

Lemma untouched_upd c f s : (forall r, cfs_track (f r) = cfs_track r) -> untouched s (upd_rq c f s).
Proof. intros Hf. exact (fa_track _ _ _ (frame_upd c f s Hf)). Qed.

Section untracked.
Context `{Config}.
Implicit Types (s : sys).

Lemma untouched_prefer b l acc : untouched acc.1 (prefer b l acc).1.
Proof.
  unfold prefer. destruct b as [b|]; [|done]. pose proof (still_preempt_entity b l acc.1) as S.
  destruct (wakeup_preempt_entity b l acc.1). by eapply untouched_frozen.
Qed.

Lemma untouched_pick_entity q s s' se : pick_next_entity q s = Some (s', se) -> untouched s s'.
Proof.
  unfold pick_next_entity. destruct (__pick_first_entity s q) as [l|]; [|done]. cbv zeta.
  set (a := prefer _ l (s, l)). set (b := prefer _ l a). set (c := prefer _ l b).
  assert (T : untouched s c.1).
  { unfold c, b, a. do 2 (etransitivity; [|apply untouched_prefer]).
    apply (untouched_prefer _ _ (s, l)). }
  clearbody c. destruct c as [s1 se1]. intros [= <- <-].
  etransitivity; [exact T|]. eapply untouched_frozen, still_clear_buddies.
Qed.

Lemma untouched_set_next q se s : untouched s (set_next_entity q se s).
Proof.
  unfold set_next_entity. cbv zeta.
  transitivity (if nonzero (on_rq (ses s se))
                then update_entity_load_avg se true (__dequeue_entity q se s) else s); [|done].
  case_match; [|done]. etransitivity; [|eapply untouched_frozen, still_update_load].
  by apply untouched_rqs.
Qed.

Lemma untouched_pick_down fuel q s s' se : pick_down fuel q s = Some (s', se) -> untouched s s'.
Proof.
  revert q s. induction fuel as [|fuel IH]; intros q s; cbn [pick_down];
    (destruct (pick_next_entity q s) as [[s1 se1]|] eqn:E; [|done]);
    apply untouched_pick_entity in E; cbn [mbind option_bind]; cbv zeta.
  - case_match; [done|]. intros [= <- <-]. etransitivity; [exact E|apply untouched_set_next].
  - case_match; [|intros [= <- <-]; etransitivity; [exact E|apply untouched_set_next]].
    intros E2%IH. etransitivity; [exact E|]. etransitivity; [apply untouched_set_next|exact E2].
Qed.

Lemma untouched_put_prev q p s : untouched s (put_prev_entity q p s).
Proof.
  unfold put_prev_entity. cbv zeta. set (s1 := if nonzero (on_rq (ses s p)) then update_curr q s else s).
  assert (T1 : untouched s s1).
  { unfold s1. case_match; [eapply untouched_frozen, still_update_curr|done]. }
  clearbody s1. etransitivity; [exact T1|].
  transitivity (if nonzero (on_rq (ses s1 p))
                then update_entity_load_avg p true (__enqueue_entity q p s1) else s1); [|done].
  case_match; [|done]. etransitivity; [|eapply untouched_frozen, still_update_load].
  by apply untouched_rqs.
Qed.

Lemma untouched_entity_tick q c s s' : entity_tick q c s = Some s' -> untouched s s'.
Proof.
  unfold entity_tick. cbv zeta. set (s1 := update_cfs_shares q _).
  assert (T1 : untouched s s1).
  { eapply untouched_still. unfold s1. etransitivity; [|apply still_shares].
    apply resting_still, frozen_resting. etransitivity; [|apply still_blocked].
    etransitivity; [|apply still_update_load]. apply still_update_curr. }
  clearbody s1. case_match; [|by intros [= <-]]. unfold check_preempt_tick.
  pose proof (still_slice q c s1) as T2. apply untouched_frozen in T2.
  destruct (sched_slice q c s1) as [s2 sl]. cbn [fst] in T2. intros E.
  etransitivity; [exact T1|]. etransitivity; [exact T2|]. revert E. cbv zeta.
  destruct (__pick_first_entity s2 q); cbn [mbind option_bind];
    repeat case_match; intros [= <-]; try done; try eapply untouched_frozen, still_resched;
    eapply untouched_frozen; (etransitivity; [apply still_resched|apply still_clear_buddies]).
Qed.

Lemma untouched_ticks l s s' : tick_entities l s = Some s' -> untouched s s'.
Proof.
  revert s. induction l as [|i l IH]; intros s; cbn; [by intros [= <-]|].
  destruct (entity_tick _ i s) as [s1|] eqn:E; [|done]. cbn. intros E1%IH.
  apply untouched_entity_tick in E. by etransitivity.
Qed.

Lemma cfs_step_untouched univ s s' : cfs_step univ s s' -> untouched s s'.
Proof.
  intros [cpu p fl s1|cpu p fl s1|cpu s1 s2 r _ _ E|p s1|cpu p s1 s2 _ _ E|cpu p s1|cpu t u s1].
  - eapply untouched_still, still_enqueue_task.
  - eapply untouched_still, still_dequeue_task.
  - unfold pick_next_task_fair in E. case_match; [by simplify_eq|].
    destruct (pick_down _ _ _) as [[s3 se]|] eqn:E1; [|done]. apply untouched_pick_down in E1. by simplify_eq/=.
  - apply untouched_foldl. intros. apply untouched_put_prev.
  - unfold task_tick_fair in E. destruct (tick_entities _ s1) as [s3|] eqn:E1; [|done]. injection E as <-.
    etransitivity; [|eapply untouched_frozen, still_rq_runnable]. by eapply untouched_ticks.
  - by apply untouched_rqs.
  - by apply (untouched_upd cpu (fun r => r <| rq_clock := t |> <| clock_task := u |>)).
Qed.

Lemma each_cpu_untouched (f : Z -> sys -> option sys) l s s' :
  (forall c s1 s2, f c s1 = Some s2 -> untouched s1 s2) -> each_cpu f l s = Some s' -> untouched s s'.
Proof.
  intros Hf. revert s. induction l as [|c l IH]; intros s; cbn; [by intros [= <-]|].
  destruct (f c s) as [s1|] eqn:E; [|done]. intros E1%IH. etransitivity; [by eapply Hf|done].
Qed.

Lemma force_up_untouched s s' : Enh.hmp_force_up_migration s = Some s' -> untouched s s'.
Proof.
  unfold hmp_force_up_migration. destruct (trylock_force s) as [s0|] eqn:E0; [|by intros [= <-]].
  assert (T0 : untouched s s0) by (unfold trylock_force in E0; by repeat case_match; simplify_eq).
  destruct (each_cpu force_up_cpu _ s0) as [s1|] eqn:E1; [|done]. cbn [mbind option_bind].
  apply each_cpu_untouched in E1.
  2:{ intros c ?? [[F _]|(_ & F & _)]%force_up_round; [exact (fa_track _ _ _ F)|done]. }
  destruct (if CONFIG_HMP_GLOBAL_BALANCE then _ else _) as [s2|] eqn:E2; [|done]. intros [= <-].
  etransitivity; [exact T0|]. etransitivity; [exact E1|].
  destruct CONFIG_HMP_GLOBAL_BALANCE; [|by injection E2 as <-].
  apply each_cpu_untouched in E2; [exact E2|]. intros c ?? F%frame_force_down. exact (fa_track _ _ _ F).
Qed.

Lemma idle_pull_untouched this s s' b : Enh.hmp_idle_pull this s = Some (s', b) -> untouched s s'.
Proof.
  unfold Enh.hmp_idle_pull. destruct (trylock_force s) as [s0|] eqn:E0; [|by intros [= <- _]].
  assert (T0 : untouched s s0) by (unfold trylock_force in E0; by repeat case_match; simplify_eq).
  generalize (cpus_of (hmp_slow_cpu_mask s0)), false. intros l f E. etransitivity; [exact T0|].
  destruct (idle_pull_cpus this l f s0) as [[s1 f1]|] eqn:E1; [|done]. injection E as <- _.
  change (untouched s0 s1). clear T0 E0. revert f s0 E1.
  induction l as [|c l IH]; intros f s0; cbn; [by intros [= <- _]|].
  destruct (idle_pull_cpu this c f s0) as [[s2 f2]|] eqn:E; [|done]. cbn. intros E2%IH.
  apply frame_idle_pull in E as F. etransitivity; [exact (fa_track _ _ _ F)|done].
Qed.

Lemma select_out_untouched p prev new s : untouched s (select_out p prev new s).1.
Proof. by apply (untouched_upd (if nr_cpu_ids s <=? new then prev else new)). Qed.

Lemma select_untouched f p prev new s s' r :
  Enh.hmp_select_task_rq_fair f p prev new s = Some (s', r) -> untouched s s'.
Proof.
  unfold hmp_select_task_rq_fair. cbv zeta.
  assert (HO : forall s1 n, untouched s s1 -> Some (select_out p prev n s1) = Some (s', r) -> untouched s s').
  { intros s1 n T E. etransitivity; [exact T|]. pose proof (select_out_untouched p prev n s1) as T2.
    destruct (select_out p prev n s1) as [s2 r2]. by injection E as -> _. }
  do 2 (case_match; [by intros [= <- _]|]).
  do 5 (case_match; [by apply HO|]).
  destruct (choose_cluster _ _ _ _ _ s) as [[s1 fast]|] eqn:E; [|done]. cbn [mbind option_bind].
  apply HO. unfold choose_cluster in E. cbv zeta in E. do 2 (case_match; [by simplify_eq|]).
  destruct (sched_update_clbstats _ _) as [env|]; [|done]. cbn [mbind option_bind] in E.
  case_match; [by simplify_eq|].
  match type of E with context [hmp_down_migration ?b ?l ?se s ?e] =>
    pose proof (down_state b l se s e) as Hd; destruct (hmp_down_migration b l se s e) as [s2 env2] end.
  cbn [fst] in Hd. assert (T : untouched s s2).
  { destruct Hd as [->| ->]; [done|by apply untouched_upd]. }
  by case_match; simplify_eq.
Qed.

(** Scheduling with the enhancement: the fair class's own operations on tasks of the root group,
    choosing a CPU for a woken task, moving a task between run queues, forced migration, and
    stoppers. *)
Inductive enh_sched_step (univ : list se_id) : sys -> sys -> Prop :=
| es_cfs s s' : cfs_step univ s s' -> enh_sched_step univ s s'
| es_select f p prev new s s' r :
    Enh.hmp_select_task_rq_fair f p prev new s = Some (s', r) -> enh_sched_step univ s s'
| es_move p src dst s : enh_sched_step univ s (move_task p src dst s)
| es_balance this s s' b : Enh.run_rebalance_domains this s = Some (s', b) -> enh_sched_step univ s s'
| es_stopper c this s s' :
    hmp_active_task_migration_cpu_stop c this (take_work c s) = Some s' -> enh_sched_step univ s s'.

Lemma stopper_untouched c this s s' :
  hmp_active_task_migration_cpu_stop c this s = Some s' -> untouched s s'.
Proof.
  unfold hmp_active_task_migration_cpu_stop. destruct (migrate_task _) as [p|]; [|done].
  cbn [mbind option_bind]. cbv zeta.
  assert (HO : forall s1, untouched s s1 ->
    Some (put_task_struct p (upd_rq c (fun r => r <| active_balance := 0 |>) s1)) = Some s' -> untouched s s').
  { intros s1 T [= <-]. etransitivity; [exact T|]. by apply (untouched_upd c (fun r => r <| active_balance := 0 |>)). }
  do 3 (case_match; [by apply HO|]). case_match; [done|]. apply HO.
  case_match; [|done]. eapply untouched_still, still_move_specific.
Qed.

Lemma enh_sched_untouched univ s s' : enh_sched_step univ s s' -> untouched s s'.
Proof.
  intros [s1 s2 E|f p prev new s1 s2 r E|p src dst s1|this s1 s2 b E|c this s1 s2 E].
  - by eapply cfs_step_untouched.
  - by eapply select_untouched.
  - eapply untouched_still, still_move.
  - unfold Enh.run_rebalance_domains in E. cbv zeta in E.
    match type of E with mbind _ ?x = _ => destruct x as [[s3 pl]|] eqn:E3; [|done] end.
    assert (T3 : untouched s1 s3).
    { case_match; [|by simplify_eq]. apply idle_pull_untouched in E3.
      etransitivity; [|exact E3]. by apply untouched_upd. }
    cbn [mbind option_bind] in E. case_match; [by simplify_eq|].
    destruct (hmp_force_up_migration s3) as [s4|] eqn:E4; [|done]. injection E as <- _.
    etransitivity; [exact T3|by apply force_up_untouched].
  - apply stopper_untouched in E. etransitivity; [|exact E]. by apply untouched_rqs.
Qed.

(** C39. The enhancement decides on a load and on times of migration that nobody tracks.  It
    reads [cfs.avg.load_avg_ratio] as the load of a CPU, and [cfs.avg.hmp_last_up_migration] and
    [cfs.avg.hmp_last_down_migration] as the times of the last migrations to it; the scheduler
    keeps them in [rq->avg] instead.  From a state as at boot, where they are zero, run any
    sequence of operations of the fair class on tasks of the root group (enqueue, dequeue, pick,
    put, tick, change of CPU), choices of a CPU, moves between run queues, forced migrations and
    stoppers.  Then the load of every CPU is still zero, and a CPU counts as stable, for moves up
    and for moves down, as soon as its clock has passed the threshold once, however recent the
    last migration to it is. *)
Theorem enh_load_untracked univ s s' c :
  (forall d, cfs_track (rqs s d) = (0, 0, 0)) -> rtc (enh_sched_step univ) s s' ->
  0 <= clock_task (rqs s' c) < 2 ^ 64 ->
  cfs_load s' c = 0
  /\ hmp_last_up_migration s' c = 0 /\ hmp_last_down_migration s' c = 0
  /\ (hmp_up_stable s' c = true
      <-> hmp_next_up_threshold (tun s') <= Z.shiftr (clock_task (rqs s' c)) 10)
  /\ (hmp_down_stable s' c = true
      <-> hmp_next_down_threshold (tun s') <= Z.shiftr (clock_task (rqs s' c)) 10).
Proof.
  intros H0 R Hc. assert (T : untouched s s').
  { induction R as [|s1 s2 s3 E R IH]; [done|]. apply enh_sched_untouched in E.
    etransitivity; [exact E|]. apply IH; [|done]. intros d. by rewrite E. }
  specialize (T c). rewrite H0 in T. unfold cfs_track in T. injection T as E1 E2 E3.
  unfold hmp_up_stable, hmp_down_stable, hmp_last_up_migration, hmp_last_down_migration.
  rewrite E2, E3, Z.sub_0_r, u64_id by done. rewrite !negb_true_iff, !Z.ltb_ge. done.
Qed.
End untracked.

(** * Witnesses *)

(** [backup/config] without delayed up-migration. *)
Definition enh_config : Config := {|
  NR_CPUS := 8; NR_CPUS_pos := eq_refl;
  BITS_PER_LONG := 64; BITS_PER_LONG_ok := or_intror eq_refl;
  CONFIG_SCHED_HMP_PRIO_FILTER := true;
  CONFIG_HMP_VARIABLE_SCALE := true;
  CONFIG_HMP_FREQUENCY_INVARIANT_SCALE := false;
  CONFIG_SCHED_HMP_LITTLE_PACKING := false;
  CONFIG_HMP_DELAY_UP_MIGRATION := false;
  CONFIG_HMP_PACK_STOP_MACHINE := true;
  CONFIG_SCHED_HMP_ENHANCEMENT := true;
  CONFIG_HMP_DYNAMIC_THRESHOLD := true; USE_HMP_DYNAMIC_THRESHOLD := false;
  CONFIG_HMP_GLOBAL_BALANCE := true; CONFIG_HMP_TASK_ASSIGNMENT := true;
  CONFIG_HMP_DISCARD_CFS_SELECTION_RESULT := true; CONFIG_HMP_PACK_SMALL_TASK := true;
  CONFIG_HMP_LAZY_BALANCE := true; CONFIG_HMP_POWER_AWARE_CONTROLLER := true;
  CONFIG_ARCH_SCALE_INVARIANT_CPU_CAPACITY := false; CONFIG_PREEMPT := false;
  CONFIG_SCHED_MC := true; CONFIG_SCHED_SMT := false; CONFIG_DISABLE_CPU_SCHED_DOMAIN_BALANCE := true;
  HZ := 100; HZ_ok := conj eq_refl eq_refl |}.

Lemma pull_sys_rq c :
  rq_lock (rqs pull_sys c) = __ARCH_SPIN_LOCK_UNLOCKED /\ cfs_track (rqs pull_sys c) = (0, 0, 0).
Proof.
  unfold pull_sys. cbv zeta.
  destruct (decide (2 = c)) as [<-|]; [split; reflexivity|]. rewrite rqs_upd_rq_ne by done.
  destruct (decide (4 = c)) as [<-|]; [split; reflexivity|]. by rewrite rqs_upd_rq_ne.
Qed.

Lemma pull_enh_ok : enh_ok (H := enh_config) 15 240 false None (fun _ => 1) pull_sys.
Proof.
  destruct pull_sys_ok as [S _ _ Hu _ _ _ _]. split.
  - destruct S as [T ?]. split; [destruct T; by split|done].
  - apply lock_is_start.
  - intros c. destruct (pull_sys_rq c) as [-> _]. apply lock_is_start.
  - done.
  - exact busy_scales_ok.
  - intros c. apply pull_sys_rq.
  - constructor.
  - intros c Hc. by apply elem_of_nil in Hc.
  - intros p. rewrite Hu. done.
  - intros p. split; [|lia]. intros Hf. exfalso. revert Hf. unfold pull_sys. store_frame.
    destruct (decide (p = 4)) as [->|]; [done|]. by rewrite tasks_upd_task_ne.
Qed.


(** Balancing sends task 4 from CPU 4 to CPU 0, which the stopper of CPU 4 then does; somebody
    else holds a second reference to task 4 meanwhile. *)
Definition twice : Z -> Z := fun p => if p =? 4 then 2 else 1.
Definition held_sys : sys := upd_task 4 (fun t => t <| task_usage := 2 |>) pull_sys.
Definition enh_pushed : sys :=
  match Enh.run_rebalance_domains (H := enh_config) 2 held_sys with Some (s, _) => s | None => held_sys end.
Definition enh_moved : sys :=
  match hmp_active_task_migration_cpu_stop (H := enh_config) 4 4 (take_work 4 enh_pushed) with
  | Some s => s | None => enh_pushed end.

Lemma held_enh_ok : enh_ok (H := enh_config) 15 240 false None twice held_sys.
Proof.
  destruct pull_enh_ok as [H1 H2 H3 H4 H5 H6 H7 H8 H9 H10]. split; try done.
  - by apply (sys_ok_ext pull_sys).
  - intros p. unfold twice, held_sys. destruct (Z.eqb_spec p 4) as [->|]; store_rw; [done|apply H9].
  - intros p. unfold twice, held_sys. destruct (Z.eqb_spec p 4) as [->|]; store_rw; [|apply H10].
    split; [|lia]. intros Hf. by apply H10 in Hf.
Qed.

Lemma enh_moved_run : enh_run (H := enh_config) twice held_sys [4] twice enh_moved.
Proof.
  assert (E1 : exists b, Enh.run_rebalance_domains (H := enh_config) 2 held_sys = Some (enh_pushed, b)).
  { assert (E : match Enh.run_rebalance_domains (H := enh_config) 2 held_sys with
                | Some _ => true | None => false end = true) by (vm_compute; reflexivity).
    unfold enh_pushed. destruct (Enh.run_rebalance_domains 2 held_sys) as [[s b]|]; [by exists b|done]. }
  destruct E1 as [b E1]. eapply enh_balance; [exact E1|]. clear E1 b.
  assert (E2 : hmp_active_task_migration_cpu_stop (H := enh_config) 4 4 (take_work 4 enh_pushed) = Some enh_moved).
  { assert (E : match hmp_active_task_migration_cpu_stop (H := enh_config) 4 4 (take_work 4 enh_pushed) with
                | Some _ => true | None => false end = true) by (vm_compute; reflexivity).
    unfold enh_moved. by destruct (hmp_active_task_migration_cpu_stop 4 4 (take_work 4 enh_pushed)). }
  eapply (enh_stopper 4 4 4); [|vm_compute; reflexivity|exact E2|constructor].
  apply (bool_decide_unpack _). vm_compute. exact I.
Qed.

Lemma nr_small (H := enh_config) : NR_CPUS <= 1024.
Proof. vm_compute. discriminate. Qed.
Lemma sample_clusters c : cpumask_test_cpu c 15 = true -> cpumask_test_cpu c 240 = false.
Proof.
  unfold cpumask_test_cpu. destruct (decide (c < 0)); [by rewrite !Z.testbit_neg_r|].
  change 15 with (Z.ones 4). change 240 with (Z.shiftl (Z.ones 4) 4).
  rewrite Z.shiftl_spec, !Z.testbit_ones by lia. lia.
Qed.


(** With [backup/config] CPU 0 is asked to pull task 4 instead, and the locks are lost. *)
Definition wedged_sys : sys :=
  match Enh.hmp_force_up_migration (H := backup_config) pull_sys with Some s => s | None => pull_sys end.

Lemma enh_delay_wedges_witness :
  resched_ipis wedged_sys = [0]
  /\ Enh.hmp_force_up_migration (H := backup_config) wedged_sys = Some wedged_sys
  /\ (forall this, Enh.hmp_idle_pull (H := backup_config) this wedged_sys = Some (wedged_sys, false))
  /\ exists c, cpumask_test_cpu c 240 = true /\ lock_rq c wedged_sys = None.
Proof.
  split; [vm_compute; reflexivity|].
  apply (enh_delay_wedges (H := backup_config) nr_small eq_refl pull_sys wedged_sys).
  - exact sample_clusters.
  - intros c. rewrite (proj1 (pull_sys_rq c)). exact lock_is_start.
  - exact lock_is_start.
  - assert (E : match Enh.hmp_force_up_migration (H := backup_config) pull_sys with
                | Some _ => true | None => false end = true) by (vm_compute; reflexivity).
    unfold wedged_sys. by destruct (Enh.hmp_force_up_migration pull_sys).
  - vm_compute. discriminate.
Defined.

(** Task 4 is woken on CPU 4; the load of CPU 4 is still 0. *)
Lemma enh_load_untracked_witness :
  let s' := enqueue_task_fair (H := backup_config) 4 4 ENQUEUE_WAKEUP pull_sys in
  cfs_load s' 4 = 0
  /\ hmp_last_up_migration s' 4 = 0 /\ hmp_last_down_migration s' 4 = 0
  /\ (hmp_up_stable s' 4 = true
      <-> hmp_next_up_threshold (tun s') <= Z.shiftr (clock_task (rqs s' 4)) 10)
  /\ (hmp_down_stable s' 4 = true
      <-> hmp_next_down_threshold (tun s') <= Z.shiftr (clock_task (rqs s' 4)) 10).
Proof.
  intros s'. apply (enh_load_untracked (H := backup_config) sample_univ pull_sys s' 4).
  - intros d. exact (proj2 (pull_sys_rq d)).
  - apply rtc_once, es_cfs, step_enqueue; [apply list_elem_of_here|reflexivity].
  - vm_compute. split; [discriminate|reflexivity].
Defined.
