(* ===== verification/LoadStats.v ===== *)
(** Load statistics for balancing ([kernel/sched/fair.c]): loads of CPUs, the compute power of
    CPUs and groups, the busiest group of a domain and how much load to take from it, and the
    busiest and idlest CPU.

    A domain is named by the CPU it belongs to and its level ([sd_ptr]): the pointers that
    [for_each_domain] yields, never NULL.  [None] stands for a division by zero or a NULL
    pointer. *)

From S2P Require Import Prelude Pelt SchedTypes HmpSelect Cfs CpuLoad HmpEnh.

(** [include/linux/sched.h] *)
Definition SD_LOAD_BALANCE : Z := 0x0001.
Definition SD_BALANCE_NEWIDLE : Z := 0x0002.
Definition SD_BALANCE_WAKE : Z := 0x0010.
Definition SD_WAKE_AFFINE : Z := 0x0020.
Definition SD_SHARE_CPUPOWER : Z := 0x0080.
Definition SD_SHARE_POWERLINE : Z := 0x0100.
Definition SD_SHARE_PKG_RESOURCES : Z := 0x0200.
Definition SD_SERIALIZE : Z := 0x0400.
Definition SD_ASYM_PACKING : Z := 0x0800.
Definition SD_PREFER_SIBLING : Z := 0x1000.
Definition SD_OVERLAP : Z := 0x2000.
Definition SCHED_POWER_SHIFT : Z := 10.
Definition SCHED_POWER_SCALE : Z := 1024.
Definition SCHED_LOAD_SCALE : Z := 1024.

(** [enum cpu_idle_type] *)
Inductive cpu_idle_type := CPU_IDLE | CPU_NOT_IDLE | CPU_NEWLY_IDLE.
#[export] Instance cpu_idle_type_dec : EqDecision cpu_idle_type.
Proof. solve_decision. Defined.

(** * Domains *)

Definition sd_ptr : Type := Z * nat.
Definition null_sd : sched_domain := mk_sd 0 0 [] 0 0 0 0 0 0 0 0 0 0 0 0 0 0 0 0.
Definition get_sd (s : sys) (sd : sd_ptr) : sched_domain := nth sd.2 (rq_sd (rqs s sd.1)) null_sd.
Definition upd_sd (sd : sd_ptr) (f : sched_domain -> sched_domain) (s : sys) : sys :=
  upd_rq sd.1 (fun r => r <| rq_sd := alter f sd.2 (rq_sd r) |>) s.
Definition sd_has (s : sys) (sd : sd_ptr) (flag : Z) : bool := has_flag (sd_flags (get_sd s sd)) flag.
Definition sd_child (sd : sd_ptr) : option sd_ptr :=
  match sd.2 with O => None | S l => Some (sd.1, l) end.
(** [for_each_domain] *)
Definition domains_of (s : sys) (cpu : Z) : list sd_ptr :=
  (fun l => (cpu, l)) <$> seq 0 (length (rq_sd (rqs s cpu))).

Definition get_sg (s : sys) (g : Z) : sched_group := sgs (bal s) g.
Definition sched_group_cpus (s : sys) (g : Z) : cpumask := sg_cpumask (get_sg s g).

Section stats.
Context `{Config}.
Implicit Types (s : sys) (cpu g : Z) (sd : sd_ptr).

(** * Time *)

Definition time_after (a b : Z) : bool := slong (b - a) <? 0.
Definition time_after_eq (a b : Z) : bool := 0 <=? slong (a - b).
Definition time_before (a b : Z) : bool := time_after b a.
Definition MAX_JIFFY_OFFSET : Z := LONG_MAX / 2 - 1.
Definition msecs_to_jiffies (m : Z) : Z :=
  if s32 m <? 0 then MAX_JIFFY_OFFSET else ulong (m + 1000 / HZ - 1) / (1000 / HZ).
Definition clamp (v lo hi : Z) : Z := let v := if v <? lo then lo else v in if hi <? v then hi else v.
Definition DIV_ROUND_CLOSEST (x d : Z) : Z := ulong (x + d / 2) / d.

(** * Loads of CPUs *)

(** [kernel/sched/core.c] *)
Definition idle_cpu s cpu : bool :=
  let r := rqs s cpu in
  match rq_curr r with
  | RunsIdle => negb (nonzero (rq_nr_running r)) && match wake_list (rq_lb r) with [] => true | _ => false end
  | _ => false
  end.
Definition group_balance_cpu s g : Z :=
  cpumask_any_and (sched_group_cpus s g) (sg_mask (get_sg s g)).
Definition cpus_share_cache s (a b : Z) : bool := sd_llc_id (rq_lb (rqs s a)) =? sd_llc_id (rq_lb (rqs s b)).

Definition weighted_cpuload s cpu : Z := rq_weight (rqs s cpu).
Definition past_load s cpu (type : Z) : Z := nth (Z.to_nat (type - 1)) (cpu_load (rq_lb (rqs s cpu))) 0.
Definition source_load s cpu (type : Z) : Z :=
  if (type =? 0) || negb (LB_BIAS (sysctl s)) then weighted_cpuload s cpu
  else Z.min (past_load s cpu type) (weighted_cpuload s cpu).
Definition target_load s cpu (type : Z) : Z :=
  if (type =? 0) || negb (LB_BIAS (sysctl s)) then weighted_cpuload s cpu
  else Z.max (past_load s cpu type) (weighted_cpuload s cpu).
Definition power_of s cpu : Z := cpu_power (rq_lb (rqs s cpu)).
Definition cpu_avg_load_per_task s cpu : Z :=
  let r := rqs s cpu in
  if nonzero (rq_nr_running r) then rq_weight r / rq_nr_running r else 0.

(** * Power *)

Definition get_sd_load_idx (d : sched_domain) (idle : cpu_idle_type) : Z :=
  match idle with CPU_NOT_IDLE => busy_idx d | CPU_NEWLY_IDLE => newidle_idx d | CPU_IDLE => idle_idx d end.

Definition default_scale_freq_power : Z := SCHED_POWER_SCALE.
Definition default_scale_smt_power (d : sched_domain) : option Z := udiv (smt_gain d) (span_weight d).

(** [div_u64] takes the divisor as a [u32]. *)
Definition scale_rt_power s cpu : option Z :=
  let r := rqs s cpu in
  let avg := rt_avg (rq_lb r) in
  let total := u64 (sched_avg_period s + u64 (rq_clock r - age_stamp (rq_lb r))) in
  let available := if total <? avg then 0 else u64 (total - avg) in
  let total := if s64 total <? SCHED_POWER_SCALE then SCHED_POWER_SCALE else total in
  q ← udiv available (u32 (Z.shiftr total SCHED_POWER_SHIFT)); Some (ulong q).

(** The groups of a domain start with that of its CPU. *)
Definition first_group (d : sched_domain) : option Z := head (sd_groups d).

Definition update_cpu_power sd cpu s : option sys :=
  let d := get_sd s sd in
  sdg ← first_group d;
  power ← (if has_flag (sd_flags d) SD_SHARE_CPUPOWER && (1 <? span_weight d) then
             gain ← default_scale_smt_power d;
             Some (Z.shiftr (ulong (SCHED_POWER_SCALE * gain)) SCHED_POWER_SHIFT)
           else Some SCHED_POWER_SCALE);
  let s := upd_sg sdg (fun x => x <| power_orig := u32 power |>) s in
  let freq := if ARCH_POWER (sysctl s) then Enh.arch_scale_freq_power s cpu else default_scale_freq_power in
  let power := Z.shiftr (ulong (power * freq)) SCHED_POWER_SHIFT in
  rt ← scale_rt_power s cpu;
  let power := Z.shiftr (ulong (power * rt)) SCHED_POWER_SHIFT in
  let power := if power =? 0 then 1 else power in
  let s := upd_rq_lb cpu (fun b => b <| cpu_power := power |>) s in
  Some (upd_sg sdg (fun x => x <| sg_power := u32 power |>) s).

Definition add_power (f : Z -> Z) (l : list Z) : Z := foldl (fun acc x => ulong (acc + f x)) 0 l.

Definition update_group_power sd cpu s : option sys :=
  let d := get_sd s sd in
  sdg ← first_group d;
  let interval := clamp (msecs_to_jiffies (balance_interval d)) 1 (max_load_balance_interval (bal s)) in
  let s := upd_sg sdg (fun x => x <| next_update := ulong (jiffies (bal s) + interval) |>) s in
  match sd_child sd with
  | None => update_cpu_power sd cpu s
  | Some child =>
      let power :=
        if sd_has s child SD_OVERLAP then add_power (power_of s) (cpus_of (sched_group_cpus s sdg))
        else add_power (fun g => sg_power (get_sg s g)) (sd_groups (get_sd s child)) in
      Some (upd_sg sdg (fun x => x <| power_orig := u32 power |> <| sg_power := u32 power |>) s)
  end.

Definition fix_small_capacity (d : sched_domain) (sg : sched_group) : Z :=
  if negb (has_flag (sd_flags d) SD_SHARE_CPUPOWER) then 0
  else if u32 (power_orig sg * 29) <? u32 (sg_power sg * 32) then 1 else 0.

(** * The balancing environment *)

Definition LBF_ALL_PINNED : Z := 1.
Definition LBF_NEED_BREAK : Z := 2.
Definition LBF_SOME_PINNED : Z := 4.
End stats.

(** [struct lb_env]; [lb_me] is the CPU that runs the code. *)
Record lb_env := mk_lb_env {
  lb_me : Z;
  lb_sd : sd_ptr;
  src_cpu : Z;
  dst_cpu : Z;
  dst_grpmask : option cpumask;
  new_dst_cpu : Z;
  idle : cpu_idle_type;
  imbalance : Z;
  lb_cpus : cpumask;
  lb_flags : Z;
  lb_loop : Z;
  loop_break : Z;
  loop_max : Z;
}.
#[export] Instance eta_lb_env : Eta lb_env := fun r =>
  {| lb_me := lb_me r; lb_sd := lb_sd r; src_cpu := src_cpu r; dst_cpu := dst_cpu r;
     dst_grpmask := dst_grpmask r; new_dst_cpu := new_dst_cpu r; idle := idle r;
     imbalance := imbalance r; lb_cpus := lb_cpus r; lb_flags := lb_flags r; lb_loop := lb_loop r;
     loop_break := loop_break r; loop_max := loop_max r |}.

(** [struct sg_lb_stats] *)
Record sg_lb_stats := mk_sgs {
  g_avg_load : Z;
  g_load : Z;  (* group_load *)
  g_nr_running : Z;  (* sum_nr_running *)
  g_weighted_load : Z;  (* sum_weighted_load *)
  g_capacity : Z;
  g_idle_cpus : Z;
  g_weight : Z;
  g_imb : bool;
  g_has_capacity : bool;
}.
#[export] Instance eta_sg_lb_stats : Eta sg_lb_stats := fun r =>
  {| g_avg_load := g_avg_load r; g_load := g_load r; g_nr_running := g_nr_running r;
     g_weighted_load := g_weighted_load r; g_capacity := g_capacity r; g_idle_cpus := g_idle_cpus r;
     g_weight := g_weight r; g_imb := g_imb r; g_has_capacity := g_has_capacity r |}.

(** [struct sd_lb_stats] *)
Record sd_lb_stats := mk_sds {
  busiest : option Z;
  this_group : option Z;  (* this *)
  total_load : Z;
  total_pwr : Z;
  avg_load : Z;
  this_load : Z;
  this_load_per_task : Z;
  this_nr_running : Z;
  this_has_capacity : bool;
  this_idle_cpus : Z;
  busiest_idle_cpus : Z;
  max_load : Z;
  busiest_load_per_task : Z;
  busiest_nr_running : Z;
  busiest_group_capacity : Z;
  busiest_has_capacity : bool;
  busiest_group_weight : Z;
  group_imb : bool;
}.
#[export] Instance eta_sd_lb_stats : Eta sd_lb_stats := fun r =>
  {| busiest := busiest r; this_group := this_group r; total_load := total_load r;
     total_pwr := total_pwr r; avg_load := avg_load r; this_load := this_load r;
     this_load_per_task := this_load_per_task r; this_nr_running := this_nr_running r;
     this_has_capacity := this_has_capacity r; this_idle_cpus := this_idle_cpus r;
     busiest_idle_cpus := busiest_idle_cpus r; max_load := max_load r;
     busiest_load_per_task := busiest_load_per_task r; busiest_nr_running := busiest_nr_running r;
     busiest_group_capacity := busiest_group_capacity r; busiest_has_capacity := busiest_has_capacity r;
     busiest_group_weight := busiest_group_weight r; group_imb := group_imb r |}.
Definition sgs_zero : sg_lb_stats := mk_sgs 0 0 0 0 0 0 0 false false.
Definition sds_zero : sd_lb_stats := mk_sds None None 0 0 0 0 0 0 false 0 0 0 0 0 0 false 0 false.

Section busiest.
Context `{Config}.
Implicit Types (s : sys) (cpu i : Z) (sd : sd_ptr) (env : lb_env) (sds : sd_lb_stats).

(** * Statistics of a group *)

(** The variables of the loop over the CPUs of a group. *)
Record sg_scan := mk_scan {
  balance_cpu : Z;
  first_idle_cpu : bool;
  max_cpu_load : Z;
  min_cpu_load : Z;
  max_nr_running : Z;
  min_nr_running : Z;
  scan_stats : sg_lb_stats;
}.

Definition scan_cpu s (group load_idx : Z) (local_group : bool) (a : sg_scan) i : sg_scan :=
  let nr := rq_nr_running (rqs s i) in
  let st := scan_stats a in
  let load := if local_group then target_load s i load_idx else source_load s i load_idx in
  let st := st <| g_load := ulong (g_load st + load) |>
               <| g_nr_running := ulong (g_nr_running st + nr) |>
               <| g_weighted_load := ulong (g_weighted_load st + weighted_cpuload s i) |>
               <| g_idle_cpus := if idle_cpu s i then ulong (g_idle_cpus st + 1) else g_idle_cpus st |> in
  if local_group then
    let take := idle_cpu s i && negb (first_idle_cpu a)
                && cpumask_test_cpu i (sg_mask (get_sg s group)) in
    mk_scan (if take then i else balance_cpu a) (first_idle_cpu a || take) (max_cpu_load a)
      (min_cpu_load a) (max_nr_running a) (min_nr_running a) st
  else
    mk_scan (balance_cpu a) (first_idle_cpu a)
      (Z.max (max_cpu_load a) load) (Z.min (min_cpu_load a) load)
      (Z.max (max_nr_running a) nr) (Z.min (min_nr_running a) nr) st.

Definition ULONG_MAX : Z := 2 ^ BITS_PER_LONG - 1.

(** What is computed after the loop, once the power of the group is up to date. *)
Definition finish_stats s env (group : Z) (a : sg_scan) : option sg_lb_stats :=
  let st := scan_stats a in
  let sg := get_sg s group in
  avg ← udiv (ulong (g_load st * SCHED_POWER_SCALE)) (sg_power sg);
  let per_task := if nonzero (g_nr_running st) then g_weighted_load st / g_nr_running st else 0 in
  let imb := (per_task <=? ulong (max_cpu_load a - min_cpu_load a))
             && (1 <? ulong (max_nr_running a - min_nr_running a)) in
  let cap := DIV_ROUND_CLOSEST (sg_power sg) SCHED_POWER_SCALE in
  let cap := if cap =? 0 then fix_small_capacity (get_sd s (lb_sd env)) sg else cap in
  Some (st <| g_avg_load := avg |> <| g_imb := imb |> <| g_capacity := cap |>
           <| g_weight := group_weight sg |> <| g_has_capacity := g_nr_running st <? cap |>).

(** The second result is [*balance], which is 1 before; the third is used when it still is. *)
Definition update_sg_lb_stats env (group load_idx : Z) (local_group : bool) s :
    option (sys * bool * sg_lb_stats) :=
  let start := mk_scan (if local_group then group_balance_cpu s group else UINT_MAX) false
                 0 ULONG_MAX 0 ULONG_MAX sgs_zero in
  let a := foldl (scan_cpu s group load_idx local_group) start
             (cpus_of (cpumask_and (sched_group_cpus s group) (lb_cpus env))) in
  let newly := bool_decide (idle env = CPU_NEWLY_IDLE) in
  if local_group && negb newly && negb (balance_cpu a =? dst_cpu env) then Some (s, false, scan_stats a)
  else
    s ← (if local_group && (negb newly || time_after_eq (jiffies (bal s)) (next_update (get_sg s group)))
         then update_group_power (lb_sd env) (dst_cpu env) s else Some s);
    st ← finish_stats s env group a;
    Some (s, true, st).

(** * Statistics of a domain *)

Definition group_first_cpu s (g : Z) : Z := cpumask_first (sched_group_cpus s g).

Definition update_sd_pick_busiest env sds (sg : Z) (st : sg_lb_stats) s : bool :=
  if g_avg_load st <=? max_load sds then false
  else if g_capacity st <? g_nr_running st then true
  else if g_imb st then true
  else if sd_has s (lb_sd env) SD_ASYM_PACKING && nonzero (g_nr_running st)
          && (dst_cpu env <? group_first_cpu s sg) then
    match busiest sds with
    | None => true
    | Some b => group_first_cpu s sg <? group_first_cpu s b
    end
  else false.

(** What a group adds to the statistics of the domain. *)
Definition add_group env sds (sg : Z) (local_group prefer_sibling : bool) (st : sg_lb_stats) s : sd_lb_stats :=
  let sds := sds <| total_load := ulong (total_load sds + g_load st) |>
                 <| total_pwr := ulong (total_pwr sds + sg_power (get_sg s sg)) |> in
  let st := if prefer_sibling && negb local_group && this_has_capacity sds
            then st <| g_capacity := Z.min (g_capacity st) 1 |> else st in
  if local_group then
    sds <| this_load := g_avg_load st |> <| this_group := Some sg |>
        <| this_nr_running := g_nr_running st |> <| this_load_per_task := g_weighted_load st |>
        <| this_has_capacity := g_has_capacity st |> <| this_idle_cpus := u32 (g_idle_cpus st) |>
  else if update_sd_pick_busiest env sds sg st s then
    sds <| max_load := g_avg_load st |> <| busiest := Some sg |>
        <| busiest_nr_running := g_nr_running st |> <| busiest_idle_cpus := u32 (g_idle_cpus st) |>
        <| busiest_group_capacity := g_capacity st |>
        <| busiest_load_per_task := g_weighted_load st |>
        <| busiest_has_capacity := g_has_capacity st |>
        <| busiest_group_weight := u32 (g_weight st) |> <| group_imb := g_imb st |>
  else sds.

(** The loop over the groups, which stops when another CPU is to balance. *)
Fixpoint sd_stats_groups env (load_idx : Z) (prefer_sibling : bool) (l : list Z) sds s :
    option (sys * bool * sd_lb_stats) :=
  match l with
  | [] => Some (s, true, sds)
  | sg :: l =>
      let local_group := cpumask_test_cpu (dst_cpu env) (sched_group_cpus s sg) in
      '(s, balance, st) ← update_sg_lb_stats env sg load_idx local_group s;
      if local_group && negb balance then Some (s, false, sds)
      else sd_stats_groups env load_idx prefer_sibling l
             (add_group env sds sg local_group prefer_sibling st s) s
  end.

Definition update_sd_lb_stats env s : option (sys * bool * sd_lb_stats) :=
  let d := get_sd s (lb_sd env) in
  let prefer_sibling :=
    match sd_child (lb_sd env) with Some c => sd_has s c SD_PREFER_SIBLING | None => false end in
  sd_stats_groups env (get_sd_load_idx d (idle env)) prefer_sibling (sd_groups d) sds_zero s.

(** * How much to move *)

(** [Some im] is the imbalance when tasks should be packed on this CPU. *)
Definition check_asym_packing env sds s : option Z :=
  if negb (sd_has s (lb_sd env) SD_ASYM_PACKING) then None
  else match busiest sds with
       | None => None
       | Some b =>
           if group_first_cpu s b <? dst_cpu env then None
           else Some (slong (DIV_ROUND_CLOSEST (ulong (max_load sds * sg_power (get_sg s b)))
                               SCHED_POWER_SCALE))
       end.

(** Returns [env->imbalance]. *)
Definition fix_small_imbalance env sds s : option Z :=
  b ← busiest sds;
  let bp := sg_power (get_sg s b) in
  let per_task := busiest_load_per_task sds in
  this_per_task ← (if nonzero (this_nr_running sds) then udiv (this_load_per_task sds) (this_nr_running sds)
                   else Some (cpu_avg_load_per_task s (dst_cpu env)));
  let imbn := if nonzero (this_nr_running sds) && (this_per_task <? per_task) then 1 else 2 in
  scaled ← udiv (ulong (per_task * SCHED_POWER_SCALE)) bp;
  if ulong (scaled * imbn) <=? ulong (ulong (max_load sds - this_load sds) + scaled)
  then Some (slong per_task)
  else
    t ← this_group sds;
    let tp := sg_power (get_sg s t) in
    let pwr_now := ulong (bp * Z.min per_task (max_load sds)) in
    let pwr_now := ulong (pwr_now + ulong (tp * Z.min this_per_task (this_load sds))) in
    let pwr_now := pwr_now / SCHED_POWER_SCALE in
    let pwr_move := if scaled <? max_load sds
                    then ulong (bp * Z.min per_task (ulong (max_load sds - scaled))) else 0 in
    tmp ← udiv (if ulong (max_load sds * bp) <? ulong (per_task * SCHED_POWER_SCALE)
                then ulong (max_load sds * bp) else ulong (per_task * SCHED_POWER_SCALE)) tp;
    let pwr_move := ulong (pwr_move + ulong (tp * Z.min this_per_task (ulong (this_load sds + tmp)))) in
    let pwr_move := pwr_move / SCHED_POWER_SCALE in
    Some (if pwr_now <? pwr_move then slong per_task else imbalance env).

Definition calculate_imbalance env sds s : option Z :=
  b ← busiest sds;
  per_task ← udiv (busiest_load_per_task sds) (busiest_nr_running sds);
  let per_task := if group_imb sds then Z.min per_task (avg_load sds) else per_task in
  let sds := sds <| busiest_load_per_task := per_task |> in
  if max_load sds <? avg_load sds then fix_small_imbalance (env <| imbalance := 0 |>) sds s
  else
    let bp := sg_power (get_sg s b) in
    load_above_capacity ←
      (if group_imb sds then Some ULONG_MAX
       else udiv (ulong (ulong (busiest_nr_running sds - busiest_group_capacity sds)
                         * (SCHED_LOAD_SCALE * SCHED_POWER_SCALE))) bp);
    let max_pull := Z.min (ulong (max_load sds - avg_load sds)) load_above_capacity in
    t ← this_group sds;
    let tp := sg_power (get_sg s t) in
    let im := slong (Z.min (ulong (max_pull * bp))
                       (ulong (ulong (avg_load sds - this_load sds) * tp)) / SCHED_POWER_SCALE) in
    if ulong im <? per_task then fix_small_imbalance (env <| imbalance := im |>) sds s else Some im.

(** The tests between packing and [force_balance]: whether the domain is balanced. *)
Definition looks_balanced env sds s : bool :=
  if group_imb sds then false
  else if bool_decide (idle env = CPU_NEWLY_IDLE) && this_has_capacity sds
          && negb (busiest_has_capacity sds) then false
  else if max_load sds <=? this_load sds then true
  else if avg_load sds <=? this_load sds then true
  else if bool_decide (idle env = CPU_IDLE) then
    (this_idle_cpus sds <=? u32 (busiest_idle_cpus sds + 1))
    && (busiest_nr_running sds <=? busiest_group_weight sds)
  else ulong (100 * max_load sds) <=? ulong (imbalance_pct (get_sd s (lb_sd env)) * this_load sds).

(** Returns [*balance], [env->imbalance] and the group, if there is one. *)
Definition find_busiest_group env s : option (sys * bool * Z * option Z) :=
  '(s, balance, sds) ← update_sd_lb_stats env s;
  if negb balance then Some (s, false, 0, None)
  else
    match (if bool_decide (idle env = CPU_NOT_IDLE) then None else check_asym_packing env sds s) with
    | Some im => Some (s, true, im, busiest sds)
    | None =>
        if bool_decide (busiest sds = None) || (busiest_nr_running sds =? 0)
        then Some (s, true, 0, None)
        else
          avg ← udiv (ulong (SCHED_POWER_SCALE * total_load sds)) (total_pwr sds);
          let sds := sds <| avg_load := avg |> in
          if looks_balanced env sds s then Some (s, true, 0, None)
          else im ← calculate_imbalance env sds s; Some (s, true, im, busiest sds)
    end.

(** The busiest CPU so far and its scaled load. *)
Definition busiest_queue_step env (group : Z) s (best : option Z * Z) i : option (option Z * Z) :=
  let power := power_of s i in
  let cap := DIV_ROUND_CLOSEST power SCHED_POWER_SCALE in
  let cap := if cap =? 0 then fix_small_capacity (get_sd s (lb_sd env)) (get_sg s group) else cap in
  if negb (cpumask_test_cpu i (lb_cpus env)) then Some best
  else
    let wl := weighted_cpuload s i in
    if nonzero cap && (rq_nr_running (rqs s i) =? 1) && (ulong (imbalance env) <? wl) then Some best
    else
      wl ← udiv (ulong (wl * SCHED_POWER_SCALE)) power;
      Some (if best.2 <? wl then (Some i, wl) else best).

Definition find_busiest_queue env (group : Z) s : option (option Z) :=
  best ← foldM (busiest_queue_step env group s) (cpus_of (sched_group_cpus s group)) (None, 0);
  Some best.1.

(** * The idlest CPU *)

(** The idlest other group so far, its load, and the load of the local group. *)
Definition idlest_group_step s (p this_cpu load_idx : Z) (acc : option Z * Z * Z) (g : Z) :
    option (option Z * Z * Z) :=
  let '(idlest, min_load, this_load) := acc in
  if negb (cpumask_intersects (sched_group_cpus s g) (tsk_cpus_allowed s p)) then Some acc
  else
    let local_group := cpumask_test_cpu this_cpu (sched_group_cpus s g) in
    let load i := if local_group then source_load s i load_idx else target_load s i load_idx in
    let total := foldl (fun a i => ulong (a + load i)) 0 (cpus_of (sched_group_cpus s g)) in
    avg ← udiv (ulong (total * SCHED_POWER_SCALE)) (sg_power (get_sg s g));
    Some (if local_group then (idlest, min_load, avg)
          else if avg <? min_load then (Some g, avg, this_load) else acc).

Definition find_idlest_group s sd (p this_cpu load_idx : Z) : option (option Z) :=
  let d := get_sd s sd in
  let imb := s32 (100 + u32 (imbalance_pct d - 100) / 2) in
  '(idlest, min_load, this_load) ←
    foldM (idlest_group_step s p this_cpu load_idx) (sd_groups d) (None, ULONG_MAX, 0);
  Some (match idlest with
        | None => None
        | Some g => if ulong (100 * this_load) <? ulong (imb * min_load) then None else Some g
        end).

(** [-1] when the task may use no CPU of the group. *)
Definition idlest_cpu_step s (this_cpu : Z) (best : Z * Z) i : Z * Z :=
  let load := weighted_cpuload s i in
  if (load <? best.2) || ((load =? best.2) && (i =? this_cpu)) then (i, load) else best.

Definition find_idlest_cpu s (group p this_cpu : Z) : Z :=
  (foldl (idlest_cpu_step s this_cpu) (-1, ULONG_MAX)
     (cpus_of (cpumask_and (sched_group_cpus s group) (tsk_cpus_allowed s p)))).1.
End busiest.
