(* ===== verification/LoadBalance.v ===== *)
(** Load balancing ([kernel/sched/fair.c]): averages of blocked load, which tasks may be moved,
    moving tasks until the imbalance is gone, and [load_balance] with its retries.

    Run-queue locks are held as the code holds them around each step and not represented;
    functions run undisturbed.  CFS bandwidth control, which would add a test to
    [can_migrate_task], and the variants under CONFIG_MTK_SCHED_CMP and
    CONFIG_MT_LOAD_BALANCE_ENHANCEMENT are configured out. *)

From S2P Require Import Prelude Spinlock Pelt SchedTypes EntityLoad HmpDomain HmpSelect Cfs CpuLoad.
From S2P Require Import HmpMigration HmpEnh LoadStats.

Section balance.
Context `{Config}.
Implicit Types (s : sys) (cpu : Z) (sd : sd_ptr) (env : lb_env).

(** * Averages of blocked load and hierarchical load *)

Definition list_del_leaf_cfs_rq (q : cfs_id) s : sys :=
  if nonzero (on_list (cfss s q)) then
    let s := upd_rq (cfs_cpu (cfss s q))
               (fun r => r <| leaf_cfs_rq_list := filter (fun x => x <> q) (leaf_cfs_rq_list r) |>) s in
    upd_cfs q (fun c => c <| on_list := 0 |>) s
  else s.

Definition __update_blocked_averages_cpu (tg cpu : Z) s : sys :=
  let q := CfsRq tg cpu in
  let s := update_cfs_rq_blocked_load q true s in
  match tg_se tg cpu with
  | Some se =>
      let s := update_entity_load_avg se true s in
      if (runnable_avg_sum (se_avg (ses s se)) =? 0) && (cfs_nr_running (cfss s q) =? 0)
      then list_del_leaf_cfs_rq q s else s
  | None => update_rq_runnable_avg cpu (nonzero (rq_nr_running (rqs s cpu))) s
  end.

Definition update_blocked_averages cpu s : sys :=
  let s := update_rq_clock cpu s in
  foldl (fun s q => __update_blocked_averages_cpu (cfs_tg (cfss s q)) cpu s) s
    (leaf_cfs_rq_list (rqs s cpu)).

Definition tg_load_down (tg cpu : Z) s : option sys :=
  load ← (match tg_parent (tgs s tg) with
          | None => Some (rq_weight (rqs s cpu))
          | Some parent =>
              let pq := cfss s (CfsRq parent cpu) in
              udiv (ulong (h_load pq * se_weight (ses s (GroupSe tg cpu)))) (ulong (cfs_weight pq + 1))
          end);
  Some (upd_cfs (CfsRq tg cpu) (fun c => c <| h_load := load |>) s).

(** [walk_tg_tree(tg_load_down, tg_nop, ...)]: parents before children; the tree is no deeper
    than the number of groups. *)
Fixpoint walk_tg_tree (fuel : nat) (cpu tg : Z) s : option sys :=
  s ← tg_load_down tg cpu s;
  match fuel with
  | O => match tg_children (tgs s tg) with [] => Some s | _ => None end
  | S fuel => foldM (fun s tg => walk_tg_tree fuel cpu tg s) (tg_children (tgs s tg)) s
  end.

Definition update_h_load cpu s : option sys :=
  if h_load_throttle (rq_lb (rqs s cpu)) =? jiffies (bal s) then Some s
  else walk_tg_tree (nr_groups s) cpu 0
         (upd_rq_lb cpu (fun b => b <| h_load_throttle := jiffies (bal s) |>) s).

(** [div_u64] takes the divisor as a [u32]. *)
Definition task_h_load s (p : Z) : option Z :=
  let q := cfss s (cfs_rq_of s (TaskSe p)) in
  l ← udiv (ulong (se_weight (ses s (TaskSe p)) * h_load q)) (u32 (ulong (cfs_weight q + 1)));
  Some (ulong l).

(** * Moving tasks *)

Definition task_hot env s (p : Z) : bool :=
  let se := TaskSe p in
  let q := cfss s (cfs_rq_of s se) in
  let cost := sysctl_sched_migration_cost (sysctl s) in
  if policy (tasks s p) =? SCHED_IDLE then false
  else if CACHE_HOT_BUDDY (sysctl s) && nonzero (rq_nr_running (rqs s (lb_me env)))
          && (bool_decide (buddy_next q = Some se) || bool_decide (buddy_last q = Some se)) then true
  else if cost =? UINT_MAX then true
  else if cost =? 0 then false
  else s64 (clock_task (rqs s (src_cpu env)) - exec_start (ses s se)) <? cost.

Definition set_env_flag (bit : Z) env : lb_env := env <| lb_flags := Z.lor (lb_flags env) bit |>.
Definition clear_env_flag (bit : Z) env : lb_env := env <| lb_flags := Z.ldiff (lb_flags env) bit |>.

Definition can_migrate_task env (p : Z) s : lb_env * bool :=
  let allowed := tsk_cpus_allowed s p in
  if negb (cpumask_test_cpu (dst_cpu env) allowed) then
    match dst_grpmask env with
    | None => (env, false)
    | Some m =>
        if has_flag (lb_flags env) LBF_SOME_PINNED then (env, false)
        else
          match List.find (fun cpu => cpumask_test_cpu cpu allowed) (cpus_of (cpumask_and m (lb_cpus env))) with
          | Some cpu => (set_env_flag LBF_SOME_PINNED env <| new_dst_cpu := cpu |>, false)
          | None => (env, false)
          end
    end
  else
    let env := clear_env_flag LBF_ALL_PINNED env in
    if nonzero (on_cpu (tasks s p)) then (env, false)
    else
      let d := get_sd s (lb_sd env) in
      (env, negb (task_hot env s p) || (cache_nice_tries d <? nr_balance_failed d)).

(** The task and the environment when it is found. *)
Fixpoint first_migratable env (l : list Z) s : lb_env * option Z :=
  match l with
  | [] => (env, None)
  | p :: l =>
      let '(env, ok) := can_migrate_task env p s in
      if ok : bool then (env, Some p) else first_migratable env l s
  end.

Definition move_one_task env s : sys * bool :=
  match (first_migratable env (cfs_tasks (rqs s (src_cpu env))) s).2 with
  | Some p => (move_task p (src_cpu env) (dst_cpu env) s, true)
  | None => (s, false)
  end.

Definition sched_nr_migrate_break : Z := 32.

(** Whether [p], which comes first, is moved, and the load it counts for. *)
Definition should_move env (p : Z) s : option (lb_env * option Z) :=
  let '(env, ok) := can_migrate_task env p s in
  if negb ok then Some (env, None)
  else
    load ← task_h_load s p;
    if LB_MIN (sysctl s) && (load <? 16) && (nr_balance_failed (get_sd s (lb_sd env)) =? 0)
    then Some (env, None)
    else if ulong (imbalance env) <? load / 2 then Some (env, None)
    else Some (env, Some load).

(** [list_move_tail] of the first task. *)
Definition rotate_tasks cpu (p : Z) s : sys :=
  upd_rq cpu (fun r => r <| cfs_tasks := filter (fun x => x <> p) (cfs_tasks r) ++ [p] |>) s.

(** The loop of [move_tasks]; [None] also when the fuel does not suffice. *)
Fixpoint move_tasks_loop (fuel : nat) env (pulled : Z) s : option (sys * lb_env * Z) :=
  match cfs_tasks (rqs s (src_cpu env)) with
  | [] => Some (s, env, pulled)
  | p :: _ =>
      let env := env <| lb_loop := u32 (lb_loop env + 1) |> in
      if loop_max env <? lb_loop env then Some (s, env, pulled)
      else if loop_break env <? lb_loop env then
        Some (s, set_env_flag LBF_NEED_BREAK
                   (env <| loop_break := u32 (loop_break env + sched_nr_migrate_break) |>), pulled)
      else
        match fuel with
        | O => None
        | S fuel =>
            '(env, m) ← should_move env p s;
            match m with
            | None => move_tasks_loop fuel env pulled (rotate_tasks (src_cpu env) p s)
            | Some load =>
                let s := move_task p (src_cpu env) (dst_cpu env) s in
                let env := env <| imbalance := slong (imbalance env - load) |> in
                if (CONFIG_PREEMPT && bool_decide (idle env = CPU_NEWLY_IDLE)) || (imbalance env <=? 0)
                then Some (s, env, pulled + 1)
                else move_tasks_loop fuel env (pulled + 1) s
            end
        end
  end.

(** Every round counts towards [loop_max]. *)
Definition move_tasks env s : option (sys * lb_env * Z) :=
  if imbalance env <=? 0 then Some (s, env, 0)
  else move_tasks_loop (Z.to_nat (loop_max env - lb_loop env)) env 0 s.

(** * [load_balance] *)

Definition resched_cpu cpu s : sys := resched_curr cpu s.

(** From [more_balance] until all tasks of the source CPU have been looked at, also on behalf
    of other CPUs of the group. *)
Fixpoint more_balance (fuel : nat) env (ld_moved : Z) s : option (sys * lb_env * Z) :=
  '(s, env, cur) ← move_tasks env s;
  let ld_moved := s32 (ld_moved + cur) in
  let s := if nonzero cur && negb (dst_cpu env =? lb_me env) then resched_cpu (dst_cpu env) s else s in
  if has_flag (lb_flags env) LBF_NEED_BREAK then
    match fuel with
    | O => None
    | S fuel => more_balance fuel (clear_env_flag LBF_NEED_BREAK env) ld_moved s
    end
  else if has_flag (lb_flags env) LBF_SOME_PINNED && (0 <? imbalance env) then
    let env := clear_env_flag LBF_SOME_PINNED (env <| dst_cpu := new_dst_cpu env |>)
                 <| lb_loop := 0 |> <| loop_break := sched_nr_migrate_break |>
                 <| lb_cpus := cpumask_clear_cpu (new_dst_cpu env) (lb_cpus env) |> in
    match fuel with O => None | S fuel => more_balance fuel env ld_moved s end
  else Some (s, env, ld_moved).

(** At most one round per CPU of the mask and per task looked at. *)
Definition more_fuel env : nat :=
  Z.to_nat (cpumask_weight (lb_cpus env) * (loop_max env + 2) + (loop_max env + 1 - lb_loop env)).

(** The lazy-balance test: tasks stay on the buddy that packs them. *)
Definition lazy_avoid s (this_cpu busiest : Z) : bool :=
  CONFIG_HMP_LAZY_BALANCE
  && (negb CONFIG_HMP_POWER_AWARE_CONTROLLER
      || (nonzero (PA_ENABLE (enh s)) && nonzero (LB_ENABLE (enh s))))
  && (sd_pack_buddy (enh s) this_cpu =? busiest) && negb (Enh.is_buddy_busy s (sd_pack_buddy (enh s) this_cpu)).

(** How the search ends: [out_balanced], or with the busiest CPU and what was moved from it. *)
Inductive lb_result := OutBalanced | Unbalanced (busiest ld_moved : Z).

(** From [redo] on; the second result is [*balance].  It is repeated without a CPU all of
    whose tasks are pinned to it. *)
Fixpoint lb_redo (fuel : nat) (this_cpu : Z) env s : option (sys * bool * lb_env * lb_result) :=
  '(s, balance, im, group) ← find_busiest_group env s;
  let env := env <| imbalance := im |> in
  match group with
  | None => Some (s, balance, env, OutBalanced)
  | Some group =>
      q ← find_busiest_queue env group s;
      match q with
      | None => Some (s, balance, env, OutBalanced)
      | Some busiest =>
          if lazy_avoid s this_cpu busiest then Some (s, balance, env, OutBalanced)
          else if busiest =? dst_cpu env then None
          else if rq_nr_running (rqs s busiest) <=? 1 then Some (s, balance, env, Unbalanced busiest 0)
          else
            let env := set_env_flag LBF_ALL_PINNED env <| src_cpu := busiest |>
                         <| loop_max := Z.min (sysctl_sched_nr_migrate (sysctl s)) (rq_nr_running (rqs s busiest)) |> in
            s ← update_h_load busiest s;
            '(s, env, ld_moved) ← more_balance (more_fuel env) env 0 s;
            if has_flag (lb_flags env) LBF_ALL_PINNED then
              let env := env <| lb_cpus := cpumask_clear_cpu busiest (lb_cpus env) |> in
              if cpumask_empty (lb_cpus env) then Some (s, balance, env, OutBalanced)
              else
                match fuel with
                | O => None
                | S fuel => lb_redo fuel this_cpu
                              (env <| lb_loop := 0 |> <| loop_break := sched_nr_migrate_break |>) s
                end
            else Some (s, balance, env, Unbalanced busiest ld_moved)
      end
  end.

Definition need_active_balance env s : bool :=
  let d := get_sd s (lb_sd env) in
  (bool_decide (idle env = CPU_NEWLY_IDLE) && has_flag (sd_flags d) SD_ASYM_PACKING
   && (dst_cpu env <? src_cpu env))
  || (u32 (cache_nice_tries d + 2) <? nr_balance_failed d).

(** [cpumask_test_cpu(this_cpu, tsk_cpus_allowed(busiest->curr))]; an idle task is bound to its
    CPU. *)
Definition curr_may_use s (busiest this_cpu : Z) : bool :=
  cpumask_test_cpu this_cpu
    (match rq_curr (rqs s busiest) with
     | RunsFair p => tsk_cpus_allowed s p
     | RunsIdle => cpumask_of busiest
     | RunsHigher m => m
     end).

(** Queues [active_load_balance_cpu_stop] on the stopper of [busiest]. *)
Definition stop_busiest (busiest : Z) s : sys :=
  if stopper_enabled s busiest then
    s <| bal := (bal s) <| lb_stop_works := lb_stop_works (bal s) ++ [busiest] |> |>
  else if CONFIG_HMP_PACK_STOP_MACHINE then upd_rq busiest (fun r => r <| active_balance := 0 |>) s
  else s.

(** [out_one_pinned] on. *)
Definition tune_interval env s : sys :=
  let d := get_sd s (lb_sd env) in
  if (has_flag (lb_flags env) LBF_ALL_PINNED && (balance_interval d <? 512))
     || (balance_interval d <? max_interval d)
  then upd_sd (lb_sd env) (fun d => d <| balance_interval := u32 (balance_interval d * 2) |>) s
  else s.

(** After the search found [busiest], from the test of [ld_moved] on; returns [ld_moved]. *)
Definition lb_finish (this_cpu busiest ld_moved : Z) env s : sys * Z :=
  let sd := lb_sd env in
  let reset s := upd_sd sd (fun d => d <| balance_interval := u32 (min_interval d) |>) s in
  if nonzero ld_moved then
    (reset (upd_sd sd (fun d => d <| nr_balance_failed := 0 |>) s), ld_moved)
  else
    let s := if bool_decide (idle env = CPU_NEWLY_IDLE) then s
             else upd_sd sd (fun d => d <| nr_balance_failed := u32 (nr_balance_failed d + 1) |>) s in
    if negb (need_active_balance env s) then (reset s, 0)
    else if negb (curr_may_use s busiest this_cpu) then
      (tune_interval (set_env_flag LBF_ALL_PINNED env) s, 0)
    else
      let active := active_balance (rqs s busiest) =? 0 in
      let s := if active then
                 stop_busiest busiest
                   (upd_rq busiest (fun r => r <| active_balance := 1 |> <| push_cpu := this_cpu |>) s)
               else s in
      let s := upd_sd sd (fun d => d <| nr_balance_failed := u32 (cache_nice_tries d + 1) |>) s in
      (if active then
         upd_sd sd (fun d => if balance_interval d <? max_interval d
                             then d <| balance_interval := u32 (balance_interval d * 2) |> else d) s
       else reset s, 0).

(** [me] runs the code, for [this_cpu]; returns [*balance] and the number of tasks moved. *)
Definition load_balance (me this_cpu : Z) sd (why : cpu_idle_type) s : option (sys * bool * Z) :=
  g ← first_group (get_sd s sd);
  let env := {| lb_me := me; lb_sd := sd; src_cpu := 0; dst_cpu := this_cpu;
                dst_grpmask := if bool_decide (why = CPU_NEWLY_IDLE) then None
                               else Some (sched_group_cpus s g);
                new_dst_cpu := 0; idle := why; imbalance := 0; lb_cpus := cpu_active_mask (bal s);
                lb_flags := 0; lb_loop := 0; loop_break := sched_nr_migrate_break; loop_max := 0 |} in
  '(s, balance, env, r) ← lb_redo (Z.to_nat (cpumask_weight (lb_cpus env))) this_cpu env s;
  match r with
  | OutBalanced =>
      Some (tune_interval env (upd_sd sd (fun d => d <| nr_balance_failed := 0 |>) s), balance, 0)
  | Unbalanced busiest ld_moved =>
      let '(s, ld_moved) := lb_finish this_cpu busiest ld_moved env s in Some (s, balance, ld_moved)
  end.
End balance.
