(* ===== verification/Rebalance.v ===== *)
(** When balancing happens ([kernel/sched/fair.c]): the stopper that pushes a running task away,
    balancing as a CPU goes idle, periodic balancing in softirq context, balancing on behalf of
    CPUs whose tick is stopped, and the tick and IPI that start it ([kernel/sched/core.c]). *)

From S2P Require Import Prelude Spinlock Pelt SchedTypes EntityLoad HmpDomain HmpSelect Cfs CpuLoad.
From S2P Require Import HmpMigration HmpEnh LoadStats LoadBalance.

Section rebalance.
Context `{Config}.
Implicit Types (s : sys) (cpu this_cpu : Z) (sd : sd_ptr).

(** * Active balancing *)

(** [__do_active_load_balance_cpu_stop] with [check_sd_lb_flag]; [me] is the CPU of the
    stopper. *)
Definition active_load_balance_cpu_stop (busiest_cpu me : Z) s : option sys :=
  let r := rqs s busiest_cpu in
  let target_cpu := push_cpu r in
  let out s := upd_rq busiest_cpu (fun r => r <| active_balance := 0 |>) s in
  if negb (busiest_cpu =? me) || negb (nonzero (active_balance r)) then Some (out s)
  else if rq_nr_running r <=? 1 then Some (out s)
  else if busiest_cpu =? target_cpu then None
  else
    match List.find (fun sd => sd_has s sd SD_LOAD_BALANCE
                               && cpumask_test_cpu busiest_cpu (sd_span (get_sd s sd)))
            (domains_of s target_cpu) with
    | None => Some (out s)
    | Some sd =>
        let env := {| lb_me := me; lb_sd := sd; src_cpu := busiest_cpu; dst_cpu := target_cpu;
                      dst_grpmask := None; new_dst_cpu := 0; idle := CPU_IDLE; imbalance := 0;
                      lb_cpus := 0; lb_flags := 0; lb_loop := 0; loop_break := 0; loop_max := 0 |} in
        Some (out (move_one_task env s).1)
    end.

(** * Going idle *)

Definition hmp_pull this_cpu s : option (sys * bool) :=
  if CONFIG_SCHED_HMP_ENHANCEMENT then Enh.hmp_idle_pull this_cpu s else hmp_idle_pull this_cpu s.

(** The loop of [idle_balance]; returns [next_balance] and [pulled_task]. *)
Fixpoint newidle_domains this_cpu (l : list sd_ptr) (next : Z) s : option (sys * Z * Z) :=
  match l with
  | [] => Some (s, next, 0)
  | sd :: l =>
      if negb (sd_has s sd SD_LOAD_BALANCE) then newidle_domains this_cpu l next s
      else
        '(s, pulled) ←
          (if sd_has s sd SD_BALANCE_NEWIDLE then
             '(s, _, n) ← load_balance this_cpu this_cpu sd CPU_NEWLY_IDLE s; Some (s, n)
           else Some (s, 0));
        let d := get_sd s sd in
        let due := ulong (last_balance d + msecs_to_jiffies (balance_interval d)) in
        let next := if time_after next due then due else next in
        if nonzero pulled then Some (upd_rq_lb this_cpu (fun b => b <| idle_stamp := 0 |>) s, next, pulled)
        else newidle_domains this_cpu l next s
  end.

(** [idle_balance] *)
Definition idle_balance_cpu this_cpu s : option sys :=
  let s := upd_rq_lb this_cpu (fun b => b <| idle_stamp := rq_clock (rqs s this_cpu) |>) s in
  if avg_idle (rq_lb (rqs s this_cpu)) <? sysctl_sched_migration_cost (sysctl s) then Some s
  else
    let start := ulong (jiffies (bal s) + HZ) in
    let s := update_blocked_averages this_cpu s in
    '(s, next, pulled) ← newidle_domains this_cpu (domains_of s this_cpu) start s;
    '(s, pulled) ← (if CONFIG_HMP_DELAY_UP_MIGRATION && negb (nonzero pulled) then hmp_pull this_cpu s
                    else Some (s, nonzero pulled));
    if pulled || time_after (jiffies (bal s)) (next_balance (rq_lb (rqs s this_cpu)))
    then Some (upd_rq_lb this_cpu (fun b => b <| next_balance := next |>) s) else Some s.

(** * Periodic balancing *)

Definition update_max_interval s : sys :=
  s <| bal := (bal s) <| max_load_balance_interval := ulong (HZ * cpumask_weight (cpu_online_mask s)) / 10 |> |>.

Definition upd_balancing (l : arch_spinlock) s : sys := s <| bal := (bal s) <| balancing := l |> |>.

(** One domain is due: balance it. *)
Definition balance_domain (me cpu : Z) sd (why : cpu_idle_type) (interval : Z) s :
    option (sys * bool * cpu_idle_type) :=
  if time_after_eq (jiffies (bal s)) (ulong (last_balance (get_sd s sd) + interval)) then
    '(s, balance, moved) ← load_balance me cpu sd why s;
    let why := if nonzero moved then if idle_cpu s cpu then CPU_IDLE else CPU_NOT_IDLE else why in
    Some (upd_sd sd (fun d => d <| last_balance := jiffies (bal s) |>) s, balance, why)
  else Some (s, true, why).

(** The same, under the lock that serializes domains, which is not waited for. *)
Definition rebalance_one (me cpu : Z) sd (why : cpu_idle_type) (interval : Z) s :
    option (sys * bool * cpu_idle_type) :=
  if sd_has s sd SD_SERIALIZE then
    let '(lock, got) := arch_spin_trylock (balancing (bal s)) in
    if got then
      '(s, balance, why) ← balance_domain me cpu sd why interval (upd_balancing lock s);
      Some (upd_balancing (arch_spin_unlock (balancing (bal s))) s, balance, why)
    else Some (s, true, why)
  else balance_domain me cpu sd why interval s.

(** The loop of [rebalance_domains]; returns [next_balance], if it was updated. *)
Fixpoint rebalance_loop (me cpu : Z) (l : list sd_ptr) (why : cpu_idle_type) (next : Z) (updated : bool) s :
    option (sys * Z * bool) :=
  match l with
  | [] => Some (s, next, updated)
  | sd :: l =>
      if negb (sd_has s sd SD_LOAD_BALANCE) then rebalance_loop me cpu l why next updated s
      else
        let d := get_sd s sd in
        let interval := if bool_decide (why = CPU_IDLE) then balance_interval d
                        else ulong (balance_interval d * busy_factor d) in
        let interval := clamp (msecs_to_jiffies (u32 interval)) 1 (max_load_balance_interval (bal s)) in
        '(s, balance, why) ← rebalance_one me cpu sd why interval s;
        let due := ulong (last_balance (get_sd s sd) + interval) in
        let '(next, updated) := if time_after next due then (due, true) else (next, updated) in
        if negb balance then Some (s, next, updated)
        else rebalance_loop me cpu l why next updated s
  end.

Definition rebalance_domains (me cpu : Z) (why : cpu_idle_type) s : option sys :=
  let start := ulong (jiffies (bal s) + 60 * HZ) in
  let s := update_blocked_averages cpu s in
  '(s, next, updated) ← rebalance_loop me cpu (domains_of s cpu) why start false s;
  Some (if updated : bool then upd_rq_lb cpu (fun b => b <| next_balance := next |>) s else s).

(** * CPUs without a tick *)

Definition upd_bal (f : balance_state -> balance_state) s : sys := s <| bal := f (bal s) |>.

Definition hmp_packing_ilb_needed (cpu : Z) (ilb_needed : bool) s : bool :=
  if negb (hmp_cpu_is_slowest cpu s) then ilb_needed
  else if hmp_packing_enabled (tun s) =? 0 then ilb_needed
  else existsb (fun c => hmp_full_threshold (tun s) <? load_avg_ratio (rq_avg (rqs s c)))
         (cpus_of (cpumask_and (hd_cpus (domains s (hmp_cpu_domain s cpu))) (nohz_idle_cpus_mask s))).

Definition hmp_cpus s cpu : cpumask := hd_cpus (domains s (hmp_cpu_domain s cpu)).

(** The idle CPU nearest to the pack buddy, by its domains. *)
Definition ilb_near_buddy s (buddy start : Z) : Z :=
  (foldl (fun (ilb : Z * bool) sd =>
            if ilb.2 || sd_has s sd SD_SHARE_CPUPOWER then ilb
            else let c := cpumask_any_and (sd_span (get_sd s sd)) (nohz_idle_cpus_mask s) in
                 (c, c <? nr_cpu_ids s))
     (start, false) (domains_of s buddy)).1.

Definition idle_ilb s (ilb : Z) : bool := (ilb <? nr_cpu_ids s) && idle_cpu s ilb.

Definition find_new_ilb (call_cpu : Z) s : Z :=
  let buddy := sd_pack_buddy (enh s) call_cpu in
  let ilb := cpumask_first (nohz_idle_cpus_mask s) in
  if CONFIG_HMP_PACK_SMALL_TASK && CONFIG_HMP_POWER_AWARE_CONTROLLER then
    let ilb_new := if nonzero (PA_ENABLE (enh s)) && negb (buddy =? -1)
                   then ilb_near_buddy s buddy (nr_cpu_ids s) else nr_cpu_ids s in
    if idle_ilb s ilb_new then ilb_new else if idle_ilb s ilb then ilb else nr_cpu_ids s
  else if CONFIG_HMP_PACK_SMALL_TASK then
    let ilb := if buddy =? -1 then ilb else ilb_near_buddy s buddy ilb in
    if idle_ilb s ilb then ilb else nr_cpu_ids s
  else
    let ilb := cpumask_any_and (nohz_idle_cpus_mask s) (hmp_cpus s call_cpu) in
    let busy := Z.ldiff (hmp_cpus s call_cpu) (nohz_idle_cpus_mask s) in
    let ilb_needed := existsb (fun cpu => 1 <? rq_nr_running (rqs s cpu)) (cpus_of busy) in
    let ilb_needed := if CONFIG_SCHED_HMP_LITTLE_PACKING && (ilb <? nr_cpu_ids s)
                      then hmp_packing_ilb_needed ilb ilb_needed s else ilb_needed in
    if ilb_needed && idle_ilb s ilb then ilb else nr_cpu_ids s.

Definition nohz_balancer_kick cpu s : sys :=
  let s := upd_bal (fun b => b <| nohz_next_balance := ulong (nohz_next_balance b + 1) |>) s in
  let ilb_cpu := find_new_ilb cpu s in
  if nr_cpu_ids s <=? ilb_cpu then s
  else if nohz_balance_kick (rq_lb (rqs s ilb_cpu)) then s
  else upd_rq_lb ilb_cpu (fun b => b <| nohz_balance_kick := true |>) s
         <| resched_ipis := ilb_cpu :: resched_ipis s |>.

Definition nohz_balance_exit_idle cpu s : sys :=
  if nohz_tick_stopped (rq_lb (rqs s cpu)) then
    let s := s <| nohz_idle_cpus_mask := cpumask_clear_cpu cpu (nohz_idle_cpus_mask s) |> in
    let s := upd_bal (fun b => b <| nohz_nr_cpus := s32 (nohz_nr_cpus b - 1) |>) s in
    upd_rq_lb cpu (fun b => b <| nohz_tick_stopped := false |>) s
  else s.

Definition nohz_balance_enter_idle cpu s : sys :=
  if negb (cpumask_test_cpu cpu (cpu_active_mask (bal s))) then s
  else if nohz_tick_stopped (rq_lb (rqs s cpu)) then s
  else
    let s := s <| nohz_idle_cpus_mask := cpumask_set_cpu cpu (nohz_idle_cpus_mask s) |> in
    let s := upd_bal (fun b => b <| nohz_nr_cpus := s32 (nohz_nr_cpus b + 1) |>) s in
    upd_rq_lb cpu (fun b => b <| nohz_tick_stopped := true |>) s.

(** [atomic_inc] and [atomic_dec] of the busy count of the CPU's group, at every level. *)
Definition count_busy cpu (n : Z) s : sys :=
  foldl (fun s sd =>
           match first_group (get_sd s sd) with
           | Some g => upd_sg g (fun x => x <| nr_busy_cpus := s32 (nr_busy_cpus x + n) |>) s
           | None => s
           end) s (domains_of s cpu).

Definition set_cpu_sd_state_busy cpu s : sys :=
  match rq_sd (rqs s cpu) with
  | [] => s
  | d :: _ =>
      if nohz_idle d =? 0 then s
      else count_busy cpu 1 (upd_sd (cpu, O) (fun d => d <| nohz_idle := 0 |>) s)
  end.

Definition set_cpu_sd_state_idle cpu s : sys :=
  match rq_sd (rqs s cpu) with
  | [] => s
  | d :: _ =>
      if nonzero (nohz_idle d) then s
      else count_busy cpu (-1) (upd_sd (cpu, O) (fun d => d <| nohz_idle := 1 |>) s)
  end.

(** [CPU_DYING], on the CPU itself. *)
Definition sched_ilb_notifier cpu (dying : bool) s : sys :=
  if dying then nohz_balance_exit_idle cpu s else s.

(** The loop of [nohz_idle_balance], until this CPU is to reschedule. *)
Fixpoint nohz_balance_cpus this_cpu (l : list Z) s : option sys :=
  match l with
  | [] => Some s
  | c :: l =>
      if (c =? this_cpu) || negb (idle_cpu s c) then nohz_balance_cpus this_cpu l s
      else if need_resched (rqs s this_cpu) then Some s
      else
        s ← update_idle_cpu_load c (update_rq_clock c s);
        s ← rebalance_domains this_cpu c CPU_IDLE s;
        let next := next_balance (rq_lb (rqs s c)) in
        let s := if time_after (next_balance (rq_lb (rqs s this_cpu))) next
                 then upd_rq_lb this_cpu (fun b => b <| next_balance := next |>) s else s in
        nohz_balance_cpus this_cpu l s
  end.

Definition nohz_idle_balance this_cpu (why : cpu_idle_type) s : option sys :=
  s ← (if bool_decide (why = CPU_IDLE) && nohz_balance_kick (rq_lb (rqs s this_cpu)) then
         s ← nohz_balance_cpus this_cpu (cpus_of (nohz_idle_cpus_mask s)) s;
         Some (upd_bal (fun b => b <| nohz_next_balance := next_balance (rq_lb (rqs s this_cpu)) |>) s)
       else Some s);
  Some (upd_rq_lb this_cpu (fun b => b <| nohz_balance_kick := false |>) s).

(** Whether some level asks for a kick; levels above those that share caches are not looked at. *)
Fixpoint kick_by_domain s cpu (l : list sd_ptr) : bool :=
  match l with
  | [] => false
  | sd :: l =>
      match first_group (get_sd s sd) with
      | None => false
      | Some g =>
          let nr_busy := nr_busy_cpus (get_sg s g) in
          let pkg := sd_has s sd SD_SHARE_PKG_RESOURCES in
          let asym := sd_has s sd SD_ASYM_PACKING in
          if pkg && (1 <? nr_busy) then true
          else if asym && negb (nr_busy =? group_weight (get_sg s g))
                  && (cpumask_any_and (nohz_idle_cpus_mask s) (sd_span (get_sd s sd)) <? cpu) then true
          else if negb pkg && negb asym then false
          else kick_by_domain s cpu l
      end
  end.

Definition nohz_kick_needed cpu s : sys * bool :=
  if idle_cpu s cpu then (s, false)
  else
    let s := nohz_balance_exit_idle cpu (set_cpu_sd_state_busy cpu s) in
    (s, if nohz_nr_cpus (bal s) =? 0 then false
        else if time_before (jiffies (bal s)) (nohz_next_balance (bal s)) then false
        else if nr_cpu_ids s <=? cpumask_any_and (nohz_idle_cpus_mask s) (hmp_cpus s cpu) then false
        else if 2 <=? rq_nr_running (rqs s cpu) then true
        else kick_by_domain s cpu (domains_of s cpu)).

(** * Softirq, tick and IPI *)

(** The HMP part comes first; idle pull may make it all. *)
Definition sched_softirq_action this_cpu s : option sys :=
  let why := if nonzero (idle_balance (rqs s this_cpu)) then CPU_IDLE else CPU_NOT_IDLE in
  '(s, go_on) ← (if CONFIG_SCHED_HMP_ENHANCEMENT then Enh.run_rebalance_domains this_cpu s
                 else run_rebalance_domains this_cpu s);
  if go_on : bool then
    s ← rebalance_domains this_cpu this_cpu why s;
    nohz_idle_balance this_cpu why s
  else Some s.

Definition raise_sched_softirq cpu s : sys := upd_rq_lb cpu (fun b => b <| sched_softirq := true |>) s.

Definition trigger_load_balance cpu s : sys :=
  let null := match rq_sd (rqs s cpu) with [] => true | _ => false end in
  let s := if time_after_eq (jiffies (bal s)) (next_balance (rq_lb (rqs s cpu))) && negb null
           then raise_sched_softirq cpu s else s in
  let '(s, kick) := nohz_kick_needed cpu s in
  if kick && negb null then nohz_balancer_kick cpu s else s.

(** [curr] is the task that runs, when it is a fair one; ticks of other classes do not touch
    what is modelled. *)
Definition scheduler_tick cpu s : option sys :=
  s ← update_cpu_load_active cpu (update_rq_clock cpu s);
  s ← match rq_curr (rqs s cpu) with RunsFair p => task_tick_fair cpu p s | _ => Some s end;
  let s := upd_rq cpu (fun r => r <| idle_balance := b2z (idle_cpu s cpu) |>) s in
  Some (trigger_load_balance cpu s).

Definition got_nohz_idle_kick cpu s : sys * bool :=
  if negb (nohz_balance_kick (rq_lb (rqs s cpu))) then (s, false)
  else if idle_cpu s cpu && negb (need_resched (rqs s cpu)) then (s, true)
  else (upd_rq_lb cpu (fun b => b <| nohz_balance_kick := false |>) s, false).
End rebalance.
