(* ===== verification/SelectRq.v ===== *)
(** Choosing a CPU for a task that wakes, is forked or calls exec ([kernel/sched/fair.c],
    [effective_load] to [select_idle_sibling], [select_task_rq_fair]), with the packing of small
    tasks ([update_packing_domain], [check_pack_buddy]), and waking a task
    ([kernel/sched/core.c], [select_fallback_rq] to [try_to_wake_up], and [scheduler_ipi]).

    [me] is [smp_processor_id()] and [me_task] is [current].  [None] stands for a division by zero,
    a NULL pointer, [BUG()], or a loop that does not end. *)

From S2P Require Import Prelude Spinlock Pelt SchedTypes EntityLoad HmpDomain HmpSelect Cfs CpuLoad.
From S2P Require Import HmpMigration HmpEnh LoadStats LoadBalance Rebalance.

Definition WF_SYNC : Z := 1.
Definition WF_MIGRATED : Z := 4.

Section select.
Context `{Config}.
Implicit Types (s : sys) (p cpu me : Z) (sd : sd_ptr).

(** * Packing small tasks *)

(** The highest level that has the flag, with all levels below it. *)
Fixpoint highest_flag (flag : Z) (l : list sched_domain) : nat :=
  match l with d :: l => if has_flag (sd_flags d) flag then S (highest_flag flag l) else O | [] => O end.
Definition highest_flag_domain s cpu (flag : Z) : option nat :=
  match highest_flag flag (rq_sd (rqs s cpu)) with O => None | S l => Some l end.

(** The ring of groups from the group after [g] on, without [g]. *)
Fixpoint split_ring (g : Z) (l : list Z) : list Z * list Z :=
  match l with
  | [] => ([], [])
  | x :: l => if x =? g then ([], l) else let '(a, b) := split_ring g l in (x :: a, b)
  end.
Definition ring_after (g : Z) (l : list Z) : list Z := let '(a, b) := split_ring g l in b ++ a.

(** The last group with less power per CPU than [sg]. *)
Definition pack_group s (sg : Z) (l : list Z) : Z :=
  foldl (fun pack tmp =>
           if u32 (sg_power (get_sg s tmp) * group_weight (get_sg s sg))
              <? u32 (sg_power (get_sg s sg) * group_weight (get_sg s tmp)) then tmp else pack) sg l.

(** The loop of [update_packing_domain] from level [l] up; [id] is the candidate. *)
Fixpoint packing_loop (fuel : nat) s cpu (l : nat) (id : Z) : Z :=
  match fuel, rq_sd (rqs s cpu) !! l with
  | S fuel, Some d =>
      let id := if id =? -1 then cpumask_first (sd_span d) else id in
      let sg := match List.find (fun g => cpumask_test_cpu id (sched_group_cpus s g)) (sd_groups d) with
                | Some g => g | None => List.hd 0 (sd_groups d) end in
      let pack := if has_flag (sd_flags d) SD_LOAD_BALANCE then sg
                  else pack_group s sg (ring_after sg (sd_groups d)) in
      let id := if pack =? sg then id else cpumask_first (sched_group_cpus s pack) in
      let stop := match rq_sd (rqs s cpu) !! S l with
                  | Some parent => has_flag (sd_flags parent) SD_LOAD_BALANCE | None => false end in
      if negb (id =? cpu) || stop then id else packing_loop fuel s cpu (S l) id
  | _, _ => id
  end.

Definition update_packing_domain cpu s : sys :=
  let n := length (rq_sd (rqs s cpu)) in
  let start :=
    match highest_flag_domain s cpu SD_SHARE_POWERLINE with
    | None => O
    | Some l => if (cpumask_first (sd_span (get_sd s (cpu, l))) =? cpu) || Nat.eqb (S l) n then S l else l
    end in
  let id := packing_loop n s cpu start (-1) in
  s <| enh := (enh s) <| sd_pack_buddy := <[cpu := id]> (sd_pack_buddy (enh s)) |> |>.

Definition check_pack_buddy s cpu p : bool :=
  let a := se_avg (ses s (TaskSe p)) in
  if (NR_CPUS <=? cpu) || (cpu <? 0) then false
  else
    let buddy := sd_pack_buddy (enh s) cpu in
    if buddy =? -1 then false
    else if (buddy =? cpu) && (u32 (Z.shiftl (usage_avg_sum a) 3) <? u32 (runnable_avg_sum a * 5)) then false
    else if negb (cpumask_test_cpu buddy (tsk_cpus_allowed s p)) then false
    else negb (negb (Enh.is_light_task s p) || Enh.is_buddy_busy s buddy).

(** * Waking near the waker *)

(** One level: [w * tg->shares] and the quotient are unsigned. *)
Definition effective_step s (acc : option (Z * Z)) (se : se_id) : option (Z * Z) :=
  '(wl, wg) ← acc;
  q ← my_q (ses s se);
  let tg := cfs_tg (cfss s q) in
  let W := slong (wg + calc_tg_weight tg q s) in
  let w := slong (cfs_weight (cfss s q) + wl) in
  let wl := if (0 <? W) && (w <? W) then slong (ulong (w * shares (tgs s tg)) / W)
            else slong (shares (tgs s tg)) in
  let wl := if ulong wl <? MIN_SHARES then MIN_SHARES else wl in
  Some (slong (wl - se_weight (ses s se)), 0).

Definition effective_load s (tg cpu wl wg : Z) : option Z :=
  match tg_parent (tgs s tg), tg_se tg cpu with
  | Some _, Some se =>
      '(wl, _) ← foldl (effective_step s) (Some (wl, wg)) (for_each_sched_entity s se); Some wl
  | _, _ => Some wl
  end.

(** The sum of an [s64] and an [unsigned long] as C compares it with an [unsigned long]. *)
Definition s64_plus_ulong (z : Z) : Z := if BITS_PER_LONG =? 64 then u64 z else s64 z.

Definition wake_affine s sd p me (me_task : Z) (sync : bool) : option bool :=
  let d := get_sd s sd in
  let idx := wake_idx d in
  let prev_cpu := task_cpu (tasks s p) in
  let load := s64 (source_load s prev_cpu idx) in
  let this_load := s64 (target_load s me idx) in
  '(load, this_load) ←
    (if sync then
       let tg := sched_task_group (tasks s me_task) in
       let weight := se_weight (ses s (TaskSe me_task)) in
       a ← effective_load s tg me (slong (- weight)) (slong (- weight));
       b ← effective_load s tg prev_cpu 0 (slong (- weight));
       Some (s64 (load + b), s64 (this_load + a))
     else Some (load, this_load));
  let tg := sched_task_group (tasks s p) in
  let weight := slong (se_weight (ses s (TaskSe p))) in
  balanced ←
    (if 0 <? this_load then
       a ← effective_load s tg me weight weight;
       b ← effective_load s tg prev_cpu 0 weight;
       let this_eff := s64 (s64 (100 * power_of s prev_cpu) * s64 (this_load + a)) in
       let prev_eff := s64 (s64 ((100 + u32 (imbalance_pct d - 100) / 2) * power_of s me) * s64 (load + b)) in
       Some (this_eff <=? prev_eff)
     else Some true);
  Some (balanced
        || ((this_load <=? load)
            && (s64_plus_ulong (this_load + target_load s prev_cpu idx) <=? cpu_avg_load_per_task s me))).

(** A group all of whose CPUs are idle, for [select_idle_sibling]. *)
Definition idle_group s p (target g : Z) : bool :=
  cpumask_intersects (sched_group_cpus s g) (tsk_cpus_allowed s p)
  && forallb (fun i => negb (i =? target) && idle_cpu s i) (cpus_of (sched_group_cpus s g)).

(** [for_each_lower_domain] from level [l] down. *)
Fixpoint lower_domains s p (target : Z) (l : nat) : Z :=
  match List.find (idle_group s p target) (sd_groups (get_sd s (target, l))) with
  | Some g => cpumask_any_and (sched_group_cpus s g) (tsk_cpus_allowed s p)
  | None => match l with O => target | S l => lower_domains s p target l end
  end.

Definition select_idle_sibling s p (target : Z) : Z :=
  let i := task_cpu (tasks s p) in
  if idle_cpu s target then target
  else if negb (i =? target) && cpus_share_cache s i target && idle_cpu s i then i
  else match sd_llc (rq_lb (rqs s target)) with
       | None => target
       | Some l => lower_domains s p target l
       end.

(** * [select_task_rq_fair] *)

(** The first loop over the domains: [affine_sd], or [sd]. *)
Fixpoint scan_domains s (sd_flag prev_cpu : Z) (want_affine : bool) (l : list sd_ptr) (sd : option sd_ptr) :
    sd_ptr + option sd_ptr :=
  match l with
  | [] => inr sd
  | tmp :: l =>
      let d := get_sd s tmp in
      if negb (has_flag (sd_flags d) SD_LOAD_BALANCE) then scan_domains s sd_flag prev_cpu want_affine l sd
      else if want_affine && has_flag (sd_flags d) SD_WAKE_AFFINE && cpumask_test_cpu prev_cpu (sd_span d)
      then inl tmp
      else scan_domains s sd_flag prev_cpu want_affine l
             (if has_flag (sd_flags d) sd_flag then Some tmp else sd)
  end.

(** The domain of [cpu] below one of [weight] CPUs from which to go on. *)
Fixpoint below_weight s (sd_flag weight : Z) (l : list sd_ptr) (sd : option sd_ptr) : option sd_ptr :=
  match l with
  | [] => sd
  | tmp :: l =>
      let d := get_sd s tmp in
      if weight <=? span_weight d then sd
      else below_weight s sd_flag weight l (if has_flag (sd_flags d) sd_flag then Some tmp else sd)
  end.

(** [while (sd)]; [None] also when the fuel does not suffice. *)
Fixpoint idlest_loop (fuel : nat) s p (sd_flag cpu new_cpu : Z) (sd : option sd_ptr) : option Z :=
  match sd, fuel with
  | None, _ => Some new_cpu
  | Some _, O => None
  | Some sd, S fuel =>
      let d := get_sd s sd in
      if negb (has_flag (sd_flags d) sd_flag) then idlest_loop fuel s p sd_flag cpu new_cpu (sd_child sd)
      else
        let load_idx := if has_flag sd_flag SD_BALANCE_WAKE then wake_idx d else forkexec_idx d in
        g ← find_idlest_group s sd p cpu load_idx;
        match g with
        | None => idlest_loop fuel s p sd_flag cpu new_cpu (sd_child sd)
        | Some g =>
            let new_cpu := find_idlest_cpu s g p cpu in
            if (new_cpu =? -1) || (new_cpu =? cpu)
            then idlest_loop fuel s p sd_flag cpu new_cpu (sd_child sd)
            else idlest_loop fuel s p sd_flag new_cpu new_cpu
                   (below_weight s sd_flag (span_weight d) (domains_of s new_cpu) None)
        end
  end.

(** Levels go down, or the weight of the domain does. *)
Definition idlest_fuel s (sd : option sd_ptr) : nat :=
  match sd with
  | None => O
  | Some sd => (Z.to_nat (span_weight (get_sd s sd) + 1) * S (foldr (fun c n => Nat.max (length (rq_sd (rqs s c))) n) O cpu_ids))%nat
  end.

(** What the middle part, common to all variants, chooses. *)
Definition select_cfs_cpu s p (sd_flag me me_task new_cpu : Z) (sync : bool) : option Z :=
  let prev_cpu := task_cpu (tasks s p) in
  let wake := has_flag sd_flag SD_BALANCE_WAKE in
  let want_affine := wake && cpumask_test_cpu me (tsk_cpus_allowed s p) in
  let new_cpu := if wake then prev_cpu else new_cpu in
  match scan_domains s sd_flag prev_cpu want_affine (domains_of s me) None with
  | inl affine_sd =>
      pull ← (if me =? prev_cpu then Some false else wake_affine s affine_sd p me me_task sync);
      Some (select_idle_sibling s p (if pull : bool then me else prev_cpu))
  | inr sd => idlest_loop (idlest_fuel s sd) s p sd_flag me new_cpu sd
  end.

Definition select_task_rq_fair p (sd_flag wake_flags me me_task : Z) s : option (sys * Z) :=
  if nr_cpus_allowed (tasks s p) =? 1 then Some (s, task_cpu (tasks s p))
  else if CONFIG_HMP_PACK_SMALL_TASK && check_pack_buddy s me p
          && (negb CONFIG_HMP_POWER_AWARE_CONTROLLER || nonzero (PA_ENABLE (enh s)))
  then Some (s, sd_pack_buddy (enh s) me)
  else
    let '(s, r) := hmp_fork_balance p me (has_flag sd_flag Enh.SD_BALANCE_FORK) s in
    match r with
    | inl new_cpu => Some (s, new_cpu)
    | inr new_cpu =>
        new_cpu ← select_cfs_cpu s p sd_flag me me_task new_cpu (has_flag wake_flags WF_SYNC);
        if CONFIG_SCHED_HMP_ENHANCEMENT
        then Enh.hmp_select_task_rq_fair sd_flag p (task_cpu (tasks s p)) new_cpu s
        else Some (hmp_wakeup_select p new_cpu s)
    end.

(** * Waking a task *)

(** CPUs a task may be put on when the choice is not allowed. *)
Definition usable s p cpu : bool :=
  cpumask_test_cpu cpu (cpu_online_mask s) && cpumask_test_cpu cpu (cpu_active_mask (bal s))
  && cpumask_test_cpu cpu (tsk_cpus_allowed s p).

Definition do_set_cpus_allowed p (m : cpumask) s : sys :=
  upd_task p (fun t => t <| cpus_allowed := m |> <| nr_cpus_allowed := cpumask_weight m |>) s.

(** Without NUMA the node of every CPU has all online CPUs, so the first loop sees the same CPUs
    as the second.  [cpuset_cpus] are the CPUs of the task's cpuset, [possible] all of them. *)
Definition select_fallback_rq p (cpuset_cpus possible : cpumask) s : option (sys * Z) :=
  match List.find (usable s p) cpu_ids with
  | Some c => Some (s, c)
  | None =>
      let s := do_set_cpus_allowed p cpuset_cpus s in
      match List.find (usable s p) cpu_ids with
      | Some c => Some (s, c)
      | None =>
          let s := do_set_cpus_allowed p possible s in
          c ← List.find (usable s p) cpu_ids; Some (s, c)
      end
  end.

Definition select_task_rq p (sd_flags wake_flags me me_task : Z) (cpuset_cpus possible : cpumask) s :
    option (sys * Z) :=
  '(s, cpu) ← select_task_rq_fair p sd_flags wake_flags me me_task s;
  if negb (cpumask_test_cpu cpu (tsk_cpus_allowed s p)) || negb (cpumask_test_cpu cpu (cpu_online_mask s))
  then select_fallback_rq p cpuset_cpus possible s else Some (s, cpu).

(** [ttwu_activate] and [ttwu_do_wakeup]; workqueues and [nr_uninterruptible] are left out. *)
Definition ttwu_do_wakeup cpu p (wake_flags : Z) s : sys :=
  let s := check_preempt_curr cpu p wake_flags s in
  let s := upd_task p (fun t => t <| task_state := 0 |>) s in
  let r := rqs s cpu in
  if nonzero (idle_stamp (rq_lb r)) then
    let delta := u64 (rq_clock r - idle_stamp (rq_lb r)) in
    let max := u64 (u32 (2 * sysctl_sched_migration_cost (sysctl s))) in
    upd_rq_lb cpu (fun b => b <| avg_idle := if max <? delta then max
                                              else u64 (avg_idle b + Z.shiftr (s64 (delta - avg_idle b)) 3) |>
                              <| idle_stamp := 0 |>) s
  else s.

Definition ttwu_do_activate cpu p (wake_flags : Z) s : sys :=
  ttwu_do_wakeup cpu p wake_flags (activate_task cpu p (Z.lor ENQUEUE_WAKEUP ENQUEUE_WAKING) s).

Definition ttwu_queue (ttwu_queue_feat : bool) cpu p me s : sys :=
  if ttwu_queue_feat && negb (cpus_share_cache s me cpu) then
    let was := wake_list (rq_lb (rqs s cpu)) in
    let s := upd_rq_lb cpu (fun b => b <| wake_list := p :: wake_list b |>) s in
    match was with [] => s <| resched_ipis := cpu :: resched_ipis s |> | _ => s end
  else ttwu_do_activate cpu p 0 s.

Definition TASK_WAKING : Z := 256.

(** The task is not running any more ([on_cpu] has been waited for). *)
Definition try_to_wake_up (feat : bool) p (state wake_flags me me_task : Z) (cpuset_cpus possible : cpumask) s :
    option (sys * bool) :=
  if Z.land (task_state (tasks s p)) state =? 0 then Some (s, false)
  else if nonzero (on_rq (ses s (TaskSe p))) then
    Some (ttwu_do_wakeup (task_cpu (tasks s p)) p wake_flags s, true)
  else
    let s := upd_task p (fun t => t <| task_state := TASK_WAKING |>) s in
    let s := task_waking_fair p s in
    '(s, cpu) ← select_task_rq p SD_BALANCE_WAKE wake_flags me me_task cpuset_cpus possible s;
    let s := if task_cpu (tasks s p) =? cpu then s else set_task_cpu p cpu s in
    Some (ttwu_queue feat cpu p me s, true).

(** * The reschedule IPI *)

Definition sched_ttwu_pending cpu s : sys :=
  let l := wake_list (rq_lb (rqs s cpu)) in
  let s := upd_rq_lb cpu (fun b => b <| wake_list := [] |>) s in
  foldl (fun s p => ttwu_do_activate cpu p 0 s) s l.

(** The two tests of [wake_for_idle_pull] are under a misspelt option, so they are not compiled. *)
Definition scheduler_ipi cpu s : sys :=
  let '(s, kicked) :=
    match wake_list (rq_lb (rqs s cpu)) with [] => got_nohz_idle_kick cpu s | _ => (s, true) end in
  if negb kicked then s
  else
    let s := sched_ttwu_pending cpu s in
    let '(s, kick) := got_nohz_idle_kick cpu s in
    if kick : bool then raise_sched_softirq cpu (upd_rq cpu (fun r => r <| idle_balance := 1 |>) s) else s.
End select.
