(* ===== verification/BalanceTopo.v ===== *)
(** A well-formed topology of scheduling domains, and that computing the statistics of a domain
    never divides by zero: the power of every CPU and group stays positive and bounded, the group
    of the balancing CPU is always seen, and the busiest group is another one. *)

From S2P Require Import Prelude Spinlock Pelt SchedTypes EntityLoad HmpDomain HmpSelect Cfs CpuLoad.
From S2P Require Import HmpMigration HmpEnh LoadStats.

(** * The topology *)

(** What is constant in a domain. *)
Definition sd_view (d : sched_domain) := (sd_span d, sd_flags d, sd_groups d, span_weight d, smt_gain d).

Lemma sd_view_inv d d' :
  sd_view d' = sd_view d -> sd_span d' = sd_span d /\ sd_flags d' = sd_flags d
  /\ sd_groups d' = sd_groups d /\ span_weight d' = span_weight d /\ smt_gain d' = smt_gain d.
Proof. unfold sd_view. intros E. by simplify_eq. Qed.

Record same_topo (s s' : sys) : Prop := {
  tp_sd : forall c, sd_view <$> rq_sd (rqs s' c) = sd_view <$> rq_sd (rqs s c);
  tp_sg : forall g, sched_group_cpus s' g = sched_group_cpus s g;
}.
#[export] Instance same_topo_equiv : Equivalence same_topo.
Proof.
  split.
  - by split.
  - intros s s' []. by split.
  - intros s1 s2 s3 [] []. split; intros; congruence.
Qed.

Section topo.
Context `{Config}.
Implicit Types (s : sys) (c cpu g : Z) (l : nat) (d : sched_domain) (sd : sd_ptr).

Definition sg_weight s g : Z := cpumask_weight (sched_group_cpus s g).
Definition sum_weights s (gs : list Z) : Z := sum_over (sg_weight s) gs.

(** A domain of CPU [c]: its first group has [c] in it, other groups have no CPU in common with
    it, and groups lie within the span.  Unless its groups overlap, the domain below has no more
    CPUs than the first group.  The bounds keep sums of powers within 32 bits. *)
Record domain_ok s c l d : Prop := {
  do_local : exists g, head (sd_groups d) = Some g /\ cpumask_test_cpu c (sched_group_cpus s g) = true;
  do_span : forall g x, g ∈ sd_groups d -> cpumask_test_cpu x (sched_group_cpus s g) = true ->
    cpumask_test_cpu x (sd_span d) = true;
  do_apart : forall g0 g x, head (sd_groups d) = Some g0 -> g ∈ sd_groups d ->
    cpumask_test_cpu x (sched_group_cpus s g0) = true -> cpumask_test_cpu x (sched_group_cpus s g) = true ->
    g = g0;
  do_total : sum_weights s (sd_groups d) <= 1000;
  do_child : forall l' child g, l = S l' -> rq_sd (rqs s c) !! l' = Some child ->
    has_flag (sd_flags child) SD_OVERLAP = false -> head (sd_groups d) = Some g ->
    sum_weights s (sd_groups child) <= sg_weight s g;
  do_gain : 0 <= smt_gain d <= 2 ^ 11;
}.

Definition topo_ok s : Prop :=
  forall c l d, 0 <= c < NR_CPUS -> rq_sd (rqs s c) !! l = Some d -> domain_ok s c l d.

(** The power of a CPU is at most [2 ^ 22], that of a group in proportion. *)
Record power_ok s : Prop := {
  po_cpu : forall c, 0 <= c < NR_CPUS -> 1 <= power_of s c <= 2 ^ 22;
  po_group : forall c l d g, 0 <= c < NR_CPUS -> rq_sd (rqs s c) !! l = Some d -> g ∈ sd_groups d ->
    1 <= sg_power (get_sg s g) <= 2 ^ 22 * sg_weight s g;
  po_scale : forall c, 0 <= Enh.arch_scale_freq_power s c <= 2 ^ 20;
}.

(** The averages of real-time load have been aged within the last hour or so, as each tick
    does; a run queue's clock is between the time of the aging and the current time. *)
Record aged s : Prop := {
  ag_clock : forall c, sched_avg_period s + u64 (rq_clock (rqs s c) - age_stamp (rq_lb (rqs s c)))
                       + u64 (sched_clock s c - rq_clock (rqs s c)) < 2 ^ 42;
  ag_avg : forall c, 0 <= rt_avg (rq_lb (rqs s c));
}.

(** ** A topology does not change *)

Lemma topo_lookup s s' c l d :
  same_topo s s' -> rq_sd (rqs s' c) !! l = Some d ->
  exists d0, rq_sd (rqs s c) !! l = Some d0 /\ sd_view d = sd_view d0.
Proof.
  intros [Hs _] Hd. specialize (Hs c).
  assert (E : (sd_view <$> rq_sd (rqs s' c)) !! l = Some (sd_view d)) by (by rewrite list_lookup_fmap, Hd).
  rewrite Hs, list_lookup_fmap in E. destruct (rq_sd (rqs s c) !! l) as [d0|]; [|done].
  exists d0. split; [done|]. cbn in E. congruence.
Qed.
Lemma topo_length s s' c : same_topo s s' -> length (rq_sd (rqs s' c)) = length (rq_sd (rqs s c)).
Proof. intros [Hs _]. by rewrite <- (length_fmap sd_view), Hs, length_fmap. Qed.
Lemma topo_domains s s' c : same_topo s s' -> domains_of s' c = domains_of s c.
Proof. intros T. unfold domains_of. by rewrite (topo_length s s' c T). Qed.
Lemma topo_view s s' sd : same_topo s s' -> sd_view (get_sd s' sd) = sd_view (get_sd s sd).
Proof.
  intros T. unfold get_sd. rewrite !nth_lookup.
  destruct (rq_sd (rqs s' sd.1) !! sd.2) as [d|] eqn:E; cbn.
  - destruct (topo_lookup s s' _ _ _ T E) as (d0 & -> & Ev). done.
  - destruct (rq_sd (rqs s sd.1) !! sd.2) as [d|] eqn:E'; [|done].
    symmetry in T. destruct (topo_lookup s' s _ _ _ T E') as (d0 & E0 & _). congruence.
Qed.
Lemma topo_weight s s' g : same_topo s s' -> sg_weight s' g = sg_weight s g.
Proof. intros T. unfold sg_weight. by rewrite (tp_sg _ _ T). Qed.
Lemma topo_weights s s' gs : same_topo s s' -> sum_weights s' gs = sum_weights s gs.
Proof.
  intros T. apply sum_over_ext. intros g _. by apply topo_weight.
Qed.

#[export] Instance topo_ok_proper : Proper (same_topo ==> impl) topo_ok.
Proof.
  intros s s' T Hok c l d Hc Hd. destruct (topo_lookup s s' c l d T Hd) as (d0 & H0 & Ev).
  destruct (sd_view_inv _ _ Ev) as (E1 & E2 & E3 & E4 & E5).
  destruct (Hok c l d0 Hc H0) as [Hg Hs Hap Ht Hch Hga]. split; rewrite ?E1, ?E3, ?E5.
  - destruct Hg as (g & ? & ?). exists g. by rewrite (tp_sg _ _ T).
  - intros g x Hg'. rewrite (tp_sg _ _ T). eauto.
  - intros g0 g x. rewrite !(tp_sg _ _ T). eauto.
  - by rewrite (topo_weights s s').
  - intros l' ch g El Hch' Ho Hh. destruct (topo_lookup s s' c l' ch T Hch') as (ch0 & Hc0 & Ev0).
    destruct (sd_view_inv _ _ Ev0) as (_ & F2 & F3 & _). rewrite F3, (topo_weights s s' _ T), (topo_weight s s' _ T).
    apply (Hch l' ch0 g); congruence.
  - done.
Qed.

(** Same topology and powers. *)
Lemma power_ok_same s s' :
  same_topo s s' -> (forall c, power_of s' c = power_of s c) ->
  (forall g, sg_power (get_sg s' g) = sg_power (get_sg s g)) -> enh s' = enh s ->
  power_ok s -> power_ok s'.
Proof.
  intros T Ep Eg Ee [Hc Hg Hs]. split.
  - intros c Hc'. rewrite Ep. auto.
  - intros c l d g Hc' Hd Hin. destruct (topo_lookup s s' c l d T Hd) as (d0 & H0 & Ev).
    destruct (sd_view_inv _ _ Ev) as (_ & _ & E3 & _). rewrite E3 in Hin.
    rewrite Eg, (topo_weight s s' _ T). eauto.
  - intros c. unfold Enh.arch_scale_freq_power in *. rewrite Ee. auto.
Qed.

(** * Powers *)

Lemma sg_weight_nonneg s g : 0 <= sg_weight s g.
Proof. unfold sg_weight, cpumask_weight. lia. Qed.
Lemma sg_weight_pos s g c :
  0 <= c < NR_CPUS -> cpumask_test_cpu c (sched_group_cpus s g) = true -> 1 <= sg_weight s g.
Proof.
  intros Hc Ht. unfold sg_weight, cpumask_weight.
  assert (Hin : c ∈ cpus_of (sched_group_cpus s g)) by (by apply elem_of_cpus_of).
  destruct (cpus_of _); [set_solver|]. cbn. lia.
Qed.

Lemma scale_rt_power_some s cpu :
  aged s -> exists r, scale_rt_power s cpu = Some r /\ 0 <= r <= 2047.
Proof.
  intros [Hc Ha]. specialize (Hc cpu). specialize (Ha cpu). unfold scale_rt_power.
  pose proof (u64_range (sched_clock s cpu - rq_clock (rqs s cpu))) as Hy.
  set (avg := rt_avg _) in *. set (x := u64 (rq_clock _ - _)) in *.
  assert (Hp : 0 <= sched_avg_period s).
  { unfold sched_avg_period. apply Z.div_pos; [|lia]. apply u64_range. }
  assert (Hx : 0 <= x) by apply u64_range. cbv zeta. rewrite u64_id by lia.
  set (total := sched_avg_period s + x) in *. rewrite s64_id by lia. rewrite shiftr_div by done.
  change (2 ^ SCHED_POWER_SHIFT) with 1024. unfold SCHED_POWER_SCALE.
  set (av := if total <? avg then 0 else u64 (total - avg)).
  assert (Hav : 0 <= av <= total).
  { unfold av. destruct (Z.ltb_spec total avg); [lia|]. rewrite u64_id by lia. lia. }
  clearbody av. destruct (Z.ltb_spec total 1024).
  - change (1024 / 1024) with 1. change (u32 1) with 1. rewrite udiv_some by done. cbn.
    exists av. rewrite Z.div_1_r, ulong_id by lia. split; [done|lia].
  - pose proof (div_floor_bounds total 1024 ltac:(lia)). set (q := total / 1024) in *.
    rewrite u32_id by lia. rewrite udiv_some by lia. cbn.
    pose proof (div_floor_bounds av q ltac:(lia)). set (r := av / q) in *.
    assert (0 <= r <= 2047) by nia. exists r. rewrite ulong_id by lia. done.
Qed.
Lemma sys_eta s : s = s <| rqs := rqs s |> <| bal := bal s <| sgs := sgs (bal s) |> |>.
Proof. destruct s. match goal with b : balance_state |- _ => by destruct b end. Qed.
Lemma rq_power_eta (r : rq) : r = r <| rq_lb := rq_lb r <| cpu_power := cpu_power (rq_lb r) |> |>.
Proof. destruct r. match goal with b : rq_balance |- _ => by destruct b end. Qed.

(** What computing statistics changes: powers and when they are due. *)
Record repowered s s' : Prop := {
  rp_topo : same_topo s s';
  rp_power : power_ok s -> power_ok s';
  rp_rq : forall c, rqs s' c = rqs s c <| rq_lb := rq_lb (rqs s c) <| cpu_power := power_of s' c |> |>;
  rp_rest : s' = s <| rqs := rqs s' |> <| bal := bal s <| sgs := sgs (bal s') |> |>;
}.

#[export] Instance repowered_preorder : PreOrder repowered.
Proof.
  split.
  - intros s. split; [done|done| |apply sys_eta]. intros c. apply rq_power_eta.
  - intros s1 s2 s3 [T1 P1 R1 E1] [T2 P2 R2 E2]. split.
    + by rewrite T1.
    + auto.
    + intros c. rewrite (R2 c) at 1. rewrite (R1 c) at 1 2. done.
    + etrans; [exact E2|]. rewrite E1 at 1 2. done.
Qed.

Lemma repowered_sg g f s :
  (forall x, sg_cpumask (f x) = sg_cpumask x) ->
  (power_ok s -> 1 <= sg_power (f (get_sg s g)) <= 2 ^ 22 * sg_weight s g
                 \/ sg_power (f (get_sg s g)) = sg_power (get_sg s g)) ->
  repowered s (upd_sg g f s).
Proof.
  intros Hf Hp.
  assert (T : same_topo s (upd_sg g f s)).
  { split; [done|]. intros h. unfold sched_group_cpus, get_sg.
    destruct (decide (g = h)) as [->|]; by store_rw. }
  split; [done| | |done].
  - intros P. specialize (Hp P). destruct P as [Hc Hg Hs]. split; [done| |done].
    intros c l d h Hc' Hd Hin. rewrite (topo_weight s _ h T). specialize (Hg c l d h Hc' Hd Hin).
    unfold get_sg in *. destruct (decide (g = h)) as [->|]; store_rw; [|done].
    destruct Hp as [|E]; [done|]. by rewrite E.
  - intros c. apply rq_power_eta.
Qed.

Lemma repowered_cpu cpu v s :
  1 <= v <= 2 ^ 22 -> repowered s (upd_rq_lb cpu (fun b => b <| cpu_power := v |>) s).
Proof.
  intros Hv. set (s' := upd_rq_lb _ _ s).
  assert (E : forall c, rqs s' c = rqs s c <| rq_lb := rq_lb (rqs s c) <| cpu_power := power_of s' c |> |>).
  { intros c. unfold s', power_of. destruct (decide (cpu = c)) as [->|]; store_rw; [done|].
    apply rq_power_eta. }
  assert (T : same_topo s s') by (split; [intros c; by rewrite E|done]).
  split; [done| |done|].
  2: { exact (sys_eta s'). }
  intros [Hc Hg Hs]. split; [|intros c l d g|done].
  - intros c Hc'. specialize (Hc c Hc'). unfold s', power_of in *.
    destruct (decide (cpu = c)) as [->|]; by store_rw.
  - intros Hc' Hd. rewrite E in Hd. rewrite (topo_weight s s' g T). by apply (Hg c l d).
Qed.
Lemma aged_repowered s s' : repowered s s' -> aged s -> aged s'.
Proof.
  intros [_ _ R E] [Hc Ha].
  assert (Ep : sched_avg_period s' = sched_avg_period s) by (by rewrite E).
  assert (Ec : sched_clock s' = sched_clock s) by (by rewrite E).
  split; intros c; rewrite ?Ep, ?Ec, ?R; [apply Hc|apply Ha].
Qed.

Lemma get_sd_lookup s c l d : rq_sd (rqs s c) !! l = Some d -> get_sd s (c, l) = d.
Proof. intros E. unfold get_sd. cbn. by rewrite nth_lookup, E. Qed.

(** A power after scaling, [a] and [b] being factors over 1024. *)
Lemma scaled_bound x a B :
  0 <= x <= B -> 0 <= a -> B * a < 2 ^ 32 -> 0 <= Z.shiftr (ulong (x * a)) SCHED_POWER_SHIFT <= B * a / 1024.
Proof.
  intros Hx Ha Hb. rewrite shiftr_div by done. change (2 ^ SCHED_POWER_SHIFT) with 1024.
  rewrite ulong_id by nia. split; [apply Z.div_pos; nia|]. apply Z.div_le_mono; nia.
Qed.

Lemma update_cpu_power_ok c l d cpu s :
  topo_ok s -> power_ok s -> aged s -> 0 <= c < NR_CPUS -> rq_sd (rqs s c) !! l = Some d ->
  exists s', update_cpu_power (c, l) cpu s = Some s' /\ repowered s s'.
Proof.
  intros Ht Hp Ha Hc Hd. destruct (Ht c l d Hc Hd) as [(g & Hg & Hin) _ _ _ _ Hga].
  pose proof (sg_weight_pos s g c Hc Hin) as Hw.
  unfold update_cpu_power. rewrite (get_sd_lookup s c l d Hd). unfold first_group. rewrite Hg. cbn.
  set (pw := if has_flag _ _ && _ then _ else _).
  assert (P0 : exists x, pw = Some x /\ 0 <= x <= 2 ^ 11).
  { unfold pw. destruct (has_flag _ _ && _) eqn:E; [|exists 1024; split; [done|lia]].
    apply andb_true_iff in E as [_ Ew%Z.ltb_lt]. unfold default_scale_smt_power.
    rewrite udiv_some by lia. cbn. eexists; split; [done|].
    pose proof (div_le_self (smt_gain d) (span_weight d) ltac:(lia) ltac:(lia)).
    rewrite Z.mul_comm. pose proof (scaled_bound (smt_gain d / span_weight d) SCHED_POWER_SCALE (2 ^ 11)
      ltac:(lia) ltac:(done) ltac:(done)) as B. exact B. }
  destruct P0 as (x & -> & Hx). cbn.
  set (s1 := upd_sg g _ s). assert (R1 : repowered s s1) by (apply repowered_sg; auto).
  set (freq := if ARCH_POWER _ then _ else _).
  assert (Hf : 0 <= freq <= 2 ^ 20).
  { unfold freq. case_match; [apply (po_scale s Hp)|]. unfold default_scale_freq_power, SCHED_POWER_SCALE. lia. }
  clearbody freq. destruct (scale_rt_power_some s1 cpu) as (rt & -> & Hr); [by eapply aged_repowered|]. cbn.
  pose proof (scaled_bound x freq (2 ^ 11) Hx ltac:(lia) ltac:(lia)) as B1.
  set (x1 := Z.shiftr (ulong (x * freq)) _) in *. clearbody x1.
  assert (B1' : 0 <= x1 <= 2 ^ 21).
  { split; [lia|]. etrans; [apply B1|]. apply Z.div_le_upper_bound; lia. }
  pose proof (scaled_bound x1 rt (2 ^ 21) B1' ltac:(lia) ltac:(lia)) as B2.
  set (x2 := Z.shiftr (ulong (x1 * rt)) _) in *. clearbody x2.
  assert (B2' : 0 <= x2 <= 2 ^ 22).
  { split; [lia|]. etrans; [apply B2|]. apply Z.div_le_upper_bound; lia. }
  set (v := if x2 =? 0 then 1 else x2).
  assert (Hv : 1 <= v <= 2 ^ 22) by (unfold v; destruct (Z.eqb_spec x2 0); lia). clearbody v.
  eexists. split; [done|]. etransitivity; [exact R1|]. etransitivity; [by apply (repowered_cpu cpu v)|].
  apply repowered_sg; [done|]. intros _. left. cbn. rewrite u32_id by lia.
  replace (sg_weight _ g) with (sg_weight s g); [lia|].
  unfold sg_weight, sched_group_cpus, get_sg, s1. store_rw. done.
Qed.

(** The power of a group from those of the domain below. *)
Lemma add_power_bounds f w gs :
  (forall g, g ∈ gs -> 1 <= f g <= 2 ^ 22 * w g) -> gs <> [] -> sum_over w gs <= 1000 ->
  1 <= add_power f gs <= 2 ^ 22 * sum_over w gs.
Proof.
  intros Hf Hne Hw. pose proof (sum_over_le f w (2 ^ 22) gs ltac:(naive_solver)) as Hle.
  unfold add_power. rewrite ulong_sum; [|lia|intros ? ?%Hf; lia|lia]. split; [|lia].
  destruct gs as [|g gs]; [done|]. rewrite sum_over_cons.
  pose proof (Hf g ltac:(set_solver)). pose proof (sum_over_nonneg f gs ltac:(intros x Hx; specialize (Hf x ltac:(set_solver)); lia)). lia.
Qed.

Lemma head_elem {A} (l : list A) x : head l = Some x -> x ∈ l.
Proof. destruct l; [done|]. intros [= ->]. apply list_elem_of_here. Qed.
Lemma sg_weight_total s gs g : sum_weights s gs <= 1000 -> g ∈ gs -> sg_weight s g <= 1000.
Proof.
  intros Ht Hg. etrans; [|exact Ht]. apply (sum_over_elem (sg_weight s)); [|done].
  intros. apply sg_weight_nonneg.
Qed.

(** What [update_group_power] adds up for the first group, from the domain below. *)
Lemma child_power_bounds c l d ch g s :
  topo_ok s -> power_ok s -> 0 <= c < NR_CPUS -> rq_sd (rqs s c) !! S l = Some d ->
  rq_sd (rqs s c) !! l = Some ch -> head (sd_groups d) = Some g ->
  1 <= (if has_flag (sd_flags ch) SD_OVERLAP then add_power (power_of s) (cpus_of (sched_group_cpus s g))
        else add_power (fun g => sg_power (get_sg s g)) (sd_groups ch)) <= 2 ^ 22 * sg_weight s g.
Proof.
  intros Ht Hp Hc Hd Hch Hg. destruct (Ht c _ d Hc Hd) as [(g' & Hg' & Hin) _ _ Htot Hsub _].
  assert (g' = g) as -> by congruence. pose proof (sg_weight_pos s g c Hc Hin) as Hw.
  pose proof (sg_weight_total s _ g Htot (head_elem _ _ Hg)) as Hwt.
  destruct (has_flag (sd_flags ch) SD_OVERLAP) eqn:Ho.
  - assert (W : sum_over (fun _ => 1) (cpus_of (sched_group_cpus s g)) = sg_weight s g).
    { unfold sg_weight, cpumask_weight. induction (cpus_of _) as [|x xs IH]; [done|].
      rewrite sum_over_cons, IH. cbn [length]. lia. }
    rewrite <- W. apply add_power_bounds; [|intros E0; rewrite E0 in W; cbn in W; lia|lia].
    intros x [Hx _]%elem_of_cpus_of. pose proof (po_cpu s Hp x Hx). lia.
  - specialize (Hsub l ch g eq_refl Hch Ho Hg). destruct (Ht c l ch Hc Hch) as [(h & Hh & _) _ _ _ _].
    unfold sum_weights in Hsub.
    destruct (add_power_bounds (fun g => sg_power (get_sg s g)) (sg_weight s) (sd_groups ch)) as [B1 B2];
      [intros x Hx; by apply (po_group s Hp c l ch)|by destruct (sd_groups ch)|lia|].
    split; [done|lia].
Qed.

Lemma update_group_power_ok c l d cpu s :
  topo_ok s -> power_ok s -> aged s -> 0 <= c < NR_CPUS -> rq_sd (rqs s c) !! l = Some d ->
  exists s', update_group_power (c, l) cpu s = Some s' /\ repowered s s'.
Proof.
  intros Ht Hp Ha Hc Hd. destruct (Ht c l d Hc Hd) as [(g & Hg & _) _ _ Htot _ _].
  unfold update_group_power. rewrite (get_sd_lookup s c l d Hd). unfold first_group. rewrite Hg. cbn.
  set (s1 := upd_sg g _ s). assert (R1 : repowered s s1) by (apply repowered_sg; auto).
  assert (Hd1 : rq_sd (rqs s1 c) = rq_sd (rqs s c)) by done. clearbody s1.
  pose proof (rp_topo _ _ R1) as T1. pose proof (rp_power _ _ R1 Hp) as P1.
  assert (Ht1 : topo_ok s1) by (by rewrite <- T1). rewrite <- Hd1 in Hd. destruct l as [|l]; cbn.
  { destruct (update_cpu_power_ok c 0 d cpu s1) as (s' & Es & R); [done|done|by eapply aged_repowered|done|done|].
    exists s'. split; [done|]. by transitivity s1. }
  destruct (lookup_lt_is_Some_2 (rq_sd (rqs s1 c)) l) as [ch Hch]; [apply lookup_lt_Some in Hd; lia|].
  unfold sd_has. rewrite (get_sd_lookup s1 c l ch Hch).
  pose proof (child_power_bounds c l d ch g s1 Ht1 P1 Hc Hd Hch Hg) as B.
  set (pw := if has_flag _ _ then _ else _) in *. clearbody pw.
  eexists. split; [done|]. transitivity s1; [done|]. apply repowered_sg; [done|].
  intros _. left. cbn. pose proof (sg_weight_total s _ g Htot (head_elem _ _ Hg)).
  rewrite (topo_weight s s1 g T1) in *. rewrite u32_id by lia. done.
Qed.

(** * Statistics *)

(** Balancing domain [d], level [l] of CPU [c], for a CPU of its first group. *)
Record stat_env env c l d s : Prop := {
  se_sd : lb_sd env = (c, l);
  se_cpu : 0 <= c < NR_CPUS;
  se_lookup : rq_sd (rqs s c) !! l = Some d;
  se_dst : forall g, head (sd_groups d) = Some g -> cpumask_test_cpu (dst_cpu env) (sched_group_cpus s g) = true;
  se_topo : topo_ok s;
  se_power : power_ok s;
  se_aged : aged s;
}.

Lemma repowered_sd s s' c : repowered s s' -> rq_sd (rqs s' c) = rq_sd (rqs s c).
Proof. intros R. by rewrite (rp_rq _ _ R). Qed.
Lemma stat_env_repowered env c l d s s' : repowered s s' -> stat_env env c l d s -> stat_env env c l d s'.
Proof.
  intros R [E Hc Hd Hg Ht Hp Ha]. split; auto.
  - by rewrite (repowered_sd s s').
  - intros g Hg'. rewrite (tp_sg _ _ (rp_topo _ _ R)). auto.
  - by rewrite <- (rp_topo _ _ R).
  - by apply (rp_power _ _ R).
  - by apply (aged_repowered s).
Qed.
Lemma stat_power env c l d s g :
  stat_env env c l d s -> g ∈ sd_groups d -> 1 <= sg_power (get_sg s g) <= 2 ^ 22 * sg_weight s g.
Proof. intros [E Hc Hd _ _ Hp _] Hg. by apply (po_group s Hp c l d). Qed.

Lemma update_sg_lb_stats_ok env c l d g load_idx local s :
  stat_env env c l d s -> g ∈ sd_groups d ->
  exists s' balance st, update_sg_lb_stats env g load_idx local s = Some (s', balance, st) /\
    repowered s s' /\ (balance = false -> local = true).
Proof.
  intros He Hg. unfold update_sg_lb_stats. cbv zeta.
  destruct (local && _ && _) eqn:E1.
  { eexists _, _, _. split; [done|]. split; [done|]. intros _. by destruct local. }
  set (m := if local && _ then _ else _).
  assert (Hm : exists s', m = Some s' /\ repowered s s').
  { unfold m. destruct (local && (_ || _)); [|by exists s]. rewrite (se_sd _ _ _ _ _ He).
    apply (update_group_power_ok c l d); apply He. }
  destruct Hm as (s' & -> & R). cbn. pose proof (stat_env_repowered _ _ _ _ _ _ R He) as He'.
  pose proof (stat_power _ _ _ _ _ g He' Hg) as Hp. unfold finish_stats. rewrite udiv_some by lia. cbn.
  eexists _, _, _. split; [done|]. done.
Qed.

(** What the statistics of a domain say about its groups. *)
Record sds_ok env d s (sds : sd_lb_stats) : Prop := {
  so_busiest : forall b, busiest sds = Some b ->
    b ∈ sd_groups d /\ cpumask_test_cpu (dst_cpu env) (sched_group_cpus s b) = false;
  so_this : forall t, this_group sds = Some t -> t ∈ sd_groups d;
}.

Lemma add_group_ok env d s sds g pref st :
  sds_ok env d s sds -> g ∈ sd_groups d -> 0 <= total_pwr sds ->
  total_pwr sds + sg_power (get_sg s g) < 2 ^ 32 -> 0 <= sg_power (get_sg s g) ->
  let local := cpumask_test_cpu (dst_cpu env) (sched_group_cpus s g) in
  let sds' := add_group env sds g local pref st s in
  sds_ok env d s sds' /\ total_pwr sds' = total_pwr sds + sg_power (get_sg s g) /\
  (is_Some (this_group sds) \/ local = true -> is_Some (this_group sds')).
Proof.
  intros [Hb Ht] Hg H0 H1 H2. cbv zeta. unfold add_group. cbv zeta.
  destruct (cpumask_test_cpu _ _) eqn:El.
  - cbn. rewrite ulong_id by lia. split_and!; [split; cbn|done|done]; [done|]. by intros t [= <-].
  - case_match; cbn; rewrite ulong_id by lia; (split_and!; [split; cbn|done|naive_solver]); try done.
    by intros b [= <-].
Qed.

Lemma sd_stats_groups_ok env c l d load_idx pref gs sds s :
  stat_env env c l d s -> (forall g, g ∈ gs -> g ∈ sd_groups d) -> sds_ok env d s sds ->
  0 <= total_pwr sds -> total_pwr sds + 2 ^ 22 * sum_weights s gs < 2 ^ 32 ->
  exists s' balance sds', sd_stats_groups env load_idx pref gs sds s = Some (s', balance, sds') /\
    repowered s s' /\ sds_ok env d s' sds' /\
    (balance = true ->
      (is_Some (this_group sds) \/ (exists g, head gs = Some g /\
         cpumask_test_cpu (dst_cpu env) (sched_group_cpus s g) = true) -> is_Some (this_group sds')) /\
      (0 < total_pwr sds \/ gs <> [] -> 0 < total_pwr sds')).
Proof.
  revert sds s. induction gs as [|g gs IH]; intros sds s He Hin Hs H0 Hb; cbn [sd_stats_groups].
  { eexists _, _, _. split; [done|]. split; [done|]. split; [done|]. intros _. split; naive_solver. }
  set (local := cpumask_test_cpu _ _).
  destruct (update_sg_lb_stats_ok env c l d g load_idx local s He ltac:(set_solver))
    as (s1 & bal1 & st & E & R1 & Hloc). rewrite E. cbn.
  pose proof (rp_topo _ _ R1) as T1. pose proof (stat_env_repowered _ _ _ _ _ _ R1 He) as He1.
  assert (Hs1 : sds_ok env d s1 sds).
  { destruct Hs as [Hb' Ht']. split; [|done]. intros x. rewrite (tp_sg _ _ T1). apply Hb'. }
  destruct (local && negb bal1) eqn:El.
  { eexists _, _, _. split; [done|]. split; [done|]. split; [done|]. done. }
  pose proof (stat_power _ _ _ _ _ g He1 ltac:(set_solver)) as Hp. rewrite (topo_weight s s1 g T1) in Hp.
  unfold sum_weights in Hb. rewrite sum_over_cons in Hb. fold (sum_weights s gs) in Hb.
  assert (Hn : 0 <= sum_weights s gs) by (apply sum_over_nonneg; intros; apply sg_weight_nonneg).
  assert (Eloc : local = cpumask_test_cpu (dst_cpu env) (sched_group_cpus s1 g))
    by (unfold local; by rewrite (tp_sg _ _ T1)).
  destruct (add_group_ok env d s1 sds g pref st Hs1 ltac:(set_solver) H0 ltac:(lia) ltac:(lia)) as (A1 & A2 & A3).
  rewrite <- Eloc in A1, A2, A3. set (sds1 := add_group _ _ _ _ _ _ _) in *.
  destruct (IH sds1 s1) as (s2 & bal2 & sds2 & E2 & R2 & S2 & F2); [done|set_solver|done|lia| |].
  { rewrite (topo_weights s s1 gs T1). lia. }
  exists s2, bal2, sds2. split; [done|]. split; [by transitivity s1|]. split; [done|]. intros Eb.
  destruct (F2 Eb) as [F3 F4]. split; [|intros _; apply F4; left; lia].
  intros Hx. apply F3. left. apply A3. destruct Hx as [|(g' & [= <-] & ?)]; auto.
Qed.

Lemma fix_small_imbalance_some env sds s b t :
  busiest sds = Some b -> this_group sds = Some t -> sg_power (get_sg s b) <> 0 -> sg_power (get_sg s t) <> 0 ->
  exists im, fix_small_imbalance env sds s = Some im.
Proof.
  intros Eb Et Hb Ht. unfold fix_small_imbalance. rewrite Eb, Et. cbn.
  set (x := if nonzero _ then _ else _).
  assert (Hx : exists y, x = Some y).
  { unfold x. destruct (nonzero (this_nr_running sds)) eqn:En; [|eauto]. unfold nonzero in En.
    rewrite udiv_some; [eauto|]. by destruct (Z.eqb_spec (this_nr_running sds) 0). }
  destruct Hx as [y ->]. cbn. rewrite (udiv_some _ (sg_power (get_sg s b))) by done. cbn.
  rewrite udiv_some by done. cbn.
  match goal with |- context [if ?c <=? ?d then Some _ else _] => destruct (c <=? d) end; by eexists.
Qed.

Lemma calculate_imbalance_some env sds s b t :
  busiest sds = Some b -> this_group sds = Some t -> busiest_nr_running sds <> 0 ->
  sg_power (get_sg s b) <> 0 -> sg_power (get_sg s t) <> 0 ->
  exists im, calculate_imbalance env sds s = Some im.
Proof.
  intros Eb Et Hn Hb Ht. unfold calculate_imbalance. rewrite Eb, udiv_some by done. cbn [mbind option_bind].
  set (x := if group_imb sds then Z.min _ _ else _). clearbody x.
  set (sds' := sds <| busiest_load_per_task := x |>).
  assert (Fix : forall env, exists im, fix_small_imbalance env sds' s = Some im)
    by (intros; by apply (fix_small_imbalance_some _ _ _ b t)).
  case_match; [apply Fix|]. set (z := if group_imb sds' then Some ULONG_MAX else _).
  assert (Hz : exists y, z = Some y) by (unfold z; case_match; [eauto|]; rewrite udiv_some by done; eauto).
  destruct Hz as [y ->]. cbn [mbind option_bind]. change (this_group sds') with (this_group sds). rewrite Et. cbn [mbind option_bind].
  case_match; [apply Fix|eauto].
Qed.

(** [find_busiest_group] always returns, and the group it returns is one without the
    destination. *)
Lemma find_busiest_group_ok env c l d s :
  stat_env env c l d s ->
  exists s' balance im group, find_busiest_group env s = Some (s', balance, im, group) /\ repowered s s' /\
    forall g, group = Some g -> g ∈ sd_groups d /\ cpumask_test_cpu (dst_cpu env) (sched_group_cpus s' g) = false.
Proof.
  intros He. destruct (se_topo _ _ _ _ _ He c l d (se_cpu _ _ _ _ _ He) (se_lookup _ _ _ _ _ He))
    as [(g & Hg & _) _ _ Htot _ _].
  unfold find_busiest_group, update_sd_lb_stats.
  rewrite (se_sd _ _ _ _ _ He), (get_sd_lookup s c l d (se_lookup _ _ _ _ _ He)).
  destruct (sd_stats_groups_ok env c l d (get_sd_load_idx d (idle env))
    (match sd_child (c, l) with Some x => sd_has s x SD_PREFER_SIBLING | None => false end)
    (sd_groups d) sds_zero s) as (s' & balance & sds & E & R & [So Sh] & F); try done; [cbn; lia|].
  rewrite E. cbn [mbind option_bind]. destruct balance; cbn [negb]; [|by eexists _, _, _, _].
  destruct F as [F1 F2]; [done|]. destruct F1 as [t Et].
  { right. exists g. split; [done|]. by apply (se_dst _ _ _ _ _ He). }
  specialize (F2 ltac:(right; by destruct (sd_groups d))).
  pose proof (stat_env_repowered _ _ _ _ _ _ R He) as He'.
  destruct (if bool_decide (idle env = CPU_NOT_IDLE) then None else check_asym_packing env sds s').
  { eexists _, _, _, _. split; [done|]. split; [done|]. exact So. }
  destruct (bool_decide_reflect (busiest sds = None)) as [|Hb]; cbn [orb].
  { by eexists _, _, _, _. }
  destruct (Z.eqb_spec (busiest_nr_running sds) 0); [by eexists _, _, _, _|].
  rewrite udiv_some by lia. cbn [mbind option_bind].
  destruct (looks_balanced _ _ _); [by eexists _, _, _, _|].
  destruct (busiest sds) as [b|] eqn:Eb; [|done].
  pose proof (stat_power _ _ _ _ _ b He' (proj1 (So b eq_refl))).
  pose proof (stat_power _ _ _ _ _ t He' (Sh t Et)).
  edestruct (calculate_imbalance_some env (sds <| avg_load := ulong (SCHED_POWER_SCALE * total_load sds) / total_pwr sds |>) s' b t)
    as [im Em]; [done|done|done|lia|lia|]. rewrite Em. cbn. eexists _, _, _, _. split; [done|]. split; [done|].
  rewrite Eb. exact So.
Qed.

Lemma find_busiest_queue_ok env c l d g s :
  stat_env env c l d s -> g ∈ sd_groups d ->
  exists q, find_busiest_queue env g s = Some q /\
    forall i, q = Some i -> i ∈ cpus_of (sched_group_cpus s g) /\ cpumask_test_cpu i (lb_cpus env) = true.
Proof.
  intros He Hg. unfold find_busiest_queue.
  destruct (foldM_total (fun best : option Z * Z => forall i, best.1 = Some i ->
      i ∈ cpus_of (sched_group_cpus s g) /\ cpumask_test_cpu i (lb_cpus env) = true)
    (busiest_queue_step env g s) (cpus_of (sched_group_cpus s g)) (None, 0)) as (best & -> & Hb); [|done|by exists best.1].
  intros best i Hi Hbest. unfold busiest_queue_step. cbv zeta.
  destruct (negb (cpumask_test_cpu i (lb_cpus env))) eqn:En; [by exists best|].
  destruct (nonzero _ && _ && _); [by exists best|].
  pose proof (proj1 (elem_of_cpus_of _ _) Hi) as [Hr _].
  pose proof (po_cpu s (se_power _ _ _ _ _ He) i Hr). rewrite udiv_some by lia. cbn. eexists. split; [done|].
  case_match; [|done]. intros j [= <-]. split; [done|]. by apply negb_false_iff in En.
Qed.
End topo.
