(* ===== verification/BalanceSafe.v ===== *)
(** Safety of load balancing: in a well-formed topology [load_balance] always returns, it moves
    only tasks that are not running, to CPUs they may use, within the span of the domain, and it
    keeps every account of the run queues and the lists of tasks it walks. *)

From S2P Require Import Prelude Spinlock Pelt SchedTypes EntityLoad HmpDomain HmpSelect Cfs CfsInv CpuLoad.
From S2P Require Import HmpMigration MigrationSafe TaskLists HmpEnh LoadStats LoadBalance Rebalance BalanceTopo.

(** * Flags *)

Lemma flag_lor f b c :
  has_flag (Z.lor f b) c = has_flag f c || has_flag b c.
Proof.
  unfold has_flag, nonzero. rewrite Z.land_lor_distr_l, <- negb_andb. f_equal.
  apply eq_true_iff_eq. rewrite andb_true_iff, !Z.eqb_eq, Z.lor_eq_0_iff. tauto.
Qed.
Lemma flag_ldiff_eq f b : has_flag (Z.ldiff f b) b = false.
Proof. unfold has_flag. by rewrite Z.land_ldiff. Qed.
Lemma flag_ldiff_ne f b c : Z.land b c = 0 -> has_flag (Z.ldiff f b) c = has_flag f c.
Proof.
  intros E. unfold has_flag. replace (Z.land (Z.ldiff f b) c) with (Z.land f c); [done|]. apply Z.bits_inj'. intros n _.
  rewrite !Z.land_spec, Z.ldiff_spec. assert (B : Z.testbit (Z.land b c) n = false) by (by rewrite E, Z.bits_0).
  rewrite Z.land_spec in B. destruct (Z.testbit f n), (Z.testbit b n), (Z.testbit c n); done.
Qed.

(** * Weights of masks *)

Section weight.
Context `{Config}.
Lemma weight_nonneg m : 0 <= cpumask_weight m.
Proof. unfold cpumask_weight. lia. Qed.
Lemma weight_sub a b :
  (forall c, cpumask_test_cpu c a = true -> cpumask_test_cpu c b = true) -> cpumask_weight a <= cpumask_weight b.
Proof.
  intros Hs. unfold cpumask_weight. apply Nat2Z.inj_le, submseteq_length, NoDup_submseteq; [apply NoDup_cpus_of|].
  intros c. rewrite !elem_of_cpus_of. naive_solver.
Qed.
Lemma weight_less a b c :
  (forall d, cpumask_test_cpu d a = true -> cpumask_test_cpu d b = true) ->
  c ∈ cpus_of b -> cpumask_test_cpu c a = false -> cpumask_weight a < cpumask_weight b.
Proof.
  intros Hs Hc Ha. unfold cpumask_weight.
  assert (L : (length (c :: cpus_of a) <= length (cpus_of b))%nat); [|cbn in L; lia].
  apply submseteq_length, NoDup_submseteq.
  - constructor; [|apply NoDup_cpus_of]. rewrite elem_of_cpus_of. naive_solver congruence.
  - intros d. rewrite elem_of_cons. intros [->|Hd]; [done|].
    rewrite elem_of_cpus_of in *. naive_solver.
Qed.
Lemma clear_sub c d m : cpumask_test_cpu d (cpumask_clear_cpu c m) = true -> cpumask_test_cpu d m = true.
Proof.
  destruct (decide (c = d)) as [->|]; [by rewrite test_clear_eq|by rewrite test_clear_ne].
Qed.
Lemma weight_pos m : cpumask_empty m = false -> 1 <= cpumask_weight m.
Proof. unfold cpumask_empty, cpumask_weight. destruct (cpus_of m); [done|]. cbn. lia. Qed.
End weight.

(** * What a balancing pass may do to tasks *)

(** A task stays, or moves between CPUs related by [K] to one that it may use, if it is not
    running. *)
Definition may_shift (K : Z -> Z -> Prop) (t t' : task_struct) : Prop :=
  t' = t \/ exists dst, t' = t <| task_cpu := dst |> /\ cpumask_test_cpu dst (cpus_allowed t) = true
    /\ K (task_cpu t) dst /\ on_cpu t = 0.
Definition shifted (K : Z -> Z -> Prop) (s s' : sys) : Prop := forall p, may_shift K (tasks s p) (tasks s' p).
Definition within (span : cpumask) (a b : Z) : Prop :=
  cpumask_test_cpu a span = true /\ cpumask_test_cpu b span = true.
#[export] Instance within_trans span : Transitive (within span).
Proof. unfold within. intros a b c. tauto. Qed.

#[export] Instance shifted_preorder K : Transitive K -> PreOrder (shifted K).
Proof.
  intros HK. split.
  - intros s p. by left.
  - intros s1 s2 s3 H1 H2 p. destruct (H1 p) as [E1|(a & E1 & A1 & A2 & A3)].
    + rewrite <- E1. apply H2.
    + right. destruct (H2 p) as [E2|(b & E2 & B1 & B2 & B3)].
      * exists a. by rewrite E2.
      * exists b. rewrite E2. rewrite E1 in *. destruct (tasks s1 p); cbn in *. split_and!; try done.
        by etransitivity.
Qed.
Lemma shifted_same K s s' : (forall p, tasks s' p = tasks s p) -> shifted K s s'.
Proof. intros E p. by left. Qed.
Lemma shifted_mono (K K' : Z -> Z -> Prop) s s' :
  (forall a b, K a b -> K' a b) -> shifted K s s' -> shifted K' s s'.
Proof.
  intros Hs Hsh p. destruct (Hsh p) as [|(d & ? & ? & ? & ?)]; [by left|]. right. exists d. split_and!; auto.
Qed.

(** * Clocks and stoppers *)

Section clocks.
Context `{Config}.
Implicit Types (s : sys).

Definition aged_view (r : rq) := (rq_clock r, age_stamp (rq_lb r), rt_avg (rq_lb r)).

Lemma clock_catches_up x y a p :
  0 <= p -> p + u64 (x - a) + u64 (y - x) < 2 ^ 42 -> p + u64 (u64 y - a) + u64 (y - u64 y) < 2 ^ 42.
Proof.
  intros Hp Hx. replace (u64 (u64 y - a)) with (u64 (y - a)) by (unfold u64; by rewrite Zminus_mod_idemp_l).
  replace (u64 (y - u64 y)) with (u64 (y - y)) by (unfold u64; by rewrite Zminus_mod_idemp_r). replace (y - a) with ((x - a) + (y - x)) by lia.
  pose proof (u64_range (x - a)). pose proof (u64_range (y - x)).
  assert (E : u64 (x - a + (y - x)) = u64 (x - a) + u64 (y - x)).
  { rewrite <- (u64_id (u64 (x - a) + u64 (y - x))) by lia. unfold u64. apply Z.add_mod. lia. }
  rewrite E, Z.sub_diag. change (u64 0) with 0. lia.
Qed.

(** A clock that stands still or has been read again. *)
Lemma aged_same s s' :
  (forall c, aged_view (rqs s' c) = aged_view (rqs s c) \/
             aged_view (rqs s' c) = aged_view (rqs s c <| rq_clock := u64 (sched_clock s c) |>)) ->
  (sysctl s', sched_clock s') = (sysctl s, sched_clock s) -> aged s -> aged s'.
Proof.
  intros Ha Hc [A1 A2]. injection Hc as E1 E2.
  assert (Ep : sched_avg_period s' = sched_avg_period s) by (unfold sched_avg_period; by rewrite E1).
  assert (Hp : 0 <= sched_avg_period s) by (apply Z.div_pos; [apply u64_range|lia]).
  assert (Ev : forall c, age_stamp (rq_lb (rqs s' c)) = age_stamp (rq_lb (rqs s c))
    /\ rt_avg (rq_lb (rqs s' c)) = rt_avg (rq_lb (rqs s c))
    /\ (rq_clock (rqs s' c) = rq_clock (rqs s c) \/ rq_clock (rqs s' c) = u64 (sched_clock s c))).
  { intros c. unfold aged_view in Ha. destruct (Ha c) as [E|E]; cbn in E; simplify_eq; auto. }
  split; intros c; destruct (Ev c) as (V1 & V2 & V3); rewrite ?Ep, ?E2, ?V1, ?V2; [|apply A2].
  destruct V3 as [->| ->]; [apply A1|]. by apply (clock_catches_up (rq_clock (rqs s c))).
Qed.

(** A CPU whose stopper is to push a task away pushes it to another CPU. *)
Definition pushes s : Prop := forall c, active_balance (rqs s c) <> 0 ->
  push_cpu (rqs s c) <> c /\ 0 <= push_cpu (rqs s c) < NR_CPUS.
Definition pushing (r : rq) := (active_balance r, push_cpu r).
Lemma pushes_same s s' :
  (forall c, pushing (rqs s' c) = pushing (rqs s c) \/ active_balance (rqs s' c) = 0) -> pushes s -> pushes s'.
Proof.
  intros E Hp c Ha. destruct (E c) as [Ec|]; [|done]. unfold pushing in Ec. injection Ec as E1 E2.
  rewrite E1 in Ha. rewrite E2. auto.
Qed.
End clocks.

Section safe.
Context `{Config}.
Context (univ : list se_id) (univ_nodup : NoDup univ) (univ_small : Z.of_nat (length univ) <= 48000).
Implicit Types (s : sys) (env : lb_env) (sd : sd_ptr).

(** * The invariant *)

(** The accounts and lists of run queues agree, the topology is well-formed, all tasks are in
    the root group. *)
Record bal_ok s : Prop := {
  bo_cfs : cfs_ok univ s;
  bo_lists : lists_ok univ s;
  bo_topo : topo_ok s;
  bo_power : power_ok s;
  bo_aged : aged s;
  bo_tree : tg_home (tgs s 0) = (None, []);
  bo_root : forall q, cfs_tg (cfss s q) = 0;
  bo_push : pushes s;
  bo_migrate : 0 <= sysctl_sched_nr_migrate (sysctl s) < 2 ^ 32 - 1;
  bo_time : 0 < sysctl_sched_time_avg (sysctl s) < 2 ^ 32;
}.

(** Steps that do not move tasks, nor change the topology. *)
Record calm s s' : Prop := {
  cm_load : loadeq s s';
  cm_tasks : forall p, tasks s' p = tasks s p;
  cm_list : forall c p, p ∈ cfs_tasks (rqs s' c) -> p ∈ cfs_tasks (rqs s c);
  cm_topo : same_topo s s';
  cm_power : forall c, power_of s' c = power_of s c;
  cm_group : forall g, sg_power (get_sg s' g) = sg_power (get_sg s g);
  cm_aged : aged s -> aged s';
  cm_push : pushes s -> pushes s';
  cm_const : (sysctl s', sched_clock s', enh s') = (sysctl s, sched_clock s, enh s);
  cm_tree : forall t, tg_home (tgs s' t) = tg_home (tgs s t);
}.
#[export] Instance calm_preorder : PreOrder calm.
Proof.
  split.
  - intros s. by split.
  - intros s1 s2 s3 [] []. split; try (intros; congruence); try (by etransitivity); auto.
Qed.

Lemma lists_calm s s' : calm s s' -> lists_ok univ s -> lists_ok univ s'.
Proof.
  intros C [Hh Hg Ht Hr]. pose proof (cm_load _ _ C) as L. split.
  - intros c. destruct (cfs_frame_inv _ _ (le_cfs _ _ L (CfsRq 0 c))) as (_ & E1 & E2 & _).
    unfold cfs_home in *. rewrite E1, E2. apply Hh.
  - intros p. rewrite (cm_tasks _ _ C). apply Hg.
  - intros c p Hp%(cm_list _ _ C). destruct (Ht c p Hp) as (Hu & Hq & Hc).
    rewrite (cm_tasks _ _ C). split_and!; [done| |done].
    by apply (ent_view_queued s s'); [apply (le_se _ _ L)|].
  - intros q p. destruct (cfs_frame_inv _ _ (le_cfs _ _ L q)) as (E1 & _). rewrite E1, (cm_tasks _ _ C). apply Hr.
Qed.

Lemma bal_ok_calm s s' : calm s s' -> bal_ok s -> bal_ok s'.
Proof.
  intros C [B1 B2 B3 B4 B5 B6 B7 B8 B9 B10]. pose proof (cm_const _ _ C) as Ec. injection Ec as E1 E2 E3. split.
  - by rewrite <- (cm_load _ _ C).
  - by apply (lists_calm s).
  - by rewrite <- (cm_topo _ _ C).
  - by apply (power_ok_same s); [apply C..| |].
  - by apply C.
  - by rewrite (cm_tree _ _ C).
  - intros q. by destruct (cfs_frame_inv _ _ (le_cfs _ _ (cm_load _ _ C) q)) as (_ & _ & -> & _).
  - by apply C.
  - by rewrite E1.
  - by rewrite E1.
Qed.

(** Operations of the class that leave the fields of balancing alone. *)
Lemma still_parts s s' :
  still_usage s s' -> clocked s s' ->
  same_topo s s' /\ (forall c, power_of s' c = power_of s c) /\
  (forall g, sg_power (get_sg s' g) = sg_power (get_sg s g)) /\ (aged s -> aged s') /\
  (pushes s -> pushes s') /\ enh s' = enh s.
Proof.
  intros F Kc. assert (V : forall c, rq_sd (rqs s' c) = rq_sd (rqs s c) /\ rq_lb (rqs s' c) = rq_lb (rqs s c)
    /\ pushing (rqs s' c) = pushing (rqs s c)).
  { intros c. pose proof (st_rq _ _ _ _ _ _ F c) as E. split_and!.
    - exact (f_equal (fun v => v.1.2) E).
    - exact (f_equal (fun v => v.2.1.2) E).
    - exact (f_equal (fun v => (v.1.1.1.1, v.1.1.2)) E). }
  assert (Eb : bal s' = bal s) by exact (f_equal (fun v => v.2.1.1.2) (st_env _ _ _ _ _ _ F)).
  split_and!.
  - split; [intros c; by rewrite (proj1 (V c))|]. intros g. unfold sched_group_cpus, get_sg. by rewrite Eb.
  - intros c. unfold power_of. by rewrite (proj1 (proj2 (V c))).
  - intros g. unfold get_sg. by rewrite Eb.
  - apply aged_same; [|apply F]. intros c. unfold aged_view. rewrite (proj1 (proj2 (V c))). cbn.
    destruct (Kc c) as [->| ->]; auto.
  - apply pushes_same. intros c. left. apply V.
  - exact (f_equal (fun v => v.2.1.2) (st_env _ _ _ _ _ _ F)).
Qed.

Lemma resting_usage s s' : resting s s' -> still_usage s s'.
Proof. intros R. by apply still_weaken, resting_still. Qed.

Lemma calm_timed s s' : timed s s' -> loadeq s s' -> calm s s'.
Proof.
  intros [F Kc] L. destruct (still_parts s s' (resting_usage _ _ F) Kc) as (P1 & P2 & P3 & P4 & P5 & P6).
  split; try done; try apply F.
  - intros c p. by rewrite (resting_list _ _ c F).
  - pose proof (st_const _ _ _ _ _ _ F) as Ec. by rewrite <- Ec, P6.
Qed.
Lemma calm_frozen s s' : frozen s s' -> loadeq s s' -> calm s s'.
Proof. intros F. apply calm_timed. by apply frozen_timed. Qed.

Lemma bal_ok_repowered s s' : repowered s s' -> bal_ok s -> bal_ok s'.
Proof.
  intros R [B1 B2 B3 B4 B5 B6 B7 B8 B9 B10]. pose proof (rp_rest _ _ R) as E.
  assert (L : loadeq s s') by (rewrite E; by split).
  split.
  - by rewrite <- L.
  - destruct B2 as [Hh Hg Ht Hr]. rewrite E. split; [done|done| |done].
    intros c p. cbn. rewrite (rp_rq _ _ R). apply Ht.
  - by rewrite <- (rp_topo _ _ R).
  - by apply (rp_power _ _ R).
  - by apply (aged_repowered s).
  - by rewrite E.
  - by rewrite E.
  - revert B8. apply pushes_same. intros c. left. by rewrite (rp_rq _ _ R).
  - by rewrite E.
  - by rewrite E.
Qed.

(** ** Calm steps *)

Lemma calm_upd_sd sd f s : (forall d, sd_view (f d) = sd_view d) -> calm s (upd_sd sd f s).
Proof.
  intros Hf. unfold upd_sd. set (g := fun r : rq => _).
  assert (V : forall c, sd_view <$> rq_sd (rqs (upd_rq sd.1 g s) c) = sd_view <$> rq_sd (rqs s c)).
  { intros c. destruct (decide (sd.1 = c)) as [<-|]; store_rw; [|done]. unfold g. cbn.
    apply list_eq. intros i. rewrite !list_lookup_fmap. destruct (decide (sd.2 = i)) as [<-|].
    - rewrite list_lookup_alter_eq. destruct (rq_sd (rqs s sd.1) !! sd.2); cbn; [by rewrite Hf|done].
    - by rewrite list_lookup_alter_ne. }
  assert (W : forall c, rqs (upd_rq sd.1 g s) c = rqs s c <| rq_sd := rq_sd (rqs (upd_rq sd.1 g s) c) |>).
  { intros c. destruct (decide (sd.1 = c)) as [<-|]; store_rw; [done|]. by destruct (rqs s c). }
  split; try done.
  - intros c p. by rewrite W.
  - intros c. unfold power_of. by rewrite W.
  - apply aged_same; [|done]. intros c. left. by rewrite W.
  - apply pushes_same. intros c. left. by rewrite W.
Qed.

Lemma calm_upd_rq cpu f s :
  (forall r, rq_sd (f r) = rq_sd r) -> (forall r, cpu_power (rq_lb (f r)) = cpu_power (rq_lb r)) ->
  (forall r, aged_view (f r) = aged_view r) -> (forall r p, p ∈ cfs_tasks (f r) -> p ∈ cfs_tasks r) ->
  (forall r, pushing (f r) = pushing r \/ active_balance (f r) = 0) -> calm s (upd_rq cpu f s).
Proof.
  intros H1 H2 H3 H4 H5. split; try done.
  - intros c p. destruct (decide (cpu = c)) as [->|]; store_rw; auto.
  - split; [|done]. intros c. destruct (decide (cpu = c)) as [->|]; store_rw; [by rewrite H1|done].
  - intros c. unfold power_of. destruct (decide (cpu = c)) as [->|]; store_rw; auto.
  - apply aged_same; [|done]. intros c. left. destruct (decide (cpu = c)) as [->|]; store_rw; auto.
  - apply pushes_same. intros c. destruct (decide (cpu = c)) as [->|]; store_rw; auto.
Qed.

Lemma update_h_load_ok cpu s : bal_ok s -> exists s', update_h_load cpu s = Some s' /\ calm s s'.
Proof.
  intros B. pose proof (bo_tree s B) as Ht. unfold tg_home in Ht. injection Ht as Hp Hc.
  unfold update_h_load. case_match; [by exists s|].
  set (s1 := upd_rq_lb cpu _ s). assert (C1 : calm s s1) by (by apply calm_upd_rq; auto).
  assert (E1 : tgs s1 = tgs s) by done. clearbody s1.
  assert (W : forall fuel, walk_tg_tree fuel cpu 0 s1
    = Some (upd_cfs (CfsRq 0 cpu) (fun c => c <| h_load := rq_weight (rqs s1 cpu) |>) s1)).
  { intros fuel. destruct fuel; cbn [walk_tg_tree]; unfold tg_load_down; rewrite E1, Hp; cbn [mbind option_bind];
      change (tgs (upd_cfs (CfsRq 0 cpu) _ s1)) with (tgs s1); rewrite E1, Hc; done. }
  rewrite W. eexists. split; [done|]. transitivity s1; [done|]. split; try done.
  - apply loadeq_upd_cfs; done.
  - apply aged_same; [|done]. by left.
Qed.

Lemma calm_rotate cpu p s : p ∈ cfs_tasks (rqs s cpu) -> calm s (rotate_tasks cpu p s).
Proof.
  intros Hp. unfold rotate_tasks. split; try done.
  - intros c x. destruct (decide (cpu = c)) as [->|]; store_rw; [|done]. cbn.
    rewrite elem_of_app, list_elem_of_filter, list_elem_of_singleton. naive_solver.
  - split; [|done]. intros c. destruct (decide (cpu = c)) as [->|]; by store_rw.
  - intros c. unfold power_of. destruct (decide (cpu = c)) as [->|]; by store_rw.
  - apply aged_same; [|done]. intros c. left. destruct (decide (cpu = c)) as [->|]; by store_rw.
  - apply pushes_same. intros c. left. destruct (decide (cpu = c)) as [->|]; by store_rw.
Qed.

Lemma calm_resched cpu s : calm s (resched_cpu cpu s).
Proof. apply calm_frozen; [apply still_resched|]. unfold resched_cpu, resched_curr. by split. Qed.

(** ** Moving one task *)

Lemma bal_ok_still s s' :
  still_usage s s' -> clocked s s' -> cfs_ok univ s' -> lists_ok univ s' -> bal_ok s ->
  bal_ok s' /\ same_topo s s'.
Proof.
  intros S Kc M1 M2 [B1 B2 B3 B4 B5 B6 B7 B8 B9 B10].
  destruct (still_parts s s' S Kc) as (T & P2 & P3 & P4 & P5 & P6).
  pose proof (f_equal fst (st_const _ _ _ _ _ _ S) : sysctl s' = sysctl s) as Ec.
  split; [split|done]; try done; try by rewrite Ec.
  - by rewrite <- T.
  - by apply (power_ok_same s).
  - auto.
  - by rewrite (st_tree _ _ _ _ _ _ S).
  - intros q. by rewrite (f_equal snd (st_home _ _ _ _ _ _ S q) : cfs_tg (cfss s' q) = cfs_tg (cfss s q)).
  - auto.
Qed.

Lemma bal_ok_move p src dst s :
  bal_ok s -> p ∈ cfs_tasks (rqs s src) -> on_cpu (tasks s p) = 0 ->
  bal_ok (move_task p src dst s) /\ same_topo s (move_task p src dst s)
  /\ moved p src dst s (move_task p src dst s).
Proof.
  intros B Hp Hoff.
  destruct (move_ok univ univ_nodup univ_small p src dst s (bo_cfs s B) (bo_lists s B) Hp Hoff) as (M1 & M2 & M3).
  destruct (bal_ok_still s _ (still_move p src dst s) (mv_clock _ _ _ _ _ M3) M1 M2 B). auto.
Qed.

Lemma task_h_load_some p src s :
  bal_ok s -> p ∈ cfs_tasks (rqs s src) -> exists x, task_h_load s p = Some x /\ 0 <= x < 2 ^ BITS_PER_LONG.
Proof.
  intros B Hp. destruct (li_task _ _ (bo_lists s B) src p Hp) as (_ & [_ Hq] & _). unfold task_h_load. rewrite Hq.
  pose proof (qo_weight _ _ _ (co_queue _ _ (bo_cfs s B) src)) as Ew.
  destruct (member_sums_small univ univ_small s (CfsRq 0 src)) as (W1 & _ & W3).
  { intros i Hi. by apply (co_task _ _ (bo_cfs s B)). }
  rewrite (ulong_id (_ + 1)) by lia. rewrite u32_id by lia. rewrite udiv_some by lia. cbn.
  eexists. split; [done|]. apply ulong_range.
Qed.

(** * Moving tasks *)

Abbreviation all_pinned env := (has_flag (lb_flags env) LBF_ALL_PINNED).
Abbreviation need_break env := (has_flag (lb_flags env) LBF_NEED_BREAK).
Abbreviation some_pinned env := (has_flag (lb_flags env) LBF_SOME_PINNED).

Definition env_static env :=
  (lb_me env, lb_sd env, src_cpu env, dst_cpu env, (dst_grpmask env, idle env, lb_cpus env, loop_max env)).

(** The destination, and another one if some tasks are pinned, are in the group [G]. *)
Record env_ok (G : cpumask) env : Prop := {
  eo_dst : cpumask_test_cpu (dst_cpu env) G = true;
  eo_mask : forall m c, dst_grpmask env = Some m -> cpumask_test_cpu c m = true -> cpumask_test_cpu c G = true;
  eo_pin : some_pinned env = true ->
    new_dst_cpu env ∈ cpus_of (lb_cpus env) /\ cpumask_test_cpu (new_dst_cpu env) G = true;
}.

(** What looking at a task does to the environment. *)
Record looked env env' : Prop := {
  lk_static : env_static env' = env_static env;
  lk_count : (imbalance env', lb_loop env', loop_break env') = (imbalance env, lb_loop env, loop_break env);
  lk_break : need_break env' = need_break env;
  lk_all : all_pinned env' = true -> all_pinned env = true;
}.

Lemma can_migrate_spec G env p s env' ok :
  can_migrate_task env p s = (env', ok) -> env_ok G env ->
  env_ok G env' /\ looked env env' /\
  (ok = true -> cpumask_test_cpu (dst_cpu env) (cpus_allowed (tasks s p)) = true
                /\ on_cpu (tasks s p) = 0 /\ all_pinned env' = false).
Proof.
  intros E He. assert (R : looked env env) by done. unfold can_migrate_task in E.
  destruct (cpumask_test_cpu (dst_cpu env) (tsk_cpus_allowed s p)) eqn:Ea; cbn [negb] in E.
  - set (env1 := clear_env_flag LBF_ALL_PINNED env) in E.
    assert (H1 : env_ok G env1 /\ looked env env1).
    { destruct He as [Hd Hm Hp]. unfold env1, clear_env_flag. split; split; cbn; try done.
      - rewrite flag_ldiff_ne by done. exact Hp.
      - by rewrite flag_ldiff_ne.
      - by rewrite flag_ldiff_eq. }
    assert (A1 : all_pinned env1 = false) by apply flag_ldiff_eq.
    clearbody env1. destruct H1 as [H1 H2].
    destruct (nonzero (on_cpu (tasks s p))) eqn:Eo; injection E as <- <-; [done|].
    unfold nonzero in Eo. destruct (Z.eqb_spec (on_cpu (tasks s p)) 0); done.
  - destruct (dst_grpmask env) as [m|] eqn:Em; [|by injection E as <- <-].
    destruct (some_pinned env) eqn:Es; [by injection E as <- <-|].
    destruct (List.find _ _) as [c|] eqn:Ef; [|by injection E as <- <-].
    injection E as <- <-. apply find_some in Ef as [Hc _].
    apply list_elem_of_In, elem_of_cpus_of in Hc as [Hr Hc].
    rewrite test_and in Hc. apply andb_true_iff in Hc as [Hc1 Hc2].
    destruct He as [Hd Hm Hp]. split_and!; [split|split|done]; cbn; try done.
    + intros _. split; [by apply elem_of_cpus_of|]. by apply (Hm m).
    + rewrite flag_lor. cbn. by rewrite orb_false_r.
    + rewrite flag_lor. cbn. by rewrite orb_false_r.
Qed.

Lemma should_move_ok G env p s :
  bal_ok s -> env_ok G env -> p ∈ cfs_tasks (rqs s (src_cpu env)) ->
  exists env' m, should_move env p s = Some (env', m) /\ env_ok G env' /\ looked env env' /\
  (forall load, m = Some load ->
     cpumask_test_cpu (dst_cpu env) (cpus_allowed (tasks s p)) = true /\ on_cpu (tasks s p) = 0
     /\ all_pinned env' = false /\ 0 <= load < 2 ^ BITS_PER_LONG /\ load / 2 <= ulong (imbalance env)
     /\ task_h_load s p = Some load).
Proof.
  intros B He Hp. unfold should_move. destruct (can_migrate_task env p s) as [env' ok] eqn:E.
  destruct (can_migrate_spec G env p s env' ok E He) as (H1 & H2 & H3).
  destruct ok; cbn [negb]; [|by exists env', None].
  destruct (task_h_load_some p _ s B Hp) as (x & Ex & Hx). rewrite Ex. cbn [mbind option_bind].
  case_match; [by exists env', None|].
  destruct (Z.ltb_spec (ulong (imbalance env')) (x / 2)) as [|Hi]; [by exists env', None|].
  exists env', (Some x). split_and!; [done..|]. intros load [= <-]. destruct H3 as (? & ? & ?); [done|].
  pose proof (f_equal (fun v => v.1.1) (lk_count _ _ H2)) as Ei. cbn in Ei. rewrite Ei in Hi. done.
Qed.

(** What a pass over the tasks of the source CPU achieves, and how far it got. *)
Record passed (G span : cpumask) env s env' s' : Prop := {
  ps_ok : bal_ok s';
  ps_topo : same_topo s s';
  ps_shift : shifted (within span) s s';
  ps_env : env_ok G env';
  ps_static : env_static env' = env_static env;
  ps_loop : lb_loop env <= lb_loop env' <= loop_max env + 1;
  ps_break : need_break env' = true -> lb_loop env < lb_loop env' <= loop_max env;
  ps_all : all_pinned env' = true -> all_pinned env = true /\ imbalance env' = imbalance env;
  ps_bound : 0 < imbalance env < 2 ^ (BITS_PER_LONG - 1) ->
    - imbalance env - 1 <= imbalance env' <= imbalance env;
}.

Lemma slong_fits z : - 2 ^ (BITS_PER_LONG - 1) <= z < 2 ^ (BITS_PER_LONG - 1) -> slong z = z.
Proof.
  intros. unfold slong. rewrite Z.mod_small; [lia|].
  assert (2 ^ BITS_PER_LONG = 2 * 2 ^ (BITS_PER_LONG - 1)); [|lia].
  rewrite <- Z.pow_succ_r; [f_equal; lia|]. destruct BITS_PER_LONG_ok; lia.
Qed.
Lemma ulong_fits z : 0 <= z < 2 ^ (BITS_PER_LONG - 1) -> ulong z = z.
Proof.
  intros. unfold ulong. apply Z.mod_small. split; [lia|]. etrans; [apply H0|].
  apply Z.pow_lt_mono_r; destruct BITS_PER_LONG_ok; lia.
Qed.

Lemma shifted_move span p src dst s s' :
  moved p src dst s s' -> task_cpu (tasks s p) = src -> on_cpu (tasks s p) = 0 ->
  cpumask_test_cpu dst (cpus_allowed (tasks s p)) = true -> cpumask_test_cpu dst span = true ->
  cpumask_test_cpu src span = true -> shifted (within span) s s'.
Proof.
  intros M Hc Ho Ha Hd Hs x. rewrite (mv_task _ _ _ _ _ M). case_decide as E; [|by left]. subst x. right.
  exists dst. by rewrite Hc.
Qed.


Lemma passed_refl G span env s :
  bal_ok s -> env_ok G env -> need_break env = false -> lb_loop env <= loop_max env + 1 ->
  passed G span env s env s.
Proof. intros B He Hn Hl. split; try done; [by rewrite Hn|lia]. Qed.

(** One round of the loop: a task has been counted, and perhaps moved. *)
Record stepped (G span : cpumask) env s env' s' : Prop := {
  sp_ok : bal_ok s';
  sp_topo : same_topo s s';
  sp_shift : shifted (within span) s s';
  sp_env : env_ok G env';
  sp_static : env_static env' = env_static env;
  sp_loop : lb_loop env' = lb_loop env + 1;
  sp_all : all_pinned env' = true -> all_pinned env = true /\ imbalance env' = imbalance env;
  sp_bound : 0 < imbalance env < 2 ^ (BITS_PER_LONG - 1) ->
    - imbalance env - 1 <= imbalance env' <= imbalance env;
}.

Lemma passed_step G span env s env1 s1 env' s' :
  stepped G span env s env1 s1 -> (0 < imbalance env -> 0 < imbalance env1) ->
  passed G span env1 s1 env' s' -> passed G span env s env' s'.
Proof.
  intros [Q1 T Sh Q4 Es El Ea Ei] Hpos [P1 P2 P3 P4 P5 P6 P7 P8 P9].
  assert (Em : loop_max env1 = loop_max env) by exact (f_equal (fun v => v.2.2) Es).
  rewrite Em, El in *. split; try done.
  - by rewrite T.
  - by rewrite Sh.
  - by rewrite P5.
  - lia.
  - intros Hb%P7. lia.
  - intros Hb%P8. destruct Hb as [A1 A2]. destruct (Ea A1). split; [done|]. congruence.
  - intros Hb. specialize (Ei Hb). destruct P9; lia.
Qed.

Lemma passed_end G span env s env1 s1 :
  stepped G span env s env1 s1 -> lb_loop env <= loop_max env ->
  (need_break env1 = true -> lb_loop env < loop_max env) -> passed G span env s env1 s1.
Proof. intros [] Hl Hn. split; try done; [lia|]. intros ?%Hn. lia. Qed.

(** Subtracting the load of a task that is not more than twice the imbalance. *)
Lemma imbalance_after imb load :
  0 < imb < 2 ^ (BITS_PER_LONG - 1) -> 0 <= load -> load / 2 <= ulong imb ->
  slong (imb - load) = imb - load /\ - imb - 1 <= imb - load <= imb.
Proof.
  intros Hi Hl H2. rewrite ulong_fits in H2 by lia. pose proof (div_floor_bounds load 2 ltac:(lia)).
  rewrite slong_fits by lia. lia.
Qed.

(** Nothing but the counters and flags of the environment change. *)
Lemma stepped_count G span env env' s :
  bal_ok s -> env_ok G env' -> env_static env' = env_static env -> lb_loop env' = lb_loop env + 1 ->
  imbalance env' = imbalance env -> (all_pinned env' = true -> all_pinned env = true) -> stepped G span env s env' s.
Proof. intros B He Es El Ei Ea. split; try done; [|lia]. auto. Qed.

(** The task that was looked at goes to the end of the list. *)
Lemma stepped_rotate G span env env' p s :
  bal_ok s -> env_ok G env' -> p ∈ cfs_tasks (rqs s (src_cpu env)) ->
  looked (env <| lb_loop := lb_loop env + 1 |>) env' ->
  stepped G span env s env' (rotate_tasks (src_cpu env) p s).
Proof.
  intros B He Hp [K1 K2 K3 K4]. assert (C : calm s (rotate_tasks (src_cpu env) p s)) by (by apply calm_rotate).
  assert (I2 : imbalance env' = imbalance env) by exact (f_equal (fun v => v.1.1) K2).
  split; [by apply (bal_ok_calm s)|apply C|apply shifted_same, C|done|done| | |lia].
  - exact (f_equal (fun v => v.1.2) K2).
  - intros A. split; [by apply K4|done].
Qed.

(** It is moved. *)
Lemma stepped_move G span env env' p load s :
  bal_ok s -> env_ok G env -> env_ok G env' -> p ∈ cfs_tasks (rqs s (src_cpu env)) ->
  looked (env <| lb_loop := lb_loop env + 1 |>) env' ->
  cpumask_test_cpu (dst_cpu env) (cpus_allowed (tasks s p)) = true -> on_cpu (tasks s p) = 0 ->
  all_pinned env' = false -> 0 <= load -> load / 2 <= ulong (imbalance env) ->
  cpumask_test_cpu (src_cpu env) span = true ->
  (forall c, cpumask_test_cpu c G = true -> cpumask_test_cpu c span = true) ->
  stepped G span env s (env' <| imbalance := slong (imbalance env - load) |>)
    (move_task p (src_cpu env) (dst_cpu env) s).
Proof.
  intros B He He' Hp [K1 K2 K3 K4] Ha Ho Hpin Hl Hi Hs HG.
  destruct (bal_ok_move p (src_cpu env) (dst_cpu env) s B Hp Ho) as (B3 & T3 & M3).
  split; try done.
  - apply (shifted_move span p (src_cpu env) (dst_cpu env)); try done; [|apply HG, He].
    by apply (li_task _ _ (bo_lists s B)).
  - by destruct He'.
  - exact (f_equal (fun v => v.1.2) K2).
  - intros A. change (all_pinned env' = true) in A. congruence.
  - intros Hb. destruct (imbalance_after (imbalance env) load Hb Hl Hi) as [E ?]. cbn. by rewrite E.
Qed.

Lemma move_tasks_loop_ok G span fuel env pulled s :
  bal_ok s -> env_ok G env -> need_break env = false -> 0 <= lb_loop env <= loop_max env ->
  loop_max env < 2 ^ 32 - 1 -> cpumask_test_cpu (src_cpu env) span = true ->
  (forall c, cpumask_test_cpu c G = true -> cpumask_test_cpu c span = true) ->
  fuel = Z.to_nat (loop_max env - lb_loop env) ->
  exists s' env' n, move_tasks_loop fuel env pulled s = Some (s', env', n) /\ passed G span env s env' s'.
Proof.
  intros B He Hn Hl Hm Hs HG. revert env pulled s B He Hn Hl Hm Hs.
  induction fuel as [|fuel IH]; intros env pulled s B He Hn Hl Hm Hs Hf.
  all: cbn [move_tasks_loop]; destruct (cfs_tasks (rqs s (src_cpu env))) as [|p rest] eqn:Ecfs;
    [exists s, env, pulled; split; [done|]; apply passed_refl; (done || lia)|].
  all: assert (Hin : p ∈ cfs_tasks (rqs s (src_cpu env))) by (rewrite Ecfs; apply list_elem_of_here).
  all: rewrite (u32_id (lb_loop env + 1)) by lia; set (env1 := env <| lb_loop := lb_loop env + 1 |>).
  all: assert (He1 : env_ok G env1) by (destruct He; by split).
  all: assert (St1 : stepped G span env s env1 s) by (by apply stepped_count).
  all: change (lb_loop env1) with (lb_loop env + 1); change (loop_max env1) with (loop_max env).
  all: destruct (Z.ltb_spec (loop_max env) (lb_loop env + 1)) as [|Hle];
    [exists s, env1, pulled; split; [done|]; apply passed_end; [done|lia|by change (need_break env1) with (need_break env); rewrite Hn]|].
  { lia. }
  destruct (loop_break env1 <? lb_loop env + 1) eqn:Ebr.
  { eexists s, _, pulled. split; [done|]. apply passed_end; [|lia|lia]. apply stepped_count; try done.
    - destruct He1 as [E1 E2 E3]. split; cbn; try done. rewrite flag_lor. cbn. by rewrite orb_false_r.
    - cbn. rewrite flag_lor. cbn. by rewrite orb_false_r. }
  destruct (should_move_ok G env1 p s B He1 Hin) as (env2 & m & -> & He2 & Lk & Hmv). cbn [mbind option_bind].
  assert (S2 : (src_cpu env2, dst_cpu env2, loop_max env2) = (src_cpu env, dst_cpu env, loop_max env))
    by exact (f_equal (fun v => (v.1.1.2, v.1.2, v.2.2)) (lk_static _ _ Lk)).
  assert (I2 : (imbalance env2, lb_loop env2) = (imbalance env, lb_loop env + 1))
    by exact (f_equal (fun v => (v.1.1, v.1.2)) (lk_count _ _ Lk)).
  assert (N2 : need_break env2 = false) by (rewrite (lk_break _ _ Lk); exact Hn).
  injection S2 as S2 D2 M2. injection I2 as I2 L2. rewrite S2. destruct m as [load|].
  - destruct (Hmv load eq_refl) as (A1 & A2 & A3 & A4 & A5 & _). rewrite D2, I2.
    pose proof (stepped_move G span env env2 p load s B He He2 Hin Lk A1 A2 A3 (proj1 A4) A5 Hs HG) as St.
    set (s3 := move_task p _ _ s) in *. set (env3 := env2 <| imbalance := _ |>) in *. clearbody s3.
    destruct ((CONFIG_PREEMPT && _) || (imbalance env3 <=? 0)) eqn:Est.
    { eexists s3, env3, _. split; [done|]. apply passed_end; [done|lia|].
      change (need_break env3) with (need_break env2). by rewrite N2. }
    apply orb_false_iff in Est as [_ Est%Z.leb_gt].
    assert (S3 : src_cpu env3 = src_cpu env) by exact S2. assert (X3 : loop_max env3 = loop_max env) by exact M2.
    assert (L3 : lb_loop env3 = lb_loop env + 1) by exact L2.
    destruct (IH env3 (pulled + 1) s3) as (s' & env' & n & E & P);
      [apply St|apply St|done|lia|lia|by rewrite S3|lia|].
    exists s', env', n. split; [done|]. by apply (passed_step G span env s env3 s3).
  - pose proof (stepped_rotate G span env env2 p s B He2 Hin Lk) as St. set (s3 := rotate_tasks _ _ s) in *. clearbody s3.
    destruct (IH env2 pulled s3) as (s' & env' & n & E & P); [apply St|done|done|lia|lia|by rewrite S2|lia|].
    exists s', env', n. split; [done|]. apply (passed_step G span env s env2 s3); [done|lia|done].
Qed.

Lemma move_tasks_ok G span env s :
  bal_ok s -> env_ok G env -> need_break env = false -> 0 <= lb_loop env <= loop_max env ->
  loop_max env < 2 ^ 32 - 1 -> cpumask_test_cpu (src_cpu env) span = true ->
  (forall c, cpumask_test_cpu c G = true -> cpumask_test_cpu c span = true) ->
  exists s' env' n, move_tasks env s = Some (s', env', n) /\ passed G span env s env' s' /\
    (some_pinned env' = true -> some_pinned env = true \/ 0 < imbalance env).
Proof.
  intros B He Hn Hl Hm Hs HG. unfold move_tasks. destruct (Z.leb_spec (imbalance env) 0).
  - exists s, env, 0. split; [done|]. split; [apply passed_refl; done || lia|]. auto.
  - destruct (move_tasks_loop_ok G span _ env 0 s B He Hn Hl Hm Hs HG eq_refl) as (s' & env' & n & -> & P).
    exists s', env', n. auto.
Qed.

(** * Retries *)

Definition env_fixed env := (lb_me env, lb_sd env, src_cpu env, dst_grpmask env, idle env, loop_max env).

Lemma static_fixed env env' :
  env_static env' = env_static env -> env_fixed env' = env_fixed env /\ lb_cpus env' = lb_cpus env.
Proof.
  intros E. split; [|exact (f_equal (fun v => v.2.1.2) E)].
  exact (f_equal (fun v => (v.1.1.1.1, v.1.1.1.2, v.1.1.2, v.2.1.1.1, v.2.1.1.2, v.2.2)) E).
Qed.

(** What all passes over one source CPU achieve, on behalf of any CPUs of the group. *)
Record more_done (G span : cpumask) env s env' s' : Prop := {
  md_ok : bal_ok s';
  md_topo : same_topo s s';
  md_shift : shifted (within span) s s';
  md_env : env_ok G env';
  md_fixed : env_fixed env' = env_fixed env;
  md_cpus : forall c, cpumask_test_cpu c (lb_cpus env') = true -> cpumask_test_cpu c (lb_cpus env) = true;
  md_break : need_break env' = false;
  md_pin : all_pinned env' = true -> some_pinned env' = false;
}.

Lemma more_done_step G span env s env1 s1 env' s' :
  same_topo s s1 -> shifted (within span) s s1 -> env_fixed env1 = env_fixed env ->
  (forall c, cpumask_test_cpu c (lb_cpus env1) = true -> cpumask_test_cpu c (lb_cpus env) = true) ->
  more_done G span env1 s1 env' s' -> more_done G span env s env' s'.
Proof.
  intros T Sh E Hc [M1 M2 M3 M4 M5 M6 M7 M8]. split; try done.
  - by rewrite T.
  - by rewrite Sh.
  - by rewrite M5.
  - auto.
Qed.

Definition more_measure env : Z :=
  cpumask_weight (lb_cpus env) * (loop_max env + 2) + (loop_max env + 1 - lb_loop env).

(** The environment of a pass, and how often the pass may still be repeated. *)
Record retry_ok (G span : cpumask) (fuel : nat) env s : Prop := {
  ry_ok : bal_ok s;
  ry_env : env_ok G env;
  ry_break : need_break env = false;
  ry_loop : 0 <= lb_loop env <= loop_max env;
  ry_max : loop_max env < 2 ^ 32 - 1;
  ry_src : cpumask_test_cpu (src_cpu env) span = true;
  ry_pin : some_pinned env = true -> 0 < imbalance env \/ all_pinned env = false;
  ry_fuel : more_measure env <= Z.of_nat fuel;
}.

(** After a break, the pass goes on where it was. *)
Lemma retry_break G span fuel env s env1 s1 :
  retry_ok G span (S fuel) env s -> passed G span env s env1 s1 -> need_break env1 = true ->
  (some_pinned env1 = true -> some_pinned env = true \/ 0 < imbalance env) ->
  retry_ok G span fuel (clear_env_flag LBF_NEED_BREAK env1) s1.
Proof.
  intros [B He Hn Hl Hm Hs Hq Hf] [P1 P2 P3 P4 P5 P6 P7 P8 _] Eb Hp. specialize (P7 Eb).
  destruct (static_fixed _ _ P5) as [F1 F2]. assert (M1 : loop_max env1 = loop_max env) by exact (f_equal snd F1).
  assert (X1 : src_cpu env1 = src_cpu env) by exact (f_equal (fun v => v.1.1.1.2) F1).
  set (env2 := clear_env_flag LBF_NEED_BREAK env1).
  assert (A2 : all_pinned env2 = all_pinned env1) by (by apply flag_ldiff_ne).
  assert (S2 : some_pinned env2 = some_pinned env1) by (by apply flag_ldiff_ne). split.
  - done.
  - destruct P4; split; cbn; try done; by rewrite flag_ldiff_ne.
  - apply flag_ldiff_eq.
  - cbn. lia.
  - cbn. lia.
  - cbn. by rewrite X1.
  - rewrite A2, S2. intros Hsp. destruct (all_pinned env1) eqn:Ea; [left|by right].
    destruct P8 as [Ha Hi]; [done|]. change (imbalance env2) with (imbalance env1). rewrite Hi.
    destruct (Hp Hsp) as [Hsp'|]; [|done]. destruct (Hq Hsp') as [|]; [done|congruence].
  - unfold more_measure in *. change (lb_cpus env2) with (lb_cpus env1). cbn. rewrite F2, M1. lia.
Qed.

(** With another destination that was found for a pinned task, it starts again. *)
Lemma retry_pinned G span fuel env s env1 s1 :
  retry_ok G span (S fuel) env s -> passed G span env s env1 s1 -> need_break env1 = false ->
  some_pinned env1 = true ->
  retry_ok G span fuel (clear_env_flag LBF_SOME_PINNED (env1 <| dst_cpu := new_dst_cpu env1 |>)
    <| lb_loop := 0 |> <| loop_break := sched_nr_migrate_break |>
    <| lb_cpus := cpumask_clear_cpu (new_dst_cpu env1) (lb_cpus env1) |>) s1.
Proof.
  intros [B He Hn Hl Hm Hs Hq Hf] [P1 P2 P3 P4 P5 P6 P7 P8 _] Eb Es1. destruct (eo_pin _ _ P4 Es1) as [N1 N2].
  destruct (static_fixed _ _ P5) as [F1 F2]. assert (M1 : loop_max env1 = loop_max env) by exact (f_equal snd F1).
  assert (X1 : src_cpu env1 = src_cpu env) by exact (f_equal (fun v => v.1.1.1.2) F1).
  set (env2 := clear_env_flag LBF_SOME_PINNED _ <| lb_loop := _ |> <| loop_break := _ |> <| lb_cpus := _ |>).
  assert (S2 : some_pinned env2 = false) by apply flag_ldiff_eq. split.
  - done.
  - destruct P4 as [Q1 Q2 Q3]. split; [exact N2|exact Q2|by rewrite S2].
  - change (need_break env2) with (has_flag (Z.ldiff (lb_flags env1) LBF_SOME_PINNED) LBF_NEED_BREAK).
    by rewrite flag_ldiff_ne.
  - cbn. lia.
  - cbn. lia.
  - cbn. by rewrite X1.
  - by rewrite S2.
  - unfold more_measure in *. change (loop_max env2) with (loop_max env1). change (lb_loop env2) with 0.
    change (lb_cpus env2) with (cpumask_clear_cpu (new_dst_cpu env1) (lb_cpus env1)).
    pose proof (weight_less (cpumask_clear_cpu (new_dst_cpu env1) (lb_cpus env1)) (lb_cpus env1) (new_dst_cpu env1)
      ltac:(intros; by eapply clear_sub) N1 ltac:(apply test_clear_eq)). rewrite F2, M1 in *. nia.
Qed.

Lemma retry_calm G span fuel env s s' : calm s s' -> retry_ok G span fuel env s -> retry_ok G span fuel env s'.
Proof. intros C []. split; try done. by apply (bal_ok_calm s). Qed.

Lemma more_balance_ok G span fuel env ld s :
  retry_ok G span fuel env s ->
  (forall c, cpumask_test_cpu c G = true -> cpumask_test_cpu c span = true) ->
  exists s' env' n, more_balance fuel env ld s = Some (s', env', n) /\ more_done G span env s env' s'.
Proof.
  intros Ry HG. revert env ld s Ry. induction fuel as [fuel IH] using lt_wf_ind. intros env ld s Ry.
  pose proof Ry as [B He Hn Hl Hm Hs Hq Hf].
  assert (Hpos : 1 <= more_measure env) by (unfold more_measure; pose proof (weight_nonneg (lb_cpus env)); nia).
  destruct fuel as [|fuel]; [lia|]. cbn [more_balance].
  destruct (move_tasks_ok G span env s B He Hn Hl Hm Hs HG) as (s1 & env1 & cur & -> & P & Hp).
  cbn [mbind option_bind]. set (s2 := if nonzero cur && _ then _ else s1).
  assert (C2 : calm s1 s2) by (unfold s2; destruct (nonzero cur && _); [apply calm_resched|done]). clearbody s2.
  assert (T2 : same_topo s s2) by (rewrite (ps_topo _ _ _ _ _ _ P); apply C2).
  assert (Sh2 : shifted (within span) s s2) by (etransitivity; [apply P|apply shifted_same, C2]).
  destruct (static_fixed _ _ (ps_static _ _ _ _ _ _ P)) as [F1 F2].
  destruct (need_break env1) eqn:Eb.
  - pose proof (retry_calm _ _ _ _ _ _ C2 (retry_break G span fuel env s env1 s1 Ry P Eb Hp)) as Ry2.
    destruct (IH fuel ltac:(lia) _ (s32 (ld + cur)) s2 Ry2) as (s' & env' & n & E & D).
    exists s', env', n. split; [done|]. eapply more_done_step; [exact T2|exact Sh2| | |exact D].
    + exact F1.
    + cbn. by rewrite F2.
  - destruct (some_pinned env1 && (0 <? imbalance env1)) eqn:Esp.
    + apply andb_true_iff in Esp as [Es1 _].
      pose proof (retry_calm _ _ _ _ _ _ C2 (retry_pinned G span fuel env s env1 s1 Ry P Eb Es1)) as Ry2.
      destruct (IH fuel ltac:(lia) _ (s32 (ld + cur)) s2 Ry2) as (s' & env' & n & E & D).
      exists s', env', n. split; [done|]. eapply more_done_step; [exact T2|exact Sh2| | |exact D].
      * exact F1.
      * intros c Hc. rewrite <- F2. exact (clear_sub (new_dst_cpu env1) c _ Hc).
    + eexists s2, env1, _. split; [done|]. destruct P as [P1 P2 P3 P4 P5 P6 P7 P8 _].
      split; try done; [by apply (bal_ok_calm s1)|by rewrite F2|].
      intros Ha. destruct (P8 Ha) as [Ha' Hi]. apply not_true_is_false. intros Hsp.
      rewrite Hsp in Esp. cbn in Esp. apply Z.ltb_ge in Esp. destruct (Hp Hsp) as [Hsp'|]; [|lia].
      destruct (Hq Hsp'); [lia|congruence].
Qed.

(** Level [l] of CPU [c] is a domain with the given groups and span, whose first group is the
    mask [G]. *)
Definition domain_at s (c : Z) (l : nat) (gs : list Z) (span G : cpumask) : Prop :=
  0 <= c < NR_CPUS /\ exists d g, rq_sd (rqs s c) !! l = Some d /\ sd_groups d = gs /\ sd_span d = span
    /\ head gs = Some g /\ sched_group_cpus s g = G.

Lemma domain_at_topo s s' c l gs span G :
  same_topo s s' -> domain_at s c l gs span G -> domain_at s' c l gs span G.
Proof.
  intros T (Hc & d & g & Hd & Eg & Es & Hh & Hm). split; [done|].
  destruct (topo_lookup s' s c l d (symmetry T) Hd) as (d' & Hd' & Ev).
  destruct (sd_view_inv _ _ Ev) as (E1 & _ & E3 & _). exists d', g. rewrite (tp_sg _ _ T). split_and!; congruence.
Qed.

Lemma domain_span s c l gs span G g x :
  bal_ok s -> domain_at s c l gs span G -> g ∈ gs ->
  cpumask_test_cpu x (sched_group_cpus s g) = true -> cpumask_test_cpu x span = true.
Proof.
  intros B (Hc & d & g0 & Hd & <- & <- & _) Hg Hx. by apply (do_span _ _ _ _ (bo_topo s B c l d Hc Hd) g).
Qed.
Lemma domain_local s c l gs span G x :
  bal_ok s -> domain_at s c l gs span G -> cpumask_test_cpu x G = true -> cpumask_test_cpu x span = true.
Proof.
  intros B D Hx. pose proof D as (Hc & d & g & Hd & Eg & Es & Hh & <-).
  apply (domain_span s c l gs span (sched_group_cpus s g) g); [done|done| |done]. by apply head_elem.
Qed.

Lemma bal_stat_env G env c l gs span s :
  bal_ok s -> lb_sd env = (c, l) -> domain_at s c l gs span G -> cpumask_test_cpu (dst_cpu env) G = true ->
  exists d, sd_groups d = gs /\ stat_env env c l d s.
Proof.
  intros B El (Hc & d & g & Hd & Eg & Es & Hh & Hm) Ht. exists d. split; [done|]. split; try done; try apply B.
  intros g' Hg'. assert (g' = g) as -> by congruence. by rewrite Hm.
Qed.

(** What the search for a busiest CPU, with the moves from it, achieves. *)
Record redone (span : cpumask) env s env' s' : Prop := {
  rd_ok : bal_ok s';
  rd_topo : same_topo s s';
  rd_shift : shifted (within span) s s';
  rd_sd : lb_sd env' = lb_sd env;
}.
Lemma redone_step span env s env1 s1 env' s' :
  same_topo s s1 -> shifted (within span) s s1 -> lb_sd env1 = lb_sd env ->
  redone span env1 s1 env' s' -> redone span env s env' s'.
Proof. intros T Sh E [R1 R2 R3 R4]. split; [done|by rewrite T|by rewrite Sh|by rewrite R4]. Qed.

(** No group but the first one has a CPU in common with it. *)
Lemma domain_apart s c l gs span G g x :
  bal_ok s -> domain_at s c l gs span G -> g ∈ gs -> cpumask_test_cpu x G = true ->
  cpumask_test_cpu x (sched_group_cpus s g) = false -> cpumask_test_cpu c (sched_group_cpus s g) = false.
Proof.
  intros B (Hc & d & g0 & Hd & Eg & Es & Hh & Hm) Hg Hx Hn. pose proof (bo_topo s B c l d Hc Hd) as Do.
  apply not_true_is_false. intros Hcg. destruct (do_local _ _ _ _ Do) as (g1 & Hg1 & Hc1).
  assert (g = g1) as ->; [|congruence]. by apply (do_apart _ _ _ _ Do g1 g c); [|by rewrite Eg|..].
Qed.

(** The group and CPU found: not the destination, and within the domain. *)
Lemma find_busiest_ok G env c l gs span s :
  bal_ok s -> lb_sd env = (c, l) -> domain_at s c l gs span G -> cpumask_test_cpu (dst_cpu env) G = true ->
  exists s' balance im group, find_busiest_group env s = Some (s', balance, im, group) /\
    bal_ok s' /\ same_topo s s' /\ shifted (within span) s s' /\
    forall g, group = Some g -> exists q, find_busiest_queue (env <| imbalance := im |>) g s' = Some q /\
      forall b, q = Some b -> (b <> dst_cpu env /\ b <> c) /\ b ∈ cpus_of (lb_cpus env) /\
        cpumask_test_cpu b span = true.
Proof.
  intros B El D Hd. destruct (bal_stat_env G env c l gs span s B El D Hd) as (d & Eg & He).
  destruct (find_busiest_group_ok env c l d s He) as (s' & balance & im & group & E & R & Hg).
  exists s', balance, im, group. split; [done|]. pose proof (bal_ok_repowered _ _ R B) as B'.
  split; [done|]. split; [apply R|]. split; [apply shifted_same; intros p; by rewrite (rp_rest _ _ R)|].
  intros g Eg'. destruct (Hg g Eg') as [G1 G2]. pose proof (stat_env_repowered _ _ _ _ _ _ R He) as He'.
  assert (He1 : stat_env (env <| imbalance := im |>) c l d s') by (destruct He'; by split).
  destruct (find_busiest_queue_ok _ c l d g s' He1 G1) as (q & Eq & Hq). exists q. split; [done|].
  intros b Eb. destruct (Hq b Eb) as [Q1 Q2]. apply elem_of_cpus_of in Q1 as [Q0 Q1]. split_and!.
  - intros ->. congruence.
  - intros ->. rewrite (domain_apart s' c l gs span G g (dst_cpu env)) in Q1; try done; [|congruence].
    by apply (domain_at_topo s); [apply R|].
  - by apply elem_of_cpus_of.
  - apply (domain_span s' c l gs span G g); [done| |by rewrite <- Eg|done].
    by apply (domain_at_topo s); [apply R|].
Qed.

(** The moves from one busiest CPU. *)
Lemma from_busiest_ok G env c l gs span busiest s :
  bal_ok s -> lb_sd env = (c, l) -> domain_at s c l gs span G -> env_ok G env -> need_break env = false ->
  some_pinned env = false -> lb_loop env = 0 -> cpumask_test_cpu busiest span = true ->
  1 < rq_nr_running (rqs s busiest) ->
  let env1 := set_env_flag LBF_ALL_PINNED env <| src_cpu := busiest |>
                <| loop_max := Z.min (sysctl_sched_nr_migrate (sysctl s)) (rq_nr_running (rqs s busiest)) |> in
  exists s1 s2 env2 n, update_h_load busiest s = Some s1 /\
    more_balance (more_fuel env1) env1 0 s1 = Some (s2, env2, n) /\ more_done G span env1 s env2 s2.
Proof.
  intros B El D He Hn Hsp Hl Hb Hnr env1. destruct (update_h_load_ok busiest s B) as (s1 & -> & C1).
  pose proof (bal_ok_calm _ _ C1 B) as B1. pose proof (bo_migrate s B) as Hm.
  assert (He1 : env_ok G env1).
  { destruct He as [E1 E2 E3]. split; cbn; try done. rewrite flag_lor. cbn. by rewrite orb_false_r, Hsp. }
  destruct (more_balance_ok G span (more_fuel env1) env1 0 s1) as (s2 & env2 & n & E & M).
  - split; try done.
    + cbn. rewrite flag_lor. cbn. by rewrite orb_false_r.
    + cbn. lia.
    + cbn. lia.
    + cbn. rewrite flag_lor. cbn. by rewrite orb_false_r, Hsp.
    + unfold more_fuel, more_measure. lia.
  - intros x Hx. by apply (domain_local s c l gs span G).
  - exists s1, s2, env2, n. split; [done|]. split; [done|].
    apply (more_done_step G span env1 s env1 s1); try done; [apply C1|apply shifted_same, C1].
Qed.

#[local] Ltac search_ends := eexists _, _, _, _; split_and!; [done|done|]; intros; by simplify_eq.

Lemma lb_redo_ok G c l gs span this_cpu fuel env s :
  bal_ok s -> lb_sd env = (c, l) -> domain_at s c l gs span G -> env_ok G env -> need_break env = false ->
  some_pinned env = false -> lb_loop env = 0 -> cpumask_weight (lb_cpus env) <= Z.of_nat fuel ->
  exists s' balance env' r, lb_redo fuel this_cpu env s = Some (s', balance, env', r) /\ redone span env s env' s' /\
    forall busiest n, r = Unbalanced busiest n -> busiest <> c.
Proof.
  revert env s. induction fuel as [fuel IH] using lt_wf_ind. intros env s B El D He Hn Hsp Hl Hf.
  destruct (find_busiest_ok G env c l gs span s B El D (eo_dst _ _ He))
    as (s1 & balance & im & group & E1 & B1 & T1 & S1 & Hg).
  pose proof (domain_at_topo _ _ _ _ _ _ _ T1 D) as D1.
  assert (R1 : redone span env s (env <| imbalance := im |>) s1) by (by split).
  assert (He1 : env_ok G (env <| imbalance := im |>)) by (destruct He; by split).
  destruct fuel as [|fuel]; cbn [lb_redo]; rewrite E1; cbn [mbind option_bind].
  all: destruct group as [g|]; [|search_ends].
  all: destruct (Hg g eq_refl) as (q & -> & Hq); cbn [mbind option_bind].
  all: destruct q as [busiest|]; [|search_ends].
  all: destruct (Hq busiest eq_refl) as ((Q1 & Q0) & Q2 & Q3).
  { pose proof (weight_less 0 (lb_cpus env) busiest ltac:(intros x; unfold cpumask_test_cpu; by rewrite Z.bits_0)
      Q2 ltac:(unfold cpumask_test_cpu; by rewrite Z.bits_0)). pose proof (weight_nonneg 0). lia. }
  destruct (lazy_avoid s1 this_cpu busiest); [search_ends|].
  change (dst_cpu (env <| imbalance := im |>)) with (dst_cpu env). rewrite (proj2 (Z.eqb_neq _ _) Q1).
  destruct (Z.leb_spec (rq_nr_running (rqs s1 busiest)) 1) as [|Hnr]; [search_ends|].
  destruct (from_busiest_ok G (env <| imbalance := im |>) c l gs span busiest s1)
    as (s2 & s3 & env3 & n & -> & E3 & M); try done. cbn [mbind option_bind]. rewrite E3. cbn [mbind option_bind].
  destruct M as [M1 M2 M3 M4 M5 M6 M7 M8].
  assert (El3 : lb_sd env3 = lb_sd env) by exact (f_equal (fun v => v.1.1.1.1.2) M5).
  assert (R3 : redone span env s env3 s3).
  { split; [done|by rewrite T1|by rewrite S1|done]. }
  destruct (all_pinned env3) eqn:Ea; [|search_ends].
  set (env4 := env3 <| lb_cpus := cpumask_clear_cpu busiest (lb_cpus env3) |>).
  destruct (cpumask_empty (lb_cpus env4)) eqn:Ee.
  { eexists _, _, env4, _. split; [done|]. split; [by destruct R3|done]. }
  destruct (IH fuel ltac:(lia) (env4 <| lb_loop := 0 |> <| loop_break := sched_nr_migrate_break |>) s3)
    as (s' & balance' & env' & r & E' & R' & X'); try done.
  - cbn. by rewrite El3.
  - by apply (domain_at_topo s1).
  - destruct M4 as [N1 N2 N3]. split; cbn; try done. by rewrite M8.
  - by apply M8.
  - assert (cpumask_weight (lb_cpus env4) < cpumask_weight (lb_cpus env)); [|cbn; cbn in *; lia].
    apply (weight_less _ _ busiest); [|done|apply test_clear_eq]. intros x Hx. apply M6. exact (clear_sub _ _ _ Hx).
  - eexists _, _, _, _. split; [exact E'|]. split; [|done]. destruct R3. by eapply (redone_step span env s _ s3); [done|done| |exact R'].
Qed.

(** * The whole of [load_balance] *)

Lemma calm_stop_busiest busiest s : calm s (stop_busiest busiest s).
Proof.
  unfold stop_busiest. destruct (stopper_enabled s busiest); [split; try done; apply aged_same; [by left|done]|].
  destruct CONFIG_HMP_PACK_STOP_MACHINE; [|done]. apply calm_upd_rq; auto.
Qed.
Lemma calm_start_push busiest dst s :
  busiest <> dst -> 0 <= dst < NR_CPUS ->
  calm s (upd_rq busiest (fun r => r <| active_balance := 1 |> <| push_cpu := dst |>) s).
Proof.
  intros Hne Hd. split; try done.
  - intros c p. destruct (decide (busiest = c)) as [->|]; by store_rw.
  - split; [|done]. intros c. destruct (decide (busiest = c)) as [->|]; by store_rw.
  - intros c. unfold power_of. destruct (decide (busiest = c)) as [->|]; by store_rw.
  - apply aged_same; [|done]. intros c. left. destruct (decide (busiest = c)) as [->|]; by store_rw.
  - intros Hp c. destruct (decide (busiest = c)) as [->|]; store_rw; [done|apply Hp].
Qed.
Lemma calm_tune env s : calm s (tune_interval env s).
Proof. unfold tune_interval. cbv zeta. destruct (_ || _); [|done]. by apply calm_upd_sd. Qed.

Lemma calm_finish this_cpu busiest ld env s :
  busiest <> this_cpu -> 0 <= this_cpu < NR_CPUS -> calm s (lb_finish this_cpu busiest ld env s).1.
Proof.
  intros Hne Hc. unfold lb_finish. destruct (nonzero ld); cbn [fst].
  { etransitivity; by apply calm_upd_sd. }
  cbv zeta. set (s1 := if bool_decide _ then s else _).
  assert (C1 : calm s s1) by (unfold s1; destruct (bool_decide _); [done|by apply calm_upd_sd]).
  clearbody s1. transitivity s1; [done|]. destruct (negb (need_active_balance env s1)); [by apply calm_upd_sd|].
  destruct (negb (curr_may_use s1 busiest this_cpu)); [apply calm_tune|].
  set (s2 := if active_balance _ =? 0 then _ else s1).
  assert (C2 : calm s1 s2).
  { unfold s2. destruct (active_balance _ =? 0); [|done].
    etransitivity; [|apply calm_stop_busiest]. by apply calm_start_push. }
  clearbody s2. transitivity s2; [done|]. set (s3 := upd_sd _ _ s2).
  assert (C3 : calm s2 s3) by (by apply calm_upd_sd). clearbody s3. transitivity s3; [done|].
  destruct (active_balance _ =? 0); apply calm_upd_sd; [|done]. intros d. by destruct (balance_interval d <? max_interval d).
Qed.

Lemma load_balance_ok me c l gs span G why s :
  bal_ok s -> domain_at s c l gs span G ->
  exists s' balance n, load_balance me c (c, l) why s = Some (s', balance, n) /\
    bal_ok s' /\ same_topo s s' /\ shifted (within span) s s'.
Proof.
  intros B D. pose proof D as (Hc & d & g & Hd & Eg & Es & Hh & Hm).
  unfold load_balance, first_group. rewrite (get_sd_lookup s c l d Hd), Eg, Hh. cbn [mbind option_bind].
  rewrite Hm. set (env := mk_lb_env _ _ _ _ _ _ _ _ _ _ _ _ _).
  assert (He : env_ok G env).
  { split; cbn; [|intros m x|done].
    - destruct (do_local _ _ _ _ (bo_topo s B c l d Hc Hd)) as (g' & Hg' & Ht). by assert (g' = g) as -> by congruence; rewrite <- Hm.
    - case_bool_decide; [done|]. by intros [= ->]. }
  destruct (lb_redo_ok G c l gs span c (Z.to_nat (cpumask_weight (lb_cpus env))) env s)
    as (s1 & balance & env1 & r & -> & [R1 R2 R3 R4] & Hb); try done.
  { pose proof (weight_nonneg (lb_cpus env)). lia. }
  cbn [mbind option_bind]. destruct r as [|busiest n].
  - set (s2 := upd_sd _ _ s1). assert (C2 : calm s1 s2) by (by apply calm_upd_sd).
    assert (C3 : calm s1 (tune_interval env1 s2)) by (rewrite C2; apply calm_tune).
    eexists _, _, _. split; [done|]. split; [by apply (bal_ok_calm s1)|]. split; [rewrite R2; apply C3|].
    etransitivity; [exact R3|]. apply shifted_same, C3.
  - pose proof (calm_finish c busiest n env1 s1 (Hb _ _ eq_refl) Hc) as C3.
    destruct (lb_finish c busiest n env1 s1) as [s2 m]. cbn [fst] in C3.
    eexists _, _, _. split; [done|]. split; [by apply (bal_ok_calm s1)|]. split; [rewrite R2; apply C3|].
    etransitivity; [exact R3|]. apply shifted_same, C3.
Qed.
End safe.
