(* ===== verification/BalanceRuns.v ===== *)
(** Balancing as a whole: the periodic balancing of a CPU's domains, balancing on behalf of CPUs
    without a tick, balancing by a CPU that goes idle, the stopper that pushes a task away, and
    the tick, in any order.  None of them stops in a [BUG_ON], divides by zero or loops for ever,
    and tasks stay within the balanced domains. *)

From S2P Require Import Prelude Spinlock Pelt SchedTypes EntityLoad HmpDomain HmpSelect Cfs CfsInv CpuLoad.
From S2P Require Import HmpMigration MigrationSafe TaskLists HmpEnh LoadStats LoadBalance Rebalance.
From S2P Require Import BalanceTopo BalanceSafe.

(** * Aging of real-time averages *)

Lemma s64_of_u64 x : u64 x < 2 ^ 63 -> s64 x = u64 x.
Proof.
  intros Hx. pose proof (u64_range x). unfold s64, u64 in *.
  rewrite <- (Z.add_mod_idemp_l x), (Z.mod_small (x mod 2 ^ 64 + _)) by lia. lia.
Qed.
Lemma u64_of_s64 x : 0 <= s64 x -> u64 x = s64 x.
Proof.
  intros Hx. unfold s64, u64 in *.
  pose proof (Z.mod_pos_bound (x + 2 ^ 63) (2 ^ 64) ltac:(lia)) as Hb.
  replace x with ((x + 2 ^ 63) + - 2 ^ 63) at 1 by lia.
  rewrite <- Z.add_mod_idemp_l, Z.mod_small by lia. lia.
Qed.

(** Aging goes forward in time, not past the clock. *)
Lemma age_rt_forward fuel clock period age rt age' rt' :
  0 < period -> age_rt fuel clock period age rt = Some (age', rt') -> 0 <= s64 (clock - age) -> 0 <= rt ->
  0 <= s64 (clock - age') <= s64 (clock - age) /\ 0 <= rt'.
Proof.
  intros Hp. revert age rt. induction fuel as [|fuel IH]; intros age rt; cbn [age_rt];
    destruct (Z.ltb_spec period (s64 (clock - age))) as [Hd|]; intros E Ha Hr; simplify_eq; [lia| |lia].
  destruct (IH (u64 (age + period)) (rt / 2) E) as [I1 I2].
  - rewrite s64_shift by done. lia.
  - by apply Z.div_pos.
  - rewrite s64_shift in I1 by done. lia.
Qed.

(** * Levels of a CPU *)

Section levels.
Context `{Config}.
Implicit Types (s : sys).

Definition levels s (cpu : Z) (l : list sd_ptr) : Prop :=
  Forall (fun sd => sd.1 = cpu /\ is_Some (rq_sd (rqs s cpu) !! sd.2)) l.
Lemma levels_topo s s' cpu l : same_topo s s' -> levels s cpu l -> levels s' cpu l.
Proof.
  intros T Hl. eapply Forall_impl; [exact Hl|]. intros sd [E (d & Hd)]. split; [done|].
  destruct (topo_lookup s' s cpu sd.2 d (symmetry T) Hd) as (d' & Hd' & _). by exists d'.
Qed.
Lemma levels_all s cpu : levels s cpu (domains_of s cpu).
Proof.
  apply Forall_fmap, Forall_seq. intros i Hi. split; [done|]. cbn. apply lookup_lt_is_Some. lia.
Qed.
End levels.

Section runs.
Context `{Config}.
Context (univ : list se_id) (univ_nodup : NoDup univ) (univ_small : Z.of_nat (length univ) <= 48000).
Implicit Types (s : sys).

Abbreviation bal_ok := (bal_ok univ).

Lemma calm_avg_update cpu s :
  bal_ok s -> exists s', sched_avg_update cpu s = Some s' /\ calm s s'.
Proof.
  intros B. pose proof (bo_time _ _ B) as Ht. pose proof (avg_period_range s Ht) as Hp. unfold sched_avg_update.
  cbv zeta. set (clock := rq_clock (rqs s cpu)). set (age := age_stamp (rq_lb (rqs s cpu))).
  destruct (age_rt_total (Z.to_nat (s64 (clock - age) / s64 (sched_avg_period s))) clock
              (s64 (sched_avg_period s)) age (rt_avg (rq_lb (rqs s cpu)))) as [[age' rt'] E]; [lia|lia|].
  rewrite E. cbn [mbind option_bind]. eexists. split; [done|]. split; try done.
  - intros c p. by destruct (decide (cpu = c)) as [->|]; store_rw.
  - split; [|done]. intros c. by destruct (decide (cpu = c)) as [->|]; store_rw.
  - intros c. unfold power_of. by destruct (decide (cpu = c)) as [->|]; store_rw.
  - intros [A1 A2]. pose proof (A1 cpu) as Hc. fold clock age in Hc.
    pose proof (u64_range (sched_clock s cpu - clock)) as U1. pose proof (u64_range (clock - age)) as U2.
    assert (0 <= sched_avg_period s) by (apply Z.div_pos; [apply u64_range|lia]).
    pose proof (s64_of_u64 (clock - age) ltac:(lia)) as Es.
    destruct (age_rt_forward _ _ _ _ _ _ _ (proj1 Hp) E ltac:(lia) (A2 cpu)) as [F1 F2].
    pose proof (u64_of_s64 (clock - age') ltac:(lia)) as Eu.
    split; intros c; destruct (decide (cpu = c)) as [->|]; store_rw; cbn; auto.
    fold clock. change (sched_avg_period (upd_rq_lb c _ s)) with (sched_avg_period s). lia.
  - apply pushes_same. intros c. left. by destruct (decide (cpu = c)) as [->|]; store_rw.
Qed.

(** * No overshoot *)


(** * Calm steps *)

(** An update of the fields of [struct rq] used by balancing, of which the power and the
    averages of real-time load are left alone. *)
Lemma calm_upd_lb cpu f s :
  (forall b, (cpu_power (f b), age_stamp (f b), rt_avg (f b)) = (cpu_power b, age_stamp b, rt_avg b)) ->
  calm s (upd_rq_lb cpu f s).
Proof.
  intros Hf. apply calm_upd_rq; auto; intros r; unfold aged_view; cbn;
    specialize (Hf (rq_lb r)); congruence.
Qed.
Lemma calm_upd_bal f s : (forall b, sgs (f b) = sgs b) -> calm s (upd_bal f s).
Proof.
  intros Hf. split; try done.
  - split; [done|]. intros g. unfold sched_group_cpus, get_sg. cbn. by rewrite Hf.
  - intros g. unfold get_sg. cbn. by rewrite Hf.
  - intros A. apply (aged_same s); try done. by left.
Qed.

Lemma calm_idle_load cpu s : bal_ok s -> exists s', update_idle_cpu_load cpu s = Some s' /\ calm s s'.
Proof.
  intros B. unfold update_idle_cpu_load, __update_cpu_load. case_match; [by exists s|].
  match goal with |- exists s', sched_avg_update _ ?x = _ /\ _ =>
    assert (C : calm s x) by (etransitivity; by apply calm_upd_lb); set (s1 := x) in * end.
  destruct (calm_avg_update cpu s1 (bal_ok_calm univ _ _ C B)) as (s' & -> & C'). exists s'.
  split; [done|]. by rewrite C.
Qed.

Lemma calm_rq_clock cpu s : calm s (update_rq_clock cpu s).
Proof. apply calm_timed; [apply rq_clock_timed|apply update_rq_clock_eq]. Qed.

Lemma calm_blocked cpu s : bal_ok s -> calm s (update_blocked_averages cpu s).
Proof.
  intros B. unfold update_blocked_averages. pose proof (calm_rq_clock cpu s) as C.
  set (s1 := update_rq_clock cpu s) in *. clearbody s1. pose proof (bal_ok_calm univ _ _ C B) as B1.
  transitivity s1; [done|]. clear B C. generalize (leaf_cfs_rq_list (rqs s1 cpu)). intros l.
  revert s1 B1. induction l as [|q l IH]; intros s1 B1; cbn [foldl]; [done|].
  set (s2 := __update_blocked_averages_cpu _ cpu s1). assert (C2 : calm s1 s2).
  { unfold s2, __update_blocked_averages_cpu. rewrite (bo_root _ _ B1). cbn [tg_se Z.eqb].
    etransitivity; apply calm_frozen;
      [apply still_blocked|apply blocked_load_eq|apply still_rq_runnable|apply update_rq_runnable_avg_eq]. }
  clearbody s2. transitivity s2; [done|]. apply IH. by apply (bal_ok_calm univ s1).
Qed.

(** * The domains that are balanced *)

Context (K : Z -> Z -> Prop) `{!Transitive K}.

(** CPUs that share a domain with [SD_LOAD_BALANCE] are related by [K]. *)
Definition fenced s : Prop := forall c l d a b, 0 <= c < NR_CPUS -> rq_sd (rqs s c) !! l = Some d ->
  has_flag (sd_flags d) SD_LOAD_BALANCE = true -> within (sd_span d) a b -> K a b.

Lemma fenced_topo s s' : same_topo s s' -> fenced s -> fenced s'.
Proof.
  intros T F c l d a b Hc Hd Hf Hw. destruct (topo_lookup s s' c l d T Hd) as (d0 & H0 & Ev).
  destruct (sd_view_inv _ _ Ev) as (E1 & E2 & _). apply (F c l d0); congruence.
Qed.

(** What balancing leads to. *)
Record balanced s s' : Prop := {
  bd_ok : bal_ok s';
  bd_topo : same_topo s s';
  bd_shift : shifted K s s';
}.
Definition fair s : Prop := bal_ok s /\ fenced s.

Lemma balanced_fair s s' : fair s -> balanced s s' -> fair s'.
Proof. intros [_ F] [B T _]. split; [done|by apply (fenced_topo s)]. Qed.
Lemma balanced_trans s1 s2 s3 : balanced s1 s2 -> balanced s2 s3 -> balanced s1 s3.
Proof. intros [B1 T1 S1] [B2 T2 S2]. split; [done|by rewrite T1|by rewrite S1]. Qed.
Lemma balanced_calm s s' : calm s s' -> fair s -> balanced s s'.
Proof. intros C [B _]. split; [by apply (bal_ok_calm univ s)|apply C|apply shifted_same, C]. Qed.
Lemma balanced_refl s : fair s -> balanced s s.
Proof. by apply balanced_calm. Qed.

(** A computation that ends, in such a state. *)
Definition ends {A} (s : sys) (r : option A) (state : A -> sys) : Prop :=
  exists a, r = Some a /\ balanced s (state a).

Lemma ends_calm {A} s (a : A) (state : A -> sys) : fair s -> calm s (state a) -> ends s (Some a) state.
Proof. intros F C. exists a. split; [done|]. by apply balanced_calm. Qed.
Lemma ends_bind {A B} s (r : option A) (f : A -> option B) sa sb :
  fair s -> ends s r sa -> (forall a, fair (sa a) -> balanced s (sa a) -> ends (sa a) (f a) sb) ->
  ends s (r ≫= f) sb.
Proof.
  intros F (a & -> & Ba) Hf. destruct (Hf a) as (b & E & Bb); [by apply (balanced_fair s)|done|].
  exists b. split; [done|]. by apply (balanced_trans s (sa a)).
Qed.
Lemma ends_after {A} s s1 (r : option A) state :
  fair s -> calm s s1 -> (fair s1 -> ends s1 r state) -> ends s r state.
Proof.
  intros F C Hr. pose proof (balanced_calm _ _ C F) as B1.
  destruct Hr as (a & E & Ba); [by apply (balanced_fair s)|]. exists a. split; [done|].
  by apply (balanced_trans s s1).
Qed.

Lemma level_ends me c l d why s :
  fair s -> 0 <= c < NR_CPUS -> rq_sd (rqs s c) !! l = Some d ->
  has_flag (sd_flags d) SD_LOAD_BALANCE = true -> ends s (load_balance me c (c, l) why s) (fun r => r.1.1).
Proof.
  intros [B F] Hc Hd Hf. destruct (do_local _ _ _ _ (bo_topo _ _ B c l d Hc Hd)) as (g & Hg & _).
  destruct (load_balance_ok univ univ_nodup univ_small me c l (sd_groups d) (sd_span d) (sched_group_cpus s g) why s B)
    as (s' & balance & n & -> & B' & T & Sh).
  { split; [done|]. by exists d, g. }
  exists (s', balance, n). split; [done|]. split; [done|done|]. eapply shifted_mono; [|exact Sh].
  intros a b. by apply (F c l d).
Qed.

(** * Walking the domains of a CPU *)

(** A level of the CPU, if it is balanced. *)
Lemma domain_ends me c sd why s :
  fair s -> 0 <= c < NR_CPUS -> sd.1 = c -> is_Some (rq_sd (rqs s c) !! sd.2) ->
  sd_has s sd SD_LOAD_BALANCE = true -> ends s (load_balance me c sd why s) (fun r => r.1.1).
Proof.
  destruct sd as [c' l]. cbn. intros F Hc -> (d & Hd) Hf. apply (level_ends me c l d); try done.
  unfold sd_has in Hf. by rewrite (get_sd_lookup s c l d Hd) in Hf.
Qed.

Lemma balance_domain_ends me c sd why interval s :
  fair s -> 0 <= c < NR_CPUS -> sd.1 = c -> is_Some (rq_sd (rqs s c) !! sd.2) ->
  sd_has s sd SD_LOAD_BALANCE = true -> ends s (balance_domain me c sd why interval s) (fun r => r.1.1).
Proof.
  intros F Hc E Hd Hf. unfold balance_domain. case_match; [|by apply ends_calm].
  apply (ends_bind _ _ _ (fun r => r.1.1)); [done|by apply domain_ends|]. intros [[s1 bal] moved] F1 _.
  apply ends_calm; [done|]. by apply calm_upd_sd.
Qed.

Lemma calm_balancing x s : calm s (upd_balancing x s).
Proof. by apply (calm_upd_bal (fun b => b <| balancing := x |>)). Qed.

Lemma rebalance_one_ends me c sd why interval s :
  fair s -> 0 <= c < NR_CPUS -> sd.1 = c -> is_Some (rq_sd (rqs s c) !! sd.2) ->
  sd_has s sd SD_LOAD_BALANCE = true -> ends s (rebalance_one me c sd why interval s) (fun r => r.1.1).
Proof.
  intros F Hc E Hd Hf. unfold rebalance_one. case_match; [|by apply balance_domain_ends].
  destruct (arch_spin_trylock _) as [lock [|]]; [|by apply ends_calm].
  apply (ends_after _ (upd_balancing lock s)); [done|apply calm_balancing|]. intros F1.
  apply (ends_bind _ _ _ (fun r => r.1.1)); [done|by apply balance_domain_ends|].
  intros [[s1 bal] why1] F2 _. apply ends_calm; [done|]. apply calm_balancing.
Qed.

Lemma rebalance_loop_ends me c l why next updated s :
  fair s -> 0 <= c < NR_CPUS -> levels s c l ->
  ends s (rebalance_loop me c l why next updated s) (fun r => r.1.1).
Proof.
  intros F Hc. revert why next updated s F. induction l as [|sd l IH]; intros why next updated s F Hl;
    cbn [rebalance_loop]; [by apply ends_calm|].
  apply Forall_cons in Hl as [[E Hd] Hl].
  destruct (sd_has s sd SD_LOAD_BALANCE) eqn:Ef; cbn [negb]; [|by apply IH]. cbv zeta.
  apply (ends_bind _ _ _ (fun r => r.1.1)); [done|by apply rebalance_one_ends|].
  intros [[s1 balance] why1] F1 B1. cbn [fst] in *.
  destruct (time_after _ _); (destruct balance; cbn [negb]; [|by apply ends_calm]).
  all: apply IH; [done|]; by apply (levels_topo s); [apply B1|].
Qed.

Lemma rebalance_domains_ends me c why s :
  fair s -> 0 <= c < NR_CPUS -> ends s (rebalance_domains me c why s) (fun s => s).
Proof.
  intros F Hc. unfold rebalance_domains. cbv zeta.
  apply (ends_after _ (update_blocked_averages c s)); [done|by apply calm_blocked, F|]. intros F1.
  apply (ends_bind _ _ _ (fun r => r.1.1)); [done|apply rebalance_loop_ends; [done..|apply levels_all]|].
  intros [[s1 next] [|]] F2 _; apply ends_calm; try done. by apply calm_upd_lb.
Qed.

(** * Balancing for CPUs without a tick *)

Lemma nohz_cpus_ends this l s :
  fair s -> Forall (fun c => 0 <= c < NR_CPUS) l -> ends s (nohz_balance_cpus this l s) (fun s => s).
Proof.
  intros F Hl. revert s F. induction Hl as [|c l Hc _ IH]; intros s F; cbn [nohz_balance_cpus];
    [by apply ends_calm|].
  case_match; [by apply IH|]. case_match; [by apply ends_calm|].
  apply (ends_after _ (update_rq_clock c s)); [done|apply calm_rq_clock|]. intros F1.
  apply (ends_bind _ _ _ (fun s => s)); [done| |].
  { destruct (calm_idle_load c _ (proj1 F1)) as (s2 & -> & C2). by apply ends_calm. }
  intros s2 F2 _. apply (ends_bind _ _ _ (fun s => s)); [done|by apply rebalance_domains_ends|].
  intros s3 F3 _. cbv zeta. destruct (time_after _ _); [|by apply IH].
  match goal with |- ends _ (nohz_balance_cpus _ _ ?x) _ => apply (ends_after _ x) end; [done| |apply IH].
  by apply calm_upd_lb.
Qed.

Lemma cpus_of_range m : Forall (fun c => 0 <= c < NR_CPUS) (cpus_of m).
Proof. apply Forall_forall. intros c Hc. by apply elem_of_cpus_of in Hc as []. Qed.

Lemma nohz_idle_balance_ends this why s :
  fair s -> ends s (nohz_idle_balance this why s) (fun s => s).
Proof.
  intros F. unfold nohz_idle_balance. apply (ends_bind _ _ _ (fun s => s)); [done| |].
  - case_match; [|by apply ends_calm].
    apply (ends_bind _ _ _ (fun s => s)); [done|apply nohz_cpus_ends; [done|apply cpus_of_range]|].
    intros s1 F1 _. apply ends_calm; [done|]. by apply calm_upd_bal.
  - intros s1 F1 _. apply ends_calm; [done|]. by apply calm_upd_lb.
Qed.

(** * Going idle *)

Lemma newidle_domains_ends this l next s :
  fair s -> 0 <= this < NR_CPUS -> levels s this l ->
  ends s (newidle_domains this l next s) (fun r => r.1.1).
Proof.
  intros F Hc. revert next s F. induction l as [|sd l IH]; intros next s F Hl;
    cbn [newidle_domains]; [by apply ends_calm|].
  apply Forall_cons in Hl as [[E Hd] Hl].
  destruct (sd_has s sd SD_LOAD_BALANCE) eqn:Ef; cbn [negb]; [|by apply IH].
  apply (ends_bind _ _ _ fst); [done| |].
  - destruct (sd_has s sd SD_BALANCE_NEWIDLE); [|by apply ends_calm].
    apply (ends_bind _ _ _ (fun r => r.1.1)); [done|by apply domain_ends|].
    intros [[s1 balance] n] F1 _. by apply ends_calm.
  - intros [s1 n] F1 B1. cbn [fst] in *. cbv zeta.
    destruct (nonzero n); [apply ends_calm; [done|]; by apply calm_upd_lb|].
    apply IH; [done|]. by apply (levels_topo s); [apply B1|].
Qed.

(** Without delayed up-migration, the HMP pull does not happen here. *)
Lemma idle_balance_ends this s :
  CONFIG_HMP_DELAY_UP_MIGRATION = false -> fair s -> 0 <= this < NR_CPUS ->
  ends s (idle_balance_cpu this s) (fun s => s).
Proof.
  intros Hd F Hc. unfold idle_balance_cpu. cbv zeta. rewrite Hd. cbn [andb].
  set (s1 := upd_rq_lb this _ s). apply (ends_after _ s1); [done|by apply calm_upd_lb|]. intros F1.
  case_match; [by apply ends_calm|].
  apply (ends_after _ (update_blocked_averages this s1)); [done|by apply calm_blocked, F1|]. intros F2.
  apply (ends_bind _ _ _ (fun r => r.1.1)); [done|apply newidle_domains_ends; [done..|apply levels_all]|].
  intros [[s3 next] pulled] F3 _. cbn [mbind option_bind fst].
  case_match; apply ends_calm; try done. by apply calm_upd_lb.
Qed.

(** * Pushing a task away *)

Lemma first_migratable_spec G env l s p :
  env_ok G env -> (first_migratable env l s).2 = Some p ->
  p ∈ l /\ cpumask_test_cpu (dst_cpu env) (cpus_allowed (tasks s p)) = true /\ on_cpu (tasks s p) = 0.
Proof.
  revert env. induction l as [|x l IH]; intros env He; cbn [first_migratable]; [done|].
  destruct (can_migrate_task env x s) as [env1 ok] eqn:E.
  destruct (can_migrate_spec G env x s env1 ok E He) as (He1 & L1 & H1). destruct ok; cbn [snd].
  - intros Ep. injection Ep as ->. destruct H1 as (? & ? & _); [done|]. split; [apply list_elem_of_here|done].
  - intros Ep. destruct (IH env1 He1 Ep) as (? & Ha & ?).
    rewrite (f_equal (fun v => v.1.2) (lk_static _ _ L1) : dst_cpu env1 = dst_cpu env) in Ha.
    split; [by apply list_elem_of_further|done].
Qed.

Lemma move_one_ends env s :
  0 <= dst_cpu env -> fair s -> K (src_cpu env) (dst_cpu env) -> has_flag (lb_flags env) LBF_SOME_PINNED = false -> dst_grpmask env = None ->
  balanced s (move_one_task env s).1.
Proof.
  intros Hd [B F] Hk Hp Hm. unfold move_one_task. destruct (first_migratable _ _ s).2 as [p|] eqn:E; cbn [fst].
  2: by apply balanced_refl.
  destruct (first_migratable_spec (cpumask_of (dst_cpu env)) env (cfs_tasks (rqs s (src_cpu env))) s p)
    as (Hin & Ha & Ho); [|done|].
  { split; [|by rewrite Hm|by rewrite Hp]. by apply Z.setbit_eq. }
  destruct (bal_ok_move univ univ_nodup univ_small p (src_cpu env) (dst_cpu env) s B Hin Ho) as (B' & T & M).
  destruct (li_task _ _ (bo_lists _ _ B) _ p Hin) as (_ & _ & Hc).
  split; [done|done|]. intros x. rewrite (mv_task _ _ _ _ _ M). case_decide; [|by left]. subst x. right.
  exists (dst_cpu env). by rewrite Hc.
Qed.

(** The stopper pushes to another CPU, and only along a domain they share. *)
Lemma active_balance_ends busiest me s :
  fair s -> ends s (active_load_balance_cpu_stop busiest me s) (fun s => s).
Proof.
  intros F. pose proof F as [B Fe]. unfold active_load_balance_cpu_stop. cbv zeta.
  assert (Out : forall s1, fair s1 -> ends s1 (Some (upd_rq busiest (fun r => r <| active_balance := 0 |>) s1))
                                        (fun s => s)).
  { intros s1 F1. apply ends_calm; [done|]. apply calm_upd_rq; auto. }
  destruct (_ || _) eqn:Ea; [by apply Out|]. apply orb_false_iff in Ea as [_ Ea%negb_false_iff].
  case_match; [by apply Out|].
  destruct (bo_push _ _ B busiest) as [P1 P2]; [by apply Z.eqb_neq, negb_true_iff|].
  rewrite (proj2 (Z.eqb_neq busiest _)) by congruence.
  destruct (List.find _ _) as [sd|] eqn:Ef; [|by apply Out].
  apply List.find_some in Ef as [Hin Hf]. apply andb_true_iff in Hf as [Hf Hspan].
  apply list_elem_of_In, list_elem_of_fmap in Hin as (l & -> & Hl%elem_of_seq).
  destruct (lookup_lt_is_Some_2 (rq_sd (rqs s (push_cpu (rqs s busiest)))) l) as [d Hd]; [lia|].
  unfold sd_has in Hf. rewrite (get_sd_lookup s _ l d Hd) in Hf, Hspan.
  assert (Hk : K busiest (push_cpu (rqs s busiest))).
  { apply (Fe (push_cpu (rqs s busiest)) l d); try done. split; [done|].
    pose proof (bo_topo _ _ B _ _ _ P2 Hd) as Do. destruct (do_local _ _ _ _ Do) as (g & Hg & Hin).
    apply (do_span _ _ _ _ Do g); [by apply head_elem|done]. }
  match goal with |- ends _ (Some (upd_rq _ _ (move_one_task ?e s).1)) _ => set (env := e) end.
  assert (B1 : balanced s (move_one_task env s).1) by (apply move_one_ends; done || cbn; lia).
  destruct (Out _ (balanced_fair _ _ F B1)) as (s' & E & B'). exists s'. split; [done|].
  by apply (balanced_trans s _ s' B1).
Qed.

(** * The tick *)

Lemma calm_nohz_mask m s : calm s (s <| nohz_idle_cpus_mask := m |>).
Proof. split; try done. apply aged_same; [by left|done]. Qed.
Lemma calm_ipis l s : calm s (s <| resched_ipis := l |>).
Proof. split; try done. apply aged_same; [by left|done]. Qed.

Lemma calm_exit_idle cpu s : calm s (nohz_balance_exit_idle cpu s).
Proof.
  unfold nohz_balance_exit_idle. cbv zeta. case_match; [|done].
  etransitivity; [apply calm_nohz_mask|]. etransitivity; [|by apply calm_upd_lb]. by apply calm_upd_bal.
Qed.
Lemma calm_enter_idle cpu s : calm s (nohz_balance_enter_idle cpu s).
Proof.
  unfold nohz_balance_enter_idle. cbv zeta. case_match; [done|]. case_match; [done|].
  etransitivity; [apply calm_nohz_mask|]. etransitivity; [|by apply calm_upd_lb]. by apply calm_upd_bal.
Qed.

Lemma calm_upd_sg g f s :
  (forall x, (sg_cpumask (f x), sg_power (f x)) = (sg_cpumask x, sg_power x)) -> calm s (upd_sg g f s).
Proof.
  intros Hf. assert (V : forall g', sg_cpumask (get_sg (upd_sg g f s) g') = sg_cpumask (get_sg s g')
    /\ sg_power (get_sg (upd_sg g f s) g') = sg_power (get_sg s g')).
  { intros g'. unfold upd_sg, get_sg. cbn. destruct (decide (g = g')) as [->|].
    - rewrite fn_lookup_insert. specialize (Hf (sgs (bal s) g')). by simplify_eq.
    - by rewrite fn_lookup_insert_ne. }
  split; try done.
  - split; [done|]. intros g'. apply V.
  - intros g'. apply V.
  - apply aged_same; [by left|done].
Qed.
Lemma calm_count_busy cpu n s : calm s (count_busy cpu n s).
Proof.
  unfold count_busy. generalize (domains_of s cpu). intros l. revert s.
  induction l as [|sd l IH]; intros s; cbn [foldl]; [done|]. etransitivity; [|apply IH].
  case_match; [|done]. by apply calm_upd_sg.
Qed.
Lemma calm_sd_busy cpu s : calm s (set_cpu_sd_state_busy cpu s).
Proof.
  unfold set_cpu_sd_state_busy. case_match; [done|]. case_match; [done|].
  etransitivity; [|apply calm_count_busy]. by apply calm_upd_sd.
Qed.
Lemma calm_sd_idle cpu s : calm s (set_cpu_sd_state_idle cpu s).
Proof.
  unfold set_cpu_sd_state_idle. case_match; [done|]. case_match; [done|].
  etransitivity; [|apply calm_count_busy]. by apply calm_upd_sd.
Qed.

Lemma calm_kick cpu s : calm s (nohz_balancer_kick cpu s).
Proof.
  unfold nohz_balancer_kick. cbv zeta. set (s1 := upd_bal _ s).
  assert (C1 : calm s s1) by (by apply calm_upd_bal). transitivity s1; [done|]. clearbody s1.
  destruct (_ <=? _); [done|]. destruct (nohz_balance_kick _); [done|].
  etransitivity; [|apply calm_ipis]. by apply calm_upd_lb.
Qed.
Lemma calm_trigger cpu s : calm s (trigger_load_balance cpu s).
Proof.
  unfold trigger_load_balance. cbv zeta. set (s1 := if _ && _ then _ else s).
  assert (C1 : calm s s1) by (unfold s1; case_match; [by apply calm_upd_lb|done]).
  transitivity s1; [done|]. clearbody s1. clear C1. unfold nohz_kick_needed.
  destruct (idle_cpu s1 cpu); cbn [andb]; [done|].
  set (s2 := nohz_balance_exit_idle cpu _).
  assert (C2 : calm s1 s2) by (etransitivity; [apply calm_sd_busy|apply calm_exit_idle]).
  transitivity s2; [done|]. clearbody s2. destruct (_ && _); [apply calm_kick|done].
Qed.

Lemma still_entity_tick q i s s' : cfs_tg (cfss s q) = 0 -> entity_tick q i s = Some s' -> frozen s s'.
Proof.
  intros Ht. unfold entity_tick. cbv zeta. set (s1 := update_cfs_rq_blocked_load _ _ _).
  assert (S1 : frozen s s1).
  { etransitivity; [apply still_update_curr|]. etransitivity; [apply still_update_load|apply still_blocked]. }
  clearbody s1. rewrite root_shares.
  2: { by rewrite (f_equal snd (st_home _ _ _ _ _ _ S1 q) : cfs_tg (cfss s1 q) = cfs_tg (cfss s q)). }
  case_match; [|by intros [= <-]]. unfold check_preempt_tick. cbv zeta. pose proof (still_slice q i s1) as S2.
  destruct (sched_slice q i s1) as [s2 x]. cbn [fst] in S2. intros E.
  transitivity s1; [done|]. transitivity s2; [done|]. revert E.
  destruct (__pick_first_entity s2 q); cbn [mbind option_bind];
    repeat case_match; intros [= <-]; try done; try apply still_resched;
    (etransitivity; [apply still_resched|apply still_clear_buddies]).
Qed.

(** A running task of the class is queued. *)
Definition runs_ok s cpu : Prop := forall p, rq_curr (rqs s cpu) = RunsFair p ->
  TaskSe p ∈ univ /\ on_rq (ses s (TaskSe p)) <> 0.

Lemma tick_balanced cpu p s :
  fair s -> TaskSe p ∈ univ -> on_rq (ses s (TaskSe p)) <> 0 ->
  exists s', task_tick_fair cpu p s = Some s' /\ balanced s s'.
Proof.
  intros [B F] Hu Ho.
  destruct (task_tick_ok univ univ_nodup univ_small cpu p s (bo_cfs _ _ B) Hu Ho) as (s' & E & B1).
  assert (S : frozen s s').
  { unfold task_tick_fair in E. rewrite chain_task in E by (by apply (bo_cfs _ _ B)). cbn [tick_entities] in E.
    destruct (entity_tick _ _ s) as [s1|] eqn:E1; [|done]. cbn in E. injection E as <-.
    etransitivity; [eapply still_entity_tick; [apply (bo_root _ _ B)|done]|apply still_rq_runnable]. }
  exists s'. split; [done|]. pose proof (frozen_timed _ _ S) as [R Kc].
  destruct (bal_ok_still univ s _ (resting_usage _ _ R) Kc B1 (lists_resting univ _ _ R (bo_lists _ _ B)) B).
  split; [done|done|]. apply shifted_same, S.
Qed.

Lemma scheduler_tick_ends cpu s : fair s -> runs_ok s cpu -> ends s (scheduler_tick cpu s) (fun s => s).
Proof.
  intros F Hr. unfold scheduler_tick. set (s1 := update_rq_clock cpu s).
  apply (ends_after _ s1); [done|apply calm_rq_clock|]. intros F1.
  assert (R1 : runs_ok s1 cpu).
  { intros p. unfold s1, update_rq_clock. case_match; [apply Hr|]. store_rw. apply Hr. }
  clearbody s1. unfold update_cpu_load_active, __update_cpu_load. cbv zeta.
  set (s2 := upd_rq_lb cpu _ (upd_rq_lb cpu _ s1)).
  assert (C2 : calm s1 s2) by (etransitivity; by apply calm_upd_lb).
  apply (ends_after _ s2); [done|done|]. intros F2.
  assert (R2 : runs_ok s2 cpu) by (intros p; unfold s2; store_rw; apply R1). clearbody s2.
  destruct (avg_update_total cpu s2 (bo_time _ _ (proj1 F2))) as (age & rt & E3).
  destruct (calm_avg_update cpu s2 (proj1 F2)) as (s3 & E3' & C3). rewrite E3'. cbn [mbind option_bind].
  assert (R3 : runs_ok s3 cpu) by (intros p; rewrite E3 in E3'; simplify_eq; store_rw; apply R2).
  apply (ends_after _ s3); [done|done|]. intros F3. clear E3 E3' C3.
  assert (B4 : exists s4, match rq_curr (rqs s3 cpu) with RunsFair p => task_tick_fair cpu p s3 | _ => Some s3 end
                         = Some s4 /\ balanced s3 s4).
  { destruct (rq_curr (rqs s3 cpu)) eqn:Er; try (eexists; split; [done|]; by apply balanced_refl).
    destruct (R3 _ Er). by apply tick_balanced. }
  destruct B4 as (s4 & -> & B4). cbn [mbind option_bind]. pose proof (balanced_fair _ _ F3 B4) as F4.
  eexists. split; [done|]. apply (balanced_trans _ s4); [done|]. apply balanced_calm; [|done].
  etransitivity; [|apply calm_trigger]. apply calm_upd_rq; auto.
Qed.

(** * Tasks that wake up and sleep *)

Lemma placed_lists p on f c s s' :
  placed p on f s s' -> TaskSe p ∈ univ -> task_cpu (tasks s p) = c ->
  cfs_rq_of s (TaskSe p) = CfsRq 0 c ->
  (forall d x, x ∈ f d (cfs_tasks (rqs s d)) -> if decide (x = p) then d = c /\ on <> 0 else x ∈ cfs_tasks (rqs s d)) ->
  lists_ok univ s -> lists_ok univ s'.
Proof.
  intros P Hu Hc Hq Hf [Lh Lg Lt Lr]. pose proof (pl_still _ _ _ _ _ P) as S. split.
  - intros d. by rewrite (st_home _ _ _ _ _ _ S).
  - intros x. rewrite (st_task _ _ _ _ _ _ S). apply Lg.
  - intros d x. rewrite (pl_list _ _ _ _ _ P), (st_task _ _ _ _ _ _ S). intros Hx%Hf.
    unfold queued, cfs_rq_of in *. case_decide as E.
    + destruct Hx as [-> Hon]. subst x. pose proof (pl_self _ _ _ _ _ P) as V. unfold place_view in V.
      injection V as _ V1 V2 _. by rewrite V1, V2.
    + destruct (Lt d x Hx) as (? & [? ?] & ?).
      destruct (place_view_inv _ _ (pl_other _ _ _ _ _ P (TaskSe x) ltac:(congruence))) as (_ & -> & -> & _). done.
  - intros q x. rewrite (st_curr _ _ _ _ _ _ S), (st_task _ _ _ _ _ _ S). apply Lr.
Qed.

Lemma placed_balanced p on f s s' :
  placed p on f s s' -> cfs_ok univ s' -> lists_ok univ s' -> bal_ok s -> balanced s s'.
Proof.
  intros P B1 B2 B. pose proof (pl_still _ _ _ _ _ P) as S.
  destruct (bal_ok_still univ s s' (still_weaken _ _ _ S) (pl_clock _ _ _ _ _ P) B1 B2 B).
  split; [done|done|]. apply shifted_same, S.
Qed.

Lemma wake_balanced cpu p c flags s :
  bal_ok s -> TaskSe p ∈ univ -> on_rq (ses s (TaskSe p)) = 0 -> task_cpu (tasks s p) = c ->
  cfs_rq_of s (TaskSe p) = CfsRq 0 c -> balanced s (enqueue_task_fair cpu p flags s).
Proof.
  intros B Hu Ho Hc Hq. destruct (co_task _ _ (bo_cfs _ _ B) _ Hu) as [[T _ _ _] Hp].
  destruct (enqueue_task_ok univ univ_nodup univ_small cpu p flags s (bo_cfs _ _ B) Hu Ho) as [B1 _].
  pose proof (enqueue_task_placed cpu p flags s ltac:(unfold entity_is_task in T; by case_match) Hp Ho
                (bo_root _ _ B _)) as P.
  apply (placed_balanced _ _ _ _ _ P); [done| |done].
  apply (placed_lists _ _ _ c _ _ P); try done; [|apply B].
  pose proof (li_home _ _ (bo_lists _ _ B) c) as Hh. unfold cfs_home in Hh. injection Hh as Hh _.
  intros d x. rewrite Hq, Hh. unfold list_add. destruct (Z.eqb_spec c d); rewrite ?elem_of_cons.
  - intros [Hx|Hx]; case_decide as E; subst; done.
  - intros Hx. case_decide as E; subst; [|done].
    by destruct (li_task _ _ (bo_lists _ _ B) d p Hx) as (_ & [? _] & _).
Qed.

Lemma sleep_balanced cpu p c flags s :
  bal_ok s -> TaskSe p ∈ univ -> queued s (CfsRq 0 c) (TaskSe p) -> task_cpu (tasks s p) = c ->
  balanced s (dequeue_task_fair cpu p flags s).
Proof.
  intros B Hu [Ho Hq] Hc. destruct (co_task _ _ (bo_cfs _ _ B) _ Hu) as [[T _ _ _] Hp].
  destruct (dequeue_task_ok univ univ_nodup univ_small cpu p flags s (bo_cfs _ _ B) Hu Ho) as [B1 _].
  pose proof (dequeue_task_placed cpu p flags s ltac:(unfold entity_is_task in T; by case_match) Hp
                (bo_root _ _ B _)) as P.
  apply (placed_balanced _ _ _ _ _ P); [done| |done].
  apply (placed_lists _ _ _ c _ _ P); try done; [|apply B].
  pose proof (li_home _ _ (bo_lists _ _ B) c) as Hh. unfold cfs_home in Hh. injection Hh as Hh _.
  intros d x. rewrite Hq, Hh. unfold list_del. destruct (Z.eqb_spec c d) as [->|Hd].
  - intros [? Hx]%list_elem_of_filter. by rewrite decide_False.
  - intros Hx. case_decide as E; subst; [|done].
    by destruct (li_task _ _ (bo_lists _ _ B) d p Hx) as (_ & _ & ?).
Qed.

(** * All of it, in any order *)

Definition take_lb_work (c : Z) s : sys :=
  upd_bal (fun b => b <| lb_stop_works := filter (fun x => x <> c) (lb_stop_works b) |>) s.

(** Balancing of all kinds (that of a CPU going idle if it does not pull for HMP), ticks, tasks that wake up and sleep, CPUs that stop and start their
    ticks, and anything else that leaves the topology and the CPUs of tasks alone, keeps accounts
    and lists and lets clocks run: context switches, the passing of time, changes of affinity. *)
Inductive balance_step s : sys -> Prop :=
| bs_tick cpu s' : runs_ok s cpu -> scheduler_tick cpu s = Some s' -> balance_step s s'
| bs_softirq me cpu why s' : 0 <= cpu < NR_CPUS -> rebalance_domains me cpu why s = Some s' -> balance_step s s'
| bs_nohz cpu why s' : nohz_idle_balance cpu why s = Some s' -> balance_step s s'
| bs_newidle cpu s' : CONFIG_HMP_DELAY_UP_MIGRATION = false -> 0 <= cpu < NR_CPUS ->
    idle_balance_cpu cpu s = Some s' -> balance_step s s'
| bs_stop c me s' : active_load_balance_cpu_stop c me (take_lb_work c s) = Some s' -> balance_step s s'
| bs_wake cpu p flags : TaskSe p ∈ univ -> on_rq (ses s (TaskSe p)) = 0 ->
    cfs_rq_of s (TaskSe p) = CfsRq 0 (task_cpu (tasks s p)) -> balance_step s (enqueue_task_fair cpu p flags s)
| bs_sleep cpu p flags : TaskSe p ∈ univ -> queued s (CfsRq 0 (task_cpu (tasks s p))) (TaskSe p) ->
    balance_step s (dequeue_task_fair cpu p flags s)
| bs_idle cpu : balance_step s (nohz_balance_enter_idle cpu (set_cpu_sd_state_idle cpu s))
| bs_busy cpu : balance_step s (nohz_balance_exit_idle cpu (set_cpu_sd_state_busy cpu s))
| bs_other s' : bal_ok s' -> same_topo s s' ->
    (forall p, task_cpu (tasks s' p) = task_cpu (tasks s p)) -> balance_step s s'.

Definition confined s s' : Prop :=
  forall p, task_cpu (tasks s' p) = task_cpu (tasks s p) \/ K (task_cpu (tasks s p)) (task_cpu (tasks s' p)).

Lemma confined_shifted s s' : shifted K s s' -> confined s s'.
Proof. intros Sh p. destruct (Sh p) as [->|(d & -> & _ & ? & _)]; [by left|by right]. Qed.
Lemma confined_trans s1 s2 s3 : confined s1 s2 -> confined s2 s3 -> confined s1 s3.
Proof.
  intros C1 C2 p. destruct (C1 p) as [<-|], (C2 p) as [E|]; [by left|by right|right; by rewrite E|right].
  by etransitivity.
Qed.

Lemma ends_some {A} s (r : option A) state a : ends s r state -> r = Some a -> balanced s (state a).
Proof. intros (b & E & B) Ea. congruence. Qed.

Lemma balance_step_ok s s' :
  fair s -> balance_step s s' -> fair s' /\ confined s s'.
Proof.
  intros F St. assert (Ok : forall s', balanced s s' -> fair s' /\ confined s s').
  { intros s1 B1. split; [by apply (balanced_fair s)|]. by apply confined_shifted, B1. }
  destruct St as [cpu s' Hr E|me cpu why s' Hc E|cpu why s' E|cpu s' Hd Hc E|c me s' E
                 |cpu p flags Hu Ho Hq|cpu p flags Hu Hq|cpu|cpu|s' B T Ht].
  - by apply Ok, (ends_some _ _ _ _ (scheduler_tick_ends cpu s F Hr)).
  - by apply Ok, (ends_some _ _ _ _ (rebalance_domains_ends me cpu why s F Hc)).
  - by apply Ok, (ends_some _ _ _ _ (nohz_idle_balance_ends cpu why s F)).
  - by apply Ok, (ends_some _ _ _ _ (idle_balance_ends cpu s Hd F Hc)).
  - assert (C : calm s (take_lb_work c s)) by (by apply calm_upd_bal).
    apply Ok, (ends_some _ _ (fun s => s) _ (ends_after s _ _ _ F C (active_balance_ends c me _)) E).
  - apply Ok. by apply (wake_balanced _ _ (task_cpu (tasks s p))); [apply F|..].
  - apply Ok. by apply (sleep_balanced _ _ (task_cpu (tasks s p))); [apply F|..].
  - apply Ok, balanced_calm; [|done]. etransitivity; [apply calm_sd_idle|apply calm_enter_idle].
  - apply Ok, balanced_calm; [|done]. etransitivity; [apply calm_sd_busy|apply calm_exit_idle].
  - split; [|intros p; by left]. split; [done|]. by apply (fenced_topo s), F.
Qed.

End runs.

(** * A sample topology

    The two clusters of the sample system are balanced within themselves, as the HMP patches set
    [SD_LOAD_BALANCE] up; the level above is not balanced. *)

(** Decides that the domain at a level is well-formed. *)
Definition domain_check `{Config} (s : sys) (c : Z) (l : nat) (d : sched_domain) : bool :=
  match head (sd_groups d) with
  | None => false
  | Some g0 =>
      let inside g m := Z.land (sched_group_cpus s g) m =? sched_group_cpus s g in
      let apart g := (g =? g0) || (Z.land (sched_group_cpus s g) (sched_group_cpus s g0) =? 0) in
      cpumask_test_cpu c (sched_group_cpus s g0)
      && forallb (fun g => inside g (sd_span d) && apart g) (sd_groups d)
      && (sum_weights s (sd_groups d) <=? 1000) && (0 <=? smt_gain d) && (smt_gain d <=? 2 ^ 11)
      && match l with
         | O => true
         | S l => match rq_sd (rqs s c) !! l with
                  | None => true
                  | Some ch => sum_weights s (sd_groups ch) <=? sg_weight s g0
                  end
         end
  end.

Lemma domain_check_ok `{Config} s c l d : domain_check s c l d = true -> domain_ok s c l d.
Proof.
  unfold domain_check. destruct (head (sd_groups d)) as [g0|] eqn:E0; [|done]. cbv zeta. rewrite !andb_true_iff.
  intros (((((H1 & H2) & H3) & H4) & H5) & H6). rewrite forallb_forall in H2.
  assert (H2' : forall g, g ∈ sd_groups d -> Z.land (sched_group_cpus s g) (sd_span d) = sched_group_cpus s g
    /\ (g = g0 \/ Z.land (sched_group_cpus s g) (sched_group_cpus s g0) = 0)).
  { intros g Hg%list_elem_of_In%H2. apply andb_true_iff in Hg as [G1%Z.eqb_eq G2]. split; [done|].
    by apply orb_true_iff in G2 as [?%Z.eqb_eq|?%Z.eqb_eq]; auto. }
  split; unfold cpumask_test_cpu in *.
  - by exists g0.
  - intros g x Hg Hx. destruct (H2' g Hg) as [G _]. rewrite <- G, Z.land_spec in Hx.
    by apply andb_true_iff in Hx as [_ ?].
  - intros g1 g x ? Hg Hx0 Hx. simplify_eq. destruct (H2' g Hg) as [_ [|G]]; [done|].
    pose proof (f_equal (fun m => Z.testbit m x) G) as Gx. cbn in Gx.
    by rewrite Z.land_spec, Hx, Hx0, Z.bits_0 in Gx.
  - by apply Z.leb_le.
  - intros l' ch g -> Hch _ ?. simplify_eq. rewrite Hch in H6. by apply Z.leb_le.
  - split; by apply Z.leb_le.
Qed.

Definition levels_check `{Config} (s : sys) (f : Z -> nat -> sched_domain -> bool) : bool :=
  forallb (fun c => forallb (fun l => match rq_sd (rqs s c) !! l with Some d => f c l d | None => true end)
                      (seq 0 (length (rq_sd (rqs s c))))) cpu_ids.
Lemma levels_check_ok `{Config} s f c l d :
  levels_check s f = true -> 0 <= c < NR_CPUS -> rq_sd (rqs s c) !! l = Some d -> f c l d = true.
Proof.
  unfold levels_check. rewrite forallb_forall. intros Hf Hc Hd.
  specialize (Hf c ltac:(by apply list_elem_of_In, elem_of_cpu_ids)). rewrite forallb_forall in Hf.
  specialize (Hf l). rewrite Hd in Hf. apply Hf. apply list_elem_of_In, elem_of_seq.
  apply lookup_lt_Some in Hd. lia.
Qed.

Definition topo_rq (c : Z) : rq :=
  let cluster := if c <? 4 then [0; 1; 2; 3] else [4; 5; 6; 7] in
  sample_rq <| rq_sd :=
    [sample_sd (if c <? 4 then 15 else 240) (Z.lor SD_LOAD_BALANCE SD_BALANCE_NEWIDLE)
       (c :: filter (fun x => x <> c) cluster);
     sample_sd 255 0 (if c <? 4 then [8; 9] else [9; 8])] |>.
Definition flat_sys : sys :=
  upd_se (TaskSe 12) (fun e => e <| se_cfs_rq := CfsRq 0 4 |>)
    (upd_task 12 (fun t => t <| task_cpu := 4 |>)
       (sample_sys <| rqs := topo_rq |>
          <| cfss := fun q => let '(CfsRq _ cpu) := q in sample_cfs (CfsRq 0 cpu) |>)).
Definition shared_sys : sys :=
  enqueue_task_fair (H := big_LITTLE_MP) 4 12 ENQUEUE_WAKEUP
    (enqueue_task_fair (H := big_LITTLE_MP) 4 4 ENQUEUE_WAKEUP flat_sys).

Definition crowd : list se_id := [TaskSe 4; TaskSe 12].
#[local] Instance : Config := big_LITTLE_MP.

Lemma flat_cfs_ok : cfs_ok crowd flat_sys.
Proof.
  split; [| | |exact sample_scales_ok].
  - intros cpu. split; [reflexivity..|constructor| |discriminate|reflexivity].
    intros i. split; [intros Hi; by apply elem_of_nil in Hi|intros [Hi _]; by apply elem_of_nil in Hi].
  - intros i [->|[->|Hi%elem_of_nil]%elem_of_cons]%elem_of_cons; [| |done];
      (split; [split|]; vm_compute; intuition discriminate).
  - intros i [->|[->|Hi%elem_of_nil]%elem_of_cons]%elem_of_cons; [| |done]; eexists; reflexivity.
Qed.

Lemma flat_bal_ok : bal_ok crowd flat_sys.
Proof.
  split.
  - exact flat_cfs_ok.
  - split.
    + done.
    + intros p [E|[E|E%elem_of_nil]%elem_of_cons]%elem_of_cons; [..|done]; by injection E as ->.
    + intros c p Hp. by apply elem_of_nil in Hp.
    + by intros [? ?] p.
  - intros c l d Hc Hd. apply domain_check_ok. revert Hc Hd. by apply (levels_check_ok _ (domain_check flat_sys)).
  - split.
    + by intros c _.
    + intros c l d g Hc Hd Hg. assert (Hch : forallb (fun g => (1 <=? sg_power (get_sg flat_sys g))
        && (sg_power (get_sg flat_sys g) <=? 2 ^ 22 * sg_weight flat_sys g)) (sd_groups d) = true).
      { revert Hc Hd. by apply (levels_check_ok _ (fun _ _ d => forallb _ (sd_groups d))). }
      rewrite forallb_forall in Hch. specialize (Hch g ltac:(by apply list_elem_of_In)).
      apply andb_true_iff in Hch as [?%Z.leb_le ?%Z.leb_le]. done.
    + intros c. change (0 <= (if c <? 4 then 1536 else 606) <= 2 ^ 20). destruct (c <? 4); lia.
  - split; [|done]. by intros c.
  - done.
  - by intros [? ?].
  - by intros c.
  - done.
  - done.
Qed.

(** CPUs are related when they are in the same cluster. *)
Definition same_cluster (a b : Z) : Prop := hmp_cpu_domain sample_sys a = hmp_cpu_domain sample_sys b.
#[local] Instance same_cluster_trans : Transitive same_cluster.
Proof. unfold same_cluster. intros a b c. congruence. Qed.

Lemma cluster_bits a : Z.testbit 15 a = true -> hmp_cpu_domain sample_sys a = 0.
Proof.
  intros Ha. change ((if a <? 4 then 0 else 1) = 0). destruct (Z.ltb_spec a 4); [done|].
  rewrite Z.bits_above_log2 in Ha; [done|lia|]. change (3 < a). lia.
Qed.
Lemma cluster_bits' a : Z.testbit 240 a = true -> hmp_cpu_domain sample_sys a = 1.
Proof.
  intros Ha. change ((if a <? 4 then 0 else 1) = 1). destruct (Z.ltb_spec a 4); [|done].
  change 240 with (15 * 2 ^ 4) in Ha. rewrite Z.mul_pow2_bits, Z.testbit_neg_r in Ha by lia. done.
Qed.

Lemma shared_fenced : fenced same_cluster shared_sys.
Proof.
  intros c l d a b Hc Hd Hf [Ha Hb]. assert (E : ((sd_span d =? 15) || (sd_span d =? 240)) = true).
  { assert (X : negb (has_flag (sd_flags d) SD_LOAD_BALANCE) || (sd_span d =? 15) || (sd_span d =? 240) = true).
    { apply (levels_check_ok shared_sys (fun _ _ d => negb (has_flag (sd_flags d) SD_LOAD_BALANCE)
                || (sd_span d =? 15) || (sd_span d =? 240)) c l d); [vm_compute; reflexivity|done|done]. }
    by rewrite Hf in X. }
  unfold same_cluster, cpumask_test_cpu in *.
  apply orb_true_iff in E as [E%Z.eqb_eq|E%Z.eqb_eq]; rewrite E in Ha, Hb.
  - exact (eq_trans (cluster_bits a Ha) (eq_sym (cluster_bits b Hb))).
  - exact (eq_trans (cluster_bits' a Ha) (eq_sym (cluster_bits' b Hb))).
Qed.

Lemma crowd_small : Z.of_nat (length crowd) <= 48000.
Proof. vm_compute. discriminate. Qed.
Lemma crowd_nodup : NoDup crowd.
Proof. apply (bool_decide_unpack _). vm_compute. exact I. Qed.

Lemma shared_ok : bal_ok crowd shared_sys.
Proof.
  unfold shared_sys. set (s1 := enqueue_task_fair 4 4 _ _).
  assert (B1 : balanced crowd same_cluster flat_sys s1).
  { apply (wake_balanced crowd crowd_nodup crowd_small same_cluster 4 4 4); try done; [apply flat_bal_ok|].
    apply list_elem_of_here. }
  apply (wake_balanced crowd crowd_nodup crowd_small same_cluster 4 12 4); [apply B1| |vm_compute; reflexivity..].
  apply list_elem_of_further, list_elem_of_here.
Qed.

(** CPU 4 has its tick, with tasks 4 and 12 on it; then the idle CPU 5 balances. *)
Definition ticked_sys : sys :=
  match scheduler_tick 4 shared_sys with Some s => s | None => shared_sys end.
Definition relieved_sys : sys :=
  match rebalance_domains 5 5 CPU_IDLE ticked_sys with Some s => s | None => ticked_sys end.

Lemma ticked_run : scheduler_tick 4 shared_sys = Some ticked_sys.
Proof.
  assert (E : is_Some (scheduler_tick 4 shared_sys)) by (vm_compute; eexists; reflexivity).
  unfold ticked_sys. by destruct E as [s ->].
Qed.
Lemma relieved_run : rebalance_domains 5 5 CPU_IDLE ticked_sys = Some relieved_sys.
Proof.
  assert (E : is_Some (rebalance_domains 5 5 CPU_IDLE ticked_sys)) by (vm_compute; eexists; reflexivity).
  unfold relieved_sys. by destruct E as [s ->].
Qed.


(** CPU 5 takes one of the two tasks, for an imbalance of 512. *)
Definition pull_env : lb_env :=
  {| lb_me := 5; lb_sd := (5, O); src_cpu := 4; dst_cpu := 5; dst_grpmask := Some (cpumask_of 5); new_dst_cpu := 0;
     idle := CPU_IDLE; imbalance := 512; lb_cpus := 255; lb_flags := LBF_ALL_PINNED; lb_loop := 0;
     loop_break := 32; loop_max := 2 |}.

Definition loaded_sys : sys := match update_h_load 4 shared_sys with Some s => s | None => shared_sys end.
Lemma loaded_ok : bal_ok crowd loaded_sys.
Proof.
  destruct (update_h_load_ok crowd 4 shared_sys shared_ok) as (s & E & C). unfold loaded_sys. rewrite E.
  by apply (bal_ok_calm crowd shared_sys), shared_ok.
Qed.

