(* ===== verification/WakeSafe.v ===== *)
(** Waking a task, from [try_to_wake_up] to the run queue or wake list of the CPU that is chosen:
    the search for a CPU ends without dividing by zero, the CPU is online and allowed, and the
    accounts and lists of the run queues stay right. *)

From S2P Require Import Prelude Spinlock Pelt SchedTypes EntityLoad HmpDomain HmpSelect Cfs CfsInv CpuLoad.
From S2P Require Import HmpMigration MigrationSafe TaskLists HmpEnh LoadStats LoadBalance Rebalance SelectRq.
From S2P Require Import BalanceTopo BalanceSafe BalanceRuns.

Section wake.
Context `{Config}.
Context (univ : list se_id) (univ_nodup : NoDup univ) (univ_small : Z.of_nat (length univ) <= 48000).
Implicit Types (s : sys) (p cpu : Z).

Abbreviation bal_ok := (bal_ok univ).

(** * The idlest CPU *)

Lemma find_idlest_group_some s c l p this idx :
  bal_ok s -> 0 <= c < NR_CPUS -> is_Some (rq_sd (rqs s c) !! l) ->
  exists g, find_idlest_group s (c, l) p this idx = Some g.
Proof.
  intros B Hc [d Hd]. unfold find_idlest_group. cbv zeta. rewrite (get_sd_lookup s c l d Hd).
  destruct (foldM_total (fun _ => True) (idlest_group_step s p this idx) (sd_groups d) (None, ULONG_MAX, 0))
    as ([[idlest min_load] this_load] & -> & _); [|done|].
  - intros [[idlest min_load] this_load] g Hg _. unfold idlest_group_step. case_match; [by eexists|].
    pose proof (po_group _ (bo_power _ _ B) c l d g Hc Hd Hg). rewrite (udiv_some _ (sg_power (get_sg s g))) by lia.
    by eexists.
  - by eexists.
Qed.

Lemma idlest_cpu_range s g p this :
  find_idlest_cpu s g p this = -1 \/ 0 <= find_idlest_cpu s g p this < NR_CPUS.
Proof.
  unfold find_idlest_cpu. pose proof (cpus_of_range (cpumask_and (sched_group_cpus s g) (tsk_cpus_allowed s p))) as Hl.
  revert Hl. generalize (cpus_of (cpumask_and (sched_group_cpus s g) (tsk_cpus_allowed s p))). intros l Hl.
  assert (Hb : (-1, ULONG_MAX).1 = -1 \/ 0 <= (-1, ULONG_MAX).1 < NR_CPUS) by (by left). revert Hb.
  generalize (-1, ULONG_MAX). induction Hl as [|c l Hc _ IH]; intros b Hb; cbn [foldl]; [done|].
  apply IH. unfold idlest_cpu_step. case_match; [by right|done].
Qed.

(** A domain has at least as many CPUs as the one below it. *)
Definition spans_ok s : Prop := forall c l d, 0 <= c < NR_CPUS -> rq_sd (rqs s c) !! l = Some d ->
  0 <= span_weight d /\ forall d', rq_sd (rqs s c) !! S l = Some d' -> span_weight d <= span_weight d'.

Lemma spans_topo s s' : same_topo s s' -> spans_ok s -> spans_ok s'.
Proof.
  intros T Hs c l d Hc Hd. destruct (topo_lookup s s' c l d T Hd) as (d0 & H0 & Ev).
  destruct (sd_view_inv _ _ Ev) as (_ & _ & _ & -> & _). destruct (Hs c l d0 Hc H0) as [S1 S2]. split; [done|].
  intros d' Hd'. destruct (topo_lookup s s' c (S l) d' T Hd') as (d0' & H0' & Ev').
  destruct (sd_view_inv _ _ Ev') as (_ & _ & _ & -> & _). by apply S2.
Qed.

Definition max_levels s : nat := foldr (fun c n => Nat.max (length (rq_sd (rqs s c))) n) O cpu_ids.
Lemma max_levels_ge s c : 0 <= c < NR_CPUS -> (length (rq_sd (rqs s c)) <= max_levels s)%nat.
Proof.
  intros Hc%elem_of_cpu_ids. unfold max_levels. revert Hc. induction cpu_ids as [|x l IH]; cbn.
  - intros Hc. by apply elem_of_nil in Hc.
  - intros [->|Hc]%elem_of_cons; [lia|]. specialize (IH Hc). lia.
Qed.

(** A level that exists, and how far the search may still go. *)
Definition level_ok s (sd : option sd_ptr) : Prop :=
  match sd with None => True | Some sd => 0 <= sd.1 < NR_CPUS /\ is_Some (rq_sd (rqs s sd.1) !! sd.2) end.
Definition idlest_measure s (sd : option sd_ptr) : nat :=
  match sd with
  | None => O
  | Some sd => (Z.to_nat (span_weight (get_sd s sd)) * S (max_levels s) + S sd.2)%nat
  end.

Lemma child_measure s sd :
  spans_ok s -> level_ok s (Some sd) ->
  level_ok s (sd_child sd) /\ (idlest_measure s (sd_child sd) < idlest_measure s (Some sd))%nat.
Proof.
  intros Hs [Hc [d Hd]]. destruct sd as [c [|l]]; unfold sd_child; cbn [snd fst level_ok] in *.
  - split; [done|]. unfold idlest_measure. lia.
  - assert (is_Some (rq_sd (rqs s c) !! l)) as [d0 Hd0].
    { apply lookup_lt_is_Some. apply lookup_lt_Some in Hd. lia. }
    split; [by split; [|exists d0]|]. unfold idlest_measure.
    rewrite (get_sd_lookup s c l d0 Hd0), (get_sd_lookup s c (S l) d Hd). cbn [snd].
    destruct (Hs c l d0 Hc Hd0) as [S1 S2]. specialize (S2 d Hd).
    assert (Z.to_nat (span_weight d0) <= Z.to_nat (span_weight d))%nat by lia. nia.
Qed.

Lemma below_measure s f w c sd :
  spans_ok s -> 0 <= c < NR_CPUS -> 0 <= w -> below_weight s f w (domains_of s c) None = sd ->
  level_ok s sd /\ (idlest_measure s sd <= Z.to_nat w * S (max_levels s))%nat.
Proof.
  intros Hs Hc Hw. pose proof (levels_all s c) as Hl. revert Hl. generalize (domains_of s c). intros l Hl.
  assert (H0 : level_ok s None /\ (idlest_measure s None <= Z.to_nat w * S (max_levels s))%nat)
    by (split; [done|unfold idlest_measure; lia]).
  revert H0. generalize (@None sd_ptr). induction Hl as [|[c' l'] l [E [d Hd]] _ IH]; intros acc Ha;
    cbn [below_weight]; [by intros <-|]. cbn [fst snd] in E, Hd. subst c'.
  rewrite (get_sd_lookup s c l' d Hd). destruct (Z.leb_spec w (span_weight d)); [by intros <-|].
  apply IH. destruct (has_flag _ _); [|done]. split; [by split; [|exists d]|].
  unfold idlest_measure. rewrite (get_sd_lookup s c l' d Hd). cbn [snd].
  destruct (Hs c l' d Hc Hd) as [S1 _]. apply lookup_lt_Some in Hd. pose proof (max_levels_ge s c Hc).
  assert (S (Z.to_nat (span_weight d)) <= Z.to_nat w)%nat by lia. nia.
Qed.

Lemma idlest_loop_some fuel s p f cpu new sd :
  bal_ok s -> spans_ok s -> level_ok s sd -> (idlest_measure s sd <= fuel)%nat ->
  is_Some (idlest_loop fuel s p f cpu new sd).
Proof.
  intros B Hs. revert cpu new sd. induction fuel as [|fuel IH]; intros cpu new [sd|] Hl Hf; try by eexists.
  { unfold idlest_measure in Hf. lia. }
  destruct (child_measure s sd Hs Hl) as [L1 M1].
  assert (Down : forall cpu new, is_Some (idlest_loop fuel s p f cpu new (sd_child sd))).
  { intros cpu' new'. apply IH; [done|lia]. }
  cbn [idlest_loop]. cbv zeta. case_match; [done|]. destruct Hl as [Hc Hd]. destruct sd as [c l]. cbn [fst snd] in *.
  destruct (find_idlest_group_some s c l p cpu
              (if has_flag f SD_BALANCE_WAKE then wake_idx (get_sd s (c, l)) else forkexec_idx (get_sd s (c, l))) B Hc Hd)
    as [[g|] ->]; cbn [mbind option_bind]; [|done].
  destruct (idlest_cpu_range s g p cpu) as [Hr|Hr]; [rewrite Hr; apply Down|]. case_match; [apply Down|].
  destruct Hd as [d Hd]. pose proof (get_sd_lookup s c l d Hd) as Ed. destruct (Hs c l d Hc Hd) as [S1 _].
  destruct (below_measure s f (span_weight (get_sd s (c, l))) (find_idlest_cpu s g p cpu) _ Hs Hr
              ltac:(by rewrite Ed) eq_refl) as [L2 M2].
  apply IH; [done|]. unfold idlest_measure at 1 in Hf. cbn [snd] in Hf. lia.
Qed.

(** The fuel that is given suffices. *)
Lemma idlest_fuel_ge s sd :
  spans_ok s -> level_ok s sd -> (idlest_measure s sd <= idlest_fuel s sd)%nat.
Proof.
  intros Hs Hl. destruct sd as [[c l]|]; [|done]. destruct Hl as [Hc [d Hd]]. cbn [fst snd] in *.
  unfold idlest_measure, idlest_fuel. fold (max_levels s). rewrite (get_sd_lookup s c l d Hd). cbn [snd].
  destruct (Hs c l d Hc Hd) as [S1 _]. apply lookup_lt_Some in Hd. pose proof (max_levels_ge s c Hc).
  replace (Z.to_nat (span_weight d + 1)) with (S (Z.to_nat (span_weight d))) by lia. nia.
Qed.

Lemma scan_domains_ok s f prev affine c sd :
  0 <= c < NR_CPUS -> scan_domains s f prev affine (domains_of s c) None = inr sd -> level_ok s sd.
Proof.
  intros Hc. pose proof (levels_all s c) as Hl. revert Hl. generalize (domains_of s c). intros l Hl.
  assert (H0 : level_ok s None) by done. revert H0. generalize (@None sd_ptr).
  induction Hl as [|tmp l [E Hd] _ IH]; intros acc Ha; cbn [scan_domains]; [by intros [= <-]|].
  case_match; [by apply IH|]. case_match; [done|]. apply IH. case_match; [|done]. by subst c.
Qed.

(** * Waking near the waker *)

Lemma effective_load_root s cpu wl wg : bal_ok s -> effective_load s 0 cpu wl wg = Some wl.
Proof.
  intros B. pose proof (bo_tree _ _ B) as Ht. unfold tg_home in Ht. injection Ht as Hp _.
  unfold effective_load. by rewrite Hp.
Qed.

Lemma wake_affine_some s sd p me me_task sync :
  bal_ok s -> sched_task_group (tasks s p) = 0 -> sched_task_group (tasks s me_task) = 0 ->
  is_Some (wake_affine s sd p me me_task sync).
Proof.
  intros B H1 H2. unfold wake_affine. cbv zeta. rewrite H1, H2, !effective_load_root by done.
  destruct sync; cbn [mbind option_bind]; case_match; cbn [mbind option_bind]; by eexists.
Qed.

Lemma select_cfs_some s p f me me_task new sync :
  bal_ok s -> spans_ok s -> 0 <= me < NR_CPUS -> sched_task_group (tasks s p) = 0 ->
  sched_task_group (tasks s me_task) = 0 -> is_Some (select_cfs_cpu s p f me me_task new sync).
Proof.
  intros B Hs Hm H1 H2. unfold select_cfs_cpu. cbv zeta. destruct (scan_domains _ _ _ _ _ _) as [sd|sd] eqn:E.
  - case_match; cbn [mbind option_bind]; [by eexists|].
    destruct (wake_affine_some s sd p me me_task sync B H1 H2) as [b ->]. by eexists.
  - apply scan_domains_ok in E; [|done]. apply idlest_loop_some; auto using idlest_fuel_ge.
Qed.

(** * A task that is off its run queue *)

Record off s p : Prop := {
  off_ok : bal_ok s;
  off_univ : TaskSe p ∈ univ;
  off_rq : on_rq (ses s (TaskSe p)) = 0;
  off_cpu : on_cpu (tasks s p) = 0;
  off_home : cfs_rq_of s (TaskSe p) = CfsRq 0 (task_cpu (tasks s p));
}.

(** Steps that concern [p] only: other tasks, the topology, the masks of CPUs and the lists of
    tasks to be woken stay. *)
Record others p s s' : Prop := {
  ot_topo : same_topo s s';
  ot_tasks : forall x, x <> p -> tasks s' x = tasks s x;
  ot_place : forall x, x <> p -> place_view (ses s' (TaskSe x)) = place_view (ses s (TaskSe x));
  ot_wake : forall c, wake_list (rq_lb (rqs s' c)) = wake_list (rq_lb (rqs s c));
  ot_masks : (cpu_online_mask s', cpu_active_mask (bal s')) = (cpu_online_mask s, cpu_active_mask (bal s));
  ot_ipis : resched_ipis s' = resched_ipis s;
}.
#[export] Instance others_preorder p : PreOrder (others p).
Proof.
  split; [by split|]. intros s1 s2 s3 [T1 K1 P1 W1 M1 I1] [T2 K2 P2 W2 M2 I2].
  split; [by rewrite T1|intros x Hx; by rewrite K2, K1|intros x Hx; by rewrite P2, P1|congruence..].
Qed.

(** It stays off its run queue, in the same state. *)
Record nudged p s s' : Prop := {
  nd_off : off s' p;
  nd_others : others p s s';
  nd_state : task_state (tasks s' p) = task_state (tasks s p);
}.
Lemma nudged_refl p s : off s p -> nudged p s s.
Proof. by split. Qed.
Lemma nudged_trans p s1 s2 s3 : nudged p s1 s2 -> nudged p s2 s3 -> nudged p s1 s3.
Proof. intros [O1 T1 E1] [O2 T2 E2]. split; [done|by rewrite T1|congruence]. Qed.

Lemma others_still {W V E} (w : cfs_rq -> W) (v : rq -> V) (e : sched_entity -> E) p s s' :
  still_on w v e (fun t => t) s s' -> (forall c, rq_sd (rqs s' c) = rq_sd (rqs s c)) ->
  (forall c, rq_lb (rqs s' c) = rq_lb (rqs s c)) ->
  (forall x, x <> p -> place_view (ses s' (TaskSe x)) = place_view (ses s (TaskSe x))) -> others p s s'.
Proof.
  intros S Hd Hl Hp. pose proof (st_env _ _ _ _ _ _ S) as Ee.
  assert (Eb : bal s' = bal s) by exact (f_equal (fun v => v.2.1.1.2) Ee). split.
  - split; [intros c; by rewrite Hd|]. intros g. unfold sched_group_cpus, get_sg. by rewrite Eb.
  - intros x _. apply S.
  - done.
  - intros c. by rewrite Hl.
  - rewrite Eb. by rewrite (f_equal (fun v => v.1.1.2) Ee : cpu_online_mask s' = cpu_online_mask s).
  - apply S.
Qed.
Lemma others_resting p s s' : resting s s' -> others p s s'.
Proof.
  intros R. apply (others_still _ _ _ p s s' R).
  - intros c. exact (f_equal (fun v => v.1.1.2) (st_rq _ _ _ _ _ _ R c)).
  - intros c. exact (f_equal (fun v => v.1.2.1.2) (st_rq _ _ _ _ _ _ R c)).
  - intros x _. apply R.
Qed.

Lemma nudged_timed p s s' : timed s s' -> cfs_ok univ s' -> off s p -> nudged p s s'.
Proof.
  intros [R Kc] B1 [B Hu Ho Hc Hh]. split; [|by apply others_resting|by rewrite (st_task _ _ _ _ _ _ R p)].
  destruct (bal_ok_still univ s s' (resting_usage _ _ R) Kc B1 (lists_resting univ _ _ R (bo_lists _ _ B)) B) as [B' T].
  destruct (place_view_inv _ _ (st_se _ _ _ _ _ _ R (TaskSe p))) as (_ & E1 & E2 & _). unfold cfs_rq_of in *.
  split; unfold cfs_rq_of; rewrite ?E1, ?E2, ?(st_task _ _ _ _ _ _ R p); done.
Qed.
Lemma nudged_loadeq p s s' : timed s s' -> loadeq s s' -> off s p -> nudged p s s'.
Proof. intros T L O. apply nudged_timed; [done| |done]. rewrite <- L. apply O. Qed.

(** What the class looks at in a task. *)
Definition task_place (t : task_struct) := (sched_task_group t, task_cpu t, on_cpu t).

Lemma bal_ok_task p f s :
  (forall t, task_place (f t) = task_place t) -> bal_ok s -> bal_ok (upd_task p f s).
Proof.
  intros Hf [B1 B2 B3 B4 B5 B6 B7 B8 B9 B10].
  assert (V : forall x, task_place (tasks (upd_task p f s) x) = task_place (tasks s x)).
  { intros x. destruct (decide (p = x)) as [->|]; store_rw; auto. }
  assert (T : same_topo s (upd_task p f s)) by done.
  split; try done.
  - by apply (cfs_ok_proper univ s); [split|].
  - destruct B2 as [Lh Lg Lt Lr]. unfold task_place in V. split; [done|..].
    + intros x Hx. rewrite <- (Lg x Hx). exact (f_equal (fun v => v.1.1) (V x)).
    + intros c x Hx. destruct (Lt c x Hx) as (? & ? & E). split_and!; [done|done|].
      rewrite <- E. exact (f_equal (fun v => v.1.2) (V x)).
    + intros q x Hx. rewrite (f_equal snd (V x) : on_cpu _ = on_cpu _). by apply (Lr q).
  - by rewrite <- T.
  - by apply (power_ok_same s).
  - apply (aged_same s); [by left|done|done].
Qed.

Lemma off_task p f s :
  (forall t, task_place (f t) = task_place t) -> off s p -> off (upd_task p f s) p /\ others p s (upd_task p f s).
Proof.
  intros Hf [B Hu Ho Hc Hh]. pose proof (Hf (tasks s p)) as V. unfold task_place in V. injection V as _ V2 V3.
  split; [split; [by apply bal_ok_task|done|done| |]; store_rw; congruence|].
  split; try done. intros x Hx. by store_rw.
Qed.

Lemma not_running s p : off s p -> forall q, curr (cfss s q) <> Some (TaskSe p).
Proof. intros O q E. by apply (li_running _ _ (bo_lists _ _ (off_ok _ _ O)) q p E), (off_cpu _ _ O). Qed.

(** ** Giving it another CPU *)

Lemma nudged_migrate_rq p s : off s p -> nudged p s (migrate_task_rq_fair p s).
Proof.
  intros O. apply nudged_timed; [apply migrate_rq_timed| |done].
  apply migrate_task_rq_ok; [apply O|apply O|apply O].
Qed.

Lemma rehomed_lists p c s :
  off s p -> lists_ok univ (__set_task_cpu p c s).
Proof.
  intros [B Hu Ho Hc Hh]. destruct (bo_lists _ _ B) as [Lh Lg Lt Lr]. unfold __set_task_cpu, set_task_rq. split.
  - done.
  - intros x Hx. destruct (decide (p = x)) as [->|]; store_rw; by apply Lg.
  - intros d x Hx. destruct (Lt d x Hx) as (H1 & [H2 H3] & H4). assert (p <> x) by (intros ->; done).
    unfold queued, cfs_rq_of in *. by store_rw.
  - intros q x Hx. destruct (decide (p = x)) as [->|]; store_rw; by apply (Lr q).
Qed.

Lemma nudged_set_cpu p c s :
  off s p -> nudged p s (set_task_cpu p c s)
  /\ tasks (set_task_cpu p c s) p = tasks s p <| task_cpu := c |>.
Proof.
  intros O. unfold set_task_cpu. set (s1 := if negb _ then _ else s).
  assert (N1 : nudged p s s1) by (unfold s1; case_match; [by apply nudged_migrate_rq|by apply nudged_refl]).
  assert (E1 : tasks s1 p = tasks s p).
  { unfold s1. case_match; [|done]. apply (st_task _ _ _ _ _ _ (still_migrate_rq p s)). }
  clearbody s1. pose proof (nd_off _ _ _ N1) as O1. pose proof (off_ok _ _ O1) as B1.
  assert (G1 : sched_task_group (tasks s1 p) = 0) by (apply (li_group _ _ (bo_lists _ _ B1)), O1).
  assert (C2 : cfs_ok univ (__set_task_cpu p c s1)).
  { apply set_task_cpu_ok; [apply B1|apply O1|apply O1|done|by apply not_running]. }
  assert (S2 : still_usage s1 (__set_task_cpu p c s1)).
  { split; try done.
    - intros x. unfold __set_task_cpu. destruct (decide (p = x)) as [->|]; by store_rw.
    - intros i. unfold __set_task_cpu, set_task_rq. destruct (decide (TaskSe p = i)) as [<-|]; by store_rw. }
  destruct (bal_ok_still univ s1 _ S2 ltac:(by left) C2 (rehomed_lists p c s1 O1) B1) as [B2 T2].
  split; [|unfold __set_task_cpu; store_rw; by rewrite <- E1].
  apply (nudged_trans _ _ s1); [done|]. split; [| |unfold __set_task_cpu; by store_rw].
  - split; [done|apply O1|..]; unfold __set_task_cpu, set_task_rq, cfs_rq_of; store_rw; cbn; try apply O1.
    by rewrite G1.
  - split; try done; intros x Hx; unfold __set_task_cpu, set_task_rq; by store_rw.
Qed.

(** ** What HMP selection leaves behind *)

(** What accounting reads from the averages of an entity: not the times of migrations. *)
Definition se_stamped (a : sched_avg) := (runnable_avg_sum a, runnable_avg_period a, load_avg_contrib a).

Lemma quiet_stamps i f g h k c s :
  (forall a, se_stamped (f a) = se_stamped a) -> (forall a, se_stamped (g a) = se_stamped a) ->
  task_ok s i -> quiet i s (upd_rq_avg c k (upd_rq_avg c h (upd_avg i g (upd_avg i f s)))).
Proof.
  unfold se_stamped. intros Hf Hg Tk. apply (quiet_trans _ _ (upd_avg i g (upd_avg i f s))); [|intros].
  2: { unfold upd_rq_avg. eapply quiet_trans; [|intros; by apply quiet_upd_rq]. by apply quiet_upd_rq. }
  apply (quiet_trans _ _ (upd_avg i f s)); [|intros]; apply quiet_upd_avg; try done;
    intros a; specialize (Hf a); specialize (Hg a); simplify_eq; (split; congruence) || congruence.
Qed.

Lemma nudged_delay p c s :
  off s p -> nudged p s (hmp_next_up_delay (TaskSe p) c s) /\ nudged p s (hmp_next_down_delay (TaskSe p) c s).
Proof.
  intros O. pose proof (proj1 (co_task _ _ (bo_cfs _ _ (off_ok _ _ O)) _ (off_univ _ _ O))) as Tk.
  split; (apply nudged_timed; [|apply (quiet_off_queue univ (TaskSe p) s); [apply O..|]|done]).
  - apply frozen_timed. unfold hmp_next_up_delay. still_chain.
  - by apply quiet_stamps.
  - apply frozen_timed. unfold hmp_next_down_delay. still_chain.
  - by apply quiet_stamps.
Qed.

Lemma nudged_fork p me fork s : off s p -> nudged p s (hmp_fork_balance p me fork s).1.
Proof.
  intros O. pose proof (nudged_refl p s O) as R. unfold hmp_fork_balance. cbv zeta.
  destruct (_ && _ && _); [|done]. destruct (hmp_cpu_is_fastest _ s).
  - destruct (hmp_domain_min_load _ _ _). repeat case_match; done.
  - case_match; [|done]. apply nudged_delay, O.
Qed.
Lemma nudged_wakeup p new s : off s p -> nudged p s (hmp_wakeup_select p new s).1.
Proof.
  intros O. pose proof (nudged_refl p s O) as R. unfold hmp_wakeup_select. cbv zeta.
  destruct (hmp_up_migration _ _ s); [apply nudged_delay, O|]. destruct (hmp_down_migration _ _ s); [|done].
  case_match; [apply nudged_delay, O|done].
Qed.

(** * The CPU that is chosen *)

Lemma select_fair_ok p f wf me me_task s :
  CONFIG_SCHED_HMP_ENHANCEMENT = false -> off s p -> spans_ok s -> 0 <= me < NR_CPUS ->
  sched_task_group (tasks s me_task) = 0 ->
  exists s' c, select_task_rq_fair p f wf me me_task s = Some (s', c) /\ nudged p s s'.
Proof.
  intros He O Hs Hm Hg. pose proof (nudged_refl p s O) as R. unfold select_task_rq_fair.
  case_match; [by eexists _, _|]. case_match; [by eexists _, _|].
  pose proof (nudged_fork p me (has_flag f Enh.SD_BALANCE_FORK) s O) as N1.
  destruct (hmp_fork_balance p me _ s) as [s1 [new|new]]; cbn [fst] in N1; [by eexists _, _|].
  pose proof (nd_off _ _ _ N1) as O1. pose proof (off_ok _ _ O1) as B1.
  assert (G1 : sched_task_group (tasks s1 p) = 0) by (apply (li_group _ _ (bo_lists _ _ B1)), O1).
  assert (G2 : sched_task_group (tasks s1 me_task) = 0).
  { destruct (decide (me_task = p)) as [->|]; [done|]. by rewrite (ot_tasks _ _ _ (nd_others _ _ _ N1)). }
  destruct (select_cfs_some s1 p f me me_task new (has_flag wf WF_SYNC) B1 (spans_topo _ _ (ot_topo _ _ _ (nd_others _ _ _ N1)) Hs)
              Hm G1 G2) as [c ->]. cbn [mbind option_bind]. rewrite He.
  pose proof (nudged_wakeup p c s1 O1) as N2. destruct (hmp_wakeup_select p c s1) as [s2 c2]. cbn [fst] in N2.
  eexists _, _. split; [done|]. by apply (nudged_trans _ _ s1).
Qed.

(** Some CPU that may run tasks is in [possible]. *)
Definition fallback_cpu s (possible : cpumask) : Prop :=
  exists c, 0 <= c < NR_CPUS /\ cpumask_test_cpu c (cpu_online_mask s) = true
    /\ cpumask_test_cpu c (cpu_active_mask (bal s)) = true /\ cpumask_test_cpu c possible = true.

Definition good_cpu s p (c : Z) : Prop :=
  cpumask_test_cpu c (cpus_allowed (tasks s p)) = true /\ cpumask_test_cpu c (cpu_online_mask s) = true.

Lemma usable_good s p c : usable s p c = true -> good_cpu s p c.
Proof. unfold usable, good_cpu, tsk_cpus_allowed. rewrite !andb_true_iff. tauto. Qed.

Lemma select_fallback_ok p cpuset possible s :
  off s p -> fallback_cpu s possible ->
  exists s' c, select_fallback_rq p cpuset possible s = Some (s', c) /\ nudged p s s' /\ good_cpu s' p c.
Proof.
  intros O (c0 & Hc0 & H1 & H2 & H3). unfold select_fallback_rq. cbv zeta.
  assert (Nt : forall m s, off s p -> nudged p s (do_set_cpus_allowed p m s)) 
    by (intros; destruct (off_task p (fun t => t <| cpus_allowed := m |> <| nr_cpus_allowed := cpumask_weight m |>) s0);
        [done|done|split; [done|done|unfold do_set_cpus_allowed; by store_rw]]).
  destruct (List.find (usable s p) cpu_ids) as [c|] eqn:E1.
  { apply List.find_some in E1 as [_ E1%usable_good]. exists s, c. auto using nudged_refl. }
  pose proof (Nt cpuset s O) as N1. set (s1 := do_set_cpus_allowed p cpuset s) in *.
  destruct (List.find (usable s1 p) cpu_ids) as [c|] eqn:E2.
  { apply List.find_some in E2 as [_ E2%usable_good]. eauto. }
  pose proof (Nt possible s1 (nd_off _ _ _ N1)) as N2.
  set (s2 := do_set_cpus_allowed p possible s1) in *.
  destruct (List.find (usable s2 p) cpu_ids) as [c|] eqn:E3.
  { apply List.find_some in E3 as [_ E3%usable_good]. exists s2, c. split; [done|]. split; [|done].
    by apply (nudged_trans _ _ s1). }
  exfalso. pose proof (List.find_none _ _ E3 c0 ltac:(by apply list_elem_of_In, elem_of_cpu_ids)) as Hn.
  unfold usable, tsk_cpus_allowed in Hn. change (cpu_online_mask s2) with (cpu_online_mask s) in Hn.
  change (cpu_active_mask (bal s2)) with (cpu_active_mask (bal s)) in Hn. rewrite H1, H2 in Hn.
  revert Hn. unfold s2, do_set_cpus_allowed. store_rw. cbn. by rewrite H3.
Qed.

Lemma select_task_rq_ok p f wf me me_task cpuset possible s :
  CONFIG_SCHED_HMP_ENHANCEMENT = false -> off s p -> spans_ok s -> 0 <= me < NR_CPUS ->
  sched_task_group (tasks s me_task) = 0 -> fallback_cpu s possible ->
  exists s' c, select_task_rq p f wf me me_task cpuset possible s = Some (s', c) /\ nudged p s s' /\ good_cpu s' p c.
Proof.
  intros He O Hs Hm Hg Hf. unfold select_task_rq.
  destruct (select_fair_ok p f wf me me_task s He O Hs Hm Hg) as (s1 & c & -> & N1). cbn [mbind option_bind].
  destruct (_ || _) eqn:E.
  - destruct Hf as (c0 & Hf). pose proof (ot_masks _ _ _ (nd_others _ _ _ N1)) as M. injection M as M1 M2.
    destruct (select_fallback_ok p cpuset possible s1 (nd_off _ _ _ N1)) as (s2 & c2 & E2 & N2 & G2).
    { exists c0. by rewrite M1, M2. }
    exists s2, c2. split; [done|]. split; [|done]. by apply (nudged_trans _ _ s1).
  - apply orb_false_iff in E as [E1%negb_false_iff E2%negb_false_iff]. by exists s1, c.
Qed.

(** * Queueing it *)

Lemma activate_ok c p flags s :
  off s p -> task_cpu (tasks s p) = c ->
  let s' := activate_task c p flags s in
  bal_ok s' /\ others p s s' /\ tasks s' p = tasks s p /\ queued s' (CfsRq 0 c) (TaskSe p).
Proof.
  intros O Hc. unfold activate_task. cbv zeta.
  assert (N1 : nudged p s (update_rq_clock c s)).
  { apply nudged_loadeq; [apply rq_clock_timed|apply update_rq_clock_eq|done]. }
  assert (E1 : tasks (update_rq_clock c s) p = tasks s p) by apply still_rq_clock.
  set (s1 := update_rq_clock c s) in *. clearbody s1.
  destruct (nd_off _ _ _ N1) as [B1 Hu Ho Hcp Hh]. rewrite E1, Hc in *.
  destruct (wake_balanced univ univ_nodup univ_small (fun _ _ => True) c p c flags s1) as [B2 T2 _];
    [done|done|done|by rewrite E1|done|].
  destruct (enqueue_task_ok univ univ_nodup univ_small c p flags s1 (bo_cfs _ _ B1) Hu Ho) as [_ Q].
  destruct (co_task _ _ (bo_cfs _ _ B1) _ Hu) as [[T _ _ _] Hp].
  pose proof (enqueue_task_placed c p flags s1 ltac:(unfold entity_is_task in T; by case_match) Hp Ho
                (bo_root _ _ B1 _)) as P.
  pose proof (pl_still _ _ _ _ _ P) as S2. split_and!; [done| | |by rewrite Hh in Q].
  - etransitivity; [apply N1|]. apply (others_still _ _ _ p _ _ S2).
    + intros d. exact (f_equal (fun v => v.1.2) (st_rq _ _ _ _ _ _ S2 d)).
    + intros d. exact (f_equal (fun v => v.2.1.2) (st_rq _ _ _ _ _ _ S2 d)).
    + intros x Hx. apply (pl_other _ _ _ _ _ P). congruence.
  - rewrite (st_task _ _ _ _ _ _ S2). apply E1.
Qed.

Lemma ttwu_do_wakeup_ok c p flags s :
  bal_ok s ->
  let s' := ttwu_do_wakeup c p flags s in
  bal_ok s' /\ others p s s' /\ tasks s' p = tasks s p <| task_state := 0 |>
  /\ place_view (ses s' (TaskSe p)) = place_view (ses s (TaskSe p)).
Proof.
  intros B. unfold ttwu_do_wakeup. cbv zeta.
  pose proof (still_check_preempt c p flags s) as F. pose proof (check_preempt_curr_eq c p flags s) as L.
  set (s1 := check_preempt_curr c p flags s) in *. clearbody s1.
  assert (B1 : bal_ok s1) by (apply (bal_ok_calm univ s); [by apply calm_frozen|done]).
  pose proof (others_resting p _ _ (frozen_resting _ _ F)) as O1.
  set (s2 := upd_task p _ s1). assert (B2 : bal_ok s2) by (by apply bal_ok_task).
  assert (O2 : others p s1 s2) by (split; try done; intros x Hx; unfold s2; by store_rw).
  assert (E2 : tasks s2 p = tasks s p <| task_state := 0 |>).
  { unfold s2. store_rw. by rewrite (st_task _ _ _ _ _ _ F p). }
  assert (P2 : place_view (ses s2 (TaskSe p)) = place_view (ses s (TaskSe p))) by apply F.
  clearbody s2. case_match; [|by split_and!; [|rewrite O1|..]].
  set (s3 := upd_rq_lb c _ s2). assert (C3 : calm s2 s3) by (by apply calm_upd_lb).
  split_and!; [by apply (bal_ok_calm univ s2)| |done|done]. rewrite O1, O2. split; try done; [apply C3|].
  intros d. unfold s3. destruct (decide (c = d)) as [->|]; by store_rw.
Qed.

(** * Tasks on wake lists *)

(** [p] is to be queued on [c] by an IPI. *)
Record ready s c p : Prop := {
  rd_univ : TaskSe p ∈ univ;
  rd_rq : on_rq (ses s (TaskSe p)) = 0;
  rd_home : cfs_rq_of s (TaskSe p) = CfsRq 0 c;
  rd_cpu : task_cpu (tasks s p) = c;
  rd_off : on_cpu (tasks s p) = 0;
  rd_state : task_state (tasks s p) = TASK_WAKING;
}.
Lemma ready_off s c p : bal_ok s -> ready s c p -> off s p.
Proof. intros B [H1 H2 H3 H4 H5 H6]. split; try done. by rewrite H3, H4. Qed.
Lemma off_ready s p : off s p -> task_state (tasks s p) = TASK_WAKING -> ready s (task_cpu (tasks s p)) p.
Proof. intros [B H1 H2 H3 H4]. by split. Qed.

Lemma ready_others s s' c p x : others p s s' -> x <> p -> ready s c x -> ready s' c x.
Proof.
  intros O Hx [H1 H2 H3 H4 H5 H6]. destruct (place_view_inv _ _ (ot_place _ _ _ O x Hx)) as (_ & E1 & E2 & _).
  unfold cfs_rq_of in *. split; unfold cfs_rq_of; rewrite ?E1, ?E2, ?(ot_tasks _ _ _ O x Hx); done.
Qed.

Record waiting s : Prop := {
  wa_ready : forall c p, p ∈ wake_list (rq_lb (rqs s c)) -> ready s c p;
  wa_once : forall c, NoDup (wake_list (rq_lb (rqs s c)));
}.
Lemma waiting_others p s s' :
  others p s s' -> (forall c, p ∉ wake_list (rq_lb (rqs s c))) -> waiting s -> waiting s'.
Proof.
  intros O Hp [W1 W2]. split.
  - intros c x. rewrite (ot_wake _ _ _ O). intros Hx. apply (ready_others s s' c p x O); [|by apply W1].
    intros ->. by apply (Hp c).
  - intros c. rewrite (ot_wake _ _ _ O). apply W2.
Qed.

(** ** Waking *)

Lemma ttwu_activate_ok c p flags s :
  off s p -> task_cpu (tasks s p) = c ->
  let s' := ttwu_do_activate c p flags s in
  bal_ok s' /\ others p s s' /\ tasks s' p = tasks s p <| task_state := 0 |> /\ queued s' (CfsRq 0 c) (TaskSe p).
Proof.
  intros O Hc. unfold ttwu_do_activate. cbv zeta.
  destruct (activate_ok c p (Z.lor ENQUEUE_WAKEUP ENQUEUE_WAKING) s O Hc) as (B1 & O1 & E1 & Q1).
  set (s1 := activate_task c p _ s) in *. clearbody s1.
  destruct (ttwu_do_wakeup_ok c p flags s1 B1) as (B2 & O2 & E2 & P2). rewrite E2, E1.
  split_and!; [done|by rewrite O1|done|]. destruct (place_view_inv _ _ P2) as (_ & F1 & F2 & _).
  unfold queued, cfs_rq_of in *. by rewrite F1, F2.
Qed.

(** What becomes of [p], which was off its run queue. *)
Record awake p s s' : Prop := {
  aw_ok : bal_ok s';
  aw_topo : same_topo s s';
  aw_tasks : forall x, x <> p -> tasks s' x = tasks s x;
  aw_cpu : good_cpu s' p (task_cpu (tasks s' p));
  aw_waiting : waiting s';
  aw_queued : let c := task_cpu (tasks s' p) in
    (queued s' (CfsRq 0 c) (TaskSe p) /\ task_state (tasks s' p) = 0)
    \/ (p ∈ wake_list (rq_lb (rqs s' c))
        /\ resched_ipis s' = match wake_list (rq_lb (rqs s c)) with [] => c :: resched_ipis s | _ => resched_ipis s end);
}.

(** It is put on the list of the CPU. *)
Lemma wake_listed c p ipis s0 s :
  off s p -> others p s0 s -> task_cpu (tasks s p) = c -> good_cpu s p c -> task_state (tasks s p) = TASK_WAKING ->
  waiting s -> (forall d, p ∉ wake_list (rq_lb (rqs s d))) ->
  ipis = match wake_list (rq_lb (rqs s0 c)) with [] => c :: resched_ipis s0 | _ => resched_ipis s0 end ->
  awake p s0 (upd_rq_lb c (fun b => b <| wake_list := p :: wake_list b |>) s <| resched_ipis := ipis |>).
Proof.
  intros O Ot Hc [G1 G2] Ht W Hn Hi. set (s1 := upd_rq_lb c _ s). set (s2 := s1 <| resched_ipis := ipis |>).
  assert (C2 : calm s s2) by (transitivity s1; [by apply calm_upd_lb|apply calm_ipis]).
  assert (Wl : forall d, wake_list (rq_lb (rqs s2 d))
    = if decide (c = d) then p :: wake_list (rq_lb (rqs s c)) else wake_list (rq_lb (rqs s d))).
  { intros d. unfold s2, s1. cbn. case_decide; subst; by store_rw. }
  assert (E2 : tasks s2 = tasks s /\ ses s2 = ses s /\ cpu_online_mask s2 = cpu_online_mask s
               /\ resched_ipis s2 = ipis) by done.
  clearbody s2. clear s1. destruct E2 as (E2 & F2 & M2 & I2). split.
  - apply (bal_ok_calm univ s); [done|apply O].
  - rewrite (ot_topo _ _ _ Ot). apply C2.
  - rewrite E2. apply Ot.
  - unfold good_cpu. by rewrite E2, M2, Hc.
  - split; intros d.
    + intros x. rewrite Wl. intros Hx. assert (R : ready s d x).
      { revert Hx. case_decide; [subst d|apply W].
        intros [->|Hx]%elem_of_cons; [rewrite <- Hc; by apply off_ready|by apply W]. }
      destruct R. split; unfold cfs_rq_of in *; by rewrite ?E2, ?F2.
    + rewrite Wl. case_decide; [|apply W]. apply NoDup_cons. split; [apply Hn|apply W].
  - right. rewrite E2, Hc, Wl, decide_True, I2 by done. split; [apply list_elem_of_here|done].
Qed.

(** It is queued at once. *)
Lemma wake_queued c p s0 s :
  off s p -> others p s0 s -> task_cpu (tasks s p) = c -> good_cpu s p c ->
  waiting s0 -> (forall d, p ∉ wake_list (rq_lb (rqs s0 d))) -> awake p s0 (ttwu_do_activate c p 0 s).
Proof.
  intros O Ot Hc [G1 G2] W Hn.
  destruct (ttwu_activate_ok c p 0 s O Hc) as (B1 & O1 & E1 & Q1). set (s1 := ttwu_do_activate c p 0 s) in *.
  clearbody s1. assert (O2 : others p s0 s1) by (by rewrite Ot). split; try apply O2; [done| | |].
  - rewrite E1. cbn. rewrite Hc. split; [by rewrite E1|].
    by rewrite (f_equal fst (ot_masks _ _ _ O1) : cpu_online_mask s1 = cpu_online_mask s).
  - by apply (waiting_others p s0).
  - left. rewrite E1. cbn. by rewrite Hc.
Qed.

Lemma ttwu_queue_ok feat c p me s0 s :
  off s p -> others p s0 s -> task_cpu (tasks s p) = c -> good_cpu s p c -> task_state (tasks s p) = TASK_WAKING ->
  waiting s0 -> (forall d, p ∉ wake_list (rq_lb (rqs s0 d))) -> awake p s0 (ttwu_queue feat c p me s).
Proof.
  intros O Ot Hc G Ht W Hn. pose proof (waiting_others p s0 s Ot Hn W) as W1.
  assert (Hn' : forall d, p ∉ wake_list (rq_lb (rqs s d))) by (intros d; rewrite (ot_wake _ _ _ Ot); apply Hn).
  unfold ttwu_queue. destruct (feat && _); [|by apply wake_queued]. cbv zeta. rewrite (ot_wake _ _ _ Ot).
  destruct (wake_list (rq_lb (rqs s0 c))) eqn:Ew.
  - apply (wake_listed c p (c :: resched_ipis s) s0 s); try done. by rewrite Ew, (ot_ipis _ _ _ Ot).
  - apply (wake_listed c p (resched_ipis s) s0 s); try done. by rewrite Ew, (ot_ipis _ _ _ Ot).
Qed.

(** The CPU is chosen and the task given to it. *)
Lemma place_task_ok p wf me me_task cpuset possible s0 s :
  CONFIG_SCHED_HMP_ENHANCEMENT = false -> off s p -> others p s0 s -> spans_ok s0 -> 0 <= me < NR_CPUS ->
  sched_task_group (tasks s0 me_task) = 0 -> fallback_cpu s0 possible ->
  exists s1 c, select_task_rq p SD_BALANCE_WAKE wf me me_task cpuset possible s = Some (s1, c) /\
    let s' := if task_cpu (tasks s1 p) =? c then s1 else set_task_cpu p c s1 in
    nudged p s s' /\ task_cpu (tasks s' p) = c /\ good_cpu s' p c.
Proof.
  intros He O Ot Hs Hm Hg (c0 & Hf). pose proof (ot_masks _ _ _ Ot) as M. injection M as M1 M2.
  destruct (select_task_rq_ok p SD_BALANCE_WAKE wf me me_task cpuset possible s He O
    (spans_topo _ _ (ot_topo _ _ _ Ot) Hs) Hm) as (s1 & c & -> & N1 & G1 & G2).
  { destruct (decide (me_task = p)) as [->|]; [|by rewrite (ot_tasks _ _ _ Ot)].
    apply (li_group _ _ (bo_lists _ _ (off_ok _ _ O))), O. }
  { exists c0. by rewrite M1, M2. }
  exists s1, c. split; [done|]. cbv zeta. destruct (Z.eqb_spec (task_cpu (tasks s1 p)) c) as [Ec|]; [done|].
  destruct (nudged_set_cpu p c s1 (nd_off _ _ _ N1)) as [N2 E2]. split; [by apply (nudged_trans _ _ s1)|].
  unfold good_cpu. rewrite E2. split; [done|]. split; [done|].
  by rewrite (f_equal fst (ot_masks _ _ _ (nd_others _ _ _ N2)) : cpu_online_mask _ = cpu_online_mask s1).
Qed.

Lemma try_to_wake_up_ok feat p state wf me me_task cpuset possible s :
  CONFIG_SCHED_HMP_ENHANCEMENT = false -> off s p -> waiting s -> spans_ok s ->
  Z.land TASK_WAKING state = 0 -> 0 <= me < NR_CPUS -> sched_task_group (tasks s me_task) = 0 ->
  fallback_cpu s possible ->
  exists s' woken, try_to_wake_up feat p state wf me me_task cpuset possible s = Some (s', woken) /\
    if decide (Z.land (task_state (tasks s p)) state = 0) then s' = s /\ woken = false
    else woken = true /\ awake p s s'.
Proof.
  intros He O W Hs Hst Hm Hg Hf. unfold try_to_wake_up. case_decide as Ed.
  { rewrite Ed. cbn. by eexists _, _. }
  rewrite (proj2 (Z.eqb_neq _ _) Ed), (off_rq _ _ O). cbn [nonzero negb Z.eqb]. cbv zeta.
  assert (Hn : forall d, p ∉ wake_list (rq_lb (rqs s d))).
  { intros d Hp. apply Ed. by rewrite (rd_state _ _ _ (wa_ready _ W d p Hp)). }
  set (f := fun t => t <| task_state := TASK_WAKING |>). destruct (off_task p f s) as [O1 Ot1]; [done|done|].
  assert (T1 : task_state (tasks (upd_task p f s) p) = TASK_WAKING) by (by store_rw).
  set (s1 := upd_task p f s) in *. clearbody s1.
  assert (N2 : nudged p s1 (task_waking_fair p s1)).
  { apply nudged_loadeq; [apply frozen_timed| |done].
    - unfold task_waking_fair. auto with still.
    - by apply loadeq_upd_se. }
  set (s2 := task_waking_fair p s1) in *. clearbody s2. destruct N2 as [O2 Ot2 T2].
  assert (Ot3 : others p s s2) by (by rewrite Ot1). clear Ot1 Ot2.
  destruct (place_task_ok p wf me me_task cpuset possible s s2) as (s3 & c & -> & [O5 Ot5 T5] & C5 & G5); try done.
  eexists _, true. split; [done|]. split; [done|].
  apply ttwu_queue_ok; try done; [by rewrite Ot3|congruence].
Qed.

(** C7. Waking a task, without the HMP enhancement, by a task of the root group.  If the task
    is in one of the states asked for, [try_to_wake_up] ends with the task on an online CPU that
    its affinity allows: queued there and runnable, or on that CPU's wake list; never on two
    lists, or twice on one.  When it is put on the wake list and that was empty, one IPI is sent
    to the CPU, and else none, the one for the earlier entries being on its way.  The search for
    the CPU ends and does not divide by zero; the accounts and lists of all run queues stay
    right and no other task is touched.  If the task is in another state, nothing changes. *)
Theorem wake_up_safe feat p state wf me me_task cpuset possible s :
  CONFIG_SCHED_HMP_ENHANCEMENT = false -> off s p -> waiting s -> spans_ok s ->
  Z.land TASK_WAKING state = 0 -> 0 <= me < NR_CPUS -> sched_task_group (tasks s me_task) = 0 ->
  fallback_cpu s possible ->
  exists s' woken, try_to_wake_up feat p state wf me me_task cpuset possible s = Some (s', woken) /\
    if decide (Z.land (task_state (tasks s p)) state = 0) then s' = s /\ woken = false
    else woken = true /\ awake p s s'.
Proof. by apply try_to_wake_up_ok. Qed.

(** ** The IPI *)

Definition runnable s c p : Prop := queued s (CfsRq 0 c) (TaskSe p) /\ task_state (tasks s p) = 0.

Lemma runnable_others s s' c p x : others p s s' -> x <> p -> runnable s c x -> runnable s' c x.
Proof.
  intros O Hx [[H1 H2] H3]. destruct (place_view_inv _ _ (ot_place _ _ _ O x Hx)) as (_ & E1 & E2 & _).
  unfold runnable, queued, cfs_rq_of in *. by rewrite E1, E2, (ot_tasks _ _ _ O x Hx).
Qed.

Lemma activate_all_ok c l s :
  bal_ok s -> NoDup l -> (forall p, p ∈ l -> ready s c p) ->
  let s' := foldl (fun s p => ttwu_do_activate c p 0 s) s l in
  bal_ok s' /\ (forall p, p ∈ l -> runnable s' c p) /\
  (forall x d, x ∉ l -> (ready s d x -> ready s' d x) /\ (runnable s d x -> runnable s' d x)) /\
  (forall d, wake_list (rq_lb (rqs s' d)) = wake_list (rq_lb (rqs s d))).
Proof.
  intros B Nd. revert s B. induction Nd as [|p l Hp Nd IH]; intros s B Hr; cbn [foldl].
  { split_and!; [done| |done|done]. intros p Hp. by apply elem_of_nil in Hp. }
  assert (R : ready s c p) by (apply Hr, list_elem_of_here).
  destruct (ttwu_activate_ok c p 0 s (ready_off s c p B R) (rd_cpu _ _ _ R)) as (B1 & O1 & E1 & Q1).
  set (s1 := ttwu_do_activate c p 0 s) in *. clearbody s1.
  destruct (IH s1 B1) as (B2 & R2 & F2 & W2).
  { intros x Hx. apply (ready_others s s1 c p x O1); [by intros ->|]. apply Hr. by apply list_elem_of_further. }
  split_and!; [done| | |intros d; rewrite W2; apply O1].
  - intros x [->|Hx]%elem_of_cons; [|by apply R2]. apply (F2 p c); [done|]. split; [done|]. by rewrite E1.
  - intros x d [Hx Hl]%not_elem_of_cons. destruct (F2 x d Hl) as [F3 F4]. split; intros G.
    + apply F3. by apply (ready_others s s1 d p x O1).
    + apply F4. by apply (runnable_others s s1 d p x O1).
Qed.

(** The tasks of [l] are runnable on [c], and no more tasks are to be woken there. *)
Record delivered c (l : list Z) s : Prop := {
  dl_ok : bal_ok s;
  dl_waiting : waiting s;
  dl_empty : wake_list (rq_lb (rqs s c)) = [];
  dl_runnable : forall p, p ∈ l -> runnable s c p;
}.
Lemma delivered_calm c l s s' :
  calm s s' -> ses s' = ses s -> (forall d, wake_list (rq_lb (rqs s' d)) = wake_list (rq_lb (rqs s d))) ->
  delivered c l s -> delivered c l s'.
Proof.
  intros C E2 E3 [B [W1 W2] Em R]. pose proof (cm_tasks _ _ C) as E1. split.
  - by apply (bal_ok_calm univ s).
  - split; intros d; rewrite E3; [|apply W2]. intros x Hx%W1. destruct Hx.
    split; unfold cfs_rq_of in *; by rewrite ?E1, ?E2.
  - by rewrite E3.
  - intros x Hx%R. unfold runnable, queued, cfs_rq_of in *. by rewrite E1, E2.
Qed.

Lemma pending_ok c s :
  bal_ok s -> waiting s -> delivered c (wake_list (rq_lb (rqs s c))) (sched_ttwu_pending c s).
Proof.
  intros B [W1 W2]. unfold sched_ttwu_pending. cbv zeta. set (s1 := upd_rq_lb c _ s).
  assert (C1 : calm s s1) by (by apply calm_upd_lb).
  assert (R1 : forall d x, ready s d x -> ready s1 d x) by (intros d x []; by split).
  assert (L1 : forall d, wake_list (rq_lb (rqs s1 d)) = if decide (c = d) then [] else wake_list (rq_lb (rqs s d))).
  { intros d. unfold s1. case_decide; subst; by store_rw. }
  clearbody s1. pose proof (bal_ok_calm univ _ _ C1 B) as B1.
  destruct (activate_all_ok c (wake_list (rq_lb (rqs s c))) s1 B1 (W2 c)) as (B2 & R2 & F2 & L2); [auto|].
  set (s2 := foldl _ _ _) in *. clearbody s2. split; [done| | |done].
  - split; intros d; rewrite L2, L1; case_decide.
    + intros x Hx. by apply elem_of_nil in Hx.
    + intros x Hx. pose proof (W1 d x Hx) as Rx. apply F2; [|auto].
      intros Hc. pose proof (rd_cpu _ _ _ Rx). pose proof (rd_cpu _ _ _ (W1 c x Hc)). congruence.
    + constructor.
    + apply W2.
  - rewrite L2, L1. by rewrite decide_True.
Qed.

Lemma kick_delivered c d l s : delivered c l s -> delivered c l (got_nohz_idle_kick d s).1.
Proof.
  intros D. unfold got_nohz_idle_kick. case_match; [done|]. case_match; [done|]. cbn [fst].
  apply (delivered_calm c l s); [by apply calm_upd_lb|done| |done].
  intros e. destruct (decide (d = e)) as [->|]; by store_rw.
Qed.
Lemma raise_delivered c d l s :
  delivered c l s ->
  delivered c l (let '(s, kick) := got_nohz_idle_kick d s in
                 if kick : bool then raise_sched_softirq d (upd_rq d (fun r => r <| idle_balance := 1 |>) s) else s).
Proof.
  intros D. pose proof (kick_delivered c d l s D) as D1. destruct (got_nohz_idle_kick d s) as [s1 [|]]; [|done].
  cbn [fst] in D1. apply (delivered_calm c l s1); [|done| |done].
  - etransitivity; [|by apply calm_upd_lb]. apply calm_upd_rq; auto.
  - intros e. unfold raise_sched_softirq. destruct (decide (d = e)) as [->|]; by store_rw.
Qed.

(** C22. No wake-up is lost.  The reschedule IPI empties the wake list of its CPU: every task on
    it is then queued on that CPU and runnable, the accounts and lists of the run queues are
    right, and the wake lists of other CPUs are as before. *)
Theorem ipi_delivers c s :
  bal_ok s -> waiting s ->
  let s' := scheduler_ipi c s in
  bal_ok s' /\ waiting s' /\ wake_list (rq_lb (rqs s' c)) = [] /\
  (forall p, p ∈ wake_list (rq_lb (rqs s c)) -> queued s' (CfsRq 0 c) (TaskSe p) /\ task_state (tasks s' p) = 0).
Proof.
  intros B W. cut (delivered c (wake_list (rq_lb (rqs s c))) (scheduler_ipi c s)); [by intros []|].
  unfold scheduler_ipi. destruct (wake_list (rq_lb (rqs s c))) as [|p l] eqn:E.
  - assert (D : delivered c [] s) by (split; [done..|]; intros p Hp; by apply elem_of_nil in Hp).
    pose proof (kick_delivered c c [] s D) as D1. destruct (got_nohz_idle_kick c s) as [s1 [|]]; cbn [fst negb] in *; [|done].
    destruct D1 as [B1 W1 E1 _]. apply raise_delivered. rewrite <- E1. by apply pending_ok.
  - cbn [negb]. apply raise_delivered. rewrite <- E. by apply pending_ok.
Qed.
End wake.

(** * Witnesses *)

#[local] Instance : Config := big_LITTLE_MP.

(** Task 12, last on LITTLE CPU 4, sleeps; big CPU 0, with other caches, wakes it. *)
Definition asleep_sys : sys :=
  upd_rq_lb 0 (fun b => b <| sd_llc_id := 4 |>) (upd_task 12 (fun t => t <| task_state := 1 |>) flat_sys).

Lemma asleep_off : off crowd asleep_sys 12.
Proof.
  split; [|apply list_elem_of_further, list_elem_of_here|reflexivity..].
  apply (bal_ok_calm crowd (upd_task 12 (fun t => t <| task_state := 1 |>) flat_sys)); [by apply calm_upd_lb|].
  apply bal_ok_task; [done|apply flat_bal_ok].
Qed.
Lemma asleep_waiting : waiting crowd asleep_sys.
Proof.
  assert (E : forall c, wake_list (rq_lb (rqs asleep_sys c)) = []).
  { intros c. unfold asleep_sys. destruct (decide (0 = c)) as [<-|]; by store_rw. }
  split; intros c; rewrite E; [|constructor]. intros p Hp. by apply elem_of_nil in Hp.
Qed.
Lemma asleep_spans : spans_ok asleep_sys.
Proof.
  intros c l d Hc Hd. assert (X : ((0 <=? span_weight d) && match rq_sd (rqs asleep_sys c) !! S l with
    | Some d' => span_weight d <=? span_weight d' | None => true end) = true).
  { apply (levels_check_ok asleep_sys (fun c l d => (0 <=? span_weight d)
      && match rq_sd (rqs asleep_sys c) !! S l with Some d' => span_weight d <=? span_weight d' | None => true end) c l d);
      [vm_compute; reflexivity|done|done]. }
  apply andb_true_iff in X as [X1%Z.leb_le X2]. split; [done|]. intros d' Hd'. rewrite Hd' in X2. by apply Z.leb_le.
Qed.
Lemma asleep_fallback : fallback_cpu asleep_sys 255.
Proof. exists 0. vm_compute. intuition discriminate. Qed.

Definition woken_sys : sys :=
  match try_to_wake_up true 12 3 0 0 4 255 255 asleep_sys with Some (s, _) => s | None => asleep_sys end.

(** The task stays with CPU 4, on whose wake list it is put; an IPI is sent. *)
Lemma wake_up_safe_witness :
  awake crowd 12 asleep_sys woken_sys
  /\ (wake_list (rq_lb (rqs woken_sys 4)), resched_ipis woken_sys) = ([12], [4]).
Proof.
  split; [|vm_compute; reflexivity].
  destruct (wake_up_safe crowd crowd_nodup crowd_small true 12 3 0 0 4 255 255 asleep_sys)
    as (s' & woken & E & A); [reflexivity|exact asleep_off|exact asleep_waiting|exact asleep_spans|reflexivity
                             |vm_compute; split; congruence|reflexivity|exact asleep_fallback|].
  unfold woken_sys. rewrite E. rewrite decide_False in A by (vm_compute; discriminate). exact (proj2 A).
Defined.

Lemma woken_ok : bal_ok crowd woken_sys /\ waiting crowd woken_sys.
Proof.
  destruct (try_to_wake_up_ok crowd crowd_nodup crowd_small true 12 3 0 0 4 255 255 asleep_sys)
    as (s' & woken & E & A); [reflexivity|exact asleep_off|exact asleep_waiting|exact asleep_spans|reflexivity
                             |vm_compute; split; congruence|reflexivity|exact asleep_fallback|].
  unfold woken_sys. rewrite E. rewrite decide_False in A by (vm_compute; discriminate).
  destruct A as [_ A]. split; apply A.
Qed.

(** The IPI queues it on CPU 4. *)
Lemma ipi_delivers_witness :
  (wake_list (rq_lb (rqs woken_sys 4)), cfs_tasks (rqs woken_sys 4)) = ([12], [])
  /\ cfs_tasks (rqs (scheduler_ipi 4 woken_sys) 4) = [12]
  /\ bal_ok crowd (scheduler_ipi 4 woken_sys) /\ waiting crowd (scheduler_ipi 4 woken_sys).
Proof.
  split; [vm_compute; reflexivity|]. split; [vm_compute; reflexivity|].
  destruct woken_ok as [B W].
  destruct (ipi_delivers crowd crowd_nodup crowd_small 4 woken_sys B W) as (B' & W' & _). exact (conj B' W').
Defined.
