(* ===== verification/Nohz.v ===== *)
(** CPUs without a tick ([kernel/sched/fair.c]): the count of idle CPUs with their tick stopped
    agrees with the mask and the flags of the run queues, and the CPU that is kicked to balance
    for them is an idle one of the cluster of the CPU that kicks. *)

From S2P Require Import Prelude Spinlock Pelt SchedTypes EntityLoad HmpDomain HmpSelect Cfs CpuLoad.
From S2P Require Import HmpMigration HmpEnh LoadStats LoadBalance Rebalance BalanceSafe.

Section nohz.
Context `{Config}.
Implicit Types (s : sys) (c cpu : Z).

(** * The count *)

Lemma weight_set c m :
  0 <= c < NR_CPUS -> cpumask_test_cpu c m = false -> cpumask_weight (cpumask_set_cpu c m) = cpumask_weight m + 1.
Proof.
  intros Hc Hm. unfold cpumask_weight.
  assert (P : cpus_of (cpumask_set_cpu c m) ≡ₚ c :: cpus_of m).
  { apply NoDup_Permutation; [apply NoDup_cpus_of|constructor; [|apply NoDup_cpus_of]|].
    - rewrite elem_of_cpus_of, Hm. naive_solver.
    - intros x. rewrite elem_of_cons, !elem_of_cpus_of. destruct (decide (c = x)) as [<-|Hx].
      + rewrite test_set_eq by lia. naive_solver.
      + rewrite test_set_ne by lia. naive_solver. }
  rewrite P. cbn [length]. lia.
Qed.
Lemma weight_clear c m :
  0 <= c < NR_CPUS -> cpumask_test_cpu c m = true -> cpumask_weight (cpumask_clear_cpu c m) = cpumask_weight m - 1.
Proof.
  intros Hc Hm. pose proof (weight_set c (cpumask_clear_cpu c m) Hc (test_clear_eq c m)) as E.
  assert (Em : cpumask_set_cpu c (cpumask_clear_cpu c m) = m); [|rewrite Em in E; lia].
  apply Z.bits_inj'. intros n Hn. unfold cpumask_set_cpu, cpumask_clear_cpu, cpumask_test_cpu in *.
  rewrite Z.setbit_eqb, Z.clearbit_eqb by lia. destruct (Z.eqb_spec c n) as [<-|]; [by rewrite Hm|]. cbn.
  by rewrite andb_true_r.
Qed.
Lemma weight_bound m : 0 <= cpumask_weight m <= NR_CPUS.
Proof.
  split; [apply weight_nonneg|]. unfold cpumask_weight.
  assert (L : (length (cpus_of m) <= length cpu_ids)%nat).
  { apply submseteq_length, NoDup_submseteq; [apply NoDup_cpus_of|]. intros c. rewrite elem_of_cpus_of, elem_of_cpu_ids. tauto. }
  unfold cpu_ids in L. rewrite length_fmap, length_seq in L. pose proof NR_CPUS_pos. lia.
Qed.

(** The mask, the flags and the count agree. *)
Record nohz_ok s : Prop := {
  no_flag : forall c, 0 <= c < NR_CPUS ->
    cpumask_test_cpu c (nohz_idle_cpus_mask s) = nohz_tick_stopped (rq_lb (rqs s c));
  no_count : nohz_nr_cpus (bal s) = cpumask_weight (nohz_idle_cpus_mask s);
}.

Definition nohz_view s := (nohz_idle_cpus_mask s, nohz_nr_cpus (bal s)).
Lemma nohz_same s s' :
  nohz_view s' = nohz_view s ->
  (forall c, nohz_tick_stopped (rq_lb (rqs s' c)) = nohz_tick_stopped (rq_lb (rqs s c))) -> nohz_ok s -> nohz_ok s'.
Proof.
  unfold nohz_view. intros E Hf [F C]. injection E as E1 E2. split; [intros c Hc; rewrite Hf, E1; by apply F|congruence].
Qed.

Lemma exit_idle_ok cpu s :
  NR_CPUS < 2 ^ 31 -> 0 <= cpu < NR_CPUS -> nohz_ok s -> nohz_ok (nohz_balance_exit_idle cpu s).
Proof.
  intros Hn Hc [F C]. unfold nohz_balance_exit_idle. cbv zeta. destruct (nohz_tick_stopped _) eqn:E; [|by split].
  pose proof (F cpu Hc) as Fc. rewrite E in Fc. pose proof (weight_clear cpu _ Hc Fc) as W.
  pose proof (weight_bound (cpumask_clear_cpu cpu (nohz_idle_cpus_mask s))) as Wb. split.
  - intros c Hc'. cbn. destruct (decide (cpu = c)) as [<-|]; store_rw; cbn.
    + apply test_clear_eq.
    + rewrite test_clear_ne by done. by apply F.
  - change (s32 (nohz_nr_cpus (bal s) - 1) = cpumask_weight (cpumask_clear_cpu cpu (nohz_idle_cpus_mask s))).
    rewrite C, s32_id by lia. lia.
Qed.

Lemma enter_idle_ok cpu s :
  NR_CPUS < 2 ^ 31 -> 0 <= cpu < NR_CPUS -> nohz_ok s -> nohz_ok (nohz_balance_enter_idle cpu s).
Proof.
  intros Hn Hc [F C]. unfold nohz_balance_enter_idle. cbv zeta. case_match; [by split|].
  destruct (nohz_tick_stopped _) eqn:E; [by split|].
  pose proof (F cpu Hc) as Fc. rewrite E in Fc. pose proof (weight_set cpu _ Hc Fc) as W.
  pose proof (weight_bound (cpumask_set_cpu cpu (nohz_idle_cpus_mask s))) as Wb. split.
  - intros c Hc'. cbn. destruct (decide (cpu = c)) as [<-|]; store_rw; cbn.
    + apply test_set_eq. lia.
    + rewrite test_set_ne by lia. by apply F.
  - change (s32 (nohz_nr_cpus (bal s) + 1) = cpumask_weight (cpumask_set_cpu cpu (nohz_idle_cpus_mask s))).
    rewrite C, s32_id by (pose proof (weight_bound (nohz_idle_cpus_mask s)); lia). lia.
Qed.

(** Counting busy CPUs of groups does not concern it. *)
Lemma count_busy_nohz cpu n s : nohz_ok s -> nohz_ok (count_busy cpu n s).
Proof.
  unfold count_busy. generalize (domains_of s cpu). intros l. revert s. induction l as [|sd l IH]; intros s Hs; cbn [foldl]; [done|].
  apply IH. case_match; [|done]. by apply (nohz_same s).
Qed.
Lemma upd_sd_nohz sd f s : nohz_ok s -> nohz_ok (upd_sd sd f s).
Proof.
  apply nohz_same; [done|]. intros c. unfold upd_sd. destruct (decide (sd.1 = c)) as [<-|]; by store_rw.
Qed.
Lemma sd_busy_nohz cpu s : nohz_ok s -> nohz_ok (set_cpu_sd_state_busy cpu s).
Proof.
  intros Hs. unfold set_cpu_sd_state_busy. case_match; [done|]. case_match; [done|].
  by apply count_busy_nohz, upd_sd_nohz.
Qed.
Lemma sd_idle_nohz cpu s : nohz_ok s -> nohz_ok (set_cpu_sd_state_idle cpu s).
Proof.
  intros Hs. unfold set_cpu_sd_state_idle. case_match; [done|]. case_match; [done|].
  by apply count_busy_nohz, upd_sd_nohz.
Qed.
Lemma kick_nohz cpu s : nohz_ok s -> nohz_ok (nohz_balancer_kick cpu s).
Proof.
  intros Hs. unfold nohz_balancer_kick. cbv zeta. set (s1 := upd_bal _ s).
  assert (H1 : nohz_ok s1) by (by apply (nohz_same s)). clearbody s1. case_match; [done|]. case_match; [done|].
  apply (nohz_same s1); [done| |done]. intros c. cbn. set (ilb := find_new_ilb cpu s1).
  destruct (decide (ilb = c)) as [<-|]; by store_rw.
Qed.

Lemma trigger_nohz cpu s :
  NR_CPUS < 2 ^ 31 -> 0 <= cpu < NR_CPUS -> nohz_ok s -> nohz_ok (trigger_load_balance cpu s).
Proof.
  intros Hn Hc Hs. unfold trigger_load_balance. cbv zeta. set (s1 := if _ && _ then _ else s).
  assert (H1 : nohz_ok s1).
  { unfold s1. case_match; [|done]. apply (nohz_same s); [done| |done]. intros c. unfold raise_sched_softirq.
    destruct (decide (cpu = c)) as [<-|]; by store_rw. }
  clearbody s1. unfold nohz_kick_needed. destruct (idle_cpu s1 cpu); cbn [andb]; [done|].
  assert (H2 : nohz_ok (nohz_balance_exit_idle cpu (set_cpu_sd_state_busy cpu s1)))
    by (by apply exit_idle_ok, sd_busy_nohz).
  destruct (_ && _); [by apply kick_nohz|done].
Qed.

(** A CPU stops its tick, takes an interrupt or a tick, is unplugged, kicks another; or something
    happens that does not concern ticks. *)
Inductive nohz_step s : sys -> Prop :=
| ns_enter cpu : 0 <= cpu < NR_CPUS -> nohz_step s (nohz_balance_enter_idle cpu (set_cpu_sd_state_idle cpu s))
| ns_exit cpu : 0 <= cpu < NR_CPUS -> nohz_step s (nohz_balance_exit_idle cpu (set_cpu_sd_state_busy cpu s))
| ns_tick cpu : 0 <= cpu < NR_CPUS -> nohz_step s (trigger_load_balance cpu s)
| ns_notify cpu dying : 0 <= cpu < NR_CPUS -> nohz_step s (sched_ilb_notifier cpu dying s)
| ns_other s' : nohz_view s' = nohz_view s ->
    (forall c, nohz_tick_stopped (rq_lb (rqs s' c)) = nohz_tick_stopped (rq_lb (rqs s c))) -> nohz_step s s'.

(** C24. The count of CPUs without a tick is exact: whatever CPUs stop and restart their ticks,
    are unplugged or kick each other, and in whatever order, [nohz.nr_cpus] is the number of CPUs
    in [nohz.idle_cpus_mask], and those are the CPUs whose run queues say that the tick is
    stopped. *)
Theorem nohz_count_exact s s' : NR_CPUS < 2 ^ 31 -> nohz_ok s -> rtc nohz_step s s' -> nohz_ok s'.
Proof.
  intros Hn Hs R. induction R as [s|s s1 s' St R IH]; [done|]. apply IH. clear R IH.
  destruct St as [cpu Hc|cpu Hc|cpu Hc|cpu dying Hc|s2 E1 E2].
  - by apply enter_idle_ok, sd_idle_nohz.
  - by apply exit_idle_ok, sd_busy_nohz.
  - by apply trigger_nohz.
  - unfold sched_ilb_notifier. destruct dying; [by apply exit_idle_ok|done].
  - by apply (nohz_same s).
Qed.

(** * The CPU that is kicked *)

(** Why balancing is wanted: a CPU of the cluster has more than one task; or, when LITTLE CPUs
    are packed, an idle one of them counts as full. *)
Definition ilb_wanted s cpu : Prop :=
  (exists d, d ∈ cpus_of (hmp_cpus s cpu) /\ 1 < rq_nr_running (rqs s d))
  \/ (CONFIG_SCHED_HMP_LITTLE_PACKING = true /\ exists d, cpumask_test_cpu d (nohz_idle_cpus_mask s) = true
        /\ hmp_full_threshold (tun s) < load_avg_ratio (rq_avg (rqs s d))).

Lemma packing_needed c cpu b s :
  CONFIG_SCHED_HMP_LITTLE_PACKING = true -> hmp_packing_ilb_needed c b s = true ->
  (b = true -> exists d, d ∈ cpus_of (hmp_cpus s cpu) /\ 1 < rq_nr_running (rqs s d)) -> ilb_wanted s cpu.
Proof.
  intros Hl. unfold hmp_packing_ilb_needed, ilb_wanted. case_match; [auto|]. case_match; [auto|].
  intros (d & Hd & Hlt)%existsb_exists _. right. split; [done|]. exists d.
  apply list_elem_of_In, elem_of_cpus_of in Hd as [_ Hd]. unfold cpumask_and, cpumask_test_cpu in *.
  rewrite Z.land_spec, andb_true_iff in Hd. split; [apply Hd|by apply Z.ltb_lt].
Qed.

Lemma first_in_mask m c : cpumask_first m = c -> c < NR_CPUS -> cpumask_test_cpu c m = true.
Proof. intros <- Hc. by apply elem_of_cpus_of, cpumask_first_elem; lia. Qed.
Lemma any_and_in a b c :
  cpumask_any_and a b = c -> c < NR_CPUS -> cpumask_test_cpu c a = true /\ cpumask_test_cpu c b = true.
Proof.
  intros E Hc. apply first_in_mask in E; [|done]. unfold cpumask_and, cpumask_test_cpu in *.
  by rewrite Z.land_spec, andb_true_iff in E.
Qed.

(** With packing of small tasks the search yields the CPU it starts from or a CPU whose tick is
    stopped. *)
Lemma ilb_near_buddy_in s buddy start :
  nr_cpu_ids s <= NR_CPUS ->
  (start < nr_cpu_ids s -> cpumask_test_cpu start (nohz_idle_cpus_mask s) = true) ->
  ilb_near_buddy s buddy start < nr_cpu_ids s ->
  cpumask_test_cpu (ilb_near_buddy s buddy start) (nohz_idle_cpus_mask s) = true.
Proof.
  intros Hn. unfold ilb_near_buddy. set (f := fun _ _ => _). generalize (domains_of s buddy) as l.
  assert (G : forall l a, (a.1 < nr_cpu_ids s -> cpumask_test_cpu a.1 (nohz_idle_cpus_mask s) = true) ->
    (foldl f a l).1 < nr_cpu_ids s -> cpumask_test_cpu (foldl f a l).1 (nohz_idle_cpus_mask s) = true).
  { induction l as [|d l IH]; intros a Ha; cbn; [done|]. apply IH. unfold f. case_match; [done|].
    cbn. intros Hc. eapply any_and_in; [done|lia]. }
  intros l Hs. by apply (G l (start, false)).
Qed.

Lemma idle_ilb_inv s c : idle_ilb s c = true -> c < nr_cpu_ids s /\ idle_cpu s c = true.
Proof. unfold idle_ilb. by rewrite andb_true_iff, Z.ltb_lt. Qed.

Lemma find_new_ilb_spec cpu s c :
  nr_cpu_ids s <= NR_CPUS -> find_new_ilb cpu s = c -> c < nr_cpu_ids s ->
  cpumask_test_cpu c (nohz_idle_cpus_mask s) = true /\ idle_cpu s c = true
  /\ (CONFIG_HMP_PACK_SMALL_TASK = false -> c ∈ cpus_of (hmp_cpus s cpu) /\ ilb_wanted s cpu).
Proof.
  intros Hn. unfold find_new_ilb. cbv zeta.
  assert (H1 : forall c, cpumask_first (nohz_idle_cpus_mask s) = c -> c < nr_cpu_ids s ->
    cpumask_test_cpu c (nohz_idle_cpus_mask s) = true) by (intros; apply first_in_mask; [done|lia]).
  destruct CONFIG_HMP_PACK_SMALL_TASK; cbn [andb].
  { intros E Hc. split_and!; [..|done]; revert E; repeat case_match; intros <-; try lia;
      repeat match goal with H : idle_ilb _ _ = true |- _ => apply idle_ilb_inv in H as [? ?] end; try done;
      try (by apply H1); try (apply ilb_near_buddy_in; [done| |done]; try lia; by apply H1). }
  set (ilb := cpumask_any_and _ _). set (busy := existsb _ _). destruct (_ && _) eqn:E; intros <- Hc; [|lia].
  apply andb_true_iff in E as [Ew [_ Ei]%idle_ilb_inv].
  destruct (any_and_in _ _ ilb eq_refl ltac:(lia)) as [H2 H3]. pose proof (cpumask_first_bound (cpumask_and (nohz_idle_cpus_mask s) (hmp_cpus s cpu))) as Hr.
  fold (cpumask_any_and (nohz_idle_cpus_mask s) (hmp_cpus s cpu)) ilb in Hr.
  split_and!; [done|done|]. intros _. split; [apply elem_of_cpus_of; split; [lia|done]|].
  assert (Hb : busy = true -> exists d, d ∈ cpus_of (hmp_cpus s cpu) /\ 1 < rq_nr_running (rqs s d)).
  { intros (d & Hd & Hlt%Z.ltb_lt)%existsb_exists. exists d. split; [|done].
    apply list_elem_of_In, elem_of_cpus_of in Hd as [Hd Ht]. unfold cpumask_test_cpu in Ht.
    rewrite Z.ldiff_spec, andb_true_iff in Ht. apply elem_of_cpus_of. by split; [|apply Ht]. }
  destruct (CONFIG_SCHED_HMP_LITTLE_PACKING && _) eqn:El; [|left; auto].
  apply andb_true_iff in El as [El _]. by apply (packing_needed ilb cpu busy s).
Qed.

End nohz.

(** * Witnesses *)

#[local] Instance : Config := big_LITTLE_MP.

(** CPUs 5 and 6 stop their ticks; CPU 5 is interrupted. *)
Definition tickless_sys : sys :=
  nohz_balance_exit_idle 5 (set_cpu_sd_state_busy 5
    (nohz_balance_enter_idle 6 (set_cpu_sd_state_idle 6
       (nohz_balance_enter_idle 5 (set_cpu_sd_state_idle 5 sample_sys))))).

Lemma nohz_count_exact_witness : nohz_view tickless_sys = (64, 1) /\ nohz_ok tickless_sys.
Proof.
  split; [vm_compute; reflexivity|]. apply (nohz_count_exact sample_sys); [vm_compute; reflexivity| |].
  - split; [|vm_compute; reflexivity]. intros c Hc. apply Z.bits_0.
  - unfold tickless_sys. assert (Hc : forall c, 4 <= c <= 7 -> 0 <= c < NR_CPUS) by (cbn; lia).
    eapply rtc_l; [apply ns_enter, (Hc 5); lia|]. eapply rtc_l; [apply ns_enter, (Hc 6); lia|].
    apply rtc_once, ns_exit, Hc. lia.
Defined.

(** Without packing, CPU 4 has two tasks and CPU 6 is idle without a tick: it gets the IPI. *)
Definition overloaded_sys : sys :=
  upd_rq 4 (fun r => r <| rq_nr_running := 2 |>) tickless_sys
    <| tun := (tun sample_sys) <| hmp_packing_enabled := 0 |> |>.

