(* ===== verification/Vlock.v ===== *)
(** Voting locks ([arch/arm/common/vlock.S]): mutual exclusion between the CPUs of a
    cluster without atomic instructions or coherent caches.

    The lock is in strongly-ordered memory, so the execution is an interleaving of
    single loads and stores.  Each CPU has a program counter; [vlock_exec c] performs
    the next memory access of CPU [c], and an execution is the sequence of the CPUs
    that take the steps. *)

From S2P Require Import Prelude.

(** [MAX_CPUS_PER_CLUSTER] of [asm/mcpm.h]; the voting flags fit in one word, which is
    read at once. *)
Definition MAX_CPUS_PER_CLUSTER : Z := 4.
Definition cluster_cpus : list Z := [0; 1; 2; 3].

Definition VLOCK_VOTING_OFFSET : Z := 4.
Definition VLOCK_OWNER_NONE : Z := 0.

(** Where a CPU is in [vlock_trylock]; [VHeld] is between a successful one and
    [vlock_unlock]. *)
Inductive vlock_pc :=
| VIdle    (* not trying; the next step is voting_begin *)
| VCheck   (* about to check whether the lock is held *)
| VVote    (* found it free; about to submit the vote *)
| VEnd     (* about to clear the voting flag (voting_end) *)
| VWait    (* waits for the round of voting to finish *)
| VResult  (* about to check who won *)
| VFail    (* trylock_fail: about to clear the voting flag *)
| VHeld.

Record vlock := mk_vlock {
  owner : Z;
  voting : Z -> Z;
  vpc : Z -> vlock_pc;
}.
#[export] Instance eta_vlock : Eta vlock := fun r =>
  {| owner := owner r; voting := voting r; vpc := vpc r |}.

#[export] Instance vlock_pc_eq_dec : EqDecision vlock_pc.
Proof. solve_decision. Defined.

Definition set_vpc (c : Z) (p : vlock_pc) (s : vlock) : vlock := s <| vpc := <[c := p]> (vpc s) |>.
Definition set_voting (c v : Z) (s : vlock) : vlock := s <| voting := <[c := v]> (voting s) |>.

(** What a CPU stores as its vote: [r1] after the first instruction. *)
Definition vote (c : Z) : Z := c + VLOCK_VOTING_OFFSET.

(** The word of voting flags is zero. *)
Definition no_voters (s : vlock) : bool := forallb (fun d => voting s d =? 0) cluster_cpus.

Definition vlock_unlock (s : vlock) : vlock := s <| owner := VLOCK_OWNER_NONE |>.

(** The next memory access of CPU [c]. *)
Definition vlock_exec (c : Z) (s : vlock) : vlock :=
  match vpc s c with
  | VIdle => set_vpc c VCheck (set_voting c 1 s)
  | VCheck => set_vpc c (if owner s =? VLOCK_OWNER_NONE then VVote else VFail) s
  | VVote => set_vpc c VEnd (s <| owner := vote c |>)
  | VEnd => set_vpc c VWait (set_voting c 0 s)
  | VWait => if no_voters s then set_vpc c VResult s else s
  | VResult => set_vpc c (if owner s =? vote c then VHeld else VIdle) s
  | VFail => set_vpc c VIdle (set_voting c 0 s)
  | VHeld => set_vpc c VIdle (vlock_unlock s)
  end.

Definition vlock_run (sched : list Z) (s : vlock) : vlock := foldl (fun s c => vlock_exec c s) s sched.

Definition vlock_init : vlock :=
  {| owner := VLOCK_OWNER_NONE; voting := fun _ => 0; vpc := fun _ => VIdle |}.

Definition is_cpu (c : Z) : Prop := c ∈ cluster_cpus.

(** * Invariant *)

(** Whose voting flag is set. *)
Definition has_flag_pc (p : vlock_pc) : bool :=
  match p with VCheck | VVote | VEnd | VFail => true | _ => false end.
(** Who has voted and may still win. *)
Definition in_race (p : vlock_pc) : bool :=
  match p with VEnd | VWait | VResult | VHeld => true | _ => false end.

Record vlock_ok (s : vlock) : Prop := {
  vo_flag : forall c, is_cpu c -> voting s c = b2z (has_flag_pc (vpc s c));
  vo_owner : owner s = VLOCK_OWNER_NONE
             \/ exists c, is_cpu c /\ owner s = vote c /\ in_race (vpc s c) = true;
  vo_held : forall c, is_cpu c -> vpc s c = VHeld -> owner s = vote c;
  (* once the voting is over, nobody can still outvote the owner *)
  vo_over : forall c d, is_cpu c -> is_cpu d -> vpc s c = VResult \/ vpc s c = VHeld ->
            owner s = vote c -> vpc s d <> VVote;
}.

Lemma vote_inj c d : vote c = vote d -> c = d.
Proof. unfold vote. lia. Qed.
Lemma vote_some c : is_cpu c -> vote c <> VLOCK_OWNER_NONE.
Proof. unfold is_cpu, cluster_cpus, vote, VLOCK_VOTING_OFFSET, VLOCK_OWNER_NONE. set_solver by lia. Qed.

Lemma no_voters_spec s : no_voters s = true <-> forall d, is_cpu d -> voting s d = 0.
Proof.
  unfold no_voters, is_cpu. rewrite forallb_forall. setoid_rewrite <- list_elem_of_In.
  split; intros Hv d Hd; specialize (Hv d Hd); lia.
Qed.

Lemma vpc_set c p s d : vpc (set_vpc c p s) d = if decide (c = d) then p else vpc s d.
Proof. unfold set_vpc. simpl. case_decide; subst; [apply fn_lookup_insert|by apply fn_lookup_insert_ne]. Qed.
Lemma voting_set c v s d : voting (set_voting c v s) d = if decide (c = d) then v else voting s d.
Proof. unfold set_voting. simpl. case_decide; subst; [apply fn_lookup_insert|by apply fn_lookup_insert_ne]. Qed.

Lemma voting_set_vpc c p s : voting (set_vpc c p s) = voting s.
Proof. done. Qed.

(** A CPU moves its program counter, and its flag with it; [owner] is unchanged. *)
Lemma vlock_ok_move c p s s' :
  vlock_ok s -> is_cpu c -> owner s' = owner s ->
  (forall d, vpc s' d = if decide (c = d) then p else vpc s d) ->
  (forall d, voting s' d = if decide (c = d) then b2z (has_flag_pc p) else voting s d) ->
  (in_race (vpc s c) = true -> owner s = vote c -> in_race p = true) ->
  (p = VHeld -> owner s = vote c) ->
  (p = VVote -> owner s = VLOCK_OWNER_NONE) ->
  (p = VResult \/ p = VHeld -> owner s = vote c -> forall d, is_cpu d -> vpc s d <> VVote) ->
  vlock_ok s'.
Proof.
  intros [Of Oo Oh Ov] Hc Eo Ep Ef Hrace Hheld Hvote Hover. split.
  - intros d Hd. rewrite Ef, Ep. case_decide; auto.
  - rewrite Eo. destruct Oo as [Oo|(d & Hd & Ed & Rd)]; [by left|right]. exists d.
    split; [done|]. split; [done|]. rewrite Ep. case_decide; [subst; auto|done].
  - intros d Hd. rewrite Eo, Ep. case_decide; [subst; auto|auto].
  - intros d e Hd He. rewrite Eo, !Ep. intros Hpd Ed.
    assert (Hs : owner s <> VLOCK_OWNER_NONE) by (rewrite Ed; by apply vote_some).
    destruct (decide (c = e)) as [->|]; [intros ->; by apply Hs, Hvote|].
    destruct (decide (c = d)) as [->|]; [by apply Hover|by apply (Ov d e)].
Qed.

Lemma vlock_exec_ok c s : is_cpu c -> vlock_ok s -> vlock_ok (vlock_exec c s).
Proof.
  intros Hc Hok. unfold vlock_exec. destruct (vpc s c) eqn:Hp.
  - eapply (vlock_ok_move c VCheck s); try done; intros; rewrite ?vpc_set, ?voting_set; try done.
    + by rewrite Hp in *.
    + naive_solver.
  - destruct (Z.eqb_spec (owner s) VLOCK_OWNER_NONE) as [E|E].
    + eapply (vlock_ok_move c VVote s); try done; intros; rewrite ?vpc_set, ?voting_set_vpc; try done;
        [|by rewrite Hp in *|naive_solver].
      case_decide; [|done]. subst. by rewrite (vo_flag s Hok), Hp.
    + eapply (vlock_ok_move c VFail s); try done; intros; rewrite ?vpc_set, ?voting_set_vpc; try done;
        [|by rewrite Hp in *|naive_solver].
      case_decide; [|done]. subst. by rewrite (vo_flag s Hok), Hp.
  - (* the vote *)
    destruct Hok as [Of Oo Oh Ov].
    assert (Hn : forall d, is_cpu d -> owner s = vote d -> vpc s d <> VResult /\ vpc s d <> VHeld).
    { intros d Hd Ed. split; intros Hr; by apply (Ov d c Hd Hc); auto. }
    split; simpl.
    + intros d Hd. rewrite Of by done. destruct (decide (c = d)) as [->|];
        [by rewrite fn_lookup_insert, Hp|by rewrite fn_lookup_insert_ne].
    + right. exists c. by rewrite fn_lookup_insert.
    + intros d Hd. destruct (decide (c = d)) as [->|]; [by rewrite fn_lookup_insert|].
      rewrite fn_lookup_insert_ne by done. intros Hh. pose proof (Oh d Hd Hh) as Ed.
      by destruct (Hn d Hd Ed).
    + intros d e Hd He Hpd Ed%vote_inj. subst. rewrite fn_lookup_insert in Hpd. by destruct Hpd.
  - eapply (vlock_ok_move c VWait s); try done; intros; rewrite ?vpc_set, ?voting_set; try done.
    naive_solver.
  - destruct (no_voters s) eqn:Hv; [|done]. rewrite no_voters_spec in Hv.
    eapply (vlock_ok_move c VResult s); try done; intros; rewrite ?vpc_set, ?voting_set_vpc; try done.
    + case_decide; [|done]. subst. by apply Hv.
    + intros Hd. pose proof (vo_flag s Hok d ltac:(done)) as Fd. rewrite Hd, Hv in Fd by done. done.
  - destruct (Z.eqb_spec (owner s) (vote c)) as [E|E].
    + eapply (vlock_ok_move c VHeld s); try done; intros; rewrite ?vpc_set, ?voting_set_vpc; try done.
      * case_decide; [|done]. subst. by rewrite (vo_flag s Hok), Hp.
      * apply (vo_over s Hok c); auto.
    + eapply (vlock_ok_move c VIdle s); try done; intros; rewrite ?vpc_set, ?voting_set_vpc; try naive_solver.
      case_decide; [|done]. subst. by rewrite (vo_flag s Hok), Hp.
  - eapply (vlock_ok_move c VIdle s); try done; intros; rewrite ?vpc_set, ?voting_set; try done;
      [by rewrite Hp in *|naive_solver].
  - (* unlock *)
    destruct Hok as [Of Oo Oh Ov]. pose proof (Oh c Hc Hp) as Ec. split; simpl.
    + intros d Hd. rewrite Of by done. destruct (decide (c = d)) as [->|];
        [by rewrite fn_lookup_insert, Hp|by rewrite fn_lookup_insert_ne].
    + by left.
    + intros d Hd. destruct (decide (c = d)) as [->|]; [by rewrite fn_lookup_insert|].
      rewrite fn_lookup_insert_ne by done. intros Hh. pose proof (Oh d Hd Hh) as Ed.
      rewrite Ec in Ed. by apply vote_inj in Ed.
    + intros d e Hd He _ Ed. symmetry in Ed. by apply vote_some in Ed.
Qed.

Lemma vlock_init_ok : vlock_ok vlock_init.
Proof. split; simpl; try naive_solver. Qed.

Lemma vlock_run_ok sched s : Forall is_cpu sched -> vlock_ok s -> vlock_ok (vlock_run sched s).
Proof.
  intros Hs. revert s. induction Hs as [|c l Hc Hl IH]; intros s Hok; [done|].
  apply IH. by apply vlock_exec_ok.
Qed.

Lemma vlock_held_unique s c d :
  vlock_ok s -> is_cpu c -> is_cpu d -> vpc s c = VHeld -> vpc s d = VHeld -> c = d.
Proof.
  intros Hok Hc Hd H1 H2. apply vote_inj. by rewrite <- (vo_held s Hok c), <- (vo_held s Hok d).
Qed.

(** C36. Mutual exclusion.  In every interleaving of the memory accesses of the CPUs of a
    cluster, while one CPU is between a successful [vlock_trylock] and its [vlock_unlock]
    no other CPU is. *)
Theorem vlock_mutex sched c d :
  Forall is_cpu sched -> is_cpu c -> is_cpu d -> c <> d ->
  let s := vlock_run sched vlock_init in
  vpc s c = VHeld -> vpc s d <> VHeld.
Proof.
  intros Hs Hc Hd Hcd s H1 H2. apply Hcd. apply (vlock_held_unique s c d); [|done..].
  apply vlock_run_ok; [done|apply vlock_init_ok].
Qed.

(** CPUs 1 and 2 race; both find the lock free and both vote; CPU 2 votes last and wins. *)
Definition race : list Z := [1; 2; 1; 2; 1; 2].

Lemma vlock_mutex_witness : vpc (vlock_run (race ++ [1; 2; 1; 2; 2; 1]) vlock_init) 1 <> VHeld.
Proof.
  apply (vlock_mutex (race ++ [1; 2; 1; 2; 2; 1]) 2 1); try done;
    try (apply (bool_decide_unpack _); vm_compute; exact I); by vm_compute.
Defined.

(** * Progress *)

(** The step of a CPU whose program counter is known. *)
Lemma exec_at c p s :
  vpc s c = p ->
  vlock_exec c s =
    match p with
    | VIdle => set_vpc c VCheck (set_voting c 1 s)
    | VCheck => set_vpc c (if owner s =? VLOCK_OWNER_NONE then VVote else VFail) s
    | VVote => set_vpc c VEnd (s <| owner := vote c |>)
    | VEnd => set_vpc c VWait (set_voting c 0 s)
    | VWait => if no_voters s then set_vpc c VResult s else s
    | VResult => set_vpc c (if owner s =? vote c then VHeld else VIdle) s
    | VFail => set_vpc c VIdle (set_voting c 0 s)
    | VHeld => set_vpc c VIdle (vlock_unlock s)
    end.
Proof. by intros <-. Qed.

Lemma vpc_set_eq c p s : vpc (set_vpc c p s) c = p.
Proof. by rewrite vpc_set, decide_True. Qed.

(** While a vote is in, a CPU clears its voting flag within two of its own steps. *)
Lemma drain_one s d :
  owner s <> VLOCK_OWNER_NONE -> is_cpu d ->
  exists k, (k <= 2)%nat /\ (vpc s d = VIdle -> k = O)
    /\ let s' := vlock_run (repeat d k) s in
       has_flag_pc (vpc s' d) = false /\ (forall e, e <> d -> vpc s' e = vpc s e)
       /\ owner s' <> VLOCK_OWNER_NONE.
Proof.
  intros Ho Hd. pose proof (vote_some d Hd) as Hv. unfold vlock_run. destruct (vpc s d) eqn:Hp.
  1, 5, 6, 8: exists 0%nat; cbn; rewrite Hp; split_and!; (lia || done).
  - exists 2%nat. split; [lia|]. split; [done|]. cbn [repeat foldl].
    rewrite (exec_at d VCheck s Hp), (proj2 (Z.eqb_neq _ _) Ho), (exec_at d VFail) by apply vpc_set_eq.
    split; [by rewrite vpc_set_eq|]. split; [|done]. intros e He. rewrite vpc_set, decide_False by done.
    change (vpc (set_vpc d VFail s) e = vpc s e). by rewrite vpc_set, decide_False.
  - exists 2%nat. split; [lia|]. split; [done|]. cbn [repeat foldl].
    rewrite (exec_at d VVote s Hp), (exec_at d VEnd) by apply vpc_set_eq.
    split; [by rewrite vpc_set_eq|]. split; [|done]. intros e He. rewrite vpc_set, decide_False by done.
    change (vpc (set_vpc d VEnd s) e = vpc s e). by rewrite vpc_set, decide_False.
  - exists 1%nat. split; [lia|]. split; [done|]. cbn [repeat foldl]. rewrite (exec_at d VEnd s Hp).
    split; [by rewrite vpc_set_eq|]. split; [|done]. intros e He. by rewrite vpc_set, decide_False.
  - exists 1%nat. split; [lia|]. split; [done|]. cbn [repeat foldl]. rewrite (exec_at d VFail s Hp).
    split; [by rewrite vpc_set_eq|]. split; [|done]. intros e He. by rewrite vpc_set, decide_False.
Qed.

Lemma vlock_run_app l k s : vlock_run (l ++ k) s = vlock_run k (vlock_run l s).
Proof. apply foldl_app. Qed.

Lemma drain_all s l :
  owner s <> VLOCK_OWNER_NONE -> NoDup l -> Forall is_cpu l ->
  exists sched, Forall is_cpu sched /\ (length sched <= 2 * length l)%nat
    /\ (forall c, c ∈ sched -> vpc s c <> VIdle)
    /\ let s' := vlock_run sched s in
       (forall d, d ∈ l -> has_flag_pc (vpc s' d) = false)
       /\ (forall e, e ∉ l -> vpc s' e = vpc s e)
       /\ (forall e, vpc s e = VIdle -> vpc s' e = VIdle) /\ owner s' <> VLOCK_OWNER_NONE.
Proof.
  intros Ho Hn Hl. revert s Ho. induction Hl as [|d l Hd Hl IH]; intros s Ho.
  { exists []. cbn. split_and!; try done; set_solver. }
  apply list.NoDup_cons in Hn as [Hdl Hn].
  destruct (drain_one s d Ho Hd) as (k & Hk & Hi & F1 & E1 & O1).
  set (s1 := vlock_run (repeat d k) s) in *.
  assert (I1 : forall e, vpc s e = VIdle -> vpc s1 e = VIdle).
  { intros e Ei. destruct (decide (e = d)) as [->|]; [|by rewrite E1]. unfold s1. by rewrite (Hi Ei). }
  destruct (IH Hn s1 O1) as (sched & Hs & Hlen & Hni & F2 & E2 & I2 & O2).
  exists (repeat d k ++ sched). rewrite vlock_run_app. fold s1. cbv zeta. split_and!.
  - apply Forall_app. split; [|done]. clear - Hd. induction k; by constructor.
  - rewrite length_app, repeat_length. simpl. lia.
  - intros c [Hc|Hc]%elem_of_app.
    + apply list_elem_of_In, repeat_spec in Hc as Ec. subst c. intros Ei. rewrite (Hi Ei) in Hc. set_solver.
    + intros Ei. by apply (Hni c Hc), I1.
  - intros e [->|He]%elem_of_cons; [by rewrite E2|by apply F2].
  - intros e [He Hel]%not_elem_of_cons. by rewrite E2, E1.
  - auto.
  - done.
Qed.

(** When no flag is set, the CPU that voted last is at most two steps from holding the
    lock. *)
Lemma winner_holds s c :
  no_voters s = true -> owner s = vote c -> in_race (vpc s c) = true -> has_flag_pc (vpc s c) = false ->
  exists k, (k <= 2)%nat /\ vpc (vlock_run (repeat c k) s) c = VHeld.
Proof.
  intros Hn Ho Hr Hf. unfold vlock_run.
  assert (H1 : forall s, owner s = vote c -> vpc s c = VResult -> vpc (vlock_exec c s) c = VHeld).
  { intros s1 E1 P1. by rewrite (exec_at c VResult s1 P1), E1, Z.eqb_refl, vpc_set_eq. }
  destruct (vpc s c) eqn:Hp; try done.
  - exists 2%nat. split; [lia|]. cbn [repeat foldl]. rewrite (exec_at c VWait s Hp), Hn.
    apply H1; [done|apply vpc_set_eq].
  - exists 1%nat. split; [lia|]. by apply H1.
  - by exists 0%nat; split; [lia|].
Qed.

(** C37. No deadlock.  Whenever some CPU has voted, the CPUs that are already in
    [vlock_trylock] or hold the lock can, without any further CPU joining, bring the
    election to an end: within ten steps one of them holds the lock. *)
Theorem vlock_no_deadlock past :
  Forall is_cpu past ->
  let s := vlock_run past vlock_init in
  owner s <> VLOCK_OWNER_NONE ->
  exists sched c, Forall is_cpu sched /\ (length sched <= 10)%nat
    /\ (forall d, d ∈ sched -> vpc s d <> VIdle)
    /\ is_cpu c /\ vpc (vlock_run sched s) c = VHeld.
Proof.
  intros Hp s Ho. assert (Hok : vlock_ok s) by (apply vlock_run_ok; [done|apply vlock_init_ok]).
  destruct (drain_all s cluster_cpus Ho) as (sched & Hs & Hlen & Hni & F & _ & I1 & O1);
    [apply (bool_decide_unpack _); vm_compute; exact I|by apply Forall_forall|].
  set (s1 := vlock_run sched s) in *.
  assert (Hok1 : vlock_ok s1) by (by apply vlock_run_ok).
  destruct (vo_owner s1 Hok1) as [?|(c & Hc & Ec & Rc)]; [done|].
  assert (Hnv : no_voters s1 = true).
  { apply no_voters_spec. intros d Hd. rewrite (vo_flag s1 Hok1 d Hd), (F d Hd). done. }
  destruct (winner_holds s1 c Hnv Ec Rc (F c Hc)) as (k & Hk & Hh).
  exists (sched ++ repeat c k), c. rewrite vlock_run_app. fold s1. split_and!; try done.
  - apply Forall_app. split; [done|]. clear - Hc. induction k; by constructor.
  - rewrite length_app, repeat_length. simpl in Hlen. lia.
  - intros d [Hd|Hd]%elem_of_app; [auto|]. apply list_elem_of_In, repeat_spec in Hd as ->.
    intros Ei%I1. by rewrite Ei in Rc.
Qed.

Lemma vlock_no_deadlock_witness :
  exists sched c, Forall is_cpu sched /\ (length sched <= 10)%nat
    /\ (forall d, d ∈ sched -> vpc (vlock_run race vlock_init) d <> VIdle)
    /\ is_cpu c /\ vpc (vlock_run sched (vlock_run race vlock_init)) c = VHeld.
Proof.
  apply (vlock_no_deadlock race); [|vm_compute; discriminate].
  apply (bool_decide_unpack _). vm_compute. exact I.
Defined.
