(* ===== verification/Mcpm.v ===== *)
(** Multi-cluster power management: the last man / first man protocol by which the CPUs
    of a cluster agree when the cluster is torn down and set up again
    ([arch/arm/common/mcpm_head.S], [arch/arm/common/mcpm_entry.c]).

    The synchronisation variables of a cluster are read and written with caches off or
    explicitly cleaned ([sync_cache_w], [sync_cache_r]) and every access is fenced, so
    an execution is an interleaving of single accesses.  [mcpm_step] performs the next
    access of one CPU: [mcpm_entry_point] on the way up, the platform's [power_down] on
    the way down.  What the protocol does not decide - when a CPU is woken, when the
    kernel gives it up, whether the platform declares it the last man - is a choice of
    the schedule, so the theorems hold for every platform. *)

From S2P Require Import Prelude Vlock.

(** [struct mcpm_sync_struct] of [asm/mcpm.h]. *)
Inductive cpu_sync := CPU_DOWN | CPU_COMING_UP | CPU_UP | CPU_GOING_DOWN.
Inductive cluster_sync := CLUSTER_DOWN | CLUSTER_UP | CLUSTER_GOING_DOWN.
Inductive inbound_sync := INBOUND_NOT_COMING_UP | INBOUND_COMING_UP.

#[export] Instance cpu_sync_eq_dec : EqDecision cpu_sync.
Proof. solve_decision. Defined.
#[export] Instance cluster_sync_eq_dec : EqDecision cluster_sync.
Proof. solve_decision. Defined.
#[export] Instance inbound_sync_eq_dec : EqDecision inbound_sync.
Proof. solve_decision. Defined.

(** Where a CPU is. *)
Inductive mcpm_pc :=
| Off              (* in WFI or in reset *)
(* mcpm_entry_point *)
| Entry            (* about to signal CPU_COMING_UP *)
| Lock             (* in vlock_trylock on the first man lock *)
| FirstMan         (* holds the lock; about to look at the cluster *)
| SkipUnlock       (* the cluster was up: about to release the lock *)
| SetInbound       (* mcpm_setup *)
| TeardownWait     (* mcpm_teardown_wait *)
| ClusterSetup     (* first_man_setup: power_up_setup(1) *)
| SetClusterUp
| LeaveInbound     (* mcpm_setup_leave *)
| SetupUnlock
| SetupWait        (* mcpm_setup_wait *)
| CpuSetup         (* mcpm_setup_complete: power_up_setup(0) *)
| SetCpuUp
| Gated            (* mcpm_entry_gated *)
| Running
(* power_down *)
| GoingDown        (* __mcpm_cpu_going_down *)
| LockPm           (* arch_spin_lock of the platform's lock *)
| Decide           (* BUG_ON(cluster state); is this the last man? *)
| OutSetCluster    (* __mcpm_outbound_enter_critical *)
| OutCheckInbound
| OutCheckCpu (i : Z)
| OutAbort         (* abort: __mcpm_outbound_leave_critical(cluster, CLUSTER_UP) *)
| OutUnlockCrit    (* entered: arch_spin_unlock *)
| Teardown         (* flush all levels, disable the cluster's CCI port *)
| OutLeave         (* __mcpm_outbound_leave_critical(cluster, CLUSTER_DOWN) *)
| UnlockLocal      (* not entered: arch_spin_unlock *)
| LocalFlush       (* v7_exit_coherency_flush(louis) *)
| SetCpuDown.      (* __mcpm_cpu_down *)

#[export] Instance mcpm_pc_eq_dec : EqDecision mcpm_pc.
Proof. solve_decision. Defined.

(** A cluster: [mcpm_sync.clusters[cluster]], its first man lock, the platform's lock
    with its holder, the cluster's CCI port, and where each CPU is. *)
Record mcpm := mk_mcpm {
  cpus : Z -> cpu_sync;
  cluster : cluster_sync;
  inbound : inbound_sync;
  first_man_lock : vlock;
  pm_lock : option Z;
  cci_port : bool;
  mpc : Z -> mcpm_pc;
}.
#[export] Instance eta_mcpm : Eta mcpm := fun r =>
  {| cpus := cpus r; cluster := cluster r; inbound := inbound r;
     first_man_lock := first_man_lock r; pm_lock := pm_lock r; cci_port := cci_port r;
     mpc := mpc r |}.

Definition goto (c : Z) (p : mcpm_pc) (s : mcpm) : mcpm := s <| mpc := <[c := p]> (mpc s) |>.
Definition set_cpu (c : Z) (st : cpu_sync) (s : mcpm) : mcpm := s <| cpus := <[c := st]> (cpus s) |>.

(** ** [mcpm_entry.c] *)
Definition __mcpm_cpu_going_down (cpu : Z) (s : mcpm) : mcpm := set_cpu cpu CPU_GOING_DOWN s.
Definition __mcpm_cpu_down (cpu : Z) (s : mcpm) : mcpm := set_cpu cpu CPU_DOWN s.
Definition __mcpm_outbound_leave_critical (state : cluster_sync) (s : mcpm) : mcpm :=
  s <| cluster := state |>.
Definition __mcpm_cluster_state (s : mcpm) : cluster_sync := cluster s.

(** The next iteration of the loop over the CPUs, or its end. *)
Definition check_next (i : Z) : mcpm_pc :=
  if i + 1 <? MAX_CPUS_PER_CLUSTER then OutCheckCpu (i + 1) else OutUnlockCrit.

(** [__mcpm_outbound_enter_critical], one access at a time. *)
Definition outbound_enter_step (cpu : Z) (s : mcpm) : mcpm :=
  match mpc s cpu with
  | OutSetCluster => goto cpu OutCheckInbound (s <| cluster := CLUSTER_GOING_DOWN |>)
  | OutCheckInbound =>
      goto cpu (match inbound s with
                | INBOUND_COMING_UP => OutAbort
                | INBOUND_NOT_COMING_UP => OutCheckCpu 0
                end) s
  | OutCheckCpu i =>
      if i =? cpu then goto cpu (check_next i) s
      else match cpus s i with
           | CPU_GOING_DOWN => s
           | CPU_DOWN => goto cpu (check_next i) s
           | _ => goto cpu OutAbort s
           end
  | OutAbort => goto cpu UnlockLocal (__mcpm_outbound_leave_critical CLUSTER_UP s)
  | _ => s
  end.

(** [mcpm_entry_point]; [b] is whether the entry vector of the CPU is set. *)
Definition mcpm_entry_step (cpu : Z) (b : bool) (s : mcpm) : mcpm :=
  match mpc s cpu with
  | Entry => goto cpu Lock (set_cpu cpu CPU_COMING_UP s)
  | Lock =>
      let v := vlock_exec cpu (first_man_lock s) in
      goto cpu (match vpc v cpu with VHeld => FirstMan | VIdle => SetupWait | _ => Lock end)
        (s <| first_man_lock := v |>)
  | FirstMan => goto cpu (match cluster s with CLUSTER_UP => SkipUnlock | _ => SetInbound end) s
  | SkipUnlock => goto cpu CpuSetup (s <| first_man_lock := vlock_exec cpu (first_man_lock s) |>)
  | SetInbound => goto cpu TeardownWait (s <| inbound := INBOUND_COMING_UP |>)
  | TeardownWait =>
      match cluster s with
      | CLUSTER_GOING_DOWN => s
      | CLUSTER_UP => goto cpu LeaveInbound s
      | CLUSTER_DOWN => goto cpu ClusterSetup s
      end
  | ClusterSetup => goto cpu SetClusterUp (s <| cci_port := true |>)
  | SetClusterUp => goto cpu LeaveInbound (s <| cluster := CLUSTER_UP |>)
  | LeaveInbound => goto cpu SetupUnlock (s <| inbound := INBOUND_NOT_COMING_UP |>)
  | SetupUnlock => goto cpu CpuSetup (s <| first_man_lock := vlock_exec cpu (first_man_lock s) |>)
  | SetupWait => match cluster s with CLUSTER_UP => goto cpu CpuSetup s | _ => s end
  | CpuSetup => goto cpu SetCpuUp s
  | SetCpuUp => goto cpu Gated (set_cpu cpu CPU_UP s)
  | Gated => if b then goto cpu Running s else s
  | _ => s
  end.

(** The platform's [power_down] ([dcscb_power_down], [tc2_pm_power_down]); [b] is whether
    the platform's accounting makes the CPU the last man.  [None] is the [BUG_ON]. *)
Definition power_down_step (cpu : Z) (b : bool) (s : mcpm) : option mcpm :=
  match mpc s cpu with
  | GoingDown => Some (goto cpu LockPm (__mcpm_cpu_going_down cpu s))
  | LockPm =>
      Some (match pm_lock s with
            | None => goto cpu Decide (s <| pm_lock := Some cpu |>)
            | Some _ => s
            end)
  | Decide =>
      match __mcpm_cluster_state s with
      | CLUSTER_UP => Some (goto cpu (if b then OutSetCluster else UnlockLocal) s)
      | _ => None
      end
  | OutUnlockCrit => Some (goto cpu Teardown (s <| pm_lock := None |>))
  | Teardown => Some (goto cpu OutLeave (s <| cci_port := false |>))
  | OutLeave => Some (goto cpu SetCpuDown (__mcpm_outbound_leave_critical CLUSTER_DOWN s))
  | UnlockLocal => Some (goto cpu LocalFlush (s <| pm_lock := None |>))
  | LocalFlush => Some (goto cpu SetCpuDown s)
  | SetCpuDown => Some (goto cpu Off (__mcpm_cpu_down cpu s))
  | _ => Some (outbound_enter_step cpu s)
  end.

(** The holder of the platform's lock when it is not a CPU in [power_down] here: a CPU
    of another cluster, or one in the platform's [power_up]. *)
Definition PM_OTHER : Z := -1.

Inductive mcpm_event :=
| EvCpu (cpu : Z) (b : bool)
| EvOther.  (* somebody else takes the platform's lock, or releases it *)

(** One step.  A CPU that is off is woken, and a running one calls
    [mcpm_cpu_power_down], when [b] holds. *)
Definition mcpm_step (e : mcpm_event) (s : mcpm) : option mcpm :=
  match e with
  | EvOther =>
      Some (match pm_lock s with
            | None => s <| pm_lock := Some PM_OTHER |>
            | Some h => if h =? PM_OTHER then s <| pm_lock := None |> else s
            end)
  | EvCpu cpu b =>
      match mpc s cpu with
      | Off => Some (if b then goto cpu Entry s else s)
      | Running => Some (if b then goto cpu GoingDown s else s)
      | Entry | Lock | FirstMan | SkipUnlock | SetInbound | TeardownWait | ClusterSetup
      | SetClusterUp | LeaveInbound | SetupUnlock | SetupWait | CpuSetup | SetCpuUp | Gated =>
          Some (mcpm_entry_step cpu b s)
      | _ => power_down_step cpu b s
      end
  end.

Fixpoint mcpm_run (l : list mcpm_event) (s : mcpm) : option mcpm :=
  match l with
  | [] => Some s
  | e :: l => s' ← mcpm_step e s; mcpm_run l s'
  end.

(** [mcpm_sync_init], for the cluster the kernel boots on and for any other ([running]
    empty).  The state bytes are indexed with the logical numbers of the CPUs [online];
    [running] has the numbers, within the cluster, of the CPUs that really run. *)
Definition mcpm_sync_init (online running : list Z) : mcpm :=
  {| cpus := fun i => if bool_decide (i ∈ online) then CPU_UP else CPU_DOWN;
     cluster := match running with [] => CLUSTER_DOWN | _ => CLUSTER_UP end;
     inbound := INBOUND_NOT_COMING_UP;
     first_man_lock := vlock_init;
     pm_lock := None;
     cci_port := match running with [] => false | _ => true end;
     mpc := fun i => if bool_decide (i ∈ running) then Running else Off |}.

(** * Invariant *)

(** What a CPU's program counter says of its own state byte. *)
Definition sync_of (p : mcpm_pc) : cpu_sync :=
  match p with
  | Off | Entry => CPU_DOWN
  | Gated | Running | GoingDown => CPU_UP
  | LockPm | Decide | OutSetCluster | OutCheckInbound | OutCheckCpu _ | OutAbort | OutUnlockCrit
  | Teardown | OutLeave | UnlockLocal | LocalFlush | SetCpuDown => CPU_GOING_DOWN
  | _ => CPU_COMING_UP
  end.

(** Holds the first man lock. *)
Definition is_first (p : mcpm_pc) : bool :=
  match p with
  | FirstMan | SkipUnlock | SetInbound | TeardownWait | ClusterSetup | SetClusterUp | LeaveInbound
  | SetupUnlock => true
  | _ => false
  end.
(** In the set-up critical section that [inbound] announces. *)
Definition is_inbound (p : mcpm_pc) : bool :=
  match p with TeardownWait | ClusterSetup | SetClusterUp | LeaveInbound => true | _ => false end.
(** Setting the cluster up. *)
Definition in_setup (p : mcpm_pc) : bool :=
  match p with ClusterSetup | SetClusterUp => true | _ => false end.
(** Holds the platform's lock. *)
Definition has_pm (p : mcpm_pc) : bool :=
  match p with
  | Decide | OutSetCluster | OutCheckInbound | OutCheckCpu _ | OutAbort | OutUnlockCrit
  | UnlockLocal => true
  | _ => false
  end.
(** Has announced that the cluster goes down. *)
Definition is_out (p : mcpm_pc) : bool :=
  match p with
  | OutCheckInbound | OutCheckCpu _ | OutAbort | OutUnlockCrit | Teardown | OutLeave => true
  | _ => false
  end.
(** Tearing the cluster down. *)
Definition in_teardown (p : mcpm_pc) : bool :=
  match p with Teardown | OutLeave => true | _ => false end.
(** Depends on the cluster being up: from the moment it saw [CLUSTER_UP] until its own
    cache is flushed and off. *)
Definition engaged (p : mcpm_pc) : bool :=
  match p with
  | SkipUnlock | LeaveInbound | SetupUnlock | CpuSetup | SetCpuUp | Gated | Running | GoingDown | LockPm
  | Decide | OutSetCluster | UnlockLocal | LocalFlush => true
  | _ => false
  end.
(** Does not touch anything of the cluster but the synchronisation variables. *)
Definition passive (p : mcpm_pc) : bool :=
  match p with
  | Off | Entry | Lock | FirstMan | SetInbound | TeardownWait | SetupWait => true
  | _ => false
  end.
(** CPU [d] has been seen down by a last man at this point. *)
Definition checked (p : mcpm_pc) (d : Z) : bool :=
  match p with
  | OutCheckCpu i => d <? i
  | OutUnlockCrit | Teardown | OutLeave => true
  | _ => false
  end.

Definition lock_at (p : mcpm_pc) (v : vlock_pc) : Prop :=
  match p with
  | Lock => v <> VHeld
  | _ => v = if is_first p then VHeld else VIdle
  end.

Definition cluster_at (p : mcpm_pc) (cl : cluster_sync) : Prop :=
  (engaged p = true -> cl <> CLUSTER_DOWN) /\ (in_setup p = true -> cl = CLUSTER_DOWN)
  /\ (is_out p = true -> cl = CLUSTER_GOING_DOWN).

(** The variables that are local to a CPU, or to a lock. *)
Record locks_ok (s : mcpm) : Prop := {
  lo_vlock : vlock_ok (first_man_lock s);
  lo_cpu : forall c, is_cpu c -> cpus s c = sync_of (mpc s c);
  lo_pm : forall c, is_cpu c -> has_pm (mpc s c) = true -> pm_lock s = Some c;
  lo_first : forall c, is_cpu c -> lock_at (mpc s c) (vpc (first_man_lock s) c);
}.

(** The state of the cluster, against where its CPUs are. *)
Record cluster_ok (s : mcpm) : Prop := {
  co_at : forall c, is_cpu c -> cluster_at (mpc s c) (cluster s);
  co_out : cluster s = CLUSTER_GOING_DOWN -> exists c, is_cpu c /\ is_out (mpc s c) = true;
  co_checked : forall c d, is_cpu c -> is_cpu d -> c <> d ->
               checked (mpc s c) d = true -> passive (mpc s d) = true;
  co_up : cluster s = CLUSTER_UP -> cci_port s = true;
  co_setup : forall c, is_cpu c -> mpc s c = SetClusterUp -> cci_port s = true;
  co_going : cluster s = CLUSTER_GOING_DOWN ->
             cci_port s = true \/ exists c, is_cpu c /\ mpc s c = OutLeave;
}.

Definition inbound_ok (s : mcpm) : Prop :=
  inbound s = INBOUND_COMING_UP <-> exists c, is_cpu c /\ is_inbound (mpc s c) = true.

Record mcpm_ok (s : mcpm) : Prop := {
  mo_locks : locks_ok s;
  mo_cluster : cluster_ok s;
  mo_inbound : inbound_ok s;
}.

Lemma mpc_goto c p s d : mpc (goto c p s) d = if decide (c = d) then p else mpc s d.
Proof. unfold goto. simpl. case_decide; subst; [apply fn_lookup_insert|by apply fn_lookup_insert_ne]. Qed.
Lemma cpus_set c st s d : cpus (set_cpu c st s) d = if decide (c = d) then st else cpus s d.
Proof. unfold set_cpu. simpl. case_decide; subst; [apply fn_lookup_insert|by apply fn_lookup_insert_ne]. Qed.

(** ** Locks *)

Lemma vlock_exec_other c d v : c <> d -> vpc (vlock_exec c v) d = vpc v d.
Proof.
  intros Hcd. unfold vlock_exec. destruct (vpc v c); try case_match;
    by rewrite ?vpc_set, ?decide_False by done.
Qed.

(** CPU [c] moves to [p]; [s1] has what the step changed besides. *)
Lemma locks_ok_goto c p s s1 :
  locks_ok s -> is_cpu c -> mpc s1 = mpc s ->
  (forall d, d <> c -> cpus s1 d = cpus s d) -> cpus s1 c = sync_of p ->
  vlock_ok (first_man_lock s1) ->
  (forall d, d <> c -> vpc (first_man_lock s1) d = vpc (first_man_lock s) d) ->
  lock_at p (vpc (first_man_lock s1) c) ->
  (pm_lock s1 = pm_lock s /\ (has_pm p = true -> has_pm (mpc s c) = true)
   \/ pm_lock s = None /\ pm_lock s1 = Some c
   \/ has_pm (mpc s c) = true /\ has_pm p = false) ->
  locks_ok (goto c p s1).
Proof.
  intros [Lv Lc Lp Lf] Hc Em Ecpu Ec Hv Ev Hl Hpm. split; [done|..]; intros d Hd; rewrite mpc_goto, Em;
    destruct (decide (c = d)) as [<-|Hne]; try done.
  - change (cpus s1 d = sync_of (mpc s d)). rewrite Ecpu by done. auto.
  - change (has_pm p = true -> pm_lock s1 = Some c). intros Hp.
    destruct Hpm as [[E H]|[[_ E]|[_ E]]]; [rewrite E; auto|done|congruence].
  - change (has_pm (mpc s d) = true -> pm_lock s1 = Some d). intros Hp. pose proof (Lp d Hd Hp) as E1.
    destruct Hpm as [[E _]|[[E _]|[E _]]]; [by rewrite E|congruence|].
    rewrite (Lp c Hc E) in E1. by injection E1.
  - change (lock_at (mpc s d) (vpc (first_man_lock s1) d)). rewrite Ev by done. auto.
Qed.

(** ** The cluster *)

Lemma checked_out p d : checked p d = true -> is_out p = true.
Proof. by destruct p. Qed.

(** CPU [c] moves to [p] and neither the state of the cluster nor its port changes. *)
Lemma cluster_ok_goto c p s s1 :
  cluster_ok s -> is_cpu c -> mpc s1 = mpc s -> cluster s1 = cluster s -> cci_port s1 = cci_port s ->
  cluster_at p (cluster s) ->
  (is_out (mpc s c) = true -> is_out p = true) ->
  (passive (mpc s c) = true -> passive p = true \/ cluster s <> CLUSTER_GOING_DOWN) ->
  (forall d, is_cpu d -> d <> c -> checked p d = true -> passive (mpc s d) = true) ->
  mpc s c <> OutLeave -> p <> SetClusterUp ->
  cluster_ok (goto c p s1).
Proof.
  intros [Ca Co Ck Cu Cs Cg] Hc Em Ecl Eci Hat Hout Hpas Hck Hol Hsu. split.
  - intros d Hd. rewrite mpc_goto, Em. change (cluster (goto c p s1)) with (cluster s1). rewrite Ecl.
    case_decide; auto.
  - change (cluster s1 = CLUSTER_GOING_DOWN -> exists c0, is_cpu c0 /\ is_out (mpc (goto c p s1) c0) = true).
    rewrite Ecl. intros (d & Hd & Od)%Co. exists d. rewrite mpc_goto, Em. split; [done|].
    case_decide; [subst; auto|done].
  - intros d e Hd He Hde. rewrite !mpc_goto, Em. destruct (decide (c = d)) as [<-|].
    + rewrite decide_False by done. auto.
    + destruct (decide (c = e)) as [<-|]; [|by apply (Ck d e)]. intros Hch.
      destruct Hpas as [?|Hn]; [by apply (Ck d c)|done|]. destruct (Ca d Hd) as (_ & _ & Hgd).
      exfalso. by apply Hn, Hgd, (checked_out _ c).
  - change (cluster s1 = CLUSTER_UP -> cci_port s1 = true). rewrite Ecl, Eci. done.
  - intros d Hd. rewrite mpc_goto, Em. change (cci_port (goto c p s1)) with (cci_port s1). rewrite Eci.
    case_decide; [done|by apply Cs].
  - change (cluster s1 = CLUSTER_GOING_DOWN ->
      cci_port s1 = true \/ exists c0, is_cpu c0 /\ mpc (goto c p s1) c0 = OutLeave).
    rewrite Ecl, Eci. intros [?|(d & Hd & Ed)]%Cg; [by left|right]. exists d. split; [done|].
    rewrite mpc_goto, Em, decide_False; [done|congruence].
Qed.

(** The last man, and a CPU about to become it, is alone in taking the cluster down. *)
Lemma out_alone s c d :
  locks_ok s -> cluster_ok s -> is_cpu c -> is_cpu d ->
  has_pm (mpc s c) || in_teardown (mpc s c) = true -> is_out (mpc s d) = true -> d = c.
Proof.
  intros L C Hc Hd Pc Pd. destruct (decide (d = c)) as [|Hne]; [done|]. exfalso.
  assert (Hk : forall a b, is_cpu a -> is_cpu b -> a <> b ->
    in_teardown (mpc s a) = true -> passive (mpc s b) = false -> False).
  { intros a b Ha Hb Hab Ta Pb. rewrite (co_checked s C a b) in Pb; [done..|]. by destruct (mpc s a). }
  destruct (in_teardown (mpc s c)) eqn:Tc.
  { apply (Hk c d); [done..|]. by destruct (mpc s d). }
  rewrite orb_false_r in Pc. destruct (in_teardown (mpc s d)) eqn:Td.
  { apply (Hk d c); [done..|]. by destruct (mpc s c). }
  assert (Hpd : has_pm (mpc s d) = true) by (by destruct (mpc s d)).
  pose proof (lo_pm s L c Hc Pc) as E. rewrite (lo_pm s L d Hd Hpd) in E. by injection E.
Qed.

Lemma first_alone s c d :
  locks_ok s -> is_cpu c -> is_cpu d -> is_first (mpc s c) = true -> is_first (mpc s d) = true -> d = c.
Proof.
  intros L Hc Hd Pc Pd. apply (vlock_held_unique (first_man_lock s)); [apply L|done..| |].
  - pose proof (lo_first s L d Hd) as E. by destruct (mpc s d).
  - pose proof (lo_first s L c Hc) as E. by destruct (mpc s c).
Qed.

(** CPU [c] moves to [p] and changes the cluster's state or port, with nobody else
    taking the cluster down. *)
Lemma cluster_ok_change c p s s1 :
  is_cpu c -> mpc s1 = mpc s ->
  (forall d, is_cpu d -> is_out (mpc s d) = true -> d = c) ->
  cluster_at p (cluster s1) ->
  (forall d, is_cpu d -> d <> c -> cluster_at (mpc s d) (cluster s1)) ->
  (cluster s1 = CLUSTER_GOING_DOWN -> is_out p = true) ->
  (forall d, is_cpu d -> d <> c -> checked p d = true -> passive (mpc s d) = true) ->
  (cluster s1 = CLUSTER_UP -> cci_port s1 = true) ->
  (p = SetClusterUp -> cci_port s1 = true) ->
  (forall d, is_cpu d -> d <> c -> mpc s d = SetClusterUp -> cci_port s1 = true) ->
  (cluster s1 = CLUSTER_GOING_DOWN -> cci_port s1 = true \/ p = OutLeave) ->
  cluster_ok (goto c p s1).
Proof.
  intros Hc Em Hal Hat Hot Hgd Hck Hup Hsu Hos Hgo. split.
  - intros d Hd. rewrite mpc_goto, Em. change (cluster (goto c p s1)) with (cluster s1). case_decide; auto.
  - intros E%Hgd. exists c. by rewrite mpc_goto, decide_True.
  - intros d e Hd He Hde. rewrite !mpc_goto, Em. destruct (decide (c = d)) as [<-|Hcd].
    + rewrite decide_False by done. auto.
    + intros Hch%checked_out%Hal; [|done]. by subst.
  - exact Hup.
  - intros d Hd. rewrite mpc_goto, Em. change (cci_port (goto c p s1)) with (cci_port s1).
    case_decide; [done|eauto].
  - change (cluster s1 = CLUSTER_GOING_DOWN ->
      cci_port s1 = true \/ exists c0, is_cpu c0 /\ mpc (goto c p s1) c0 = OutLeave).
    intros [?| ->]%Hgo; [by left|right]. exists c. by rewrite mpc_goto, decide_True.
Qed.

Lemma inbound_ok_goto c p s s1 :
  inbound_ok s -> is_cpu c -> mpc s1 = mpc s -> inbound s1 = inbound s ->
  is_inbound p = is_inbound (mpc s c) -> inbound_ok (goto c p s1).
Proof.
  unfold inbound_ok. intros Ho Hc Em Ei Ep. change (inbound (goto c p s1)) with (inbound s1). rewrite Ei, Ho.
  apply exist_proper. intros d. rewrite mpc_goto, Em. case_decide; [subst; by rewrite Ep|done].
Qed.

(** ** Every step preserves the invariant *)

(** A step that moves [c] and changes at most its own state byte. *)
Lemma mcpm_ok_goto c p s s1 :
  mcpm_ok s -> is_cpu c ->
  (s1 = s /\ sync_of p = sync_of (mpc s c) \/ s1 = set_cpu c (sync_of p) s) ->
  lock_at p (vpc (first_man_lock s) c) ->
  (has_pm p = true -> has_pm (mpc s c) = true) ->
  cluster_at p (cluster s) ->
  (is_out (mpc s c) = true -> is_out p = true) ->
  (passive (mpc s c) = true -> passive p = true \/ cluster s <> CLUSTER_GOING_DOWN) ->
  (forall d, is_cpu d -> d <> c -> checked p d = true -> passive (mpc s d) = true) ->
  mpc s c <> OutLeave -> p <> SetClusterUp ->
  is_inbound p = is_inbound (mpc s c) ->
  mcpm_ok (goto c p s1).
Proof.
  intros [L C I] Hc Hs1 Hl Hpm Hat Ho Hp Hck Hol Hsu Hi.
  assert (E : mpc s1 = mpc s /\ cluster s1 = cluster s /\ cci_port s1 = cci_port s
    /\ inbound s1 = inbound s /\ first_man_lock s1 = first_man_lock s /\ pm_lock s1 = pm_lock s)
    by (destruct Hs1 as [[-> _]| ->]; by split_and!).
  destruct E as (E1 & E2 & E3 & E4 & E5 & E6). split.
  - apply (locks_ok_goto c p s); rewrite ?E5; auto; [..|apply L]; destruct Hs1 as [[-> Es]| ->]; auto.
    + intros d Hd. by rewrite cpus_set, decide_False.
    + rewrite Es. by apply L.
    + by rewrite cpus_set, decide_True.
  - by apply (cluster_ok_goto c p s).
  - by apply (inbound_ok_goto c p s).
Qed.

(** What the invariant says of a CPU whose program counter is known, and a step of it
    covered by [mcpm_ok_goto]. *)
Ltac mcpm_at s c Hok Hc Hp :=
  pose proof (lo_first s (mo_locks s Hok) c Hc) as Hlk; rewrite Hp in Hlk; cbn in Hlk;
  pose proof (co_at s (mo_cluster s Hok) c Hc) as Hat; rewrite Hp in Hat; unfold cluster_at in Hat;
  cbn in Hat.
Ltac mcpm_move Hp :=
  eapply mcpm_ok_goto;
  [eassumption|eassumption
  |first [left; split; [reflexivity|rewrite Hp; reflexivity]|right; reflexivity]|..];
  rewrite ?Hp; unfold cluster_at; cbn; try done; try congruence; try (intuition congruence).

(** The first man lock moves, by [vlock_exec]. *)
Lemma mcpm_ok_vlock c p s :
  mcpm_ok s -> is_cpu c -> sync_of p = sync_of (mpc s c) ->
  lock_at p (vpc (vlock_exec c (first_man_lock s)) c) ->
  has_pm p = false -> cluster_at p (cluster s) -> is_out (mpc s c) = false ->
  (passive (mpc s c) = true -> passive p = true) ->
  (forall d, checked p d = false) -> p <> SetClusterUp -> is_inbound p = is_inbound (mpc s c) ->
  mcpm_ok (goto c p (s <| first_man_lock := vlock_exec c (first_man_lock s) |>)).
Proof.
  intros [L C I] Hc Es Hl Hpm Hat Ho Hp Hck Hsu Hi. split.
  - apply (locks_ok_goto c p s); simpl; auto.
    + rewrite Es. by apply L.
    + apply vlock_exec_ok; [done|apply L].
    + intros d Hd. by apply vlock_exec_other.
    + left. by rewrite Hpm.
  - apply (cluster_ok_goto c p s); auto; [by rewrite Ho|intros d; by rewrite Hck|].
    intros E. by rewrite E in Ho.
  - by apply (inbound_ok_goto c p s).
Qed.

Lemma entry_lock_ok c b s :
  mcpm_ok s -> is_cpu c -> mpc s c ∈ [Lock; SkipUnlock; SetupUnlock] -> mcpm_ok (mcpm_entry_step c b s).
Proof.
  intros Hok Hc Hin. unfold mcpm_entry_step.
  destruct (mpc s c) eqn:Hp; try (exfalso; clear - Hin; set_solver); mcpm_at s c Hok Hc Hp.
  - destruct (vpc (vlock_exec c (first_man_lock s)) c) eqn:Hv;
      apply mcpm_ok_vlock; rewrite ?Hp, ?Hv; unfold cluster_at; done.
  - apply mcpm_ok_vlock; rewrite ?Hp; unfold cluster_at; try done.
    simpl. by rewrite (exec_at c VHeld), vpc_set_eq.
  - apply mcpm_ok_vlock; rewrite ?Hp; unfold cluster_at; try done.
    simpl. by rewrite (exec_at c VHeld), vpc_set_eq.
Qed.

(** [inbound] is written by the first man. *)
Lemma entry_inbound_ok c b s :
  mcpm_ok s -> is_cpu c -> mpc s c ∈ [SetInbound; LeaveInbound] -> mcpm_ok (mcpm_entry_step c b s).
Proof.
  intros Hok Hc Hin. unfold mcpm_entry_step. pose proof Hok as [L C I].
  destruct (mpc s c) eqn:Hp; try (exfalso; clear - Hin; set_solver); mcpm_at s c Hok Hc Hp; split.
  1, 4: apply (locks_ok_goto c _ s); simpl; auto; [by rewrite (lo_cpu s L c Hc), Hp|apply L|left; by rewrite Hp].
  1, 3: apply (cluster_ok_goto c _ s); rewrite ?Hp; unfold cluster_at; auto; try done; intuition congruence.
  - split; [|done]. intros _. exists c. by rewrite mpc_goto, decide_True.
  - split; [done|]. intros (d & Hd & Id). rewrite mpc_goto in Id. case_decide; [done|].
    assert (d = c); [|done]. apply (first_alone s c d); try done; [by rewrite Hp|].
    simpl in Id. by destruct (mpc s d).
Qed.

(** [power_up_setup] and [CLUSTER_UP]. *)
Lemma entry_setup_ok c b s :
  mcpm_ok s -> is_cpu c -> mpc s c ∈ [ClusterSetup; SetClusterUp] -> mcpm_ok (mcpm_entry_step c b s).
Proof.
  intros Hok Hc Hin. unfold mcpm_entry_step. pose proof Hok as [L C I].
  assert (Hs : in_setup (mpc s c) = true /\ is_first (mpc s c) = true).
  { apply elem_of_cons in Hin as [->|Hin]; [done|]. by apply list_elem_of_singleton in Hin as ->. }
  destruct Hs as [Hs Hf]. destruct (co_at s C c Hc) as (_ & Hdn & _). specialize (Hdn Hs).
  assert (Hal : forall d, is_cpu d -> is_out (mpc s d) = true -> d = c).
  { intros d Hd Od. destruct (co_at s C d Hd) as (_ & _ & Hgd). by rewrite (Hgd Od) in Hdn. }
  destruct (mpc s c) eqn:Hp; try done; split.
  1, 4: apply (locks_ok_goto c _ s); simpl; auto; [by rewrite (lo_cpu s L c Hc), Hp|apply L| |left; by rewrite Hp];
    pose proof (lo_first s L c Hc) as Hlk; by rewrite Hp in Hlk.
  2, 4: apply (inbound_ok_goto c _ s); by rewrite ?Hp.
  - apply (cluster_ok_change c _ s); auto; simpl; rewrite ?Hdn; unfold cluster_at; try done.
    intros d Hd _. pose proof (co_at s C d Hd) as Hd'. by rewrite Hdn in Hd'.
  - apply (cluster_ok_change c _ s); auto; simpl; unfold cluster_at; try done; try (intros; by apply (co_setup s C c)).
    intros d Hd Hne. split; [done|]. split; intros Hx.
    + exfalso. apply Hne, (first_alone s c d); try done; [by rewrite Hp|by destruct (mpc s d)].
    + exfalso. by apply Hne, Hal.
Qed.

Ltac mem := solve [repeat first [apply list_elem_of_here|apply list_elem_of_further]].

Lemma mcpm_entry_step_ok c b s : mcpm_ok s -> is_cpu c -> mcpm_ok (mcpm_entry_step c b s).
Proof.
  intros Hok Hc. destruct (mpc s c) eqn:Hp;
    try (apply entry_lock_ok; [assumption..|rewrite Hp; mem]);
    try (apply entry_inbound_ok; [assumption..|rewrite Hp; mem]);
    try (apply entry_setup_ok; [assumption..|rewrite Hp; mem]);
    unfold mcpm_entry_step; rewrite Hp; try done; mcpm_at s c Hok Hc Hp.
  - mcpm_move Hp.
  - destruct (cluster s) eqn:Ecl; mcpm_move Hp.
  - destruct (cluster s) eqn:Ecl; [mcpm_move Hp..|done].
  - destruct (cluster s) eqn:Ecl; [done|mcpm_move Hp|done].
  - mcpm_move Hp.
  - mcpm_move Hp.
  - destruct b; [mcpm_move Hp|done].
Qed.

Lemma is_cpu_range d : is_cpu d -> 0 <= d < MAX_CPUS_PER_CLUSTER.
Proof. unfold is_cpu, cluster_cpus, MAX_CPUS_PER_CLUSTER. rewrite !elem_of_cons, elem_of_nil. lia. Qed.

(** The loop of [__mcpm_outbound_enter_critical] goes past CPU [i]. *)
Lemma check_next_ok c i s :
  mcpm_ok s -> is_cpu c -> mpc s c = OutCheckCpu i -> i = c \/ cpus s i = CPU_DOWN ->
  mcpm_ok (goto c (check_next i) s).
Proof.
  intros Hok Hc Hp Hi. pose proof Hok as [L C I].
  assert (Hck : forall d, is_cpu d -> d <> c -> d <= i -> passive (mpc s d) = true).
  { intros d Hd Hdc Hdi. destruct (decide (d = i)) as [->|].
    - destruct Hi as [->|Hi]; [done|]. rewrite (lo_cpu s L i Hd) in Hi. by destruct (mpc s i).
    - apply (co_checked s C c d); try done. rewrite Hp. simpl. lia. }
  mcpm_at s c Hok Hc Hp. unfold check_next. destruct (Z.ltb_spec (i + 1) MAX_CPUS_PER_CLUSTER).
  - mcpm_move Hp. intros d Hd Hdc Hlt. apply Hck; [done..|lia].
  - mcpm_move Hp. intros d Hd Hdc _. apply Hck; [done..|]. pose proof (is_cpu_range d Hd). lia.
Qed.

(** [CLUSTER_GOING_DOWN] is announced, or withdrawn, with the platform's lock held. *)
Lemma out_announce_ok c s :
  mcpm_ok s -> is_cpu c -> mpc s c ∈ [OutSetCluster; OutAbort] -> mcpm_ok (outbound_enter_step c s).
Proof.
  intros Hok Hc Hin. unfold outbound_enter_step, __mcpm_outbound_leave_critical. pose proof Hok as [L C I].
  assert (Hs : has_pm (mpc s c) = true /\ cluster s <> CLUSTER_DOWN).
  { destruct (co_at s C c Hc) as (He & _ & Hgd).
    apply elem_of_cons in Hin as [E|Hin]; [rewrite E in *; auto|].
    apply list_elem_of_singleton in Hin as E. rewrite E in *. by rewrite Hgd. }
  destruct Hs as [Hpm Hcl].
  assert (Hal : forall d, is_cpu d -> is_out (mpc s d) = true -> d = c).
  { intros d Hd Od. apply (out_alone s c d); try done. by rewrite Hpm. }
  assert (Hns : forall d, is_cpu d -> in_setup (mpc s d) = true -> False).
  { intros d Hd Sd. destruct (co_at s C d Hd) as (_ & Hdn & _). auto. }
  assert (Hci : cci_port s = true).
  { destruct (cluster s) eqn:Ecl; [done|by apply C|]. destruct (co_going s C Ecl) as [?|(d & Hd & Ed)]; [done|].
    rewrite <- (Hal d Hd) in Hpm; by rewrite Ed in *. }
  destruct (mpc s c) eqn:Hp; try (exfalso; clear - Hin; set_solver); mcpm_at s c Hok Hc Hp; split.
  1, 4: apply (locks_ok_goto c _ s); simpl; auto; [by rewrite (lo_cpu s L c Hc), Hp|apply L|left; by rewrite Hp].
  2, 4: apply (inbound_ok_goto c _ s); by rewrite ?Hp.
  1, 2: apply (cluster_ok_change c _ s); auto; simpl; unfold cluster_at; try done;
    intros d Hd Hne; split; [done|]; split; intros Hx; [by destruct (Hns d)|by destruct Hne; auto].
Qed.

Lemma outbound_enter_step_ok c s : mcpm_ok s -> is_cpu c -> mcpm_ok (outbound_enter_step c s).
Proof.
  intros Hok Hc. destruct (mpc s c) eqn:Hp; try (apply out_announce_ok; [assumption..|rewrite Hp; mem]);
    unfold outbound_enter_step; rewrite Hp; try done.
  - mcpm_at s c Hok Hc Hp. destruct (inbound s); mcpm_move Hp.
    intros d Hd _ H0. pose proof (is_cpu_range d Hd). lia.
  - destruct (Z.eqb_spec i c) as [->|Hne]; [apply check_next_ok; auto|].
    mcpm_at s c Hok Hc Hp. destruct (cpus s i) eqn:Hi; [apply check_next_ok; auto|mcpm_move Hp..|done].
Qed.

(** CPU [c] takes or releases the platform's lock. *)
Lemma mcpm_ok_pm c p l s :
  mcpm_ok s -> is_cpu c -> sync_of p = sync_of (mpc s c) -> lock_at p VIdle ->
  is_first (mpc s c) = false -> mpc s c <> Lock ->
  (pm_lock s = None /\ l = Some c \/ has_pm (mpc s c) = true /\ has_pm p = false) ->
  cluster_at p (cluster s) -> is_out p = is_out (mpc s c) -> passive (mpc s c) = false ->
  (forall d, checked p d = true -> checked (mpc s c) d = true) ->
  mpc s c <> OutLeave -> p <> SetClusterUp -> is_inbound p = is_inbound (mpc s c) ->
  mcpm_ok (goto c p (s <| pm_lock := l |>)).
Proof.
  intros [L C I] Hc Es Hl Hf Hlk Hpm Hat Ho Hpa Hck Hol Hsu Hi. split.
  - apply (locks_ok_goto c p s); simpl; auto.
    + rewrite Es. by apply L.
    + apply L.
    + pose proof (lo_first s L c Hc) as E. unfold lock_at in E. rewrite Hf in E. destruct (mpc s c); first [done|by rewrite E].
  - apply (cluster_ok_goto c p s); auto; [by rewrite Ho|by rewrite Hpa|].
    intros d Hd Hdc Hx%Hck. by apply (co_checked s C c d).
  - by apply (inbound_ok_goto c p s).
Qed.

(** The last man tears the cluster down. *)
Lemma teardown_ok c s s' b :
  mcpm_ok s -> is_cpu c -> in_teardown (mpc s c) = true ->
  power_down_step c b s = Some s' -> mcpm_ok s'.
Proof.
  intros Hok Hc Ht. unfold power_down_step, __mcpm_outbound_leave_critical. pose proof Hok as [L C I].
  assert (Hal : forall d, is_cpu d -> is_out (mpc s d) = true -> d = c).
  { intros d Hd Od. apply (out_alone s c d); try done. by rewrite Ht, orb_true_r. }
  assert (Hpa : forall d, is_cpu d -> d <> c -> passive (mpc s d) = true).
  { intros d Hd Hdc. apply (co_checked s C c d); try done. by destruct (mpc s c). }
  assert (Hgd : cluster s = CLUSTER_GOING_DOWN).
  { destruct (co_at s C c Hc) as (_ & _ & Hx). apply Hx. by destruct (mpc s c). }
  destruct (mpc s c) eqn:Hp; try done; mcpm_at s c Hok Hc Hp; intros [= <-]; split.
  1, 4: apply (locks_ok_goto c _ s); simpl; auto; [by rewrite (lo_cpu s L c Hc), Hp|apply L|left; by rewrite Hp].
  2, 4: apply (inbound_ok_goto c _ s); by rewrite ?Hp.
  - apply (cluster_ok_change c _ s); auto; simpl; rewrite ?Hgd; unfold cluster_at; try done.
    + intros d Hd Hne. specialize (Hpa d Hd Hne). by destruct (mpc s d).
    + intros d Hd Hne Ed. specialize (Hpa d Hd Hne). by rewrite Ed in Hpa.
  - apply (cluster_ok_change c _ s); auto; simpl; unfold cluster_at; try done.
    + intros d Hd Hne. specialize (Hpa d Hd Hne). by destruct (mpc s d).
    + intros d Hd Hne Ed. specialize (Hpa d Hd Hne). by rewrite Ed in Hpa.
Qed.

(** The [BUG_ON] of [power_down] does not fire: whoever holds the platform's lock there
    finds the cluster up. *)
Lemma decide_cluster_up c s :
  mcpm_ok s -> is_cpu c -> mpc s c = Decide -> cluster s = CLUSTER_UP.
Proof.
  intros [L C I] Hc Hp. destruct (co_at s C c Hc) as (He & _). rewrite Hp in He.
  destruct (cluster s) eqn:Ecl; [by destruct He|done|]. destruct (co_out s C Ecl) as (d & Hd & Od).
  assert (d = c) as ->; [|by rewrite Hp in Od]. apply (out_alone s c d); try done. by rewrite Hp.
Qed.

Lemma power_down_step_ok c b s :
  mcpm_ok s -> is_cpu c -> exists s', power_down_step c b s = Some s' /\ mcpm_ok s'.
Proof.
  intros Hok Hc. destruct (in_teardown (mpc s c)) eqn:Ht.
  { destruct (power_down_step c b s) as [s'|] eqn:E; [exists s'; split; [done|by eapply teardown_ok]|].
    unfold power_down_step in E. by destruct (mpc s c). }
  destruct (mpc s c) eqn:Hp; try done; unfold power_down_step; rewrite Hp;
    try (eexists; split; [reflexivity|by apply outbound_enter_step_ok]); mcpm_at s c Hok Hc Hp.
  - eexists; split; [reflexivity|]. unfold __mcpm_cpu_going_down. mcpm_move Hp.
  - eexists; split; [reflexivity|]. destruct (pm_lock s) eqn:Hl; [done|].
    apply mcpm_ok_pm; rewrite ?Hp; auto; try done.
  - unfold __mcpm_cluster_state. pose proof (decide_cluster_up c s Hok Hc Hp) as E. rewrite E in *.
    eexists; split; [reflexivity|]. destruct b; mcpm_move Hp; by rewrite E.
  - eexists; split; [reflexivity|]. apply mcpm_ok_pm; rewrite ?Hp; auto; try done.
  - eexists; split; [reflexivity|]. apply mcpm_ok_pm; rewrite ?Hp; auto; try done.
  - eexists; split; [reflexivity|]. mcpm_move Hp.
  - eexists; split; [reflexivity|]. unfold __mcpm_cpu_down. mcpm_move Hp.
Qed.

(** ** Executions *)

Definition event_ok (e : mcpm_event) : Prop :=
  match e with EvCpu cpu _ => is_cpu cpu | EvOther => True end.

Lemma other_lock_ok l s :
  mcpm_ok s -> (forall c, is_cpu c -> pm_lock s <> Some c) -> mcpm_ok (s <| pm_lock := l |>).
Proof.
  intros [[Lv Lc Lp Lf] C I] Hn. split; [|by destruct C|done].
  split; try done. intros c Hc Hp. by destruct (Hn c Hc), (Lp c Hc).
Qed.

Lemma mcpm_step_ok e s : mcpm_ok s -> event_ok e -> exists s', mcpm_step e s = Some s' /\ mcpm_ok s'.
Proof.
  intros Hok He. destruct e as [c b|]; simpl.
  - destruct (mpc s c) eqn:Hp;
      try (eexists; split; [reflexivity|by apply mcpm_entry_step_ok]); try by apply power_down_step_ok.
    + eexists; split; [reflexivity|]. destruct b; [|done]. mcpm_at s c Hok He Hp. mcpm_move Hp.
    + eexists; split; [reflexivity|]. destruct b; [|done]. mcpm_at s c Hok He Hp. mcpm_move Hp.
  - eexists; split; [reflexivity|]. destruct (pm_lock s) as [h|] eqn:Hl.
    + destruct (Z.eqb_spec h PM_OTHER) as [->|]; [|done]. apply other_lock_ok; [done|].
      intros c Hc%is_cpu_range E. rewrite Hl in E. injection E as E. unfold PM_OTHER in E. lia.
    + apply other_lock_ok; [done|]. by rewrite Hl.
Qed.

Lemma mcpm_init_ok running : mcpm_ok (mcpm_sync_init running running).
Proof.
  split; split; simpl.
  - apply vlock_init_ok.
  - intros c _. by case_bool_decide.
  - intros c _. by case_bool_decide.
  - intros c _. by case_bool_decide.
  - intros c _. unfold cluster_at. case_bool_decide; [|done]. destruct running; [set_solver|done].
  - by destruct running.
  - intros c d _ _ _. by case_bool_decide.
  - by destruct running.
  - intros c _. by case_bool_decide.
  - by destruct running.
  - done.
  - intros (c & _ & Hi). by case_bool_decide.
Qed.

Lemma mcpm_run_ok l s : mcpm_ok s -> Forall event_ok l -> exists s', mcpm_run l s = Some s' /\ mcpm_ok s'.
Proof.
  intros Hok Hl. revert s Hok. induction Hl as [|e l He Hl IH]; intros s Hok; simpl; [by exists s|].
  destruct (mcpm_step_ok e s Hok He) as (s1 & -> & Hok1). by apply IH.
Qed.

(** What the protocol promises. *)
Record mcpm_safe_state (s : mcpm) : Prop := {
  (* while the last man tears the cluster down, no other CPU uses it or sets it up *)
  ss_teardown : forall c d, is_cpu c -> is_cpu d -> c <> d ->
    in_teardown (mpc s c) = true -> passive (mpc s d) = true;
  (* one CPU at a time sets it up, while no CPU relies on it being up *)
  ss_setup : forall c d, is_cpu c -> is_cpu d -> c <> d ->
    in_setup (mpc s c) = true ->
    engaged (mpc s d) = false /\ in_setup (mpc s d) = false /\ is_out (mpc s d) = false;
  (* whoever relies on the cluster has its coherency *)
  ss_coherent : forall c, is_cpu c -> engaged (mpc s c) = true -> cci_port s = true;
}.

Lemma mcpm_ok_safe s : mcpm_ok s -> mcpm_safe_state s.
Proof.
  intros [L C I]. split.
  - intros c d Hc Hd Hcd Tc. apply (co_checked s C c d); try done. by destruct (mpc s c).
  - intros c d Hc Hd Hcd Sc. destruct (co_at s C c Hc) as (_ & E & _). specialize (E Sc).
    destruct (co_at s C d Hd) as (He & _ & Ho). rewrite E in He, Ho. split_and!.
    + destruct (engaged (mpc s d)); naive_solver.
    + destruct (in_setup (mpc s d)) eqn:Sd; [|done]. destruct Hcd. symmetry.
      apply (first_alone s c d); try done; [by destruct (mpc s c)|by destruct (mpc s d)].
    + destruct (is_out (mpc s d)); naive_solver.
  - intros c Hc Ec. destruct (co_at s C c Hc) as (He & _). specialize (He Ec).
    destruct (cluster s) eqn:E; [done|by apply C|].
    destruct (co_going s C E) as [?|(d & Hd & Ed)]; [done|]. exfalso.
    assert (Hcd : c <> d) by (intros ->; by rewrite Ed in Ec).
    assert (Hp : passive (mpc s c) = true) by (apply (co_checked s C d c); [done..|by rewrite Ed]).
    by destruct (mpc s c).
Qed.

(** C13. Safety of the cluster power protocol.  Whatever the platform declares, whoever
    else takes its lock, and however the CPUs of a cluster are woken, given up and
    interleaved, access by access: the [BUG_ON] in [power_down] never fires; while a last man
    tears the cluster down every other CPU is off or waiting; a cluster is set up by one
    CPU at a time, while no CPU relies on it; and every CPU that relies on the
    cluster has its coherency port enabled. *)
Theorem mcpm_safe running l :
  Forall event_ok l ->
  exists s, mcpm_run l (mcpm_sync_init running running) = Some s /\ mcpm_safe_state s.
Proof.
  intros Hl. destruct (mcpm_run_ok l _ (mcpm_init_ok running) Hl) as (s & E & Hok).
  exists s. split; [done|by apply mcpm_ok_safe].
Qed.

(** CPU 0 goes down as the last man and tears the cluster down while CPU 1 is woken. *)
Definition teardown_race : list mcpm_event :=
  repeat (EvCpu 0 true) 11 ++ [EvCpu 1 true; EvCpu 1 true] ++ repeat (EvCpu 0 true) 2
  ++ repeat (EvCpu 1 true) 9.

Lemma mcpm_safe_witness :
  exists s, mcpm_run teardown_race (mcpm_sync_init [0] [0]) = Some s /\ mcpm_safe_state s.
Proof.
  apply (mcpm_safe [0] teardown_race). repeat constructor; unfold event_ok, is_cpu, cluster_cpus; set_solver.
Defined.
