(* ===== verification/Dcscb.v ===== *)
(** The Versatile Express DCSCB back end of multi-cluster power management
    ([arch/arm/mach-vexpress/dcscb.c]), for one cluster: use counts and the reset
    register, on top of the cluster protocol of [Mcpm].

    The counts and the register are only touched under [dcscb_lock]; the part of
    [dcscb_power_down] between taking the lock and calling
    [__mcpm_outbound_enter_critical], and all of [dcscb_power_up], are single steps.  The
    other steps of a CPU are those of [Mcpm], of which this is a refinement: the choices left open there
    - who is the last man, when a CPU wakes - are made here by the counts and the
    register. *)

From S2P Require Import Prelude Vlock Mcpm.

(** The state of a cluster: the protocol's, [dcscb_use_count[.][cluster]], [RST_HOLD],
    and the [skip_wfi] of each CPU's last [dcscb_power_down]. *)
Record dcscb := mk_dcscb {
  mc : mcpm;
  use_count : Z -> Z;
  rst_hold : Z;
  skip_wfi : Z -> bool;
}.
#[export] Instance eta_dcscb : Eta dcscb := fun r =>
  {| mc := mc r; use_count := use_count r; rst_hold := rst_hold r; skip_wfi := skip_wfi r |}.

Definition BIT (n : Z) : Z := Z.shiftl 1 n.

(** [dcscb_allcpus_mask[cluster]], for a cluster of [nr_cpus] CPUs; the configuration
    register has the number. *)
Definition all_mask (nr_cpus : Z) : Z := BIT nr_cpus - 1.
Definition dcscb_allcpus_mask (cfg cl : Z) : Z :=
  all_mask (Z.land (Z.shiftr (Z.shiftr cfg 16) (Z.shiftl cl 2)) 15).

(** What [dcscb_power_up] writes to [RST_HOLD]. *)
Definition rst_release (all_mask cpu r : Z) : Z :=
  let cpumask := BIT cpu in
  let r := if negb (Z.land r (BIT 8) =? 0) then Z.lor (Z.land r (Z.lnot (BIT 8))) all_mask else r in
  Z.land r (Z.lnot (Z.lor cpumask (Z.shiftl cpumask 4))).

(** [dcscb_power_up] with [dcscb_lock] taken: its return value and the new state; [None]
    is [BUG()]. *)
Definition dcscb_power_up (all_mask cpu : Z) (s : dcscb) : option (Z * dcscb) :=
  if 4 <=? cpu then Some (- EINVAL, s) else
  let n := use_count s cpu + 1 in
  let s := s <| use_count := <[cpu := n]> (use_count s) |> in
  if n =? 1 then Some (0, s <| rst_hold := rst_release all_mask cpu (rst_hold s) |>)
  else if n =? 2 then Some (0, s)
  else None.

(** What [dcscb_power_down] writes to [RST_HOLD], and whether it makes its CPU the last
    man. *)
Definition rst_add (all_mask cpu r : Z) : bool * Z :=
  let r := Z.lor r (BIT cpu) in
  let last_man := Z.land (Z.lor r (Z.shiftr r 4)) all_mask =? all_mask in
  (last_man, if last_man then Z.lor r (BIT 8) else r).

(** The accounting of [dcscb_power_down]: whether the CPU is the last man. *)
Definition dcscb_account (all_mask cpu : Z) (s : dcscb) : option (bool * dcscb) :=
  let n := use_count s cpu - 1 in
  let s := s <| use_count := <[cpu := n]> (use_count s) |> in
  if n =? 0 then
    let '(last_man, r) := rst_add all_mask cpu (rst_hold s) in
    Some (last_man, s <| rst_hold := r |> <| skip_wfi := <[cpu := false]> (skip_wfi s) |>)
  else if n =? 1 then Some (false, s <| skip_wfi := <[cpu := true]> (skip_wfi s) |>)
  else None.

Definition dcscb_usage_count_init (cpu : Z) (use_count : Z -> Z) : Z -> Z := <[cpu := 1]> use_count.

Section Dcscb.

(** The CPUs of the cluster that exist. *)
Variable nr_cpus : Z.
(** The reset controller: whether a CPU, given the register, is out of reset. *)
Variable out_of_reset : Z -> Z -> bool.

Inductive dcscb_event :=
| DPowerUp (cpu : Z)          (* some running CPU calls dcscb_power_up(cpu, cluster) *)
| DCpu (cpu : Z) (b : bool)   (* the next step of a CPU of the cluster *)
| DOther.

Definition lift (s : dcscb) (o : option mcpm) : option dcscb := m ← o; Some (s <| mc := m |>).

Definition dcscb_step (e : dcscb_event) (s : dcscb) : option dcscb :=
  match e with
  | DPowerUp cpu =>
      match pm_lock (mc s) with
      | None => '(_, s) ← dcscb_power_up (all_mask nr_cpus) cpu s; Some s
      | Some _ => Some s
      end
  | DCpu cpu b =>
      match mpc (mc s) cpu with
      | Decide =>
          match __mcpm_cluster_state (mc s) with
          | CLUSTER_UP =>
              '(last_man, s) ← dcscb_account (all_mask nr_cpus) cpu s;
              lift s (mcpm_step (EvCpu cpu last_man) (mc s))
          | _ => None
          end
      | Off =>
          (* returns from WFI, or is reset; both lead to mcpm_entry_point *)
          lift s (mcpm_step (EvCpu cpu (b && (skip_wfi s cpu || out_of_reset (rst_hold s) cpu))) (mc s))
      | _ => lift s (mcpm_step (EvCpu cpu b) (mc s))
      end
  | DOther => lift s (mcpm_step EvOther (mc s))
  end.

Fixpoint dcscb_run (l : list dcscb_event) (s : dcscb) : option dcscb :=
  match l with
  | [] => Some s
  | e :: l => s' ← dcscb_step e s; dcscb_run l s'
  end.

(** [dcscb_init]: at boot, for the cluster that runs CPU 0 and for the other. *)
Definition dcscb_init (booted : bool) (r : Z) : dcscb :=
  {| mc := if booted then mcpm_sync_init [0] [0] else mcpm_sync_init [] [];
     use_count := if booted then dcscb_usage_count_init 0 (fun _ => 0) else fun _ => 0;
     rst_hold := r;
     skip_wfi := fun _ => false |}.

Definition has_cpu (c : Z) : Prop := 0 <= c < nr_cpus.

(** Who takes part, and what the callers of [dcscb_power_up] keep to: a CPU is not
    requested again while a request is pending ("any other value is a bug"). *)
Definition caller_ok (e : dcscb_event) (s : dcscb) : Prop :=
  match e with
  | DPowerUp cpu => has_cpu cpu /\ use_count s cpu < 2
  | DCpu cpu _ => has_cpu cpu
  | DOther => True
  end.

Inductive dcscb_reachable (booted : bool) (r : Z) : dcscb -> Prop :=
| reach_init : dcscb_reachable booted r (dcscb_init booted r)
| reach_step e s s' :
    dcscb_reachable booted r s -> caller_ok e s -> dcscb_step e s = Some s' ->
    dcscb_reachable booted r s'.

End Dcscb.

(** * The reset register *)

Lemma testbit_BIT n k : 0 <= n -> 0 <= k -> Z.testbit (BIT n) k = (k =? n).
Proof.
  intros Hn Hk. unfold BIT. rewrite Z.shiftl_spec by done. destruct (Z.eqb_spec k n) as [->|Hne].
  - by rewrite Z.sub_diag.
  - destruct (Z.lt_ge_cases (k - n) 0); [by apply Z.testbit_neg_r|].
    change 1 with (2 ^ 0). apply Z.pow2_bits_false. lia.
Qed.

Lemma testbit_mask n k : 0 <= n -> 0 <= k -> Z.testbit (all_mask n) k = (k <? n).
Proof.
  intros Hn Hk. unfold all_mask, BIT. rewrite Z.shiftl_1_l. rewrite Z.sub_1_r, <- Z.ones_equiv.
  destruct (Z.ltb_spec k n); [apply Z.ones_spec_low|apply Z.ones_spec_high]; lia.
Qed.

Lemma land_BIT_zero r n : 0 <= n -> (Z.land r (BIT n) =? 0) = negb (Z.testbit r n).
Proof.
  intros Hn. destruct (Z.testbit r n) eqn:Hb; simpl.
  - apply Z.eqb_neq. intros E. assert (Ht : Z.testbit (Z.land r (BIT n)) n = Z.testbit 0 n) by (by rewrite E).
    rewrite Z.land_spec, Hb, testbit_BIT, Z.eqb_refl, Z.bits_0 in Ht by done. done.
  - apply Z.eqb_eq. apply Z.bits_inj'. intros k Hk. rewrite Z.land_spec, testbit_BIT, Z.bits_0 by done.
    destruct (Z.eqb_spec k n) as [->|]; [by rewrite Hb|apply andb_false_r].
Qed.

Lemma rst_release_bit m cpu r k :
  0 <= cpu -> 0 <= k ->
  Z.testbit (rst_release m cpu r) k =
    (if Z.testbit r 8 then (Z.testbit r k && negb (k =? 8)) || Z.testbit m k else Z.testbit r k)
    && negb (k =? cpu) && negb (k =? cpu + 4).
Proof.
  intros Hc Hk. unfold rst_release. rewrite land_BIT_zero, negb_involutive by done.
  assert (E4 : Z.shiftl (BIT cpu) 4 = BIT (cpu + 4)) by (unfold BIT; by rewrite Z.shiftl_shiftl).
  rewrite Z.land_spec, Z.lnot_spec, Z.lor_spec, E4, !testbit_BIT, negb_orb, andb_assoc by lia.
  do 2 f_equal. destruct (Z.testbit r 8); [|done].
  by rewrite Z.lor_spec, Z.land_spec, Z.lnot_spec, testbit_BIT by lia.
Qed.

(** The test for the last man looks at every CPU of the cluster. *)
Lemma last_man_bits n r :
  0 <= n ->
  (Z.land (Z.lor r (Z.shiftr r 4)) (all_mask n) =? all_mask n) = true <->
  forall k, 0 <= k < n -> Z.testbit r k || Z.testbit r (k + 4) = true.
Proof.
  intros Hn. rewrite Z.eqb_eq. split.
  - intros E k Hk. assert (Ht : Z.testbit (all_mask n) k = true) by (rewrite testbit_mask by lia; lia).
    rewrite <- E, Z.land_spec, Z.lor_spec, Z.shiftr_spec in Ht by lia. by apply andb_true_iff in Ht as [].
  - intros Hall. apply Z.bits_inj'. intros k Hk. rewrite Z.land_spec, Z.lor_spec, Z.shiftr_spec, testbit_mask by lia.
    destruct (Z.ltb_spec k n); [rewrite Hall by lia; done|apply andb_false_r].
Qed.

(** * Invariant *)

(** The CPU is on its way up, runs, or has not yet been taken off its use count. *)
Definition active_pc (p : mcpm_pc) : bool :=
  match p with
  | Off | OutSetCluster | OutCheckInbound | OutCheckCpu _ | OutAbort | OutUnlockCrit
  | Teardown | OutLeave | UnlockLocal | LocalFlush | SetCpuDown => false
  | _ => true
  end.
(** The last man, up to the point where it gives up [dcscb_lock]. *)
Definition last_pc (p : mcpm_pc) : bool :=
  match p with
  | OutSetCluster | OutCheckInbound | OutCheckCpu _ | OutAbort | OutUnlockCrit => true
  | _ => false
  end.

Definition cpu_held (r c : Z) : bool := Z.testbit r c || Z.testbit r (c + 4) || Z.testbit r 8.

(** ** What a step of the protocol does to the program counters *)

Lemma mpc_goto_eq c p s : mpc (goto c p s) c = p.
Proof. by rewrite mpc_goto, decide_True. Qed.
Lemma mpc_goto_ne c d p s : d <> c -> mpc (goto c p s) d = mpc s d.
Proof. intros. by rewrite mpc_goto, decide_False. Qed.

Ltac step_cases s c :=
  unfold mcpm_step, mcpm_entry_step, power_down_step, outbound_enter_step;
  destruct (mpc s c) eqn:Hp; try done; intros; repeat case_match; simplify_eq.

Lemma mcpm_step_other c d b s s' :
  mcpm_step (EvCpu c b) s = Some s' -> d <> c -> mpc s' d = mpc s d.
Proof. step_cases s c; try done; by rewrite mpc_goto_ne. Qed.

Lemma mcpm_step_pc c b s s' :
  mcpm_step (EvCpu c b) s = Some s' -> mpc s c <> Off -> mpc s c <> Decide ->
  active_pc (mpc s' c) = active_pc (mpc s c)
  /\ (last_pc (mpc s' c) = true -> last_pc (mpc s c) = true).
Proof.
  step_cases s c; rewrite ?mpc_goto_eq, ?Hp; try done. all: unfold check_next; by case_match.
Qed.

Lemma mcpm_step_index c b s s' i :
  mcpm_step (EvCpu c b) s = Some s' -> (forall j, mpc s c = OutCheckCpu j -> is_cpu j) ->
  mpc s' c = OutCheckCpu i -> is_cpu i.
Proof.
  assert (H0 : is_cpu 0) by (unfold is_cpu, cluster_cpus; set_solver).
  assert (Hn : forall j, is_cpu j -> check_next j = OutCheckCpu i -> is_cpu i).
  { unfold check_next, is_cpu, cluster_cpus, MAX_CPUS_PER_CLUSTER. intros j Hj.
    destruct (Z.ltb_spec (j + 1) 4); [|done]. intros [= <-].
    rewrite !elem_of_cons, elem_of_nil in *. lia. }
  step_cases s c; rewrite ?mpc_goto_eq, ?Hp in *; simplify_eq; eauto.
Qed.

(** When the outbound CPU backs out. *)
Lemma mcpm_step_abort c b s s' :
  mcpm_step (EvCpu c b) s = Some s' -> mpc s' c = OutAbort -> mpc s c <> OutAbort ->
  inbound s = INBOUND_COMING_UP
  \/ exists i, mpc s c = OutCheckCpu i /\ i <> c /\ cpus s i <> CPU_DOWN /\ cpus s i <> CPU_GOING_DOWN.
Proof.
  assert (Hn : forall i, check_next i <> OutAbort) by (intros i; unfold check_next; by case_match).
  step_cases s c; rewrite ?mpc_goto_eq, ?Hp in *; simplify_eq; auto; try (by destruct (Hn i)).
  all: right; exists i; split_and!; (done || lia || congruence).
Qed.

(** The register after a CPU that was not held is taken off. *)
Lemma rst_add_spec n c r :
  0 <= c < n -> n <= 4 -> cpu_held r c = false ->
  ((rst_add (all_mask n) c r).1 = true <-> forall d, 0 <= d < n -> d <> c -> cpu_held r d = true)
  /\ forall d, 0 <= d < n -> cpu_held (rst_add (all_mask n) c r).2 d = bool_decide (d = c) || cpu_held r d.
Proof.
  intros Hc Hn Hh. unfold cpu_held in Hh. rewrite !orb_false_iff in Hh. destruct Hh as [[_ _] H8].
  set (r1 := Z.lor r (BIT c)).
  assert (B1 : forall k, 0 <= k -> Z.testbit r1 k = Z.testbit r k || (k =? c)).
  { intros k Hk. unfold r1. by rewrite Z.lor_spec, testbit_BIT by lia. }
  assert (B2 : forall d, 0 <= d < n ->
    Z.testbit r1 d || Z.testbit r1 (d + 4) = bool_decide (d = c) || cpu_held r d).
  { intros d Hd. unfold cpu_held. rewrite !B1, H8 by lia.
    rewrite (proj2 (Z.eqb_neq (d + 4) c)) by lia. case_bool_decide; destruct (Z.eqb_spec d c); try lia;
      by destruct (Z.testbit r d), (Z.testbit r (d + 4)). }
  assert (Hl : (rst_add (all_mask n) c r).1 = true <-> forall d, 0 <= d < n -> d <> c -> cpu_held r d = true).
  { unfold rst_add. simpl. fold r1. rewrite last_man_bits by lia. split; intros Hx d Hd; specialize (Hx d Hd).
    - intros Hdc. rewrite B2, bool_decide_false in Hx by done. done.
    - rewrite B2 by done. case_bool_decide; simpl; auto. }
  split; [done|]. intros d Hd. destruct (rst_add (all_mask n) c r) as [l r2] eqn:E. unfold rst_add in E. fold r1 in E.
  injection E as El Er. rewrite El in Er. simpl in Hl |- *. unfold cpu_held at 1. destruct l; subst r2.
  - rewrite !Z.lor_spec, !testbit_BIT, Z.eqb_refl, !orb_true_r by lia. symmetry.
    case_bool_decide; [done|]. simpl. by apply Hl.
  - rewrite B2, (B1 8), H8, (proj2 (Z.eqb_neq 8 c)) by lia. apply orb_false_r.
Qed.

Section Invariant.

Context (nr_cpus : Z) (Hnr : 0 < nr_cpus <= MAX_CPUS_PER_CLUSTER).
Context (out_of_reset : Z -> Z -> bool).
(** A CPU does not run while [RST_HOLD] holds it, or its cluster, in reset. *)
Context (Hreset : forall r c, out_of_reset r c = true -> cpu_held r c = false).

Abbreviation has_cpu := (has_cpu nr_cpus).

Record dcscb_ok (s : dcscb) : Prop := {
  do_mc : mcpm_ok (mc s);
  do_count : forall c, has_cpu c -> 0 <= use_count s c <= 2;
  (* a CPU is held in reset exactly when nobody uses it *)
  do_held : forall c, has_cpu c -> cpu_held (rst_hold s) c = (use_count s c =? 0);
  do_active : forall c, has_cpu c -> active_pc (mpc (mc s) c) = true \/ skip_wfi s c = true ->
              use_count s c <> 0;
  (* while the last man decides, nobody uses the cluster *)
  do_last : forall c, has_cpu c -> last_pc (mpc (mc s) c) = true ->
            forall d, has_cpu d -> use_count s d = 0;
  do_absent : forall c, is_cpu c -> ~ has_cpu c -> mpc (mc s) c = Off;
  do_index : forall c i, has_cpu c -> mpc (mc s) c = OutCheckCpu i -> is_cpu i;
  do_abort : forall c, has_cpu c -> mpc (mc s) c <> OutAbort;
}.

Lemma has_is_cpu c : has_cpu c -> is_cpu c.
Proof.
  unfold Dcscb.has_cpu, is_cpu, cluster_cpus, MAX_CPUS_PER_CLUSTER in *. rewrite !elem_of_cons, elem_of_nil. lia.
Qed.

(** A CPU whose state byte, or the inbound flag, says it is coming up or up is in use. *)
Lemma live_in_use s d :
  dcscb_ok s -> is_cpu d -> active_pc (mpc (mc s) d) = true -> has_cpu d /\ use_count s d <> 0.
Proof.
  intros Hok Hd Ha. destruct (decide (has_cpu d)) as [Hh|Hh]; [split; [done|apply (do_active s Hok); auto]|].
  by rewrite (do_absent s Hok d Hd Hh) in Ha.
Qed.

(** The last man does not find a reason to back out. *)
Lemma last_man_alone s c :
  dcscb_ok s -> has_cpu c -> last_pc (mpc (mc s) c) = true ->
  inbound (mc s) = INBOUND_NOT_COMING_UP
  /\ forall d, is_cpu d -> d <> c -> mpc (mc s) d = Off
       \/ mpc (mc s) d = LocalFlush \/ mpc (mc s) d = SetCpuDown.
Proof.
  intros Hok Hc Hl. pose proof (do_mc s Hok) as Hm.
  assert (Hna : forall d, is_cpu d -> active_pc (mpc (mc s) d) = true -> False).
  { intros d Hd Ha. destruct (live_in_use s d Hok Hd Ha) as [Hh Hu]. by apply Hu, (do_last s Hok c). }
  split.
  - destruct (inbound (mc s)) eqn:Hi; [done|]. exfalso. apply (mo_inbound _ Hm) in Hi as (d & Hd & Id).
    apply (Hna d Hd). by destruct (mpc (mc s) d).
  - intros d Hd Hdc.
    assert (Hpc : has_pm (mpc (mc s) c) = true) by (by destruct (mpc (mc s) c)).
    assert (Hnp : has_pm (mpc (mc s) d) = true -> False).
    { intros Hpd. apply Hdc. pose proof (lo_pm _ (mo_locks _ Hm) c (has_is_cpu c Hc) Hpc) as E.
      rewrite (lo_pm _ (mo_locks _ Hm) d Hd Hpd) in E. by injection E. }
    assert (Hno : is_out (mpc (mc s) d) = true -> False).
    { intros Ho. apply Hdc, (out_alone (mc s)); try done; [apply Hm..|by apply has_is_cpu|by rewrite Hpc]. }
    specialize (Hna d Hd). destruct (mpc (mc s) d); auto; exfalso; auto.
Qed.

(** CPU [c] takes a step of the protocol, without touching the counts. *)
Lemma dcscb_ok_mc c b m s :
  dcscb_ok s -> has_cpu c -> mcpm_step (EvCpu c b) (mc s) = Some m ->
  (active_pc (mpc m c) = true -> use_count s c <> 0) ->
  (last_pc (mpc m c) = true -> forall d, has_cpu d -> use_count s d = 0) ->
  mpc m c <> OutAbort ->
  dcscb_ok (s <| mc := m |>).
Proof.
  intros Hok Hc E Ha Hl Hab. pose proof (fun d => mcpm_step_other c d b _ _ E) as Ho.
  destruct (mcpm_step_ok (EvCpu c b) (mc s) (do_mc s Hok) (has_is_cpu c Hc)) as (m' & E' & Hm). simplify_eq.
  split; simpl; try (by apply Hok); [done|..].
  - intros d Hd. destruct (decide (d = c)) as [->|Hdc]; [|rewrite Ho by done; by apply Hok].
    intros [?|?]; [auto|apply (do_active s Hok); auto].
  - intros d Hd. destruct (decide (d = c)) as [->|Hdc]; [done|rewrite Ho by done; by apply Hok].
  - intros d Hd Hh. rewrite Ho; [by apply Hok|]. by intros ->.
  - intros d i Hd. destruct (decide (d = c)) as [->|Hdc]; [|rewrite Ho by done; by apply Hok].
    apply (mcpm_step_index c b _ _ i E). intros j. by apply Hok.
  - intros d Hd. destruct (decide (d = c)) as [->|Hdc]; [done|rewrite Ho by done; by apply Hok].
Qed.

(** A step of the protocol other than waking up and the accounting. *)
Lemma protocol_step_ok c b s m :
  dcscb_ok s -> has_cpu c -> mpc (mc s) c <> Off -> mpc (mc s) c <> Decide ->
  mcpm_step (EvCpu c b) (mc s) = Some m -> dcscb_ok (s <| mc := m |>).
Proof.
  intros Hok Hc Hn1 Hn2 E. destruct (mcpm_step_pc c b _ _ E Hn1 Hn2) as [Ha Hl].
  apply (dcscb_ok_mc c b); try done.
  - rewrite Ha. intros Hx. apply (do_active s Hok); auto.
  - intros Hp%Hl. by apply (do_last s Hok c).
  - intros Hp. assert (Hlc : last_pc (mpc (mc s) c) = true) by (apply Hl; by rewrite Hp).
    destruct (last_man_alone s c Hok Hc Hlc) as [Hin Hds].
    destruct (mcpm_step_abort c b _ _ E Hp (do_abort s Hok c Hc)) as [Hx|(i & Ei & Hic & Hx1 & Hx2)];
      [by rewrite Hx in Hin|]. pose proof (do_index s Hok c i Hc Ei) as Hi.
    rewrite (lo_cpu _ (mo_locks _ (do_mc s Hok)) i Hi) in Hx1, Hx2.
    destruct (Hds i Hi Hic) as [Hpi|[Hpi|Hpi]]; by rewrite Hpi in *.
Qed.

(** A CPU that leaves WFI, or is let out of reset, is in use. *)
Lemma wake_step_ok c b s m :
  dcscb_ok s -> has_cpu c -> mpc (mc s) c = Off ->
  mcpm_step (EvCpu c (b && (skip_wfi s c || out_of_reset (rst_hold s) c))) (mc s) = Some m ->
  dcscb_ok (s <| mc := m |>).
Proof.
  intros Hok Hc Hp E. eapply dcscb_ok_mc; try done; unfold mcpm_step in E; rewrite Hp in E;
    destruct (b && _) eqn:Hb; injection E as <-; rewrite ?mpc_goto_eq, ?Hp; try done.
  apply andb_true_iff in Hb as [_ [Hb|Hb]%orb_true_iff]; [intros _; apply (do_active s Hok); auto|].
  apply Hreset in Hb. rewrite (do_held s Hok c Hc) in Hb. lia.
Qed.

(** ** The accounting *)

Lemma dcscb_account_ok c s :
  dcscb_ok s -> has_cpu c -> mpc (mc s) c = Decide ->
  exists last s1, dcscb_account (all_mask nr_cpus) c s = Some (last, s1) /\ mc s1 = mc s
    /\ (forall d, use_count s1 d = if decide (c = d) then use_count s c - 1 else use_count s d)
    /\ (forall d, has_cpu d -> cpu_held (rst_hold s1) d = (use_count s1 d =? 0))
    /\ (forall d, has_cpu d -> skip_wfi s1 d = true -> use_count s1 d <> 0)
    /\ (last = true <-> forall d, has_cpu d -> use_count s1 d = 0).
Proof.
  intros Hok Hc Hp. unfold dcscb_account.
  assert (Hu : use_count s c <> 0) by (apply (do_active s Hok); [done|left; by rewrite Hp]).
  pose proof (do_count s Hok c Hc) as Hr. pose proof Hc as Hc'. unfold Dcscb.has_cpu in Hc'.
  assert (Hh : cpu_held (rst_hold s) c = false) by (rewrite (do_held s Hok c Hc); lia).
  set (uc := <[c := use_count s c - 1]> (use_count s)).
  assert (Huc : forall d, uc d = if decide (c = d) then use_count s c - 1 else use_count s d).
  { intros d. unfold uc. case_decide; [subst; apply fn_lookup_insert|by apply fn_lookup_insert_ne]. }
  destruct (Z.eqb_spec (use_count s c - 1) 0) as [E0|E0].
  - destruct (rst_add_spec nr_cpus c (rst_hold s)) as [Hl Hd]; [done|apply Hnr|done|].
    change (rst_hold (s <| use_count := uc |>)) with (rst_hold s).
    destruct (rst_add (all_mask nr_cpus) c (rst_hold s)) as [last r]. do 2 eexists.
    split; [reflexivity|]. split; [done|]. simpl in *. split; [done|]. split_and!.
    + intros d Hhd. rewrite Hd, Huc by done. case_bool_decide; case_decide; try congruence; simpl;
        [subst; lia|by apply Hok].
    + intros d Hhd. rewrite Huc. destruct (decide (c = d)) as [<-|]; [by rewrite fn_lookup_insert|].
      rewrite fn_lookup_insert_ne by done. intros. apply (do_active s Hok); auto.
    + rewrite Hl. split; intros Hx d Hhd.
      * rewrite Huc. case_decide; [lia|]. specialize (Hx d Hhd ltac:(done)).
        rewrite (do_held s Hok d Hhd) in Hx. lia.
      * intros Hdc. specialize (Hx d Hhd). rewrite Huc, decide_False in Hx by done.
        rewrite (do_held s Hok d Hhd). lia.
  - rewrite (proj2 (Z.eqb_eq (use_count s c - 1) 1)) by lia. do 2 eexists. split; [reflexivity|].
    split; [done|]. cbn -[all_mask BIT]. split; [done|]. split_and!.
    + intros d Hhd. rewrite (do_held s Hok d Hhd), Huc. case_decide; [subst; lia|done].
    + intros d Hhd. rewrite Huc. destruct (decide (c = d)) as [<-|]; [done|].
      rewrite fn_lookup_insert_ne by done. intros. apply (do_active s Hok); auto.
    + split; [done|]. intros Hx. specialize (Hx c Hc). rewrite Huc, decide_True in Hx by done. done.
Qed.

Lemma account_step_ok c b s :
  dcscb_ok s -> has_cpu c -> mpc (mc s) c = Decide ->
  exists s', dcscb_step nr_cpus out_of_reset (DCpu c b) s = Some s' /\ dcscb_ok s'.
Proof.
  intros Hok Hc Hp. pose proof (has_is_cpu c Hc) as Hic. pose proof (do_mc s Hok) as Hm.
  pose proof (decide_cluster_up c (mc s) Hm Hic Hp) as Hup. unfold dcscb_step, __mcpm_cluster_state.
  rewrite Hp, Hup. destruct (dcscb_account_ok c s Hok Hc Hp) as (last & s1 & -> & Em & Hu & Hh & Hs & Hl).
  cbn [mbind option_bind]. destruct (mcpm_step_ok (EvCpu c last) (mc s) Hm Hic) as (m & E & Hm').
  rewrite Em, E. cbn. eexists; split; [reflexivity|].
  pose proof (fun d => mcpm_step_other c d last _ _ E) as Ho.
  assert (Ec : mpc m c = if last then OutSetCluster else UnlockLocal).
  { unfold mcpm_step, power_down_step, __mcpm_cluster_state in E. rewrite Hp, Hup in E. injection E as <-.
    by rewrite mpc_goto_eq. }
  assert (Hu0 : use_count s c <> 0) by (apply (do_active s Hok); [done|left; by rewrite Hp]).
  split; simpl; [done|..].
  - intros d Hd. rewrite Hu. pose proof (do_count s Hok d Hd). case_decide; [|done]. subst d.
    lia.
  - done.
  - intros d Hd [Ha|Ha]; [|auto]. destruct (decide (d = c)) as [->|Hdc]; [rewrite Ec in Ha; by destruct last|].
    rewrite Ho in Ha by done. rewrite Hu, decide_False by done. apply (do_active s Hok); auto.
  - intros d Hd Hx. destruct (decide (d = c)) as [->|Hdc]; [rewrite Ec in Hx; destruct last; [by apply Hl|done]|].
    rewrite Ho in Hx by done. pose proof (do_last s Hok d Hd Hx c Hc).
    done.
  - intros d Hd Hn. rewrite Ho; [by apply Hok|]. by intros ->.
  - intros d i Hd. destruct (decide (d = c)) as [->|Hdc]; [rewrite Ec; by destruct last|].
    rewrite Ho by done. by apply Hok.
  - intros d Hd. destruct (decide (d = c)) as [->|Hdc]; [rewrite Ec; by destruct last|].
    rewrite Ho by done. by apply Hok.
Qed.

(** ** [dcscb_power_up] *)

Lemma rst_release_held c r d :
  has_cpu c -> has_cpu d ->
  cpu_held (rst_release (all_mask nr_cpus) c r) d = negb (bool_decide (d = c)) && cpu_held r d.
Proof.
  unfold Dcscb.has_cpu, MAX_CPUS_PER_CLUSTER, cpu_held in *. intros Hc Hd.
  rewrite !rst_release_bit, !testbit_mask by lia.
  replace (d + 4 =? c) with false by lia. replace (8 =? c) with false by lia. replace (8 =? c + 4) with false by lia.
  replace (d =? c + 4) with false by lia. replace (d =? 8) with false by lia. replace (d + 4 =? 8) with false by lia.
  replace (d <? nr_cpus) with true by lia. replace (d + 4 =? c + 4) with (d =? c) by lia.
  replace (8 <? nr_cpus) with false by lia.
  case_bool_decide; destruct (Z.eqb_spec d c); try lia;
    by destruct (Z.testbit r 8), (Z.testbit r d), (Z.testbit r (d + 4)), (d + 4 <? nr_cpus).
Qed.

Lemma power_up_ok c s :
  dcscb_ok s -> has_cpu c -> use_count s c < 2 -> pm_lock (mc s) = None ->
  exists s', dcscb_power_up (all_mask nr_cpus) c s = Some (0, s') /\ mc s' = mc s /\ dcscb_ok s'.
Proof.
  intros Hok Hc Hu Hpm. pose proof Hc as Hc'. unfold Dcscb.has_cpu, MAX_CPUS_PER_CLUSTER in Hc', Hnr.
  pose proof (do_count s Hok c Hc) as Hr. unfold dcscb_power_up. rewrite (proj2 (Z.leb_gt 4 c)) by lia.
  set (uc := <[c := use_count s c + 1]> (use_count s)).
  assert (Huc : forall d, uc d = if decide (c = d) then use_count s c + 1 else use_count s d).
  { intros d. unfold uc. case_decide; [subst; apply fn_lookup_insert|by apply fn_lookup_insert_ne]. }
  assert (Hgen : forall r, (forall d, has_cpu d -> cpu_held r d = (uc d =? 0)) ->
    dcscb_ok (s <| use_count := uc |> <| rst_hold := r |>)).
  { intros r Hh. split; simpl; try apply Hok.
    - intros d Hd. rewrite Huc. pose proof (do_count s Hok d Hd). case_decide; lia.
    - done.
    - intros d Hd Hx. rewrite Huc. pose proof (do_active s Hok d Hd Hx). pose proof (do_count s Hok d Hd).
      case_decide; lia.
    - intros d Hd Hx. assert (Hp : has_pm (mpc (mc s) d) = true) by (by destruct (mpc (mc s) d)).
      by rewrite (lo_pm _ (mo_locks _ (do_mc s Hok)) d (has_is_cpu d Hd) Hp) in Hpm. }
  destruct (Z.eqb_spec (use_count s c + 1) 1) as [E|E].
  - eexists. split; [reflexivity|]. split; [done|]. apply Hgen. intros d Hd. cbn.
    rewrite rst_release_held, (do_held s Hok d Hd), Huc by done.
    case_bool_decide; case_decide; try congruence; simpl; [lia|done].
  - rewrite (proj2 (Z.eqb_eq (use_count s c + 1) 2)) by lia. eexists. split; [reflexivity|]. split; [done|].
    apply (Hgen (rst_hold s)). intros d Hd. rewrite (do_held s Hok d Hd), Huc. case_decide; [subst; lia|done].
Qed.

(** ** Executions *)

Lemma other_step_ok s m : dcscb_ok s -> mcpm_step EvOther (mc s) = Some m -> dcscb_ok (s <| mc := m |>).
Proof.
  intros Hok E. destruct (mcpm_step_ok EvOther (mc s) (do_mc s Hok) I) as (m' & E' & Hm). simplify_eq.
  assert (Ep : mpc m = mpc (mc s)) by (unfold mcpm_step in E; repeat case_match; by simplify_eq).
  split; simpl; rewrite ?Ep; try apply Hok. done.
Qed.

Lemma dcscb_step_ok e s :
  dcscb_ok s -> caller_ok nr_cpus e s ->
  exists s', dcscb_step nr_cpus out_of_reset e s = Some s' /\ dcscb_ok s'.
Proof.
  intros Hok Hcall. destruct e as [c|c b|]; simpl in Hcall.
  - simpl. destruct (pm_lock (mc s)) eqn:Hl; [by exists s|]. destruct Hcall as [Hc Hu].
    destruct (power_up_ok c s Hok Hc Hu Hl) as (s' & -> & _ & Hok'). by exists s'.
  - destruct (decide (mpc (mc s) c = Decide)) as [Hp|Hp]; [by apply account_step_ok|].
    assert (Hgen : forall b', exists m, mcpm_step (EvCpu c b') (mc s) = Some m).
    { intros b'. destruct (mcpm_step_ok (EvCpu c b') (mc s) (do_mc s Hok) (has_is_cpu c Hcall)) as (m & ? & _).
      by exists m. }
    destruct (decide (mpc (mc s) c = Off)) as [Ho|Ho].
    + destruct (Hgen (b && (skip_wfi s c || out_of_reset (rst_hold s) c))) as (m & E).
      unfold dcscb_step. rewrite Ho, E. eexists; split; [reflexivity|]. by eapply wake_step_ok.
    + destruct (Hgen b) as (m & E). exists (s <| mc := m |>). split; [|by eapply protocol_step_ok].
      unfold dcscb_step. rewrite E. by destruct (mpc (mc s) c).
  - simpl. eexists; split; [reflexivity|]. by apply other_step_ok.
Qed.

Lemma dcscb_step_refines e s s' :
  caller_ok nr_cpus e s -> dcscb_step nr_cpus out_of_reset e s = Some s' ->
  exists l, Forall event_ok l /\ mcpm_run l (mc s) = Some (mc s').
Proof.
  assert (H1 : forall ev s1 s2, event_ok ev -> lift s1 (mcpm_step ev (mc s)) = Some s2 ->
    exists l, Forall event_ok l /\ mcpm_run l (mc s) = Some (mc s2)).
  { intros ev s1 s2 He Hl. exists [ev]. split; [by constructor|]. unfold lift in Hl. simpl.
    destruct (mcpm_step ev (mc s)); simplify_eq/=. done. }
  intros Hcall. destruct e as [c|c b|]; simpl in Hcall; unfold dcscb_step; [|pose proof (has_is_cpu c Hcall) as Hc|].
  - intros E. exists []. split; [done|]. simpl. f_equal. destruct (pm_lock (mc s)); [by simplify_eq|].
    unfold dcscb_power_up in E. repeat case_match; simplify_eq/=; done.
  - destruct (mpc (mc s) c) eqn:Hp; try (by apply H1). unfold __mcpm_cluster_state.
    destruct (cluster (mc s)); try done.
    destruct (dcscb_account (all_mask nr_cpus) c s) as [[last s1]|] eqn:Ea; [|done]. cbn [mbind option_bind].
    assert (mc s1 = mc s) as ->; [|by apply H1].
    unfold dcscb_account in Ea. repeat case_match; by simplify_eq/=.
  - by apply H1.
Qed.

Lemma mcpm_run_app l k s : mcpm_run (l ++ k) s = (s' ← mcpm_run l s; mcpm_run k s').
Proof. revert s. induction l as [|e l IH]; intros s; [done|]. simpl. destruct (mcpm_step e s); [apply IH|done]. Qed.

Section Boot.

Context (booted : bool) (r : Z).
(** Out of reset at boot is what runs: CPU 0 of the boot cluster. *)
Context (Hboot : forall c, has_cpu c -> cpu_held r c = (use_count (dcscb_init booted r) c =? 0)).

Lemma dcscb_init_ok : dcscb_ok (dcscb_init booted r).
Proof.
  assert (H0 : forall c, use_count (dcscb_init booted r) c = if booted && bool_decide (c = 0) then 1 else 0).
  { intros c. simpl. destruct booted; [|done]. unfold dcscb_usage_count_init. simpl.
    case_bool_decide; [subst; apply fn_lookup_insert|by apply fn_lookup_insert_ne]. }
  assert (Hp : forall c, mpc (mc (dcscb_init booted r)) c = if booted && bool_decide (c = 0) then Running else Off).
  { intros c. simpl. destruct booted; [|done]. simpl.
    rewrite (bool_decide_ext (c ∈ [0]) (c = 0)) by apply list_elem_of_singleton. done. }
  split.
  - simpl. destruct booted; apply mcpm_init_ok.
  - intros c _. rewrite H0. case_match; lia.
  - apply Hboot.
  - intros c _. rewrite H0, Hp. intros [Hx|?]; [revert Hx; by destruct (booted && _)|done].
  - intros c _. rewrite Hp. by destruct (booted && _).
  - intros c _ Hn. rewrite Hp. case_bool_decide; [|by rewrite andb_false_r].
    destruct Hn. unfold Dcscb.has_cpu. lia.
  - intros c i _. rewrite Hp. by destruct (booted && _).
  - intros c _. rewrite Hp. by destruct (booted && _).
Qed.

Lemma reachable_ok s :
  dcscb_reachable nr_cpus out_of_reset booted r s ->
  dcscb_ok s
  /\ exists l, Forall event_ok l /\ mcpm_run l (mc (dcscb_init booted r)) = Some (mc s).
Proof.
  induction 1 as [|e s s' _ [Hok (l & Hl & Er)] Hcall E].
  - split; [apply dcscb_init_ok|]. by exists [].
  - destruct (dcscb_step_ok e s Hok Hcall) as (s1 & E1 & Hok1). rewrite E in E1. injection E1 as <-.
    split; [done|]. destruct (dcscb_step_refines e s s' Hcall E) as (k & Hk & Ek).
    exists (l ++ k). split; [by apply Forall_app|]. by rewrite mcpm_run_app, Er.
Qed.

End Boot.

(** ** The last man gets through *)

Abbreviation step := (dcscb_step nr_cpus out_of_reset).

Lemma protocol_step c b s :
  dcscb_ok s -> has_cpu c -> mpc (mc s) c <> Off -> mpc (mc s) c <> Decide ->
  exists m, mcpm_step (EvCpu c b) (mc s) = Some m /\ step (DCpu c b) s = Some (s <| mc := m |>)
    /\ dcscb_ok (s <| mc := m |>).
Proof.
  intros Hok Hc H1 H2.
  destruct (mcpm_step_ok (EvCpu c b) (mc s) (do_mc s Hok) (has_is_cpu c Hc)) as (m & E & _).
  exists m. split; [done|]. split; [|by eapply protocol_step_ok]. unfold dcscb_step. rewrite E.
  by destruct (mpc (mc s) c).
Qed.

(** The steps a CPU of the dying cluster has left: the checks of the last man, and what the
    others do to flush their own caches. *)
Definition steps_left (p : mcpm_pc) : nat :=
  match p with
  | OutSetCluster => 7
  | OutCheckInbound => 6
  | OutCheckCpu i => 1 + Z.to_nat (MAX_CPUS_PER_CLUSTER - i)
  | OutUnlockCrit => 1
  | LocalFlush => 2
  | SetCpuDown => 1
  | _ => 0
  end.
Definition work_left (s : dcscb) : nat :=
  sum_list (map (fun d => steps_left (mpc (mc s) d)) cluster_cpus).

(** [d] gets on with its next step: it flushes its cache, or it is the last man [c] and has
    nobody to wait for. *)
Definition advances (c d : Z) (s : dcscb) : Prop :=
  if decide (d = c) then forall x, is_cpu x -> x <> c -> mpc (mc s) x = Off
  else mpc (mc s) d <> Off.

(** A step of the last man: it gets nearer, or waits. *)
Lemma last_man_step s c b m :
  dcscb_ok s -> has_cpu c -> last_pc (mpc (mc s) c) = true -> mcpm_step (EvCpu c b) (mc s) = Some m ->
  mpc m c = Teardown
  \/ last_pc (mpc m c) = true /\ (steps_left (mpc m c) <= steps_left (mpc (mc s) c))%nat
     /\ (advances c c s -> (steps_left (mpc m c) < steps_left (mpc (mc s) c))%nat).
Proof.
  intros Hok Hc Hl E. pose proof (do_abort _ Hok c Hc) as Hna.
  destruct (last_man_alone s c Hok Hc Hl) as [Hin Hall]. unfold advances. rewrite decide_True by done.
  unfold mcpm_step, power_down_step, outbound_enter_step in E.
  destruct (mpc (mc s) c) eqn:Hp; try done.
  - injection E as <-. rewrite mpc_goto_eq. right. simpl. split; [done|lia].
  - injection E as <-. rewrite Hin, mpc_goto_eq. right. split; [done|]. vm_compute. lia.
  - pose proof (do_index s Hok c i Hc Hp) as Hi.
    assert (Hn : last_pc (check_next i) = true
                 /\ (steps_left (check_next i) < steps_left (OutCheckCpu i))%nat).
    { apply is_cpu_range in Hi. unfold check_next.
      destruct (Z.ltb_spec (i + 1) MAX_CPUS_PER_CLUSTER); (split; [done|]); simpl; lia. }
    destruct (Z.eqb_spec i c) as [->|Hic].
    { injection E as <-. rewrite mpc_goto_eq. right. naive_solver lia. }
    rewrite (lo_cpu _ (mo_locks _ (do_mc s Hok)) i Hi) in E.
    destruct (Hall i Hi Hic) as [Hpi|[Hpi|Hpi]]; rewrite Hpi in E; simpl in E; injection E as <-;
      rewrite ?mpc_goto_eq, ?Hp; right; (split; [naive_solver|]); (split; [naive_solver lia|]);
      intros Hadv; [naive_solver|..]; by rewrite (Hadv i Hi Hic) in Hpi.
  - injection E as <-. rewrite mpc_goto_eq. by left.
Qed.

(** While [c] is the last man: what a step does to the program counter of [x]. *)
Record keeps_last (c : Z) (e : dcscb_event) (s s' : dcscb) : Prop := {
  kl_last : last_pc (mpc (mc s') c) = true;
  kl_other : forall x, (forall b, e <> DCpu x b) -> mpc (mc s') x = mpc (mc s) x;
  kl_down : forall x, is_cpu x -> (steps_left (mpc (mc s') x) <= steps_left (mpc (mc s) x))%nat;
  kl_off : forall x, is_cpu x -> x <> c -> mpc (mc s) x = Off -> mpc (mc s') x = Off;
  kl_adv : forall d b, e = DCpu d b -> advances c d s ->
           (steps_left (mpc (mc s') d) < steps_left (mpc (mc s) d))%nat;
}.

Lemma keeps_last_same c e s s' :
  (forall d b, e <> DCpu d b) -> mpc (mc s') = mpc (mc s) -> last_pc (mpc (mc s) c) = true ->
  keeps_last c e s s'.
Proof. intros He Em Hl. split; rewrite ?Em; try done. intros d b Hd. by destruct (He d b). Qed.

Lemma dcscb_step_pc d b s s' :
  step (DCpu d b) s = Some s' -> exists b' m, mcpm_step (EvCpu d b') (mc s) = Some m /\ mc s' = m.
Proof.
  unfold dcscb_step, lift. intros E. destruct (mpc (mc s) d) eqn:Hp.
  all: try (destruct (mcpm_step _ _) eqn:Em; simplify_eq/=; eauto; fail).
  destruct (__mcpm_cluster_state (mc s)); try done.
  destruct (dcscb_account _ d s) as [[last s1]|] eqn:Ea; [|done]. cbn [mbind option_bind] in E.
  assert (Es : mc s1 = mc s) by (unfold dcscb_account in Ea; repeat case_match; by simplify_eq/=).
  rewrite Es in E. destruct (mcpm_step (EvCpu d last) (mc s)) eqn:Em; simplify_eq/=; eauto.
Qed.

(** Nothing takes the role from the last man before it has finished. *)
Lemma last_step c e s :
  dcscb_ok s -> has_cpu c -> last_pc (mpc (mc s) c) = true -> caller_ok nr_cpus e s ->
  exists s', step e s = Some s' /\ dcscb_ok s' /\ (mpc (mc s') c = Teardown \/ keeps_last c e s s').
Proof.
  intros Hok Hc Hl Hcall. destruct (dcscb_step_ok e s Hok Hcall) as (s' & E & Hok').
  exists s'. split; [done|]. split; [done|]. destruct e as [d|d b|].
  - right. apply keeps_last_same; [done| |done]. simpl in E.
    destruct (pm_lock (mc s)); [by simplify_eq|]. unfold dcscb_power_up in E.
    repeat case_match; by simplify_eq/=.
  - destruct (dcscb_step_pc d b s s' E) as (b' & m & Em & Es'). simpl in Hcall.
    assert (Ho : forall x, x <> d -> mpc (mc s') x = mpc (mc s) x)
      by (intros x; rewrite Es'; by apply (mcpm_step_other d x b')).
    destruct (decide (d = c)) as [->|Hdc].
    + destruct (last_man_step s c b' m Hok Hc Hl Em) as [Ht|(Hl' & Hle & Hadv)]; rewrite <- Es' in *;
        [by left|right]. split; [done|intros x Hx; apply Ho; naive_solver| |intros x _ ? ?; by rewrite Ho|].
      * intros x _. destruct (decide (x = c)) as [->|]; [done|by rewrite Ho].
      * intros ? ? [= <- _]. done.
    + right. assert (Hl' : last_pc (mpc (mc s') c) = true) by (by rewrite Ho by congruence).
      pose proof (has_is_cpu d Hcall) as Hd.
      destruct (last_man_alone s c Hok Hc Hl) as [_ Ha]. destruct (last_man_alone s' c Hok' Hc Hl') as [_ Ha'].
      assert (Hpc : (mpc (mc s) d = Off /\ mpc (mc s') d = Off)
                    \/ (mpc (mc s) d <> Off
                        /\ (steps_left (mpc (mc s') d) < steps_left (mpc (mc s) d))%nat)).
      { specialize (Ha' d Hd Hdc). rewrite Es' in *. unfold mcpm_step, power_down_step in Em.
        destruct (Ha d Hd Hdc) as [Hp|[Hp|Hp]]; rewrite Hp in Em; injection Em as <-;
          [left; split; [done|]|right; rewrite mpc_goto_eq, Hp; simpl; split; [done|lia]..].
        destruct b'; [|done]. rewrite mpc_goto_eq in Ha'. naive_solver. }
      split; [done|intros x Hx; apply Ho; naive_solver|..].
      * intros x _. destruct (decide (x = d)) as [->|]; [|by rewrite Ho].
        destruct Hpc as [[-> ->]|[_ ?]]; lia.
      * intros x _ Hxc Hx. destruct (decide (x = d)) as [->|]; [naive_solver|by rewrite Ho].
      * intros ? ? [= <- _]. unfold advances. rewrite decide_False by done. naive_solver.
  - right. simpl in E. unfold lift in E. simpl in E. injection E as <-.
    apply keeps_last_same; [done| |done]. simpl. by repeat case_match.
Qed.

(** A schedule whose events are all allowed when they come. *)
Fixpoint legal (l : list dcscb_event) (s : dcscb) : Prop :=
  match l with
  | [] => True
  | e :: l => caller_ok nr_cpus e s /\ (forall s', step e s = Some s' -> legal l s')
  end.

(** In this schedule [c] reaches the teardown; up to there nothing faults and [c] stays the
    last man. *)
Fixpoint tears_down (c : Z) (l : list dcscb_event) (s : dcscb) : Prop :=
  mpc (mc s) c = Teardown
  \/ last_pc (mpc (mc s) c) = true
     /\ match l with
        | [] => False
        | e :: l => exists s', step e s = Some s' /\ tears_down c l s'
        end.

Lemma tears_down_now c l s : mpc (mc s) c = Teardown -> tears_down c l s.
Proof. destruct l; by left. Qed.

Lemma work_le s s' :
  (forall x, is_cpu x -> (steps_left (mpc (mc s') x) <= steps_left (mpc (mc s) x))%nat) ->
  (work_left s' <= work_left s)%nat.
Proof.
  unfold work_left, is_cpu. generalize cluster_cpus as l. induction l as [|x l IH]; intros Hle; simpl; [lia|].
  pose proof (Hle x ltac:(set_solver)). specialize (IH ltac:(set_solver)). lia.
Qed.

Lemma work_lt s s' d :
  (forall x, is_cpu x -> (steps_left (mpc (mc s') x) <= steps_left (mpc (mc s) x))%nat) ->
  is_cpu d -> (steps_left (mpc (mc s') d) < steps_left (mpc (mc s) d))%nat ->
  (work_left s' < work_left s)%nat.
Proof.
  unfold work_left, is_cpu. generalize cluster_cpus as l. induction l as [|x l IH]; intros Hle Hd Hlt; simpl; [set_solver|].
  pose proof (Hle x ltac:(set_solver)). destruct (decide (x = d)) as [->|].
  - assert (sum_list (map (fun d => steps_left (mpc (mc s') d)) l)
            <= sum_list (map (fun d => steps_left (mpc (mc s) d)) l))%nat; [|lia].
    assert (Hl : forall x, x ∈ l -> (steps_left (mpc (mc s') x) <= steps_left (mpc (mc s) x))%nat)
      by set_solver. clear -Hl. induction l as [|y l IH]; simpl; [lia|].
    pose proof (Hl y ltac:(set_solver)). specialize (IH ltac:(set_solver)). lia.
  - specialize (IH ltac:(set_solver) ltac:(set_solver) Hlt). lia.
Qed.

(** [c] is the last man in [s], [n] steps or less from the end. *)
Record last_within (c : Z) (n : nat) (s : dcscb) : Prop := {
  lw_ok : dcscb_ok s;
  lw_last : last_pc (mpc (mc s) c) = true;
  lw_work : (work_left s <= n)%nat;
}.

(** After the part [l] of a schedule, before its rest [k]. *)
Definition gets_to (c : Z) (n : nat) (l k : list dcscb_event) (s : dcscb) : Prop :=
  tears_down c (l ++ k) s
  \/ exists s', last_within c n s' /\ legal k s' /\ (tears_down c k s' -> tears_down c (l ++ k) s).

Lemma gets_to_cons c n e l k s s' :
  last_pc (mpc (mc s) c) = true -> step e s = Some s' -> gets_to c n l k s' -> gets_to c n (e :: l) k s.
Proof.
  intros Hl E [Ht|(s2 & H1 & H2 & H3)]; [left|right; exists s2; split; [done|]; split; [done|]; intros Hk];
    (right; split; [done|]; exists s'; auto).
Qed.

(** Any part of a schedule leaves the last man no farther from the end. *)
Lemma last_man_keeps c n l k s :
  has_cpu c -> last_within c n s -> legal (l ++ k) s -> gets_to c n l k s.
Proof.
  intros Hc. revert s. induction l as [|e l IH]; intros s [Hok Hl Hw] Hleg.
  { right. by exists s. }
  destruct Hleg as [Hcall Hleg]. destruct (last_step c e s Hok Hc Hl Hcall) as (s' & E & Hok' & H).
  apply (gets_to_cons c n e l k s s'); [done..|]. destruct H as [Ht|K].
  - left. by apply tears_down_now.
  - apply IH; [|by apply Hleg]. split; [done|apply K|]. pose proof (work_le s s' (kl_down _ _ _ _ K)). lia.
Qed.

(** A part in which a CPU that can get on gets a step brings it nearer. *)
Lemma last_man_nearer c n d b l k s :
  has_cpu c -> has_cpu d -> last_within c (S n) s -> DCpu d b ∈ l -> advances c d s -> legal (l ++ k) s ->
  gets_to c n l k s.
Proof.
  intros Hc Hd. revert s. induction l as [|e l IH]; intros s [Hok Hl Hw] Hin Hadv Hleg; [set_solver|].
  destruct Hleg as [Hcall Hleg]. destruct (last_step c e s Hok Hc Hl Hcall) as (s' & E & Hok' & H).
  apply (gets_to_cons c n e l k s s'); [done..|]. destruct H as [Ht|K]; [left; by apply tears_down_now|].
  assert (Hdec : (exists b', e = DCpu d b') \/ forall b', e <> DCpu d b').
  { destruct e as [|x b'|]; [by right| |by right].
    destruct (decide (x = d)) as [->|]; [left; by exists b'|right; congruence]. }
  destruct Hdec as [[b' He]|Hne].
  - apply last_man_keeps; [done| |by apply Hleg]. split; [done|apply K|].
    pose proof (work_lt s s' d (kl_down _ _ _ _ K) (has_is_cpu d Hd) (kl_adv _ _ _ _ K d b' He Hadv)). lia.
  - apply IH; [|by apply elem_of_cons in Hin as [Hin|]; [destruct (Hne b)|]| |by apply Hleg].
    + split; [done|apply K|]. pose proof (work_le s s' (kl_down _ _ _ _ K)). lia.
    + unfold advances in *. case_decide; [intros x Hx Hxc; by apply (kl_off _ _ _ _ K), Hadv|].
      by rewrite (kl_other _ _ _ _ K).
Qed.

(** Somebody can always get on. *)
Lemma someone_advances c s :
  dcscb_ok s -> has_cpu c -> exists d, has_cpu d /\ advances c d s.
Proof.
  intros Hok Hc. unfold advances.
  destruct (decide (Exists (fun x => x <> c /\ mpc (mc s) x <> Off) cluster_cpus)) as [He|Hn].
  - apply Exists_exists in He as (x & Hx & Hxc & Ho). exists x. rewrite decide_False by done. split; [|done].
    destruct (decide (has_cpu x)) as [|Hh]; [done|]. by destruct Ho; apply (do_absent s Hok).
  - exists c. rewrite decide_True by done. split; [done|]. intros x Hx Hxc.
    destruct (decide (mpc (mc s) x = Off)); [done|]. destruct Hn. apply Exists_exists. eauto.
Qed.

Definition fair_round (l : list dcscb_event) : Prop := forall d, has_cpu d -> exists b, DCpu d b ∈ l.

Lemma last_man_live c rounds s :
  has_cpu c -> last_within c (length rounds) s -> Forall fair_round rounds -> legal (concat rounds) s ->
  tears_down c (concat rounds) s.
Proof.
  intros Hc Hw Hf. revert s Hw. induction Hf as [|l rounds Hl Hf IH]; intros s Hw Hleg; cbn [concat].
  - exfalso. destruct Hw as [Hok Hp Hw]. cbn [length] in Hw.
    assert (steps_left (mpc (mc s) c) <= work_left s)%nat.
    { pose proof (has_is_cpu c Hc) as Hx. revert Hx. unfold work_left, is_cpu. generalize cluster_cpus as l.
      induction l as [|x l IHl]; intros Hx; [set_solver|]. simpl. apply elem_of_cons in Hx as [->|Hx]; [lia|].
      specialize (IHl Hx). lia. }
    pose proof (do_abort s Hok c Hc). destruct (mpc (mc s) c); try done; simpl in *; lia.
  - destruct (someone_advances c s (lw_ok _ _ _ Hw) Hc) as (d & Hd & Hadv). destruct (Hl d Hd) as [b Hin].
    destruct (last_man_nearer c (length rounds) d b l (concat rounds) s) as [?|(s' & H1 & H2 & H3)];
      auto.
Qed.

Lemma last_man_work c s :
  dcscb_ok s -> has_cpu c -> last_pc (mpc (mc s) c) = true -> (work_left s <= 13)%nat.
Proof.
  intros Hok Hc Hl. destruct (last_man_alone s c Hok Hc Hl) as [_ Hall].
  assert (Hx : forall x, is_cpu x -> (steps_left (mpc (mc s) x) <= if decide (x = c) then 7 else 2)%nat).
  { intros x Hx. case_decide as Hxc; [subst x|by destruct (Hall x Hx Hxc) as [E|[E|E]]; rewrite E; simpl; lia].
    destruct (mpc (mc s) c) eqn:Hp; simpl; try lia.
    pose proof (is_cpu_range _ (do_index s Hok c _ Hc Hp)). unfold MAX_CPUS_PER_CLUSTER in *. lia. }
  assert (Hin : forall x, x ∈ [0; 1; 2; 3] -> is_cpu x) by done. unfold work_left, cluster_cpus. simpl.
  pose proof (Hx 0 (Hin 0 ltac:(set_solver))). pose proof (Hx 1 (Hin 1 ltac:(set_solver))).
  pose proof (Hx 2 (Hin 2 ltac:(set_solver))). pose proof (Hx 3 (Hin 3 ltac:(set_solver))).
  repeat case_decide; lia.
Qed.
End Invariant.

(** The facts every reachable state of the cluster has. *)
Record dcscb_safe_state (nr_cpus : Z) (s : dcscb) : Prop := {
  (* the protocol's guarantees *)
  ds_mcpm : mcpm_safe_state (mc s);
  (* a CPU is held in reset exactly while nobody uses it *)
  ds_held : forall c, has_cpu nr_cpus c -> cpu_held (rst_hold s) c = (use_count s c =? 0);
  ds_count : forall c, has_cpu nr_cpus c -> 0 <= use_count s c <= 2;
  (* the last man is never alone by mistake: nobody uses the cluster it takes down *)
  ds_last : forall c, has_cpu nr_cpus c -> last_pc (mpc (mc s) c) = true ->
            forall d, has_cpu nr_cpus d -> use_count s d = 0;
  (* it does not back out *)
  ds_abort : forall c, has_cpu nr_cpus c -> mpc (mc s) c <> OutAbort;
}.

(** C14. The DCSCB back end implements the cluster protocol.  In every state that
    [dcscb_power_up] and the CPUs' own steps lead to, no [BUG()] or [BUG_ON()] is
    reached by the next step as long as callers do not request a CPU more than once
    ahead; the protocol's part of the state is one the protocol itself reaches, so it
    has the protocol's guarantees; a CPU is held in reset exactly when its use count is
    zero; and a last man is declared only when no CPU of the cluster is in use, so it
    never backs out. *)
Theorem dcscb_refines_mcpm nr_cpus out_of_reset booted r s :
  0 < nr_cpus <= MAX_CPUS_PER_CLUSTER ->
  (forall r c, out_of_reset r c = true -> cpu_held r c = false) ->
  (forall c, has_cpu nr_cpus c -> cpu_held r c = (use_count (dcscb_init booted r) c =? 0)) ->
  dcscb_reachable nr_cpus out_of_reset booted r s ->
  (forall e, caller_ok nr_cpus e s -> is_Some (dcscb_step nr_cpus out_of_reset e s))
  /\ (exists l, Forall event_ok l /\ mcpm_run l (mc (dcscb_init booted r)) = Some (mc s))
  /\ dcscb_safe_state nr_cpus s.
Proof.
  intros Hn Hr Hb Hs. destruct (reachable_ok nr_cpus Hn out_of_reset Hr booted r Hb s Hs) as [Hok Hrun].
  split; [|split; [done|]].
  - intros e He. destruct (dcscb_step_ok nr_cpus Hn out_of_reset Hr e s Hok He) as (s' & E & _). by exists s'.
  - split; [apply mcpm_ok_safe|..]; apply Hok.
Qed.


(** A cluster of two, booted on CPU 0, with a reset controller that lets out every CPU
    not held.  CPU 1 is powered up and boots; then both are taken down. *)
Definition boot_reset (r c : Z) : bool := negb (cpu_held r c).
Definition down_both : list dcscb_event :=
  DPowerUp 1 :: repeat (DCpu 1 true) 15 ++ repeat (DCpu 1 true) 3 ++ repeat (DCpu 0 true) 3
  ++ [DCpu 1 true; DCpu 0 true; DCpu 0 true; DCpu 0 true].

Definition caller_okb (nr_cpus : Z) (e : dcscb_event) (s : dcscb) : bool :=
  match e with
  | DPowerUp cpu => (0 <=? cpu) && (cpu <? nr_cpus) && (use_count s cpu <? 2)
  | DCpu cpu _ => (0 <=? cpu) && (cpu <? nr_cpus)
  | DOther => true
  end.

(** A schedule whose events are all allowed leads to a reachable state. *)
Fixpoint sched_ok (nr_cpus : Z) (out_of_reset : Z -> Z -> bool) (l : list dcscb_event) (s : dcscb) : bool :=
  match l with
  | [] => true
  | e :: l => caller_okb nr_cpus e s
              && match dcscb_step nr_cpus out_of_reset e s with
                 | Some s' => sched_ok nr_cpus out_of_reset l s'
                 | None => false
                 end
  end.

Lemma sched_legal nr_cpus out_of_reset l s :
  sched_ok nr_cpus out_of_reset l s = true -> legal nr_cpus out_of_reset l s.
Proof.
  revert s. induction l as [|e l IH]; intros s; cbn [sched_ok legal]; [done|].
  intros [Hc Hl]%andb_true_iff. split; [destruct e; simpl in *; unfold has_cpu; lia|].
  intros s' E. rewrite E in Hl. by apply IH.
Qed.

Lemma reachable_run nr_cpus out_of_reset booted r l s s' :
  dcscb_reachable nr_cpus out_of_reset booted r s -> sched_ok nr_cpus out_of_reset l s = true ->
  dcscb_run nr_cpus out_of_reset l s = Some s' -> dcscb_reachable nr_cpus out_of_reset booted r s'.
Proof.
  revert s. induction l as [|e l IH]; intros s Hs; cbn [sched_ok dcscb_run]; [by intros _ [= <-]|].
  destruct (dcscb_step nr_cpus out_of_reset e s) as [s1|] eqn:E; [|by rewrite andb_false_r].
  intros [Hc Hl]%andb_true_iff. apply IH; [|done]. apply (reach_step _ _ _ _ e s); [done| |done].
  destruct e; simpl in *; unfold has_cpu; lia.
Qed.

Definition down_start : dcscb := dcscb_init true 2.
Definition down_state : dcscb :=
  match dcscb_run 2 boot_reset down_both down_start with Some s => s | None => down_start end.

Lemma down_reachable : dcscb_reachable 2 boot_reset true 2 down_state.
Proof.
  apply (reachable_run 2 boot_reset true 2 down_both down_start); [apply reach_init|by vm_compute|].
  unfold down_state. destruct (dcscb_run 2 boot_reset down_both down_start) eqn:E; [done|].
  assert (H : match dcscb_run 2 boot_reset down_both down_start with Some _ => true | None => false end = true)
    by (by vm_compute). by rewrite E in H.
Qed.

Lemma boot_reset_ok r c : boot_reset r c = true -> cpu_held r c = false.
Proof. apply negb_true_iff. Qed.

Lemma down_start_held c : has_cpu 2 c -> cpu_held 2 c = (use_count (dcscb_init true 2) c =? 0).
Proof. unfold has_cpu. intros Hc. assert (c = 0 \/ c = 1) as [-> | ->] by lia; by vm_compute. Qed.

Lemma dcscb_refines_mcpm_witness :
  (forall e, caller_ok 2 e down_state -> is_Some (dcscb_step 2 boot_reset e down_state))
  /\ (exists l, Forall event_ok l /\ mcpm_run l (mc (dcscb_init true 2)) = Some (mc down_state))
  /\ dcscb_safe_state 2 down_state.
Proof.
  apply (dcscb_refines_mcpm 2 boot_reset true 2 down_state);
    [by vm_compute|exact boot_reset_ok|exact down_start_held|exact down_reachable].
Defined.

(** The last man, CPU 0, spins while CPU 1 takes itself down; a third party asks for CPU 1
    and tries to take the lock. *)
Definition down_rounds : list (list dcscb_event) :=
  repeat [DCpu 0 true; DCpu 0 false; DPowerUp 1; DOther; DCpu 1 true] 3
  ++ repeat [DCpu 1 false; DCpu 0 true] 10.

Lemma down_legal : legal 2 boot_reset (concat down_rounds) down_state.
Proof. apply (sched_legal 2 boot_reset). by vm_compute. Qed.

