(* ===== verification/Tc2.v ===== *)
(** The TC2 back end of multi-cluster power management
    ([arch/arm/mach-vexpress/tc2_pm.c] and [tc2_pm_setup.S]), for one cluster: use counts and the registers of
    the power controller, on top of the cluster protocol of [Mcpm].

    The counts and the registers are only touched under [tc2_pm_lock]; [tc2_pm_power_up],
    [tc2_pm_powered_up] and the part of [tc2_pm_down] between taking the lock and calling
    [__mcpm_outbound_enter_critical] are single steps.  Unlike with [Dcscb] an interrupt may
    wake a CPU that nobody has requested: it runs with a use count of zero until it calls
    [tc2_pm_powered_up], and may make a last man back out. *)

From S2P Require Import Prelude Vlock Mcpm Dcscb.

Definition TC2_MAX_CPUS : Z := 3.

(** The address in a CPU's resume register. *)
Inductive resume_reg := NoResume | McpmEntryPoint | Tc2Resume.

(** The state of a cluster: the protocol's, [tc2_pm_use_count[.][cluster]], the registers of
    the power controller (the global wake-up interrupt as this cluster has left it), the
    variables of each CPU's call of [tc2_pm_down], and whether a CPU has called
    [tc2_pm_powered_up] since it was last woken. *)
Record tc2 := mk_tc2 {
  tmc : mcpm;
  tc2_pm_use_count : Z -> Z;
  spc_powerdown : bool;
  spc_global_wakeup : bool;
  spc_wakeup_irq : Z -> bool;
  spc_resume : Z -> resume_reg;
  residency : Z -> Z;
  last_man : Z -> bool;
  t_skip_wfi : Z -> bool;
  reported : Z -> bool;
}.
#[export] Instance eta_tc2 : Eta tc2 := fun r =>
  {| tmc := tmc r; tc2_pm_use_count := tc2_pm_use_count r; spc_powerdown := spc_powerdown r;
     spc_global_wakeup := spc_global_wakeup r; spc_wakeup_irq := spc_wakeup_irq r; spc_resume := spc_resume r;
     residency := residency r; last_man := last_man r; t_skip_wfi := t_skip_wfi r; reported := reported r |}.

(** No CPU of the cluster is in use. *)
Definition tc2_unused (s : tc2) : bool :=
  (tc2_pm_use_count s 0 =? 0) && (tc2_pm_use_count s 1 =? 0) && (tc2_pm_use_count s 2 =? 0).

(** [tc2_pm_power_up] with [tc2_pm_lock] taken, [nr_cpus] being
    [vexpress_spc_get_nb_cpus(cluster)]; [None] is [BUG()]. *)
Definition tc2_pm_power_up (nr_cpus cpu : Z) (s : tc2) : option (Z * tc2) :=
  if nr_cpus <=? cpu then Some (- EINVAL, s) else
  let s := if tc2_unused s then s <| spc_powerdown := false |> else s in
  let n := tc2_pm_use_count s cpu + 1 in
  let s := s <| tc2_pm_use_count := <[cpu := n]> (tc2_pm_use_count s) |> in
  if n =? 1 then
    Some (0, s <| spc_resume := <[cpu := McpmEntryPoint]> (spc_resume s) |>
               <| spc_wakeup_irq := <[cpu := true]> (spc_wakeup_irq s) |>)
  else if n =? 2 then Some (0, s)
  else None.

(** The accounting of [tc2_pm_down]. *)
Definition tc2_account (cpu : Z) (s : tc2) : option tc2 :=
  let n := tc2_pm_use_count s cpu - 1 in
  let s := s <| tc2_pm_use_count := <[cpu := n]> (tc2_pm_use_count s) |> in
  if n =? 0 then
    let s := s <| spc_wakeup_irq := <[cpu := true]> (spc_wakeup_irq s) |>
               <| t_skip_wfi := <[cpu := false]> (t_skip_wfi s) |> in
    if tc2_unused s && ((residency s cpu =? 0) || (5000 <? residency s cpu)) then
      Some (s <| spc_powerdown := true |> <| spc_global_wakeup := true |>
              <| last_man := <[cpu := true]> (last_man s) |>)
    else Some (s <| last_man := <[cpu := false]> (last_man s) |>)
  else if n =? 1 then
    Some (s <| t_skip_wfi := <[cpu := true]> (t_skip_wfi s) |> <| last_man := <[cpu := false]> (last_man s) |>)
  else None.

(** "If last man then undo any setup done previously." *)
Definition tc2_undo (cpu : Z) (s : tc2) : tc2 :=
  if last_man s cpu then s <| spc_powerdown := false |> <| spc_global_wakeup := false |> else s.

(** The calls that take a CPU down: [tc2_pm_power_down], or [tc2_pm_suspend] with the
    residency expected. *)
Definition tc2_pm_suspend (cpu : Z) (how : option Z) (s : tc2) : tc2 :=
  match how with
  | None => s <| residency := <[cpu := 0]> (residency s) |>
  | Some r => s <| spc_resume := <[cpu := Tc2Resume]> (spc_resume s) |> <| residency := <[cpu := r]> (residency s) |>
  end.

Definition tc2_pm_powered_up (cpu : Z) (s : tc2) : tc2 :=
  let s := if tc2_unused s then s <| spc_powerdown := false |> <| spc_global_wakeup := false |> else s in
  let s := if tc2_pm_use_count s cpu =? 0
           then s <| tc2_pm_use_count := <[cpu := 1]> (tc2_pm_use_count s) |> else s in
  s <| spc_wakeup_irq := <[cpu := false]> (spc_wakeup_irq s) |>
    <| spc_resume := <[cpu := NoResume]> (spc_resume s) |>
    <| reported := <[cpu := true]> (reported s) |>.

(** [tc2_pm_power_up_setup] at the level of a CPU: it clears its own resume register. *)
Definition tc2_pm_power_up_setup (cpu : Z) (s : tc2) : tc2 :=
  s <| spc_resume := <[cpu := NoResume]> (spc_resume s) |>.

Definition tc2_pm_usage_count_init (cpu : Z) (use_count : Z -> Z) : Z -> Z := <[cpu := 1]> use_count.

Section Tc2.

(** The CPUs of the cluster. *)
Variable nr_cpus : Z.

Inductive tc2_event :=
| TPowerUp (cpu : Z)                           (* some running CPU calls tc2_pm_power_up(cpu, cluster) *)
| TPoweredUp (cpu : Z)                         (* a CPU that has come up calls tc2_pm_powered_up *)
| TCpu (cpu : Z) (b : bool) (how : option Z)   (* the next step of a CPU of the cluster *)
| TOther.

Definition tlift (s : tc2) (o : option mcpm) : option tc2 := m ← o; Some (s <| tmc := m |>).

(** One step.  A CPU that is off comes back, from a WFI that it skipped or woken by the power
    controller, and one that runs and has called [tc2_pm_powered_up] goes down, when [b]
    holds. *)
Definition tc2_step (e : tc2_event) (s : tc2) : option tc2 :=
  match e with
  | TPowerUp cpu =>
      match pm_lock (tmc s) with
      | None => '(_, s) ← tc2_pm_power_up nr_cpus cpu s; Some s
      | Some _ => Some s
      end
  | TPoweredUp cpu =>
      match pm_lock (tmc s), mpc (tmc s) cpu, reported s cpu with
      | None, Running, false => Some (tc2_pm_powered_up cpu s)
      | _, _, _ => Some s
      end
  | TCpu cpu b how =>
      match mpc (tmc s) cpu with
      | Off =>
          let s := if b then s <| reported := <[cpu := false]> (reported s) |> else s in
          tlift s (mcpm_step (EvCpu cpu b) (tmc s))
      | Running =>
          let b := b && reported s cpu in
          let s := if b then tc2_pm_suspend cpu how s else s in
          tlift s (mcpm_step (EvCpu cpu b) (tmc s))
      | Decide =>
          match __mcpm_cluster_state (tmc s) with
          | CLUSTER_UP =>
              s ← tc2_account cpu s;
              tlift s (mcpm_step (EvCpu cpu (last_man s cpu)) (tmc s))
          | _ => None
          end
      | CpuSetup => tlift (tc2_pm_power_up_setup cpu s) (mcpm_step (EvCpu cpu b) (tmc s))
      | UnlockLocal => tlift (tc2_undo cpu s) (mcpm_step (EvCpu cpu b) (tmc s))
      | _ => tlift s (mcpm_step (EvCpu cpu b) (tmc s))
      end
  | TOther => tlift s (mcpm_step EvOther (tmc s))
  end.

(** [tc2_pm_init]: at boot, for the cluster that runs CPU 0 and for the other. *)
Definition tc2_init (booted : bool) : tc2 :=
  {| tmc := if booted then mcpm_sync_init [0] [0] else mcpm_sync_init [] [];
     tc2_pm_use_count := if booted then tc2_pm_usage_count_init 0 (fun _ => 0) else fun _ => 0;
     spc_powerdown := false; spc_global_wakeup := false;
     spc_wakeup_irq := fun _ => false; spc_resume := fun _ => NoResume;
     residency := fun _ => 0; last_man := fun _ => false; t_skip_wfi := fun _ => false;
     reported := fun c => booted && (c =? 0) |}.

(** Who takes part, and what the callers of [tc2_pm_power_up] keep to: a CPU is not requested
    again while a request is pending. *)
Definition tc2_caller_ok (e : tc2_event) (s : tc2) : Prop :=
  match e with
  | TPowerUp cpu => has_cpu nr_cpus cpu /\ tc2_pm_use_count s cpu < 2
  | TPoweredUp cpu | TCpu cpu _ _ => has_cpu nr_cpus cpu
  | TOther => True
  end.

Inductive tc2_reachable (booted : bool) : tc2 -> Prop :=
| t_reach_init : tc2_reachable booted (tc2_init booted)
| t_reach_step e s s' :
    tc2_reachable booted s -> tc2_caller_ok e s -> tc2_step e s = Some s' -> tc2_reachable booted s'.

End Tc2.

(** * Invariant *)

(** On its way down, before the accounting. *)
Definition going_pc (p : mcpm_pc) : bool := match p with GoingDown | LockPm | Decide => true | _ => false end.
(** In [mcpm_entry_point]. *)
Definition entering_pc (p : mcpm_pc) : bool :=
  match p with
  | Entry | Lock | FirstMan | SkipUnlock | SetInbound | TeardownWait | ClusterSetup | SetClusterUp | LeaveInbound
  | SetupUnlock | SetupWait | CpuSetup | SetCpuUp | Gated => true
  | _ => false
  end.
(** The last man, unless it backs out. *)
Definition tearing_pc (p : mcpm_pc) : bool :=
  match p with
  | OutSetCluster | OutCheckInbound | OutCheckCpu _ | OutUnlockCrit | Teardown | OutLeave => true
  | _ => false
  end.
(** Off, or committed to it. *)
Definition stopped_pc (p : mcpm_pc) : bool :=
  match p with
  | Off | OutAbort | UnlockLocal | LocalFlush | SetCpuDown => true
  | _ => tearing_pc p
  end.

Lemma mcpm_step_kind c b s s' :
  mcpm_step (EvCpu c b) s = Some s' -> mpc s c <> Off -> mpc s c <> Running -> mpc s c <> Decide ->
  (going_pc (mpc s' c) = true -> going_pc (mpc s c) = true)
  /\ (entering_pc (mpc s' c) = true -> entering_pc (mpc s c) = true)
  /\ (mpc s' c = Running -> entering_pc (mpc s c) = true)
  /\ (tearing_pc (mpc s' c) = true -> tearing_pc (mpc s c) = true)
  /\ (stopped_pc (mpc s' c) = true -> stopped_pc (mpc s c) = true).
Proof.
  assert (Hn : forall i, tearing_pc (check_next i) = true /\ stopped_pc (check_next i) = true /\ going_pc (check_next i) = false
    /\ entering_pc (check_next i) = false /\ check_next i <> Running) by (intros i; unfold check_next; by case_match).
  unfold mcpm_step, mcpm_entry_step, power_down_step, outbound_enter_step;
    destruct (mpc s c) eqn:Hp; try done; intros; repeat case_match; simplify_eq;
    rewrite ?mpc_goto_eq, ?Hp; try done; naive_solver.
Qed.

Section Invariant.

Context (nr_cpus : Z) (Hnr : 0 < nr_cpus <= TC2_MAX_CPUS).

Abbreviation has_cpu := (has_cpu nr_cpus).

Record tc2_ok (s : tc2) : Prop := {
  to_mc : mcpm_ok (tmc s);
  to_count : forall c, has_cpu c -> 0 <= tc2_pm_use_count s c <= 2;
  to_absent : forall c, ~ has_cpu c -> tc2_pm_use_count s c = 0;
  to_going : forall c, has_cpu c -> going_pc (mpc (tmc s) c) = true -> tc2_pm_use_count s c <> 0;
  to_running : forall c, has_cpu c -> mpc (tmc s) c = Running -> reported s c = true -> tc2_pm_use_count s c <> 0;
  to_entering : forall c, has_cpu c -> entering_pc (mpc (tmc s) c) = true -> reported s c = false;
  (* the power controller may power the cluster down only while nobody uses it *)
  to_powerdown : spc_powerdown s = true -> forall c, tc2_pm_use_count s c = 0;
  (* a last man has told it to, unless a CPU was requested since *)
  to_tearing : forall c, has_cpu c -> tearing_pc (mpc (tmc s) c) = true ->
               spc_powerdown s = true \/ exists d, tc2_pm_use_count s d <> 0;
  (* a CPU that was requested comes back *)
  to_request : forall c, has_cpu c -> stopped_pc (mpc (tmc s) c) = true -> tc2_pm_use_count s c <> 0 ->
               t_skip_wfi s c = true \/ (spc_wakeup_irq s c = true /\ spc_resume s c <> NoResume);
}.

Lemma t_is_cpu c : has_cpu c -> is_cpu c.
Proof.
  unfold Dcscb.has_cpu, is_cpu, cluster_cpus, TC2_MAX_CPUS in *. rewrite !elem_of_cons, elem_of_nil. lia.
Qed.

Lemma unused_spec s :
  (forall c, ~ has_cpu c -> tc2_pm_use_count s c = 0) -> tc2_unused s = true <-> forall c, tc2_pm_use_count s c = 0.
Proof.
  intros Ha. unfold tc2_unused. rewrite !andb_true_iff, !Z.eqb_eq. split; [|by intros H; rewrite !H].
  intros [[H0 H1] H2] c. destruct (decide (has_cpu c)) as [Hc|Hc]; [|by apply Ha].
  unfold Dcscb.has_cpu, TC2_MAX_CPUS in *. assert (c = 0 \/ c = 1 \/ c = 2) as [->|[->| ->]] by lia; done.
Qed.

(** While one CPU is the last man, no other holds the lock or relies on the cluster. *)
Lemma tearing_alone s c d :
  tc2_ok s -> has_cpu c -> has_cpu d -> d <> c -> tearing_pc (mpc (tmc s) d) = true ->
  mpc (tmc s) c <> UnlockLocal /\ mpc (tmc s) c <> Decide.
Proof.
  intros Hok Hc Hd Hdc Ht. pose proof (to_mc s Hok) as Hm. pose proof (t_is_cpu c Hc) as Ic. pose proof (t_is_cpu d Hd) as Id.
  destruct (has_pm (mpc (tmc s) d)) eqn:Hpd.
  - pose proof (lo_pm _ (mo_locks _ Hm) d Id Hpd) as Ld.
    assert (Hno : has_pm (mpc (tmc s) c) = true -> False).
    { intros Hpc. rewrite (lo_pm _ (mo_locks _ Hm) c Ic Hpc) in Ld. by injection Ld. }
    split; intros E0; apply Hno; by rewrite E0.
  - assert (Hp : passive (mpc (tmc s) c) = true).
    { apply (ss_teardown _ (mcpm_ok_safe _ Hm) d c); try done. by destruct (mpc (tmc s) d). }
    by destruct (mpc (tmc s) c).
Qed.

(** CPU [c] moves, or its variables change: what is left to show is local to it, but for the
    power-down request. *)
Lemma t_move c s s1 m :
  tc2_ok s -> mcpm_ok m -> (forall d, d <> c -> mpc m d = mpc (tmc s) d) ->
  (forall d, d <> c -> tc2_pm_use_count s1 d = tc2_pm_use_count s d /\ reported s1 d = reported s d
     /\ t_skip_wfi s1 d = t_skip_wfi s d /\ spc_wakeup_irq s1 d = spc_wakeup_irq s d /\ spc_resume s1 d = spc_resume s d) ->
  has_cpu c -> 0 <= tc2_pm_use_count s1 c <= 2 ->
  (tc2_pm_use_count s1 c = 0 -> going_pc (mpc m c) = false /\ (mpc m c = Running -> reported s1 c = false)) ->
  (entering_pc (mpc m c) = true -> reported s1 c = false) ->
  (stopped_pc (mpc m c) = true -> tc2_pm_use_count s1 c <> 0 ->
     t_skip_wfi s1 c = true \/ (spc_wakeup_irq s1 c = true /\ spc_resume s1 c <> NoResume)) ->
  (spc_powerdown s1 = true -> forall d, tc2_pm_use_count s1 d = 0) ->
  (forall d, has_cpu d -> tearing_pc (mpc m d) = true -> spc_powerdown s1 = true \/ exists d, tc2_pm_use_count s1 d <> 0) ->
  tc2_ok (s1 <| tmc := m |>).
Proof.
  intros Hok Hm Ho Hv Hc Hn Hz He Hs Hp Ht. split; simpl; [done|..]; try done;
    intros d; (destruct (decide (d = c)) as [->|Hdc]; [|destruct (Hv d Hdc) as (E1 & E2 & E3 & E4 & E5);
      rewrite ?E1, ?E2, ?E3, ?E4, ?E5, ?Ho by done; by apply Hok]); try done.
  - intros _ Hg E0. destruct (Hz E0) as [Hg' _]. congruence.
  - intros _ Hr Hrep E0. destruct (Hz E0) as [_ Hr']. specialize (Hr' Hr). congruence.
Qed.

(** A step of the protocol that touches none of the variables, except that a CPU in
    [mcpm_entry_point] may write its resume register and one that gives up the lock may
    withdraw the power-down request. *)
Lemma t_protocol_ok c b s s1 m :
  tc2_ok s -> has_cpu c -> mcpm_step (EvCpu c b) (tmc s) = Some m ->
  mpc (tmc s) c <> Off -> mpc (tmc s) c <> Running -> mpc (tmc s) c <> Decide ->
  tc2_pm_use_count s1 = tc2_pm_use_count s -> reported s1 = reported s -> t_skip_wfi s1 = t_skip_wfi s ->
  spc_wakeup_irq s1 = spc_wakeup_irq s -> (forall d, d <> c -> spc_resume s1 d = spc_resume s d) ->
  (spc_resume s1 c = spc_resume s c \/ entering_pc (mpc (tmc s) c) = true) ->
  (spc_powerdown s1 = spc_powerdown s \/ spc_powerdown s1 = false /\ mpc (tmc s) c = UnlockLocal) ->
  tc2_ok (s1 <| tmc := m |>).
Proof.
  intros Hok Hc E H1 H2 H3 Eu Er Es Ew Erd Erc Ep.
  destruct (mcpm_step_ok (EvCpu c b) (tmc s) (to_mc s Hok) (t_is_cpu c Hc)) as (m' & E' & Hm). rewrite E in E'. injection E' as <-.
  pose proof (fun d => mcpm_step_other c d b _ _ E) as Ho.
  destruct (mcpm_step_kind c b _ _ E H1 H2 H3) as (Kg & Ke & Kr & Kt & Ks).
  apply (t_move c s); rewrite ?Eu, ?Er, ?Es, ?Ew; try done; [naive_solver|by apply (to_count s Hok)|..].
  - intros E0. split; [|intros Hr; by apply (to_entering s Hok); auto]. apply not_true_is_false. intros Hg.
    by apply (to_going s Hok c Hc); auto.
  - intros He. apply (to_entering s Hok); auto.
  - intros Hst. apply Ks in Hst. destruct Erc as [->|He]; [by apply (to_request s Hok)|by destruct (mpc (tmc s) c)].
  - destruct Ep as [->|[-> _]]; [apply (to_powerdown s Hok)|done].
  - intros d Hd Ht. assert (Ht0 : tearing_pc (mpc (tmc s) d) = true).
    { destruct (decide (d = c)) as [->|Hdc]; [by apply Kt|by rewrite Ho in Ht]. }
    destruct Ep as [->|[_ Hp]]; [by apply (to_tearing s Hok d)|].
    destruct (decide (d = c)) as [->|Hdc]; [by rewrite Hp in Ht0|]. by destruct (tearing_alone s c d Hok Hc Hd Hdc Ht0).
Qed.

(** A CPU comes back, or starts to go down. *)
Lemma t_turn_ok c s s1 m :
  tc2_ok s -> has_cpu c -> mcpm_step (EvCpu c true) (tmc s) = Some m ->
  (mpc (tmc s) c = Off /\ reported s1 c = false \/ mpc (tmc s) c = Running /\ reported s c = true) ->
  tc2_pm_use_count s1 = tc2_pm_use_count s -> t_skip_wfi s1 = t_skip_wfi s -> spc_wakeup_irq s1 = spc_wakeup_irq s ->
  spc_powerdown s1 = spc_powerdown s ->
  (forall d, d <> c -> spc_resume s1 d = spc_resume s d /\ reported s1 d = reported s d) ->
  tc2_ok (s1 <| tmc := m |>).
Proof.
  intros Hok Hc E Hp Eu Es Ew Epd Er.
  destruct (mcpm_step_ok (EvCpu c true) (tmc s) (to_mc s Hok) (t_is_cpu c Hc)) as (m' & E' & Hm). rewrite E in E'. injection E' as <-.
  pose proof (fun d => mcpm_step_other c d true _ _ E) as Ho.
  assert (Em : mpc m c = match mpc (tmc s) c with Off => Entry | _ => GoingDown end).
  { unfold mcpm_step in E. destruct Hp as [[Hp _]|[Hp _]]; rewrite Hp in E |- *; injection E as <-; apply mpc_goto_eq. }
  apply (t_move c s); rewrite ?Eu, ?Es, ?Ew, ?Epd; try done; [naive_solver|by apply (to_count s Hok)|..]; try rewrite Em.
  - intros E0. destruct Hp as [[-> _]|[Hr Hrep]]; [done|]. exfalso. by apply (to_running s Hok c).
  - destruct Hp as [[-> ?]|[-> _]]; done.
  - by destruct Hp as [[-> _]|[-> _]].
  - apply (to_powerdown s Hok).
  - intros d Hd Ht. apply (to_tearing s Hok d Hd). destruct (decide (d = c)) as [->|Hdc]; [|by rewrite Ho in Ht].
    rewrite Em in Ht. by destruct Hp as [[Hp _]|[Hp _]]; rewrite Hp in Ht.
Qed.

(** The accounting of a CPU that goes down. *)
Lemma t_account_ok c s :
  tc2_ok s -> has_cpu c -> mpc (tmc s) c = Decide ->
  exists s1 m, tc2_account c s = Some s1 /\ tmc s1 = tmc s /\ mcpm_step (EvCpu c (last_man s1 c)) (tmc s) = Some m
    /\ tc2_ok (s1 <| tmc := m |>).
Proof.
  intros Hok Hc Hp. pose proof (t_is_cpu c Hc) as Ic. pose proof (to_mc s Hok) as Hm.
  assert (Hu : tc2_pm_use_count s c <> 0) by (apply (to_going s Hok); [done|by rewrite Hp]).
  pose proof (to_count s Hok c Hc) as Hb. unfold tc2_account.
  pose proof (decide_cluster_up c (tmc s) Hm Ic Hp) as Hup.
  assert (Hstep : forall b, exists m, mcpm_step (EvCpu c b) (tmc s) = Some m /\ mcpm_ok m
    /\ mpc m c = (if b then OutSetCluster else UnlockLocal) /\ forall d, d <> c -> mpc m d = mpc (tmc s) d).
  { intros b. destruct (mcpm_step_ok (EvCpu c b) (tmc s) Hm Ic) as (m & E & Hm'). exists m. split_and!; [done|done| |].
    - unfold mcpm_step, power_down_step, __mcpm_cluster_state in E. rewrite Hp, Hup in E. injection E as <-. apply mpc_goto_eq.
    - intros d. by apply (mcpm_step_other c d b). }
  assert (Hpd : spc_powerdown s = false) by (apply not_true_is_false; intros Hx; by apply Hu, (to_powerdown s Hok)).
  (* no other CPU is a last man *)
  assert (Hoth : forall d, has_cpu d -> d <> c -> tearing_pc (mpc (tmc s) d) = false).
  { intros d Hd Hdc. apply not_true_is_false. intros Ht. by destruct (tearing_alone s c d Hok Hc Hd Hdc Ht). }
  (* what the accounting may do to the variables *)
  assert (Hgen : forall s1, tmc s1 = tmc s -> tc2_pm_use_count s1 = <[c := tc2_pm_use_count s c - 1]> (tc2_pm_use_count s) ->
    reported s1 = reported s -> spc_resume s1 = spc_resume s ->
    (forall d, d <> c -> t_skip_wfi s1 d = t_skip_wfi s d /\ spc_wakeup_irq s1 d = spc_wakeup_irq s d) ->
    (tc2_pm_use_count s c - 1 <> 0 -> t_skip_wfi s1 c = true) ->
    (spc_powerdown s1 = true -> forall d, tc2_pm_use_count s1 d = 0) -> (last_man s1 c = true -> spc_powerdown s1 = true) ->
    exists s2 m, Some s1 = Some s2 /\ tmc s2 = tmc s /\ mcpm_step (EvCpu c (last_man s2 c)) (tmc s) = Some m
      /\ tc2_ok (s2 <| tmc := m |>)).
  { intros s1 Et Eu Er Ers Ev Hsk Hz Hl. destruct (Hstep (last_man s1 c)) as (m & E & Hm' & Em & Ho). exists s1, m. split_and!; [done..|].
    apply (t_move c s); try done; rewrite ?Em, ?Er, ?Ers; try (by destruct (last_man s1 c)).
    - intros d Hdc. destruct (Ev d Hdc) as [E1 E2]. by rewrite Eu, fn_lookup_insert_ne.
    - rewrite Eu, fn_lookup_insert. lia.
    - intros _ Hn. rewrite Eu, fn_lookup_insert in Hn. left. auto.
    - intros d Hd. destruct (decide (d = c)) as [->|Hdc]; [rewrite Em|by rewrite Ho, Hoth].
      intros Ht. left. apply Hl. by destruct (last_man s1 c). }
  set (uc := <[c := tc2_pm_use_count s c - 1]> (tc2_pm_use_count s)) in *.
  destruct (Z.eqb_spec (tc2_pm_use_count s c - 1) 0) as [E0|E0].
  - assert (Habs : forall d, ~ has_cpu d -> uc d = 0).
    { intros d Hd. unfold uc. rewrite fn_lookup_insert_ne by (by intros ->). by apply (to_absent s Hok). }
    case_match eqn:Hlast; apply Hgen; try done; simpl; try congruence.
    + intros d Hdc. by rewrite !fn_lookup_insert_ne.
    + intros _. apply andb_true_iff in Hlast as [Hun _]. refine (proj1 (unused_spec _ _) Hun). exact Habs.
    + intros d Hdc. by rewrite !fn_lookup_insert_ne.
    + by rewrite fn_lookup_insert.
  - rewrite (proj2 (Z.eqb_eq (tc2_pm_use_count s c - 1) 1)) by lia. apply Hgen; try done; simpl; try congruence.
    + intros d Hdc. by rewrite fn_lookup_insert_ne.
    + intros _. apply fn_lookup_insert.
    + by rewrite fn_lookup_insert.
Qed.

(** [tc2_pm_power_up] *)
Lemma t_power_up_ok c s :
  tc2_ok s -> has_cpu c -> tc2_pm_use_count s c < 2 ->
  exists s', tc2_pm_power_up nr_cpus c s = Some (0, s') /\ tmc s' = tmc s /\ tc2_ok s'.
Proof.
  intros Hok Hc Hu. pose proof (to_count s Hok c Hc) as Hb. unfold tc2_pm_power_up.
  rewrite (proj2 (Z.leb_gt nr_cpus c)) by (unfold Dcscb.has_cpu in Hc; lia).
  set (s1 := if tc2_unused s then s <| spc_powerdown := false |> else s).
  assert (Hs1 : s1 = s <| spc_powerdown := false |>).
  { unfold s1. destruct (tc2_unused s) eqn:Hun; [done|]. destruct (spc_powerdown s) eqn:Hpd; [|by rewrite <- Hpd; destruct s].
    rewrite (proj2 (unused_spec s (to_absent s Hok)) (to_powerdown s Hok Hpd)) in Hun. done. }
  rewrite Hs1. clear s1 Hs1. change (tc2_pm_use_count (s <| spc_powerdown := false |>)) with (tc2_pm_use_count s).
  set (uc := <[c := tc2_pm_use_count s c + 1]> (tc2_pm_use_count s)).
  assert (Hgen : forall s2, tmc s2 = tmc s -> tc2_pm_use_count s2 = uc -> reported s2 = reported s -> t_skip_wfi s2 = t_skip_wfi s ->
    spc_powerdown s2 = false -> (forall d, d <> c -> spc_wakeup_irq s2 d = spc_wakeup_irq s d /\ spc_resume s2 d = spc_resume s d) ->
    (tc2_pm_use_count s c = 0 /\ spc_wakeup_irq s2 c = true /\ spc_resume s2 c <> NoResume
     \/ tc2_pm_use_count s c <> 0 /\ spc_wakeup_irq s2 c = spc_wakeup_irq s c /\ spc_resume s2 c = spc_resume s c) ->
    exists s', Some (0, s2) = Some (0, s') /\ tmc s' = tmc s /\ tc2_ok s').
  { intros s2 Et Eu Er Es Epd Ev Hreq. exists s2. split_and!; [done..|]. replace s2 with (s2 <| tmc := tmc s |>) by (rewrite <- Et; by destruct s2).
    apply (t_move c s); try done; rewrite ?Er, ?Es, ?Epd; try done; [apply Hok|..].
    - intros d Hdc. destruct (Ev d Hdc) as [E1 E2]. rewrite Eu. unfold uc. by rewrite fn_lookup_insert_ne.
    - rewrite Eu. unfold uc. rewrite fn_lookup_insert. lia.
    - rewrite Eu. unfold uc. rewrite fn_lookup_insert. lia.
    - by apply (to_entering s Hok).
    - intros Hst _. destruct Hreq as [(_ & ? & ?)|(Hn & -> & ->)]; [by right|]. by apply (to_request s Hok).
    - intros d Hd _. right. exists c. rewrite Eu. unfold uc. rewrite fn_lookup_insert. lia. }
  destruct (Z.eqb_spec (tc2_pm_use_count s c + 1) 1) as [E|E].
  - apply Hgen; try done; simpl.
    + intros d Hdc. by rewrite !fn_lookup_insert_ne.
    + left. rewrite !fn_lookup_insert. split_and!; [lia|done|done].
  - rewrite (proj2 (Z.eqb_eq (tc2_pm_use_count s c + 1) 2)) by lia. apply Hgen; try done. right. split_and!; [lia|done|done].
Qed.

(** [tc2_pm_powered_up] *)
Lemma t_powered_up_ok c s :
  tc2_ok s -> has_cpu c -> mpc (tmc s) c = Running -> tc2_ok (tc2_pm_powered_up c s).
Proof.
  intros Hok Hc Hp. pose proof (to_count s Hok c Hc) as Hb. set (s1 := tc2_pm_powered_up c s).
  assert (Hv : tmc s1 = tmc s /\ t_skip_wfi s1 = t_skip_wfi s
    /\ (forall d, tc2_pm_use_count s1 d = if decide (d = c) then Z.max 1 (tc2_pm_use_count s c) else tc2_pm_use_count s d)
    /\ (forall d, d <> c -> reported s1 d = reported s d /\ spc_wakeup_irq s1 d = spc_wakeup_irq s d /\ spc_resume s1 d = spc_resume s d)
    /\ spc_powerdown s1 = false).
  { unfold s1, tc2_pm_powered_up. set (s0 := if tc2_unused s then _ else _).
    assert (H0 : tmc s0 = tmc s /\ t_skip_wfi s0 = t_skip_wfi s /\ tc2_pm_use_count s0 = tc2_pm_use_count s
      /\ reported s0 = reported s /\ spc_wakeup_irq s0 = spc_wakeup_irq s /\ spc_resume s0 = spc_resume s /\ spc_powerdown s0 = false).
    { unfold s0. destruct (tc2_unused s) eqn:Hun; [done|]. split_and!; try done. apply not_true_is_false. intros Hpd.
      by rewrite (proj2 (unused_spec s (to_absent s Hok)) (to_powerdown s Hok Hpd)) in Hun. }
    clearbody s0. destruct H0 as (E1 & E2 & E3 & E4 & E5 & E6 & E7). rewrite E3.
    destruct (Z.eqb_spec (tc2_pm_use_count s c) 0) as [Ez|Ez]; simpl; rewrite ?E3, ?E4, ?E5, ?E6; split_and!; try done.
    2, 4: intros d Hdc; by rewrite !fn_lookup_insert_ne.
    - intros d. case_decide as Hd; [subst; rewrite fn_lookup_insert; lia|by rewrite fn_lookup_insert_ne].
    - intros d. case_decide as Hd; [subst; lia|done]. }
  destruct Hv as (E1 & E2 & E3 & E4 & E5). replace s1 with (s1 <| tmc := tmc s |>) by (rewrite <- E1; by destruct s1). clearbody s1.
  apply (t_move c s); try done; rewrite ?E2, ?E5, ?Hp; try done; [apply Hok|..].
  - intros d Hdc. destruct (E4 d Hdc) as (? & ? & ?). by rewrite E3, decide_False.
  - rewrite E3, decide_True by done. lia.
  - rewrite E3, decide_True by done. lia.
  - intros d Hd _. right. exists c. rewrite E3, decide_True by done. lia.
Qed.

(** ** Executions *)

Lemma t_other_ok s m : tc2_ok s -> mcpm_step EvOther (tmc s) = Some m -> tc2_ok (s <| tmc := m |>).
Proof.
  intros Hok E. destruct (mcpm_step_ok EvOther (tmc s) (to_mc s Hok) I) as (m' & E' & Hm). simplify_eq.
  assert (Ep : mpc m = mpc (tmc s)) by (unfold mcpm_step in E; repeat case_match; by simplify_eq).
  split; simpl; rewrite ?Ep; try apply Hok. done.
Qed.

Lemma tc2_step_ok e s :
  tc2_ok s -> tc2_caller_ok nr_cpus e s -> exists s', tc2_step nr_cpus e s = Some s' /\ tc2_ok s'.
Proof.
  intros Hok Hcall. destruct e as [c|c|c b how|]; simpl in Hcall; cbn [tc2_step].
  - destruct (pm_lock (tmc s)); [by exists s|]. destruct Hcall as [Hc Hu].
    destruct (t_power_up_ok c s Hok Hc Hu) as (s' & -> & _ & Hok'). by exists s'.
  - destruct (pm_lock (tmc s)); [by exists s|]. destruct (mpc (tmc s) c) eqn:Hp; try (by exists s).
    destruct (reported s c); [by exists s|]. eexists; split; [reflexivity|]. by apply t_powered_up_ok.
  - assert (Hgen : forall b', exists m, mcpm_step (EvCpu c b') (tmc s) = Some m).
    { intros b'. destruct (mcpm_step_ok (EvCpu c b') (tmc s) (to_mc s Hok) (t_is_cpu c Hcall)) as (m & ? & _). by exists m. }
    destruct (Hgen b) as (m & E). destruct (mpc (tmc s) c) eqn:Hp;
      try (exists (s <| tmc := m |>); rewrite E; split; [done|]; apply (t_protocol_ok c b s); by (rewrite ?Hp; auto)).
    + destruct b.
      * change (tmc (s <| reported := _ |>)) with (tmc s). rewrite E. eexists; split; [reflexivity|].
        apply (t_turn_ok c s); try done; simpl; [left; by rewrite fn_lookup_insert|].
        intros d Hdc. by rewrite fn_lookup_insert_ne.
      * unfold mcpm_step. rewrite Hp. exists s. split; [by destruct s|done].
    + rewrite E. eexists; split; [reflexivity|]. apply (t_protocol_ok c b s); rewrite ?Hp; auto; try done.
      intros d Hdc. by apply fn_lookup_insert_ne.
    + destruct (b && reported s c) eqn:Hb.
      * apply andb_true_iff in Hb as [-> Hr]. assert (Et : tmc (tc2_pm_suspend c how s) = tmc s) by (by destruct how).
        rewrite Et, E. eexists; split; [reflexivity|]. apply (t_turn_ok c s); try done; try (by destruct how); [by right|].
        intros d Hdc. destruct how; split; try done. by apply fn_lookup_insert_ne.
      * unfold mcpm_step. rewrite Hp. exists s. split; [by destruct s|done].
    + unfold __mcpm_cluster_state. rewrite (decide_cluster_up c (tmc s) (to_mc s Hok) (t_is_cpu c Hcall) Hp).
      destruct (t_account_ok c s Hok Hcall Hp) as (s1 & m1 & -> & Et & E1 & Hok1). cbn [mbind option_bind]. rewrite Et, E1.
      eexists; split; [reflexivity|done].
    + rewrite E. eexists; split; [reflexivity|].
      apply (t_protocol_ok c b s); rewrite ?Hp; unfold tc2_undo; destruct (last_man s c); auto; done.
  - eexists; split; [reflexivity|]. by apply t_other_ok.
Qed.

Lemma tc2_init_ok booted : tc2_ok (tc2_init booted).
Proof.
  assert (Hu : forall c, tc2_pm_use_count (tc2_init booted) c = if booted && bool_decide (c = 0) then 1 else 0).
  { intros c. simpl. destruct booted; [|done]. unfold tc2_pm_usage_count_init. simpl.
    case_bool_decide; [subst; apply fn_lookup_insert|by apply fn_lookup_insert_ne]. }
  assert (Hp : forall c, mpc (tmc (tc2_init booted)) c = if booted && bool_decide (c = 0) then Running else Off).
  { intros c. simpl. destruct booted; [|done]. simpl.
    by rewrite (bool_decide_ext (c ∈ [0]) (c = 0)) by apply list_elem_of_singleton. }
  split; try (intros c _; rewrite ?Hu, ?Hp; by destruct (booted && _)).
  - simpl. destruct booted; apply mcpm_init_ok.
  - intros c Hc. rewrite Hu. case_bool_decide as E0; [|by rewrite andb_false_r]. destruct Hc. subst. unfold Dcscb.has_cpu. lia.
  - done.
Qed.

Lemma tc2_step_refines e s s' :
  tc2_caller_ok nr_cpus e s -> tc2_step nr_cpus e s = Some s' ->
  exists l, Forall event_ok l /\ mcpm_run l (tmc s) = Some (tmc s').
Proof.
  assert (H1 : forall ev s1 s2, event_ok ev -> tlift s1 (mcpm_step ev (tmc s)) = Some s2 ->
    exists l, Forall event_ok l /\ mcpm_run l (tmc s) = Some (tmc s2)).
  { intros ev s1 s2 He Hl. exists [ev]. split; [by constructor|]. unfold tlift in Hl. simpl.
    destruct (mcpm_step ev (tmc s)); simplify_eq/=. done. }
  assert (H0 : forall s2, tmc s2 = tmc s -> exists l, Forall event_ok l /\ mcpm_run l (tmc s) = Some (tmc s2)).
  { intros s2 <-. by exists []. }
  intros Hcall. destruct e as [c|c|c b how|]; simpl in Hcall; cbn [tc2_step]; [| |pose proof (t_is_cpu c Hcall) as Hc|by apply H1].
  - destruct (pm_lock (tmc s)); [intros [= <-]; by apply H0|]. intros E. apply H0.
    unfold tc2_pm_power_up in E. repeat case_match; simplify_eq/=; done.
  - intros E. apply H0. unfold tc2_pm_powered_up in E. repeat case_match; simplify_eq/=; done.
  - destruct (mpc (tmc s) c) eqn:Hp; try (by apply H1).
    + destruct b; [change (tmc (s <| reported := _ |>)) with (tmc s)|]; by apply H1.
    + destruct (b && reported s c); [|by apply H1]. assert (Et : tmc (tc2_pm_suspend c how s) = tmc s) by (by destruct how).
      rewrite Et. by apply H1.
    + destruct (__mcpm_cluster_state (tmc s)); try done. destruct (tc2_account c s) as [s1|] eqn:Ea; [|done]. cbn [mbind option_bind].
      assert (tmc s1 = tmc s) as ->; [|by apply H1]. unfold tc2_account in Ea. repeat case_match; by simplify_eq/=.
Qed.

Lemma tc2_reachable_ok booted s :
  tc2_reachable nr_cpus booted s ->
  tc2_ok s /\ exists l, Forall event_ok l /\ mcpm_run l (tmc (tc2_init booted)) = Some (tmc s).
Proof.
  induction 1 as [|e s s' _ [Hok (l & Hl & Er)] Hcall E]; [split; [apply tc2_init_ok|by exists []]|].
  destruct (tc2_step_ok e s Hok Hcall) as (s1 & E1 & Hok1). rewrite E in E1. injection E1 as <-.
  split; [done|]. destruct (tc2_step_refines e s s' Hcall E) as (k & Hk & Ek).
  exists (l ++ k). split; [by apply Forall_app|]. by rewrite mcpm_run_app, Er.
Qed.

End Invariant.

(** The facts every reachable state of the cluster has. *)
Record tc2_safe_state (nr_cpus : Z) (s : tc2) : Prop := {
  (* the protocol's guarantees *)
  ts_mcpm : mcpm_safe_state (tmc s);
  ts_count : forall c, has_cpu nr_cpus c -> 0 <= tc2_pm_use_count s c <= 2;
  (* the cluster is powered down only while nobody uses it *)
  ts_powerdown : spc_powerdown s = true -> forall c, tc2_pm_use_count s c = 0;
  (* and a last man that tears it down has asked for that, unless a CPU was requested since *)
  ts_teardown : forall c, has_cpu nr_cpus c -> in_teardown (mpc (tmc s) c) = true ->
                spc_powerdown s = true \/ exists d, tc2_pm_use_count s d <> 0;
  (* a CPU that is off and requested comes back: it skips WFI, or its wake-up interrupt is
     enabled and it has an address to resume at *)
  ts_request : forall c, has_cpu nr_cpus c -> mpc (tmc s) c = Off -> tc2_pm_use_count s c <> 0 ->
               t_skip_wfi s c = true \/ (spc_wakeup_irq s c = true /\ spc_resume s c <> NoResume);
}.

(** C15. The TC2 back end implements the cluster protocol.  In every state that
    [tc2_pm_power_up], [tc2_pm_powered_up] and the CPUs' own steps lead to, with interrupts
    waking CPUs at any time, no [BUG()] or [BUG_ON()] is reached by the next step as long as
    callers do not request a CPU more than once ahead; the protocol's part of the state is
    one the protocol itself reaches, so it has the protocol's guarantees; the power
    controller is told to power the cluster down only while no CPU of it is in use; and a
    CPU that is off while somebody has requested it is set up to come back. *)
Theorem tc2_refines_mcpm nr_cpus booted s :
  0 < nr_cpus <= TC2_MAX_CPUS -> tc2_reachable nr_cpus booted s ->
  (forall e, tc2_caller_ok nr_cpus e s -> is_Some (tc2_step nr_cpus e s))
  /\ (exists l, Forall event_ok l /\ mcpm_run l (tmc (tc2_init booted)) = Some (tmc s))
  /\ tc2_safe_state nr_cpus s.
Proof.
  intros Hn Hs. destruct (tc2_reachable_ok nr_cpus Hn booted s Hs) as [Hok Hrun]. split; [|split; [done|]].
  - intros e He. destruct (tc2_step_ok nr_cpus Hn e s Hok He) as (s' & E & _). by exists s'.
  - split; [apply mcpm_ok_safe, Hok|apply Hok|apply Hok|..].
    + intros c Hc Ht. apply (to_tearing _ _ Hok c Hc). by destruct (mpc (tmc s) c).
    + intros c Hc Hp. apply (to_request _ _ Hok c Hc). by rewrite Hp.
Qed.

(** CPU 0 of three suspends as the last man; when it has announced that the cluster goes
    down, an interrupt wakes CPU 1, which nobody has requested. *)
Definition irq_race : list tc2_event :=
  repeat (TCpu 0 true (Some 10000)) 5 ++ repeat (TCpu 1 true None) 2 ++ repeat (TCpu 0 true None) 5.
Fixpoint tc2_run (nr_cpus : Z) (l : list tc2_event) (s : tc2) : option tc2 :=
  match l with
  | [] => Some s
  | e :: l => s' ← tc2_step nr_cpus e s; tc2_run nr_cpus l s'
  end.

Lemma tc2_run_reachable nr_cpus booted l s s' :
  tc2_reachable nr_cpus booted s -> (forall e, e ∈ l -> exists c b how, e = TCpu c b how /\ has_cpu nr_cpus c) ->
  tc2_run nr_cpus l s = Some s' -> tc2_reachable nr_cpus booted s'.
Proof.
  revert s. induction l as [|e l IH]; intros s Hs Hl; cbn [tc2_run]; [by intros [= <-]|].
  destruct (tc2_step nr_cpus e s) as [s1|] eqn:E; [|done]. cbn. apply IH; [|set_solver].
  apply (t_reach_step _ _ e s); [done| |done]. by destruct (Hl e) as (c & b & how & -> & Hc); [left|].
Qed.

Definition race_state : tc2 :=
  match tc2_run 3 irq_race (tc2_init true) with Some s => s | None => tc2_init true end.

(** CPU 0 has backed out and withdrawn its request. *)
Lemma race_reachable : tc2_reachable 3 true race_state /\ mpc (tmc race_state) 0 = LocalFlush /\ spc_powerdown race_state = false.
Proof.
  split; [|by vm_compute]. apply (tc2_run_reachable 3 true irq_race (tc2_init true)); [apply t_reach_init| |].
  - unfold irq_race. cbn [repeat app]. intros e He. repeat (apply elem_of_cons in He as [->|He]; [do 3 eexists; split; [done|by vm_compute]|]).
    by apply elem_of_nil in He.
  - unfold race_state. destruct (tc2_run 3 irq_race (tc2_init true)) eqn:E; [done|].
    assert (H : match tc2_run 3 irq_race (tc2_init true) with Some _ => true | None => false end = true) by (by vm_compute).
    by rewrite E in H.
Qed.

Lemma tc2_refines_mcpm_witness :
  (forall e, tc2_caller_ok 3 e race_state -> is_Some (tc2_step 3 e race_state)) /\ tc2_safe_state 3 race_state.
Proof.
  destruct (tc2_refines_mcpm 3 true race_state) as (H1 & _ & H2); [by vm_compute|apply race_reachable|]. split; [exact H1|exact H2].
Defined.

(** CPU 0 goes down as the last man, is requested again and comes up: the power-down request
    is withdrawn, the global wake-up interrupt stays enabled. *)
Lemma global_wakeup_stays :
  exists s, tc2_run 3 (repeat (TCpu 0 true None) 14 ++ [TPowerUp 0] ++ repeat (TCpu 0 true None) 23 ++ [TPoweredUp 0]) (tc2_init true) = Some s
    /\ mpc (tmc s) 0 = Running /\ reported s 0 = true /\ spc_powerdown s = false /\ spc_global_wakeup s = true.
Proof. eexists. split; [vm_compute; reflexivity|]. by vm_compute. Qed.
