(* ===== verification/BLSwitcher.v ===== *)
(** The in-kernel big.LITTLE switcher ([arch/arm/common/bL_switcher.c]): pairing each CPU
    with one of the other cluster, moving a logical CPU between the two physical CPUs of
    its pair, the switcher threads and their requests, and turning the switcher on and
    off.

    A physical CPU is its MPIDR.  What the switcher calls outside of the file - CPU
    hot-plug, power-up of a CPU, the notifier chain, thread creation, the interrupt
    controller - is an [env]: the results these calls give during one operation.  [None]
    stands for a kernel that stops ([BUG_ON], [panic]). *)

From S2P Require Import Prelude Vlock.

Definition MPIDR_HWID_BITMASK : Z := 16777215.
Definition MPIDR_AFFINITY_LEVEL (mpidr level : Z) : Z := Z.land (Z.shiftr mpidr (8 * level)) 255.

Definition BL_NOTIFY_PRE_ENABLE : Z := 0.
Definition BL_NOTIFY_POST_ENABLE : Z := 1.
Definition BL_NOTIFY_PRE_DISABLE : Z := 2.
Definition BL_NOTIFY_POST_DISABLE : Z := 3.

(** [t->task]: NULL, an error pointer, or a thread. *)
Inductive task_ptr := TNull | TErr (err : Z) | TTask.

Record bL_thread := mk_thread {
  task : task_ptr;
  wanted_cluster : Z;
  completer : option Z;
  completer_cookie : Z;
}.
#[export] Instance eta_bL_thread : Eta bL_thread := fun r =>
  {| task := task r; wanted_cluster := wanted_cluster r; completer := completer r;
     completer_cookie := completer_cookie r |}.

(** Where a switcher thread is: none, waiting for a request, or holding one it has taken
    over ([cluster], [completer] and [completer_cookie] of [bL_switcher_thread]). *)
Inductive thread_pc := NoThread | Waiting | Taken (cluster : Z) (comp : option Z) (cookie : Z).

(** What the switcher does to the outside, in order. *)
Inductive bL_event :=
| HwGate (mpidr : Z) (open : bool)    (* mcpm_set_entry_vector(.., cpu_resume or NULL) *)
| HwPoke (mpidr : Z) (armed : bool)   (* mcpm_set_early_poke *)
| HwPowerUp (mpidr : Z)               (* mcpm_cpu_power_up *)
| HwSgi (mpidr : Z)                   (* gic_send_sgi, so that it leaves WFI *)
| HwMigrateIrq (mpidr : Z)            (* gic_migrate_target *)
| HwSuspend (mpidr : Z)               (* cpu_suspend saves the state of the outbound CPU *)
| HwResume (mpidr : Z)                (* the inbound CPU continues from it *)
| HwPowerDown (mpidr : Z)             (* mcpm_cpu_power_down *)
| EvNotify (val : Z)
| EvCompleter (handler cookie : Z).

Record bls := mk_bls {
  cpu_logical_map : Z -> Z;
  running_on : Z -> Z;                (* what read_mpidr gives on each logical CPU *)
  cpu_online_mask : cpumask;
  bL_gic_id : Z -> Z -> Z;
  bL_switcher_cpu_pairing : Z -> Z;
  bL_switcher_cpu_original_cluster : Z -> Z;
  bL_switcher_removed_logical_cpus : cpumask;
  bL_switcher_active : bool;
  bL_threads : Z -> bL_thread;
  thread_state : Z -> thread_pc;
  log : list bL_event;                (* newest first *)
}.
#[export] Instance eta_bls : Eta bls := fun r =>
  {| cpu_logical_map := cpu_logical_map r; running_on := running_on r;
     cpu_online_mask := cpu_online_mask r; bL_gic_id := bL_gic_id r;
     bL_switcher_cpu_pairing := bL_switcher_cpu_pairing r;
     bL_switcher_cpu_original_cluster := bL_switcher_cpu_original_cluster r;
     bL_switcher_removed_logical_cpus := bL_switcher_removed_logical_cpus r;
     bL_switcher_active := bL_switcher_active r; bL_threads := bL_threads r;
     thread_state := thread_state r; log := log r |}.

(** The results of the calls the switcher makes. *)
Record env := mk_env {
  gic_get_cpu_id : Z -> Z;
  cpu_down_result : Z -> Z;
  cpu_up_result : Z -> Z;
  notify_result : Z -> Z;
  power_up_result : Z -> Z;           (* by MPIDR *)
  cpu_pm_enter : Z;
  cpu_pm_exit : Z;
  thread_error : Z -> option Z;       (* of kthread_create_on_node *)
}.

Section switcher.
Context `{Config}.
Implicit Types (s : bls) (e : env).

Definition emit (x : bL_event) s : bls := s <| log := x :: log s |>.

Definition cpu_of_mpidr (mpidr : Z) : Z := MPIDR_AFFINITY_LEVEL mpidr 0.
Definition cluster_of_mpidr (mpidr : Z) : Z := MPIDR_AFFINITY_LEVEL mpidr 1.
Definition cluster_of s (i : Z) : Z := cluster_of_mpidr (cpu_logical_map s i).

(** * Hot-plug, with the switcher's veto *)

(** [bL_switcher_hotplug_callback] on [CPU_UP_PREPARE] and [CPU_DOWN_PREPARE]: whether the
    operation is vetoed, which [cpu_up] and [cpu_down] report as [-EINVAL]. *)
Definition bL_switcher_hotplug_callback s : bool := bL_switcher_active s.

Definition cpu_down e (i : Z) s : Z * bls :=
  if bL_switcher_hotplug_callback s then (- EINVAL, s)
  else if cpu_down_result e i =? 0
  then (0, s <| cpu_online_mask := cpumask_clear_cpu i (cpu_online_mask s) |>)
  else (cpu_down_result e i, s).

Definition cpu_up e (i : Z) s : Z * bls :=
  if bL_switcher_hotplug_callback s then (- EINVAL, s)
  else if cpu_up_result e i =? 0
  then (0, s <| cpu_online_mask := cpumask_set_cpu i (cpu_online_mask s) |>)
  else (cpu_up_result e i, s).

(** * Pairing the CPUs *)

Definition bL_switcher_restore_cpus e s : bls :=
  foldl (fun s i => (cpu_up e i s).2) s (cpus_of (bL_switcher_removed_logical_cpus s)).

(** The first pass: the clusters found, or an error. *)
Fixpoint validate_cpus s (l : list Z) (mask : Z) : option Z :=
  match l with
  | [] => Some mask
  | i :: l =>
      let cpu := cpu_of_mpidr (cpu_logical_map s i) in
      let cluster := cluster_of s i in
      if 2 <=? cluster then None
      else if MAX_CPUS_PER_CLUSTER <=? cpu then None
      else validate_cpus s l (Z.lor mask (Z.shiftl 1 cluster))
  end.

(** The inner loop of the pairing: the last available CPU of the other cluster. *)
Definition last_match s (cluster_0 : Z) (available : cpumask) : Z :=
  foldl (fun m j => if negb (cluster_of s j =? cluster_0) then j else m) (-1) (cpus_of available).

(** The pairing loop.  The mask is read again in each round, as [for_each_cpu] does, so
    CPUs paired meanwhile are passed over. *)
Fixpoint pair_cpus s (l : list Z) (cluster_0 : Z) (available : cpumask) (pairing : Z -> Z) : Z -> Z :=
  match l with
  | [] => pairing
  | i :: l =>
      if negb (cpumask_test_cpu i available) then pair_cpus s l cluster_0 available pairing
      else
        let cluster := cluster_of s i in
        let cluster_0 := if cluster_0 =? -1 then cluster else cluster_0 in
        if negb (cluster =? cluster_0) then pair_cpus s l cluster_0 available pairing
        else
          let available := cpumask_clear_cpu i available in
          let m := last_match s cluster_0 available in
          if negb (m =? -1)
          then pair_cpus s l cluster_0 (cpumask_clear_cpu m available) (<[i := m]> pairing)
          else pair_cpus s l cluster_0 available pairing
  end.

(** The last pass: CPUs without a pairing are taken down. *)
Fixpoint remove_cpus e (l : list Z) s : Z * bls :=
  match l with
  | [] => (0, s)
  | i :: l =>
      let cpu := cpu_of_mpidr (cpu_logical_map s i) in
      let cluster := cluster_of s i in
      let gic_id := gic_get_cpu_id e i in
      if gic_id <? 0 then (- EINVAL, bL_switcher_restore_cpus e s)
      else
        let s := s <| bL_gic_id := <[cpu := <[cluster := gic_id]> (bL_gic_id s cpu)]> (bL_gic_id s) |> in
        if negb (bL_switcher_cpu_pairing s i =? -1)
        then remove_cpus e l (s <| bL_switcher_cpu_original_cluster :=
                                    <[i := cluster]> (bL_switcher_cpu_original_cluster s) |>)
        else
          let '(ret, s) := cpu_down e i s in
          if nonzero ret then (ret, bL_switcher_restore_cpus e s)
          else remove_cpus e l (s <| bL_switcher_removed_logical_cpus :=
                                      cpumask_set_cpu i (bL_switcher_removed_logical_cpus s) |>)
  end.

Definition bL_switcher_halve_cpus e s : Z * bls :=
  match validate_cpus s (cpus_of (cpu_online_mask s)) 0 with
  | None => (- EINVAL, s)
  | Some mask =>
      if negb (mask =? 3) then (- EINVAL, s)
      else
        let s := s <| bL_switcher_cpu_pairing :=
                        pair_cpus s cpu_ids (-1) (cpu_online_mask s) (fun _ => -1) |> in
        let s := s <| bL_switcher_removed_logical_cpus := 0 |> in
        remove_cpus e (cpus_of (cpu_online_mask s)) s
  end.

(** [bL_switcher_get_logical_index] *)
Definition bL_switcher_get_logical_index s (mpidr : Z) : Z :=
  if negb (bL_switcher_active s) then - EUNATCH
  else
    let mpidr := Z.land mpidr MPIDR_HWID_BITMASK in
    match find (fun cpu =>
                  let pairing := bL_switcher_cpu_pairing s cpu in
                  negb (pairing =? -1)
                  && ((mpidr =? cpu_logical_map s cpu) || (mpidr =? cpu_logical_map s pairing)))
               (cpus_of (cpu_online_mask s)) with
    | Some cpu => cpu
    | None => - EINVAL
    end.

(** * Switching *)

(** [bL_switch_to(new_cluster_id)] on logical CPU [this_cpu], including [bL_do_switch] on
    the outbound and the return from [cpu_suspend] on the inbound CPU. *)
Definition bL_switch_to e (this_cpu new_cluster_id : Z) s : option (Z * bls) :=
  let ob_mpidr := running_on s this_cpu in
  if negb (cpu_logical_map s this_cpu =? ob_mpidr) then None
  else if new_cluster_id =? cluster_of_mpidr ob_mpidr then Some (0, s)
  else
    let that_cpu := bL_switcher_cpu_pairing s this_cpu in
    if that_cpu <? 0 then None
    else
      let ib_mpidr := cpu_logical_map s that_cpu in
      let s := emit (HwGate ob_mpidr false) s in
      let s := emit (HwGate ib_mpidr false) s in
      let s := emit (HwPoke ib_mpidr true) s in
      let s := emit (HwPowerUp ib_mpidr) s in
      let ret := power_up_result e ib_mpidr in
      if nonzero ret then Some (ret, s)
      else
        let s := emit (HwSgi ib_mpidr) s in
        let s := emit (HwPoke ib_mpidr false) s in
        let s := emit (HwMigrateIrq ib_mpidr) s in
        if nonzero (cpu_pm_enter e) then None
        else
          let s := s <| cpu_logical_map :=
                          <[that_cpu := ob_mpidr]> (<[this_cpu := ib_mpidr]> (cpu_logical_map s)) |> in
          let s := emit (HwSuspend ob_mpidr) s in
          let s := emit (HwGate ib_mpidr true) s in
          let s := emit (HwResume ib_mpidr) (s <| running_on := <[this_cpu := ib_mpidr]> (running_on s) |>) in
          let s := emit (HwPowerDown ob_mpidr) s in
          Some (cpu_pm_exit e, s).

(** * Requests and switcher threads *)

Definition upd_thread (cpu : Z) (t : bL_thread) s : bls := s <| bL_threads := <[cpu := t]> (bL_threads s) |>.
Definition goto_pc (cpu : Z) (p : thread_pc) s : bls := s <| thread_state := <[cpu := p]> (thread_state s) |>.

(** The first part of [bL_switch_request_cb], without the lock: [None] lets the caller
    go on. *)
Definition request_check (cpu : Z) s : option Z :=
  if (cpu <? 0) || (NR_CPUS <=? cpu) then Some (- EINVAL)
  else match task (bL_threads s cpu) with
       | TErr err => Some err
       | TNull => Some (- ESRCH)
       | TTask => None
       end.

(** The second part, under [t->lock]. *)
Definition request_post (cpu new_cluster_id : Z) (comp : option Z) (cookie : Z) s : Z * bls :=
  let t := bL_threads s cpu in
  match completer t with
  | Some _ => (- EBUSY, s)
  | None => (0, upd_thread cpu (t <| completer := comp |> <| completer_cookie := cookie |>
                                  <| wanted_cluster := new_cluster_id |>) s)
  end.

Definition bL_switch_request_cb (cpu new_cluster_id : Z) (comp : option Z) (cookie : Z) s : Z * bls :=
  match request_check cpu s with
  | Some err => (err, s)
  | None => request_post cpu new_cluster_id comp cookie s
  end.

Definition bL_switch_request_detach (cpu : Z) (comp : Z) s : bls :=
  match request_check cpu s with
  | Some _ => s
  | None =>
      let t := bL_threads s cpu in
      if bool_decide (completer t = Some comp) then upd_thread cpu (t <| completer := None |>) s else s
  end.

(** The locked part of the loop of [bL_switcher_thread]. *)
Definition thread_take (cpu : Z) s : bls :=
  let t := bL_threads s cpu in
  goto_pc cpu (Taken (wanted_cluster t) (completer t) (completer_cookie t))
    (upd_thread cpu (t <| wanted_cluster := -1 |> <| completer := None |>) s).

(** What the thread does with a request it has taken. *)
Definition thread_run e (cpu cluster : Z) (comp : option Z) (cookie : Z) s : option bls :=
  if cluster =? -1 then Some s
  else
    '(_, s) ← bL_switch_to e cpu cluster s;
    Some (match comp with Some h => emit (EvCompleter h cookie) s | None => s end).

(** One step of a switcher thread that is not asked to stop. *)
Definition bL_switcher_thread_step e (cpu : Z) s : option bls :=
  match thread_state s cpu with
  | NoThread => Some s
  | Waiting => Some (if wanted_cluster (bL_threads s cpu) =? -1 then s else thread_take cpu s)
  | Taken cluster comp cookie => s ← thread_run e cpu cluster comp cookie s; Some (goto_pc cpu Waiting s)
  end.

(** [kthread_stop]: the thread finishes its round and leaves. *)
Definition kthread_stop e (cpu : Z) s : option bls :=
  let s := match thread_state s cpu with Waiting => thread_take cpu s | _ => s end in
  match thread_state s cpu with
  | Taken cluster comp cookie => s ← thread_run e cpu cluster comp cookie s; Some (goto_pc cpu NoThread s)
  | _ => Some s
  end.

Definition bL_switcher_thread_create e (cpu : Z) s : task_ptr * bls :=
  match thread_error e cpu with
  | Some err => (TErr err, s)
  | None => (TTask, goto_pc cpu Waiting s)
  end.

(** * Turning the switcher on and off *)

Definition bL_activation_notify e (val : Z) s : Z * bls := (notify_result e val, emit (EvNotify val) s).

Definition start_thread e s (cpu : Z) : bls :=
  let s := upd_thread cpu (bL_threads s cpu <| wanted_cluster := -1 |>) s in
  let '(t, s) := bL_switcher_thread_create e cpu s in
  upd_thread cpu (bL_threads s cpu <| task := t |>) s.

Definition bL_switcher_enable e s : Z * bls :=
  if bL_switcher_active s then (0, s)
  else
    let '(ret, s) := bL_activation_notify e BL_NOTIFY_PRE_ENABLE s in
    let '(ret, s) := if nonzero ret then (ret, s) else bL_switcher_halve_cpus e s in
    if nonzero ret then (ret, (bL_activation_notify e BL_NOTIFY_POST_DISABLE s).2)
    else
      let s := foldl (start_thread e) s (cpus_of (cpu_online_mask s)) in
      let s := s <| bL_switcher_active := true |> in
      (ret, (bL_activation_notify e BL_NOTIFY_POST_ENABLE s).2).

(** The switch back of one CPU in [bL_switcher_disable]. *)
Definition restore_cluster e (cpu : Z) s : option bls :=
  let t := bL_threads s cpu in
  let s := upd_thread cpu (t <| task := TNull |>) s in
  match task t with
  | TTask =>
      s ← kthread_stop e cpu s;
      if cluster_of s cpu =? bL_switcher_cpu_original_cluster s cpu then Some s
      else
        let s := upd_thread cpu (bL_threads s cpu
                   <| wanted_cluster := bL_switcher_cpu_original_cluster s cpu |>) s in
        let '(t, s) := bL_switcher_thread_create e cpu s in
        s ← match t with TTask => kthread_stop e cpu s | _ => Some s end;
        if match t with TTask => cluster_of s cpu =? bL_switcher_cpu_original_cluster s cpu | _ => false end
        then Some s
        else Some (s <| bL_switcher_removed_logical_cpus :=
                          cpumask_clear_cpu (bL_switcher_cpu_pairing s cpu)
                            (bL_switcher_removed_logical_cpus s) |>)
  | _ => Some s
  end.

Fixpoint restore_clusters e (l : list Z) s : option bls :=
  match l with
  | [] => Some s
  | cpu :: l => s ← restore_cluster e cpu s; restore_clusters e l s
  end.

Definition bL_switcher_disable e s : option bls :=
  if negb (bL_switcher_active s) then Some s
  else
    let '(ret, s) := bL_activation_notify e BL_NOTIFY_PRE_DISABLE s in
    if nonzero ret then Some (bL_activation_notify e BL_NOTIFY_POST_ENABLE s).2
    else
      let s := s <| bL_switcher_active := false |> in
      s ← restore_clusters e (cpus_of (cpu_online_mask s)) s;
      let s := bL_switcher_restore_cpus e s in
      Some (bL_activation_notify e BL_NOTIFY_POST_DISABLE s).2.

(** [bL_switcher_active_store], for the first character written; the result is an error
    or the number of characters. *)
Definition bL_switcher_active_store e (c count : Z) s : option (Z * bls) :=
  if c =? 48 then s ← bL_switcher_disable e s; Some (count, s)
  else if c =? 49 then
    let '(ret, s) := bL_switcher_enable e s in Some (if 0 <=? ret then count else ret, s)
  else Some (- EINVAL, s).

(** * The pairing *)

(** The CPUs of a mask in the cluster [c0], and those in the other one. *)
Definition same_cluster s (c0 : Z) (m : cpumask) : list Z := filter (fun i => cluster_of s i = c0) (cpus_of m).
Definition other_cluster s (c0 : Z) (m : cpumask) : list Z := filter (fun i => cluster_of s i <> c0) (cpus_of m).

Definition link (p : Z -> Z) (l : list (Z * Z)) : Z -> Z := foldl (fun p ij => <[ij.1 := ij.2]> p) p l.

Lemma last_match_last s c0 m : last_match s c0 m = default (-1) (last (other_cluster s c0 m)).
Proof.
  unfold last_match, other_cluster. generalize (-1) as d. induction (cpus_of m) as [|j l IH]; intros d; [done|].
  cbn [foldl]. rewrite IH. destruct (Z.eqb_spec (cluster_of s j) c0) as [E|E]; simpl.
  - by rewrite filter_cons_False by (by intros []).
  - rewrite filter_cons_True by done. rewrite last_cons. by destruct (last (filter _ l)).
Qed.

Lemma filter_ext_in {A} (P Q : A -> Prop) `{!forall x, Decision (P x)} `{!forall x, Decision (Q x)} (l : list A) :
  (forall x, x ∈ l -> P x <-> Q x) -> filter P l = filter Q l.
Proof.
  induction l as [|x l IH]; intros Hl; [done|]. rewrite !filter_cons, IH by set_solver.
  pose proof (Hl x ltac:(set_solver)). by repeat case_decide; try tauto.
Qed.

Lemma cpus_of_clear i m : cpus_of (cpumask_clear_cpu i m) = filter (fun j => j <> i) (cpus_of m).
Proof.
  unfold cpus_of. rewrite list_filter_filter. apply list_filter_iff. intros j.
  destruct (decide (j = i)) as [->|]; [rewrite test_clear_eq; naive_solver|].
  rewrite test_clear_ne by done. naive_solver.
Qed.

Lemma other_clear s c0 i m :
  other_cluster s c0 (cpumask_clear_cpu i m) = filter (fun j => j <> i) (other_cluster s c0 m).
Proof.
  unfold other_cluster. rewrite cpus_of_clear, !list_filter_filter. apply list_filter_iff. naive_solver.
Qed.

Lemma NoDup_other s c0 m : NoDup (other_cluster s c0 m).
Proof. apply list.NoDup_filter, NoDup_cpus_of. Qed.

Lemma filter_ne_last (l : list Z) x : NoDup (l ++ [x]) -> filter (fun j => j <> x) (l ++ [x]) = l.
Proof.
  intros Hn. rewrite filter_app, filter_cons_False, filter_nil, app_nil_r by (by intros []).
  apply filter_keeps. apply list.NoDup_app in Hn as (_ & Hn & _). intros j Hj ->. apply (Hn x Hj). set_solver.
Qed.

(** From a mask and a cluster on: the CPUs of the cluster that are still to come are
    paired with the others from the last on. *)
Lemma pair_cpus_zip s l c0 m p :
  NoDup l -> c0 <> -1 ->
  pair_cpus s l c0 m p =
    link p (zip (filter (fun i => cpumask_test_cpu i m = true /\ cluster_of s i = c0) l)
                (reverse (other_cluster s c0 m))).
Proof.
  intros Hn Hc0. revert m p. induction Hn as [|i l Hi Hn IH]; intros m p; [done|]. cbn [pair_cpus].
  rewrite (proj2 (Z.eqb_neq c0 (-1))) by done.
  destruct (cpumask_test_cpu i m) eqn:Hm; cbn [negb]; [|rewrite filter_cons_False by (rewrite Hm; by intros []); apply IH].
  destruct (Z.eqb_spec (cluster_of s i) c0) as [Hc|Hc]; cbn [negb];
    [|rewrite filter_cons_False by (by intros []); apply IH].
  rewrite filter_cons_True by done. rewrite last_match_last, !IH, !other_clear.
  assert (Ei : filter (fun j => j <> i) (other_cluster s c0 m) = other_cluster s c0 m).
  { apply filter_keeps. intros j [Hj _]%list_elem_of_filter ->. done. }
  assert (Ef : forall m', (forall j, cluster_of s j = c0 -> j <> i ->
      cpumask_test_cpu j m' = cpumask_test_cpu j m) ->
    filter (fun j => cpumask_test_cpu j m' = true /\ cluster_of s j = c0) l
    = filter (fun j => cpumask_test_cpu j m = true /\ cluster_of s j = c0) l).
  { intros m' Hm'. apply filter_ext_in. intros j Hj.
    assert (j <> i) by (by intros ->). split; intros [H1 H2]; [rewrite Hm' in H1|rewrite Hm']; auto. }
  rewrite Ei. destruct (other_cluster s c0 m) as [|m1 r _] eqn:Eo using rev_ind; simpl.
  - rewrite Ef by (intros j _ Hj; by apply test_clear_ne). by destruct (filter _ l).
  - assert (Hm1 : cluster_of s m1 <> c0).
    { assert (Hin : m1 ∈ other_cluster s c0 m) by (rewrite Eo; set_solver).
      by apply list_elem_of_filter in Hin as [Hin _]. }
    assert (Hm0 : m1 <> -1).
    { intros ->. assert (Hin : -1 ∈ other_cluster s c0 m) by (rewrite Eo; set_solver).
      apply list_elem_of_filter in Hin as [_ Hin]. apply elem_of_cpus_of in Hin. lia. }
    rewrite last_snoc. simpl. rewrite (proj2 (Z.eqb_neq m1 (-1))) by done. simpl.
    rewrite filter_ne_last by (rewrite <- Eo; apply NoDup_other). rewrite reverse_snoc. simpl.
    rewrite Ef; [done|]. intros j Hj Hji. rewrite !test_clear_ne by congruence. done.
Qed.

(** The pairing [bL_switcher_halve_cpus] makes. *)
Definition pairs s : list (Z * Z) :=
  match cpus_of (cpu_online_mask s) with
  | [] => []
  | i :: _ =>
      let c0 := cluster_of s i in
      zip (same_cluster s c0 (cpu_online_mask s)) (reverse (other_cluster s c0 (cpu_online_mask s)))
  end.

Lemma cluster_nonneg mpidr : 0 <= cluster_of_mpidr mpidr.
Proof. unfold cluster_of_mpidr, MPIDR_AFFINITY_LEVEL. apply Z.land_nonneg. by right. Qed.

(** As long as no CPU has been seen, the cluster to start with is open. *)
Lemma pair_cpus_first s l m p :
  pair_cpus s l (-1) m p =
    match filter (fun i => cpumask_test_cpu i m = true) l with
    | [] => p
    | i :: _ => pair_cpus s l (cluster_of s i) m p
    end.
Proof.
  induction l as [|i l IH]; [done|]. cbn [pair_cpus]. destruct (cpumask_test_cpu i m) eqn:Hm; cbn [negb].
  - rewrite filter_cons_True by done. by destruct (cluster_of s i =? -1).
  - rewrite filter_cons_False by congruence. rewrite IH. by destruct (filter _ l).
Qed.

Lemma pair_cpus_pairs s :
  pair_cpus s cpu_ids (-1) (cpu_online_mask s) (fun _ => -1) = link (fun _ => -1) (pairs s).
Proof.
  rewrite pair_cpus_first. unfold pairs. change (filter _ cpu_ids) with (cpus_of (cpu_online_mask s)).
  destruct (cpus_of (cpu_online_mask s)) as [|i l] eqn:E; [done|].
  rewrite pair_cpus_zip; [|apply NoDup_cpu_ids|pose proof (cluster_nonneg (cpu_logical_map s i)); unfold cluster_of; lia].
  do 2 f_equal. unfold same_cluster, cpus_of. rewrite list_filter_filter.
  apply list_filter_iff. naive_solver.
Qed.

(** ** The CPUs left online *)

(** What halving leaves alone. *)
Record same_rest s s' : Prop := {
  sr_map : cpu_logical_map s' = cpu_logical_map s;
  sr_run : running_on s' = running_on s;
  sr_pair : bL_switcher_cpu_pairing s' = bL_switcher_cpu_pairing s;
  sr_active : bL_switcher_active s' = bL_switcher_active s;
  sr_threads : bL_threads s' = bL_threads s;
  sr_pc : thread_state s' = thread_state s;
  sr_log : log s' = log s;
}.

#[local] Instance same_rest_refl : Reflexive same_rest.
Proof. by split. Qed.
#[local] Instance same_rest_trans : Transitive same_rest.
Proof. intros s1 s2 s3 [] []. split; congruence. Qed.

Definition unpaired s (i : Z) : bool := bL_switcher_cpu_pairing s i =? -1.

(** The removal loop after the CPUs [done] of the online mask of [s0]. *)
Record removed_upto s0 (done : list Z) s : Prop := {
  ru_rest : same_rest s0 s;
  ru_online : forall i, 0 <= i < NR_CPUS -> cpumask_test_cpu i (cpu_online_mask s)
              = cpumask_test_cpu i (cpu_online_mask s0) && negb (bool_decide (i ∈ done) && unpaired s0 i);
  ru_removed : forall i, 0 <= i < NR_CPUS -> cpumask_test_cpu i (bL_switcher_removed_logical_cpus s)
               = bool_decide (i ∈ done) && unpaired s0 i;
  ru_orig : forall i, i ∈ done -> unpaired s0 i = false ->
            bL_switcher_cpu_original_cluster s i = cluster_of s0 i;
}.

Lemma restore_cpus_online e s :
  (forall i, cpu_up_result e i = 0) -> bL_switcher_active s = false ->
  let s' := bL_switcher_restore_cpus e s in
  same_rest s s' /\ bL_switcher_removed_logical_cpus s' = bL_switcher_removed_logical_cpus s
  /\ forall i, 0 <= i < NR_CPUS -> cpumask_test_cpu i (cpu_online_mask s')
       = cpumask_test_cpu i (cpu_online_mask s) || cpumask_test_cpu i (bL_switcher_removed_logical_cpus s).
Proof.
  intros He Ha. unfold bL_switcher_restore_cpus. set (r := bL_switcher_removed_logical_cpus s).
  assert (G : forall l s, bL_switcher_active s = false -> (forall i, i ∈ l -> 0 <= i) ->
    let s' := foldl (fun s i => (cpu_up e i s).2) s l in
    same_rest s s' /\ bL_switcher_removed_logical_cpus s' = bL_switcher_removed_logical_cpus s
    /\ forall i, cpumask_test_cpu i (cpu_online_mask s')
         = cpumask_test_cpu i (cpu_online_mask s) || bool_decide (i ∈ l)).
  { clear - He. induction l as [|j l IH]; intros s Ha Hl; cbn [foldl].
    - split_and!; try done. intros i. rewrite bool_decide_false by set_solver. by rewrite orb_false_r.
    - unfold cpu_up at 2 4 6. unfold bL_switcher_hotplug_callback. rewrite Ha, He. cbn [Z.eqb snd].
      match goal with |- context [foldl _ ?x l] => destruct (IH x) as (R & E & O); [done|set_solver|] end.
      split_and!; [destruct R; by split|done|]. intros i. rewrite O. simpl.
      destruct (decide (j = i)) as [->|Hji].
      + rewrite test_set_eq by (apply Hl; set_solver). symmetry. rewrite orb_true_iff. right.
        apply bool_decide_eq_true. set_solver.
      + assert (0 <= j) by (apply Hl; set_solver). rewrite test_set_ne by done. f_equal.
        apply bool_decide_ext. set_solver. }
  destruct (G (cpus_of r) s Ha) as (R & E & O); [intros i Hi%elem_of_cpus_of; lia|].
  split_and!; [done..|]. intros i Hi. rewrite O. f_equal.
  destruct (cpumask_test_cpu i r) eqn:Hr.
  - apply bool_decide_eq_true. by apply elem_of_cpus_of.
  - apply bool_decide_eq_false. intros [_ Hx]%elem_of_cpus_of. congruence.
Qed.

Lemma restore_upto e s0 done s :
  removed_upto s0 done s -> bL_switcher_active s0 = false ->
  (forall i, i ∈ done -> cpumask_test_cpu i (cpu_online_mask s0) = true) ->
  (forall i, cpu_up_result e i = 0) ->
  let s' := bL_switcher_restore_cpus e s in
  same_rest s0 s'
  /\ forall i, 0 <= i < NR_CPUS ->
       cpumask_test_cpu i (cpu_online_mask s') = cpumask_test_cpu i (cpu_online_mask s0).
Proof.
  intros [R O M _] Ha Hd He. assert (Ha' : bL_switcher_active s = false) by (by rewrite (sr_active _ _ R)).
  destruct (restore_cpus_online e s He Ha') as (R' & _ & O'). split; [by etrans|].
  intros i Hi. rewrite O', O, M by done. specialize (Hd i). case_bool_decide; [rewrite Hd by done|];
    by destruct (unpaired s0 i), (cpumask_test_cpu i (cpu_online_mask s0)).
Qed.

Lemma removed_upto_gic s0 done s g : removed_upto s0 done s -> removed_upto s0 done (s <| bL_gic_id := g |>).
Proof. intros [[] O M C]. by split. Qed.

(** One more CPU, paired or taken down. *)
Lemma removed_upto_paired s0 done s i o :
  removed_upto s0 done s -> unpaired s0 i = false -> o = <[i := cluster_of s0 i]> (bL_switcher_cpu_original_cluster s) ->
  removed_upto s0 (done ++ [i])
    (s <| bL_switcher_cpu_original_cluster := o |>).
Proof.
  intros [R O M C] Hp ->.
  assert (E : forall j, bool_decide (j ∈ done ++ [i]) && unpaired s0 j = bool_decide (j ∈ done) && unpaired s0 j).
  { intros j. destruct (decide (j = i)) as [->|]; [by rewrite Hp, !andb_false_r|].
    f_equal. apply bool_decide_ext. set_solver. }
  split; simpl.
  - by destruct R.
  - intros j Hj. by rewrite E, O.
  - intros j Hj. by rewrite E, M.
  - intros j Hj Hu. destruct (decide (i = j)) as [->|]; [by rewrite fn_lookup_insert|].
    rewrite fn_lookup_insert_ne by done. apply C; [set_solver|done].
Qed.

Lemma removed_upto_down s0 done s i :
  removed_upto s0 done s -> 0 <= i -> unpaired s0 i = true ->
  removed_upto s0 (done ++ [i])
    (s <| cpu_online_mask := cpumask_clear_cpu i (cpu_online_mask s) |>
       <| bL_switcher_removed_logical_cpus := cpumask_set_cpu i (bL_switcher_removed_logical_cpus s) |>).
Proof.
  intros [R O M C] Hi Hp. split; simpl.
  - by destruct R.
  - intros j Hj. destruct (decide (i = j)) as [->|Hne].
    + rewrite test_clear_eq, Hp, bool_decide_true by set_solver. by rewrite andb_false_r.
    + rewrite test_clear_ne, O by done. do 3 f_equal. apply bool_decide_ext. set_solver.
  - intros j Hj. destruct (decide (i = j)) as [->|Hne].
    + rewrite test_set_eq, Hp, bool_decide_true by (done || set_solver). done.
    + rewrite test_set_ne, M by done. f_equal. apply bool_decide_ext. set_solver.
  - intros j Hj Hu. apply C; [|done]. apply elem_of_app in Hj as [?|Hj]; [done|].
    apply list_elem_of_singleton in Hj as ->. congruence.
Qed.

(** The loop either takes down exactly the CPUs without a pairing, or fails and, if CPUs
    can be brought up again, leaves the online CPUs as they were. *)
Lemma remove_cpus_ok e l s0 done s :
  removed_upto s0 done s -> bL_switcher_active s0 = false ->
  (forall i, i ∈ done ++ l -> 0 <= i < NR_CPUS /\ cpumask_test_cpu i (cpu_online_mask s0) = true) ->
  let '(ret, s') := remove_cpus e l s in
  (ret = 0 -> removed_upto s0 (done ++ l) s')
  /\ (ret <> 0 -> (forall i, cpu_up_result e i = 0) -> same_rest s0 s'
      /\ forall i, 0 <= i < NR_CPUS ->
           cpumask_test_cpu i (cpu_online_mask s') = cpumask_test_cpu i (cpu_online_mask s0)).
Proof.
  revert done s. induction l as [|i l IH]; intros done s Hu Ha Hl; cbn [remove_cpus].
  { rewrite app_nil_r. done. }
  assert (Hon : forall j, j ∈ done -> cpumask_test_cpu j (cpu_online_mask s0) = true).
  { intros j Hj. apply Hl. set_solver. }
  assert (Ha' : bL_switcher_active s = false) by (by rewrite (sr_active _ _ (ru_rest _ _ _ Hu))).
  assert (Hi : 0 <= i) by (destruct (Hl i); [set_solver|lia]).
  destruct (gic_get_cpu_id e i <? 0). { split; [done|]. intros _. by apply (restore_upto e s0 done). }
  set (g := <[_ := _]> (bL_gic_id s)). apply (removed_upto_gic _ _ _ g) in Hu.
  assert (Hcl : cluster_of s i = cluster_of s0 i) by (unfold cluster_of; by rewrite <- (sr_map _ _ (ru_rest _ _ _ Hu))).
  rewrite Hcl. change (bL_switcher_active s) with (bL_switcher_active (s <| bL_gic_id := g |>)) in Ha'.
  clearbody g. set (s1 := s <| bL_gic_id := g |>) in *. clearbody s1. clear s Hcl.
  rewrite (sr_pair _ _ (ru_rest _ _ _ Hu)). fold (unpaired s0 i).
  rewrite cons_middle, app_assoc in Hl |- *. destruct (unpaired s0 i) eqn:Hp; cbn [negb].
  - unfold cpu_down, bL_switcher_hotplug_callback. rewrite Ha'.
    destruct (Z.eqb_spec (cpu_down_result e i) 0) as [E|E].
    + cbn [nonzero Z.eqb negb]. apply IH; [exact (removed_upto_down s0 done s1 i Hu Hi Hp)|done..].
    + unfold nonzero. rewrite (proj2 (Z.eqb_neq _ _) E). cbn [negb]. split; [done|].
      intros _ He. by apply (restore_upto e s0 done).
  - apply IH; [|done..]. by apply removed_upto_paired.
Qed.

(** ** The pairing is a matching between the clusters *)

Lemma link_notin p l i : i ∉ l.*1 -> link p l i = p i.
Proof.
  revert p. induction l as [|[a b] l IH]; intros p Hi; [done|]. cbn [link foldl].
  change (link (<[a := b]> p) l i = p i). rewrite IH by set_solver.
  apply fn_lookup_insert_ne. set_solver.
Qed.

Lemma link_in p l i j : NoDup l.*1 -> (i, j) ∈ l -> link p l i = j.
Proof.
  revert p. induction l as [|[a b] l IH]; intros p Hn Hi; [set_solver|]. cbn [fmap list_fmap fst] in Hn.
  apply list.NoDup_cons in Hn as [Ha Hn]. change (link (<[a := b]> p) l i = j).
  apply elem_of_cons in Hi as [[= <- <-]|Hi]; [|by apply IH].
  rewrite link_notin by done. apply fn_lookup_insert.
Qed.

Lemma zip_fst_sublist {A B} (l : list A) (k : list B) : (zip l k).*1 `sublist_of` l.
Proof. revert k. induction l as [|x l IH]; intros [|y k]; simpl; auto using sublist_skip, sublist_nil_l. Qed.
Lemma zip_snd_sublist {A B} (l : list A) (k : list B) : (zip l k).*2 `sublist_of` k.
Proof. revert k. induction l as [|x l IH]; intros [|y k]; simpl; auto using sublist_skip, sublist_nil_l. Qed.

Record pairs_ok s (L : list (Z * Z)) : Prop := {
  po_l : NoDup L.*1;
  po_r : NoDup L.*2;
  po_online : forall i j, (i, j) ∈ L -> i ∈ cpus_of (cpu_online_mask s) /\ j ∈ cpus_of (cpu_online_mask s);
  po_cluster : exists c0, forall i j, (i, j) ∈ L -> cluster_of s i = c0 /\ cluster_of s j <> c0;
}.

Lemma pairs_matching s : pairs_ok s (pairs s).
Proof.
  unfold pairs. destruct (cpus_of (cpu_online_mask s)) as [|i0 l] eqn:E.
  { split; [constructor|constructor|set_solver|exists 0; set_solver]. }
  set (A := same_cluster _ _ _). set (B := other_cluster _ _ _).
  assert (Hin : forall i j, (i, j) ∈ zip A (reverse B) -> i ∈ A /\ j ∈ B).
  { intros i j Hij. split; [by eapply elem_of_zip_l|]. apply elem_of_reverse. by eapply elem_of_zip_r. }
  split.
  - eapply sublist_NoDup; [|apply zip_fst_sublist]. apply list.NoDup_filter, NoDup_cpus_of.
  - eapply sublist_NoDup; [|apply zip_snd_sublist]. rewrite (reverse_Permutation _). apply NoDup_other.
  - intros i j [Hi Hj]%Hin. apply list_elem_of_filter in Hi as [_ Hi], Hj as [_ Hj]. done.
  - exists (cluster_of s i0). intros i j [Hi Hj]%Hin. by apply list_elem_of_filter in Hi as [Hi _], Hj as [Hj _].
Qed.

(** Lookup in the pairing. *)
Lemma pairs_lookup s i j : (i, j) ∈ pairs s -> link (fun _ => -1) (pairs s) i = j.
Proof. apply link_in, pairs_matching. Qed.

Lemma pairs_unpaired s i : (link (fun _ => -1) (pairs s) i =? -1) = negb (bool_decide (i ∈ (pairs s).*1)).
Proof.
  case_bool_decide as Hi; simpl.
  - apply list_elem_of_fmap in Hi as ([a b] & -> & Hi). cbn [fst]. rewrite (pairs_lookup s a b Hi).
    destruct (po_online _ _ (pairs_matching s) a b Hi) as [_ Hb%elem_of_cpus_of]. lia.
  - rewrite link_notin by done. done.
Qed.

(** The state after a successful halving of [s]. *)
Record halved s s' : Prop := {
  hv_pairing : bL_switcher_cpu_pairing s' = link (fun _ => -1) (pairs s);
  hv_online : forall i, 0 <= i < NR_CPUS ->
    cpumask_test_cpu i (cpu_online_mask s') = bool_decide (i ∈ (pairs s).*1);
  hv_removed : forall i, 0 <= i < NR_CPUS -> cpumask_test_cpu i (bL_switcher_removed_logical_cpus s')
    = cpumask_test_cpu i (cpu_online_mask s) && negb (bool_decide (i ∈ (pairs s).*1));
  hv_orig : forall i, i ∈ (pairs s).*1 -> bL_switcher_cpu_original_cluster s' i = cluster_of s i;
  hv_map : cpu_logical_map s' = cpu_logical_map s;
  hv_run : running_on s' = running_on s;
  hv_active : bL_switcher_active s' = bL_switcher_active s;
  hv_threads : bL_threads s' = bL_threads s;
  hv_pc : thread_state s' = thread_state s;
}.

Lemma halve_cpus_ok e s :
  bL_switcher_active s = false ->
  let '(ret, s') := bL_switcher_halve_cpus e s in
  (ret = 0 -> halved s s')
  /\ (ret <> 0 -> (forall i, cpu_up_result e i = 0) -> forall i, 0 <= i < NR_CPUS ->
        cpumask_test_cpu i (cpu_online_mask s') = cpumask_test_cpu i (cpu_online_mask s)).
Proof.
  intros Ha. unfold bL_switcher_halve_cpus. destruct (validate_cpus _ _ _) as [mask|]; [|by split].
  destruct (negb (mask =? 3)); [by split|]. rewrite pair_cpus_pairs.
  set (s1 := s <| bL_switcher_cpu_pairing := _ |> <| bL_switcher_removed_logical_cpus := 0 |>).
  change (cpu_online_mask s) with (cpu_online_mask s1) at 1.
  assert (Hu : removed_upto s1 [] s1).
  { split; [done|..]; intros i Hi.
    - rewrite bool_decide_false by set_solver. by rewrite andb_true_r.
    - rewrite bool_decide_false by set_solver. apply Z.bits_0.
    - set_solver. }
  pose proof (remove_cpus_ok e (cpus_of (cpu_online_mask s1)) s1 [] s1 Hu Ha) as Hr.
  destruct (remove_cpus e _ s1) as [ret s']. destruct Hr as [H1 H2]; [by intros i Hi%elem_of_cpus_of|].
  split; [|intros Hx Hy i Hi; by apply H2].
  intros [[] O M C]%H1. assert (Hun : forall i, unpaired s1 i = negb (bool_decide (i ∈ (pairs s).*1)))
    by (intros i; apply pairs_unpaired).
  assert (Hon : forall i, i ∈ (pairs s).*1 -> i ∈ cpus_of (cpu_online_mask s)).
  { intros i ([a b] & -> & Hi)%list_elem_of_fmap. by apply (po_online _ _ (pairs_matching s) a b). }
  assert (Hd : forall i, 0 <= i < NR_CPUS ->
    bool_decide (i ∈ [] ++ cpus_of (cpu_online_mask s1)) = cpumask_test_cpu i (cpu_online_mask s)).
  { intros i Hi. simpl. destruct (cpumask_test_cpu i (cpu_online_mask s)) eqn:E.
    - apply bool_decide_eq_true. by apply elem_of_cpus_of.
    - apply bool_decide_eq_false. intros [_ Hx]%elem_of_cpus_of. by rewrite E in Hx. }
  split; try done.
  - intros i Hi. rewrite O, Hd, Hun by done. change (cpu_online_mask s1) with (cpu_online_mask s).
    case_bool_decide as Hin; simpl; [|by destruct (cpumask_test_cpu i _)].
    by apply Hon, elem_of_cpus_of in Hin as [_ ->].
  - intros i Hi. by rewrite M, Hd, Hun.
  - intros i Hi. apply C; [apply (Hon i Hi)|]. by rewrite Hun, bool_decide_true.
Qed.

(** C31. Halving the CPUs.  With [A] the online CPUs of the cluster of the first one and [B]
    those of the other, [bL_switcher_halve_cpus] pairs the first of [A] with the last of
    [B], the second with the last but one and so on; if it succeeds, exactly the CPUs of
    [A] that got a partner stay online, all others are taken down and remembered, and
    each CPU's original cluster is recorded.  If it fails and CPUs can be brought up
    again, the online CPUs are the same as before. *)
Theorem halve_cpus_spec e s :
  bL_switcher_active s = false ->
  let '(ret, s') := bL_switcher_halve_cpus e s in
  (ret = 0 ->
    bL_switcher_cpu_pairing s' = link (fun _ => -1) (pairs s)
    /\ (forall i, 0 <= i < NR_CPUS ->
          cpumask_test_cpu i (cpu_online_mask s') = bool_decide (i ∈ (pairs s).*1)
          /\ cpumask_test_cpu i (bL_switcher_removed_logical_cpus s')
             = cpumask_test_cpu i (cpu_online_mask s) && negb (bool_decide (i ∈ (pairs s).*1)))
    /\ (forall i, i ∈ (pairs s).*1 -> bL_switcher_cpu_original_cluster s' i = cluster_of s i)
    /\ cpu_logical_map s' = cpu_logical_map s)
  /\ (ret <> 0 -> (forall i, cpu_up_result e i = 0) -> forall i, 0 <= i < NR_CPUS ->
        cpumask_test_cpu i (cpu_online_mask s') = cpumask_test_cpu i (cpu_online_mask s)).
Proof.
  intros Ha. pose proof (halve_cpus_ok e s Ha) as Hh. destruct (bL_switcher_halve_cpus e s) as [ret s'].
  destruct Hh as [H1 H2]. split; [|done]. intros [P O R C M _ _ _ _]%H1. split_and!; auto.
Qed.

(** * Executions *)

(** A system the switcher may be turned on in: it is off, and each online CPU runs on the
    physical CPU of its own that the logical map names. *)
Record boot_ok s : Prop := {
  bo_off : bL_switcher_active s = false;
  bo_run : forall i, i ∈ cpus_of (cpu_online_mask s) -> running_on s i = cpu_logical_map s i;
  bo_hwid : forall i, i ∈ cpus_of (cpu_online_mask s) ->
            Z.land (cpu_logical_map s i) MPIDR_HWID_BITMASK = cpu_logical_map s i;
  bo_inj : forall i j, i ∈ cpus_of (cpu_online_mask s) -> j ∈ cpus_of (cpu_online_mask s) ->
           cpu_logical_map s i = cpu_logical_map s j -> i = j;
}.

(** While the switcher is on: every pair of CPUs still shares its two physical CPUs, in
    one or the other order. *)
Record sw_ok s0 s : Prop := {
  so_pairing : bL_switcher_cpu_pairing s = link (fun _ => -1) (pairs s0);
  so_online : forall i, 0 <= i < NR_CPUS ->
    cpumask_test_cpu i (cpu_online_mask s) = bool_decide (i ∈ (pairs s0).*1);
  so_removed : forall i, 0 <= i < NR_CPUS -> cpumask_test_cpu i (bL_switcher_removed_logical_cpus s)
    = cpumask_test_cpu i (cpu_online_mask s0) && negb (bool_decide (i ∈ (pairs s0).*1));
  so_orig : forall i, i ∈ (pairs s0).*1 -> bL_switcher_cpu_original_cluster s i = cluster_of s0 i;
  so_map : forall i j, (i, j) ∈ pairs s0 ->
    cpu_logical_map s i = cpu_logical_map s0 i /\ cpu_logical_map s j = cpu_logical_map s0 j
    \/ cpu_logical_map s i = cpu_logical_map s0 j /\ cpu_logical_map s j = cpu_logical_map s0 i;
  so_rest : forall k, k ∉ (pairs s0).*1 -> k ∉ (pairs s0).*2 -> cpu_logical_map s k = cpu_logical_map s0 k;
  so_run : forall i, i ∈ (pairs s0).*1 -> running_on s i = cpu_logical_map s i;
}.

(** The fields [sw_ok] is about. *)
Definition sw_view s :=
  (bL_switcher_cpu_pairing s, cpu_online_mask s, bL_switcher_removed_logical_cpus s,
   bL_switcher_cpu_original_cluster s, cpu_logical_map s, running_on s).

Lemma sw_ok_view s0 s s' : sw_view s' = sw_view s -> sw_ok s0 s -> sw_ok s0 s'.
Proof. unfold sw_view. intros [= E1 E2 E3 E4 E5 E6] []. by split; rewrite ?E1, ?E2, ?E3, ?E4, ?E5, ?E6. Qed.

Lemma pairs_disjoint s i j : (i, j) ∈ pairs s -> (i ∉ (pairs s).*2) /\ (j ∉ (pairs s).*1).
Proof.
  destruct (po_cluster _ _ (pairs_matching s)) as [c0 Hc]. intros Hij.
  destruct (Hc i j Hij). split; intros ([a b] & -> & Hab)%list_elem_of_fmap; destruct (Hc a b Hab); simpl in *; congruence.
Qed.

Lemma pairs_functional s i j j' : (i, j) ∈ pairs s -> (i, j') ∈ pairs s -> j = j'.
Proof. intros H1 H2. by rewrite <- (pairs_lookup s i j H1), (pairs_lookup s i j' H2). Qed.

Lemma pairs_injective s i i' j : (i, j) ∈ pairs s -> (i', j) ∈ pairs s -> i = i'.
Proof.
  pose proof (po_r _ _ (pairs_matching s)) as Hn. induction (pairs s) as [|[a b] l IH]; [set_solver|].
  cbn [fmap list_fmap snd] in Hn. apply list.NoDup_cons in Hn as [Hb Hn].
  intros H1 H2. apply elem_of_cons in H1 as [E1|H1], H2 as [E2|H2]; simplify_eq; auto.
  - destruct Hb. apply list_elem_of_fmap. by exists (i', b).
  - destruct Hb. apply list_elem_of_fmap. by exists (i, b).
Qed.

(** A switch keeps the invariant; it changes neither requests nor threads. *)
Lemma switch_to_ok s0 e i c s :
  sw_ok s0 s -> i ∈ (pairs s0).*1 -> cpu_pm_enter e = 0 ->
  exists ret s', bL_switch_to e i c s = Some (ret, s') /\ sw_ok s0 s'
    /\ bL_threads s' = bL_threads s /\ thread_state s' = thread_state s
    /\ bL_switcher_active s' = bL_switcher_active s
    /\ ((forall m, power_up_result e m = 0) -> c = cluster_of s0 i -> cpu_logical_map s' i = cpu_logical_map s0 i)
    /\ (forall k, k <> i -> k ∈ (pairs s0).*1 -> cpu_logical_map s' k = cpu_logical_map s k).
Proof.
  intros Hok Hi He. pose proof Hi as Hi'. apply list_elem_of_fmap in Hi' as ([i' j] & -> & Hij). cbn [fst] in *.
  rename i' into i. unfold bL_switch_to. rewrite (so_run _ _ Hok i Hi), Z.eqb_refl. cbn [negb].
  destruct (po_cluster _ _ (pairs_matching s0)) as [c0 Hc0]. destruct (Hc0 i j Hij) as [Hci Hcj].
  destruct (Z.eqb_spec c (cluster_of_mpidr (cpu_logical_map s i))) as [Ec|Ec].
  { eexists _, _. split; [reflexivity|]. split_and!; try done. intros _ Hc.
    destruct (so_map _ _ Hok i j Hij) as [[-> _]|[E _]]; [done|]. rewrite E in Ec. unfold cluster_of in *. congruence. }
  assert (Hp : bL_switcher_cpu_pairing s i = j) by (by rewrite (so_pairing _ _ Hok), (pairs_lookup s0 i j)).
  destruct (po_online _ _ (pairs_matching s0) i j Hij) as [Hio Hjo%elem_of_cpus_of].
  rewrite Hp, (proj2 (Z.ltb_ge j 0)) by lia. rewrite He. cbn [nonzero Z.eqb negb].
  destruct (pairs_disjoint s0 i j Hij) as [Hd1 Hd2].
  unfold nonzero. destruct (Z.eqb_spec (power_up_result e (cpu_logical_map s j)) 0) as [Eu|Eu]; cbn [negb].
  2:{ eexists _, _. split; [reflexivity|]. split; [by apply (sw_ok_view s0 s)|]. split_and!; try done.
      intros Hx. by destruct Eu. }
  eexists _, _. split; [reflexivity|].
  set (lm := <[j := cpu_logical_map s i]> (<[i := cpu_logical_map s j]> (cpu_logical_map s))).
  assert (Li : lm i = cpu_logical_map s j).
  { unfold lm. rewrite fn_lookup_insert_ne, fn_lookup_insert; [done|]. intros ->. apply Hd1, list_elem_of_fmap. by exists (i, i). }
  assert (Lj : lm j = cpu_logical_map s i) by (unfold lm; apply fn_lookup_insert).
  assert (Lk : forall k, k <> i -> k <> j -> lm k = cpu_logical_map s k).
  { intros k H1 H2. unfold lm. by rewrite !fn_lookup_insert_ne. }
  assert (Hother : forall a b, (a, b) ∈ pairs s0 -> a <> i -> a <> j /\ b <> i /\ b <> j).
  { intros a b Hab Hai. destruct (pairs_disjoint s0 a b Hab). split_and!; intros ->.
    - apply Hd2, list_elem_of_fmap. by exists (j, b).
    - apply Hd1, list_elem_of_fmap. by exists (a, i).
    - by apply Hai, (pairs_injective s0 a i j). }
  split; [|split_and!; try done].
  - destruct Hok as [P O R C M S U]. split; try done.
    + intros a b Hab. change (lm a = cpu_logical_map s0 a /\ lm b = cpu_logical_map s0 b
        \/ lm a = cpu_logical_map s0 b /\ lm b = cpu_logical_map s0 a).
      destruct (decide (a = i)) as [->|Hai].
      * rewrite (pairs_functional s0 i b j Hab Hij), Li, Lj. destruct (M i j Hij) as [[-> ->]|[-> ->]]; auto.
      * destruct (Hother a b Hab Hai) as (? & ? & ?). rewrite !Lk by done. by apply M.
    + intros k Hk1 Hk2. change (lm k = cpu_logical_map s0 k). rewrite Lk; [by apply S|..]; intros ->; auto.
      apply Hk2, list_elem_of_fmap. by exists (i, j).
    + intros a Ha. change (<[i := cpu_logical_map s j]> (running_on s) a = lm a).
      apply list_elem_of_fmap in Ha as Ha'. destruct Ha' as ([a' b] & -> & Hab). cbn [fst] in *.
      destruct (decide (i = a')) as [<-|Hne]; [by rewrite fn_lookup_insert|].
      destruct (Hother a' b Hab) as (? & ? & ?); [done|]. rewrite fn_lookup_insert_ne, Lk by done. by apply U.
  - intros _ Hc. change (lm i = cpu_logical_map s0 i). rewrite Li.
    destruct (so_map _ _ Hok i j Hij) as [[E _]|[_ E]]; [|done]. rewrite E in Ec. unfold cluster_of in *. congruence.
  - intros k Hk Hkp. change (lm k = cpu_logical_map s k). apply Lk; [done|]. by intros ->.
Qed.

(** A CPU of the pairing has a thread, or never leaves its place. *)
Definition thread_ok s0 s (i : Z) : Prop :=
  (task (bL_threads s i) = TTask /\ thread_state s i <> NoThread)
  \/ (task (bL_threads s i) <> TTask /\ thread_state s i = NoThread
      /\ cpu_logical_map s i = cpu_logical_map s0 i).

(** The switcher is on, having been turned on in [s0]. *)
Record sw_on s0 s : Prop := {
  sn_ok : sw_ok s0 s;
  sn_threads : forall i, i ∈ (pairs s0).*1 -> thread_ok s0 s i;
  sn_active : bL_switcher_active s = true;
}.

Lemma threads_upd cpu t s d : bL_threads (upd_thread cpu t s) d = if decide (cpu = d) then t else bL_threads s d.
Proof. unfold upd_thread. simpl. case_decide; subst; [apply fn_lookup_insert|by apply fn_lookup_insert_ne]. Qed.
Lemma pc_goto cpu p s d : thread_state (goto_pc cpu p s) d = if decide (cpu = d) then p else thread_state s d.
Proof. unfold goto_pc. simpl. case_decide; subst; [apply fn_lookup_insert|by apply fn_lookup_insert_ne]. Qed.

(** Changing a request of a CPU leaves its thread alone. *)
Lemma sw_on_request s0 s cpu t :
  sw_on s0 s -> task t = task (bL_threads s cpu) -> sw_on s0 (upd_thread cpu t s).
Proof.
  intros [O T A] Et. split; [by apply (sw_ok_view s0 s)| |done]. intros i Hi.
  specialize (T i Hi). unfold thread_ok in *. rewrite threads_upd. case_decide; [subst; by rewrite Et|done].
Qed.

Lemma sw_on_pc s0 s cpu p :
  sw_on s0 s -> thread_state s cpu <> NoThread -> p <> NoThread -> sw_on s0 (goto_pc cpu p s).
Proof.
  intros [O T A] Hs Hp. split; [by apply (sw_ok_view s0 s)| |done]. intros i Hi. specialize (T i Hi).
  unfold thread_ok in *. rewrite pc_goto. change (bL_threads (goto_pc cpu p s)) with (bL_threads s).
  case_decide; [subst; naive_solver|done].
Qed.

Lemma thread_run_ok s0 e i c comp ck s :
  sw_ok s0 s -> i ∈ (pairs s0).*1 -> cpu_pm_enter e = 0 ->
  exists s', thread_run e i c comp ck s = Some s' /\ sw_ok s0 s'
    /\ bL_threads s' = bL_threads s /\ thread_state s' = thread_state s
    /\ bL_switcher_active s' = bL_switcher_active s
    /\ ((forall m, power_up_result e m = 0) -> c = cluster_of s0 i -> c <> -1 ->
        cpu_logical_map s' i = cpu_logical_map s0 i)
    /\ (forall k, k <> i -> k ∈ (pairs s0).*1 -> cpu_logical_map s' k = cpu_logical_map s k).
Proof.
  intros Hok Hi He. unfold thread_run. destruct (Z.eqb_spec c (-1)) as [->|Hc]; [by exists s; split_and!|].
  destruct (switch_to_ok s0 e i c s Hok Hi He) as (ret & s1 & -> & Hok1 & T1 & P1 & A1 & M1 & K1).
  cbn. eexists. split; [reflexivity|]. destruct comp; [|by split_and!; auto].
  split; [by apply (sw_ok_view s0 s1)|]. split_and!; auto.
Qed.

Lemma thread_step_on s0 e cpu s :
  sw_on s0 s -> cpu ∈ (pairs s0).*1 -> cpu_pm_enter e = 0 ->
  exists s', bL_switcher_thread_step e cpu s = Some s' /\ sw_on s0 s'.
Proof.
  intros Hon Hi He. unfold bL_switcher_thread_step. destruct (thread_state s cpu) as [| |c comp ck] eqn:Hp.
  - by exists s.
  - eexists; split; [reflexivity|]. case_match; [done|]. unfold thread_take. apply sw_on_pc; [|by simpl; rewrite Hp|done].
    by apply sw_on_request.
  - destruct Hon as [O T A]. destruct (thread_run_ok s0 e cpu c comp ck s O Hi He) as (s1 & -> & O1 & T1 & P1 & A1 & _ & K1).
    cbn. eexists; split; [reflexivity|]. split; [by apply (sw_ok_view s0 s1)| |simpl; congruence].
    intros i Hin. specialize (T i Hin). unfold thread_ok in *. rewrite pc_goto.
    change (bL_threads (goto_pc cpu Waiting s1)) with (bL_threads s1). rewrite T1. destruct (decide (cpu = i)) as [<-|Hne].
    + left. split; [|done]. destruct T as [[? _]|(_ & Hx & _)]; [done|congruence].
    + rewrite P1. change (cpu_logical_map (goto_pc cpu Waiting s1)) with (cpu_logical_map s1). rewrite K1 by done. done.
Qed.

(** ** What happens while the switcher is on *)

Inductive sw_event :=
| SwRequest (cpu cluster : Z) (comp : option Z) (cookie : Z)
| SwPost (cpu cluster : Z) (comp : option Z) (cookie : Z)  (* by a caller that checked before *)
| SwDetach (cpu comp : Z)
| SwThread (e : env) (cpu : Z).

Definition sw_step (ev : sw_event) s : option bls :=
  match ev with
  | SwRequest cpu cluster comp cookie => Some (bL_switch_request_cb cpu cluster comp cookie s).2
  | SwPost cpu cluster comp cookie => Some (request_post cpu cluster comp cookie s).2
  | SwDetach cpu comp => Some (bL_switch_request_detach cpu comp s)
  | SwThread e cpu => bL_switcher_thread_step e cpu s
  end.

Fixpoint sw_run (l : list sw_event) s : option bls :=
  match l with
  | [] => Some s
  | ev :: l => s ← sw_step ev s; sw_run l s
  end.

(** Threads run on online CPUs, and suspending the kernel's devices does not fail. *)
Definition sw_event_ok s (ev : sw_event) : Prop :=
  match ev with
  | SwThread e cpu => cpu ∈ (pairs s).*1 /\ cpu_pm_enter e = 0
  | _ => True
  end.

Lemma post_on s0 s cpu c comp ck : sw_on s0 s -> sw_on s0 (request_post cpu c comp ck s).2.
Proof. intros Hon. unfold request_post. case_match; [done|]. simpl. by apply sw_on_request. Qed.

Lemma sw_run_on s0 l s :
  sw_on s0 s -> Forall (sw_event_ok s0) l -> exists s', sw_run l s = Some s' /\ sw_on s0 s'.
Proof.
  intros Hon Hl. revert s Hon. induction Hl as [|ev l Hev Hl IH]; intros s Hon; [by exists s|]. cbn [sw_run].
  assert (Hs : exists s', sw_step ev s = Some s' /\ sw_on s0 s').
  { destruct ev as [cpu c comp ck|cpu c comp ck|cpu comp|e cpu]; cbn [sw_step sw_event_ok] in *.
    - eexists; split; [reflexivity|]. unfold bL_switch_request_cb. destruct (request_check cpu s); [done|].
      by apply post_on.
    - eexists; split; [reflexivity|]. by apply post_on.
    - eexists; split; [reflexivity|]. unfold bL_switch_request_detach. destruct (request_check cpu s); [done|].
      case_match; [|done]. by apply sw_on_request.
    - destruct Hev. by apply thread_step_on. }
  destruct Hs as (s1 & -> & Hon1). by apply IH.
Qed.

(** ** Turning it on *)

Lemma start_thread_one e s j :
  let s' := start_thread e s j in
  sw_view s' = sw_view s /\ bL_switcher_active s' = bL_switcher_active s
  /\ (thread_state s j = NoThread ->
        (task (bL_threads s' j) = TTask /\ thread_state s' j <> NoThread)
        \/ (task (bL_threads s' j) <> TTask /\ thread_state s' j = NoThread))
  /\ (forall i, i <> j -> bL_threads s' i = bL_threads s i /\ thread_state s' i = thread_state s i).
Proof.
  unfold start_thread, bL_switcher_thread_create. destruct (thread_error e j) as [err|]; cbv zeta.
  - split_and!; [done..| |].
    + intros Hn. right. by rewrite threads_upd, decide_True.
    + intros i Hi. simpl. by rewrite !fn_lookup_insert_ne.
  - split_and!; [done..| |].
    + intros _. left. rewrite threads_upd, decide_True by done. split; [done|]. simpl. by rewrite fn_lookup_insert.
    + intros i Hi. simpl. by rewrite !fn_lookup_insert_ne.
Qed.

Lemma start_threads_ok e l s :
  NoDup l -> (forall i, i ∈ l -> thread_state s i = NoThread) ->
  let s' := foldl (start_thread e) s l in
  sw_view s' = sw_view s /\ bL_switcher_active s' = bL_switcher_active s
  /\ (forall i, i ∈ l ->
        (task (bL_threads s' i) = TTask /\ thread_state s' i <> NoThread)
        \/ (task (bL_threads s' i) <> TTask /\ thread_state s' i = NoThread))
  /\ (forall i, i ∉ l -> bL_threads s' i = bL_threads s i /\ thread_state s' i = thread_state s i).
Proof.
  intros Hn. revert s. induction Hn as [|j l Hj Hn IH]; intros s Hs; cbn [foldl]; cbv zeta.
  { split_and!; try done. set_solver. }
  destruct (start_thread_one e s j) as (V & A & T & N). set (s1 := start_thread e s j) in *. clearbody s1.
  destruct (IH s1) as (V' & A' & T' & N').
  { intros i Hi. destruct (N i) as [_ ->]; [by intros ->|]. apply Hs. set_solver. }
  split_and!; [congruence..| |].
  - intros i [->|Hi]%elem_of_cons; [|by apply T']. destruct (N' j Hj) as [-> ->]. apply T, Hs. set_solver.
  - intros i [Hij Hi]%not_elem_of_cons. destruct (N' i Hi) as [-> ->]. by apply N.
Qed.

Lemma online_pairs s0 s :
  sw_ok s0 s -> forall i, i ∈ cpus_of (cpu_online_mask s) <-> i ∈ (pairs s0).*1.
Proof.
  intros Hok i. rewrite elem_of_cpus_of. split.
  - intros [Hr Ht]. rewrite (so_online _ _ Hok i Hr) in Ht. by apply bool_decide_eq_true in Ht.
  - intros Hi. assert (Hr : 0 <= i < NR_CPUS).
    { apply list_elem_of_fmap in Hi as ([a b] & -> & Hab).
      destruct (po_online _ _ (pairs_matching s0) a b Hab) as [Ha%elem_of_cpus_of _]. simpl. lia. }
    split; [done|]. rewrite (so_online _ _ Hok i Hr). by apply bool_decide_eq_true.
Qed.

Lemma enable_on e s ret s' :
  boot_ok s -> (forall i, thread_state s i = NoThread) ->
  bL_switcher_enable e s = (ret, s') -> ret = 0 -> sw_on s s'.
Proof.
  intros [Hoff Hrun _ _] Hnt. unfold bL_switcher_enable, bL_activation_notify. rewrite Hoff.
  set (s1 := emit (EvNotify BL_NOTIFY_PRE_ENABLE) s).
  destruct (nonzero (notify_result e BL_NOTIFY_PRE_ENABLE)) eqn:Hne.
  { rewrite Hne. intros [= <- _] E. by rewrite E in Hne. }
  pose proof (halve_cpus_ok e s1 Hoff) as Hh. destruct (bL_switcher_halve_cpus e s1) as [ret1 s2].
  destruct (nonzero ret1) eqn:Hr1; [intros [= <- _] E; by rewrite E in Hr1|]. intros [= <- <-] E. destruct Hh as [Hh _].
  destruct (Hh E) as [P O R C M U A T S]. change (pairs s1) with (pairs s) in *.
  assert (Hok : sw_ok s s2).
  { split; auto; rewrite ?M; auto. intros i ([a b] & -> & Hi)%list_elem_of_fmap. rewrite U.
    apply Hrun. by apply (po_online _ _ (pairs_matching s) a b). }
  destruct (start_threads_ok e (cpus_of (cpu_online_mask s2)) s2) as (V & _ & TT & _);
    [apply NoDup_cpus_of|intros i _; rewrite S; apply Hnt|].
  split; [|intros i Hi|done].
  - apply (sw_ok_view s (foldl (start_thread e) s2 (cpus_of (cpu_online_mask s2)))); [done|].
    by apply (sw_ok_view s s2).
  - destruct (TT i) as [?|[H1 H2]]; [by apply (online_pairs s s2)|by left|right].
    split; [done|]. split; [done|]. unfold sw_view in V. injection V as _ _ _ _ V _.
    change (cpu_logical_map (foldl (start_thread e) s2 (cpus_of (cpu_online_mask s2))) i = cpu_logical_map s i).
    by rewrite V, M.
Qed.

(** Where the physical CPUs of a pair are found. *)
Lemma pair_owner s0 s i j k jk m :
  boot_ok s0 -> sw_ok s0 s -> (i, j) ∈ pairs s0 -> (k, jk) ∈ pairs s0 ->
  m = cpu_logical_map s0 i \/ m = cpu_logical_map s0 j ->
  m = cpu_logical_map s k \/ m = cpu_logical_map s jk -> k = i.
Proof.
  intros Hb Hok Hij Hk Hm Hmk.
  assert (Hm' : m = cpu_logical_map s0 k \/ m = cpu_logical_map s0 jk).
  { destruct (so_map _ _ Hok k jk Hk) as [[E1 E2]|[E1 E2]]; rewrite E1, E2 in Hmk; tauto. }
  destruct (po_online _ _ (pairs_matching s0) i j Hij) as [Hi Hj].
  destruct (po_online _ _ (pairs_matching s0) k jk Hk) as [Hk1 Hk2].
  destruct (pairs_disjoint s0 i j Hij) as [D1 D2].
  destruct Hm as [->| ->], Hm' as [E|E]; apply (bo_inj s0 Hb) in E; try done; subst.
  - destruct D1. apply list_elem_of_fmap. by exists (k, jk).
  - destruct D2. apply list_elem_of_fmap. by exists (k, jk).
  - by apply (pairs_injective s0 k i jk).
Qed.

Lemma index_of_pair s0 s i j m :
  boot_ok s0 -> sw_on s0 s -> (i, j) ∈ pairs s0 -> m = cpu_logical_map s0 i \/ m = cpu_logical_map s0 j ->
  bL_switcher_get_logical_index s m = i.
Proof.
  intros Hb [Hok _ Ha] Hij Hm. unfold bL_switcher_get_logical_index. rewrite Ha. cbn [negb].
  destruct (po_online _ _ (pairs_matching s0) i j Hij) as [Hio Hjo].
  assert (Hland : Z.land m MPIDR_HWID_BITMASK = m) by (destruct Hm as [-> | ->]; by apply (bo_hwid s0 Hb)).
  rewrite Hland. destruct (List.find _ _) as [k|] eqn:Ef.
  - apply List.find_some in Ef as [Hk Hf]. apply list_elem_of_In in Hk.
    apply (online_pairs s0 s Hok), list_elem_of_fmap in Hk as ([k' jk] & -> & Hk). cbn [fst] in *.
    rewrite (so_pairing _ _ Hok), (pairs_lookup s0 k' jk Hk) in Hf.
    apply andb_true_iff in Hf as [_ Hf]. rewrite orb_true_iff, !Z.eqb_eq in Hf.
    by apply (pair_owner s0 s i j k' jk m).
  - assert (Hi : i ∈ cpus_of (cpu_online_mask s)).
    { apply (online_pairs s0 s Hok), list_elem_of_fmap. by exists (i, j). }
    apply list_elem_of_In in Hi. pose proof (List.find_none _ _ Ef i Hi) as Hf. cbv beta zeta in Hf.
    rewrite (so_pairing _ _ Hok), (pairs_lookup s0 i j Hij) in Hf. apply elem_of_cpus_of in Hjo.
    rewrite (proj2 (Z.eqb_neq j (-1))) in Hf by lia. cbn [negb andb] in Hf. exfalso.
    apply orb_false_iff in Hf as [H1%Z.eqb_neq H2%Z.eqb_neq].
    destruct (so_map _ _ Hok i j Hij) as [[E1 E2]|[E1 E2]]; rewrite E1, E2 in *; tauto.
Qed.

(** Logical numbers stay.  However the switcher has moved the CPUs since it was turned
    on, both physical CPUs of a pair are found under the same logical number, that of the
    CPU of the pair that is online, and the kernel does not stop. *)
Theorem logical_index_stable e s ret s1 l i j :
  boot_ok s -> (forall k, thread_state s k = NoThread) ->
  bL_switcher_enable e s = (ret, s1) -> ret = 0 -> Forall (sw_event_ok s) l -> (i, j) ∈ pairs s ->
  exists s2, sw_run l s1 = Some s2
    /\ bL_switcher_get_logical_index s2 (cpu_logical_map s i) = i
    /\ bL_switcher_get_logical_index s2 (cpu_logical_map s j) = i
    /\ running_on s2 i = cpu_logical_map s2 i.
Proof.
  intros Hb Hnt He Hr Hl Hij. pose proof (enable_on e s ret s1 Hb Hnt He Hr) as Hon.
  destruct (sw_run_on s l s1 Hon Hl) as (s2 & Es & Hon2). exists s2. split; [done|].
  split_and!; [by eapply index_of_pair; eauto..|]. apply (so_run _ _ (sn_ok _ _ Hon2)).
  apply list_elem_of_fmap. by exists (i, j).
Qed.

(** ** Turning it off *)

Lemma kthread_stop_ok s0 e i s :
  sw_ok s0 s -> i ∈ (pairs s0).*1 -> cpu_pm_enter e = 0 ->
  exists s', kthread_stop e i s = Some s' /\ sw_ok s0 s'
    /\ bL_switcher_active s' = bL_switcher_active s
    /\ (forall k, k <> i -> k ∈ (pairs s0).*1 -> cpu_logical_map s' k = cpu_logical_map s k
          /\ bL_threads s' k = bL_threads s k /\ thread_state s' k = thread_state s k)
    /\ ((forall m, power_up_result e m = 0) -> thread_state s i = Waiting ->
        wanted_cluster (bL_threads s i) = cluster_of s0 i -> cpu_logical_map s' i = cpu_logical_map s0 i).
Proof.
  intros Hok Hi He. unfold kthread_stop.
  assert (Hrun : forall s1 c comp ck, sw_ok s0 s1 -> exists s',
    (s ← thread_run e i c comp ck s1; Some (goto_pc i NoThread s)) = Some s' /\ sw_ok s0 s'
    /\ bL_switcher_active s' = bL_switcher_active s1
    /\ (forall k, k <> i -> k ∈ (pairs s0).*1 -> cpu_logical_map s' k = cpu_logical_map s1 k
          /\ bL_threads s' k = bL_threads s1 k /\ thread_state s' k = thread_state s1 k)
    /\ ((forall m, power_up_result e m = 0) -> c = cluster_of s0 i -> cpu_logical_map s' i = cpu_logical_map s0 i)).
  { intros s1 c comp ck Hok1.
    destruct (thread_run_ok s0 e i c comp ck s1 Hok1 Hi He) as (s2 & -> & Hok2 & T & P & A & M & K).
    cbn. eexists; split; [reflexivity|]. split; [by apply (sw_ok_view s0 s2)|]. split; [done|]. split.
    - intros k Hk Hkp. rewrite pc_goto, decide_False by done.
      split_and!; [by apply K|by rewrite <- T|by rewrite <- P].
    - intros Hu Hc. apply M; [done..|]. rewrite Hc. pose proof (cluster_nonneg (cpu_logical_map s0 i)).
      unfold cluster_of. lia. }
  destruct (thread_state s i) as [| |c comp ck] eqn:Hp.
  - rewrite Hp. exists s. by split_and!.
  - unfold thread_take. rewrite pc_goto, decide_True by done.
    set (s1 := goto_pc _ _ _). destruct (Hrun s1 (wanted_cluster (bL_threads s i)) (completer (bL_threads s i))
      (completer_cookie (bL_threads s i))) as (s' & E & O & A & K & M); [by apply (sw_ok_view s0 s)|].
    exists s'. split_and!; try done; [|by auto]. intros k Hk Hkp. destruct (K k Hk Hkp) as (-> & -> & ->).
    unfold s1. simpl. by rewrite !fn_lookup_insert_ne.
  - rewrite Hp. destruct (Hrun s c comp ck Hok) as (s' & E & O & A & K & M). exists s'. split_and!; done.
Qed.

(** The outside does not fail. *)
Record env_ok e : Prop := {
  eo_pm : cpu_pm_enter e = 0;
  eo_up : forall m, power_up_result e m = 0;
  eo_thread : forall i, thread_error e i = None;
  eo_cpu : forall i, cpu_up_result e i = 0;
}.

Lemma original_place s0 s i :
  sw_ok s0 s -> i ∈ (pairs s0).*1 -> cluster_of s i = cluster_of s0 i -> cpu_logical_map s i = cpu_logical_map s0 i.
Proof.
  intros Hok ([a j] & -> & Hij)%list_elem_of_fmap. cbn [fst]. unfold cluster_of.
  destruct (po_cluster _ _ (pairs_matching s0)) as [c0 Hc]. destruct (Hc a j Hij) as [H1 H2]. unfold cluster_of in *.
  destruct (so_map _ _ Hok a j Hij) as [[-> _]|[-> _]]; [done|]. congruence.
Qed.

Lemma restore_cluster_ok s0 e i s :
  sw_ok s0 s -> thread_ok s0 s i -> i ∈ (pairs s0).*1 -> env_ok e ->
  exists s', restore_cluster e i s = Some s' /\ sw_ok s0 s'
    /\ bL_switcher_active s' = bL_switcher_active s
    /\ cpu_logical_map s' i = cpu_logical_map s0 i
    /\ (forall k, k <> i -> k ∈ (pairs s0).*1 -> cpu_logical_map s' k = cpu_logical_map s k
          /\ bL_threads s' k = bL_threads s k /\ thread_state s' k = thread_state s k).
Proof.
  intros Hok Ht Hi He. unfold restore_cluster.
  set (s1 := upd_thread i _ s). assert (Hok1 : sw_ok s0 s1) by (by apply (sw_ok_view s0 s)).
  assert (K1 : forall k, k <> i -> bL_threads s1 k = bL_threads s k).
  { intros k Hk. unfold s1. rewrite threads_upd. by rewrite decide_False by congruence. }
  destruct Ht as [[Et _]|(Et & _ & Em)].
  2:{ exists s1. destruct (task (bL_threads s i)); try done; split_and!; try done; auto. }
  rewrite Et. destruct (kthread_stop_ok s0 e i s1 Hok1 Hi (eo_pm e He)) as (s2 & -> & Hok2 & A2 & K2 & _).
  cbn [mbind option_bind]. rewrite (so_orig _ _ Hok2 i Hi).
  destruct (Z.eqb_spec (cluster_of s2 i) (cluster_of s0 i)) as [Ec|Ec].
  { exists s2. split_and!; try done; [by apply original_place|]. intros k Hk Hkp.
    destruct (K2 k Hk Hkp) as (-> & -> & ->). by rewrite K1. }
  unfold bL_switcher_thread_create. rewrite (eo_thread e He i).
  set (s3 := goto_pc i Waiting _). assert (Hok3 : sw_ok s0 s3) by (by apply (sw_ok_view s0 s2)).
  destruct (kthread_stop_ok s0 e i s3 Hok3 Hi (eo_pm e He)) as (s4 & -> & Hok4 & A4 & K4 & M4).
  cbn [mbind option_bind]. assert (E4 : cpu_logical_map s4 i = cpu_logical_map s0 i).
  { apply M4; [apply He|by unfold s3; rewrite pc_goto, decide_True|].
    unfold s3. change (bL_threads (goto_pc i Waiting ?x)) with (bL_threads x). by rewrite threads_upd, decide_True. }
  rewrite (so_orig _ _ Hok4 i Hi). unfold cluster_of at 1 2. rewrite E4, Z.eqb_refl. exists s4.
  split_and!; try done; [by rewrite A4|]. intros k Hk Hkp.
  destruct (K4 k Hk Hkp) as (-> & -> & ->). destruct (K2 k Hk Hkp) as (E1 & E2 & E3).
  rewrite K1 in E2 by done. unfold s3. split_and!; [exact E1|simpl; by rewrite fn_lookup_insert_ne..].
Qed.

Lemma restore_clusters_ok s0 e l s :
  NoDup l -> env_ok e -> (forall i, i ∈ l -> i ∈ (pairs s0).*1) ->
  sw_ok s0 s -> (forall i, i ∈ l -> thread_ok s0 s i) ->
  exists s', restore_clusters e l s = Some s' /\ sw_ok s0 s'
    /\ bL_switcher_active s' = bL_switcher_active s
    /\ (forall i, i ∈ l -> cpu_logical_map s' i = cpu_logical_map s0 i)
    /\ (forall k, k ∉ l -> k ∈ (pairs s0).*1 -> cpu_logical_map s' k = cpu_logical_map s k
          /\ bL_threads s' k = bL_threads s k /\ thread_state s' k = thread_state s k).
Proof.
  intros Hn He Hl Hok Ht. revert s Hok Ht. induction Hn as [|i l Hi Hn IH]; intros s Hok Ht.
  { exists s. split_and!; try done. set_solver. }
  destruct (restore_cluster_ok s0 e i s Hok) as (s1 & E1 & Hok1 & A1 & M1 & K1); [apply Ht|apply Hl|done|]; [set_solver..|].
  cbn [restore_clusters]. rewrite E1. cbn [mbind option_bind].
  destruct IH with (s := s1) as (s2 & -> & Hok2 & A2 & M2 & K2); [set_solver|done|..].
  { intros k Hk. assert (Hki : k <> i) by (by intros ->). specialize (Ht k ltac:(set_solver)).
    destruct (K1 k Hki) as (E2 & E3 & E4); [apply Hl; set_solver|]. unfold thread_ok in *. by rewrite E2, E3, E4. }
  exists s2. split_and!; try done; [congruence|..].
  - intros k [->|Hk]%elem_of_cons; [|by apply M2].
    destruct (K2 i) as [-> _]; [done|apply Hl; set_solver|done].
  - intros k [Hki Hk]%not_elem_of_cons Hkp. destruct (K2 k Hk Hkp) as (-> & -> & ->). by apply K1.
Qed.

(** C19. On and off again.  If the switcher is turned on, used in any way, and turned off
    while nothing outside fails, every logical CPU is back on its own physical CPU and
    the CPUs that were online before are online again. *)
Theorem switcher_roundtrip e s ret s1 l e' :
  boot_ok s -> (forall k, thread_state s k = NoThread) ->
  bL_switcher_enable e s = (ret, s1) -> ret = 0 -> Forall (sw_event_ok s) l ->
  env_ok e' -> notify_result e' BL_NOTIFY_PRE_DISABLE = 0 ->
  exists s2 s3, sw_run l s1 = Some s2 /\ bL_switcher_disable e' s2 = Some s3
    /\ bL_switcher_active s3 = false
    /\ (forall k, cpu_logical_map s3 k = cpu_logical_map s k)
    /\ (forall k, 0 <= k < NR_CPUS ->
          cpumask_test_cpu k (cpu_online_mask s3) = cpumask_test_cpu k (cpu_online_mask s))
    /\ (forall i, i ∈ (pairs s).*1 -> running_on s3 i = cpu_logical_map s i).
Proof.
  intros Hb Hnt He Hr Hl Henv Hpre. pose proof (enable_on e s ret s1 Hb Hnt He Hr) as Hon.
  destruct (sw_run_on s l s1 Hon Hl) as (s2 & Es & [Hok2 Ht2 Ha2]). exists s2.
  unfold bL_switcher_disable, bL_activation_notify. rewrite Ha2, Hpre. cbn [negb nonzero Z.eqb].
  set (s2' := emit _ s2 <| bL_switcher_active := false |>).
  destruct (restore_clusters_ok s e' (cpus_of (cpu_online_mask s2')) s2') as (s3 & -> & Hok3 & A3 & M3 & _);
    [apply NoDup_cpus_of|done|intros i; by apply (online_pairs s s2)|by apply (sw_ok_view s s2)|..].
  { intros i Hi%(online_pairs s s2); [|done]. by apply Ht2. }
  cbn [mbind option_bind]. eexists. split; [done|]. split; [reflexivity|].
  destruct (restore_cpus_online e' s3 (eo_cpu e' Henv) A3) as ([Rm Rr _ Ra _ _ _] & _ & Ro).
  set (s4 := bL_switcher_restore_cpus e' s3) in *. clearbody s4. simpl.
  assert (Hi3 : forall i, i ∈ (pairs s).*1 -> cpu_logical_map s3 i = cpu_logical_map s i).
  { intros i Hi. apply M3. by apply (online_pairs s s2). }
  split_and!.
  - by rewrite Ra.
  - intros k. rewrite Rm. destruct (decide (k ∈ (pairs s).*1)) as [|Hk1]; [auto|].
    destruct (decide (k ∈ (pairs s).*2)) as [Hk2|]; [|by apply (so_rest _ _ Hok3)].
    apply list_elem_of_fmap in Hk2 as ([i j] & -> & Hij). cbn [snd].
    assert (Hi : i ∈ (pairs s).*1) by (apply list_elem_of_fmap; by exists (i, j)).
    destruct (so_map _ _ Hok3 i j Hij) as [[_ ?]|[E E']]; [done|]. rewrite Hi3 in E by done. congruence.
  - intros k Hk. rewrite Ro, (so_online _ _ Hok3), (so_removed _ _ Hok3) by done.
    case_bool_decide as Hin; simpl; [|by rewrite andb_true_r].
    apply list_elem_of_fmap in Hin as ([i j] & -> & Hij). cbn [fst].
    by destruct (po_online _ _ (pairs_matching s) i j Hij) as [[_ ->]%elem_of_cpus_of _].
  - intros i Hi. rewrite Rr, (so_run _ _ Hok3) by done. auto.
Qed.

(** * Requests *)

Lemma serve_request s0 e cpu s h :
  sw_on s0 s -> cpu ∈ (pairs s0).*1 -> cpu_pm_enter e = 0 -> thread_state s cpu = Waiting ->
  wanted_cluster (bL_threads s cpu) <> -1 -> completer (bL_threads s cpu) = Some h ->
  exists s2, sw_run (repeat (SwThread e cpu) 2) s = Some s2
    /\ EvCompleter h (completer_cookie (bL_threads s cpu)) ∈ log s2.
Proof.
  intros Hon Hi He Hp Hw Hc.
  assert (E1 : bL_switcher_thread_step e cpu s = Some (thread_take cpu s)).
  { unfold bL_switcher_thread_step. by rewrite Hp, (proj2 (Z.eqb_neq _ _) Hw). }
  cbn [repeat sw_run sw_step]. rewrite E1. cbn [mbind option_bind]. unfold bL_switcher_thread_step, thread_take.
  rewrite pc_goto, decide_True by done. set (s1 := goto_pc _ _ _).
  assert (Hok1 : sw_ok s0 s1) by (apply (sw_ok_view s0 s); [done|apply Hon]).
  unfold thread_run. rewrite (proj2 (Z.eqb_neq _ _) Hw).
  destruct (switch_to_ok s0 e cpu (wanted_cluster (bL_threads s cpu)) s1 Hok1 Hi He) as (ret & s2 & -> & _).
  cbn. rewrite Hc. eexists. split; [reflexivity|]. simpl. set_solver.
Qed.


(** ** A request that is lost *)

Lemma restore_busy s0 e i c comp ck h s :
  sw_ok s0 s -> i ∈ (pairs s0).*1 -> env_ok e -> task (bL_threads s i) = TTask ->
  thread_state s i = Taken c comp ck -> c = cluster_of s0 i -> completer (bL_threads s i) = Some h ->
  exists s', restore_cluster e i s = Some s' /\ completer (bL_threads s' i) = Some h
    /\ thread_state s' i = NoThread.
Proof.
  intros Hok Hi He Et Hp Hc Hcm. unfold restore_cluster. rewrite Et. set (s1 := upd_thread i _ s).
  assert (Hok1 : sw_ok s0 s1) by (by apply (sw_ok_view s0 s)).
  assert (Hp1 : thread_state s1 i = Taken c comp ck) by done.
  unfold kthread_stop. rewrite !Hp1.
  destruct (thread_run_ok s0 e i c comp ck s1 Hok1 Hi (eo_pm e He)) as (s2 & -> & Hok2 & T & P & _ & M & _).
  cbn [mbind option_bind]. assert (Hok3 : sw_ok s0 (goto_pc i NoThread s2)) by (by apply (sw_ok_view s0 s2)).
  rewrite (so_orig _ _ Hok3 i Hi).
  assert (Em : cpu_logical_map s2 i = cpu_logical_map s0 i).
  { apply M; [apply He|done|]. rewrite Hc. pose proof (cluster_nonneg (cpu_logical_map s0 i)). unfold cluster_of. lia. }
  unfold cluster_of. cbn. rewrite Em, Z.eqb_refl. eexists; split; [reflexivity|].
  rewrite pc_goto, decide_True by done. split; [|done]. simpl. rewrite T. unfold s1.
  by rewrite threads_upd, decide_True.
Qed.

Lemma restore_clusters_busy s0 e l i c comp ck h s :
  NoDup l -> env_ok e -> (forall k, k ∈ l -> k ∈ (pairs s0).*1) ->
  sw_ok s0 s -> (forall k, k ∈ l -> thread_ok s0 s k) -> i ∈ l ->
  task (bL_threads s i) = TTask -> thread_state s i = Taken c comp ck -> c = cluster_of s0 i ->
  completer (bL_threads s i) = Some h ->
  exists s', restore_clusters e l s = Some s' /\ bL_switcher_active s' = bL_switcher_active s
    /\ completer (bL_threads s' i) = Some h /\ thread_state s' i = NoThread.
Proof.
  intros Hn He Hl Hok Ht Hi Et Hp Hc Hcm. revert s Hok Ht Et Hp Hcm.
  induction Hn as [|j l Hj Hn IH]; intros s Hok Ht Et Hp Hcm; [by apply elem_of_nil in Hi|].
  destruct (restore_cluster_ok s0 e j s Hok) as (s1 & E1 & Hok1 & A1 & M1 & K1); [apply Ht|apply Hl|done|]; [set_solver..|].
  assert (Ht1 : forall k, k ∈ l -> thread_ok s0 s1 k).
  { intros k Hk. assert (Hki : k <> j) by (by intros ->). specialize (Ht k ltac:(set_solver)).
    destruct (K1 k Hki) as (E2 & E3 & E4); [apply Hl; set_solver|]. unfold thread_ok in *. by rewrite E2, E3, E4. }
  cbn [restore_clusters]. rewrite E1. cbn [mbind option_bind]. destruct (decide (i = j)) as [->|Hij].
  - destruct (restore_busy s0 e j c comp ck h s) as (s1' & E1' & C1 & P1); try done; [apply Hl; set_solver|].
    rewrite E1 in E1'. injection E1' as <-.
    destruct (restore_clusters_ok s0 e l s1) as (s2 & -> & _ & A2 & _ & K2); [done|done|set_solver|done..|].
    exists s2. destruct (K2 j Hj) as (_ & -> & ->); [apply Hl; set_solver|]. split_and!; try done. congruence.
  - assert (Hil : i ∈ l) by set_solver. destruct (K1 i Hij) as (_ & E3 & E4); [apply Hl; set_solver|].
    destruct (IH ltac:(set_solver) Hil s1) as (s2 & E2 & A2 & ? & ?); rewrite ?E3, ?E4; try done.
    exists s2. split_and!; try done. congruence.
Qed.

Lemma start_threads_completer e l s i :
  completer (bL_threads (foldl (start_thread e) s l) i) = completer (bL_threads s i).
Proof.
  revert s. induction l as [|j l IH]; intros s; [done|]. cbn [foldl]. rewrite IH. unfold start_thread, bL_switcher_thread_create.
  destruct (thread_error e j); rewrite threads_upd; (case_decide as Hji; [subst|]); simpl;
    rewrite ?fn_lookup_insert, ?fn_lookup_insert_ne by done; done.
Qed.

Lemma enable_completer e s s' i :
  bL_switcher_active s = false -> bL_switcher_enable e s = (0, s') ->
  completer (bL_threads s' i) = completer (bL_threads s i).
Proof.
  intros Ha. unfold bL_switcher_enable, bL_activation_notify. rewrite Ha.
  set (s1 := emit (EvNotify BL_NOTIFY_PRE_ENABLE) s).
  destruct (nonzero (notify_result e BL_NOTIFY_PRE_ENABLE)) eqn:Hne.
  { rewrite Hne. intros [= E _]. by rewrite E in Hne. }
  pose proof (halve_cpus_ok e s1 Ha) as Hh. destruct (bL_switcher_halve_cpus e s1) as [ret1 s2].
  destruct (nonzero ret1) eqn:Hr1; [intros [= E _]; by rewrite E in Hr1|]. intros [= E <-].
  destruct (proj1 Hh E) as [_ _ _ _ _ _ _ T _]. simpl. rewrite start_threads_completer. by rewrite T.
Qed.

(** A request can be lost.  If a CPU is asked to switch while its thread is in the
    middle of an earlier request, for the CPU's own cluster, the request is accepted; if the
    switcher is then turned off before the thread looks again, the thread leaves without
    having served it and the handler stays behind.  When the switcher is turned on again,
    every request for that CPU is refused as busy. *)
Theorem request_lost_on_disable s0 s e cpu c comp ck c' h ck' s1 :
  sw_on s0 s -> cpu ∈ (pairs s0).*1 -> task (bL_threads s cpu) = TTask ->
  thread_state s cpu = Taken c comp ck -> c = cluster_of s0 cpu ->
  bL_switch_request_cb cpu c' (Some h) ck' s = (0, s1) ->
  env_ok e -> notify_result e BL_NOTIFY_PRE_DISABLE = 0 ->
  exists s2, bL_switcher_disable e s1 = Some s2
    /\ completer (bL_threads s2 cpu) = Some h /\ thread_state s2 cpu = NoThread
    /\ forall e' s3, bL_switcher_enable e' s2 = (0, s3) -> task (bL_threads s3 cpu) = TTask ->
         forall c'' comp'' ck'', bL_switch_request_cb cpu c'' comp'' ck'' s3 = (- EBUSY, s3).
Proof.
  intros Hon Hi Et Hp Hc. unfold bL_switch_request_cb at 1. unfold request_check, request_post. rewrite Et.
  destruct ((cpu <? 0) || (NR_CPUS <=? cpu)) eqn:Hb; [by intros [= E _]|].
  destruct (completer (bL_threads s cpu)) eqn:Ec; [by intros [= E _]|]. intros [= <-] He Hpre.
  set (t := bL_threads s cpu <| completer := Some h |> <| completer_cookie := ck' |> <| wanted_cluster := c' |>).
  assert (Hon1 : sw_on s0 (upd_thread cpu t s)) by (by apply sw_on_request).
  assert (Ht : bL_threads (upd_thread cpu t s) cpu = t) by (by rewrite threads_upd, decide_True).
  set (s1 := upd_thread cpu t s) in *. assert (Hp1 : thread_state s1 cpu = Taken c comp ck) by done. clearbody s1.
  unfold bL_switcher_disable, bL_activation_notify. rewrite (sn_active _ _ Hon1), Hpre. cbn [negb nonzero Z.eqb].
  set (s2 := emit _ s1 <| bL_switcher_active := false |>). destruct Hon1 as [O1 T1 _].
  destruct (restore_clusters_busy s0 e (cpus_of (cpu_online_mask s2)) cpu c comp ck h s2) as (s3 & -> & A3 & C3 & P3);
    [apply NoDup_cpus_of|done|intros i; by apply (online_pairs s0 s1)|by apply (sw_ok_view s0 s1)|..|done|done| |].
  { intros i Hx%(online_pairs s0 s1); [|done]. by apply T1. }
  { by apply (online_pairs s0 s1). }
  { simpl. by rewrite Ht. }
  { simpl. by rewrite Ht. }
  cbn [mbind option_bind]. eexists; split; [reflexivity|].
  destruct (restore_cpus_online e s3 (eo_cpu e He) A3) as ([_ _ _ Ra Rt Rp _] & _).
  set (s4 := bL_switcher_restore_cpus e s3) in *. clearbody s4. simpl. rewrite Rt, Rp. split_and!; try done.
  intros e' s5 E5 Et5 c'' comp'' ck''. unfold bL_switch_request_cb, request_check, request_post.
  rewrite Hb, Et5. apply enable_completer with (i := cpu) in E5; [|by simpl; rewrite Ra, A3]. rewrite E5. simpl. by rewrite Rt, C3.
Qed.
End switcher.

(** * Witnesses *)

(** Two A15s and three A7s, all online. *)
Definition sample_bls : bls :=
  {| cpu_logical_map := fun i => if i <? 2 then i else 256 + (i - 2);
     running_on := fun i => if i <? 2 then i else 256 + (i - 2);
     cpu_online_mask := 31; bL_gic_id := fun _ _ => -1;
     bL_switcher_cpu_pairing := fun _ => -1; bL_switcher_cpu_original_cluster := fun _ => 0;
     bL_switcher_removed_logical_cpus := 0; bL_switcher_active := false;
     bL_threads := fun _ => mk_thread TNull 0 None 0; thread_state := fun _ => NoThread; log := [] |}.

Definition sample_env : env := mk_env id (fun _ => 0) (fun _ => 0) (fun _ => 0) (fun _ => 0) 0 0 (fun _ => None).

Definition sample_on : bls := (bL_switcher_enable (H := big_LITTLE_MP) sample_env sample_bls).2.

(** CPU 0 switched to the A7s, and a request to switch it back taken by its thread. *)
Definition sample_events : list sw_event :=
  [SwRequest 0 1 (Some 7) 70; SwThread sample_env 0; SwThread sample_env 0;
   SwRequest 0 0 None 0; SwThread sample_env 0].
Definition sample_busy : bls := default sample_bls (sw_run (H := big_LITTLE_MP) sample_events sample_on).

Lemma pair_eta {A B} (p : A * B) a : p.1 = a -> p = (a, p.2).
Proof. destruct p. simpl. by intros ->. Qed.

Lemma sample_boot_ok : boot_ok (H := big_LITTLE_MP) sample_bls.
Proof.
  assert (Hin : forall i, i ∈ cpus_of (H := big_LITTLE_MP) (cpu_online_mask sample_bls) -> i ∈ [0; 1; 2; 3; 4]).
  { intros i Hi. vm_compute in Hi. exact Hi. }
  split; [done|done|..].
  - intros i Hi%Hin. rewrite !elem_of_cons, elem_of_nil in Hi. destruct_or! Hi; try done; by subst.
  - intros i j Hi%Hin Hj%Hin. simpl. rewrite !elem_of_cons, elem_of_nil in Hi, Hj.
    destruct (Z.ltb_spec i 2), (Z.ltb_spec j 2); lia.
Qed.

Lemma sample_env_ok : env_ok sample_env.
Proof. by split. Qed.

Lemma sample_enable : bL_switcher_enable (H := big_LITTLE_MP) sample_env sample_bls = (0, sample_on).
Proof. unfold sample_on. apply pair_eta; by vm_compute. Qed.

Lemma sample_pair : (0, 4) ∈ pairs (H := big_LITTLE_MP) sample_bls.
Proof. vm_compute. left. Qed.

Lemma sample_member : 0 ∈ (pairs (H := big_LITTLE_MP) sample_bls).*1.
Proof. apply list_elem_of_fmap. exists (0, 4). split; [done|apply sample_pair]. Qed.

Lemma sample_events_ok : Forall (sw_event_ok (H := big_LITTLE_MP) sample_bls) sample_events.
Proof. repeat constructor; apply sample_member. Qed.

Lemma sample_on_ok : sw_on (H := big_LITTLE_MP) sample_bls sample_on.
Proof. apply (enable_on (H := big_LITTLE_MP) sample_env _ 0); [apply sample_boot_ok|done|apply sample_enable|done]. Qed.

Lemma sample_busy_ok : sw_on (H := big_LITTLE_MP) sample_bls sample_busy.
Proof.
  destruct (sw_run_on (H := big_LITTLE_MP) sample_bls sample_events sample_on sample_on_ok sample_events_ok)
    as (s & E & Hs). unfold sample_busy. by rewrite E.
Qed.

Lemma halve_cpus_spec_witness :
  (bL_switcher_halve_cpus (H := big_LITTLE_MP) sample_env sample_bls).1 = 0
  /\ bL_switcher_cpu_pairing (bL_switcher_halve_cpus (H := big_LITTLE_MP) sample_env sample_bls).2 0 = 4.
Proof.
  pose proof (halve_cpus_spec (H := big_LITTLE_MP) sample_env sample_bls eq_refl) as Hh.
  assert (E : (bL_switcher_halve_cpus (H := big_LITTLE_MP) sample_env sample_bls).1 = 0) by (by vm_compute).
  split; [exact E|]. destruct (bL_switcher_halve_cpus (H := big_LITTLE_MP) sample_env sample_bls) as [ret s].
  destruct (proj1 Hh E) as [P _]. simpl. rewrite P. by vm_compute.
Defined.

Lemma logical_index_stable_witness :
  exists s, sw_run (H := big_LITTLE_MP) sample_events sample_on = Some s
    /\ bL_switcher_get_logical_index (H := big_LITTLE_MP) s 0 = 0
    /\ bL_switcher_get_logical_index (H := big_LITTLE_MP) s 258 = 0.
Proof.
  destruct (logical_index_stable (H := big_LITTLE_MP) sample_env sample_bls 0 sample_on sample_events 0 4 sample_boot_ok
    (fun _ => eq_refl) sample_enable eq_refl sample_events_ok sample_pair) as (s & E & I1 & I2 & _).
  exists s. split; [exact E|]. split; [exact I1|exact I2].
Defined.

Lemma switcher_roundtrip_witness :
  exists s2 s3, sw_run (H := big_LITTLE_MP) sample_events sample_on = Some s2
    /\ bL_switcher_disable (H := big_LITTLE_MP) sample_env s2 = Some s3
    /\ cpu_logical_map s3 0 = 0.
Proof.
  destruct (switcher_roundtrip (H := big_LITTLE_MP) sample_env sample_bls 0 sample_on sample_events sample_env
    sample_boot_ok (fun _ => eq_refl) sample_enable eq_refl sample_events_ok sample_env_ok eq_refl)
    as (s2 & s3 & E2 & E3 & _ & M & _).
  exists s2, s3. split; [exact E2|]. split; [exact E3|exact (M 0)].
Defined.


Lemma request_lost_on_disable_witness :
  exists s2, bL_switcher_disable (H := big_LITTLE_MP) sample_env
               (bL_switch_request_cb (H := big_LITTLE_MP) 0 1 (Some 9) 90 sample_busy).2 = Some s2
    /\ completer (bL_threads s2 0) = Some 9
    /\ (bL_switch_request_cb (H := big_LITTLE_MP) 0 1 (Some 5) 50
          (bL_switcher_enable (H := big_LITTLE_MP) sample_env s2).2).1 = - EBUSY.
Proof.
  destruct (request_lost_on_disable (H := big_LITTLE_MP) sample_bls sample_busy sample_env 0 0 None 0 1 9 90
    (bL_switch_request_cb (H := big_LITTLE_MP) 0 1 (Some 9) 90 sample_busy).2)
    as (s2 & E & C & _ & B);
    [apply sample_busy_ok|apply sample_member|by vm_compute|by vm_compute|done
    |apply pair_eta; by vm_compute|apply sample_env_ok|done|].
  exists s2. split; [exact E|]. split; [exact C|].
  assert (E' : bL_switcher_disable (H := big_LITTLE_MP) sample_env
    (bL_switch_request_cb (H := big_LITTLE_MP) 0 1 (Some 9) 90 sample_busy).2 = Some s2) by exact E.
  rewrite (B sample_env (bL_switcher_enable (H := big_LITTLE_MP) sample_env s2).2); [done|..].
  - apply pair_eta.
    enough (fst <$> (bL_switcher_enable (H := big_LITTLE_MP) sample_env <$> Some s2) = Some 0) as Hx by (by injection Hx).
    rewrite <- E'. by vm_compute.
  - enough ((fun s => task (bL_threads (bL_switcher_enable (H := big_LITTLE_MP) sample_env s).2 0)) <$> Some s2
      = Some TTask) as Hx by (by injection Hx).
    rewrite <- E'. by vm_compute.
Defined.
