(* ===== verification/FreqTable.v ===== *)
(** The cpufreq frequency tables ([drivers/cpufreq/freq_table.c]): the limits a table gives a
    policy, how a policy is made to fit a table, and which entry a target frequency
    selects.

    A table is the list of its entries' frequencies, in kHz, up to the entry
    [CPUFREQ_TABLE_END]; the index of an entry is its place. *)

From S2P Require Import Prelude.

Definition CPUFREQ_ENTRY_INVALID : Z := u32 (Z.lnot 0).
Definition CPUFREQ_TABLE_END : Z := u32 (Z.lnot 1).
Definition CPUFREQ_RELATION_L : Z := 0.
Definition CPUFREQ_RELATION_H : Z := 1.

Definition cpufreq_frequency_table : Type := list Z.

(** The fields of [struct cpufreq_policy] a driver uses; [cpuinfo_min], [cpuinfo_max] and
    [transition_latency] are those of [policy->cpuinfo]. *)
Record policy := mk_policy {
  pol_cpu : Z;
  pol_cpus : cpumask;
  pol_min : Z;
  pol_max : Z;
  pol_cur : Z;
  cpuinfo_min : Z;
  cpuinfo_max : Z;
  transition_latency : Z;
}.
#[export] Instance eta_policy : Eta policy := fun r =>
  {| pol_cpu := pol_cpu r; pol_cpus := pol_cpus r; pol_min := pol_min r; pol_max := pol_max r;
     pol_cur := pol_cur r; cpuinfo_min := cpuinfo_min r; cpuinfo_max := cpuinfo_max r;
     transition_latency := transition_latency r |}.

Definition valid_entry (freq : Z) : bool := negb (freq =? CPUFREQ_ENTRY_INVALID).

(** The loop of [cpufreq_frequency_table_cpuinfo]. *)
Definition cpuinfo_step (mm : Z * Z) (freq : Z) : Z * Z :=
  if negb (valid_entry freq) then mm
  else (if freq <? mm.1 then freq else mm.1, if mm.2 <? freq then freq else mm.2).

Definition cpufreq_frequency_table_cpuinfo (p : policy) (table : cpufreq_frequency_table) : Z * policy :=
  let '(min_freq, max_freq) := foldl cpuinfo_step (u32 (Z.lnot 0), 0) table in
  let p := p <| cpuinfo_min := min_freq |> <| pol_min := min_freq |> in
  let p := p <| cpuinfo_max := max_freq |> <| pol_max := max_freq |> in
  (if pol_min p =? u32 (Z.lnot 0) then - EINVAL else 0, p).

Definition cpufreq_verify_within_limits (p : policy) (min max : Z) : policy :=
  let p := if pol_min p <? min then p <| pol_min := min |> else p in
  let p := if pol_max p <? min then p <| pol_max := min |> else p in
  let p := if max <? pol_min p then p <| pol_min := max |> else p in
  let p := if max <? pol_max p then p <| pol_max := max |> else p in
  if pol_max p <? pol_min p then p <| pol_min := pol_max p |> else p.

(** The loop of [cpufreq_frequency_table_verify]: [count] and [next_larger]. *)
Definition verify_step (p : policy) (cn : Z * Z) (freq : Z) : Z * Z :=
  if negb (valid_entry freq) then cn
  else if (pol_min p <=? freq) && (freq <=? pol_max p) then (cn.1 + 1, cn.2)
  else if (freq <? cn.2) && (pol_max p <? freq) then (cn.1, freq)
  else cn.

Definition cpufreq_frequency_table_verify (p : policy) (table : cpufreq_frequency_table) : Z * policy :=
  let p := cpufreq_verify_within_limits p (cpuinfo_min p) (cpuinfo_max p) in
  let '(count, next_larger) := foldl (verify_step p) (0, u32 (Z.lnot 0)) table in
  let p := if count =? 0 then p <| pol_max := next_larger |> else p in
  (0, cpufreq_verify_within_limits p (cpuinfo_min p) (cpuinfo_max p)).

(** [optimal] and [suboptimal] of [cpufreq_frequency_table_target]. *)
Record candidates := mk_cand {
  opt_index : Z;
  opt_freq : Z;
  sub_index : Z;
  sub_freq : Z;
}.

Definition take_opt (i freq : Z) (c : candidates) : candidates := mk_cand i freq (sub_index c) (sub_freq c).
Definition take_sub (i freq : Z) (c : candidates) : candidates := mk_cand (opt_index c) (opt_freq c) i freq.

Definition target_step (p : policy) (target_freq relation i freq : Z) (c : candidates) : candidates :=
  if negb (valid_entry freq) then c
  else if (freq <? pol_min p) || (pol_max p <? freq) then c
  else if relation =? CPUFREQ_RELATION_H then
    if freq <=? target_freq
    then if opt_freq c <=? freq then take_opt i freq c else c
    else if freq <=? sub_freq c then take_sub i freq c else c
  else if relation =? CPUFREQ_RELATION_L then
    if target_freq <=? freq
    then if freq <=? opt_freq c then take_opt i freq c else c
    else if sub_freq c <=? freq then take_sub i freq c else c
  else c.

Fixpoint target_loop (p : policy) (target_freq relation i : Z) (l : list Z) (c : candidates) : Z * candidates :=
  match l with
  | [] => (i, c)
  | freq :: l => target_loop p target_freq relation (i + 1) l (target_step p target_freq relation i freq c)
  end.

(** The index, or an error with the index not written. *)
Definition cpufreq_frequency_table_target (p : policy) (table : cpufreq_frequency_table)
    (target_freq relation : Z) : Z + Z :=
  let c := mk_cand (u32 (Z.lnot 0)) (if relation =? CPUFREQ_RELATION_L then u32 (Z.lnot 0) else 0)
                   (u32 (Z.lnot 0)) (if relation =? CPUFREQ_RELATION_H then u32 (Z.lnot 0) else 0) in
  let '(i, c) := target_loop p target_freq relation 0 table c in
  if i <? opt_index c
  then if i <? sub_index c then inl (- EINVAL) else inr (sub_index c)
  else inr (opt_index c).

(** * Limits *)

(** Tables of 32-bit frequencies that do not end early, and small enough to be indexed. *)
Record table_ok (table : cpufreq_frequency_table) : Prop := {
  tb_u32 : Forall is_u32 table;
  tb_end : CPUFREQ_TABLE_END ∉ table;
  tb_len : (Z.of_nat (length table) < u32 (Z.lnot 0))%Z;
}.

(** The usable entries. *)
Definition entries (table : list Z) : list Z := filter (fun f => valid_entry f = true) table.

Lemma elem_of_entries f table : f ∈ entries table <-> f ∈ table /\ f <> CPUFREQ_ENTRY_INVALID.
Proof.
  unfold entries, valid_entry. rewrite list_elem_of_filter, negb_true_iff, Z.eqb_neq. tauto.
Qed.

Lemma entry_range f table : table_ok table -> f ∈ entries table -> 0 <= f < u32 (Z.lnot 0).
Proof.
  intros [Hu _ _] [Hf Hn]%elem_of_entries. rewrite Forall_forall in Hu. specialize (Hu f Hf).
  unfold is_u32, CPUFREQ_ENTRY_INVALID in *. change (u32 (Z.lnot 0)) with (2 ^ 32 - 1) in *. lia.
Qed.

Lemma cpuinfo_fold table mm :
  let '(lo, hi) := foldl cpuinfo_step mm table in
  (lo = mm.1 \/ lo ∈ entries table) /\ (hi = mm.2 \/ hi ∈ entries table)
  /\ lo <= mm.1 /\ mm.2 <= hi /\ forall f, f ∈ entries table -> lo <= f <= hi.
Proof.
  revert mm. induction table as [|f l IH]; intros mm; cbn [foldl].
  { destruct mm as [lo hi]. cbn [fst snd]. split_and!; auto; try lia. intros f Hf. by apply elem_of_nil in Hf. }
  specialize (IH (cpuinfo_step mm f)). destruct (foldl cpuinfo_step _ l) as [lo hi].
  unfold cpuinfo_step in IH. unfold entries in *. rewrite filter_cons.
  destruct (valid_entry f) eqn:Hv; cbn [negb] in IH.
  2:{ by rewrite decide_False by done. }
  rewrite decide_True by done. cbn [fst snd] in IH. destruct IH as (Hlo & Hhi & L1 & L2 & Hall).
  destruct (Z.ltb_spec f mm.1), (Z.ltb_spec mm.2 f); split_and!; try lia;
    try (intros g [->|Hg]%elem_of_cons; [lia|by apply Hall]); rewrite elem_of_cons; tauto.
Qed.

Lemma cpuinfo_limits p table ret p' :
  table_ok table -> cpufreq_frequency_table_cpuinfo p table = (ret, p') ->
  (ret = 0 <-> entries table <> [])
  /\ (entries table <> [] -> cpuinfo_min p' ∈ entries table /\ cpuinfo_max p' ∈ entries table)
  /\ (forall f, f ∈ entries table -> cpuinfo_min p' <= f <= cpuinfo_max p')
  /\ pol_min p' = cpuinfo_min p' /\ pol_max p' = cpuinfo_max p'.
Proof.
  intros Hok. unfold cpufreq_frequency_table_cpuinfo. pose proof (cpuinfo_fold table (u32 (Z.lnot 0), 0)) as Hf.
  destruct (foldl cpuinfo_step _ table) as [lo hi]. destruct Hf as (Hlo & Hhi & L1 & L2 & Hall). cbn [fst snd] in *.
  intros [= <- <-]. simpl. assert (Hne : entries table <> [] -> lo ∈ entries table /\ hi ∈ entries table).
  { intros Hne. destruct (entries table) as [|f l] eqn:E; [done|]. rewrite <- E in *.
    assert (Hf : f ∈ entries table) by (rewrite E; left). pose proof (Hall f Hf) as Hb.
    pose proof (entry_range f table Hok Hf) as Hr. split; [destruct Hlo as [->|?]|destruct Hhi as [->|?]]; auto; [lia|].
    by replace 0 with f by lia. }
  split_and!; auto. split.
  - intros E Hn. rewrite Hn in Hlo. destruct Hlo as [->|Hlo]; [|by apply elem_of_nil in Hlo].
    by rewrite Z.eqb_refl in E.
  - intros Hn. destruct (Hne Hn) as [Hl _]. pose proof (entry_range lo table Hok Hl).
    destruct (Z.eqb_spec lo (u32 (Z.lnot 0))); [lia|done].
Qed.

(** * Fitting a policy to a table *)

Lemma within_limits_range p lo hi :
  lo <= hi ->
  let p' := cpufreq_verify_within_limits p lo hi in
  lo <= pol_min p' <= pol_max p' /\ pol_max p' <= hi
  /\ (lo <= pol_min p <= pol_max p -> pol_max p <= hi -> p' = p)
  /\ cpuinfo_min p' = cpuinfo_min p /\ cpuinfo_max p' = cpuinfo_max p.
Proof.
  intros Hlh. unfold cpufreq_verify_within_limits. cbv zeta.
  repeat (case_match; simpl in *; rewrite ?Z.ltb_lt, ?Z.ltb_ge in *); split_and!; try done; try lia; intros; lia.
Qed.

Definition in_limits (p : policy) (f : Z) : Prop := pol_min p <= f <= pol_max p.

Lemma verify_fold p table c n :
  0 <= c ->
  let '(count, next) := foldl (verify_step p) (c, n) table in
  c <= count /\ (count = c <-> forall f, f ∈ entries table -> ~ in_limits p f)
  /\ next <= n /\ (next = n \/ next ∈ entries table /\ pol_max p < next)
  /\ forall f, f ∈ entries table -> pol_max p < f -> ~ in_limits p f -> next <= f.
Proof.
  revert c n. induction table as [|f l IH]; intros c n Hc; cbn [foldl].
  { assert (Hn : forall f, f ∈ entries [] -> False) by (intros f Hf; by apply elem_of_nil in Hf).
    split; [lia|]. split; [split; [intros _ f Hf; by destruct (Hn f)|done]|].
    split; [lia|]. split; [by left|]. intros f Hf. by destruct (Hn f). }
  unfold verify_step at 2. unfold entries in *. rewrite filter_cons. destruct (valid_entry f) eqn:Hv; cbn [negb fst snd].
  2:{ rewrite decide_False by done. by apply IH. }
  rewrite decide_True by done.
  destruct ((pol_min p <=? f) && (f <=? pol_max p)) eqn:Hin.
  - apply andb_true_iff in Hin as [H1%Z.leb_le H2%Z.leb_le]. specialize (IH (c + 1) n ltac:(lia)).
    destruct (foldl _ _ l) as [count next]. destruct IH as (A & B & C & D & F).
    split_and!; [lia| |done|destruct D as [?|[? ?]]; [by left|right; set_solver]|].
    + split; [lia|]. intros Hx. destruct (Hx f); [left|done].
    + intros g [->|Hg]%elem_of_cons; [intros; lia|by apply F].
  - assert (Hnot : ~ in_limits p f).
    { intros [H1 H2]. by rewrite (proj2 (Z.leb_le _ _) H1), (proj2 (Z.leb_le _ _) H2) in Hin. }
    set (n1 := if (f <? n) && (pol_max p <? f) then f else n).
    assert (E : (if (f <? n) && (pol_max p <? f) then (c, f) else (c, n)) = (c, n1)) by (unfold n1; by case_match).
    rewrite E. specialize (IH c n1 Hc). destruct (foldl _ _ l) as [count next]. destruct IH as (A & B & C & D & F).
    assert (Hn1 : n1 <= n /\ (pol_max p < f -> n1 <= f)).
    { unfold n1. destruct (Z.ltb_spec f n), (Z.ltb_spec (pol_max p) f); simpl; lia. }
    split_and!; [done| |lia| |].
    + rewrite B. split; [intros Hx g [->|Hg]%elem_of_cons; auto|intros Hx g Hg; apply Hx; by right].
    + destruct D as [->|[? ?]]; [|right; set_solver]. unfold n1.
      destruct (Z.ltb_spec f n), (Z.ltb_spec (pol_max p) f); simpl; auto. right. split; [left|done].
    + intros g [->|Hg]%elem_of_cons Hgm Hgn; [|by apply F]. lia.
Qed.

(** A policy whose hardware limits are those of the table. *)
Record limits_ok (p : policy) (table : cpufreq_frequency_table) : Prop := {
  lo_min : cpuinfo_min p ∈ entries table;
  lo_max : cpuinfo_max p ∈ entries table;
  lo_all : forall f, f ∈ entries table -> cpuinfo_min p <= f <= cpuinfo_max p;
}.

(** After verification a frequency of the table lies within the policy's limits, which
    lie within those of the hardware. *)
Lemma verify_ok p table ret p' :
  table_ok table -> limits_ok p table -> cpufreq_frequency_table_verify p table = (ret, p') ->
  ret = 0 /\ limits_ok p' table
  /\ cpuinfo_min p' <= pol_min p' <= pol_max p' /\ pol_max p' <= cpuinfo_max p'
  /\ exists f, f ∈ entries table /\ in_limits p' f.
Proof.
  intros Hok [Lm LM La]. unfold cpufreq_frequency_table_verify.
  assert (Hle : cpuinfo_min p <= cpuinfo_max p) by (by apply La).
  destruct (within_limits_range p (cpuinfo_min p) (cpuinfo_max p) Hle) as (R1 & R2 & _ & C1 & C2).
  set (p1 := cpufreq_verify_within_limits p _ _) in *. clearbody p1.
  pose proof (verify_fold p1 table 0 (u32 (Z.lnot 0)) ltac:(lia)) as Hf.
  destruct (foldl _ _ table) as [count next]. destruct Hf as (A & B & C & D & F).
  destruct (Z.eqb_spec count 0) as [Hc|Hc].
  - assert (Hnot : forall f, f ∈ entries table -> ~ in_limits p1 f) by (by apply B).
    assert (HM : pol_max p1 < cpuinfo_max p1).
    { rewrite C2. destruct (Z.lt_ge_cases (pol_max p1) (cpuinfo_max p)); [done|].
      destruct (Hnot (cpuinfo_max p)); [done|unfold in_limits; lia]. }
    assert (Hn : next ∈ entries table /\ pol_max p1 < next).
    { destruct D as [->|?]; [|done]. pose proof (entry_range _ _ Hok LM).
      specialize (F (cpuinfo_max p) LM). rewrite C2 in HM. specialize (F HM (Hnot _ LM)). lia. }
    set (p2 := p1 <| pol_max := next |>).
    assert (E2 : cpuinfo_min p2 = cpuinfo_min p /\ cpuinfo_max p2 = cpuinfo_max p) by (by simpl; split).
    destruct E2 as [E3 E4]. pose proof (La next (proj1 Hn)).
    destruct (within_limits_range p2 (cpuinfo_min p2) (cpuinfo_max p2)) as (_ & _ & E & _); [lia|].
    rewrite E; [|rewrite E3; simpl; lia|rewrite E4; simpl; lia]. intros [= <- <-].
    split_and!; rewrite ?E3, ?E4; simpl; try lia; [by split; rewrite ?E3, ?E4|].
    exists next. split; [by apply Hn|unfold in_limits; simpl; lia].
  - destruct (within_limits_range p1 (cpuinfo_min p1) (cpuinfo_max p1)) as (_ & _ & E & _); [lia|].
    rewrite E by lia. intros [= <- <-]. split_and!; try lia; [by split; rewrite ?C1, ?C2|].
    destruct (decide (Exists (in_limits p1) (entries table))) as [(f & ? & ?)%Exists_exists|Hn]; [by exists f|].
    destruct Hc. apply B. intros f Hf Hi. apply Hn, Exists_exists. by exists f.
Qed.

(** * Choosing an entry *)

(** What the candidates stand for once the entries of [done] have been seen, for the order
    [le] of the relation: the best entry on the right side of the target, the nearest on
    the other. *)
Definition best (le : Z -> Z -> Prop) (P : Z -> Prop) (done : list Z) (i f : Z) : Prop :=
  (exists n : nat, i = Z.of_nat n /\ done !! n = Some f /\ valid_entry f = true /\ P f)
  /\ forall g, g ∈ entries done -> P g -> le f g.

Definition side_ok (le : Z -> Z -> Prop) (P : Z -> Prop) (d : Z) (done : list Z) (i f : Z) : Prop :=
  best le P done i f \/ (i = u32 (Z.lnot 0) /\ f = d /\ forall g, g ∈ entries done -> ~ P g).

Lemma entries_snoc done f :
  entries (done ++ [f]) = entries done ++ (if valid_entry f then [f] else []).
Proof. unfold entries. rewrite filter_app. f_equal. rewrite filter_cons. by destruct (valid_entry f). Qed.

Lemma side_skip le P d done i f g :
  (valid_entry g = true -> ~ P g \/ (P g /\ best le P done i f /\ le f g)) ->
  side_ok le P d done i f -> side_ok le P d (done ++ [g]) i f.
Proof.
  intros Hg Hs. unfold side_ok, best in *.
  assert (Hel : forall h, h ∈ entries (done ++ [g]) -> h ∈ entries done \/ (h = g /\ valid_entry g = true)).
  { intros h. rewrite entries_snoc, elem_of_app. destruct (valid_entry g); set_solver. }
  destruct Hs as [[(n & -> & Hn & Hv & HP) Hb]|(-> & -> & Hn)].
  - left. split; [exists n; split_and!; auto; by apply lookup_app_l_Some|].
    intros h [Hh|[-> Hv']]%Hel Ph; [by apply Hb|]. destruct (Hg Hv') as [?|(_ & _ & ?)]; done.
  - destruct (valid_entry g) eqn:Hv.
    + destruct (Hg eq_refl) as [Hng|(Pg & [(n & Ei & Hl & Hv' & HP) _] & _)].
      * right. split_and!; auto. intros h [Hh|[-> _]]%Hel; auto.
      * exfalso. apply (Hn d); [|done]. apply elem_of_entries. split; [by eapply list_elem_of_lookup_2|].
        unfold valid_entry in Hv'. by apply negb_true_iff, Z.eqb_neq in Hv'.
    + right. split_and!; auto. intros h [Hh|[-> ?]]%Hel; [by auto|done].
Qed.

Lemma side_take le P d done i f g :
  (forall a b c, le a b -> le b c -> le a c) -> (forall a, le a a) ->
  valid_entry g = true -> P g -> (best le P done i f -> le g f) ->
  side_ok le P d done i f -> side_ok le P d (done ++ [g]) (Z.of_nat (length done)) g.
Proof.
  intros Ht Hr Hv Pg Hle Hs. left. split.
  - exists (length done). split_and!; auto. rewrite lookup_app_r by lia. by rewrite Nat.sub_diag.
  - intros h. rewrite entries_snoc, Hv, elem_of_app. intros [Hh|Hh] Ph.
    + destruct Hs as [Hb|(_ & _ & Hn)]; [|by destruct (Hn h)]. pose proof (proj2 Hb h Hh Ph). eauto.
    + apply list_elem_of_singleton in Hh as ->. apply Hr.
Qed.

Lemma side_step (le : Z -> Z -> Prop) (leb : Z -> Z -> bool) P d done i f g :
  (forall a b c, le a b -> le b c -> le a c) -> (forall a, le a a) ->
  (forall a b, leb a b = true <-> le a b) -> (forall a b, le a b \/ le b a) -> le g d ->
  valid_entry g = true -> P g -> side_ok le P d done i f ->
  side_ok le P d (done ++ [g]) (if leb g f then Z.of_nat (length done) else i) (if leb g f then g else f).
Proof.
  intros Ht Hr Hb Htot Hd Hv Pg Hs. destruct (leb g f) eqn:E.
  - apply (side_take le P d done i f); auto. intros _. by apply Hb.
  - assert (Hn : ~ le g f) by (intros ?%Hb; congruence). apply side_skip; [|done]. intros _. right.
    destruct (Htot f g) as [Hfg|]; [|done]. split_and!; auto.
    destruct Hs as [?|(_ & -> & _)]; done.
Qed.

(** The relations: on which side of the target an entry has to be, and which of two is
    preferred there. *)
Definition on_side (relation target f : Z) : bool :=
  if relation =? CPUFREQ_RELATION_H then f <=? target else target <=? f.
Definition prefer (relation f g : Z) : bool :=
  if relation =? CPUFREQ_RELATION_H then g <=? f else f <=? g.

Definition side_opt p target relation f : Prop := in_limits p f /\ on_side relation target f = true.
Definition side_sub p target relation f : Prop := in_limits p f /\ on_side relation target f = false.

Definition cand_ok p target relation (done : list Z) (c : candidates) : Prop :=
  side_ok (fun a b => prefer relation a b = true) (side_opt p target relation)
    (if relation =? CPUFREQ_RELATION_L then u32 (Z.lnot 0) else 0) done (opt_index c) (opt_freq c)
  /\ side_ok (fun a b => prefer relation b a = true) (side_sub p target relation)
    (if relation =? CPUFREQ_RELATION_H then u32 (Z.lnot 0) else 0) done (sub_index c) (sub_freq c).

Lemma prefer_trans relation a b c :
  prefer relation a b = true -> prefer relation b c = true -> prefer relation a c = true.
Proof. unfold prefer. case_match; rewrite !Z.leb_le; lia. Qed.
Lemma prefer_refl relation a : prefer relation a a = true.
Proof. unfold prefer. case_match; rewrite !Z.leb_le; lia. Qed.
Lemma prefer_total relation a b : prefer relation a b = true \/ prefer relation b a = true.
Proof. unfold prefer. case_match; rewrite !Z.leb_le; lia. Qed.

Lemma prefer_opt_default relation g :
  relation = CPUFREQ_RELATION_L \/ relation = CPUFREQ_RELATION_H -> 0 <= g <= u32 (Z.lnot 0) ->
  prefer relation g (if relation =? CPUFREQ_RELATION_L then u32 (Z.lnot 0) else 0) = true.
Proof. intros [-> | ->] ?; unfold prefer, CPUFREQ_RELATION_L, CPUFREQ_RELATION_H; cbn [Z.eqb]; apply Z.leb_le; tauto. Qed.
Lemma prefer_sub_default relation g :
  relation = CPUFREQ_RELATION_L \/ relation = CPUFREQ_RELATION_H -> 0 <= g <= u32 (Z.lnot 0) ->
  prefer relation (if relation =? CPUFREQ_RELATION_H then u32 (Z.lnot 0) else 0) g = true.
Proof. intros [-> | ->] ?; unfold prefer, CPUFREQ_RELATION_L, CPUFREQ_RELATION_H; cbn [Z.eqb]; apply Z.leb_le; tauto. Qed.

(** The step in terms of the sides. *)
Lemma target_step_sides p target relation i g c :
  relation = CPUFREQ_RELATION_L \/ relation = CPUFREQ_RELATION_H ->
  target_step p target relation i g c =
    if negb (valid_entry g) || negb (bool_decide (in_limits p g)) then c
    else if on_side relation target g
    then if prefer relation g (opt_freq c) then take_opt i g c else c
    else if prefer relation (sub_freq c) g then take_sub i g c else c.
Proof.
  intros Hrel. unfold target_step. destruct (valid_entry g); [|done]. cbn [negb orb].
  assert (E : negb (bool_decide (in_limits p g)) = (g <? pol_min p) || (pol_max p <? g)).
  { unfold in_limits. case_bool_decide; destruct (Z.ltb_spec g (pol_min p)), (Z.ltb_spec (pol_max p) g); simpl; lia. }
  rewrite E. destruct ((g <? pol_min p) || (pol_max p <? g)); [done|]. unfold on_side, prefer.
  by destruct Hrel as [-> | ->].
Qed.

Lemma target_step_ok p target relation done g c :
  relation = CPUFREQ_RELATION_L \/ relation = CPUFREQ_RELATION_H ->
  0 <= g <= u32 (Z.lnot 0) -> cand_ok p target relation done c ->
  cand_ok p target relation (done ++ [g]) (target_step p target relation (Z.of_nat (length done)) g c).
Proof.
  intros Hrel Hg [Ho Hs]. rewrite target_step_sides by done. unfold cand_ok.
  destruct (valid_entry g) eqn:Hv; cbn [negb orb].
  2:{ split; apply side_skip; try done; intros ?; congruence. }
  case_bool_decide as Hl; cbn [negb].
  2:{ split; apply side_skip; try done; intros _; left; by intros [? _]. }
  destruct (on_side relation target g) eqn:Hos.
  - split.
    + pose proof (side_step (fun a b => prefer relation a b = true) (prefer relation) (side_opt p target relation)
        _ done _ _ g (prefer_trans relation) (prefer_refl relation) ltac:(done) (prefer_total relation)
        (prefer_opt_default relation g Hrel Hg) Hv (conj Hl Hos) Ho) as Hx.
      by destruct (prefer relation g (opt_freq c)).
    + assert (Hx : side_ok (fun a b => prefer relation b a = true) (side_sub p target relation)
        (if relation =? CPUFREQ_RELATION_H then u32 (Z.lnot 0) else 0) (done ++ [g]) (sub_index c) (sub_freq c)).
      { apply side_skip; [|done]. intros _. left. intros [_ ?]. congruence. }
      by destruct (prefer relation g (opt_freq c)).
  - split.
    + assert (Hx : side_ok (fun a b => prefer relation a b = true) (side_opt p target relation)
        (if relation =? CPUFREQ_RELATION_L then u32 (Z.lnot 0) else 0) (done ++ [g]) (opt_index c) (opt_freq c)).
      { apply side_skip; [|done]. intros _. left. intros [_ ?]. congruence. }
      by destruct (prefer relation (sub_freq c) g).
    + pose proof (side_step (fun a b => prefer relation b a = true) (fun a b => prefer relation b a)
        (side_sub p target relation) _ done _ _ g (fun a b c Hab Hbc => prefer_trans relation c b a Hbc Hab)
        (prefer_refl relation) ltac:(done) (fun a b => prefer_total relation b a)
        (prefer_sub_default relation g Hrel Hg) Hv (conj Hl Hos) Hs) as Hx.
      by destruct (prefer relation (sub_freq c) g).
Qed.

Lemma target_loop_ok p target relation l done c i c' :
  relation = CPUFREQ_RELATION_L \/ relation = CPUFREQ_RELATION_H -> Forall is_u32 l ->
  cand_ok p target relation done c ->
  target_loop p target relation (Z.of_nat (length done)) l c = (i, c') ->
  i = Z.of_nat (length (done ++ l)) /\ cand_ok p target relation (done ++ l) c'.
Proof.
  intros Hrel Hl. revert done c. induction Hl as [|g l Hg Hl IH]; intros done c Hc; cbn [target_loop].
  { intros [= <- <-]. by rewrite app_nil_r. }
  replace (Z.of_nat (length done) + 1) with (Z.of_nat (length (done ++ [g]))) by (rewrite length_app; simpl; lia).
  intros E. apply IH in E; [by rewrite <- app_assoc in E|]. apply target_step_ok; try done.
  unfold is_u32 in Hg. change (u32 (Z.lnot 0)) with (2 ^ 32 - 1). lia.
Qed.

Lemma best_entry le P done i f : best le P done i f -> f ∈ entries done /\ P f /\ 0 <= i < Z.of_nat (length done) /\ done !! Z.to_nat i = Some f.
Proof.
  intros [(n & -> & Hn & Hv & HP) _]. split.
  - apply elem_of_entries. split; [by eapply list_elem_of_lookup_2|].
    unfold valid_entry in Hv. by apply negb_true_iff, Z.eqb_neq in Hv.
  - rewrite Nat2Z.id. split_and!; auto; [lia|]. apply lookup_lt_Some in Hn. lia.
Qed.

(** What [cpufreq_frequency_table_target] promises. *)
Lemma target_ok p table target relation :
  table_ok table -> relation = CPUFREQ_RELATION_L \/ relation = CPUFREQ_RELATION_H ->
  match cpufreq_frequency_table_target p table target relation with
  | inl err => err = - EINVAL /\ forall f, f ∈ entries table -> ~ in_limits p f
  | inr i => exists f, 0 <= i < Z.of_nat (length table) /\ table !! Z.to_nat i = Some f
      /\ f ∈ entries table /\ in_limits p f
      /\ forall g, g ∈ entries table -> in_limits p g ->
           if on_side relation target f then on_side relation target g = true -> prefer relation f g = true
           else on_side relation target g = false /\ prefer relation g f = true
  end.
Proof.
  intros Hok Hrel. unfold cpufreq_frequency_table_target. set (c0 := mk_cand _ _ _ _).
  assert (H0 : cand_ok p target relation [] c0).
  { split; right; split_and!; try done; intros g Hg; by apply elem_of_nil in Hg. }
  destruct (target_loop p target relation 0 table c0) as [i c] eqn:E.
  apply (target_loop_ok p target relation table [] c0) in E as [-> [Ho Hs]]; [|done|apply Hok|done].
  cbn [app] in *. pose proof (tb_len _ Hok) as Hlen.
  destruct Ho as [Hb|(-> & _ & Hno)].
  - destruct (best_entry _ _ _ _ _ Hb) as (Hf & [Hl Hos] & Hi & Hn).
    rewrite (proj2 (Z.ltb_ge _ _)) by lia. exists (opt_freq c). split_and!; auto; [lia..|].
    intros g Hg Hgl. rewrite Hos. intros Hgo. by apply (proj2 Hb).
  - rewrite (proj2 (Z.ltb_lt _ _)) by done. assert (Hns : forall g, g ∈ entries table -> in_limits p g -> on_side relation target g = false).
    { intros g Hg Hl. apply not_true_iff_false. intros ?. by apply (Hno g). }
    destruct Hs as [Hb|(-> & _ & Hn)].
    + destruct (best_entry _ _ _ _ _ Hb) as (Hf & [Hl Hos] & Hi & Hn).
      rewrite (proj2 (Z.ltb_ge _ _)) by lia. exists (sub_freq c). split_and!; auto; [lia..|].
      intros g Hg Hgl. rewrite Hos. split; [auto|]. apply (proj2 Hb); [done|]. by split; auto.
    + rewrite (proj2 (Z.ltb_lt _ _)) by done. split; [done|]. intros f Hf Hl. apply (Hn f Hf). split; auto.
Qed.

(** A frequency is always found.  Once a policy has taken its limits from a table with
    a usable entry, then whatever limits a user sets, after verification every target
    selects an entry of the table within those of the policy: the lowest at or above the
    target ([CPUFREQ_RELATION_L]) or the highest at or below it ([CPUFREQ_RELATION_H]),
    and, if there is none on that side, the nearest on the other. *)
Theorem frequency_target_spec p0 table p1 lo hi ret p2 target relation :
  table_ok table -> cpufreq_frequency_table_cpuinfo p0 table = (0, p1) ->
  cpufreq_frequency_table_verify (p1 <| pol_min := lo |> <| pol_max := hi |>) table = (ret, p2) ->
  relation = CPUFREQ_RELATION_L \/ relation = CPUFREQ_RELATION_H ->
  exists i f, cpufreq_frequency_table_target p2 table target relation = inr i
    /\ 0 <= i /\ table !! Z.to_nat i = Some f /\ f ∈ entries table
    /\ cpuinfo_min p1 <= pol_min p2 <= f /\ f <= pol_max p2 <= cpuinfo_max p1
    /\ forall g, g ∈ entries table -> pol_min p2 <= g <= pol_max p2 ->
         if on_side relation target f then on_side relation target g = true -> prefer relation f g = true
         else on_side relation target g = false /\ prefer relation g f = true.
Proof.
  intros Hok E1 E2 Hrel. destruct (cpuinfo_limits _ _ _ _ Hok E1) as ([Hne _] & Hin & Hall & _).
  destruct (Hin (Hne eq_refl)) as [Hlo Hhi]. set (p1' := p1 <| pol_min := lo |> <| pol_max := hi |>) in *.
  assert (Hlim : limits_ok p1' table) by (by split).
  assert (Hc : cpuinfo_min p2 = cpuinfo_min p1 /\ cpuinfo_max p2 = cpuinfo_max p1).
  { destruct (verify_ok _ _ _ _ Hok Hlim E2) as (_ & [A B C] & _).
    pose proof (Hall _ A). pose proof (Hall _ B). pose proof (C _ Hlo). pose proof (C _ Hhi). lia. }
  destruct (verify_ok _ _ _ _ Hok Hlim E2) as (_ & _ & R1 & R2 & f0 & Hf0 & Hl0). destruct Hc as [C1 C2].
  pose proof (target_ok p2 table target relation Hok Hrel) as Ht.
  destruct (cpufreq_frequency_table_target p2 table target relation) as [err|i].
  { destruct Ht as [_ Ht]. by destruct (Ht f0). }
  destruct Ht as (f & Hi & Hn & Hf & [H1 H2] & Hg). exists i, f. split_and!; auto; lia.
Qed.

Definition sample_table : cpufreq_frequency_table := [175000; 250000; CPUFREQ_ENTRY_INVALID; 500000; 1000000].
Definition sample_policy : policy := mk_policy 0 1 0 0 0 0 0 0.

Lemma frequency_target_spec_witness :
  let p1 := (cpufreq_frequency_table_cpuinfo sample_policy sample_table).2 in
  let p2 := (cpufreq_frequency_table_verify (p1 <| pol_min := 300000 |> <| pol_max := 400000 |>) sample_table).2 in
  exists i f, cpufreq_frequency_table_target p2 sample_table 200000 CPUFREQ_RELATION_H = inr i
    /\ sample_table !! Z.to_nat i = Some f /\ 300000 <= f.
Proof.
  intros p1 p2. destruct (frequency_target_spec sample_policy sample_table p1 300000 400000 0 p2 200000
    CPUFREQ_RELATION_H) as (i & f & E & _ & L & _ & B & _).
  - split; [repeat constructor; done| |done]. vm_compute. intros Hin. by repeat (inversion Hin; clear Hin; subst; rename H1 into Hin).
  - by vm_compute.
  - by vm_compute.
  - by right.
  - exists i, f. split; [exact E|]. split; [exact L|]. apply B.
Defined.
