(* ===== verification/CpufreqBL.v ===== *)
(** The cpufreq driver of big.LITTLE systems ([drivers/cpufreq/arm_big_little.c]).  Without
    the switcher each cluster has its own policy and table.  With it every logical CPU has
    a policy of its own over one virtual table, in which the frequencies of the A7s count
    half; the frequency chosen decides on which cluster the CPU has to run, and each
    cluster's clock has to serve the highest request of the CPUs on it.

    What the driver calls outside (clocks, operating points, devices, topology) is a
    [platform]: the results these calls give during one operation.  The switcher itself is
    that of [BLSwitcher], whose state is part of the driver's.  [None] stands for a kernel
    that faults: a NULL or freed table, or an index that was never written. *)

From S2P Require Import Prelude BLSwitcher FreqTable.

Definition A15_CLUSTER : Z := 0.
Definition A7_CLUSTER : Z := 1.
Definition MAX_CLUSTERS : Z := 2.

Definition CPUFREQ_ETERNAL : Z := u32 (-1).

Definition ACTUAL_FREQ (cluster freq : Z) : Z := if cluster =? A7_CLUSTER then u32 (Z.shiftl freq 1) else freq.
Definition VIRT_FREQ (cluster freq : Z) : Z := if cluster =? A7_CLUSTER then Z.shiftr freq 1 else freq.

(** An element of [freq_table]. *)
Inductive table_ptr := NullTable | FreedTable | TableAt (table : cpufreq_frequency_table).

(** The loop of [find_cluster_maxfreq] in progress: the CPUs left, [cpu_freq] once it has
    been read for the first of them, and [max_freq]. *)
Record scan := mk_scan { todo : list Z; seen : option Z; max_freq : Z }.

(** How far a CPU is in [bL_cpufreq_set_rate]: about to take [cluster_lock[new]]; its
    [cpu_last_req_freq] written, but not its [physical_cluster]; both written, and reading the
    requests; the new rate computed; [cpu_last_req_freq] put back after a failure, but not
    [physical_cluster]; about to ask for the switch; about to take [cluster_lock[old]];
    reading the requests for the old cluster; its rate computed. *)
Inductive rate_pc :=
| RIdle
| RStart (old new rate : Z)
| RFreq (old new rate prev : Z)
| RScan (old new rate prev : Z) (sc : scan)
| RSet (old new rate prev new_rate : Z)
| RUndo (old new rate ret : Z)
| RSwitch (old new rate : Z)
| ROld (old rate : Z)
| ROldScan (old rate : Z) (sc : scan)
| ROldSet (old rate new_rate : Z).

#[export] Instance scan_eq_dec : EqDecision scan.
Proof. solve_decision. Defined.
#[export] Instance rate_pc_eq_dec : EqDecision rate_pc.
Proof. solve_decision. Defined.

(** The notifications of [cpufreq_notify_transition]. *)
Inductive freq_event := PreChange (cpu old new : Z) | PostChange (cpu old new : Z).

Record driver := mk_driver {
  bL_switching_enabled : bool;
  arm_bL_ops : option Z;                     (* the ops registered *)
  driver_registered : bool;                  (* with the cpufreq core *)
  notifier_registered : bool;                (* with the switcher *)
  clk : Z -> bool;                           (* a clock is held *)
  clk_rate : Z -> Z;                         (* what clk_get_rate gives, in Hz *)
  freq_table : Z -> table_ptr;
  cluster_usage : Z -> Z;
  clk_big_min : Z;
  clk_little_max : Z;
  physical_cluster : Z -> Z;
  cpu_last_req_freq : Z -> Z;
  cluster_lock : Z -> option Z;              (* the CPU in whose policy it is held *)
  policies : Z -> policy;
  rate_state : Z -> rate_pc;
  old_freq : Z -> Z;                         (* freqs.old of the call in progress *)
  freq_log : list freq_event;
  sw : bls;
}.
#[export] Instance eta_driver : Eta driver := fun r =>
  {| bL_switching_enabled := bL_switching_enabled r; arm_bL_ops := arm_bL_ops r;
     driver_registered := driver_registered r; notifier_registered := notifier_registered r;
     clk := clk r; clk_rate := clk_rate r; freq_table := freq_table r;
     cluster_usage := cluster_usage r; clk_big_min := clk_big_min r;
     clk_little_max := clk_little_max r; physical_cluster := physical_cluster r;
     cpu_last_req_freq := cpu_last_req_freq r; cluster_lock := cluster_lock r;
     policies := policies r; rate_state := rate_state r; old_freq := old_freq r;
     freq_log := freq_log r; sw := sw r |}.

(** The results of the calls the driver makes. *)
Record platform := mk_platform {
  package_id : Z -> Z;                       (* topology_physical_package_id *)
  core_cpumask : Z -> cpumask;               (* topology_core_cpumask *)
  cpu_device : Z -> bool;                    (* whether get_cpu_device finds one *)
  init_opp_table : Z -> Z;                   (* of the registered ops *)
  opp_init_cpufreq_table : Z -> Z + cpufreq_frequency_table;
  clk_get_sys : Z -> option Z;               (* an error, if any *)
  kzalloc_ok : bool;
  clk_set_rate : Z -> Z -> Z;                (* by cluster and rate *)
  get_transition_latency : option (Z -> Z);
  cpufreq_register : Z;                      (* of cpufreq_register_driver *)
  register_notifier : Z;                     (* of bL_switcher_register_notifier *)
}.

Section driver_ops.
Context `{Config}.
Implicit Types (s : driver) (pl : platform).

Definition cpu_to_cluster pl s (cpu : Z) : Z :=
  if bL_switching_enabled s then MAX_CLUSTERS else package_id pl cpu.

(** * Rates *)

(** [find_cluster_maxfreq] without interference. *)
Definition max_step s (cluster max_freq j cpu_freq : Z) : Z :=
  if (cluster =? physical_cluster s j) && (max_freq <? cpu_freq) then cpu_freq else max_freq.
Definition find_cluster_maxfreq s (cluster : Z) : Z :=
  foldl (fun max_freq j => max_step s cluster max_freq j (cpu_last_req_freq s j))
        0 (cpus_of (cpu_online_mask (sw s))).

(** Other CPUs may write between any two of its reads.  A step reads the frequency of a CPU,
    or its cluster; [None]: the loop is over. *)
Definition scan_start s : scan :=
  {| todo := cpus_of (cpu_online_mask (sw s)); seen := None; max_freq := 0 |}.
Definition scan_step s (cluster : Z) (sc : scan) : option scan :=
  match todo sc, seen sc with
  | [], _ => None
  | j :: l, None => Some (mk_scan (j :: l) (Some (cpu_last_req_freq s j)) (max_freq sc))
  | j :: l, Some cpu_freq => Some (mk_scan l None (max_step s cluster (max_freq sc) j cpu_freq))
  end.

Definition clk_get_cpu_rate s (cpu : Z) : Z :=
  let cur_cluster := physical_cluster s cpu in
  let rate := u32 (clk_rate s cur_cluster / 1000) in
  if bL_switching_enabled s then VIRT_FREQ cur_cluster rate else rate.

Definition bL_cpufreq_get_rate s (cpu : Z) : Z :=
  if bL_switching_enabled s then cpu_last_req_freq s cpu else clk_get_cpu_rate s cpu.

Definition set_pc (cpu : Z) (pc : rate_pc) s : driver := s <| rate_state := <[cpu := pc]> (rate_state s) |>.
Definition set_lock (cluster : Z) (o : option Z) s : driver :=
  s <| cluster_lock := <[cluster := o]> (cluster_lock s) |>.
Definition set_freq (cpu freq : Z) s : driver :=
  s <| cpu_last_req_freq := <[cpu := freq]> (cpu_last_req_freq s) |>.
Definition set_cluster (cpu cluster : Z) s : driver :=
  s <| physical_cluster := <[cpu := cluster]> (physical_cluster s) |>.

(** The end of [bL_cpufreq_set_target], once [bL_cpufreq_set_rate] has returned [ret]. *)
Definition set_target_end (cpu ret freq : Z) s : driver :=
  let s := set_pc cpu RIdle s in
  if nonzero ret then s
  else
    let s := s <| policies := <[cpu := policies s cpu <| pol_cur := freq |>]> (policies s) |> in
    s <| freq_log := PostChange cpu (old_freq s cpu) freq :: freq_log s |>.

(** One step of [bL_cpufreq_set_rate] on behalf of the policy of [cpu]: one access to what
    it shares with the calls for other CPUs.  A CPU that finds a lock taken stays where it
    is. *)
Definition bL_cpufreq_set_rate_step pl (cpu : Z) s : driver :=
  let bLs := bL_switching_enabled s in
  match rate_state s cpu with
  | RIdle => s
  | RStart old_cluster new_cluster rate =>
      match cluster_lock s new_cluster with
      | Some _ => s
      | None =>
          let s := set_lock new_cluster (Some cpu) s in
          if bLs then
            let prev_rate := cpu_last_req_freq s cpu in
            set_pc cpu (RFreq old_cluster new_cluster rate prev_rate) (set_freq cpu rate s)
          else set_pc cpu (RSet old_cluster new_cluster rate 0 rate) s
      end
  | RFreq old_cluster new_cluster rate prev_rate =>
      let s := set_cluster cpu new_cluster s in
      set_pc cpu (RScan old_cluster new_cluster rate prev_rate (scan_start s)) s
  | RScan old_cluster new_cluster rate prev_rate sc =>
      match scan_step s new_cluster sc with
      | Some sc => set_pc cpu (RScan old_cluster new_cluster rate prev_rate sc) s
      | None =>
          let new_rate := ACTUAL_FREQ new_cluster (max_freq sc) in
          set_pc cpu (RSet old_cluster new_cluster rate prev_rate new_rate) s
      end
  | RSet old_cluster new_cluster rate prev_rate new_rate =>
      let hz := u32 (new_rate * 1000) in
      let ret := clk_set_rate pl new_cluster hz in
      if nonzero ret then
        if bLs then set_pc cpu (RUndo old_cluster new_cluster rate ret) (set_freq cpu prev_rate s)
        else set_target_end cpu ret rate (set_lock new_cluster None s)
      else
        let s := s <| clk_rate := <[new_cluster := hz]> (clk_rate s) |> in
        let s := set_lock new_cluster None s in
        if negb (old_cluster =? new_cluster) then set_pc cpu (RSwitch old_cluster new_cluster rate) s
        else set_target_end cpu 0 rate s
  | RUndo old_cluster new_cluster rate ret =>
      set_target_end cpu ret rate (set_lock new_cluster None (set_cluster cpu old_cluster s))
  | RSwitch old_cluster new_cluster rate =>
      set_pc cpu (ROld old_cluster rate) (s <| sw := (bL_switch_request_cb cpu new_cluster None 0 (sw s)).2 |>)
  | ROld old_cluster rate =>
      match cluster_lock s old_cluster with
      | Some _ => s
      | None =>
          let s := set_lock old_cluster (Some cpu) s in
          set_pc cpu (ROldScan old_cluster rate (scan_start s)) s
      end
  | ROldScan old_cluster rate sc =>
      match scan_step s old_cluster sc with
      | Some sc => set_pc cpu (ROldScan old_cluster rate sc) s
      | None =>
          let new_rate := ACTUAL_FREQ old_cluster (max_freq sc) in
          set_pc cpu (ROldSet old_cluster rate new_rate) s
      end
  | ROldSet old_cluster rate new_rate =>
      let hz := u32 (new_rate * 1000) in
      let s := if nonzero new_rate && (clk_set_rate pl old_cluster hz =? 0)
               then s <| clk_rate := <[old_cluster := hz]> (clk_rate s) |> else s in
      set_target_end cpu 0 rate (set_lock old_cluster None s)
  end.

(** * Policies *)

Definition table_at (t : table_ptr) : option cpufreq_frequency_table :=
  match t with TableAt table => Some table | _ => None end.

Definition bL_cpufreq_verify_policy pl (cpu : Z) (p : policy) s : option (Z * policy) :=
  let cur_cluster := cpu_to_cluster pl s cpu in
  table ← table_at (freq_table s cur_cluster);
  Some (cpufreq_frequency_table_verify p table).

(** On which cluster a frequency is to be had. *)
Definition choose_cluster s (actual_cluster freq : Z) : Z :=
  if bL_switching_enabled s then
    if (actual_cluster =? A15_CLUSTER) && (freq <? clk_big_min s) then A7_CLUSTER
    else if (actual_cluster =? A7_CLUSTER) && (clk_little_max s <? freq) then A15_CLUSTER
    else actual_cluster
  else actual_cluster.

(** [bL_cpufreq_set_target] up to the call of [bL_cpufreq_set_rate]. *)
Definition bL_cpufreq_set_target pl (cpu target_freq relation : Z) s : option driver :=
  let cur_cluster := cpu_to_cluster pl s cpu in
  let actual_cluster := physical_cluster s cpu in
  let old := bL_cpufreq_get_rate s cpu in
  table ← table_at (freq_table s cur_cluster);
  match cpufreq_frequency_table_target (policies s cpu) table target_freq relation with
  | inl _ => None
  | inr freq_tab_idx =>
      new ← table !! Z.to_nat freq_tab_idx;
      if old =? new then Some s
      else
        let new_cluster := choose_cluster s actual_cluster new in
        let s := s <| freq_log := PreChange cpu old new :: freq_log s |> in
        let s := s <| old_freq := <[cpu := old]> (old_freq s) |> in
        Some (set_pc cpu (RStart actual_cluster new_cluster new) s)
  end.

(** * Tables and clocks *)

Definition get_table_count (table : cpufreq_frequency_table) : Z := Z.of_nat (length table).

Definition get_table_min (table : cpufreq_frequency_table) : Z :=
  foldl (fun min_freq f => if f <? min_freq then f else min_freq) (u32 (Z.lnot 0)) table.

Definition get_table_max (table : cpufreq_frequency_table) : Z :=
  foldl (fun max_freq f => if max_freq <? f then f else max_freq) 0 table.

(** The entries of the merged table: the clusters in reverse order. *)
Definition merged_table (big little : cpufreq_frequency_table) : cpufreq_frequency_table :=
  (VIRT_FREQ A7_CLUSTER <$> little) ++ (VIRT_FREQ A15_CLUSTER <$> big).

Definition merge_cluster_tables pl s : option (Z * driver) :=
  big ← table_at (freq_table s A15_CLUSTER);
  little ← table_at (freq_table s A7_CLUSTER);
  if negb (kzalloc_ok pl) then Some (- ENOMEM, s)
  else Some (0, s <| freq_table := <[MAX_CLUSTERS := TableAt (merged_table big little)]> (freq_table s) |>).

Definition add_usage (cluster d : Z) s : driver :=
  s <| cluster_usage := <[cluster := cluster_usage s cluster + d]> (cluster_usage s) |>.

Definition _put_cluster_clk_and_freq_table pl (id : Z) s : driver :=
  let cluster := cpu_to_cluster pl s id in
  let s := add_usage cluster (-1) s in
  if cluster_usage s cluster =? 0
  then s <| clk := <[cluster := false]> (clk s) |>
         <| freq_table := <[cluster := NullTable]> (freq_table s) |>
  else s.

(** The loop over the devices of the clusters, which stops at a missing one. *)
Fixpoint put_all pl (ids : list Z) s : bool * driver :=
  match ids with
  | [] => (true, s)
  | i :: ids => if negb (cpu_device pl i) then (false, s)
                else put_all pl ids (_put_cluster_clk_and_freq_table pl i s)
  end.

Definition put_cluster_clk_and_freq_table pl (id : Z) s : driver :=
  let cluster := cpu_to_cluster pl s id in
  if cluster <? MAX_CLUSTERS then _put_cluster_clk_and_freq_table pl id s
  else
    let s := add_usage MAX_CLUSTERS (-1) s in
    if nonzero (cluster_usage s MAX_CLUSTERS) then s
    else
      let '(all, s) := put_all pl [0; 1] s in
      if all then s <| freq_table := <[MAX_CLUSTERS := FreedTable]> (freq_table s) |> else s.

Definition _get_cluster_clk_and_freq_table pl (id : Z) s : Z * driver :=
  let cluster := cpu_to_cluster pl s id in
  let s := add_usage cluster 1 s in
  if negb (cluster_usage s cluster =? 1) then (0, s)
  else
    let ret := init_opp_table pl id in
    if nonzero ret then (ret, add_usage cluster (-1) s)
    else match opp_init_cpufreq_table pl id with
    | inl ret => (ret, add_usage cluster (-1) s)
    | inr table =>
        let s := s <| freq_table := <[cluster := TableAt table]> (freq_table s) |> in
        match clk_get_sys pl cluster with
        | None => (0, s <| clk := <[cluster := true]> (clk s) |>)
        | Some ret =>
            let s := s <| freq_table := <[cluster := NullTable]> (freq_table s) |> in
            (ret, add_usage cluster (-1) s)
        end
    end.

(** [put_clusters:], which gives back the clusters [ids] taken so far, last first. *)
Fixpoint put_clusters pl (ids : list Z) (ret : Z) s : Z * driver :=
  match ids with
  | [] => (ret, add_usage MAX_CLUSTERS (-1) s)
  | i :: ids => if negb (cpu_device pl i) then (- ENODEV, s)
                else put_clusters pl ids ret (_put_cluster_clk_and_freq_table pl i s)
  end.

(** The loop of [get_cluster_clk_and_freq_table] over the CPUs [ids], [taken] being those
    done: an error with the state, or the state to go on with. *)
Fixpoint get_clusters pl (ids taken : list Z) s : (Z * driver) + driver :=
  match ids with
  | [] => inr s
  | i :: ids =>
      if negb (cpu_device pl i) then inl (- ENODEV, s)
      else
        let '(ret, s) := _get_cluster_clk_and_freq_table pl i s in
        if nonzero ret then inl (put_clusters pl taken ret s)
        else get_clusters pl ids (i :: taken) s
  end.

Definition get_cluster_clk_and_freq_table pl (id : Z) s : option (Z * driver) :=
  let cluster := cpu_to_cluster pl s id in
  if cluster <? MAX_CLUSTERS then Some (_get_cluster_clk_and_freq_table pl id s)
  else
    let s := add_usage MAX_CLUSTERS 1 s in
    if negb (cluster_usage s MAX_CLUSTERS =? 1) then Some (0, s)
    else match get_clusters pl [0; 1] [] s with
    | inl r => Some r
    | inr s =>
        '(ret, s) ← merge_cluster_tables pl s;
        if nonzero ret then Some (put_clusters pl [1; 0] ret s)
        else
          big ← table_at (freq_table s A15_CLUSTER);
          little ← table_at (freq_table s A7_CLUSTER);
          Some (0, s <| clk_big_min := get_table_min big |>
                     <| clk_little_max := VIRT_FREQ 1 (get_table_max little) |>)
    end.

(** * Initialisation *)

Definition set_policy (cpu : Z) (p : policy) s : driver := s <| policies := <[cpu := p]> (policies s) |>.

Definition bL_cpufreq_init pl (cpu : Z) s : option (Z * driver) :=
  let cur_cluster := cpu_to_cluster pl s cpu in
  if negb (cpu_device pl cpu) then Some (- ENODEV, s)
  else
    '(ret, s) ← get_cluster_clk_and_freq_table pl cpu s;
    if nonzero ret then Some (ret, s)
    else
      table ← table_at (freq_table s cur_cluster);
      let '(ret, p) := cpufreq_frequency_table_cpuinfo (policies s cpu) table in
      let s := set_policy cpu p s in
      if nonzero ret then Some (ret, put_cluster_clk_and_freq_table pl cpu s)
      else
        let s :=
          if cur_cluster <? MAX_CLUSTERS then
            let s := set_policy cpu (policies s cpu <| pol_cpus := core_cpumask pl cpu |>) s in
            foldl (fun s j => s <| physical_cluster := <[j := cur_cluster]> (physical_cluster s) |>) s
                  (cpus_of (pol_cpus (policies s cpu)))
          else s <| physical_cluster := <[cpu := A15_CLUSTER]> (physical_cluster s) |> in
        let latency := match get_transition_latency pl with Some f => f cpu | None => CPUFREQ_ETERNAL end in
        let s := set_policy cpu (policies s cpu <| transition_latency := latency |>) s in
        let s := set_policy cpu (policies s cpu <| pol_cur := clk_get_cpu_rate s cpu |>) s in
        let s := if bL_switching_enabled s
                 then s <| cpu_last_req_freq := <[cpu := pol_cur (policies s cpu)]> (cpu_last_req_freq s) |>
                 else s in
        Some (0, s).

(** [bL_cpufreq_switcher_notifier]: whether it returns [NOTIFY_OK]. *)
Definition bL_cpufreq_switcher_notifier pl (action : Z) s : bool * driver :=
  if (action =? BL_NOTIFY_PRE_ENABLE) || (action =? BL_NOTIFY_PRE_DISABLE)
  then (true, s <| driver_registered := false |>)
  else if action =? BL_NOTIFY_POST_ENABLE
  then (true, s <| bL_switching_enabled := true |> <| driver_registered := cpufreq_register pl =? 0 |>)
  else if action =? BL_NOTIFY_POST_DISABLE
  then (true, s <| bL_switching_enabled := false |> <| driver_registered := cpufreq_register pl =? 0 |>)
  else (false, s).

(** [bL_cpufreq_register], for ops with a name and an [init_opp_table] or not. *)
Definition bL_cpufreq_register pl (ops : option Z) (complete : bool) s : Z * driver :=
  match arm_bL_ops s, ops with
  | Some _, _ => (- EBUSY, s)
  | None, None => (- ENODEV, s)
  | None, Some o =>
      if negb complete then (- ENODEV, s)
      else
        let s := s <| arm_bL_ops := Some o |> in
        let s := s <| bL_switching_enabled := bL_switcher_active (sw s) |> in
        let s := s <| cluster_lock := fun _ => None |> in
        let ret := cpufreq_register pl in
        if nonzero ret then (ret, s <| arm_bL_ops := None |>)
        else
          let s := s <| driver_registered := true |> in
          let ret := register_notifier pl in
          if nonzero ret then (ret, s <| driver_registered := false |> <| arm_bL_ops := None |>)
          else (0, s <| notifier_registered := true |>)
  end.

Definition bL_cpufreq_unregister pl (ops : option Z) s : option driver :=
  if negb (bool_decide (arm_bL_ops s = ops)) then Some s
  else
    let s := s <| notifier_registered := false |> <| driver_registered := false |> in
    if bL_switching_enabled s then
      if negb (cpu_device pl 0) then None
      else Some (put_cluster_clk_and_freq_table pl 0 s <| arm_bL_ops := None |>)
    else if negb (cpu_device pl 0) then Some s
    else
      let s := put_cluster_clk_and_freq_table pl 0 s in
      if negb (cpu_device pl 1) then Some s
      else Some (put_cluster_clk_and_freq_table pl 1 s <| arm_bL_ops := None |>).

(** * Events *)

(** What happens while the driver is registered and the switcher on: governors ask for
    frequencies, users set limits, calls of [bL_cpufreq_set_rate] go on, and the switcher
    threads run. *)
Inductive freq_ev :=
| FTarget (pl : platform) (cpu target_freq relation : Z)
| FLimits (pl : platform) (cpu min max : Z)
| FRate (pl : platform) (cpu : Z)
| FThread (e : env) (cpu : Z).

(** Setting a policy's limits, which the cpufreq core first has verified. *)
Definition set_limits pl (cpu min max : Z) s : option driver :=
  '(_, p) ← bL_cpufreq_verify_policy pl cpu (policies s cpu <| pol_min := min |> <| pol_max := max |>) s;
  Some (set_policy cpu p s).

(** Calls for one policy exclude each other. *)
Definition freq_step (ev : freq_ev) s : option driver :=
  match ev with
  | FTarget pl cpu target_freq relation =>
      match rate_state s cpu with
      | RIdle => bL_cpufreq_set_target pl cpu target_freq relation s
      | _ => Some s
      end
  | FLimits pl cpu min max =>
      match rate_state s cpu with
      | RIdle => set_limits pl cpu min max s
      | _ => Some s
      end
  | FRate pl cpu => Some (bL_cpufreq_set_rate_step pl cpu s)
  | FThread e cpu => w ← bL_switcher_thread_step e cpu (sw s); Some (s <| sw := w |>)
  end.

Fixpoint freq_run (l : list freq_ev) s : option driver :=
  match l with
  | [] => Some s
  | ev :: l => s ← freq_step ev s; freq_run l s
  end.

End driver_ops.
