(* ===== verification/CpufreqInv.v ===== *)
(** The cpufreq driver of [CpufreqBL] with the switcher on and its tables loaded: however the
    calls for different CPUs and the switcher threads interleave, between any two accesses to
    what they share, nothing faults and calls end; if clocks can be set, they follow the
    requests; and if the logical CPUs start on A15s and power-ups succeed, each CPU is moved to
    the cluster its frequency needs.  Also, what goes wrong: a clock set while a request is only half
    written, a failing clock, CPUs that start on A7s, and registering or unregistering at the wrong time. *)

From S2P Require Import Prelude BLSwitcher FreqTable CpufreqBL.

Section driver_inv.
Context `{Config}.
Implicit Types (s : driver) (pl : platform) (w : bls).

(** * Clocks follow requests *)

(** The rate a cluster should have, in kHz. *)
Definition want s (c : Z) : Z := ACTUAL_FREQ c (find_cluster_maxfreq s c).

(** Whether a call in progress is going to set the clock of the cluster its CPU leaves,
    has taken the lock of the cluster it enters, and whether it holds a lock. *)
Definition leaving (pc : rate_pc) (c : Z) : Prop :=
  match pc with
  | RFreq o n _ _ | RScan o n _ _ _ | RSet o n _ _ _ | RSwitch o n _ => o = c /\ n <> c
  | ROld o _ | ROldScan o _ _ | ROldSet o _ _ => o = c
  | _ => False
  end.
Definition entering (pc : rate_pc) (c : Z) : Prop :=
  match pc with RFreq _ n _ _ | RScan _ n _ _ _ | RSet _ n _ _ _ | RUndo _ n _ _ => n = c | _ => False end.
Definition holds (pc : rate_pc) (c : Z) : Prop :=
  entering pc c \/ match pc with ROldScan o _ _ | ROldSet o _ _ => o = c | _ => False end.

(** A computed rate is the one wanted, unless yet another CPU is about to correct it. *)
Definition fresh s (i c nr : Z) : Prop := nr = want s c \/ exists b, b <> i /\ leaving (rate_state s b) c.

(** What a scan is going to find, if nobody interferes from now on. *)
Definition finish s (c : Z) (sc : scan) : Z :=
  let rest := foldl (fun m j => max_step s c m j (cpu_last_req_freq s j)) in
  match todo sc, seen sc with
  | j :: l, Some f => rest (max_step s c (max_freq sc) j f) l
  | l, _ => rest (max_freq sc) l
  end.

(** What is known of a call for CPU [i]; no clock failed. *)
Definition pc_fresh s (i : Z) : Prop :=
  match rate_state s i with
  | RStart o _ _ | RFreq o _ _ _ => physical_cluster s i = o
  | RScan _ n _ _ sc => fresh s i n (ACTUAL_FREQ n (finish s n sc))
  | RSet _ n _ _ nr => fresh s i n nr
  | ROldScan o _ sc => fresh s i o (ACTUAL_FREQ o (finish s o sc))
  | ROldSet o _ nr => fresh s i o nr
  | RUndo _ _ _ _ => False
  | _ => True
  end.

Record rate_inv s : Prop := {
  ri_lock : forall c i, cluster_lock s c = Some i <-> holds (rate_state s i) c;
  ri_pc : forall i, pc_fresh s i;
  ri_clk : forall c, clk_rate s c = u32 (want s c * 1000) \/ want s c = 0
                     \/ exists b, leaving (rate_state s b) c \/ entering (rate_state s b) c;
}.

(** The requests for cluster [c] are the same. *)
Definition same_requests s s' (c : Z) : Prop :=
  forall j, (physical_cluster s' j = c <-> physical_cluster s j = c)
    /\ (physical_cluster s j = c -> cpu_last_req_freq s' j = cpu_last_req_freq s j).

Lemma max_step_ext s s' c m j f f' :
  same_requests s s' c -> (physical_cluster s j = c -> f' = f) -> max_step s' c m j f' = max_step s c m j f.
Proof.
  intros Hs Hf. unfold max_step. destruct (Hs j) as [Hp _].
  destruct (Z.eqb_spec c (physical_cluster s j)) as [E|E], (Z.eqb_spec c (physical_cluster s' j)) as [E'|E'];
    simpl; rewrite ?Hf by done; auto; exfalso; [apply E'|apply E]; symmetry; by apply Hp.
Qed.

Lemma fold_max_ext s s' c l m :
  same_requests s s' c ->
  foldl (fun m j => max_step s' c m j (cpu_last_req_freq s' j)) m l
  = foldl (fun m j => max_step s c m j (cpu_last_req_freq s j)) m l.
Proof.
  intros Hs. revert m. induction l as [|j l IH]; intros m; [done|]. cbn [foldl].
  rewrite (max_step_ext s s' c m j (cpu_last_req_freq s j)); [apply IH|done|apply Hs].
Qed.

Lemma find_max_ext s s' c :
  cpu_online_mask (sw s') = cpu_online_mask (sw s) -> same_requests s s' c ->
  find_cluster_maxfreq s' c = find_cluster_maxfreq s c.
Proof. intros Ho Hs. unfold find_cluster_maxfreq. rewrite Ho. by apply fold_max_ext. Qed.

Lemma finish_ext s s' c sc : same_requests s s' c -> finish s' c sc = finish s c sc.
Proof.
  intros Hs. unfold finish. cbv zeta. destruct (todo sc) as [|j l], (seen sc); try by apply fold_max_ext.
  rewrite (fold_max_ext s s' c l) by done. f_equal. by apply max_step_ext.
Qed.

(** Left alone, the loop computes the maximum, and every step of it is on the way there. *)
Lemma finish_start s c : finish s c (scan_start s) = find_cluster_maxfreq s c.
Proof. unfold finish, scan_start, find_cluster_maxfreq. simpl. by destruct (cpus_of _). Qed.
Lemma finish_step s c sc sc' : scan_step s c sc = Some sc' -> finish s c sc' = finish s c sc.
Proof.
  unfold scan_step, finish. destruct (todo sc) as [|j l], (seen sc) as [f|]; [done..| |]; intros [= <-]; [|done].
  simpl. by destruct l.
Qed.
Lemma finish_end s c sc : scan_step s c sc = None -> finish s c sc = max_freq sc.
Proof. unfold scan_step, finish. by destruct (todo sc), (seen sc). Qed.

Lemma pc_set i pc s j : rate_state (set_pc i pc s) j = if decide (i = j) then pc else rate_state s j.
Proof. unfold set_pc. simpl. case_decide; subst; [apply fn_lookup_insert|by apply fn_lookup_insert_ne]. Qed.

Lemma lock_set c o s d : cluster_lock (set_lock c o s) d = if decide (c = d) then o else cluster_lock s d.
Proof. unfold set_lock. simpl. case_decide; subst; [apply fn_lookup_insert|by apply fn_lookup_insert_ne]. Qed.

Lemma end_pc i ret f s j : rate_state (set_target_end i ret f s) j = if decide (i = j) then RIdle else rate_state s j.
Proof. unfold set_target_end. case_match; simpl; case_decide; subst; by rewrite ?fn_lookup_insert, ?fn_lookup_insert_ne. Qed.

(** The fields the invariant is about, apart from where the calls are. *)
Definition clock_view s := (cluster_lock s, clk_rate s, physical_cluster s, cpu_last_req_freq s, cpu_online_mask (sw s)).

Lemma end_view i ret f s : clock_view (set_target_end i ret f s) = clock_view s.
Proof. unfold set_target_end. by case_match. Qed.

Lemma same_fields s s' c :
  physical_cluster s' = physical_cluster s -> cpu_last_req_freq s' = cpu_last_req_freq s -> same_requests s s' c.
Proof. intros Hp Hr j. by rewrite Hp, Hr. Qed.

Lemma want_ext s s' c :
  physical_cluster s' = physical_cluster s -> cpu_last_req_freq s' = cpu_last_req_freq s ->
  cpu_online_mask (sw s') = cpu_online_mask (sw s) -> want s' c = want s c.
Proof. intros Hp Hr Ho. unfold want. f_equal. by apply find_max_ext; [|apply same_fields]. Qed.

Definition others_same (i : Z) s s' : Prop := forall j, j <> i -> rate_state s' j = rate_state s j.
Definition locks_ok s : Prop := forall c i, cluster_lock s c = Some i <-> holds (rate_state s i) c.

Lemma locks_keep s s' i :
  locks_ok s -> others_same i s s' -> cluster_lock s' = cluster_lock s ->
  (forall c, holds (rate_state s' i) c <-> holds (rate_state s i) c) -> locks_ok s'.
Proof.
  intros Hl Ho El Hh c j. rewrite El, (Hl c j). destruct (decide (j = i)) as [->|Hj]; [by rewrite Hh|by rewrite Ho].
Qed.

Lemma locks_acquire s s' i c :
  locks_ok s -> others_same i s s' -> cluster_lock s c = None ->
  (forall d, cluster_lock s' d = if decide (c = d) then Some i else cluster_lock s d) ->
  (forall d, ~ holds (rate_state s i) d) -> (forall d, holds (rate_state s' i) d <-> d = c) -> locks_ok s'.
Proof.
  intros Hl Ho Hn El Hno Hh d j. rewrite El. destruct (decide (j = i)) as [->|Hj].
  - rewrite Hh. case_decide as Hc; [naive_solver|]. rewrite (Hl d i). split; [by intros ?%Hno|intros ->; done].
  - rewrite Ho by done. case_decide as Hc; [|apply Hl]. subst d. split; [congruence|].
    intros ?%Hl. congruence.
Qed.

Lemma locks_release s s' i c :
  locks_ok s -> others_same i s s' -> holds (rate_state s i) c ->
  (forall d, cluster_lock s' d = if decide (c = d) then None else cluster_lock s d) ->
  (forall d, holds (rate_state s i) d -> d = c) -> (forall d, ~ holds (rate_state s' i) d) -> locks_ok s'.
Proof.
  intros Hl Ho Hc El Hone Hno d j. rewrite El. apply Hl in Hc. destruct (decide (j = i)) as [->|Hj].
  - case_decide as Hd; [naive_solver|]. rewrite (Hl d i). split; [intros ?%Hone; congruence|by intros ?%Hno].
  - rewrite Ho by done. case_decide as Hd; [|apply Hl]. subst d. split; [done|]. intros ?%Hl. congruence.
Qed.

(** What is known of the calls for other CPUs stays known. *)
Lemma fresh_others s s' i j :
  others_same i s s' -> j <> i -> physical_cluster s' j = physical_cluster s j -> pc_fresh s j ->
  (forall c, holds (rate_state s j) c ->
     (same_requests s s' c /\ want s' c = want s c
      /\ (leaving (rate_state s i) c -> leaving (rate_state s' i) c))
     \/ leaving (rate_state s' i) c) ->
  pc_fresh s' j.
Proof.
  intros Ho Hj Hp Hf Hc.
  assert (Hfr : forall c nr nr', holds (rate_state s j) c -> (same_requests s s' c -> nr' = nr) ->
    fresh s j c nr -> fresh s' j c nr').
  { intros c nr nr' Hh Hnr F. destruct (Hc c Hh) as [(Hs & Hw & Hl)|Hl]; [|right; by exists i].
    rewrite (Hnr Hs). destruct F as [->|(b & Hb & Hbl)]; [left; by rewrite Hw|right]. exists b. split; [done|].
    destruct (decide (b = i)) as [->|Hbi]; [auto|by rewrite Ho]. }
  unfold pc_fresh in *. rewrite (Ho j Hj), Hp.
  destruct (rate_state s j) as [|o n r|o n r p|o n r p sc|o n r p nr|o n r ret|o n r|o r|o r sc|o r nr] eqn:Ej; try done.
  all: refine (Hfr _ _ _ _ _ Hf); [unfold holds; simpl; by auto|].
  all: intros Hs; try done; by rewrite (finish_ext s s').
Qed.

(** A step of CPU [i] that changes no request. *)
Lemma rate_inv_quiet s s' i :
  rate_inv s -> others_same i s s' -> locks_ok s' ->
  physical_cluster s' = physical_cluster s -> cpu_last_req_freq s' = cpu_last_req_freq s ->
  cpu_online_mask (sw s') = cpu_online_mask (sw s) -> pc_fresh s' i ->
  (forall c, leaving (rate_state s i) c -> leaving (rate_state s' i) c \/ holds (rate_state s i) c) ->
  (forall c, clk_rate s' c = clk_rate s c
             /\ (leaving (rate_state s i) c \/ entering (rate_state s i) c ->
                 leaving (rate_state s' i) c \/ entering (rate_state s' i) c)
             \/ clk_rate s' c = u32 (want s c * 1000) \/ want s c = 0
             \/ exists b, leaving (rate_state s' b) c \/ entering (rate_state s' b) c) ->
  rate_inv s'.
Proof.
  intros [Il Ipc Icl] Ho Hl Hp Hr Hon Hi Hlv Hc.
  assert (Hw : forall c, want s' c = want s c) by (intros c; by apply want_ext). split; [done|..].
  - intros j. destruct (decide (j = i)) as [->|Hj]; [done|].
    apply (fresh_others s s' i j); [done|done|by rewrite Hp|apply Ipc|]. intros c Hh. left.
    split; [by apply same_fields|]. split; [done|]. intros Hx. destruct (Hlv c Hx) as [?|Hx']; [done|].
    apply Il in Hx', Hh. congruence.
  - intros c. rewrite Hw. destruct (Hc c) as [[-> Hkeep]|[?|[?|?]]]; [|tauto..].
    destruct (Icl c) as [?|[?|(b & Hb)]]; [tauto..|]. right. right.
    destruct (decide (b = i)) as [->|Hbi]; [exists i; by apply Hkeep|exists b; by rewrite Ho].
Qed.

(** CPU [i] writes one half of its request, on its way from [o] to [n], with the lock of [n]. *)
Lemma rate_inv_write s s' i o n :
  rate_inv s -> others_same i s s' -> locks_ok s' ->
  cluster_lock s n = None \/ cluster_lock s n = Some i ->
  physical_cluster s i = o -> physical_cluster s' i = o \/ physical_cluster s' i = n ->
  (forall j, j <> i -> physical_cluster s' j = physical_cluster s j
                       /\ cpu_last_req_freq s' j = cpu_last_req_freq s j) ->
  clk_rate s' = clk_rate s -> cpu_online_mask (sw s') = cpu_online_mask (sw s) ->
  entering (rate_state s' i) n -> (o <> n -> leaving (rate_state s' i) o) ->
  (forall c, leaving (rate_state s i) c \/ entering (rate_state s i) c -> c = o \/ c = n) ->
  pc_fresh s' i -> rate_inv s'.
Proof.
  intros [Il Ipc Icl] Ho Hl Hn Hpi Hpi' Hj Hc Hon He Hlv Hold Hi.
  assert (Hs : forall c, c <> o -> c <> n -> same_requests s s' c).
  { intros c Hco Hcn j. destruct (decide (j = i)) as [->|Hji]; [|destruct (Hj j Hji) as [-> ->]; done].
    split; [|congruence]. split; [|congruence]. intros <-. by destruct Hpi'. }
  assert (Hw : forall c, c <> o -> c <> n -> want s' c = want s c).
  { intros c Hco Hcn. unfold want. f_equal. apply find_max_ext; auto. }
  split; [done|..].
  - intros j. destruct (decide (j = i)) as [->|Hji]; [done|].
    apply (fresh_others s s' i j); [done|done|by apply Hj|apply Ipc|]. intros c Hh.
    assert (Hcn : c <> n).
    { intros ->. apply Il in Hh. destruct Hn as [Hn|Hn]; rewrite Hn in Hh; simplify_eq. }
    destruct (decide (c = o)) as [->|Hco]; [right; auto|left]. split; [auto|]. split; [auto|].
    intros Hx. destruct (Hold c); [by left|done|done].
  - intros c. rewrite Hc. destruct (decide (c = n)) as [->|Hcn]; [right; right; exists i; by right|].
    destruct (decide (c = o)) as [->|Hco]; [right; right; exists i; left; auto|].
    rewrite Hw by done. destruct (Icl c) as [?|[?|(b & Hb)]]; [tauto..|]. right. right. exists b.
    destruct (decide (b = i)) as [->|Hbi]; [by destruct (Hold c Hb)|by rewrite Ho].
Qed.

Definition clocks_ok pl : Prop := forall c r, clk_set_rate pl c r = 0.

Lemma others_set_pc i pc s : others_same i s (set_pc i pc s).
Proof. intros j Hj. rewrite pc_set. by rewrite decide_False by congruence. Qed.

Lemma others_end i ret f s s0 : rate_state s0 = rate_state s -> others_same i s0 (set_target_end i ret f s).
Proof. intros E j Hj. rewrite end_pc, E. by rewrite decide_False by congruence. Qed.

Lemma request_online cpu c comp ck w : cpu_online_mask (bL_switch_request_cb cpu c comp ck w).2 = cpu_online_mask w.
Proof. unfold bL_switch_request_cb, request_post. by repeat case_match. Qed.

Lemma end_want i ret f s c : want (set_target_end i ret f s) c = want s c.
Proof. pose proof (end_view i ret f s) as E. unfold clock_view in E. injection E as _ _ E1 E2 E3. by apply want_ext. Qed.

Lemma end_fields i ret f s :
  cluster_lock (set_target_end i ret f s) = cluster_lock s /\ clk_rate (set_target_end i ret f s) = clk_rate s
  /\ physical_cluster (set_target_end i ret f s) = physical_cluster s
  /\ cpu_last_req_freq (set_target_end i ret f s) = cpu_last_req_freq s
  /\ cpu_online_mask (sw (set_target_end i ret f s)) = cpu_online_mask (sw s).
Proof. pose proof (end_view i ret f s) as E. unfold clock_view in E. by injection E as -> -> -> -> ->. Qed.

(** The clock of the cluster entered is set. *)
Lemma rate_inv_set s i o n r p nr s1 :
  rate_inv s -> rate_state s i = RSet o n r p nr ->
  s1 = set_lock n None (s <| clk_rate := <[n := u32 (nr * 1000)]> (clk_rate s) |>) ->
  rate_inv (if negb (o =? n) then set_pc i (RSwitch o n r) s1 else set_target_end i 0 r s1).
Proof.
  intros Hi Ei Es1. pose proof (ri_pc _ Hi i) as Hfr. unfold pc_fresh in Hfr. rewrite Ei in Hfr.
  assert (Hh : forall d, holds (rate_state s i) d <-> d = n) by (intros d; rewrite Ei; unfold holds; simpl; naive_solver).
  assert (Ew : forall c, want s1 c = want s c) by (intros c; subst s1; by apply want_ext).
  assert (El : forall d, cluster_lock s1 d = if decide (n = d) then None else cluster_lock s d).
  { intros d. subst s1. by rewrite lock_set. }
  assert (Ec : forall d, clk_rate s1 d = if decide (n = d) then u32 (nr * 1000) else clk_rate s d).
  { intros d. subst s1. simpl. case_decide; subst; [apply fn_lookup_insert|by apply fn_lookup_insert_ne]. }
  assert (Er : rate_state s1 = rate_state s) by (by subst s1).
  assert (Ep : physical_cluster s1 = physical_cluster s /\ cpu_last_req_freq s1 = cpu_last_req_freq s
    /\ cpu_online_mask (sw s1) = cpu_online_mask (sw s)) by (by subst s1).
  destruct Ep as (Ep & Eq & Eo). clear Es1.
  set (s' := if negb (o =? n) then _ else _).
  assert (Hs' : others_same i s s' /\ cluster_lock s' = cluster_lock s1
    /\ clk_rate s' = clk_rate s1 /\ physical_cluster s' = physical_cluster s
    /\ cpu_last_req_freq s' = cpu_last_req_freq s /\ cpu_online_mask (sw s') = cpu_online_mask (sw s)
    /\ rate_state s' i = if negb (o =? n) then RSwitch o n r else RIdle).
  { unfold s'. destruct (negb (o =? n)).
    - split_and!; try done; [|by rewrite pc_set, decide_True].
      intros j Hj. rewrite (others_set_pc i _ s1 j Hj). by rewrite Er.
    - destruct (end_fields i 0 r s1) as (-> & -> & -> & -> & ->).
      split; [by apply others_end|]. split_and!; try done. by rewrite end_pc, decide_True. }
  clearbody s'. destruct Hs' as (Ho & Hl' & Hc' & Hp' & Hr' & Ho' & Hpc).
  assert (Hlv : forall c, leaving (rate_state s i) c -> leaving (rate_state s' i) c).
  { intros c. rewrite Hpc, Ei. simpl. intros [-> Hn]. by rewrite (proj2 (Z.eqb_neq _ _)) by congruence. }
  apply (rate_inv_quiet s s' i); try done.
  - apply (locks_release s s' i n); [exact (ri_lock _ Hi)|done|by apply Hh|intros d; rewrite Hl'; apply El|intros d; apply Hh|].
    intros d. rewrite Hpc. unfold holds. case_match; simpl; tauto.
  - unfold pc_fresh. rewrite Hpc. by case_match.
  - intros c Hc. left. auto.
  - intros c. rewrite Hc', Ec. case_decide as Hnc.
    + subst c. right. destruct Hfr as [->|(b & Hb & Hbl)]; [by left|]. right. right. exists b. left. by rewrite Ho.
    + left. split; [done|]. intros [Hl|He]; [left; auto|]. rewrite Ei in He. by simpl in He.
Qed.

(** The clock of the cluster left is set. *)
Lemma rate_inv_old_set s i o r nr s1 :
  rate_inv s -> rate_state s i = ROldSet o r nr ->
  (forall d, clk_rate s1 d = if decide (o = d) then if nonzero nr then u32 (nr * 1000) else clk_rate s d else clk_rate s d) ->
  rate_state s1 = rate_state s -> physical_cluster s1 = physical_cluster s ->
  cpu_last_req_freq s1 = cpu_last_req_freq s -> cpu_online_mask (sw s1) = cpu_online_mask (sw s) ->
  cluster_lock s1 = cluster_lock s ->
  rate_inv (set_target_end i 0 r (set_lock o None s1)).
Proof.
  intros Hi Ei Ec Er Ep Eq Eo El. pose proof (ri_pc _ Hi i) as Hfr. unfold pc_fresh in Hfr. rewrite Ei in Hfr.
  assert (Hh : forall d, holds (rate_state s i) d <-> d = o) by (intros d; rewrite Ei; unfold holds; simpl; naive_solver).
  set (s' := set_target_end _ _ _ _).
  assert (Ho : others_same i s s') by (by apply others_end).
  assert (Hpc : rate_state s' i = RIdle) by (unfold s'; by rewrite end_pc, decide_True).
  destruct (end_fields i 0 r (set_lock o None s1)) as (Hl & Hc & Hp & Hr & Hon). fold s' in Hl, Hc, Hp, Hr, Hon.
  clearbody s'. apply (rate_inv_quiet s s' i); try done; rewrite ?Hpc, ?Hp, ?Hr, ?Hon; try done.
  - apply (locks_release s s' i o); [exact (ri_lock _ Hi)|done|by apply Hh| |intros d; apply Hh|].
    + intros d. rewrite Hl, lock_set. by rewrite El.
    + intros d. rewrite Hpc. unfold holds. simpl. tauto.
  - unfold pc_fresh. by rewrite Hpc.
  - intros c Hc'. right. apply Hh. rewrite Ei in Hc'. by simpl in Hc'.
  - intros c. rewrite Hc. change (clk_rate (set_lock o None s1)) with (clk_rate s1). rewrite Ec. case_decide as Hoc.
    + subst c. right. destruct Hfr as [->|(b & Hb & Hbl)].
      * unfold nonzero. destruct (Z.eqb_spec (want s o) 0) as [E|]; simpl; tauto.
      * right. right. exists b. left. by rewrite Ho.
    + left. split; [done|]. rewrite Ei. simpl. naive_solver.
Qed.

(** A step of CPU [i] that only moves on in the call. *)
Lemma rate_inv_pc s i pc :
  rate_inv s -> (forall c, holds pc c <-> holds (rate_state s i) c) ->
  (forall c, leaving (rate_state s i) c -> leaving pc c) ->
  (forall c, entering (rate_state s i) c -> entering pc c) ->
  pc_fresh (set_pc i pc s) i -> rate_inv (set_pc i pc s).
Proof.
  intros Hi Hh Hl He Hf. assert (Ei' : rate_state (set_pc i pc s) i = pc) by (by rewrite pc_set, decide_True).
  apply (rate_inv_quiet s _ i); try done; [apply others_set_pc|..]; rewrite ?Ei'.
  - apply (locks_keep s _ i); [exact (ri_lock _ Hi)|apply others_set_pc|done|]. intros c. by rewrite Ei'.
  - auto.
  - intros c. left. split; [done|]. naive_solver.
Qed.

Lemma fresh_set_pc s i pc c nr : fresh s i c nr -> fresh (set_pc i pc s) i c nr.
Proof.
  intros [->|(b & Hb & Hl)]; [by left|right]. exists b. split; [done|]. by rewrite (others_set_pc i pc s b Hb).
Qed.

(** One step of a loop over the requests. *)
Lemma scan_fresh s i pc c sc :
  fresh s i c (ACTUAL_FREQ c (finish s c sc)) ->
  match scan_step s c sc with
  | Some sc' => fresh (set_pc i pc s) i c (ACTUAL_FREQ c (finish (set_pc i pc s) c sc'))
  | None => fresh (set_pc i pc s) i c (ACTUAL_FREQ c (max_freq sc))
  end.
Proof.
  intros Hf. destruct (scan_step s c sc) as [sc'|] eqn:E; apply fresh_set_pc.
  - rewrite (finish_ext s) by (by apply same_fields). by rewrite (finish_step _ _ _ _ E).
  - by rewrite <- (finish_end _ _ _ E).
Qed.

Lemma rate_inv_step pl i s :
  rate_inv s -> bL_switching_enabled s = true -> clocks_ok pl -> rate_inv (bL_cpufreq_set_rate_step pl i s).
Proof.
  intros Hi Hon Hc. pose proof (ri_pc _ Hi i) as Hf. unfold pc_fresh in Hf. unfold bL_cpufreq_set_rate_step. rewrite Hon.
  destruct (rate_state s i) as [|o n r|o n r p|o n r p sc|o n r p nr|o n r ret|o n r|o r|o r sc|o r nr] eqn:Ei; [done|..].
  - destruct (cluster_lock s n) eqn:El; [done|]. set (p := cpu_last_req_freq _ i). set (s' := set_pc _ _ _).
    assert (Ho : others_same i s s') by (intros j Hj; unfold s'; rewrite pc_set; by rewrite decide_False by congruence).
    assert (Ei' : rate_state s' i = RFreq o n r p) by (unfold s'; by rewrite pc_set, decide_True).
    apply (rate_inv_write s s' i o n); try done; rewrite ?Ei', ?Ei; try done; [|by left|by left|..].
    + apply (locks_acquire s s' i n); [exact (ri_lock _ Hi)|done|done|intros d; apply lock_set|..]; intros d;
        rewrite ?Ei, ?Ei'; unfold holds; simpl; naive_solver.
    + intros j Hj. split; [done|]. simpl. by apply fn_lookup_insert_ne.
    + simpl. naive_solver.
    + unfold pc_fresh. by rewrite Ei'.
  - set (s1 := set_cluster i n s). set (s' := set_pc _ _ _).
    assert (Ho : others_same i s s') by (intros j Hj; unfold s'; rewrite pc_set; by rewrite decide_False by congruence).
    assert (Ei' : rate_state s' i = RScan o n r p (scan_start s1)) by (unfold s'; by rewrite pc_set, decide_True).
    assert (Hn : cluster_lock s n = Some i) by (apply Hi; rewrite Ei; by left).
    apply (rate_inv_write s s' i o n); try done; rewrite ?Ei', ?Ei; try done; [|by right|right; apply fn_lookup_insert|..].
    + apply (locks_keep s s' i); [exact (ri_lock _ Hi)|done|done|]. intros c. rewrite Ei', Ei. unfold holds. simpl. tauto.
    + intros j Hj. split; [|done]. simpl. by apply fn_lookup_insert_ne.
    + simpl. naive_solver.
    + unfold pc_fresh. rewrite Ei'. left. unfold want. f_equal. apply (finish_start s').
  - pose proof (scan_fresh s i) as Hs.
    destruct (scan_step s n sc) as [sc'|] eqn:E; (apply rate_inv_pc; [done|by rewrite Ei..|]); unfold pc_fresh;
      rewrite pc_set, decide_True by done; match goal with |- context [set_pc i ?pc s] => specialize (Hs pc n sc Hf) end;
      by rewrite E in Hs.
  - rewrite Hc. cbn [nonzero Z.eqb negb]. by eapply rate_inv_set.
  - done.
  - set (s' := set_pc _ _ _). assert (Ei' : rate_state s' i = ROld o r) by (unfold s'; by rewrite pc_set, decide_True).
    assert (Ho : others_same i s s') by (intros j Hj; unfold s'; rewrite pc_set; by rewrite decide_False by congruence).
    apply (rate_inv_quiet s s' i); try done; rewrite ?Ei', ?Ei; try done.
    + apply (locks_keep s s' i); [exact (ri_lock _ Hi)|done|done|]. intros c. by rewrite Ei', Ei.
    + apply request_online.
    + unfold pc_fresh. by rewrite Ei'.
    + simpl. naive_solver.
    + intros c. left. split; [done|]. simpl. naive_solver.
  - destruct (cluster_lock s o) eqn:El; [done|]. set (s' := set_pc _ _ _).
    assert (Ei' : rate_state s' i = ROldScan o r (scan_start s)) by (unfold s'; by rewrite pc_set, decide_True).
    assert (Ho : others_same i s s') by (intros j Hj; unfold s'; rewrite pc_set; by rewrite decide_False by congruence).
    apply (rate_inv_quiet s s' i); try done; rewrite ?Ei', ?Ei; try done.
    + apply (locks_acquire s s' i o); [exact (ri_lock _ Hi)|done|done|intros d; apply lock_set|..]; intros d;
        rewrite ?Ei, ?Ei'; unfold holds; simpl; naive_solver.
    + unfold pc_fresh. rewrite Ei'. left. unfold want. f_equal. apply (finish_start s').
    + auto.
    + intros c. left. split; [done|]. auto.
  - pose proof (scan_fresh s i) as Hs.
    destruct (scan_step s o sc) as [sc'|] eqn:E; (apply rate_inv_pc; [done|by rewrite Ei..|]); unfold pc_fresh;
      rewrite pc_set, decide_True by done; match goal with |- context [set_pc i ?pc s] => specialize (Hs pc o sc Hf) end;
      by rewrite E in Hs.
  - rewrite Hc. cbn [Z.eqb]. rewrite andb_true_r. eapply rate_inv_old_set; eauto; try (by case_match).
    intros d. destruct (nonzero nr); simpl; case_decide; subst; rewrite ?fn_lookup_insert, ?fn_lookup_insert_ne by done; done.
Qed.

(** * The virtual table *)

(** Operating points for which the virtual frequencies make sense: representable in Hz,
    even for the A7s, whose fastest is not faster than the slowest of the A15s. *)
Record tables_ok (big little : cpufreq_frequency_table) : Prop := {
  to_big : Forall (fun f => 0 < f <= 4294967) big;
  to_little : Forall (fun f => 0 < f <= 4294967 /\ Z.even f = true) little;
  to_some : big <> [] /\ little <> [];
  to_order : forall b l, b ∈ big -> l ∈ little -> VIRT_FREQ A7_CLUSTER l <= b;
  to_len : (Z.of_nat (length big + length little) < u32 (Z.lnot 0))%Z;
}.

Definition own_table (big little : cpufreq_frequency_table) (c : Z) : list Z := if c =? A7_CLUSTER then little else big.

(** A virtual frequency that is an operating point of cluster [c]. *)
Definition in_own big little (c f : Z) : Prop :=
  (c = A15_CLUSTER \/ c = A7_CLUSTER) /\ exists g, g ∈ own_table big little c /\ f = VIRT_FREQ c g.

Lemma virt_actual g : Z.even g = true -> 0 <= g < 2 ^ 32 -> ACTUAL_FREQ A7_CLUSTER (VIRT_FREQ A7_CLUSTER g) = g.
Proof.
  intros He Hr. unfold ACTUAL_FREQ, VIRT_FREQ. rewrite Z.eqb_refl, shiftl_mul, shiftr_div by lia.
  apply Zeven_bool_iff, Zeven_div2 in He. rewrite Z.pow_1_r, <- Z.div2_div. rewrite u32_id; lia.
Qed.

Section tables.
Context (big little : cpufreq_frequency_table) (Htab : tables_ok big little).

Lemma big_range f : f ∈ big -> 0 < f <= 4294967.
Proof. exact (proj1 (Forall_forall _ _) (to_big _ _ Htab) f). Qed.
Lemma little_range f : f ∈ little -> 0 < f <= 4294967 /\ Z.even f = true.
Proof. exact (proj1 (Forall_forall _ _) (to_little _ _ Htab) f). Qed.

Lemma own_actual c f : in_own big little c f -> ACTUAL_FREQ c f ∈ own_table big little c.
Proof.
  intros [[-> | ->] (g & Hg & ->)]; [done|]. unfold own_table in *. rewrite Z.eqb_refl in *.
  destruct (little_range g Hg). rewrite virt_actual; [done|done|lia].
Qed.

Lemma own_range c f : in_own big little c f -> 0 < f <= 4294967.
Proof.
  intros [[-> | ->] (g & Hg & ->)]; [by apply big_range|].
  unfold own_table in Hg. rewrite Z.eqb_refl in Hg. destruct (little_range g Hg) as [Hr He].
  unfold VIRT_FREQ. rewrite Z.eqb_refl, shiftr_div by lia. apply Zeven_bool_iff, Zeven_div2 in He.
  rewrite Z.pow_1_r, <- Z.div2_div. lia.
Qed.

Lemma own_table_range c f : f ∈ own_table big little c -> 0 < f <= 4294967.
Proof. unfold own_table. case_match; intros Hf; [by apply little_range|by apply big_range]. Qed.

Lemma elem_of_merged f :
  f ∈ merged_table big little <-> in_own big little A7_CLUSTER f \/ in_own big little A15_CLUSTER f.
Proof.
  unfold merged_table, in_own, own_table. rewrite elem_of_app, !list_elem_of_fmap. cbn. naive_solver.
Qed.

Lemma merged_range f : f ∈ merged_table big little -> 0 < f <= 4294967.
Proof. rewrite elem_of_merged. intros [?|?]; by eapply own_range. Qed.

Lemma merged_entries : entries (merged_table big little) = merged_table big little.
Proof.
  apply filter_keeps. intros f Hf%merged_range. unfold valid_entry. apply negb_true_iff, Z.eqb_neq.
  change CPUFREQ_ENTRY_INVALID with (2 ^ 32 - 1). lia.
Qed.

Lemma merged_ok : table_ok (merged_table big little).
Proof.
  split.
  - apply Forall_forall. intros f Hf%merged_range. unfold is_u32. lia.
  - intros Hf%merged_range. change CPUFREQ_TABLE_END with (2 ^ 32 - 2) in Hf. lia.
  - unfold merged_table. rewrite length_app, !length_fmap. pose proof (to_len _ _ Htab). lia.
Qed.

Lemma table_min_spec (l : list Z) m :
  let r := foldl (fun m f => if f <? m then f else m) m l in
  (r = m \/ r ∈ l) /\ r <= m /\ forall f, f ∈ l -> r <= f.
Proof.
  revert m. induction l as [|g l IH]; intros m; cbn [foldl]; cbv zeta.
  { split_and!; [by left|lia|set_solver]. }
  destruct (IH (if g <? m then g else m)) as (A & B & C). set (r := foldl _ _ l) in *. clearbody r.
  rewrite elem_of_cons. destruct (Z.ltb_spec g m); split_and!; try lia; try tauto;
    intros f [->|Hf]%elem_of_cons; auto; lia.
Qed.

Lemma table_max_spec (l : list Z) m :
  let r := foldl (fun m f => if m <? f then f else m) m l in
  (r = m \/ r ∈ l) /\ m <= r /\ forall f, f ∈ l -> f <= r.
Proof.
  revert m. induction l as [|g l IH]; intros m; cbn [foldl]; cbv zeta.
  { split_and!; [by left|lia|set_solver]. }
  destruct (IH (if m <? g then g else m)) as (A & B & C). set (r := foldl _ _ l) in *. clearbody r.
  rewrite elem_of_cons. destruct (Z.ltb_spec m g); split_and!; try lia; try tauto;
    intros f [->|Hf]%elem_of_cons; auto; lia.
Qed.

Lemma some_elem (l : list Z) : l <> [] -> exists f, f ∈ l.
Proof. destruct l as [|f l]; [done|]. intros _. exists f. left. Qed.

Lemma big_min : get_table_min big ∈ big /\ forall f, f ∈ big -> get_table_min big <= f.
Proof.
  destruct (table_min_spec big (u32 (Z.lnot 0))) as (A & B & C). fold (get_table_min big) in *. split; [|done].
  destruct A as [E|?]; [|done]. destruct (to_some _ _ Htab) as [Hn _]. destruct (some_elem big Hn) as [f Hf].
  specialize (C f Hf). pose proof (big_range f Hf). rewrite E in C. change (u32 (Z.lnot 0)) with (2 ^ 32 - 1) in C. lia.
Qed.

Lemma little_max : get_table_max little ∈ little /\ forall f, f ∈ little -> f <= get_table_max little.
Proof.
  destruct (table_max_spec little 0) as (A & B & C). fold (get_table_max little) in *. split; [|done].
  destruct A as [E|?]; [|done]. destruct (to_some _ _ Htab) as [_ Hn]. destruct (some_elem little Hn) as [f Hf].
  specialize (C f Hf). pose proof (little_range f Hf). rewrite E in C. lia.
Qed.

(** The cluster chosen for a frequency of the virtual table has it as an operating
    point. *)
Lemma choose_in_own s a f :
  bL_switching_enabled s = true -> clk_big_min s = get_table_min big ->
  clk_little_max s = VIRT_FREQ A7_CLUSTER (get_table_max little) ->
  f ∈ merged_table big little -> a = A15_CLUSTER \/ a = A7_CLUSTER ->
  in_own big little (choose_cluster s a f) f.
Proof.
  intros Hon Hmin Hmax Hf Ha. unfold choose_cluster. rewrite Hon, Hmin, Hmax.
  destruct big_min as [Hb Hbm], little_max as [Hl Hlm]. pose proof (to_order _ _ Htab _ _ Hb Hl) as Hord.
  assert (Hlv : forall g, g ∈ little -> VIRT_FREQ A7_CLUSTER g <= VIRT_FREQ A7_CLUSTER (get_table_max little)).
  { intros g Hg%Hlm. unfold VIRT_FREQ. rewrite Z.eqb_refl, !shiftr_div by lia. apply Z.div_le_mono; lia. }
  apply elem_of_merged in Hf as [[_ (g & Hg & ->)]|[_ (g & Hg & ->)]]; unfold own_table in Hg; cbn in Hg.
  - specialize (Hlv g Hg). assert (Hi : in_own big little A7_CLUSTER (VIRT_FREQ A7_CLUSTER g)) by (split; [by right|by exists g]).
    destruct Ha as [-> | ->].
    + rewrite Z.eqb_refl. cbn [andb]. destruct (Z.ltb_spec (VIRT_FREQ A7_CLUSTER g) (get_table_min big)); [done|].
      replace (VIRT_FREQ A7_CLUSTER g) with (get_table_min big) by lia. split; [by left|]. by exists (get_table_min big).
    + change (A7_CLUSTER =? A15_CLUSTER) with false. rewrite Z.eqb_refl. cbn [andb]. by rewrite (proj2 (Z.ltb_ge _ _)).
  - change (VIRT_FREQ A15_CLUSTER g) with g. specialize (Hbm g Hg).
    assert (Hi : in_own big little A15_CLUSTER g) by (split; [by left|by exists g]).
    destruct Ha as [-> | ->].
    + rewrite Z.eqb_refl. cbn [andb]. by rewrite (proj2 (Z.ltb_ge _ _)).
    + change (A7_CLUSTER =? A15_CLUSTER) with false. rewrite Z.eqb_refl. cbn [andb].
      destruct (Z.ltb_spec (VIRT_FREQ A7_CLUSTER (get_table_max little)) g); [done|].
      replace g with (VIRT_FREQ A7_CLUSTER (get_table_max little)) by lia. split; [by right|]. by exists (get_table_max little).
Qed.
End tables.

(** * The driver with the switcher on *)

Lemma find_max_spec s c :
  (find_cluster_maxfreq s c = 0
   \/ exists j, j ∈ cpus_of (cpu_online_mask (sw s)) /\ physical_cluster s j = c
        /\ find_cluster_maxfreq s c = cpu_last_req_freq s j)
  /\ 0 <= find_cluster_maxfreq s c
  /\ forall j, j ∈ cpus_of (cpu_online_mask (sw s)) -> physical_cluster s j = c ->
       cpu_last_req_freq s j <= find_cluster_maxfreq s c.
Proof.
  unfold find_cluster_maxfreq. set (f := fun _ _ => _).
  assert (G : forall l m, let r := foldl f m l in
    (r = m \/ exists j, j ∈ l /\ physical_cluster s j = c /\ r = cpu_last_req_freq s j)
    /\ m <= r /\ forall j, j ∈ l -> physical_cluster s j = c -> cpu_last_req_freq s j <= r).
  { induction l as [|j l IH]; intros m; cbn [foldl]; cbv zeta.
    { split_and!; [by left|lia|]. intros j Hj. by apply elem_of_nil in Hj. }
    destruct (IH (f m j)) as (A & B & C). set (r := foldl f (f m j) l) in *. clearbody r. unfold f, max_step in *.
    destruct (Z.eqb_spec c (physical_cluster s j)) as [Ec|Ec]; cbn [andb] in *;
      [destruct (Z.ltb_spec m (cpu_last_req_freq s j))|]; (split; [|split; [lia|]]).
    2,4,6: intros k [->|Hk]%elem_of_cons Hkc; auto; try lia; by destruct Ec.
    all: destruct A as [->|(k & Hk & Hkc & ->)]; [|right; exists k; set_solver]; try by left.
    right. exists j. split; [left|done]. }
  apply (G _ 0).
Qed.

Section on.
Context (big little : cpufreq_frequency_table) (Htab : tables_ok big little).
Abbreviation own := (own_table big little).
Abbreviation in_own := (in_own big little).
Abbreviation virtual := (merged_table big little).

Definition cluster_id (c : Z) : Prop := c = A15_CLUSTER \/ c = A7_CLUSTER.

(** A policy that has been verified. *)
Definition policy_ok (p : policy) : Prop := limits_ok p virtual /\ exists f, f ∈ virtual /\ in_limits p f.

(** Only one half of the request of a CPU has been written. *)
Definition midway (pc : rate_pc) : bool := match pc with RFreq _ _ _ _ | RUndo _ _ _ _ => true | _ => false end.

(** What a call in progress for CPU [i] carries. *)
Definition call_ok s (i : Z) : Prop :=
  match rate_state s i with
  | RIdle => True
  | RStart o n r => physical_cluster s i = o /\ in_own n r
  | RFreq o n r p => physical_cluster s i = o /\ cpu_last_req_freq s i = r /\ in_own n r /\ in_own o p
  | RScan o n r p _ | RSet o n r p _ => physical_cluster s i = n /\ in_own o p
  | RUndo o n r ret => in_own o (cpu_last_req_freq s i) /\ nonzero ret = true
  | RSwitch o n r => physical_cluster s i = n /\ cluster_id o
  | ROld o r | ROldScan o r _ => cluster_id o
  | ROldSet o r nr => True
  end.

Record drv_ok s : Prop := {
  do_on : bL_switching_enabled s = true;
  do_table : freq_table s MAX_CLUSTERS = TableAt virtual;
  do_min : clk_big_min s = get_table_min big;
  do_max : clk_little_max s = VIRT_FREQ A7_CLUSTER (get_table_max little);
  do_policy : forall i, i ∈ cpus_of (cpu_online_mask (sw s)) -> policy_ok (policies s i);
  do_req : forall i, i ∈ cpus_of (cpu_online_mask (sw s)) -> midway (rate_state s i) = false ->
           in_own (physical_cluster s i) (cpu_last_req_freq s i);
  do_call : forall i, i ∈ cpus_of (cpu_online_mask (sw s)) -> call_ok s i;
}.

(** At rest the rate wanted is one of the cluster's own. *)
Lemma want_member s i :
  drv_ok s -> (forall j, rate_state s j = RIdle) -> i ∈ cpus_of (cpu_online_mask (sw s)) ->
  want s (physical_cluster s i) ∈ own (physical_cluster s i).
Proof.
  intros Hd Hidle Hi.
  assert (Hreq : forall j, j ∈ cpus_of (cpu_online_mask (sw s)) -> in_own (physical_cluster s j) (cpu_last_req_freq s j)).
  { intros j Hj. apply (do_req s Hd j Hj). by rewrite Hidle. }
  unfold want. destruct (find_max_spec s (physical_cluster s i)) as ([E|(j & Hj & Hc & E)] & _ & Hm).
  - specialize (Hm i Hi eq_refl). pose proof (own_range _ _ Htab _ _ (Hreq i Hi)). lia.
  - rewrite E. rewrite <- Hc. apply own_actual; [done|]. by apply Hreq.
Qed.

Lemma set_target_ok pl i target relation s :
  drv_ok s -> i ∈ cpus_of (cpu_online_mask (sw s)) -> rate_state s i = RIdle ->
  relation = CPUFREQ_RELATION_L \/ relation = CPUFREQ_RELATION_H ->
  exists s', bL_cpufreq_set_target pl i target relation s = Some s'
    /\ (s' = s \/ exists n r old, in_own n r
          /\ s' = set_pc i (RStart (physical_cluster s i) n r)
                    (s <| freq_log := PreChange i old r :: freq_log s |> <| old_freq := <[i := old]> (old_freq s) |>)).
Proof.
  intros Hd Hi Hidle Hrel. unfold bL_cpufreq_set_target, cpu_to_cluster. rewrite (do_on _ Hd), (do_table _ Hd).
  cbn [table_at mbind option_bind]. destruct (do_policy s Hd i Hi) as [_ (f0 & Hf0 & Hl0)].
  pose proof (target_ok (policies s i) virtual target relation (merged_ok _ _ Htab) Hrel) as Ht.
  destruct (cpufreq_frequency_table_target _ _ _ _) as [err|k].
  { destruct Ht as [_ Ht]. destruct (Ht f0); [by rewrite merged_entries|done]. }
  destruct Ht as (f & Hk & Hf & Hin & _). rewrite Hf. cbn [mbind option_bind].
  case_match; [eexists; split; [reflexivity|by left]|]. eexists; split; [reflexivity|]. right.
  exists (choose_cluster s (physical_cluster s i) f), f, (bL_cpufreq_get_rate s i). split; [|done].
  apply choose_in_own; [done|apply Hd|apply Hd|apply Hd|by rewrite merged_entries in Hin|].
  apply (do_req s Hd i Hi). by rewrite Hidle.
Qed.

(** Changes that leave requests, tables and policies alone. *)
Lemma drv_ok_calls s s' :
  drv_ok s -> bL_switching_enabled s' = bL_switching_enabled s -> freq_table s' = freq_table s ->
  clk_big_min s' = clk_big_min s -> clk_little_max s' = clk_little_max s ->
  cpu_online_mask (sw s') = cpu_online_mask (sw s) ->
  (forall i, limits_ok (policies s i) virtual -> policy_ok (policies s i) -> policy_ok (policies s' i)) ->
  (forall i, i ∈ cpus_of (cpu_online_mask (sw s)) -> midway (rate_state s' i) = false ->
     in_own (physical_cluster s' i) (cpu_last_req_freq s' i)) ->
  (forall i, i ∈ cpus_of (cpu_online_mask (sw s)) -> call_ok s' i) -> drv_ok s'.
Proof.
  intros [A1 A2 A3 A4 A5 A6 A7] E1 E2 E3 E4 E5 Hp Hr Hc. split; rewrite ?E1, ?E2, ?E3, ?E4, ?E5; auto.
  intros i Hi. apply Hp; [|auto]. apply (A5 i Hi).
Qed.

Lemma call_others i s s' j :
  others_same i s s' -> j <> i -> physical_cluster s' j = physical_cluster s j ->
  cpu_last_req_freq s' j = cpu_last_req_freq s j -> call_ok s j -> call_ok s' j.
Proof. intros Ho Hj Hp Hr. unfold call_ok. rewrite (Ho j Hj). by rewrite Hp, Hr. Qed.

(** Moving on in a call, with the same requests. *)
Lemma drv_ok_pc s s' i :
  drv_ok s -> others_same i s s' -> bL_switching_enabled s' = bL_switching_enabled s -> freq_table s' = freq_table s ->
  clk_big_min s' = clk_big_min s -> clk_little_max s' = clk_little_max s ->
  cpu_online_mask (sw s') = cpu_online_mask (sw s) ->
  (forall j, policies s' j = policies s j \/ exists f, policies s' j = policies s j <| pol_cur := f |>) ->
  physical_cluster s' = physical_cluster s -> cpu_last_req_freq s' = cpu_last_req_freq s ->
  midway (rate_state s i) = false ->
  (i ∈ cpus_of (cpu_online_mask (sw s)) -> call_ok s' i) -> drv_ok s'.
Proof.
  intros Hd Ho E1 E2 E3 E4 E5 Hpol Hp Hr Hm Hc. apply (drv_ok_calls s s' Hd); try done.
  - intros j _ [[L1 L2 L3] (f & Hf & Hl)]. destruct (Hpol j) as [->|[g ->]]; (split; [by split|by exists f]).
  - intros j Hj Hmj. rewrite Hp, Hr. apply Hd; [done|]. destruct (decide (j = i)) as [->|Hji]; [done|]. by rewrite <- Ho.
  - intros j Hj. destruct (decide (j = i)) as [->|Hji]; [auto|].
    apply (call_others i s); [done|done|by rewrite Hp|by rewrite Hr|by apply Hd].
Qed.

Lemma end_ok s s1 i ret f :
  drv_ok s -> midway (rate_state s i) = false -> rate_state s1 = rate_state s -> bL_switching_enabled s1 = bL_switching_enabled s ->
  freq_table s1 = freq_table s -> clk_big_min s1 = clk_big_min s -> clk_little_max s1 = clk_little_max s ->
  sw s1 = sw s -> policies s1 = policies s ->
  physical_cluster s1 = physical_cluster s -> cpu_last_req_freq s1 = cpu_last_req_freq s ->
  drv_ok (set_target_end i ret f s1).
Proof.
  intros Hd Hm Er E1 E2 E3 E4 E5 E6 E7 E8. apply (drv_ok_pc s _ i Hd); try (unfold set_target_end; by case_match);
    try (unfold set_target_end; case_match; simpl; by rewrite ?E5, ?E7, ?E8).
  - by apply others_end.
  - intros j. unfold set_target_end. case_match; simpl; rewrite ?E6; [by left|].
    destruct (decide (i = j)) as [<-|]; rewrite ?fn_lookup_insert, ?fn_lookup_insert_ne by done; eauto.
  - done.
  - intros _. unfold call_ok. by rewrite end_pc, decide_True.
Qed.

(** The change of one request. *)
Lemma drv_ok_request s s' i :
  drv_ok s -> others_same i s s' -> bL_switching_enabled s' = bL_switching_enabled s -> freq_table s' = freq_table s ->
  clk_big_min s' = clk_big_min s -> clk_little_max s' = clk_little_max s ->
  cpu_online_mask (sw s') = cpu_online_mask (sw s) -> policies s' = policies s ->
  (forall j, j <> i -> physical_cluster s' j = physical_cluster s j /\ cpu_last_req_freq s' j = cpu_last_req_freq s j) ->
  (midway (rate_state s' i) = false -> in_own (physical_cluster s' i) (cpu_last_req_freq s' i)) ->
  call_ok s' i -> drv_ok s'.
Proof.
  intros Hd Ho E1 E2 E3 E4 E5 Hpol Hj Hi Hc. apply (drv_ok_calls s s' Hd); try done; [by rewrite Hpol|..].
  - intros j Hjo Hm. destruct (decide (j = i)) as [->|Hji]; [auto|]. destruct (Hj j Hji) as [-> ->].
    apply Hd; [done|]. by rewrite <- Ho.
  - intros j Hjo. destruct (decide (j = i)) as [->|Hji]; [done|]. destruct (Hj j Hji) as [? ?].
    apply (call_others i s); [done..|]. by apply Hd.
Qed.

Lemma drv_ok_set_pc s i pc :
  drv_ok s -> midway (rate_state s i) = false -> call_ok (set_pc i pc s) i -> drv_ok (set_pc i pc s).
Proof. intros Hd Hm Hc. apply (drv_ok_pc s _ i Hd); try done; [apply others_set_pc|by left]. Qed.

(** The two writes of a request, or of its withdrawal. *)
Lemma drv_ok_freq s s1 i f pc :
  drv_ok s -> s1 = set_pc i pc (set_freq i f s) -> midway pc = true -> call_ok s1 i -> drv_ok s1.
Proof.
  intros Hd E Hm Hc. assert (Ei : rate_state s1 i = pc) by (by rewrite E, pc_set, decide_True).
  apply (drv_ok_request s s1 i); try done; try (by rewrite E).
  - intros j Hj. rewrite E, pc_set. by rewrite decide_False by congruence.
  - intros j Hj. rewrite E. split; [done|]. simpl. by rewrite fn_lookup_insert_ne.
  - by rewrite Ei, Hm.
Qed.

Lemma drv_ok_cluster s s1 i c pc :
  drv_ok s -> s1 = set_pc i pc (set_cluster i c s) -> in_own c (cpu_last_req_freq s i) -> call_ok s1 i -> drv_ok s1.
Proof.
  intros Hd E Hown Hc. apply (drv_ok_request s s1 i); try done; try (by rewrite E).
  - intros j Hj. rewrite E, pc_set. by rewrite decide_False by congruence.
  - intros j Hj. rewrite E. split; [|done]. simpl. by rewrite fn_lookup_insert_ne.
  - intros _. rewrite E. simpl. by rewrite fn_lookup_insert.
Qed.

Lemma rate_step_ok pl i s :
  drv_ok s -> i ∈ cpus_of (cpu_online_mask (sw s)) -> drv_ok (bL_cpufreq_set_rate_step pl i s).
Proof.
  intros Hd Hi. unfold bL_cpufreq_set_rate_step. rewrite (do_on _ Hd).
  pose proof (do_call s Hd i Hi) as Hc. pose proof (do_req s Hd i Hi) as Hq. unfold call_ok in Hc.
  destruct (rate_state s i) as [|o n r|o n r p|o n r p sc|o n r p nr|o n r ret|o n r|o r|o r sc|o r nr] eqn:Ei; [done|..].
  - destruct (cluster_lock s n); [done|]. destruct Hc as [Hco Hr]. specialize (Hq eq_refl).
    set (s0 := set_lock n (Some i) s). assert (Hd0 : drv_ok s0) by (destruct Hd; by split).
    eapply (drv_ok_freq s0); [done|reflexivity|done|]. unfold call_ok. rewrite pc_set, decide_True by done. simpl.
    rewrite fn_lookup_insert. split_and!; try done. by rewrite <- Hco.
  - destruct Hc as (Hp & Hr & Hn & Hop). eapply (drv_ok_cluster s); [done|reflexivity|by rewrite Hr|].
    unfold call_ok. rewrite pc_set, decide_True by done. simpl. by rewrite fn_lookup_insert.
  - destruct (scan_step s n sc); apply drv_ok_set_pc; try done; rewrite ?Ei; try done; unfold call_ok;
      rewrite pc_set, decide_True by done; done.
  - destruct Hc as [Hp Hop]. destruct (nonzero (clk_set_rate pl n (u32 (nr * 1000)))) eqn:Hz.
    + eapply (drv_ok_freq s); [done|reflexivity|done|]. unfold call_ok. rewrite pc_set, decide_True by done. simpl.
      by rewrite fn_lookup_insert.
    + destruct (negb (o =? n)) eqn:Hon; [|apply (end_ok s); try done; by rewrite Ei].
      apply (drv_ok_pc s _ i Hd); try done; [|by left|by rewrite Ei|].
      * intros j Hj. rewrite pc_set. by rewrite decide_False by congruence.
      * intros _. unfold call_ok. rewrite pc_set, decide_True by done. split; [done|exact (proj1 Hop)].
  - destruct Hc as [Hop Hret]. assert (Hd1 : drv_ok (set_pc i RIdle (set_cluster i o s))).
    { eapply (drv_ok_cluster s); [done|reflexivity|done|]. unfold call_ok. by rewrite pc_set, decide_True. }
    unfold set_target_end. rewrite Hret. destruct Hd1. by split.
  - apply (drv_ok_pc s _ i Hd); try done; [|apply request_online|by left|by rewrite Ei|].
    + intros j Hj. rewrite pc_set. by rewrite decide_False by congruence.
    + intros _. unfold call_ok. rewrite pc_set, decide_True by done. apply Hc.
  - destruct (cluster_lock s o); [done|]. apply (drv_ok_pc s _ i Hd); try done; [|by left|by rewrite Ei|].
    + intros j Hj. rewrite pc_set. by rewrite decide_False by congruence.
    + intros _. unfold call_ok. by rewrite pc_set, decide_True.
  - destruct (scan_step s o sc); apply drv_ok_set_pc; try done; rewrite ?Ei; try done; unfold call_ok;
      by rewrite pc_set, decide_True.
  - apply (end_ok s); try done; [by rewrite Ei|by case_match..].
Qed.

(** ** Steps of the whole *)

Lemma thread_step_online e cpu w w' :
  bL_switcher_thread_step e cpu w = Some w' -> cpu_online_mask w' = cpu_online_mask w.
Proof.
  unfold bL_switcher_thread_step. destruct (thread_state w cpu) as [| |c comp ck]; [by intros [= <-]|..].
  - case_match; by intros [= <-].
  - unfold thread_run. case_match; [by intros [= <-]|]. unfold bL_switch_to.
    repeat (case_match; cbn [mbind option_bind]); try done; by intros [= <-].
Qed.

Definition freq_ev_ok w0 (ev : freq_ev) : Prop :=
  match ev with
  | FTarget _ cpu _ relation =>
      cpu ∈ (pairs w0).*1 /\ (relation = CPUFREQ_RELATION_L \/ relation = CPUFREQ_RELATION_H)
  | FLimits _ cpu _ _ | FRate _ cpu => cpu ∈ (pairs w0).*1
  | FThread e cpu => cpu ∈ (pairs w0).*1 /\ cpu_pm_enter e = 0
  end.

Lemma set_limits_ok pl i lo hi s :
  drv_ok s -> i ∈ cpus_of (cpu_online_mask (sw s)) ->
  exists p, set_limits pl i lo hi s = Some (set_policy i p s) /\ policy_ok p.
Proof.
  intros Hd Hi. unfold set_limits, bL_cpufreq_verify_policy, cpu_to_cluster. rewrite (do_on _ Hd), (do_table _ Hd).
  cbn [table_at mbind option_bind]. destruct (do_policy s Hd i Hi) as [[L1 L2 L3] _].
  set (p0 := policies s i <| pol_min := lo |> <| pol_max := hi |>).
  destruct (cpufreq_frequency_table_verify p0 virtual) as [ret p] eqn:E.
  assert (Hl : limits_ok p0 virtual) by (by split).
  destruct (verify_ok _ _ _ _ (merged_ok _ _ Htab) Hl E) as (_ & Hp & _ & _ & f & Hf & Hlim).
  rewrite merged_entries in Hf by done. exists p. split; [done|]. split; [done|]. by exists f.
Qed.

Lemma freq_step_ok w0 ev s :
  drv_ok s -> sw_on w0 (sw s) -> freq_ev_ok w0 ev ->
  exists s', freq_step ev s = Some s' /\ drv_ok s' /\ sw_on w0 (sw s').
Proof.
  intros Hd Hon Hev. pose proof (fun i => proj2 (online_pairs w0 (sw s) (sn_ok _ _ Hon) i)) as Honline.
  destruct ev as [pl i target rel|pl i lo hi|pl i|e i]; cbn [freq_step freq_ev_ok] in *.
  - destruct Hev as [Hi Hrel]. destruct (rate_state s i) eqn:Ei; try by exists s.
    destruct (set_target_ok pl i target rel s Hd (Honline i Hi) Ei Hrel) as (s' & -> & Hs'). exists s'. split; [done|].
    destruct Hs' as [->|(n & r & old & Hr & ->)]; [done|]. split; [|done].
    apply (drv_ok_pc s _ i Hd); try done; [|by left|by rewrite Ei|].
    + intros j Hj. rewrite pc_set. by rewrite decide_False by congruence.
    + intros _. unfold call_ok. by rewrite pc_set, decide_True.
  - destruct (rate_state s i) eqn:Ei; try by exists s.
    destruct (set_limits_ok pl i lo hi s Hd (Honline i Hev)) as (p & -> & Hp). eexists; split; [done|]. split; [|done].
    apply (drv_ok_calls s _ Hd); try done; [|apply Hd|apply Hd]. intros j _ Hj. simpl.
    destruct (decide (i = j)) as [<-|]; by rewrite ?fn_lookup_insert, ?fn_lookup_insert_ne.
  - eexists; split; [done|]. split; [by apply rate_step_ok; [|apply Honline]|].
    unfold bL_cpufreq_set_rate_step, set_target_end. repeat (case_match; try done). simpl.
    unfold bL_switch_request_cb. destruct (request_check i (sw s)); [done|]. by apply post_on.
  - destruct Hev as [Hi He]. destruct (thread_step_on w0 e i (sw s) Hon Hi He) as (w & Ew & Hw). rewrite Ew.
    cbn [mbind option_bind]. eexists; split; [done|]. split; [|done]. apply thread_step_online in Ew.
    apply (drv_ok_calls s _ Hd); try done; apply Hd.
Qed.

Definition ev_clocks_ok (ev : freq_ev) : Prop := match ev with FRate pl _ => clocks_ok pl | _ => True end.

Lemma freq_step_rate w0 ev s s' :
  drv_ok s -> sw_on w0 (sw s) -> freq_ev_ok w0 ev -> ev_clocks_ok ev -> rate_inv s ->
  freq_step ev s = Some s' -> rate_inv s'.
Proof.
  intros Hd Hon Hev Hc Hi. pose proof (fun i => proj2 (online_pairs w0 (sw s) (sn_ok _ _ Hon) i)) as Honline.
  destruct ev as [pl i target rel|pl i lo hi|pl i|e i]; cbn [freq_step freq_ev_ok ev_clocks_ok] in *.
  - destruct Hev as [Hp Hrel]. destruct (rate_state s i) eqn:Ei; try (by intros [= <-]).
    destruct (set_target_ok pl i target rel s Hd (Honline i Hp) Ei Hrel) as (s1 & -> & Hs1). intros [= <-].
    destruct Hs1 as [->|(n & r & old & Hr & ->)]; [done|]. set (s2 := set_pc _ _ _).
    assert (Ei' : rate_state s2 i = RStart (physical_cluster s i) n r) by (unfold s2; by rewrite pc_set, decide_True).
    assert (Ho : others_same i s s2) by (intros j Hj; unfold s2; rewrite pc_set; by rewrite decide_False by congruence).
    apply (rate_inv_quiet s s2 i); try done; rewrite ?Ei', ?Ei; try done.
    + apply (locks_keep s s2 i); [exact (ri_lock _ Hi)|done|done|]. intros c. by rewrite Ei', Ei.
    + unfold pc_fresh. by rewrite Ei'.
    + intros c. left. split; [done|]. simpl. tauto.
  - destruct (rate_state s i) eqn:Ei; try (by intros [= <-]).
    destruct (set_limits_ok pl i lo hi s Hd (Honline i Hev)) as (p & -> & _). intros [= <-].
    destruct Hi as [A B C]. by split.
  - intros [= <-]. apply rate_inv_step; [done|apply Hd|done].
  - destruct Hev as [Hp He]. destruct (bL_switcher_thread_step e i (sw s)) as [w|] eqn:Ew; [|done].
    cbn. intros [= <-]. apply thread_step_online in Ew. assert (Hw : forall c, want (s <| sw := w |>) c = want s c).
    { intros c. by apply want_ext. }
    destruct Hi as [A B C]. split; [done| |intros c; rewrite Hw; apply C].
    intros j. specialize (B j). unfold pc_fresh, fresh in *. simpl. by case_match; rewrite ?Hw.
Qed.

(** ** Initialisation with the switcher on *)

(** The cpufreq core initialises the policies one after the other. *)
Fixpoint init_cpus pl (l : list Z) s : option driver :=
  match l with
  | [] => Some s
  | i :: l => '(_, s) ← bL_cpufreq_init pl i s; init_cpus pl l s
  end.

Record same_calls s s' : Prop := {
  sc_rate : clk_rate s' = clk_rate s;
  sc_pc : rate_state s' = rate_state s;
  sc_lock : cluster_lock s' = cluster_lock s;
  sc_sw : sw s' = sw s;
}.

(** The tables of both clusters are loaded; the virtual one is too once it is in use. *)
Record tables_loaded s : Prop := {
  tl_on : bL_switching_enabled s = true;
  tl_big : freq_table s A15_CLUSTER = TableAt big;
  tl_little : freq_table s A7_CLUSTER = TableAt little;
  tl_virtual : cluster_usage s MAX_CLUSTERS = 0
    \/ 0 < cluster_usage s MAX_CLUSTERS /\ freq_table s MAX_CLUSTERS = TableAt virtual
       /\ clk_big_min s = get_table_min big /\ clk_little_max s = VIRT_FREQ A7_CLUSTER (get_table_max little);
}.

Lemma usage_add c d s : cluster_usage (add_usage c d s) c = cluster_usage s c + d.
Proof. apply fn_lookup_insert. Qed.

(** While the switcher is on, [_get_cluster_clk_and_freq_table] only counts. *)
Lemma get_counts pl k s :
  bL_switching_enabled s = true -> 0 < cluster_usage s MAX_CLUSTERS ->
  _get_cluster_clk_and_freq_table pl k s = (0, add_usage MAX_CLUSTERS 1 s).
Proof.
  intros On U. unfold _get_cluster_clk_and_freq_table, cpu_to_cluster. rewrite On, usage_add.
  by rewrite (proj2 (Z.eqb_neq _ 1)) by lia.
Qed.

Lemma get_tables pl i s :
  tables_loaded s -> kzalloc_ok pl = true -> cpu_device pl 0 = true -> cpu_device pl 1 = true ->
  exists s1, get_cluster_clk_and_freq_table pl i s = Some (0, s1) /\ tables_loaded s1 /\ same_calls s s1
    /\ 0 < cluster_usage s1 MAX_CLUSTERS /\ policies s1 = policies s
    /\ physical_cluster s1 = physical_cluster s /\ cpu_last_req_freq s1 = cpu_last_req_freq s.
Proof.
  intros [On Tb Tl Tv] Hk H0 H1. unfold get_cluster_clk_and_freq_table, cpu_to_cluster. rewrite On.
  rewrite Z.ltb_irrefl, usage_add. destruct Tv as [U0|(U0 & V & Vm & Vx)].
  - rewrite U0. change (negb (0 + 1 =? 1)) with false. cbn [get_clusters]. rewrite H0, H1. cbn [negb].
    rewrite get_counts; [|done|rewrite usage_add; lia]. change (nonzero 0) with false. cbv iota beta.
    rewrite get_counts; [|done|rewrite !usage_add; lia]. change (nonzero 0) with false. cbv iota beta.
    set (s3 := add_usage MAX_CLUSTERS 1 (add_usage MAX_CLUSTERS 1 (add_usage MAX_CLUSTERS 1 s))).
    assert (U3 : cluster_usage s3 MAX_CLUSTERS = 3) by (unfold s3; rewrite !usage_add, U0; done).
    assert (Tb3 : freq_table s3 = freq_table s) by done. assert (C3 : same_calls s s3) by done.
    assert (Q3 : bL_switching_enabled s3 = bL_switching_enabled s /\ policies s3 = policies s
      /\ physical_cluster s3 = physical_cluster s /\ cpu_last_req_freq s3 = cpu_last_req_freq s) by done.
    clearbody s3. destruct Q3 as (Q1 & Q2 & Q3 & Q4), C3 as [C1 C2 C3 C4].
    unfold merge_cluster_tables. rewrite Tb3, Tb, Tl, Hk. cbn [table_at mbind option_bind negb].
    change (nonzero 0) with false. cbv iota beta. change (freq_table (s3 <| freq_table := ?t |>)) with t.
    rewrite !(fn_lookup_insert_ne (freq_table s)) by done. rewrite Tb, Tl. cbn [table_at mbind option_bind].
    eexists. split; [reflexivity|]. split; [|split_and!; try done; simpl; lia].
    split; simpl; [congruence|by rewrite fn_lookup_insert_ne..|]. right. rewrite fn_lookup_insert, U3. by split_and!.
  - rewrite (proj2 (Z.eqb_neq _ 1)) by lia. cbn [negb]. eexists. split; [reflexivity|].
    split; [|split_and!; try done; rewrite usage_add; lia]. split; [done..|]. right. rewrite usage_add. split_and!; try done. lia.
Qed.

(** The state once the policies of [l] have been initialised. *)
Record inited (f : Z) (l : list Z) s : Prop := {
  in_loaded : tables_loaded s;
  in_used : l <> [] -> 0 < cluster_usage s MAX_CLUSTERS;
  in_idle : forall i, rate_state s i = RIdle;
  in_locks : forall c, cluster_lock s c = None;
  in_clock : clk_rate s A15_CLUSTER = f * 1000;
  in_policy : forall i, i ∈ l -> policy_ok (policies s i);
  in_req : forall i, i ∈ l -> physical_cluster s i = A15_CLUSTER /\ cpu_last_req_freq s i = f;
}.

Lemma virtual_nonempty : entries virtual <> [].
Proof.
  rewrite merged_entries by done. destruct (big_min _ _ Htab) as [Hb _]. intros E.
  assert (Hin : get_table_min big ∈ virtual).
  { apply elem_of_merged. right. split; [by left|]. by exists (get_table_min big). }
  rewrite E in Hin. by apply elem_of_nil in Hin.
Qed.

Lemma cpuinfo_virtual p :
  exists p', cpufreq_frequency_table_cpuinfo p virtual = (0, p') /\ policy_ok p'.
Proof.
  destruct (cpufreq_frequency_table_cpuinfo p virtual) as [ret p'] eqn:E.
  destruct (cpuinfo_limits _ _ _ _ (merged_ok _ _ Htab) E) as ([_ R] & Hin & Hall & Em & EM).
  specialize (R virtual_nonempty). destruct (Hin virtual_nonempty) as [L1 L2]. subst ret. exists p'. split; [done|].
  split; [by split|]. exists (cpuinfo_min p'). split; [by rewrite merged_entries in L1|].
  unfold in_limits. rewrite Em, EM. pose proof (Hall _ L2). lia.
Qed.

Lemma init_one pl f l i s :
  f ∈ big -> inited f l s -> kzalloc_ok pl = true -> (forall k, cpu_device pl k = true) ->
  exists s', bL_cpufreq_init pl i s = Some (0, s') /\ inited f (l ++ [i]) s' /\ sw s' = sw s.
Proof.
  intros Hf [Tl Tu Ti Tk Tc Tp Tr] Hk Hdev. unfold bL_cpufreq_init. rewrite Hdev. cbn [negb].
  destruct (get_tables pl i s Tl Hk (Hdev 0) (Hdev 1)) as (s1 & -> & Tl1 & [C1 C2 C3 C4] & U1 & P1 & Q1 & R1).
  cbn [mbind option_bind nonzero Z.eqb negb]. unfold cpu_to_cluster. rewrite (tl_on _ Tl), Z.ltb_irrefl.
  destruct (tl_virtual _ Tl1) as [U0|(_ & V & Vm & Vx)]; [lia|]. rewrite V. cbn [table_at mbind option_bind].
  destruct (cpuinfo_virtual (policies s1 i)) as (p & -> & Hp). cbn [nonzero Z.eqb negb].
  set (lat := match get_transition_latency pl with Some _ => _ | None => _ end).
  destruct Tl1 as [On1 Tb1 Tl1 _]. pose proof (big_range _ _ Htab f Hf) as Hfr.
  set (s2 := set_policy i p s1 <| physical_cluster := _ |>).
  set (s3 := set_policy i _ s2).
  assert (Hr : clk_get_cpu_rate s3 i = f).
  { unfold clk_get_cpu_rate. simpl. rewrite fn_lookup_insert. rewrite C1, Tc, Z.div_mul by lia.
    rewrite u32_id by lia. by destruct (bL_switching_enabled s1). }
  rewrite Hr. set (s4 := set_policy i _ s3). assert (On4 : bL_switching_enabled s4 = true) by done. rewrite On4.
  assert (E4 : pol_cur (policies s4 i) = f) by (unfold s4; simpl; by rewrite fn_lookup_insert).
  rewrite E4. eexists. split; [reflexivity|]. split; [|done].
  split.
  - split; [done..|]. right. by split_and!.
  - intros _. done.
  - intros j. simpl. by rewrite C2.
  - intros c. simpl. by rewrite C3.
  - simpl. by rewrite C1.
  - intros j Hj. simpl. rewrite P1. destruct (decide (i = j)) as [<-|Hij].
    + rewrite !fn_lookup_insert. destruct Hp as [[L1 L2 L3] (g & Hg & Hl)]. split; [by split|by exists g].
    + rewrite !fn_lookup_insert_ne by done. apply Tp. set_solver.
  - intros j Hj. simpl. rewrite Q1, R1. destruct (decide (i = j)) as [<-|Hij].
    + by rewrite !fn_lookup_insert.
    + rewrite !fn_lookup_insert_ne by done. apply Tr. set_solver.
Qed.

Lemma init_all pl f l k s :
  f ∈ big -> inited f k s -> kzalloc_ok pl = true -> (forall i, cpu_device pl i = true) ->
  exists s', init_cpus pl l s = Some s' /\ inited f (k ++ l) s' /\ sw s' = sw s.
Proof.
  intros Hf Hs Hk Hdev. revert k s Hs. induction l as [|i l IH]; intros k s Hs; cbn [init_cpus].
  { exists s. by rewrite app_nil_r. }
  destruct (init_one pl f k i s Hf Hs Hk Hdev) as (s1 & -> & Hs1 & E1). cbn [mbind option_bind].
  destruct (IH _ _ Hs1) as (s2 & -> & Hs2 & E2). exists s2. rewrite <- app_assoc in Hs2. split_and!; try done. congruence.
Qed.

(** ** What holds from initialisation on *)

Record sys_ok w0 s : Prop := {
  sy_drv : drv_ok s;
  sy_sw : sw_on w0 (sw s);
  sy_locks : locks_ok s;
  sy_off : forall i, i ∉ (pairs w0).*1 -> rate_state s i = RIdle;
}.

Lemma inited_ok w0 f s :
  f ∈ big -> inited f (cpus_of (cpu_online_mask (sw s))) s -> cpus_of (cpu_online_mask (sw s)) <> [] ->
  sw_on w0 (sw s) -> sys_ok w0 s /\ rate_inv s.
Proof.
  intros Hf [Tl Tu Ti Tk Tc Tp Tr] Hne Hon. specialize (Tu Hne). destruct Tl as [On Tb Tlt Tv].
  destruct Tv as [?|(_ & V & Vm & Vx)]; [lia|]. pose proof (big_range _ _ Htab f Hf) as Hfr.
  assert (Hl : locks_ok s).
  { intros c i. rewrite Tk, Ti. unfold holds. simpl. split; [done|]. by intros [[]|[]]. }
  split; [split; [|done|done|by intros i _]|].
  - split; try done.
    + intros i Hi. destruct (Tr i Hi) as [-> ->]. split; [by left|]. by exists f.
    + intros i _. unfold call_ok. by rewrite Ti.
  - split; [exact Hl|intros i; unfold pc_fresh; by rewrite Ti|].
    intros c. unfold want. destruct (find_max_spec s c) as ([E|(j & Hj & Hc & E)] & _).
    + right. left. rewrite E. unfold ACTUAL_FREQ. by case_match.
    + left. rewrite E. destruct (Tr j Hj) as [Hj1 ->]. rewrite Hj1 in Hc. subst c.
      change (ACTUAL_FREQ A15_CLUSTER f) with f. rewrite Tc, u32_id by lia. done.
Qed.

Lemma step_others pl i s : others_same i s (bL_cpufreq_set_rate_step pl i s).
Proof.
  intros j Hj. unfold bL_cpufreq_set_rate_step.
  repeat case_match; rewrite ?end_pc, ?pc_set, ?decide_False by congruence; done.
Qed.

Lemma rate_step_locks pl i s : locks_ok s -> locks_ok (bL_cpufreq_set_rate_step pl i s).
Proof.
  intros Hl. pose proof (step_others pl i s) as Ho. set (s' := bL_cpufreq_set_rate_step pl i s) in *.
  assert (E : s' = bL_cpufreq_set_rate_step pl i s) by done. clearbody s'. unfold bL_cpufreq_set_rate_step in E.
  destruct (rate_state s i) as [|o n r|o n r p|o n r p sc|o n r p nr|o n r ret|o n r|o r|o r sc|o r nr] eqn:Ei.
  all: try (apply (locks_keep s s' i); try done; [rewrite E; by repeat case_match|];
            intros c; rewrite Ei, E; repeat case_match; rewrite pc_set, decide_True by done; done).
  - by rewrite E.
  - destruct (cluster_lock s n) eqn:En; [by rewrite E|].
    apply (locks_acquire s s' i n); try done.
    + intros d. rewrite E. case_match; apply lock_set.
    + intros d. rewrite Ei. unfold holds. simpl. tauto.
    + intros d. rewrite E. case_match; rewrite pc_set, decide_True by done; unfold holds; simpl; naive_solver.
  - destruct (nonzero (clk_set_rate _ _ _)) eqn:Hz, (bL_switching_enabled s) eqn:Hon.
    1: { apply (locks_keep s s' i); try done; [by rewrite E|]. intros c.
         rewrite Ei, E, pc_set, decide_True by done. unfold holds. simpl. tauto. }
    all: apply (locks_release s s' i n); try done;
      [rewrite Ei; by left
      |intros d; rewrite E; try destruct (negb (o =? n)); rewrite ?(proj1 (end_fields _ _ _ _)); by rewrite <- (lock_set n None s d)
      |intros d; rewrite Ei; unfold holds; simpl; naive_solver
      |intros d; rewrite E; repeat case_match; rewrite ?end_pc, ?pc_set, decide_True by done; unfold holds; simpl; tauto].
  - apply (locks_release s s' i n); try done.
    + rewrite Ei. by left.
    + intros d. rewrite E, (proj1 (end_fields _ _ _ _)). by rewrite <- (lock_set n None s d).
    + intros d. rewrite Ei. unfold holds. simpl. naive_solver.
    + intros d. rewrite E, end_pc, decide_True by done. unfold holds. simpl. tauto.
  - destruct (cluster_lock s o) eqn:En; [by rewrite E|].
    apply (locks_acquire s s' i o); try done.
    + intros d. rewrite E. apply lock_set.
    + intros d. rewrite Ei. unfold holds. simpl. tauto.
    + intros d. rewrite E, pc_set, decide_True by done; unfold holds; simpl; naive_solver.
  - apply (locks_release s s' i o); try done.
    + rewrite Ei. by right.
    + intros d. rewrite E, (proj1 (end_fields _ _ _ _)), lock_set. by destruct (nonzero nr && _).
    + intros d. rewrite Ei. unfold holds. simpl. naive_solver.
    + intros d. rewrite E, end_pc, decide_True by done; unfold holds; simpl; tauto.
Qed.

Lemma sys_step_ok w0 ev s :
  sys_ok w0 s -> freq_ev_ok w0 ev -> exists s', freq_step ev s = Some s' /\ sys_ok w0 s'.
Proof.
  intros [Hd Hs Hl Hoff] Hev. destruct (freq_step_ok w0 ev s Hd Hs Hev) as (s' & E & Hd' & Hs'). exists s'. split; [done|].
  split; [done|done|..]; destruct ev as [pl i target rel|pl i lo hi|pl i|e i]; cbn [freq_step freq_ev_ok] in *.
  - destruct (rate_state s i) eqn:Ei; try by simplify_eq.
    destruct (set_target_ok pl i target rel s Hd) as (s1 & E1 & H1); [by apply (online_pairs w0), Hev; apply Hs|done|apply Hev|].
    rewrite E1 in E. injection E as <-. destruct H1 as [->|(n & r & old & _ & ->)]; [done|].
    apply (locks_keep s _ i Hl); [|done|].
    + intros j Hj. rewrite pc_set. by rewrite decide_False by congruence.
    + intros c. by rewrite pc_set, decide_True, Ei.
  - destruct (rate_state s i) eqn:Ei; try by simplify_eq. unfold set_limits in E.
    destruct (bL_cpufreq_verify_policy pl i _ s) as [[ret p]|]; [|done]. cbn in E. by injection E as <-.
  - injection E as <-. by apply rate_step_locks.
  - destruct (bL_switcher_thread_step e i (sw s)); [|done]. cbn in E. by injection E as <-.
  - intros j Hj. assert (Hji : j <> i) by (intros ->; by apply Hj, Hev). destruct (rate_state s i) eqn:Ei; try (simplify_eq; by apply Hoff).
    destruct (set_target_ok pl i target rel s Hd) as (s1 & E1 & H1); [by apply (online_pairs w0), Hev; apply Hs|done|apply Hev|].
    rewrite E1 in E. injection E as <-. destruct H1 as [->|(n & r & old & _ & ->)]; [by apply Hoff|].
    rewrite pc_set, decide_False by congruence. by apply Hoff.
  - destruct (rate_state s i) eqn:Ei; try by simplify_eq. unfold set_limits in E.
    destruct (bL_cpufreq_verify_policy pl i _ s) as [[ret p]|]; [|done]. cbn in E. by injection E as <-.
  - injection E as <-. intros j Hj. rewrite (step_others pl i s j); [by apply Hoff|]. intros ->. by apply Hj.
  - destruct (bL_switcher_thread_step e i (sw s)); [|done]. cbn in E. by injection E as <-.
Qed.

Lemma sys_run_ok w0 l s :
  sys_ok w0 s -> Forall (freq_ev_ok w0) l -> exists s', freq_run l s = Some s' /\ sys_ok w0 s'.
Proof.
  intros Hs Hl. revert s Hs. induction Hl as [|ev l Hev Hl IH]; intros s Hs; cbn [freq_run]; [by exists s|].
  destruct (sys_step_ok w0 ev s Hs Hev) as (s1 & -> & Hs1). cbn. by apply IH.
Qed.

Lemma sys_run_rate w0 l s s' :
  sys_ok w0 s -> rate_inv s -> Forall (freq_ev_ok w0) l -> Forall ev_clocks_ok l -> freq_run l s = Some s' -> rate_inv s'.
Proof.
  intros Hs Hi Hl. revert s Hs Hi. induction Hl as [|ev l Hev Hl IH]; intros s Hs Hi Hc; cbn [freq_run]; [by intros [= <-]|].
  apply Forall_cons in Hc as [Hc1 Hc2]. destruct (sys_step_ok w0 ev s Hs Hev) as (s1 & E1 & Hs1). rewrite E1. cbn.
  apply (IH s1 Hs1); [|done]. by apply (freq_step_rate w0 ev s s1 (sy_drv _ _ Hs) (sy_sw _ _ Hs)).
Qed.


(** ** Termination *)

Definition scan_left (sc : scan) : nat :=
  match seen sc with None => 2 * length (todo sc) | Some _ => 2 * length (todo sc) - 1 end.
Definition NR : nat := Z.to_nat NR_CPUS.
Definition steps_left (pc : rate_pc) : nat :=
  match pc with
  | RIdle => 0
  | RStart _ _ _ => 8 + 4 * NR | RFreq _ _ _ _ => 7 + 4 * NR | RScan _ _ _ _ sc => 6 + 2 * NR + scan_left sc
  | RSet _ _ _ _ _ => 5 + 2 * NR | RUndo _ _ _ _ => 1
  | RSwitch _ _ _ => 4 + 2 * NR | ROld _ _ => 3 + 2 * NR | ROldScan _ _ sc => 2 + scan_left sc
  | ROldSet _ _ _ => 1
  end.

Lemma scan_start_left s : (scan_left (scan_start s) <= 2 * NR)%nat.
Proof.
  unfold scan_left, scan_start. simpl. assert (length (cpus_of (cpu_online_mask (sw s))) <= NR)%nat; [|lia].
  etransitivity; [apply length_filter|]. unfold cpu_ids, NR. by rewrite length_fmap, length_seq.
Qed.

Lemma scan_step_left s c sc sc' : scan_step s c sc = Some sc' -> (scan_left sc' < scan_left sc)%nat.
Proof.
  unfold scan_step, scan_left. destruct (todo sc) as [|j l], (seen sc); [done..| |]; intros [= <-]; simpl; lia.
Qed.

(** A CPU that is not waiting for a lock moves on. *)
Lemma step_decreases pl i s :
  rate_state s i <> RIdle ->
  (forall o n r, rate_state s i = RStart o n r -> cluster_lock s n = None) ->
  (forall o r, rate_state s i = ROld o r -> cluster_lock s o = None) ->
  (steps_left (rate_state (bL_cpufreq_set_rate_step pl i s) i) < steps_left (rate_state s i))%nat.
Proof.
  intros Hn H1 H2. unfold bL_cpufreq_set_rate_step.
  destruct (rate_state s i) as [|o n r|o n r p|o n r p sc|o n r p nr|o n r ret|o n r|o r|o r sc|o r nr] eqn:Ei; [done|..].
  - rewrite (H1 _ _ _ eq_refl). case_match; rewrite pc_set, decide_True by done; simpl; lia.
  - rewrite pc_set, decide_True by done. cbn [steps_left]. pose proof (scan_start_left (set_cluster i n s)). lia.
  - destruct (scan_step s n sc) as [sc'|] eqn:E; rewrite pc_set, decide_True by done; simpl;
      [apply scan_step_left in E|]; lia.
  - repeat case_match; rewrite ?end_pc, ?pc_set, decide_True by done; simpl; lia.
  - rewrite end_pc, decide_True by done. simpl. lia.
  - rewrite pc_set, decide_True by done. simpl. lia.
  - rewrite (H2 _ _ eq_refl). rewrite pc_set, decide_True by done. cbn [steps_left].
    pose proof (scan_start_left (set_lock o (Some i) s)). lia.
  - destruct (scan_step s o sc) as [sc'|] eqn:E; rewrite pc_set, decide_True by done; simpl;
      [apply scan_step_left in E|]; lia.
  - rewrite end_pc, decide_True by done. simpl. lia.
Qed.

Definition work (l : list Z) s : nat := sum_list_with (fun i => steps_left (rate_state s i)) l.

Lemma work_step l i s s' :
  NoDup l -> i ∈ l -> others_same i s s' ->
  (steps_left (rate_state s' i) < steps_left (rate_state s i))%nat -> (work l s' < work l s)%nat.
Proof.
  intros Hn Hi Ho Hlt. unfold work. induction Hn as [|j l Hj Hn IH]; [by apply elem_of_nil in Hi|]. simpl.
  apply elem_of_cons in Hi as [->|Hi].
  - assert (E : sum_list_with (fun i => steps_left (rate_state s' i)) l = sum_list_with (fun i => steps_left (rate_state s i)) l).
    { clear - Hj Ho. induction l as [|k l IH]; [done|]. apply not_elem_of_cons in Hj as [Hk Hj]. simpl.
      rewrite (Ho k) by congruence. by rewrite IH. }
    lia.
  - rewrite (Ho j) by (by intros ->). specialize (IH Hi). lia.
Qed.

(** Somebody can always go on: whoever holds a lock, or anybody if nobody does. *)
Lemma some_progress pl s (l : list Z) :
  locks_ok s -> (forall i, i ∉ l -> rate_state s i = RIdle) ->
  (exists i, i ∈ l /\ rate_state s i <> RIdle) ->
  exists i, i ∈ l /\ (steps_left (rate_state (bL_cpufreq_set_rate_step pl i s) i) < steps_left (rate_state s i))%nat.
Proof.
  intros Hl Hoff (i & Hi & Hpc).
  assert (Hheld : forall c k, cluster_lock s c = Some k ->
    k ∈ l /\ (steps_left (rate_state (bL_cpufreq_set_rate_step pl k s) k) < steps_left (rate_state s k))%nat).
  { intros c k Hk%Hl. destruct (decide (k ∈ l)) as [Hkl|Hkl].
    - split; [done|]. unfold holds in Hk. destruct (rate_state s k) eqn:Ek; simpl in Hk; try tauto;
        rewrite <- Ek; apply step_decreases; by rewrite Ek.
    - rewrite (Hoff k Hkl) in Hk. by destruct Hk as [[]|[]]. }
  destruct (rate_state s i) as [|o n r|o n r p|o n r p sc|o n r p nr|o n r ret|o n r|o r|o r sc|o r nr] eqn:Ei; [done|..].
  1: destruct (cluster_lock s n) as [k|] eqn:E; [exists k; by apply (Hheld n)|].
  7: destruct (cluster_lock s o) as [k|] eqn:E; [exists k; by apply (Hheld o)|].
  all: exists i; split; [done|]; apply step_decreases; rewrite ?Ei; naive_solver.
Qed.

Lemma all_finish w0 pl l s n :
  sys_ok w0 s -> l = (pairs w0).*1 -> (work l s <= n)%nat ->
  exists cpus s', (length cpus <= n)%nat /\ Forall (fun i => i ∈ l) cpus
    /\ freq_run (FRate pl <$> cpus) s = Some s' /\ (forall i, rate_state s' i = RIdle) /\ sys_ok w0 s'.
Proof.
  intros Hs El. revert s Hs. induction n as [|n IH]; intros s Hs Hw.
  - exists [], s. split_and!; try done. intros i. destruct (decide (i ∈ l)) as [Hi|Hi]; [|apply Hs; by rewrite <- El].
    assert (E : steps_left (rate_state s i) = 0%nat).
    { clear - Hi Hw. unfold work in Hw. induction l as [|k l IH]; [by apply elem_of_nil in Hi|]. simpl in Hw.
      apply elem_of_cons in Hi as [->|Hi]; [lia|]. apply IH; [lia|done]. }
    by destruct (rate_state s i).
  - destruct (decide (Exists (fun i => rate_state s i <> RIdle) l)) as [(i & Hi & Hp)%Exists_exists|Hno].
    2:{ exists [], s. split_and!; try done; [simpl; lia|]. intros i.
        destruct (decide (i ∈ l)) as [Hi|Hi]; [|apply Hs; by rewrite <- El].
        destruct (decide (rate_state s i = RIdle)); [done|]. destruct Hno. apply Exists_exists. by exists i. }
    destruct (some_progress pl s l (sy_locks _ _ Hs)) as (k & Hk & Hlt); [intros j Hj; apply Hs; by rewrite <- El|by exists i|].
    destruct (sys_step_ok w0 (FRate pl k) s Hs) as (s1 & E1 & Hs1); [simpl; by rewrite <- El|].
    injection E1 as E1. destruct (IH s1 Hs1) as (cpus & s2 & Hlen & Hall & Hrun & Hidle & Hs2).
    { assert (Hn : NoDup l) by (rewrite El; apply (po_l _ _ (pairs_matching w0))).
      pose proof (work_step l k s s1 Hn Hk) as Hws. rewrite <- E1 in Hws |- *.
      specialize (Hws (step_others pl k s) Hlt). lia. }
    exists (k :: cpus), s2. split_and!; try done; [simpl; lia|by constructor|]. simpl. by rewrite E1.
Qed.

(** Calls end.  In every state reached while the switcher is on, all calls of
    [bL_cpufreq_set_rate] in progress can be brought to their end by steps of their CPUs
    alone, in as many steps as they have left ([work]) or less: no call waits for a lock that nobody
    can release, whatever the clocks report. *)
Theorem set_rate_terminates w0 pl f s l pl' :
  f ∈ big -> inited f [] s -> sw_on w0 (sw s) -> cpus_of (cpu_online_mask (sw s)) <> [] ->
  kzalloc_ok pl = true -> (forall i, cpu_device pl i = true) -> Forall (freq_ev_ok w0) l ->
  exists s1 s2 cpus s3, init_cpus pl (cpus_of (cpu_online_mask (sw s))) s = Some s1 /\ freq_run l s1 = Some s2
    /\ freq_run (FRate pl' <$> cpus) s2 = Some s3 /\ (forall i, rate_state s3 i = RIdle)
    /\ (length cpus <= work (pairs w0).*1 s2)%nat.
Proof.
  intros Hf Hin Hon Hne Hk Hdev Hl.
  destruct (init_all pl f (cpus_of (cpu_online_mask (sw s))) [] s Hf Hin Hk Hdev) as (s1 & E1 & Hin1 & Esw).
  cbn [app] in Hin1. rewrite <- Esw in Hin1, Hon, Hne.
  destruct (inited_ok w0 f s1 Hf Hin1 Hne Hon) as [Hs1 _].
  destruct (sys_run_ok w0 l s1 Hs1 Hl) as (s2 & E2 & Hs2).
  destruct (all_finish w0 pl' (pairs w0).*1 s2 _ Hs2 eq_refl (le_n _)) as (cpus & s3 & Hlen & _ & Hrun & Hidle & _).
  exists s1, s2, cpus, s3. by split_and!.
Qed.

(** * The switcher follows the driver *)

Definition two_clusters w0 : Prop :=
  forall i j, (i, j) ∈ pairs w0 -> cluster_id (cluster_of w0 i) /\ cluster_id (cluster_of w0 j).

Lemma switch_reaches w0 e i c w ret w' :
  sw_ok w0 w -> two_clusters w0 -> i ∈ (pairs w0).*1 -> (forall m, power_up_result e m = 0) -> cluster_id c ->
  bL_switch_to e i c w = Some (ret, w') -> cluster_of w' i = c.
Proof.
  intros Hok H2 Hi Hpu Hc. pose proof Hi as Hi'. apply list_elem_of_fmap in Hi' as ([i' j] & -> & Hij). cbn [fst] in *.
  rename i' into i. unfold bL_switch_to. rewrite (so_run _ _ Hok i Hi), Z.eqb_refl. cbn [negb].
  destruct (Z.eqb_spec c (cluster_of_mpidr (cpu_logical_map w i))) as [->|Ec]; [by intros [= _ <-]|].
  rewrite (so_pairing _ _ Hok), (pairs_lookup w0 i j Hij). rewrite Hpu. change (nonzero 0) with false. cbv iota.
  destruct (j <? 0); [done|]. destruct (nonzero (cpu_pm_enter e)); [done|]. intros [= _ <-].
  unfold cluster_of. simpl. destruct (pairs_disjoint w0 i j Hij) as [Hd _].
  rewrite fn_lookup_insert_ne, fn_lookup_insert.
  2:{ intros ->. apply Hd, list_elem_of_fmap. by exists (i, i). }
  destruct (H2 i j Hij) as [C1 C2], (po_cluster _ _ (pairs_matching w0)) as [c0 Hc0], (Hc0 i j Hij) as [D1 D2].
  unfold cluster_of, cluster_id, A15_CLUSTER, A7_CLUSTER in *.
  destruct (so_map _ _ Hok i j Hij) as [[E1 E2]|[E1 E2]]; rewrite ?E1, ?E2 in *; lia.
Qed.

(** Where a CPU is or is going to be. *)
Definition bound_for w (i : Z) : Z :=
  if wanted_cluster (bL_threads w i) =? -1
  then match thread_state w i with Taken c _ _ => c | _ => cluster_of w i end
  else wanted_cluster (bL_threads w i).

(** Where the driver wants it. *)
Definition wants_on s (i : Z) : Z :=
  match rate_state s i with
  | RFreq o _ _ _ | RScan o _ _ _ _ | RSet o _ _ _ _ | RUndo o _ _ _ | RSwitch o _ _ => o
  | _ => physical_cluster s i
  end.

Record thread_follows w (i : Z) : Prop := {
  tf_task : task (bL_threads w i) = TTask;
  tf_completer : completer (bL_threads w i) = None;
  tf_wanted : wanted_cluster (bL_threads w i) = -1 \/ cluster_id (wanted_cluster (bL_threads w i));
  tf_taken : forall c comp ck, thread_state w i = Taken c comp ck -> cluster_id c;
}.

Record follows w0 s : Prop := {
  fo_thread : forall i, i ∈ (pairs w0).*1 -> thread_follows (sw s) i;
  fo_bound : forall i, i ∈ (pairs w0).*1 -> bound_for (sw s) i = wants_on s i;
}.

Lemma cluster_id_wanted c : cluster_id c -> (c =? -1) = false.
Proof. unfold cluster_id, A15_CLUSTER, A7_CLUSTER. intros ?. apply Z.eqb_neq. lia. Qed.

(** A step of the thread of CPU [i] does not change where any CPU is bound for. *)
Lemma thread_step_follows w0 e i w w' :
  sw_on w0 w -> two_clusters w0 -> i ∈ (pairs w0).*1 -> cpu_pm_enter e = 0 -> (forall m, power_up_result e m = 0) ->
  (forall k, k ∈ (pairs w0).*1 -> thread_follows w k) -> bL_switcher_thread_step e i w = Some w' ->
  forall k, k ∈ (pairs w0).*1 -> thread_follows w' k /\ bound_for w' k = bound_for w k.
Proof.
  intros Hon H2 Hi He Hpu Hf. unfold bL_switcher_thread_step. destruct (thread_state w i) as [| |c comp ck] eqn:Hp.
  - intros [= <-] k Hk. by split; auto.
  - destruct (Z.eqb_spec (wanted_cluster (bL_threads w i)) (-1)) as [Ew|Ew]; intros [= <-] k Hk; [by split; auto|].
    unfold thread_take. destruct (decide (i = k)) as [<-|Hik].
    + destruct (Hf i Hi) as [F1 F2 F3 F4]. split.
      * split; simpl; rewrite ?fn_lookup_insert; simpl; auto. intros c comp ck [= <- _ _]. tauto.
      * unfold bound_for. simpl. rewrite !fn_lookup_insert. simpl. by rewrite (proj2 (Z.eqb_neq _ _) Ew).
    + destruct (Hf k Hk) as [F1 F2 F3 F4]. split.
      * split; simpl; rewrite ?fn_lookup_insert_ne by done; auto.
      * unfold bound_for. simpl. by rewrite !fn_lookup_insert_ne.
  - pose proof (tf_taken _ _ (Hf i Hi) _ _ _ Hp) as Hc. unfold thread_run. rewrite (cluster_id_wanted c Hc).
    destruct (switch_to_ok w0 e i c w (sn_ok _ _ Hon) Hi He) as (ret & w1 & E & Hok1 & T1 & P1 & _ & _ & K1).
    pose proof (switch_reaches w0 e i c w ret w1 (sn_ok _ _ Hon) H2 Hi Hpu Hc E) as Hcl. rewrite E. cbn [mbind option_bind].
    set (w2 := match comp with Some h => _ | None => _ end).
    assert (V2 : bL_threads w2 = bL_threads w /\ thread_state w2 = thread_state w /\ cpu_logical_map w2 = cpu_logical_map w1).
    { unfold w2. by destruct comp. }
    clearbody w2. destruct V2 as (T2 & P2 & M2). intros [= <-] k Hk. destruct (Hf k Hk) as [F1 F2 F3 F4].
    unfold bound_for, cluster_of in *. change (cpu_logical_map (goto_pc i Waiting w2)) with (cpu_logical_map w2).
    change (bL_threads (goto_pc i Waiting w2)) with (bL_threads w2). rewrite pc_goto, T2, M2.
    destruct (decide (i = k)) as [<-|Hik].
    + split; [|by rewrite Hp, Hcl]. split; change (bL_threads (goto_pc i Waiting w2)) with (bL_threads w2); rewrite ?T2; auto.
      intros c' comp' ck'. rewrite pc_goto, decide_True by done. done.
    + rewrite P2, (K1 k) by done. split; [|done].
      split; change (bL_threads (goto_pc i Waiting w2)) with (bL_threads w2); rewrite ?T2; auto.
      intros c' comp' ck'. rewrite pc_goto, decide_False, P2 by done. apply F4.
Qed.

(** Asking for a switch makes the CPU bound for the cluster asked for, and no other. *)
Lemma request_follows i n w k :
  thread_follows w i -> thread_follows w k -> cluster_id n -> 0 <= i < NR_CPUS ->
  let w' := (bL_switch_request_cb i n None 0 w).2 in
  thread_follows w' k /\ bound_for w' k = if decide (i = k) then n else bound_for w k.
Proof.
  intros Fi [F1 F2 F3 F4] Hn Hr. unfold bL_switch_request_cb, request_check, request_post.
  rewrite (proj2 (Z.ltb_ge _ _)), (proj2 (Z.leb_gt _ _)) by lia. cbn [orb].
  rewrite (tf_task _ _ Fi), (tf_completer _ _ Fi). cbv zeta. cbn [snd]. destruct (decide (i = k)) as [<-|Hik].
  - split; [split; rewrite ?threads_upd, ?decide_True by done; auto; by right|].
    unfold bound_for. rewrite threads_upd, decide_True by done. simpl. by rewrite (cluster_id_wanted n Hn).
  - split; [split; rewrite ?threads_upd, ?decide_False by done; auto|].
    unfold bound_for. by rewrite threads_upd, decide_False by done.
Qed.

(** A step of a call changes neither the switcher nor where other CPUs are wanted. *)
Lemma follows_same w0 i s s' :
  follows w0 s -> sw s' = sw s -> others_same i s s' ->
  (forall k, k <> i -> physical_cluster s' k = physical_cluster s k) ->
  (i ∈ (pairs w0).*1 -> wants_on s' i = wants_on s i) -> follows w0 s'.
Proof.
  intros [F1 F2] Es Ho Hp Hi. split; intros k Hk; rewrite Es; [auto|]. rewrite F2 by done.
  destruct (decide (k = i)) as [->|Hki]; [symmetry; auto|]. unfold wants_on. by rewrite (Ho k), (Hp k).
Qed.

Lemma rate_step_follows w0 pl i s :
  sys_ok w0 s -> i ∈ (pairs w0).*1 -> follows w0 s -> follows w0 (bL_cpufreq_set_rate_step pl i s).
Proof.
  intros Hs Hi Hf. pose proof (proj2 (online_pairs w0 (sw s) (sn_ok _ _ (sy_sw _ _ Hs)) i) Hi) as Hio.
  pose proof (do_call s (sy_drv _ _ Hs) i Hio) as Hc. unfold call_ok in Hc.
  pose proof (step_others pl i s) as Ho. revert Ho. unfold bL_cpufreq_set_rate_step. rewrite (do_on _ (sy_drv _ _ Hs)).
  destruct (rate_state s i) as [|o n r|o n r p|o n r p sc|o n r p nr|o n r ret|o n r|o r|o r sc|o r nr] eqn:Ei; intros Ho; [done|..].
  - destruct (cluster_lock s n); [done|]. destruct Hc as [Hp _]. apply (follows_same w0 i s); try done.
    intros _. unfold wants_on. rewrite pc_set, decide_True by done. by rewrite Ei.
  - apply (follows_same w0 i s); try done; [intros k Hk; simpl; by rewrite fn_lookup_insert_ne|].
    intros _. unfold wants_on. by rewrite pc_set, decide_True, Ei.
  - destruct (scan_step s n sc); (apply (follows_same w0 i s); try done); intros _; unfold wants_on;
      by rewrite pc_set, decide_True, Ei.
  - destruct (nonzero (clk_set_rate _ _ _)) eqn:Hz.
    + apply (follows_same w0 i s); try done. intros _. unfold wants_on. by rewrite pc_set, decide_True, Ei.
    + destruct Hc as [Hp _]. destruct (Z.eqb_spec o n) as [->|Hon]; cbn [negb] in *; apply (follows_same w0 i s); try done.
      * intros _. unfold wants_on. rewrite end_pc, decide_True, Ei by done.
        by destruct (end_fields i 0 r (set_lock n None (s <| clk_rate := <[n := u32 (nr * 1000)]> (clk_rate s) |>))) as (_ & _ & -> & _).
      * intros _. unfold wants_on. by rewrite pc_set, decide_True, Ei.
  - destruct Hc as [_ Hret]. apply (follows_same w0 i s); try done.
    + unfold set_target_end. by rewrite Hret.
    + intros k Hk. destruct (end_fields i ret r (set_lock n None (set_cluster i o s))) as (_ & _ & -> & _).
      simpl. by rewrite fn_lookup_insert_ne.
    + intros _. unfold wants_on. rewrite end_pc, decide_True, Ei by done.
      destruct (end_fields i ret r (set_lock n None (set_cluster i o s))) as (_ & _ & -> & _). apply fn_lookup_insert.
  - destruct Hc as [Hp Ho']. pose proof (do_req s (sy_drv _ _ Hs) i Hio) as Hn. rewrite Ei, Hp in Hn.
    specialize (proj1 (Hn eq_refl)) as Hn'. pose proof Hio as Hir%elem_of_cpus_of.
    assert (G : forall k, k ∈ (pairs w0).*1 -> thread_follows (bL_switch_request_cb i n None 0 (sw s)).2 k
      /\ bound_for (bL_switch_request_cb i n None 0 (sw s)).2 k = if decide (i = k) then n else bound_for (sw s) k).
    { intros k Hk. apply request_follows; [by apply Hf|by apply Hf|done|lia]. }
    split; intros k Hk; destruct (G k Hk) as [G1 G2]; [exact G1|]. simpl. rewrite G2. destruct (decide (i = k)) as [<-|Hik].
    + unfold wants_on. by rewrite pc_set, decide_True.
    + rewrite (fo_bound _ _ Hf k Hk). unfold wants_on. by rewrite pc_set, decide_False.
  - destruct (cluster_lock s o); [done|]. apply (follows_same w0 i s); try done.
    intros _. unfold wants_on. by rewrite pc_set, decide_True, Ei.
  - destruct (scan_step s o sc); (apply (follows_same w0 i s); try done); intros _; unfold wants_on;
      by rewrite pc_set, decide_True, Ei.
  - set (s1 := if nonzero nr && _ then _ else _) in *.
    assert (E1 : sw s1 = sw s /\ physical_cluster s1 = physical_cluster s) by (unfold s1; by case_match).
    clearbody s1. destruct E1 as [E1 E2]. apply (follows_same w0 i s); try done.
    + intros k Hk. destruct (end_fields i 0 r (set_lock o None s1)) as (_ & _ & -> & _). simpl. by rewrite E2.
    + intros _. unfold wants_on. rewrite end_pc, decide_True, Ei by done.
      destruct (end_fields i 0 r (set_lock o None s1)) as (_ & _ & -> & _). simpl. by rewrite E2.
Qed.

Definition ev_power_ok (ev : freq_ev) : Prop := match ev with FThread e _ => forall m, power_up_result e m = 0 | _ => True end.

Lemma freq_step_follows w0 ev s s' :
  sys_ok w0 s -> two_clusters w0 -> freq_ev_ok w0 ev -> ev_power_ok ev -> follows w0 s -> freq_step ev s = Some s' ->
  follows w0 s'.
Proof.
  intros Hs H2 Hev Hpu Hf. destruct ev as [pl i target rel|pl i lo hi|pl i|e i]; cbn [freq_step freq_ev_ok ev_power_ok] in *.
  - destruct (rate_state s i) eqn:Ei; try (by intros [= <-]).
    destruct (set_target_ok pl i target rel s (sy_drv _ _ Hs)) as (s2 & E2 & H3);
      [by apply (online_pairs w0), Hev; apply Hs|done|apply Hev|].
    rewrite E2. intros [= <-]. destruct H3 as [->|(n & r & old & _ & ->)]; [done|].
    apply (follows_same w0 i s); try done.
    + intros j Hj. rewrite pc_set. by rewrite decide_False by congruence.
    + intros _. unfold wants_on. by rewrite pc_set, decide_True, Ei.
  - destruct (rate_state s i) eqn:Ei; try (by intros [= <-]). unfold set_limits.
    destruct (bL_cpufreq_verify_policy pl i _ s) as [[ret p]|]; [|done]. cbn. intros [= <-].
    by apply (follows_same w0 i s).
  - intros [= <-]. by apply rate_step_follows.
  - destruct Hev as [Hi He]. destruct (bL_switcher_thread_step e i (sw s)) as [w|] eqn:Ew; [|done]. cbn. intros [= <-].
    pose proof (thread_step_follows w0 e i (sw s) w (sy_sw _ _ Hs) H2 Hi He Hpu (fo_thread _ _ Hf) Ew) as G.
    split; intros k Hk; destruct (G k Hk) as [G1 G2]; [exact G1|]. simpl. rewrite G2. by apply Hf.
Qed.

Lemma sys_run_follows w0 l s s' :
  sys_ok w0 s -> two_clusters w0 -> follows w0 s -> Forall (freq_ev_ok w0) l -> Forall ev_power_ok l ->
  freq_run l s = Some s' -> follows w0 s'.
Proof.
  intros Hs H2 Hi Hl. revert s Hs Hi. induction Hl as [|ev l Hev Hl IH]; intros s Hs Hi Hc; cbn [freq_run]; [by intros [= <-]|].
  apply Forall_cons in Hc as [Hc1 Hc2]. destruct (sys_step_ok w0 ev s Hs Hev) as (s1 & E1 & Hs1). rewrite E1. cbn.
  apply (IH s1 Hs1); [|done]. by apply (freq_step_follows w0 ev s s1).
Qed.

(** A CPU as [bL_switcher_enable] leaves it: a thread without requests, on an A15. *)
Record switcher_fresh w (i : Z) : Prop := {
  sf_task : task (bL_threads w i) = TTask;
  sf_completer : completer (bL_threads w i) = None;
  sf_wanted : wanted_cluster (bL_threads w i) = -1;
  sf_pc : thread_state w i = Waiting;
  sf_cluster : cluster_of w i = A15_CLUSTER;
}.


(** The driver does not ask where a CPU runs.  Initialising the policies with the switcher on
    takes every CPU to be on an A15, and leaves the switcher alone; a CPU that runs on an A7, as all
    do if the A7s come first in the pairing, is counted on the wrong clock from then on. *)
Theorem init_assumes_a15 pl f s :
  f ∈ big -> inited f [] s -> kzalloc_ok pl = true -> (forall i, cpu_device pl i = true) ->
  exists s1, init_cpus pl (cpus_of (cpu_online_mask (sw s))) s = Some s1
    /\ forall i, i ∈ cpus_of (cpu_online_mask (sw s)) ->
         physical_cluster s1 i = A15_CLUSTER /\ cluster_of (sw s1) i = cluster_of (sw s) i
         /\ (cluster_of (sw s) i = A7_CLUSTER -> cluster_of (sw s1) i <> physical_cluster s1 i).
Proof.
  intros Hf Hin Hk Hdev.
  destruct (init_all pl f (cpus_of (cpu_online_mask (sw s))) [] s Hf Hin Hk Hdev) as (s1 & E1 & Hin1 & Esw).
  exists s1. split; [done|]. intros i Hi. destruct (in_req _ _ _ Hin1 i Hi) as [-> _]. rewrite Esw.
  split; [done|]. split; [done|]. by intros ->.
Qed.

End on.

(** * What goes wrong *)

(** Registering while the switcher is on.  If the driver comes up with the switcher
    already on, so that no cluster's table has been loaded before, initialising a policy
    faults: [_get_cluster_clk_and_freq_table] takes the virtual cluster for that of the
    device, loads nothing, and the tables to merge are NULL. *)
Theorem init_with_switcher_faults pl i s :
  bL_switching_enabled s = true -> cluster_usage s MAX_CLUSTERS = 0 -> freq_table s A15_CLUSTER = NullTable ->
  (forall k, cpu_device pl k = true) -> bL_cpufreq_init pl i s = None.
Proof.
  intros On U0 Tb Hdev. unfold bL_cpufreq_init. rewrite Hdev. cbn [negb].
  unfold get_cluster_clk_and_freq_table, cpu_to_cluster. rewrite On, Z.ltb_irrefl, usage_add, U0.
  change (negb (0 + 1 =? 1)) with false. cbn [get_clusters]. rewrite !Hdev. cbn [negb].
  rewrite get_counts; [|done|rewrite usage_add; lia]. change (nonzero 0) with false. cbv iota beta.
  rewrite get_counts; [|done|rewrite !usage_add; lia]. change (nonzero 0) with false. cbv iota beta.
  unfold merge_cluster_tables. set (s3 := add_usage MAX_CLUSTERS 1 (add_usage MAX_CLUSTERS 1 (add_usage MAX_CLUSTERS 1 s))).
  assert (E : freq_table s3 = freq_table s) by done. by rewrite E, Tb.
Qed.

Lemma register_keeps pl o s s' :
  arm_bL_ops s = None -> bL_cpufreq_register pl o true s = (0, s') ->
  bL_switching_enabled s' = bL_switcher_active (sw s) /\ cluster_usage s' = cluster_usage s /\ freq_table s' = freq_table s.
Proof.
  intros Hn. unfold bL_cpufreq_register. rewrite Hn. destruct o as [o|]; [|by intros [= E _]]. cbn [negb].
  destruct (nonzero (cpufreq_register pl)) eqn:E1; [intros [= E _]; by rewrite E in E1|].
  destruct (nonzero (register_notifier pl)) eqn:E2; [intros [= E _]; by rewrite E in E2|]. by intros [= <-].
Qed.

Lemma init_stale pl s :
  bL_switching_enabled s = false -> package_id pl 0 = A15_CLUSTER -> cpu_device pl 0 = true ->
  cluster_usage s A15_CLUSTER = -1 -> freq_table s A15_CLUSTER = NullTable -> bL_cpufreq_init pl 0 s = None.
Proof.
  intros Off P D U T. unfold bL_cpufreq_init. rewrite D. cbn [negb].
  assert (E : cpu_to_cluster pl s 0 = A15_CLUSTER) by (unfold cpu_to_cluster; by rewrite Off).
  unfold get_cluster_clk_and_freq_table, _get_cluster_clk_and_freq_table. rewrite !E.
  change (A15_CLUSTER <? MAX_CLUSTERS) with true. cbv iota. rewrite usage_add, U. change (negb (-1 + 1 =? 1)) with true.
  cbv iota. cbn [mbind option_bind]. change (nonzero 0) with false. cbv iota.
  change (freq_table (add_usage A15_CLUSTER 1 s)) with (freq_table s). by rewrite T.
Qed.

(** Unregistering counts the wrong CPUs.  [bL_cpufreq_unregister] gives back the clusters
    of CPUs 0 and 1, as if CPU 1 belonged to the second cluster.  Where both are A15s, the
    A7s' clock and table are kept for good, the A15s' are given back twice, and when the
    driver is registered again, initialising CPU 0 faults. *)
Theorem unregister_unbalanced pl o s :
  bL_switching_enabled s = false -> arm_bL_ops s = Some o -> package_id pl 0 = A15_CLUSTER ->
  package_id pl 1 = A15_CLUSTER -> cluster_usage s A15_CLUSTER = 1 -> (forall k, cpu_device pl k = true) ->
  exists s1, bL_cpufreq_unregister pl (Some o) s = Some s1
    /\ clk s1 A7_CLUSTER = clk s A7_CLUSTER /\ cluster_usage s1 A7_CLUSTER = cluster_usage s A7_CLUSTER
    /\ cluster_usage s1 A15_CLUSTER = -1
    /\ forall pl' s2, bL_switcher_active (sw s) = false -> package_id pl' 0 = A15_CLUSTER -> cpu_device pl' 0 = true ->
         bL_cpufreq_register pl' (Some o) true s1 = (0, s2) -> bL_cpufreq_init pl' 0 s2 = None.
Proof.
  intros Off Ho P0 P1 U Hdev. unfold bL_cpufreq_unregister. rewrite bool_decide_true by done. cbn [negb].
  change (bL_switching_enabled (s <| notifier_registered := false |> <| driver_registered := false |>)) with (bL_switching_enabled s).
  rewrite Off, !Hdev. cbn [negb]. set (s0 := s <| notifier_registered := false |> <| driver_registered := false |>).
  assert (E0 : cpu_to_cluster pl s0 0 = A15_CLUSTER) by (unfold cpu_to_cluster; simpl; by rewrite Off).
  assert (U0 : cluster_usage s0 A15_CLUSTER = 1) by done.
  assert (V0 : bL_switching_enabled s0 = false /\ sw s0 = sw s /\ clk s0 = clk s /\ cluster_usage s0 = cluster_usage s) by done.
  clearbody s0. destruct V0 as (V1 & V2 & V3 & V4).
  unfold put_cluster_clk_and_freq_table at 2. rewrite E0. change (A15_CLUSTER <? MAX_CLUSTERS) with true. cbv iota.
  unfold _put_cluster_clk_and_freq_table. rewrite E0, usage_add, U0. change (1 + -1 =? 0) with true. cbv iota.
  set (s1 := add_usage A15_CLUSTER (-1) s0 <| clk := _ |> <| freq_table := _ |>).
  assert (E1 : cpu_to_cluster pl s1 1 = A15_CLUSTER) by (unfold cpu_to_cluster; simpl; by rewrite V1).
  assert (U1 : cluster_usage s1 A15_CLUSTER = 0) by (simpl; rewrite fn_lookup_insert, U0; done).
  unfold put_cluster_clk_and_freq_table. rewrite E1. change (A15_CLUSTER <? MAX_CLUSTERS) with true. cbv iota.
  unfold _put_cluster_clk_and_freq_table. rewrite E1, usage_add, U1. change (0 + -1 =? 0) with false. cbv iota.
  eexists. split; [reflexivity|]. split_and!.
  - simpl. by rewrite fn_lookup_insert_ne, V3.
  - simpl. by rewrite !fn_lookup_insert_ne, V4.
  - simpl. rewrite !fn_lookup_insert, U0. done.
  - intros pl' s2 Hact P' D' E. apply register_keeps in E as (R1 & R2 & R3); [|done].
    apply init_stale; [by rewrite R1; simpl; rewrite V2|done|done|..].
    + rewrite R2. simpl. rewrite !fn_lookup_insert, U0. done.
    + rewrite R3. simpl. by rewrite fn_lookup_insert.
Qed.

End driver_inv.

(** * Witnesses *)

Definition sample_big : list Z := [500000; 600000; 1000000].
Definition sample_little : list Z := [350000; 500000; 1000000].

(** The driver after the switcher of [sample_bls] has been turned on, both tables having
    been loaded before. *)
Definition sample_driver : driver :=
  {| bL_switching_enabled := true; arm_bL_ops := Some 0; driver_registered := true; notifier_registered := true;
     clk := fun c => c <? 2; clk_rate := fun c => if c =? 0 then 1000000 * 1000 else 350000 * 1000;
     freq_table := fun c => if c =? 0 then TableAt sample_big else if c =? 1 then TableAt sample_little else NullTable;
     cluster_usage := fun c => if c <? 2 then 1 else 0; clk_big_min := 0; clk_little_max := 0;
     physical_cluster := fun _ => 0; cpu_last_req_freq := fun _ => 0; cluster_lock := fun _ => None;
     policies := fun i => mk_policy i 0 0 0 0 0 0 0; rate_state := fun _ => RIdle; old_freq := fun _ => 0;
     freq_log := []; sw := sample_on |}.

Definition sample_platform : platform :=
  mk_platform (fun i => if i <? 2 then 0 else 1) (fun i => if i <? 2 then 3 else 28) (fun _ => true) (fun _ => 0)
    (fun i => inr (if i <? 2 then sample_big else sample_little)) (fun _ => None) true (fun _ _ => 0) None 0 0.

Definition sample_off : driver := sample_driver <| bL_switching_enabled := false |>.

(** CPU 0 goes down to the A7s while CPU 1 asks for another frequency of the A15s. *)
Definition sample_race (pl : platform) : list freq_ev :=
  [FTarget pl 0 175000 CPUFREQ_RELATION_L; FRate pl 0; FRate pl 0; FTarget pl 1 600000 CPUFREQ_RELATION_L]
  ++ repeat (FRate pl 1) 8 ++ repeat (FRate pl 0) 14 ++ repeat (FThread sample_env 0) 2.

Lemma sample_tables_ok : tables_ok sample_big sample_little.
Proof.
  split; [repeat constructor; lia|repeat constructor; try done; lia|done| |by vm_compute].
  assert (Hall : Forall (fun b => Forall (fun l => VIRT_FREQ A7_CLUSTER l <= b) sample_little) sample_big).
  { repeat constructor; by vm_compute. }
  intros b l Hb Hl. rewrite Forall_forall in Hall. specialize (Hall b Hb). rewrite Forall_forall in Hall. by apply Hall.
Qed.

Lemma sample_inited : inited sample_big sample_little 1000000 [] sample_driver.
Proof.
  split; try done; [split; try done; by left|..]; intros i Hi; by apply elem_of_nil in Hi.
Qed.

Lemma sample_member1 : 1 ∈ (pairs (H := big_LITTLE_MP) sample_bls).*1.
Proof. apply list_elem_of_fmap. exists (1, 3). split; [done|]. vm_compute. right. left. Qed.

Lemma sample_race_ok pl : Forall (freq_ev_ok (H := big_LITTLE_MP) sample_bls) (sample_race pl).
Proof.
  pose proof sample_member as H0. pose proof sample_member1 as H1.
  repeat apply Forall_cons_2; try apply Forall_nil_2; cbn [freq_ev_ok]; auto using or_introl.
Qed.

Lemma sample_online : cpus_of (H := big_LITTLE_MP) (cpu_online_mask (sw sample_driver)) <> [].
Proof. by vm_compute. Qed.

Lemma run_view {A} (view : driver -> A) pl l k s0 v :
  view <$> (s ← init_cpus (H := big_LITTLE_MP) pl l s0; freq_run (H := big_LITTLE_MP) k s) = Some v ->
  exists s1 s2, init_cpus (H := big_LITTLE_MP) pl l s0 = Some s1
    /\ freq_run (H := big_LITTLE_MP) k s1 = Some s2 /\ view s2 = v.
Proof.
  destruct (init_cpus pl l s0) as [s1|]; [|done]. cbn [mbind option_bind].
  destruct (freq_run k s1) as [s2|] eqn:E; [|done]. intros [= <-]. by exists s1, s2.
Qed.

(** A clock that fails can leave a CPU too slow.  While CPU 0 is on its way to the A7s,
    CPU 1 sets the A15s' clock without counting it; when the A7s' clock then cannot be set,
    CPU 0 is put back, but the A15s' clock is not set again.  At rest it is slower than what
    was granted to CPU 0, which is still reported as its frequency. *)
Theorem clock_failure_underclocks :
  let pl := sample_platform in
  let failing := mk_platform (package_id pl) (core_cpumask pl) (cpu_device pl) (init_opp_table pl)
                   (opp_init_cpufreq_table pl) (clk_get_sys pl) true (fun c _ => if c =? A7_CLUSTER then - EINVAL else 0)
                   None 0 0 in
  exists s1 s2, init_cpus (H := big_LITTLE_MP) pl [0; 1] sample_driver = Some s1
    /\ freq_run (H := big_LITTLE_MP) (sample_race failing) s1 = Some s2
    /\ (rate_state s2 0, rate_state s2 1, physical_cluster s2 0, bL_cpufreq_get_rate s2 0, clk_rate s2 A15_CLUSTER)
       = (RIdle, RIdle, A15_CLUSTER, 1000000, 600000 * 1000).
Proof.
  intros pl failing. apply (run_view (fun s => (rate_state s 0, rate_state s 1, physical_cluster s 0,
    bL_cpufreq_get_rate s 0, clk_rate s A15_CLUSTER))). by vm_compute.
Qed.

(** A clock can be set to what no operating point of its cluster has.  Both CPUs are on the A7s.
    CPU 0 goes up to the A15s: it writes its new frequency, and before it has also written its new
    cluster, CPU 1, holding only the A7s' lock, counts that frequency as one for the A7s, and
    sets their clock to 2 GHz, though they go up to 1 GHz. *)
Definition half_written (pl : platform) : list freq_ev :=
  FTarget pl 0 175000 CPUFREQ_RELATION_L :: repeat (FRate pl 0) 16
  ++ FTarget pl 1 175000 CPUFREQ_RELATION_L :: repeat (FRate pl 1) 16
  ++ FTarget pl 0 1000000 CPUFREQ_RELATION_L :: FRate pl 0
  :: FTarget pl 1 250000 CPUFREQ_RELATION_L :: repeat (FRate pl 1) 8.

Theorem half_written_overclocks :
  exists s1 s2, init_cpus (H := big_LITTLE_MP) sample_platform [0; 1] sample_driver = Some s1
    /\ freq_run (H := big_LITTLE_MP) (half_written sample_platform) s1 = Some s2
    /\ (rate_state s2 1, cpu_last_req_freq s2 1, clk_rate s2 A7_CLUSTER, bool_decide (2000000 ∈ sample_little))
       = (RIdle, 250000, 2000000 * 1000, false).
Proof.
  apply (run_view (fun s => (rate_state s 1, cpu_last_req_freq s 1, clk_rate s A7_CLUSTER,
    bool_decide (2000000 ∈ sample_little)))). by vm_compute.
Qed.

(** A board whose A7s come first: the switcher leaves the logical CPUs on them. *)
Definition a7_first : bls :=
  (bL_switcher_enable (H := big_LITTLE_MP) sample_env
     (sample_bls <| cpu_logical_map := fun i => if i <? 2 then 256 + i else i - 2 |>
                 <| running_on := fun i => if i <? 2 then 256 + i else i - 2 |>)).2.

Definition a7_driver : driver := sample_driver <| sw := a7_first |>.

Lemma init_assumes_a15_witness :
  exists s1, init_cpus (H := big_LITTLE_MP) sample_platform
               (cpus_of (H := big_LITTLE_MP) (cpu_online_mask (sw a7_driver))) a7_driver = Some s1
    /\ cluster_of (sw s1) 0 <> physical_cluster s1 0.
Proof.
  destruct (init_assumes_a15 (H := big_LITTLE_MP) sample_big sample_little sample_tables_ok sample_platform 1000000
    a7_driver) as (s1 & E & Hi); [by right; right; left| |done|done|].
  - split; try done; [split; try done; by left|..]; intros i Hi; by apply elem_of_nil in Hi.
  - exists s1. split; [exact E|]. apply (Hi 0); [|by vm_compute].
    apply (bool_decide_unpack _). by vm_compute.
Defined.


Lemma set_rate_terminates_witness :
  exists s1 s2 cpus s3, init_cpus (H := big_LITTLE_MP) sample_platform [0; 1] sample_driver = Some s1
    /\ freq_run (H := big_LITTLE_MP) (take 4 (sample_race sample_platform)) s1 = Some s2
    /\ freq_run (H := big_LITTLE_MP) (FRate sample_platform <$> cpus) s2 = Some s3
    /\ (forall i, rate_state s3 i = RIdle)
    /\ (length cpus <= work (H := big_LITTLE_MP) (pairs (H := big_LITTLE_MP) sample_bls).*1 s2)%nat.
Proof.
  exact (set_rate_terminates (H := big_LITTLE_MP) sample_big sample_little sample_tables_ok sample_bls sample_platform
    1000000 sample_driver (take 4 (sample_race sample_platform)) sample_platform
    ltac:(by right; right; left) sample_inited sample_on_ok sample_online eq_refl (fun _ => eq_refl)
    (Forall_take _ 4%nat _ (sample_race_ok sample_platform))).
Defined.


Lemma init_with_switcher_faults_witness :
  bL_cpufreq_init (H := big_LITTLE_MP) sample_platform 0
    (sample_driver <| freq_table := fun _ => NullTable |> <| cluster_usage := fun _ => 0 |>) = None.
Proof.
  exact (init_with_switcher_faults (H := big_LITTLE_MP) sample_platform 0
    (sample_driver <| freq_table := fun _ => NullTable |> <| cluster_usage := fun _ => 0 |>)
    eq_refl eq_refl eq_refl (fun _ => eq_refl)).
Defined.

Lemma unregister_unbalanced_witness :
  exists s1, bL_cpufreq_unregister sample_platform (Some 0) sample_off = Some s1
    /\ cluster_usage s1 A15_CLUSTER = -1.
Proof.
  destruct (unregister_unbalanced (H := big_LITTLE_MP) sample_platform 0 sample_off
    eq_refl eq_refl eq_refl eq_refl eq_refl (fun _ => eq_refl)) as (s1 & E & _ & _ & U & _).
  exists s1. split; [exact E|exact U].
Defined.
